(* ===== verification/_CoqProject ===== *)
-Q . S2P
Prelude.v
Float.v
LList.v
LStore.v
IdAlloc.v
Status.v
Nettypes.v
Heap.v
Base.v
Wp.v
Model.v
Nl.v
Actions.v
Rules.v
Broadcast.v
CList.v
SBridge.v
LBridge.v
Validate.v
Commit.v
NetOps.v
Kernel.v
Masks.v
VirtRules.v
Engine.v
BroadcastSpec.v
Inv.v
Names.v
Create.v
Change.v
Destroy.v
DestroyAll.v
Api.v
Links.v
Valid.v
Scenarios.v
Dump.v
DumpSpec.v
DumpTcl.v
DumpTheorems.v
Lsctl.v
LsctlScopes.v
LsctlWords.v
LsctlTheorems.v
Settled.v
Frame.v
CommitFrame.v
Progress.v
Settles.v
Netlink.v
NetlinkSpec.v
Log.v
Client.v
Daemon.v
Domain.v
Remote.v
Shortcuts.v
TestPrograms.v
