(* ===== verification/Prelude.v ===== *)
(** * LSDN: a verification library for a network orchestrator

    LSDN (src/netmodel) keeps a model of virtual networks in memory and makes the Linux kernel
    agree with it. A program builds the model with the calls of [lsdn.h] (settings, networks,
    physes, attachments, virts and their rules), [lsdn_validate] checks it, and [lsdn_commit]
    turns what changed since the last commit into netlink requests. Every network type
    (direct, vlan, three kinds of vxlan, two of geneve) is a table of functions
    ([struct lsdn_net_ops]) that the commit calls for attachments, virts, remote attachments
    and remote virts; the types are built on two kinds of bridges, which are built on the rules
    engine and on the requests of nl.c.

    ** Representation

    The code is translated to functions of the state monad of this file. [Ok a s] is a return
    with answer [a] in state [s]; [Fault f] says that the C program stops or leaves defined
    behaviour: a failed assertion, [abort], a NULL or dangling pointer, an array index out of
    bounds, a corrupted list. Errors the C code answers are values of [lsdn_err_t].
    The state is one [heap] (file Heap): allocated objects by pointer, structures embedded in
    them by pointer and member, the doubly linked lists, the requests sent to the kernel
    ([H.trace]) with their answers, and the calls of callbacks ([H.events]). The world is a
    parameter ([Env.env]): which allocations fail, what uninitialised memory holds, how an
    interface name is resolved, and which requests the kernel acknowledges, given all requests
    before. Fixed-width integers are [Z] with their wrap-around written out ([u8] to [u64]);
    rates and the numbers computed with them are IEEE floats and doubles, rounded at every step.
    Pointers are never reused, so that a use after [free] faults.

    ** Files

    - Prelude: the monad, its total-correctness logic [wp], lists and machine integers.
    - Float: floats and doubles of C, on the floating-point numbers of the standard library.
    - LList, LStore: netmodel/list.c. LList has the rings of nodes, pointer by pointer; LStore
      the abstract store of sequences and the theorem that the former implements the latter.
      The rest of the library uses the store.
    - IdAlloc (idalloc.c), Status (errors.c, state.h), Nettypes (nettypes.c): self-contained.
    - Heap, Base, Wp: the structures; malloc, lists, error returns, reports, interface handles
      and names (names.c); the rules and tactics to execute the definitions symbolically.
    - Model: the API of lsdn.c and the virt rules of rules.c. Validate: [lsdn_validate].
      Commit: [lsdn_commit], [lsdn_context_cleanup], over the interface [NetOps].
    - Nl (nl.c), Actions (callbacks that add tc actions), Rules (rulesets of rules.c, net.c),
      Broadcast (broadcasts of rules.c), CList (clist.c), SBridge (sbridge.c), LBridge
      (lbridge.c), NetOps (net_direct.c, net_vlan.c, net_vxlan.c, net_geneve.c: the instance of
      the interface [NetOps]). Kernel: the kernel's links as the effect of the requests.
    - Netlink (nl.c): the requests as netlink messages, over the interface [Mnl] to the netlink
      library; the answers, the MTU query, the clock of the packet scheduler.
    - Dump: dump.c, over the interface [JsonC] to the JSON library.
    - Lsctl (src/lsctl/lsext.c): the commands of lsctl, their options and the stack of scopes,
      over the interface [TclLib] to the Tcl library; scripts are trees of commands.
    - Log: log.c. Client, Daemon: src/lsctlc/main.c and src/daemon/lsctld.c, which carry scripts
      and their output over a socket; the interpreter of the daemon is a parameter. Remote: the
      daemon with the interpreter of Lsctl.
    - Domain (src/hooks/domain.c): virtual machines, over the interface [Host] to the system and to
      libvirt. TestPrograms (src/test): the programs that test the library.
    - Masks, VirtRules, Engine, BroadcastSpec: theorems about rules, rulesets and broadcasts.
    - Inv, Names, Create, Change, Destroy, DestroyAll, Api: the invariant of the network model
      and that the API keeps it. Valid: what validation decides. Links: what attaching and
      detaching do to the links of the kernel. DumpSpec, DumpTcl, DumpTheorems: what a dump
      says. LsctlScopes, LsctlWords, LsctlTheorems: scopes and words of lsctl scripts. Settled:
      commits with nothing to do. Frame: what the operations of the network types leave alone, the
      interface [FramedOps] of the commit; CommitFrame, Progress, Settles: what the phases of a
      commit leave alone and what they achieve. Shortcuts: the inline functions of
      include/rules.h. NetlinkSpec: reading a message back. Scenarios: whole programs.

    ** Theorems

    - Lists: [list_refinement], [foreach_snapshot] (the loop macro visits the entries that were
      there at its start when its body unlinks at most the entry it is at; the ground for
      [foreach] of Base).
    - The API: [api_safe] (every call that respects its precondition, from every reachable
      state, returns, keeps the invariant, sends nothing), [name_set_search], [connect_reaches],
      [free_new_network] (a network that was never committed goes with all its parts, and every
      other object stays as it was).
    - Validation: [validate_decides] (it terminates and answers OK exactly for the models that
      satisfy the declarative predicate [valid]).
    - Rules: [masked_key_exact] and [filter_of_key_exact] (keys and the options of filters, with
      their Ethernet type, mean the same frames as the rules), [ruleset_add_spec] and
      [ruleset_remove_spec] (for every answer of malloc and the kernel, the refused update that
      leaves dangling rules included), [vr_add_masked_condition], [new_masked_rule].
    - Broadcasts: [broadcast_add_spec], [broadcast_remove_spec].
    - The kernel: [attach_links], [attach_detach] (for vlan, vxlan with multicast and vxlan end to
      end: creation of tunnel and bridge, undone when the kernel refuses a request, but not when
      memory runs out), [direct_detach_deletes].
    - The commit: [commit_settles] (from a state without anything to remove or renew, a commit
      that answers OK has committed every object of the model, whatever failed on the way, and
      the next commit sends no request); it rests on
      [commit_settled] (a commit without changes does nothing) and on the frame logic of Frame,
      which every operation of the network types satisfies ([lsdn_net_ops_framed]).
    - Messages: [message_carries_request] (a receiver decodes every request from its message,
      with the burst of a policer in ticks),
      [finish_rate_exact], [await_response_exact].
    - Dumps: [dump_json_content], [dump_tcl_script] (a dump says exactly what the model holds, for
      models without the settings that dump.c gets wrong and, in scripts, without partial masks
      of MAC addresses).
    - Scripts: [enough_fuel], [scripts_leave_scopes], [condition_replays] (the word a dump prints
      for a condition on an IP address is parsed into that condition), [parse_units_exact].
    - Client and daemon: [client_delivers] (in every run without errors the client ends, with
      everything sent and printed), [scripts_evaluated] (the daemon evaluates what its clients
      send, one after the other, and replies what the buffer of [stdout] lets through),
      [remote_script] (both together), [clients_begin_at_root] (scripts
      of one client leave no scope open for the next), [start_reports_once].
    - Logging: [log_exact]. Virtual machines: [create_domain_spec].
    - The tests: [test_basic_passes], [test_fw_passes], [test_mtu_passes], [test_nettypes_passes] (the
      programs of src/test succeed, with the bridges and filters in the kernel that their scripts
      look for with pings).
    - Addresses, identifiers, reports: round trips and bounds.
    - Defects: theorems whose doc comment names a program on which the code fails, for the
      findings of the manifest ([third_match_out_of_bounds], [direct_detach_deletes],
      [create_domain_overrun]), and examples that are run ([refused_update_dangles],
      [nomem_leaves_the_tunnel], [flush_without_memory], [parse_mac_accepts_truncated],
      [output_is_late], [scope_hazards], [direct_networks_separated] and those of Scenarios,
      where [commit_cleanup_clean] runs a commit and a cleanup for each network type).

    ** Bounds and fuel

    No definition that models a loop of the network model has fuel: [lsdn_foreach] is an
    iteration over the entries a list has at its start, by [foreach_snapshot]; the loops over
    name tables, filters and slots are structural. The ring loop of LList has fuel, which
    [foreach_snapshot] shows to be enough when it exceeds the length of the list. The parsers of
    Nettypes recurse on the string. Commands of lsctl run with fuel for the nesting of scripts;
    [enough_fuel] shows that the size of the scope stack is enough, because the model faults
    with [OutOfBounds] where lsctl writes beyond that stack. The loop of
    [finish_rate] has fuel for the 32 bits of a number, of which it needs at most 24. The loops of
    the client and the daemon recurse on what [select] and [read] answer; [client_delivers] bounds
    the turns of the client. The loop of [log_mask_from_env] has fuel for each character.

    ** Not modelled

    How libmnl lays out attributes and how libtcl splits a script into words: the interfaces
    [Mnl] and [TclLib] have what the code relies on as laws, and instances that satisfy them. The
    struct members that are always zero, and sequence numbers, which are always zero as well,
    are left out of messages. The rest of the library sees a request as a value of [request] and
    its answer as a boolean. The messages of the library to its log are left out where they are
    made, and a message of log.c is a text without the conversion of its format. The main function
    of lsctl, which hands the commands to the main function of Tcl; the messages of the daemon to
    syslog and the files and signals of libdaemon beyond its answers; the example program, whose
    startup hook creates virts in the middle of a commit: hooks are recorded, and leave the
    network model alone. What
    [free] does with strings and other values held by copy is not tracked, only objects with
    an identity can dangle.

    ** Plan

    Next: the replay of a whole dump as a script; the invariant of static bridges (every pair of
    an interface and a route of another interface has a broadcast action) and of the cleanup
    lists under it; that a commit keeps the invariant of the API, so that [commit_settles] applies
    to every commit of a program; commits that remove and renew. *)

From Stdlib Require Import ZArith Lia.
From stdpp Require Import base list gmap strings.

(** ** Faults and the state monad *)

(** Why an execution of the C code stops without returning: a failed [assert],
    a call of [abort()], a NULL dereference, a use of freed memory, or an access
    outside the bounds of an array. [Corrupted] stands for a step the C code performs without
    noticing but which leaves a data structure broken (linking a list entry that is still
    linked elsewhere). [OutOfFuel] is not a behaviour of the C code: it
    marks a loop model that was given too few iterations, and the theorems exclude it. *)
Inductive fault :=
| AssertFailed
| Aborted
| NullDeref
| Dangling
| OutOfBounds
| Corrupted
| OutOfFuel.

Inductive res (S A : Type) :=
| Ok (a : A) (s : S)
| Fault (f : fault).
Arguments Ok {S A} a s.
Arguments Fault {S A} f.

Definition M (S A : Type) : Type := S → res S A.

Global Instance M_ret {S} : MRet (M S) := λ A a s, Ok a s.
Global Instance M_bind {S} : MBind (M S) := λ A B f m s,
  match m s with
  | Ok a s' => f a s'
  | Fault e => Fault e
  end.

Global Instance M_fmap {S} : FMap (M S) := λ A B f m, m ≫= λ a, mret (f a).

Section primitives.
Context {S : Type}.

Definition fail {A} (e : fault) : M S A := λ _, Fault e.
Definition get : M S S := λ s, Ok s s.
Definition gets {A} (f : S → A) : M S A := λ s, Ok (f s) s.
Definition modify (f : S → S) : M S unit := λ s, Ok tt (f s).
(** C's [assert]: the library is built without NDEBUG. *)
Definition assert_ (b : bool) : M S unit :=
  if b then mret tt else fail AssertFailed.
(** Dereference of a possibly NULL pointer. *)
Definition deref {A} (o : option A) : M S A :=
  match o with Some a => mret a | None => fail NullDeref end.
(** Reads an object of the heap; an address without an object is dangling. *)
Definition live {A} (o : option A) : M S A :=
  match o with Some a => mret a | None => fail Dangling end.
Definition when (b : bool) (m : M S unit) : M S unit :=
  if b then m else mret tt.
Fixpoint mforeach {A} (body : A → M S unit) (l : list A) : M S unit :=
  match l with
  | [] => mret tt
  | x :: l => _ ← body x; mforeach body l
  end.
End primitives.

(** ** Total correctness *)

(** [wp m s Q]: from [s], [m] returns (no fault) and its answer and final state satisfy [Q]. *)
Definition wp {S A} (m : M S A) (s : S) (Q : A → S → Prop) : Prop :=
  match m s with
  | Ok a s' => Q a s'
  | Fault _ => False
  end.

Section wp_rules.
Context {S : Type}.
Implicit Types s : S.

Lemma wp_ret {A} (a : A) s Q : wp (mret a) s Q ↔ Q a s.
Proof. done. Qed.
Lemma wp_bind {A B} (m : M S A) (f : A → M S B) s Q :
  wp (m ≫= f) s Q ↔ wp m s (λ a s', wp (f a) s' Q).
Proof. unfold wp, mbind, M_bind. by destruct (m s). Qed.
Lemma wp_assoc {A B C} (m : M S A) (f : A → M S B) (g : B → M S C) s Q :
  wp (m ≫= f) s (λ b s', wp (g b) s' Q) → wp (m ≫= λ a, f a ≫= g) s Q.
Proof. unfold wp, mbind, M_bind. destruct (m s) as [a s'|]; [|done]. by destruct (f a s'). Qed.
Lemma wp_mono {A} (m : M S A) s (P Q : A → S → Prop) :
  wp m s P → (∀ a s', P a s' → Q a s') → wp m s Q.
Proof. unfold wp. destruct (m s); naive_solver. Qed.
Lemma wp_run {A} (m : M S A) s (Q : A → S → Prop) a s' : m s = Ok a s' → Q a s' → wp m s Q.
Proof. intros Hm HQ. unfold wp. by rewrite Hm. Qed.
Lemma wp_get s Q : wp get s Q ↔ Q s s.
Proof. done. Qed.
Lemma wp_gets {A} (f : S → A) s Q : wp (gets f) s Q ↔ Q (f s) s.
Proof. done. Qed.
Lemma wp_modify (f : S → S) s Q : wp (modify f) s Q ↔ Q tt (f s).
Proof. done. Qed.
Lemma wp_fail {A} e s (Q : A → S → Prop) : wp (fail e) s Q ↔ False.
Proof. done. Qed.
Lemma wp_assert b s Q : wp (assert_ b) s Q ↔ b = true ∧ Q tt s.
Proof. destruct b; unfold wp; simpl; naive_solver. Qed.
Lemma wp_deref {A} (o : option A) s Q : wp (deref o) s Q ↔ ∃ a, o = Some a ∧ Q a s.
Proof. destruct o; unfold wp; simpl; naive_solver. Qed.
Lemma wp_live {A} (o : option A) s Q : wp (live o) s Q ↔ ∃ a, o = Some a ∧ Q a s.
Proof. destruct o; unfold wp; simpl; naive_solver. Qed.

(** Loop rule: [I] is indexed by the elements already visited and those left. *)
Lemma wp_mforeach {A} (body : A → M S unit) (I : list A → list A → S → Prop) l s Q :
  I [] l s →
  (∀ done x rest s, l = done ++ x :: rest → I done (x :: rest) s →
     wp (body x) s (λ _ s', I (done ++ [x]) rest s')) →
  (∀ s', I l [] s' → Q tt s') →
  wp (mforeach body l) s Q.
Proof.
  intros H0 Hbody HQ.
  cut (∀ done rest s, l = done ++ rest → I done rest s → wp (mforeach body rest) s Q).
  { intros H. by apply (H []). }
  intros done rest; revert done; induction rest as [|x rest IH]; intros done s' -> HI.
  - simpl. rewrite wp_ret. apply HQ. by rewrite app_nil_r.
  - simpl. rewrite wp_bind. eapply wp_mono; [by apply Hbody|].
    intros [] s'' HI'. apply (IH (done ++ [x])); [|done]. by rewrite <-app_assoc.
Qed.
End wp_rules.

(** ** Lists *)

Section lists.
Context {A : Type}.
Implicit Types l : list A.

Lemma filter_all (P : A → Prop) `{∀ x, Decision (P x)} l : Forall P l → filter P l = l.
Proof. induction 1; [done|]. rewrite filter_cons_True by done. by f_equal. Qed.

Lemma filter_ne_middle `{EqDecision A} (e : A) l1 l2 :
  e ∉ l1 ++ l2 → filter (.≠ e) (l1 ++ e :: l2) = l1 ++ l2.
Proof.
  intros He. rewrite filter_app, filter_cons_False by naive_solver.
  rewrite !filter_all; [done|apply Forall_forall; set_solver..].
Qed.
End lists.

(** ** Machine integers *)

(** [lia] with division and remainder by constants. *)
Ltac div_lia := Z.to_euclidean_division_equations; lia.

Section words.
Local Open Scope Z_scope.

Definition u8 (z : Z) : Z := z mod 2 ^ 8.
Definition u16 (z : Z) : Z := z mod 2 ^ 16.
Definition u32 (z : Z) : Z := z mod 2 ^ 32.
Definition u64 (z : Z) : Z := z mod 2 ^ 64.

Lemma u8_small z : 0 ≤ z < 2 ^ 8 → u8 z = z.
Proof. apply Z.mod_small. Qed.
Lemma u16_small z : 0 ≤ z < 2 ^ 16 → u16 z = z.
Proof. apply Z.mod_small. Qed.
Lemma u32_small z : 0 ≤ z < 2 ^ 32 → u32 z = z.
Proof. apply Z.mod_small. Qed.
Lemma u64_small z : 0 ≤ z < 2 ^ 64 → u64 z = z.
Proof. apply Z.mod_small. Qed.
Lemma u8_range z : 0 ≤ u8 z < 2 ^ 8.
Proof. by apply Z.mod_pos_bound. Qed.
Lemma u16_range z : 0 ≤ u16 z < 2 ^ 16.
Proof. by apply Z.mod_pos_bound. Qed.
Lemma u32_range z : 0 ≤ u32 z < 2 ^ 32.
Proof. by apply Z.mod_pos_bound. Qed.
End words.
