(* ===== verification/Float.v ===== *)
(** * Floating-point numbers

    [float] and [double] of C are the binary32 and binary64 numbers of IEEE 754, which the
    standard library specifies in [SpecFloat]: sign, mantissa and exponent, with rounding to the
    nearest number, ties to even. The operations the code uses, and the conversions between
    numbers, decimal texts and integers. *)

From Stdlib Require Import ZArith SpecFloat Lia.
From stdpp Require Import base decidable tactics list.
From S2P Require Import Prelude.

Local Open Scope Z_scope.

Notation float := spec_float.
Notation double := spec_float.
#[global] Instance float_eq_dec : EqDecision spec_float.
Proof. solve_decision. Defined.

(** ** The formats *)

Definition f32_prec : Z := 24.
Definition f32_emax : Z := 128.
Definition f64_prec : Z := 53.
Definition f64_emax : Z := 1024.

Section format.
Context (prec emax : Z).

(** The number nearest to [n / d]. *)
Definition of_ratio (n : Z) (d : positive) : spec_float :=
  if n =? 0 then S754_zero false else
  let '(q, e, l) := SFdiv_core_binary prec emax (Z.abs n) 0 (Z.pos d) 0 in
  binary_round_aux prec emax (n <? 0) q e l.
Definition of_Z (n : Z) : spec_float := binary_normalize prec emax n 0 false.
(** A number of another format. *)
Definition of_float (x : spec_float) : spec_float :=
  match x with
  | S754_finite s m e => binary_round prec emax s m e
  | _ => x
  end.
End format.

(** [(double)x] of a float, [(float)x] of a double, [(double)n] of an integer. *)
Definition f64_of_f32 : float → double := of_float f64_prec f64_emax.
Definition f32_of_f64 : double → float := of_float f32_prec f32_emax.
Definition f64_of_Z : Z → double := of_Z f64_prec f64_emax.

Definition f64_mul : double → double → double := SFmul f64_prec f64_emax.
Definition f64_div : double → double → double := SFdiv f64_prec f64_emax.
Definition f64_le : double → double → bool := SFleb.

(** The constant [n / d], written in decimal in the code. *)
Definition f64_const (n : Z) (d : positive) : double := of_ratio f64_prec f64_emax n d.
Definition f32_const (n : Z) (d : positive) : float := of_ratio f32_prec f32_emax n d.

(** ** Integers *)

(** The integer part; infinities and NaN have none. *)
Definition trunc (x : spec_float) : option Z :=
  match x with
  | S754_zero _ => Some 0
  | S754_finite s m e => let a := Z.shiftl (Z.pos m) e in Some (if s then - a else a)
  | S754_infinity _ | S754_nan => None
  end.
(** The conversion to [uint32_t], which is defined if the integer part is a number of 32 bits. *)
Definition to_u32 (x : spec_float) : option Z :=
  match trunc x with
  | Some n => if (0 <=? n) && (n <? 2 ^ 32) then Some n else None
  | None => None
  end.
(** What x86-64 makes of the others: the low half of a conversion to 64 bits, whose result is
    2^63 if the number has more. *)
Definition convert_u32 (x : spec_float) : Z :=
  match trunc x with
  | Some n => if (- 2 ^ 63 <=? n) && (n <? 2 ^ 63) then u32 n else 0
  | None => 0
  end.

Lemma to_u32_range x n : to_u32 x = Some n → 0 ≤ n < 2 ^ 32.
Proof. unfold to_u32. destruct (trunc x); [|done]. destruct (_ && _) eqn:E; [|done]. intros [= <-]. lia. Qed.
Lemma convert_defined x n : to_u32 x = Some n → convert_u32 x = n.
Proof.
  intros H. pose proof (to_u32_range _ _ H). unfold to_u32, convert_u32 in *. destruct (trunc x) as [k|]; [|done].
  destruct ((0 <=? k) && _); [|done]. injection H as ->.
  replace (_ && _) with true by lia. by apply u32_small.
Qed.

(** The conversion goes towards zero, also from below. *)
Example trunc_negative : trunc (f32_const (-1) 100001) = Some 0.
Proof. reflexivity. Qed.
Example round_2_24 : trunc (f32_const 16777217 1) = Some 16777216.
Proof. reflexivity. Qed.
Example overflow_f32 : f32_const (10 ^ 39) 1 = S754_infinity false.
Proof. reflexivity. Qed.
Example tenth_f64 : f64_const 1 10 = S754_finite false 7205759403792794 (-56).
Proof. reflexivity. Qed.
