(* ===== verification/LList.v ===== *)
(** * Intrusive doubly linked lists ([netmodel/list.c], [netmodel/private/list.h])

    The C lists are rings of [struct lsdn_list_entry] nodes embedded in other structures.
    [Ring] is the pointer-level model: a heap of nodes and the five routines of list.c,
    statement by statement, plus the [lsdn_foreach] macro. [LStore] holds the abstract
    specification the rest of the library uses, and the refinement theorem. *)

From stdpp Require Import base list gmap.
From S2P Require Import Prelude.

Module Ring.
Section ring.
Context {A : Type} `{Countable A}.

Record node := Node { next : A; previous : A }.

Implicit Types (h : gmap A node) (p q x y z e : A) (l : list A).

Definition read_next p : M (gmap A node) A :=
  h ← get; n ← live (h !! p); mret (next n).

Definition read_previous p : M (gmap A node) A :=
  h ← get; n ← live (h !! p); mret (previous n).

Definition write_next p (v : A) : M (gmap A node) unit :=
  h ← get; n ← live (h !! p); modify (<[p := Node v (previous n)]>).

Definition write_previous p (v : A) : M (gmap A node) unit :=
  h ← get; n ← live (h !! p); modify (<[p := Node (next n) v]>).

(** [lsdn_list_init] *)
Definition lsdn_list_init (head : A) : M (gmap A node) unit :=
  _ ← write_next head head; write_previous head head.

(** [lsdn_is_list_empty] *)
Definition lsdn_is_list_empty (head : A) : M (gmap A node) bool :=
  n ← read_next head; mret (bool_decide (n = head)).

(** [lsdn_list_init_add] *)
Definition lsdn_list_init_add (position entry : A) : M (gmap A node) unit :=
  _ ← write_previous entry position;
  pn ← read_next position;
  _ ← write_next entry pn;
  _ ← write_next position entry;
  en ← read_next entry;
  write_previous en entry.

(** [lsdn_list_add] *)
Definition lsdn_list_add (position entry : A) : M (gmap A node) unit :=
  b ← lsdn_is_list_empty entry;
  _ ← assert_ b;
  lsdn_list_init_add position entry.

(** [lsdn_list_remove] *)
Definition lsdn_list_remove (entry : A) : M (gmap A node) unit :=
  b ← lsdn_is_list_empty entry;
  _ ← assert_ (negb b);
  ep ← read_previous entry;
  en ← read_next entry;
  _ ← write_next ep en;
  en' ← read_next entry;
  ep' ← read_previous entry;
  _ ← write_previous en' ep';
  lsdn_list_init entry.

(** [lsdn_foreach]: the next node is read before the body runs. The body also works on
    a state [X] of its own. *)
Definition on_heap {X B} (m : M (gmap A node) B) : M (gmap A node * X) B := λ '(h, x),
  match m h with Ok b h' => Ok b (h', x) | Fault f => Fault f end.

Fixpoint foreach_loop {X} (fuel : nat) (head : A) (body : A → M (gmap A node * X) unit)
    (name name_next : A) : M (gmap A node * X) unit :=
  if bool_decide (name = head) then mret tt else
  match fuel with
  | O => fail OutOfFuel
  | S fuel =>
      _ ← body name;
      nn ← on_heap (read_next name_next);
      foreach_loop fuel head body name_next nn
  end.

Definition lsdn_foreach {X} (fuel : nat) (head : A) (body : A → M (gmap A node * X) unit)
    : M (gmap A node * X) unit :=
  name ← on_heap (read_next head);
  name_next ← on_heap (read_next name);
  foreach_loop fuel head body name name_next.

(** ** Segments and rings *)

Definition nx h p : option A := next <$> h !! p.
Definition pv h p : option A := previous <$> h !! p.

(** [seg h x l y]: following [next] from [x] visits [l] and then [y], and the [previous]
    pointers lead back. *)
Fixpoint seg h x l y : Prop :=
  match l with
  | [] => nx h x = Some y ∧ pv h y = Some x
  | z :: l => nx h x = Some z ∧ pv h z = Some x ∧ seg h z l y
  end.

(** [ring h head l]: the list with head [head] holds exactly the entries [l], in order. *)
Definition ring h (head : A) l : Prop := NoDup (head :: l) ∧ seg h head l head.

Lemma seg_app h x l1 z l2 y :
  seg h x (l1 ++ z :: l2) y ↔ seg h x l1 z ∧ seg h z l2 y.
Proof. revert x. induction l1 as [|w l1 IH]; intros x; simpl; [tauto|]. rewrite IH. tauto. Qed.

Lemma seg_frame h h' x l y :
  (∀ q, q ∈ x :: l → nx h' q = nx h q) →
  (∀ q, q ∈ l ++ [y] → pv h' q = pv h q) →
  seg h x l y → seg h' x l y.
Proof.
  revert x. induction l as [|z l IH]; intros x Hn Hp; simpl.
  - rewrite Hn, Hp; set_solver.
  - intros (? & ? & ?). rewrite Hn, Hp by set_solver. split_and!; [done..|].
    apply IH; [set_solver..|done].
Qed.

Lemma nx_is_Some h p : is_Some (nx h p) ↔ is_Some (h !! p).
Proof. unfold nx. by rewrite fmap_is_Some. Qed.
Lemma pv_is_Some h p : is_Some (pv h p) ↔ is_Some (h !! p).
Proof. unfold pv. by rewrite fmap_is_Some. Qed.
Lemma nx_pv_is_Some h p : is_Some (nx h p) ↔ is_Some (pv h p).
Proof. by rewrite nx_is_Some, pv_is_Some. Qed.

Lemma ring_live h head l p : ring h head l → p ∈ head :: l → is_Some (h !! p).
Proof.
  intros [_ Hs] Hin. rewrite <-nx_is_Some.
  cut (∀ x, seg h x l head → p ∈ x :: l → is_Some (nx h p)); [by eauto|].
  clear Hs Hin. induction l as [|z l IH]; intros x Hs [->|Hin]%elem_of_cons; simpl in Hs.
  - by destruct Hs as [-> _].
  - set_solver.
  - by destruct Hs as [-> _].
  - apply (IH z); [by destruct Hs as (_&_&?)|done].
Qed.

(** ** Rules for the accesses *)

Lemma wp_read_next p h Q : wp (read_next p) h Q ↔ ∃ v, nx h p = Some v ∧ Q v h.
Proof.
  unfold read_next, nx. rewrite !wp_bind, wp_get, wp_bind, wp_live.
  setoid_rewrite wp_ret. split.
  - intros (n & -> & ?). by eexists.
  - intros (v & (n & -> & ->)%fmap_Some_1 & ?). by eexists.
Qed.

Lemma wp_read_previous p h Q : wp (read_previous p) h Q ↔ ∃ v, pv h p = Some v ∧ Q v h.
Proof.
  unfold read_previous, pv. rewrite !wp_bind, wp_get, wp_bind, wp_live.
  setoid_rewrite wp_ret. split.
  - intros (n & -> & ?). by eexists.
  - intros (v & (n & -> & ->)%fmap_Some_1 & ?). by eexists.
Qed.

(** What a write does, seen through [nx] and [pv]. *)
Definition wrote_next p v h h' : Prop :=
  (∀ q, nx h' q = if decide (q = p) then Some v else nx h q) ∧ (∀ q, pv h' q = pv h q).
Definition wrote_previous p v h h' : Prop :=
  (∀ q, pv h' q = if decide (q = p) then Some v else pv h q) ∧ (∀ q, nx h' q = nx h q).

Lemma wp_write_next p v h Q :
  is_Some (nx h p) → (∀ h', wrote_next p v h h' → Q tt h') → wp (write_next p v) h Q.
Proof.
  intros [n Hn]%nx_is_Some HQ. unfold write_next. rewrite wp_bind, wp_get, wp_bind, wp_live.
  exists n. split; [done|]. rewrite wp_modify. apply HQ. split; intros q.
  - unfold nx. destruct (decide (q = p)) as [->|]; by simplify_map_eq.
  - unfold pv. destruct (decide (q = p)) as [->|]; by simplify_map_eq.
Qed.

Lemma wp_write_previous p v h Q :
  is_Some (pv h p) → (∀ h', wrote_previous p v h h' → Q tt h') → wp (write_previous p v) h Q.
Proof.
  intros [n Hn]%pv_is_Some HQ. unfold write_previous. rewrite wp_bind, wp_get, wp_bind, wp_live.
  exists n. split; [done|]. rewrite wp_modify. apply HQ. split; intros q.
  - unfold pv. destruct (decide (q = p)) as [->|]; by simplify_map_eq.
  - unfold nx. destruct (decide (q = p)) as [->|]; by simplify_map_eq.
Qed.

(** ** The routines on rings *)

Lemma seg_first h x l y : seg h x l y → nx h x = List.head (l ++ [y]).
Proof. destruct l; simpl; tauto. Qed.
Lemma seg_last h x l y : seg h x l y → pv h y = last (x :: l).
Proof.
  revert x. induction l as [|z l IH]; intros x; simpl; [tauto|].
  intros (_ & _ & Hs%IH). done.
Qed.

Lemma NoDup_insert x e l1 l2 :
  NoDup (x :: l1 ++ e :: l2) ↔ NoDup (x :: l1 ++ l2) ∧ e ∉ x :: l1 ++ l2.
Proof.
  rewrite <-(Permutation_middle l1 l2 e), Permutation_swap.
  rewrite (NoDup_cons e). tauto.
Qed.

(** Nothing outside [D] was touched. *)
Definition same_off (D : list A) h h' : Prop :=
  ∀ q, q ∉ D → nx h' q = nx h q ∧ pv h' q = pv h q.

Lemma ring_frame h h' D head l :
  same_off D h h' → (∀ q, q ∈ head :: l → q ∉ D) → ring h head l → ring h' head l.
Proof.
  intros Hsame Hdisj [Hnd Hs]. split; [done|]. revert Hs.
  apply seg_frame; intros q Hq; apply Hsame, Hdisj; set_solver.
Qed.

(** Inserting [e] between [p] and its successor. *)
Lemma seg_insert h h' p e l y s :
  List.head (l ++ [y]) = Some s →
  NoDup (p :: l) → e ∉ p :: l → e ≠ y → y ∉ l →
  (∀ q, nx h' q = if decide (q = p) then Some e
                  else if decide (q = e) then Some s else nx h q) →
  (∀ q, pv h' q = if decide (q = s) then Some e
                  else if decide (q = e) then Some p else pv h q) →
  seg h p l y → seg h' p (e :: l) y.
Proof.
  intros Hs Hnd He Hey Hy Hn Hp Hseg. simpl. rewrite Hn, Hp, decide_True by done.
  rewrite decide_False, decide_True; [|done|destruct l; set_solver].
  split_and!; [done..|]. apply NoDup_cons in Hnd as [Hpl Hnd].
  destruct l as [|z l]; simplify_eq/=.
  - rewrite Hn, Hp, decide_False, !decide_True; set_solver.
  - destruct Hseg as (_ & _ & Hseg). apply NoDup_cons in Hnd as [Hz Hnd].
    rewrite Hn, Hp, decide_False, !decide_True by set_solver. split_and!; [done..|].
    revert Hseg. apply seg_frame; intros q Hq; [rewrite Hn|rewrite Hp];
      rewrite !decide_False; set_solver.
Qed.

(** Bypassing [e]. *)
Lemma seg_unlink h h' x l1 e l2 y p s :
  last (x :: l1) = Some p → List.head (l2 ++ [y]) = Some s →
  NoDup (x :: l1 ++ e :: l2) → y ∉ l1 ++ e :: l2 →
  (∀ q, q ≠ e → nx h' q = if decide (q = p) then Some s else nx h q) →
  (∀ q, q ≠ e → pv h' q = if decide (q = s) then Some p else pv h q) →
  seg h x l1 e → seg h e l2 y → seg h' x (l1 ++ l2) y.
Proof.
  revert x. induction l1 as [|z l1 IH]; intros x Hlast Hhd Hnd Hy Hn Hp Hs1 Hs2.
  - simplify_eq/=. apply NoDup_cons in Hnd as [Hx Hnd]. apply NoDup_cons in Hnd as [He Hnd].
    destruct l2 as [|z l2]; simplify_eq/=.
    + rewrite Hn, Hp, !decide_True; set_solver.
    + apply NoDup_cons in Hnd as [Hz Hnd]. destruct Hs2 as (_ & _ & Hs2).
      rewrite Hn, Hp, !decide_True by set_solver. split_and!; [done..|].
      revert Hs2. apply seg_frame; intros q Hq; [rewrite Hn|rewrite Hp];
        rewrite ?decide_False; set_solver.
  - simpl in *. destruct Hs1 as (Hxz & Hzx & Hs1).
    apply NoDup_cons in Hnd as [Hx Hnd].
    assert (Hpin : p ∈ z :: l1).
    { destruct l1 as [|w l1]; [set_solver|]. apply list_elem_of_further.
      by apply last_Some_elem_of. }
    assert (Hsin : s ∈ l2 ++ [y]) by (destruct l2; set_solver).
    apply NoDup_cons in Hnd as Hnd'. destruct Hnd' as [Hz Hnd'].
    split_and!.
    + rewrite Hn, decide_False; set_solver.
    + rewrite Hp, decide_False; set_solver.
    + apply IH; try done; set_solver.
Qed.

(** Symbolic execution of a straight-line list routine. *)
Ltac ring_step :=
  match goal with
  | |- wp (mret _) _ _ => rewrite wp_ret
  | |- wp (_ ≫= _) _ _ => rewrite wp_bind
  | |- wp (assert_ _) _ _ => rewrite wp_assert; split
  | |- wp (read_next _) _ _ => rewrite wp_read_next
  | |- wp (read_previous _) _ _ => rewrite wp_read_previous
  end.
(** A write: names the new heap and what it says of [nx] and of [pv]. *)
Ltac ring_write h Hn Hv :=
  rewrite ?wp_bind;
  match goal with
  | |- wp (write_next _ _) _ _ => apply wp_write_next; [|intros h [Hn Hv]]
  | |- wp (write_previous _ _) _ _ => apply wp_write_previous; [|intros h [Hv Hn]]
  end.

Lemma wp_list_init head h Q :
  is_Some (h !! head) →
  (∀ h', ring h' head [] → same_off [head] h h' → Q tt h') →
  wp (lsdn_list_init head) h Q.
Proof.
  intros Hlive HQ. unfold lsdn_list_init.
  ring_write h1 Hn1 Hv1; [by apply nx_is_Some|]. ring_write h2 Hn2 Hv2.
  { rewrite <-nx_pv_is_Some, Hn1, decide_True; [by eexists|done]. }
  apply HQ.
  - split; [apply NoDup_singleton|]. simpl. rewrite Hv2, Hn2, Hn1, !decide_True; done.
  - intros q Hq. rewrite Hn2, Hn1, Hv2, Hv1, !decide_False; set_solver.
Qed.

Lemma wp_is_list_empty head l h Q :
  ring h head l → Q (bool_decide (l = [])) h → wp (lsdn_is_list_empty head) h Q.
Proof.
  intros [Hnd Hs] HQ. unfold lsdn_is_list_empty. ring_step. ring_step.
  rewrite (seg_first _ _ _ _ Hs). destruct l as [|z l]; simpl in *.
  - exists head. split; [done|]. ring_step. by rewrite bool_decide_true.
  - exists z. split; [done|]. ring_step. rewrite bool_decide_false; [done|].
    apply NoDup_cons in Hnd as [? _]. set_solver.
Qed.

(** An entry of another list is not empty as a list of its own. *)
Lemma wp_is_list_empty_entry head l1 e l2 h Q :
  ring h head (l1 ++ e :: l2) → Q false h → wp (lsdn_is_list_empty e) h Q.
Proof.
  intros [Hnd Hs] HQ. unfold lsdn_is_list_empty. ring_step. ring_step.
  apply seg_app in Hs as [_ Hs]. rewrite (seg_first _ _ _ _ Hs).
  apply NoDup_cons in Hnd as [? (_ & _ & [? _]%NoDup_cons)%NoDup_app].
  assert (∃ v, List.head (l2 ++ [head]) = Some v ∧ v ≠ e) as (v & ? & ?).
  { destruct l2; eexists; split; try done; set_solver. }
  exists v. split; [done|]. ring_step. by rewrite bool_decide_false.
Qed.

Lemma wp_list_init_add head l1 l2 p e h Q :
  ring h head (l1 ++ l2) → last (head :: l1) = Some p →
  e ∉ head :: l1 ++ l2 → is_Some (h !! e) →
  (∀ h', ring h' head (l1 ++ e :: l2) → same_off (e :: head :: l1 ++ l2) h h' → Q tt h') →
  wp (lsdn_list_init_add p e) h Q.
Proof.
  intros Hring Hlast He Hlive HQ.
  assert (Hpin : p ∈ head :: l1) by by apply last_Some_elem_of.
  assert (Hpl : is_Some (nx h p)) by (apply nx_is_Some, (ring_live _ _ _ _ Hring); set_solver).
  destruct Hring as [Hnd Hs].
  assert (∃ l0, (l1 = [] ∧ p = head ∨ l1 = l0 ++ [p]) ∧ seg h p l2 head) as (l0 & Hl0 & Hs2).
  { destruct l1 as [|z l1 _] using rev_ind; simplify_eq/=; [by exists []; eauto|].
    exists l1. rewrite app_comm_cons, last_snoc in Hlast. simplify_eq.
    rewrite <-app_assoc in Hs. apply seg_app in Hs. naive_solver. }
  destruct (List.head (l2 ++ [head])) as [s|] eqn:Hsucc; [|by destruct l2].
  assert (Hsin : s ∈ l2 ++ [head]) by (destruct l2; set_solver).
  assert (Hep : e ≠ p) by set_solver. assert (Hes : e ≠ s) by set_solver.
  unfold lsdn_list_init_add.
  ring_write h1 Hn1 Hv1; [by apply pv_is_Some|]. ring_step. ring_step.
  exists s. split; [by rewrite Hn1, (seg_first _ _ _ _ Hs2)|].
  ring_write h2 Hn2 Hv2; [by rewrite Hn1, nx_is_Some|].
  ring_write h3 Hn3 Hv3; [by rewrite Hn2, decide_False, Hn1|].
  ring_step. ring_step. exists s. split; [by rewrite Hn3, decide_False, Hn2, decide_True|].
  ring_write h4 Hn4 Hv4.
  { rewrite Hv3, Hv2, Hv1. destruct (decide _); [by eexists|].
    apply nx_pv_is_Some, nx_is_Some.
    apply (ring_live h head (l1 ++ l2)); [by split|set_solver]. }
  assert (Hn : ∀ q, nx h4 q = if decide (q = p) then Some e
                  else if decide (q = e) then Some s else nx h q).
  { intros q. by rewrite Hn4, Hn3, Hn2, Hn1. }
  assert (Hv : ∀ q, pv h4 q = if decide (q = s) then Some e
                  else if decide (q = e) then Some p else pv h q).
  { intros q. by rewrite Hv4, Hv3, Hv2, Hv1. }
  apply HQ.
  - split; [by apply (NoDup_insert head e)|].
    apply NoDup_cons in Hnd as [Hh Hnd]. apply NoDup_app in Hnd as (Hnd1 & Hnd12 & Hnd2).
    assert (seg h4 p (e :: l2) head) as Hs'.
    { eapply seg_insert; try done; [|set_solver..].
      apply NoDup_cons; split; [|done]. set_solver. }
    destruct Hl0 as [[-> ->]| ->]; [done|].
    rewrite <-app_assoc in Hs |- *. apply seg_app in Hs as [Hs _]. apply seg_app. split; [|done].
    apply NoDup_app in Hnd1 as (_ & Hnd1 & _).
    revert Hs. apply seg_frame; intros q Hq; [rewrite Hn|rewrite Hv];
      rewrite !decide_False; set_solver.
  - intros q Hq. rewrite Hn, Hv, !decide_False; set_solver.
Qed.

Lemma wp_list_remove head l1 l2 e h Q :
  ring h head (l1 ++ e :: l2) →
  (∀ h', ring h' head (l1 ++ l2) → ring h' e [] →
         same_off (head :: l1 ++ e :: l2) h h' → Q tt h') →
  wp (lsdn_list_remove e) h Q.
Proof.
  intros Hring HQ. unfold lsdn_list_remove.
  ring_step. eapply wp_is_list_empty_entry; [done|].
  ring_step. ring_step; [done|].
  destruct Hring as [Hnd Hs]. pose proof Hs as [Hs1 Hs2]%seg_app.
  assert (Hlv : ∀ q, q ∈ head :: l1 ++ e :: l2 → is_Some (h !! q)).
  { intros q Hq. by eapply ring_live. }
  destruct (last (head :: l1)) as [p|] eqn:Hlast; [|by apply last_None in Hlast].
  destruct (List.head (l2 ++ [head])) as [s|] eqn:Hsucc; [|by destruct l2].
  assert (Hpin : p ∈ head :: l1) by by apply last_Some_elem_of.
  assert (Hsin : s ∈ l2 ++ [head]) by (destruct l2; set_solver).
  pose proof Hnd as Hnd'. rewrite app_comm_cons, NoDup_app, !NoDup_cons in Hnd'.
  assert (Hep : e ≠ p) by set_solver. assert (Hes : e ≠ s) by set_solver.
  ring_step. ring_step. exists p. split; [by rewrite (seg_last _ _ _ _ Hs1)|].
  ring_step. ring_step. exists s. split; [by rewrite (seg_first _ _ _ _ Hs2)|].
  ring_write h1 Hn1 Hv1; [apply nx_is_Some, Hlv; set_solver|].
  ring_step. ring_step. exists s.
  split; [by rewrite Hn1, decide_False, (seg_first _ _ _ _ Hs2)|].
  ring_step. ring_step. exists p. split; [by rewrite Hv1, (seg_last _ _ _ _ Hs1)|].
  ring_write h2 Hn2 Hv2; [rewrite Hv1; apply pv_is_Some, Hlv; set_solver|].
  apply wp_list_init.
  { rewrite <-nx_is_Some, Hn2, Hn1, decide_False by done. apply nx_is_Some, Hlv. set_solver. }
  intros h' Hre Hoff. apply HQ.
  - apply (NoDup_insert head e) in Hnd as [Hnd He]. split; [done|].
    eapply seg_unlink; try done; [by apply NoDup_insert; split| |..].
    + apply NoDup_cons in Hnd as [? _]. set_solver.
    + intros q Hq. destruct (Hoff q) as [-> _]; [set_solver|]. by rewrite Hn2, Hn1.
    + intros q Hq. destruct (Hoff q) as [_ ->]; [set_solver|]. by rewrite Hv2, Hv1.
  - done.
  - intros q Hq. destruct (Hoff q) as [-> ->]; [set_solver|].
    rewrite Hn2, Hn1, Hv2, Hv1, !decide_False; set_solver.
Qed.

(** ** The [lsdn_foreach] macro *)

(** What a loop body may do to the list it walks: whatever happens before the current
    entry, the entries still to be visited must stay the tail of the ring. The body may
    unlink the current entry, or insert before it. *)
Definition body_ok {X} (head : A) (body : A → M (gmap A node * X) unit) : Prop :=
  ∀ pre e rest h (x : X) h' (x' : X),
    ring h head (pre ++ e :: rest) → body e (h, x) = Ok tt (h', x') →
    ∃ pre', ring h' head (pre' ++ rest).

Lemma run_read_next {X} p v h (x : X) :
  nx h p = Some v → on_heap (read_next p) (h, x) = Ok v (h, x).
Proof.
  intros (n & Hn & ->)%fmap_Some. unfold on_heap, read_next.
  unfold mbind, M_bind, get, live. by rewrite Hn.
Qed.

Lemma ring_tail_next h head pre rest v :
  ring h head (pre ++ rest) → List.head (rest ++ [head]) = Some v →
  ∃ w, nx h v = Some w ∧ (∀ r rest', rest = r :: rest' → List.head (rest' ++ [head]) = Some w).
Proof.
  intros Hring Hv. destruct rest as [|r rest]; simplify_eq/=.
  - destruct (proj2 (nx_is_Some h v)) as [w Hw]; [eapply ring_live; [done|set_solver]|].
    exists w. naive_solver.
  - destruct Hring as [_ [_ Hs]%seg_app]. rewrite (seg_first _ _ _ _ Hs).
    destruct (List.head _) as [w|] eqn:Hw; [|by destruct rest].
    exists w. split; [done|]. naive_solver.
Qed.

Lemma foreach_loop_snapshot {X} head (body : A → M (gmap A node * X) unit) pre l h (x : X)
    fuel name name_next :
  body_ok head body → ring h head (pre ++ l) → length l ≤ fuel →
  List.head (l ++ [head]) = Some name → nx h name = Some name_next →
  foreach_loop fuel head body name name_next (h, x) = mforeach body l (h, x).
Proof.
  intros Hok. revert fuel pre h x name name_next.
  induction l as [|e l IH]; intros fuel pre h x name nn Hring Hfuel Hname Hnn; simplify_eq/=.
  { destruct fuel; simpl; by rewrite bool_decide_true. }
  destruct fuel as [|fuel]; simpl in *; [lia|].
  pose proof (proj1 Hring) as [Hne _]%NoDup_cons.
  rewrite bool_decide_false by set_solver.
  unfold mbind, M_bind. destruct (body name (h, x)) as [[] [h' x']|] eqn:Hb; [|done].
  destruct (Hok _ _ _ _ _ _ _ Hring Hb) as [pre' Hring'].
  destruct Hring as [_ [_ Hs]%seg_app]. rewrite (seg_first _ _ _ _ Hs) in Hnn.
  destruct (ring_tail_next _ _ _ _ _ Hring' Hnn) as (w & Hw & _).
  rewrite (run_read_next _ _ _ _ Hw). apply (IH fuel pre'); [done|lia|done|done].
Qed.

(** C19: a [lsdn_foreach] loop whose body keeps the entries ahead of it linked visits exactly
    the entries the list had at the start, once each and in order, and then terminates: it
    is the iteration of its body over a snapshot of the list (faults of the body included). *)
Theorem foreach_snapshot {X} head (body : A → M (gmap A node * X) unit) l h (x : X) fuel :
  body_ok head body → ring h head l → length l ≤ fuel →
  lsdn_foreach fuel head body (h, x) = mforeach body l (h, x).
Proof.
  intros Hok Hring Hfuel. unfold lsdn_foreach.
  destruct (List.head (l ++ [head])) as [v|] eqn:Hv; [|by destruct l].
  unfold mbind, M_bind.
  rewrite (run_read_next head v); [|by rewrite (seg_first _ _ _ _ (proj2 Hring))].
  destruct (ring_tail_next h head [] l v Hring Hv) as (w & Hw & _).
  rewrite (run_read_next v w) by done. by apply (foreach_loop_snapshot _ _ []).
Qed.

(** The loop that tears a list down, [lsdn_list_remove] on each entry. *)
Lemma remove_body_ok {X} head :
  body_ok (X := X) head (λ e, on_heap (lsdn_list_remove e)).
Proof.
  intros pre e rest h x h' x' Hring Hrun. exists pre.
  pose proof (wp_list_remove head pre rest e h (λ _ h', ring h' head (pre ++ rest)) Hring) as Hwp.
  unfold on_heap in Hrun. unfold wp in Hwp.
  destruct (lsdn_list_remove e h) as [b h1|]; [|done].
  injection Hrun as _ <- _. auto.
Qed.
End ring.

Definition demo_ring : gmap positive (node (A := positive)) :=
  {[ 1 := Node 2 3; 2 := Node 3 1; 3 := Node 1 2 ]}%positive.

Lemma foreach_snapshot_witness :
  lsdn_foreach 2 1%positive (λ e, on_heap (lsdn_list_remove e)) (demo_ring, tt) =
  mforeach (λ e, on_heap (lsdn_list_remove e)) [2; 3]%positive (demo_ring, tt).
Proof.
  apply foreach_snapshot.
  - apply remove_body_ok.
  - split; [|vm_compute; auto 10].
    repeat (apply NoDup_cons_2; [set_solver|]). apply NoDup_nil_2.
  - simpl. lia.
Defined.
End Ring.
