(* ===== verification/LStore.v ===== *)
(** * The abstract list store

    The specification of the intrusive lists of [netmodel/list.c] the rest of the library
    works with: a finite map from a list head to the sequence of its entries, with one
    operation for each routine. [refines] relates it to the pointer-level rings of [LList];
    the simulation theorem says that the C routines implement the store operations. *)

From stdpp Require Import base list gmap.
From S2P Require Import Prelude.
From S2P Require Import LList.

Module Store.
Section store.
Context {A : Type} `{Countable A}.

(** The abstract list store: every initialised node that is the head of a ring, with the
    entries of the ring in order. An initialised entry that is in no list is a ring of its
    own. *)
Local Notation store := (gmap A (list A)).

Implicit Types (L : store) (k e p : A) (l : list A).

(** The head of the list [e] is linked in. *)
Definition owner L e : option A :=
  fst <$> List.find (λ kv : A * list A, bool_decide (e ∈ kv.2)) (map_to_list L).

(** [e] is linked nowhere and heads no entries. *)
Definition unlinked L e : bool :=
  bool_decide (owner L e = None) && bool_decide (default [] (L !! e) = []).

Fixpoint insert_after p e l : list A :=
  match l with
  | [] => []
  | x :: l => if bool_decide (x = p) then x :: e :: l else x :: insert_after p e l
  end.

Definition init e : M store unit :=
  L ← get;
  if unlinked L e then modify (<[e := []]>) else fail Corrupted.

Definition is_empty e : M store bool :=
  L ← get;
  match L !! e with
  | Some l => mret (bool_decide (l = []))
  | None => _ ← live (owner L e); mret false
  end.

Definition init_add p e : M store unit :=
  L ← get;
  if negb (unlinked L e) || bool_decide (p = e) then fail Corrupted else
  match L !! p with
  | Some l => modify (λ L, <[p := e :: l]> (delete e L))
  | None =>
      k ← live (owner L p);
      l ← live (L !! k);
      modify (λ L, <[k := insert_after p e l]> (delete e L))
  end.

Definition add p e : M store unit :=
  b ← is_empty e; _ ← assert_ b; init_add p e.

Definition remove e : M store unit :=
  b ← is_empty e;
  _ ← assert_ (negb b);
  L ← get;
  match owner L e with
  | Some k => l ← live (L !! k);
      modify (λ L, <[e := []]> (<[k := filter (.≠ e) l]> L))
  | None => fail Corrupted
  end.

(** Lists do not share nodes. *)
Definition wf L : Prop :=
  (∀ k l, L !! k = Some l → NoDup (k :: l)) ∧
  (∀ k1 l1 k2 l2 x, L !! k1 = Some l1 → L !! k2 = Some l2 →
     x ∈ k1 :: l1 → x ∈ k2 :: l2 → k1 = k2).

(** An executable check of [wf]. *)
Definition wf_check L : bool :=
  bool_decide (NoDup (concat ((λ kv : A * list A, kv.1 :: kv.2) <$> map_to_list L))).

Lemma concat_disjoint (ls : list (list A)) i j a b x :
  NoDup (concat ls) → ls !! i = Some a → ls !! j = Some b → x ∈ a → x ∈ b → i = j.
Proof.
  revert i j. induction ls as [|l ls IH]; intros i j Hnd Hi Hj Ha Hb; [done|].
  simpl in Hnd. apply NoDup_app in Hnd as (_ & Hdis & Hnd).
  assert (Hin : ∀ m c, ls !! m = Some c → x ∈ c → x ∈ concat ls).
  { intros m c Hm Hc. apply list_elem_of_In, in_concat. exists c.
    split; apply list_elem_of_In; [by eapply list_elem_of_lookup_2|done]. }
  destruct i as [|i], j as [|j]; simplify_eq/=; [done|exfalso..|].
  - by apply (Hdis x), (Hin j b).
  - by apply (Hdis x), (Hin i a).
  - f_equal. by apply (IH i j).
Qed.

Lemma wf_check_ok L : wf_check L = true → wf L.
Proof.
  unfold wf_check. rewrite bool_decide_eq_true. intros Hnd.
  assert (Hlk : ∀ k l, L !! k = Some l → ∃ i, map_to_list L !! i = Some (k, l)).
  { intros k l Hkl. by apply elem_of_map_to_list, list_elem_of_lookup in Hkl. }
  split.
  - intros k l [i Hi]%Hlk. apply (f_equal (fmap (λ kv : A * list A, kv.1 :: kv.2))) in Hi.
    rewrite <-list_lookup_fmap in Hi. simpl in Hi. revert Hnd Hi. clear.
    generalize ((λ kv : A * list A, kv.1 :: kv.2) <$> map_to_list L). intros ls. revert i.
    induction ls as [|c ls IH]; intros [|i] Hnd Hi; simplify_eq/=.
    + change (NoDup ((k :: l) ++ concat ls)) in Hnd. by apply NoDup_app in Hnd as [? _].
    + apply (IH i); [|done]. by apply NoDup_app in Hnd as (_ & _ & ?).
  - intros k1 l1 k2 l2 x [i Hi]%Hlk [j Hj]%Hlk H1 H2.
    assert (i = j) as ->.
    { eapply (concat_disjoint _ i j (k1 :: l1) (k2 :: l2) x Hnd); try done;
        by rewrite list_lookup_fmap, ?Hi, ?Hj. }
    by simplify_eq.
Qed.

Lemma owner_Some L e k :
  wf L → owner L e = Some k ↔ ∃ l, L !! k = Some l ∧ e ∈ l.
Proof.
  intros [Hnd Hdisj]. unfold owner. split.
  - intros ([k' l] & [Hin He]%List.find_some & ->)%fmap_Some.
    apply list_elem_of_In, elem_of_map_to_list in Hin. apply bool_decide_eq_true in He.
    by exists l.
  - intros (l & Hl & He).
    destruct (List.find _ _) as [[k' l']|] eqn:Hf; simpl.
    + apply List.find_some in Hf as [Hin He'%bool_decide_eq_true].
      apply list_elem_of_In, elem_of_map_to_list in Hin.
      f_equal. apply (Hdisj k' l' k l e); set_solver.
    + eapply List.find_none in Hf; [|by apply list_elem_of_In, elem_of_map_to_list].
      by apply bool_decide_eq_false in Hf.
Qed.

Lemma owner_None L e k l : wf L → owner L e = None → L !! k = Some l → e ∉ l.
Proof.
  intros Hwf Ho Hl He. rewrite (proj2 (owner_Some L e k Hwf)) in Ho; [done|eauto].
Qed.

Lemma unlinked_true L e :
  wf L → unlinked L e = true →
  (∀ k l, L !! k = Some l → e ∉ l) ∧ (L !! e = None ∨ L !! e = Some []).
Proof.
  intros Hwf [Ho Hl]%andb_true_iff. apply bool_decide_eq_true in Ho, Hl. split.
  - intros k l. by apply owner_None.
  - destruct (L !! e); naive_solver.
Qed.

Lemma unlinked_intro L e :
  wf L → (∀ k l, L !! k = Some l → e ∉ l) → L !! e = None ∨ L !! e = Some [] →
  unlinked L e = true.
Proof.
  intros Hwf Hfree He. unfold unlinked. apply andb_true_iff. split; apply bool_decide_eq_true.
  - destruct (owner L e) as [k|] eqn:Ho; [|done].
    apply owner_Some in Ho as (l & Hl & Hin); [|done]. by destruct (Hfree k l).
  - by destruct He as [-> | ->].
Qed.

(** ** What the operations answer on a well-formed store *)

Lemma init_spec L e :
  wf L → (∀ k l, L !! k = Some l → e ∉ l) → L !! e = None ∨ L !! e = Some [] →
  init e L = Ok tt (<[e := []]> L).
Proof.
  intros. unfold init, mbind, M_bind, get. by rewrite unlinked_intro.
Qed.

Lemma is_empty_spec L e l : L !! e = Some l → is_empty e L = Ok (bool_decide (l = [])) L.
Proof. intros He. unfold is_empty, mbind, M_bind, get. by rewrite He. Qed.

Lemma is_empty_entry_spec L e k l :
  wf L → L !! e = None → L !! k = Some l → e ∈ l → is_empty e L = Ok false L.
Proof.
  intros Hwf He Hk Hin. unfold is_empty, mbind, M_bind, get. rewrite He.
  by rewrite (proj2 (owner_Some L e k Hwf)) by eauto.
Qed.

Lemma init_add_spec L k l e :
  wf L → (∀ k l, L !! k = Some l → e ∉ l) → L !! e = None ∨ L !! e = Some [] →
  L !! k = Some l → k ≠ e → init_add k e L = Ok tt (<[k := e :: l]> (delete e L)).
Proof.
  intros Hwf Hfree He Hk Hne. unfold init_add, mbind, M_bind, get.
  rewrite unlinked_intro, bool_decide_false by done. simpl. by rewrite Hk.
Qed.

Lemma insert_after_split p e l1 l2 :
  p ∉ l1 → insert_after p e (l1 ++ p :: l2) = l1 ++ p :: e :: l2.
Proof.
  induction l1 as [|x l1 IH]; simpl; intros Hp.
  - by rewrite bool_decide_true.
  - rewrite bool_decide_false by set_solver. f_equal. apply IH. set_solver.
Qed.

Lemma init_add_after_spec L k l1 p l2 e :
  wf L → (∀ k l, L !! k = Some l → e ∉ l) → L !! e = None ∨ L !! e = Some [] →
  L !! k = Some (l1 ++ p :: l2) →
  init_add p e L = Ok tt (<[k := l1 ++ p :: e :: l2]> (delete e L)).
Proof.
  intros Hwf Hfree He Hk. pose proof (proj1 Hwf _ _ Hk) as Hnd.
  apply Ring.NoDup_insert in Hnd as [_ Hp].
  assert (L !! p = None) as HpN.
  { destruct (L !! p) as [m|] eqn:Hm; [|done].
    assert (p = k) as ->; [|set_solver].
    eapply (proj2 Hwf); [done..|left|]; set_solver. }
  unfold init_add, mbind, M_bind, get.
  rewrite unlinked_intro, bool_decide_false; [|by intros ->; eapply Hfree; [done|set_solver]|done..].
  simpl. rewrite HpN, (proj2 (owner_Some L p k Hwf)) by (eexists; split; [done|set_solver]).
  simpl. rewrite Hk. simpl. by rewrite insert_after_split by set_solver.
Qed.

Lemma add_spec L k l e :
  wf L → (∀ k l, L !! k = Some l → e ∉ l) → L !! e = Some [] →
  L !! k = Some l → k ≠ e → add k e L = Ok tt (<[k := e :: l]> (delete e L)).
Proof.
  intros Hwf Hfree He Hk Hne. unfold add, mbind, M_bind.
  rewrite (is_empty_spec L e []) by done. simpl. by apply init_add_spec; auto.
Qed.

Lemma remove_spec L k l e :
  wf L → L !! k = Some l → e ∈ l →
  remove e L = Ok tt (<[e := []]> (<[k := filter (.≠ e) l]> L)).
Proof.
  intros Hwf Hk Hin. unfold remove, mbind, M_bind.
  assert (L !! e = None) as HeN.
  { destruct (L !! e) as [m|] eqn:Hm; [|done].
    assert (e = k) as -> by (eapply (proj2 Hwf); [done..|left|]; set_solver).
    pose proof (proj1 Hwf _ _ Hk) as [? _]%NoDup_cons. done. }
  rewrite (is_empty_entry_spec L e k l) by done. simpl. unfold get.
  rewrite (proj2 (owner_Some L e k Hwf)) by eauto. simpl. by rewrite Hk.
Qed.

(** ** Every operation on the store is wf-preserving *)

Lemma wf_insert_empty L e :
  wf L → (∀ k l, L !! k = Some l → e ∉ l) → wf (<[e := []]> L).
Proof.
  intros [Hnd Hdisj] Hfree. split.
  - intros k l [[<- <-]|[_ ?]]%lookup_insert_Some; [apply NoDup_singleton|eauto].
  - intros k1 l1 k2 l2 x [[<- <-]|[? ?]]%lookup_insert_Some [[<- <-]|[? ?]]%lookup_insert_Some;
      [done|set_solver..|eauto].
Qed.

Lemma wf_insert_entry L k e l l' :
  wf L → (∀ k l, L !! k = Some l → e ∉ l) → L !! e = None ∨ L !! e = Some [] →
  L !! k = Some l → k ≠ e → l' ≡ₚ e :: l → wf (<[k := l']> (delete e L)).
Proof.
  intros [Hnd Hdisj] Hfree He Hk Hne Hl'. split.
  - intros k' m [[<- <-]|[? [??]%lookup_delete_Some]]%lookup_insert_Some; [|eauto].
    rewrite Hl', Permutation_swap. apply NoDup_cons. split; [|by apply Hnd].
    specialize (Hfree _ _ Hk). set_solver.
  - assert (Hother : ∀ k' m x, k ≠ k' → L !! k' = Some m → e ≠ k' →
      x ∈ k :: l' → x ∈ k' :: m → k = k').
    { intros k' m x _ Hm Hek Hx Hx'. rewrite Hl', Permutation_swap, elem_of_cons in Hx.
      destruct Hx as [->|Hx]; [|by eapply Hdisj]. specialize (Hfree _ _ Hm). set_solver. }
    intros k1 l1 k2 l2 x Hk1 Hk2 Hx1 Hx2.
    apply lookup_insert_Some in Hk1 as [[<- <-]|[? [??]%lookup_delete_Some]];
    apply lookup_insert_Some in Hk2 as [[<- <-]|[? [??]%lookup_delete_Some]];
      [done|by eapply Hother|symmetry; by eapply Hother|by eapply Hdisj].
Qed.

Lemma wf_remove_entry L k e l :
  wf L → L !! k = Some l → e ∈ l → wf (<[e := []]> (<[k := filter (.≠ e) l]> L)).
Proof.
  intros [Hnd Hdisj] Hk He.
  assert (Hne : k ≠ e).
  { intros ->. specialize (Hnd _ _ Hk). apply NoDup_cons in Hnd. naive_solver. }
  apply wf_insert_empty.
  - split.
    + intros k' m [[<- <-]|[??]]%lookup_insert_Some; [|eauto].
      apply Hnd in Hk. apply NoDup_cons in Hk as [Hkl Hl]. apply NoDup_cons. split.
      * rewrite list_elem_of_filter. naive_solver.
      * by apply NoDup_filter.
    + intros k1 l1 k2 l2 x [[<- <-]|[??]]%lookup_insert_Some [[<- <-]|[??]]%lookup_insert_Some;
        [done|..]; rewrite ?elem_of_cons, ?list_elem_of_filter; intros Hx1 Hx2.
      * apply (Hdisj k l k2 l2 x); set_solver.
      * apply (Hdisj k1 l1 k l x); set_solver.
      * by apply (Hdisj k1 l1 k2 l2 x); [..|apply elem_of_cons|apply elem_of_cons].
  - intros k' m [[<- <-]|[? Hk']]%lookup_insert_Some.
    + rewrite list_elem_of_filter. naive_solver.
    + intros He'. assert (k = k'); [|done]. apply (Hdisj k l k' m e); set_solver.
Qed.


(** ** The owners after an operation *)

Lemma owner_ext L L' e :
  wf L → wf L' →
  (∀ k, (∃ l, L' !! k = Some l ∧ e ∈ l) ↔ (∃ l, L !! k = Some l ∧ e ∈ l)) →
  owner L' e = owner L e.
Proof.
  intros Hwf Hwf' Hiff. destruct (owner L e) as [k|] eqn:Ho.
  - apply owner_Some; [done|]. apply Hiff. by apply owner_Some.
  - destruct (owner L' e) as [k|] eqn:Ho'; [|done].
    apply owner_Some in Ho' as Hk; [|done]. apply Hiff in Hk.
    by rewrite (proj2 (owner_Some L e k Hwf)) in Ho.
Qed.

Lemma owner_head L e l : wf L → L !! e = Some l → owner L e = None.
Proof.
  intros Hwf He. destruct (owner L e) as [k|] eqn:Ho; [|done].
  apply owner_Some in Ho as (m & Hk & Hin); [|done].
  assert (e = k) as -> by (eapply (proj2 Hwf); [done..|left|]; set_solver).
  pose proof (proj1 Hwf _ _ Hk) as [? _]%NoDup_cons. by simplify_eq.
Qed.

Lemma owner_init L e x :
  wf L → (∀ k l, L !! k = Some l → e ∉ l) → L !! e = None ∨ L !! e = Some [] →
  owner (<[e := []]> L) x = owner L x.
Proof.
  intros Hwf Hfree He. apply owner_ext; [done|by apply wf_insert_empty|].
  intros k. split; intros (l & Hl & Hx).
  - apply lookup_insert_Some in Hl as [[<- <-]|[? ?]]; [set_solver|eauto].
  - exists l. split; [|done]. rewrite lookup_insert_ne; [done|].
    intros <-. destruct He as [He|He]; rewrite He in Hl; simplify_eq; set_solver.
Qed.

Lemma owner_insert_entry L k e l l' x :
  wf L → (∀ k l, L !! k = Some l → e ∉ l) → L !! e = None ∨ L !! e = Some [] →
  L !! k = Some l → k ≠ e → l' ≡ₚ e :: l →
  owner (<[k := l']> (delete e L)) x = if decide (x = e) then Some k else owner L x.
Proof.
  intros Hwf Hfree He Hk Hne Hl'.
  assert (Hwf' : wf (<[k := l']> (delete e L))) by by eapply wf_insert_entry.
  destruct (decide (x = e)) as [->|Hxe].
  - apply owner_Some; [done|]. exists l'. rewrite lookup_insert_eq. split; [done|].
    rewrite Hl'. set_solver.
  - apply owner_ext; [done..|]. intros k'. split; intros (m & Hm & Hx).
    + apply lookup_insert_Some in Hm as [[<- <-]|[? [??]%lookup_delete_Some]]; [|eauto].
      exists l. split; [done|]. rewrite Hl' in Hx. set_solver.
    + destruct (decide (k' = k)) as [->|Hk'].
      * exists l'. rewrite lookup_insert_eq. split; [done|]. rewrite Hl'. simplify_eq. set_solver.
      * exists m. rewrite lookup_insert_ne, lookup_delete_ne; [done|..|done].
        intros <-. destruct He as [He|He]; rewrite He in Hm; simplify_eq; set_solver.
Qed.

Lemma owner_remove_entry L k e l x :
  wf L → L !! k = Some l → e ∈ l →
  owner (<[e := []]> (<[k := filter (.≠ e) l]> L)) x = if decide (x = e) then None else owner L x.
Proof.
  intros Hwf Hk Hin.
  assert (Hwf' : wf (<[e := []]> (<[k := filter (.≠ e) l]> L))) by by apply wf_remove_entry.
  destruct (decide (x = e)) as [->|Hxe].
  - apply (owner_head _ _ []); [done|]. by rewrite lookup_insert_eq.
  - apply owner_ext; [done..|]. intros k'. split; intros (m & Hm & Hx).
    + apply lookup_insert_Some in Hm as [[<- <-]|[? [[<- <-]|[??]]%lookup_insert_Some]];
        [set_solver| |eauto].
      exists l. split; [done|]. apply list_elem_of_filter in Hx. tauto.
    + assert (k' ≠ e) by (intros ->; assert (Hh := owner_head _ _ _ Hwf Hm);
        rewrite (proj2 (owner_Some L e k Hwf)) in Hh by eauto; done).
      destruct (decide (k' = k)) as [->|Hk'].
      * exists (filter (.≠ e) l). rewrite lookup_insert_ne, lookup_insert_eq by done.
        split; [done|]. apply list_elem_of_filter. simplify_eq. done.
      * exists m. by rewrite !lookup_insert_ne by done.
Qed.

(** Heads that nothing is linked into can be given up. *)
Lemma wf_filter (P : A → Prop) `{∀ x, Decision (P x)} L :
  wf L → wf (filter (λ kv, P kv.1) L).
Proof.
  intros [Hnd Hdisj]. split.
  - intros k l [??]%map_lookup_filter_Some. eauto.
  - intros k1 l1 k2 l2 x [??]%map_lookup_filter_Some [??]%map_lookup_filter_Some. eauto.
Qed.

Lemma wf_delete L e : wf L → wf (delete e L).
Proof.
  intros [Hnd Hdisj]. split.
  - intros k l [??]%lookup_delete_Some. eauto.
  - intros k1 l1 k2 l2 x [??]%lookup_delete_Some [??]%lookup_delete_Some. eauto.
Qed.

Lemma owner_filter (P : A → Prop) `{∀ x, Decision (P x)} L x :
  wf L → (∀ k, owner L x = Some k → P k) → owner (filter (λ kv, P kv.1) L) x = owner L x.
Proof.
  intros Hwf HP. apply owner_ext; [done|by apply wf_filter|]. intros k. split.
  - intros (l & [??]%map_lookup_filter_Some & Hx). eauto.
  - intros (l & Hk & Hx). exists l. split; [|done]. apply map_lookup_filter_Some.
    split; [done|]. simpl. apply HP, owner_Some; eauto.
Qed.

(** ** Refinement *)

Implicit Types h : gmap A (Ring.node (A := A)).

(** The nodes of [h] are linked as [L] says. *)
Definition refines h L : Prop :=
  wf L ∧ ∀ k l, L !! k = Some l → Ring.ring h k l.

Inductive list_op :=
| OpInit (e : A)
| OpIsEmpty (e : A)
| OpInitAdd (p e : A)
| OpAdd (p e : A)
| OpRemove (e : A).

(** The C routine of an operation, and its abstract counterpart. *)
Definition c_step (op : list_op) : M (gmap A Ring.node) (option bool) :=
  match op with
  | OpInit e => _ ← Ring.lsdn_list_init e; mret None
  | OpIsEmpty e => Some <$> Ring.lsdn_is_list_empty e
  | OpInitAdd p e => _ ← Ring.lsdn_list_init_add p e; mret None
  | OpAdd p e => _ ← Ring.lsdn_list_add p e; mret None
  | OpRemove e => _ ← Ring.lsdn_list_remove e; mret None
  end.

Definition a_step (op : list_op) : M store (option bool) :=
  match op with
  | OpInit e => _ ← init e; mret None
  | OpIsEmpty e => Some <$> is_empty e
  | OpInitAdd p e => _ ← init_add p e; mret None
  | OpAdd p e => _ ← add p e; mret None
  | OpRemove e => _ ← remove e; mret None
  end.

(** The memory an operation works on is allocated. *)
Definition op_live h (op : list_op) : Prop :=
  match op with
  | OpInit e | OpInitAdd _ e => is_Some (h !! e)
  | OpIsEmpty _ | OpAdd _ _ | OpRemove _ => True
  end.

Definition live_mono h h' : Prop := ∀ q, is_Some (h !! q) → is_Some (h' !! q).

(** The rings of [L'] are either untouched rings of [L] or rings built by the operation. *)
Lemma refines_update h h' L L' D :
  refines h L → wf L' → Ring.same_off D h h' →
  (∀ k l, L' !! k = Some l →
     (L !! k = Some l ∧ ∀ q, q ∈ k :: l → q ∉ D) ∨ Ring.ring h' k l) →
  (∀ q, q ∈ D → ∃ k l, Ring.ring h' k l ∧ q ∈ k :: l) →
  refines h' L' ∧ live_mono h h'.
Proof.
  intros [Hwf Hr] Hwf' Hoff HL HD. split; [split; [done|]|].
  - intros k l [[Hl Hq]|?]%HL; [|done]. eapply Ring.ring_frame; eauto.
  - intros q Hq. destruct (decide (q ∈ D)) as [(k & l & Hk & Hin)%HD|Hn].
    + by eapply Ring.ring_live.
    + destruct (Hoff q Hn) as [Hnx _]. by rewrite <-Ring.nx_is_Some, Hnx, Ring.nx_is_Some.
Qed.

Lemma sim_init h L e :
  refines h L → is_Some (h !! e) → unlinked L e = true →
  wp (Ring.lsdn_list_init e) h (λ _ h', refines h' (<[e := []]> L) ∧ live_mono h h').
Proof.
  intros Href Hlive Hun. pose proof Href as [Hwf Hr].
  apply unlinked_true in Hun as [Hfree He]; [|done].
  apply Ring.wp_list_init; [done|]. intros h' Hring Hoff.
  eapply refines_update; [done|by apply wf_insert_empty|done|..].
  - intros k l [[<- <-]|[Hne Hk]]%lookup_insert_Some; [by right|left].
    split; [done|]. specialize (Hfree _ _ Hk). set_solver.
  - intros q ->%list_elem_of_singleton. exists e, []. set_solver.
Qed.

Lemma sim_is_empty h L e b :
  refines h L → is_empty e L = Ok b L →
  ∀ Q : bool → gmap A Ring.node → Prop, Q b h → wp (Ring.lsdn_is_list_empty e) h Q.
Proof.
  intros [Hwf Hr] Hb Q HQ. unfold is_empty, mbind, M_bind, get in Hb.
  destruct (L !! e) as [l|] eqn:Hl.
  - simplify_eq/=. eapply Ring.wp_is_list_empty; [by apply Hr|]. by injection Hb as <-.
  - destruct (owner L e) as [k|] eqn:Ho; [|done]. injection Hb as <-.
    apply owner_Some in Ho as (l & Hk & (l1 & l2 & ->)%list_elem_of_split); [|done].
    by eapply Ring.wp_is_list_empty_entry; [apply Hr|].
Qed.

(** Inserting after the last of [k :: l1], whichever node that is. *)
Lemma sim_insert h L k l1 l2 p e :
  refines h L → is_Some (h !! e) → unlinked L e = true → k ≠ e →
  L !! k = Some (l1 ++ l2) → last (k :: l1) = Some p →
  wp (Ring.lsdn_list_init_add p e) h
     (λ _ h', refines h' (<[k := l1 ++ e :: l2]> (delete e L)) ∧ live_mono h h').
Proof.
  intros Href Hlive Hun Hke Hk Hlast. pose proof Href as [Hwf Hr].
  apply unlinked_true in Hun as [Hfree He]; [|done].
  pose proof (Hfree _ _ Hk) as Hek.
  eapply Ring.wp_list_init_add; [by apply Hr|done|set_solver|done|].
  intros h' Hring Hoff. eapply refines_update; [done| |done|..].
  - eapply wf_insert_entry; try done. by rewrite <-Permutation_middle.
  - intros k' l [[<- <-]|[Hne [Hne' Hk']%lookup_delete_Some]]%lookup_insert_Some; [by right|left].
    split; [done|]. intros q Hq [->|Hin]%elem_of_cons.
    + specialize (Hfree _ _ Hk'). set_solver.
    + apply Hne. by eapply (proj2 Hwf).
  - intros q Hq. exists k, (l1 ++ e :: l2). split; [done|]. set_solver.
Qed.

Lemma sim_remove h L k l1 e l2 :
  refines h L → L !! k = Some (l1 ++ e :: l2) →
  wp (Ring.lsdn_list_remove e) h
     (λ _ h', refines h' (<[e := []]> (<[k := l1 ++ l2]> L)) ∧ live_mono h h').
Proof.
  intros Href Hk. pose proof Href as [Hwf Hr].
  pose proof (proj1 Hwf _ _ Hk) as [Hnd Hne]%Ring.NoDup_insert.
  assert (Hf : filter (.≠ e) (l1 ++ e :: l2) = l1 ++ l2)
    by (apply filter_ne_middle; set_solver).
  eapply Ring.wp_list_remove; [by apply Hr|].
  intros h' Hring Hring' Hoff. eapply refines_update; [done| |done|..].
  - rewrite <-Hf. eapply wf_remove_entry; [done..|set_solver].
  - intros k' l [[<- <-]|[Hne1 [[<- <-]|[Hne2 Hk']]%lookup_insert_Some]]%lookup_insert_Some;
      [by right..|left].
    split; [done|]. intros q Hq Hin. apply Hne2. by eapply (proj2 Hwf).
  - intros q Hq. destruct (decide (q = e)) as [->|]; [exists e, []; set_solver|].
    exists k, (l1 ++ l2). split; [done|]. set_solver.
Qed.

Lemma is_empty_state e L b L' : is_empty e L = Ok b L' → L' = L.
Proof.
  unfold is_empty, mbind, M_bind, get.
  destruct (L !! e); [by intros [=]|]. destruct (owner L e); by intros [=].
Qed.

Lemma sim_init_add h L p e L' :
  refines h L → is_Some (h !! e) → init_add p e L = Ok tt L' →
  wp (Ring.lsdn_list_init_add p e) h (λ _ h', refines h' L' ∧ live_mono h h').
Proof.
  intros Href Hlive Hadd. unfold init_add, mbind, M_bind, get in Hadd.
  destruct (unlinked L e) eqn:Hun; [|done]. case_bool_decide as Hpe; [done|].
  destruct (L !! p) as [l|] eqn:Hp; simpl in Hadd.
  { injection Hadd as <-. by apply (sim_insert h L p [] l p e). }
  destruct (owner L p) as [k|] eqn:Ho; [|done]. simpl in Hadd.
  apply owner_Some in Ho as (l & Hk & Hin); [|by destruct Href].
  rewrite Hk in Hadd. injection Hadd as <-.
  pose proof (proj1 (proj1 Href) _ _ Hk) as Hnd.
  apply list_elem_of_split in Hin as (l1 & l2 & ->).
  apply Ring.NoDup_insert in Hnd as [_ Hnp].
  rewrite insert_after_split by set_solver.
  apply unlinked_true in Hun as Hun'; [|by destruct Href]. destruct Hun' as [Hfree He].
  apply (sim_insert h L k (l1 ++ [p]) l2 p e) in Hun; try done.
  - by rewrite <-app_assoc in Hun.
  - intros ->. destruct He as [He|He]; rewrite He in Hk; simplify_eq; by destruct l1.
  - by rewrite <-app_assoc.
  - by rewrite app_comm_cons, last_snoc.
Qed.

Lemma sim_remove_op h L e L' :
  refines h L → remove e L = Ok tt L' →
  wp (Ring.lsdn_list_remove e) h (λ _ h', refines h' L' ∧ live_mono h h').
Proof.
  intros Href Hrem. unfold remove, mbind, M_bind in Hrem.
  destruct (is_empty e L) as [[] L0|] eqn:Hemp; [done| |done].
  apply is_empty_state in Hemp as ->. simpl in Hrem. unfold get in Hrem.
  destruct (owner L e) as [k|] eqn:Ho; [|done].
  apply owner_Some in Ho as (l & Hk & Hin); [|by destruct Href].
  rewrite Hk in Hrem. injection Hrem as <-.
  pose proof (proj1 (proj1 Href) _ _ Hk) as Hnd.
  apply list_elem_of_split in Hin as (l1 & l2 & ->).
  apply Ring.NoDup_insert in Hnd as [_ Hne].
  rewrite filter_ne_middle by set_solver. by apply sim_remove.
Qed.

(** An entry that [is_empty] can inspect is in allocated memory. *)
Lemma is_empty_live h L e b : refines h L → is_empty e L = Ok b L → is_Some (h !! e).
Proof.
  intros [Hwf Hr] Hb. unfold is_empty, mbind, M_bind, get in Hb.
  destruct (L !! e) as [l|] eqn:Hl; [eapply Ring.ring_live; [by apply Hr|set_solver]|].
  destruct (owner L e) as [k|] eqn:Ho; [|done].
  apply owner_Some in Ho as (l & Hk & Hin); [|done].
  eapply Ring.ring_live; [by apply Hr|set_solver].
Qed.

(** Simulation of one operation. *)
Lemma sim_step h L op b L' :
  refines h L → op_live h op → a_step op L = Ok b L' →
  wp (c_step op) h (λ b' h', b' = b ∧ refines h' L' ∧ live_mono h h').
Proof.
  intros Href Hlive Hstep. destruct op as [e|e|p e|p e|e]; simpl in *.
  - unfold init, mbind, M_bind, get in Hstep.
    destruct (unlinked L e) eqn:Hun; [|done]. injection Hstep as <- <-.
    rewrite wp_bind. eapply wp_mono; [by apply sim_init|]. by intros ? h' [??].
  - unfold fmap, M_fmap in *. rewrite wp_bind. unfold mbind, M_bind in Hstep.
    destruct (is_empty e L) as [b' L0|] eqn:Hemp; [|done]. injection Hstep as <- <-.
    pose proof Hemp as ->%is_empty_state. eapply sim_is_empty; [done..|].
    rewrite wp_ret. split_and!; [done..|]. by intros q.
  - unfold mbind, M_bind in Hstep. destruct (init_add p e L) as [[] L0|] eqn:Hadd; [|done].
    injection Hstep as <- <-. rewrite wp_bind.
    eapply wp_mono; [by eapply sim_init_add|]. by intros ? h' [??].
  - unfold add, mbind, M_bind in Hstep.
    destruct (is_empty e L) as [[] L0|] eqn:Hemp; [|done..].
    pose proof Hemp as ->%is_empty_state. simpl in Hstep.
    destruct (init_add p e L) as [[] L0|] eqn:Hadd; [|done]. injection Hstep as <- <-.
    rewrite wp_bind. unfold Ring.lsdn_list_add. rewrite wp_bind.
    eapply sim_is_empty; [done..|]. rewrite wp_bind, wp_assert. split; [done|].
    eapply wp_mono; [eapply sim_init_add; [done|by eapply is_empty_live|done]|].
    by intros ? h' [??].
  - unfold mbind, M_bind in Hstep. destruct (remove e L) as [[] L0|] eqn:Hrem; [|done].
    injection Hstep as <- <-. rewrite wp_bind.
    eapply wp_mono; [by eapply sim_remove_op|]. by intros ? h' [??].
Qed.

(** A client: a sequence of list operations. *)
Fixpoint c_run (ops : list list_op) : M (gmap A Ring.node) (list (option bool)) :=
  match ops with
  | [] => mret []
  | op :: ops => b ← c_step op; bs ← c_run ops; mret (b :: bs)
  end.

Fixpoint a_run (ops : list list_op) : M store (list (option bool)) :=
  match ops with
  | [] => mret []
  | op :: ops => b ← a_step op; bs ← a_run ops; mret (b :: bs)
  end.

Lemma op_live_mono h h' op : live_mono h h' → op_live h op → op_live h' op.
Proof. intros Hm. destruct op; simpl; auto. Qed.

(** C1: the C list routines implement the list store. Any sequence of operations (init,
    emptiness test, insertion anywhere, checked insertion, unlinking) that runs on the
    abstract store runs without a fault on the linked nodes, gives the same answers, and
    leaves the nodes linked as the store says, every list disjoint from every other. *)
Theorem list_refinement (ops : list list_op) h L bs L' :
  refines h L → Forall (op_live h) ops → a_run ops L = Ok bs L' →
  ∃ h', c_run ops h = Ok bs h' ∧ refines h' L'.
Proof.
  revert h L bs. induction ops as [|op ops IH]; intros h L bs Href Hlive Hrun; simpl in *.
  { injection Hrun as <- <-. by exists h. }
  apply Forall_cons in Hlive as [Hop Hlive].
  unfold mbind, M_bind in Hrun |- *.
  destruct (a_step op L) as [b L1|] eqn:Hstep; [|done].
  pose proof (sim_step h L op b L1 Href Hop Hstep) as Hc.
  unfold wp in Hc. destruct (c_step op h) as [b' h1|]; [|done].
  destruct Hc as (-> & Href1 & Hm).
  destruct (a_run ops L1) as [bs1 L2|] eqn:Hrest; [|done]. injection Hrun as <- <-.
  destruct (IH h1 L1 bs1) as (h' & Hh' & Hr'); [done| |done|].
  - eapply Forall_impl; [done|]. intros ?. by apply op_live_mono.
  - exists h'. by rewrite Hh'.
Qed.
End store.

(** Five nodes of fresh memory. *)
Definition demo_heap : gmap positive (Ring.node (A := positive)) :=
  list_to_map ((λ i, (i, Ring.Node 1%positive 1%positive)) <$> [1; 2; 3; 4; 5]%positive).

Definition demo_ops : list (list_op (A := positive)) :=
  [OpInit 1; OpInitAdd 1 2; OpInitAdd 1 3; OpInit 4; OpAdd 3 4; OpRemove 2;
   OpIsEmpty 1; OpIsEmpty 2]%positive.

Lemma list_refinement_witness :
  ∃ h', c_run demo_ops demo_heap =
          Ok [None; None; None; None; None; None; Some false; Some true] h' ∧
        refines h' {[1 := [3; 4]; 2 := []]}%positive.
Proof.
  apply (list_refinement demo_ops demo_heap ∅).
  - split; [split|]; intros *; by rewrite lookup_empty.
  - repeat constructor; vm_compute; eauto.
  - vm_compute. reflexivity.
Defined.
End Store.
