(* ===== verification/IdAlloc.v ===== *)
(** * Identifier allocator ([netmodel/idalloc.c], [netmodel/private/idalloc.h])

    Hands out consecutive 32-bit identifiers; nothing is ever returned to the pool. *)

From Stdlib Require Import ZArith.
From stdpp Require Import base list numbers.
From S2P Require Import Prelude.

Local Open Scope Z_scope.

(** [struct lsdn_idalloc]; the fields are [uint32_t]. *)
Record lsdn_idalloc := IdAlloc { id_min : Z; id_max : Z; id_next : Z }.

Definition lsdn_idalloc_init (min max : Z) : lsdn_idalloc := IdAlloc min max min.

(** [lsdn_idalloc_get]: the identifier ([None] is the answer [false]) and the new record. *)
Definition lsdn_idalloc_get (a : lsdn_idalloc) : option Z * lsdn_idalloc :=
  if id_max a =? id_next a then (None, a)
  else (Some (id_next a), IdAlloc (id_min a) (id_max a) (u32 (id_next a + 1))).

Definition lsdn_idalloc_return (a : lsdn_idalloc) (id : Z) : lsdn_idalloc := a.

Definition lsdn_idalloc_free (a : lsdn_idalloc) : lsdn_idalloc := a.

(** The answers of [n] successive calls. *)
Fixpoint gets_n (n : nat) (a : lsdn_idalloc) : list (option Z) :=
  match n with
  | O => []
  | S n => let '(r, a') := lsdn_idalloc_get a in r :: gets_n n a'
  end.

(** What an allocator started at [min] has handed out so far: the identifiers below [id_next]. *)
Definition idalloc_ok (a : lsdn_idalloc) : Prop :=
  0 ≤ id_min a ≤ id_next a ∧ id_next a ≤ id_max a < 2 ^ 32.

Lemma idalloc_get_spec a r a' :
  idalloc_ok a → lsdn_idalloc_get a = (r, a') →
  idalloc_ok a' ∧
  match r with
  | Some i => i = id_next a ∧ i < id_max a ∧ id_next a' = i + 1
  | None => a' = a ∧ id_next a = id_max a
  end.
Proof.
  intros Hok. unfold lsdn_idalloc_get. destruct (Z.eqb_spec (id_max a) (id_next a)) as [He|He];
    intros [= <- <-]; [done|].
  unfold idalloc_ok in *. simpl. rewrite u32_small by lia. lia.
Qed.

Lemma gets_n_spec n a :
  idalloc_ok a →
  gets_n n a = map (λ k, let i := id_next a + Z.of_nat k in
                         if i <? id_max a then Some i else None) (seq 0 n).
Proof.
  revert a. induction n as [|n IH]; intros a Hok; [done|]. simpl.
  destruct (lsdn_idalloc_get a) as [r a'] eqn:Hg.
  pose proof (idalloc_get_spec _ _ _ Hok Hg) as [Hok' Hr].
  rewrite <-seq_shift, map_map, IH by done. rewrite Z.add_0_r. f_equal.
  - destruct r as [i|].
    + destruct Hr as (-> & Hlt & _). by rewrite (proj2 (Z.ltb_lt _ _)).
    + destruct Hr as [_ ->]. by rewrite Z.ltb_irrefl.
  - apply map_ext. intros k. destruct r as [i|].
    + destruct Hr as (-> & _ & Hn). rewrite Hn.
      replace (id_max a') with (id_max a).
      { rewrite Nat2Z.inj_succ. by replace (id_next a + 1 + Z.of_nat k) with
          (id_next a + Z.succ (Z.of_nat k)) by lia. }
      unfold lsdn_idalloc_get in Hg. destruct (_ =? _); [done|].
      by injection Hg as <-.
    + destruct Hr as [-> ->]. cbv zeta.
      rewrite (proj2 (Z.ltb_ge (id_max a + Z.of_nat k) _)) by lia.
      by rewrite (proj2 (Z.ltb_ge (id_max a + Z.of_nat (S k)) _)) by lia.
Qed.

(** C25: from [lsdn_idalloc_init min max], the k-th call of [lsdn_idalloc_get] answers
    [min + k] while that is below [max], and fails from then on: the identifiers handed out
    are pairwise distinct, stay in [min, max), never wrap around 32 bits, and [max] itself is
    never handed out. *)
Theorem idalloc_sequence min max n :
  0 ≤ min ≤ max → max < 2 ^ 32 →
  gets_n n (lsdn_idalloc_init min max) =
    map (λ k, let i := min + Z.of_nat k in if i <? max then Some i else None) (seq 0 n) ∧
  (∀ i j r, gets_n n (lsdn_idalloc_init min max) !! i = Some (Some r) →
     gets_n n (lsdn_idalloc_init min max) !! j = Some (Some r) → min ≤ r < max ∧ i = j).
Proof.
  intros Hmin Hmax. rewrite gets_n_spec by (unfold idalloc_ok; simpl; lia). simpl.
  split; [done|]. intros i j r. rewrite !list_lookup_fmap.
  intros (k1 & [-> _]%lookup_seq & H1)%fmap_Some (k2 & [-> _]%lookup_seq & H2)%fmap_Some.
  destruct (Z.ltb_spec (min + Z.of_nat (0 + i)) max); [|done].
  destruct (Z.ltb_spec (min + Z.of_nat (0 + j)) max); [|done].
  simplify_eq. split; lia.
Qed.

Lemma idalloc_sequence_witness :
  gets_n 3 (lsdn_idalloc_init 1 3) = [Some 1; Some 2; None].
Proof. apply (idalloc_sequence 1 3 3); lia. Defined.
