(* ===== verification/Status.v ===== *)
(** * Error codes, problem reports and commit states

    [netmodel/include/errors.h], [netmodel/private/errors.h], [netmodel/errors.c] and
    [netmodel/private/state.h]: the error and problem enumerations, the formatting of problem
    reports, and the life cycle of the objects of the network model. *)

From Stdlib Require Import ZArith Ascii.
From stdpp Require Import base list strings.
From S2P Require Import Prelude.

(** [lsdn_err_t] *)
Inductive lsdn_err_t :=
| LSDNE_OK | LSDNE_NOMEM | LSDNE_PARSE | LSDNE_DUPLICATE | LSDNE_NOIF | LSDNE_NETLINK
| LSDNE_VALIDATE | LSDNE_COMMIT | LSDNE_INCONSISTENT.

Global Instance lsdn_err_t_eq_dec : EqDecision lsdn_err_t.
Proof. solve_decision. Defined.

(** [enum lsdn_problem_code] *)
Inductive lsdn_problem_code :=
| LSDNP_PHYS_NOATTR | LSDNP_PHYS_DUPATTR | LSDNP_PHYS_INCOMPATIBLE_IPV
| LSDNP_PHYS_NOT_ATTACHED | LSDNP_VIRT_NOIF | LSDNP_VIRT_NOATTR | LSDNP_VIRT_DUPATTR
| LSDNP_NET_BAD_NETTYPE | LSDNP_NET_BADID | LSDNP_NET_DUPID | LSDNP_VR_INCOMPATIBLE_MATCH
| LSDNP_VR_DUPLICATE_RULE | LSDNP_COMMIT_NETLINK | LSDNP_COMMIT_NETLINK_CLEANUP
| LSDNP_COMMIT_NOMEM | LSDNP_NO_NLSOCK | LSDNP_RATES_INVALID.

Global Instance lsdn_problem_code_eq_dec : EqDecision lsdn_problem_code.
Proof. solve_decision. Defined.

(** The table [problem_code_names] generated from [lsdn_enumgen_problem_code]. *)
Definition problem_code_names (c : lsdn_problem_code) : string :=
  match c with
  | LSDNP_PHYS_NOATTR =>
      "An attribute %o must be defined on phys %o for attachment to net %o."
  | LSDNP_PHYS_DUPATTR => "Duplicate attribute %o specified for phys %o and phys %o."
  | LSDNP_PHYS_INCOMPATIBLE_IPV =>
      "Phys %o and phys %o attached to net %o have incompatible ip versions."
  | LSDNP_PHYS_NOT_ATTACHED =>
      "Trying to connect virt %o to a network %o on phys %o, but the phys is not attached to that network."
  | LSDNP_VIRT_NOIF => "The interface %o specified for virt %o does not exist."
  | LSDNP_VIRT_NOATTR => "An attribute %o must be defined on virt %o connected to net %o."
  | LSDNP_VIRT_DUPATTR =>
      "Duplicate attribute %o specified for virt %o and virt %o connected to net %o."
  | LSDNP_NET_BAD_NETTYPE =>
      "Trying to create net %o and net %o of incompatible network types on the same machine."
  | LSDNP_NET_BADID =>
      "Trying to create net %o with net id %o that is out of the allowed range for this type of network."
  | LSDNP_NET_DUPID => "Trying to create net %o and net %o with the same net id %o."
  | LSDNP_VR_INCOMPATIBLE_MATCH =>
      "Rules %o and %o on virt %o share the same priority, but have different match targets or masks."
  | LSDNP_VR_DUPLICATE_RULE =>
      "Rules %o and %o on virt %o share the same priority and are completely equal"
  | LSDNP_COMMIT_NETLINK => "Committing %o failed because kernel has refused the operation"
  | LSDNP_COMMIT_NETLINK_CLEANUP =>
      "Cleanup of %o failed because kernel has refused the operation. It has been left in inconsistent state."
  | LSDNP_COMMIT_NOMEM => "Committing %o failed because memory was exhausted."
  | LSDNP_NO_NLSOCK => "Can not establish netlink socket."
  | LSDNP_RATES_INVALID =>
      "Effective QoS (%o) rate on %o is not greater than zero. This is probably not the rate you are looking for."
  end.

(** [enum lsdn_problem_ref_type]; [LSDNS_END] ends the list of arguments and is not a
    reference. *)
Inductive lsdn_problem_ref_type :=
| LSDNS_ATTR | LSDNS_PHYS | LSDNS_PA | LSDNS_NET | LSDNS_VIRT | LSDNS_IF | LSDNS_NETID
| LSDNS_VR.

Global Instance lsdn_problem_ref_type_eq_dec : EqDecision lsdn_problem_ref_type.
Proof. solve_decision. Defined.

(** The [void *] of a reference: an attribute name, an object, or a network id. *)
Inductive ref_ptr :=
| RefStr (s : string)
| RefObj (p : positive)
| RefId (i : Z).

Record lsdn_problem_ref := ProblemRef { ref_type : lsdn_problem_ref_type; ref_ptr_of : ref_ptr }.

Definition LSDN_MAX_PROBLEM_REFS : nat := 10.

Record lsdn_problem := Problem { code : lsdn_problem_code; refs : list lsdn_problem_ref }.

(** ** Formatting of problems *)

Section format.
(** [name_of] is the name (or interface name) stored in the referenced object; [addr_of] is
    what [%p] prints for the [i]-th reference. *)
Context (name_of : lsdn_problem_ref → option string) (addr_of : nat → string).

(** The string that an attribute reference is. *)
Definition attr_of (subj : lsdn_problem_ref) : option string :=
  match ref_ptr_of subj with RefStr s => Some s | _ => None end.
(** What [format_subject] prints for the reference at index [i]; an interface without a name is
    a NULL string for [fputs]. *)
Definition format_subject (i : nat) (subj : lsdn_problem_ref) : M string unit :=
  let print (text : string) := modify (λ out, out +:+ text) in
  printed ←
    match ref_type subj with
    | LSDNS_IF => s ← deref (name_of subj); _ ← print s; mret false
    | LSDNS_NET | LSDNS_VIRT | LSDNS_PHYS =>
        match name_of subj with Some s => _ ← print s; mret true | None => mret false end
    | LSDNS_ATTR => s ← deref (attr_of subj); _ ← print s; mret true
    | _ => mret false
    end;
  if printed : bool then mret tt else print (addr_of i).

(** The loop of [lsdn_problem_format]; the answer is what is written to [out] and what is
    written to [stderr]. *)
Fixpoint format_loop (fmt : list ascii) (i : nat) (rs : list lsdn_problem_ref)
    : M string unit :=
  match fmt with
  | [] => mret tt
  | c :: fmt' =>
      if bool_decide (c = "%"%char) then
        match fmt' with
        | [] => fail AssertFailed
        | d :: fmt'' =>
            _ ← assert_ (bool_decide (d = "o"%char));
            _ ← assert_ (bool_decide (i < length rs));
            subj ← live (rs !! i);
            _ ← format_subject i subj;
            format_loop fmt'' (S i) rs
        end
      else
        _ ← modify (λ out, out +:+ String c ""); format_loop fmt' i rs
  end.

Definition lsdn_problem_format (problem : lsdn_problem) : M string unit :=
  format_loop (String.list_ascii_of_string (problem_code_names (code problem))) 0 (refs problem).
End format.

(** Number of [%o] directives of a format, [None] if some percent sign starts anything else. *)
Fixpoint directives (fmt : list ascii) : option nat :=
  match fmt with
  | [] => Some 0
  | c :: fmt' =>
      if bool_decide (c = "%"%char) then
        match fmt' with
        | [] => None
        | d :: fmt'' => if bool_decide (d = "o"%char) then S <$> directives fmt'' else None
        end
      else directives fmt'
  end.

Definition arity (c : lsdn_problem_code) : nat :=
  default 0 (directives (String.list_ascii_of_string (problem_code_names c))).

Lemma problem_code_names_ok c :
  directives (String.list_ascii_of_string (problem_code_names c)) = Some (arity c).
Proof. by destruct c. Qed.

(** A reference whose string is there to be printed. *)
Definition printable (name_of : lsdn_problem_ref → option string) (r : lsdn_problem_ref) : bool :=
  match ref_type r with
  | LSDNS_IF => bool_decide (is_Some (name_of r))
  | LSDNS_ATTR => bool_decide (is_Some (attr_of r))
  | _ => true
  end.

Lemma format_subject_run name_of addr_of i r out :
  if printable name_of r then ∃ out', format_subject name_of addr_of i r out = Ok tt out'
  else format_subject name_of addr_of i r out = Fault NullDeref.
Proof.
  destruct r as [t p]. unfold format_subject, printable, mbind, M_bind, deref, modify. simpl.
  destruct t; simpl; try by eexists. all: repeat case_bool_decide.
  all: repeat match goal with
    | H : is_Some _ |- _ => destruct H as [? ->]
    | H : ¬ is_Some ?x |- _ => apply eq_None_not_Some in H; rewrite H
    | |- context [match ?x with Some _ => _ | None => _ end] => destruct x
    end; simpl; try done; by eexists.
Qed.

(** The loop at the reference [i], with [n] directives to come. *)
Definition format_result (name_of : lsdn_problem_ref → option string) (rs : list lsdn_problem_ref) (n : nat) (r : res string unit) : Prop :=
  if forallb (printable name_of) (take n rs) then
    if bool_decide (n ≤ length rs) then ∃ out', r = Ok tt out' else r = Fault AssertFailed
  else r = Fault NullDeref.

Lemma format_loop_run name_of addr_of fmt i rs out n :
  directives fmt = Some n → i ≤ length rs →
  format_result name_of (drop i rs) n (format_loop name_of addr_of fmt i rs out).
Proof.
  remember (length fmt) as k eqn:Hk. revert fmt Hk i out n.
  induction k as [k IH] using lt_wf_ind; intros fmt -> i out n Hd Hi.
  destruct fmt as [|c fmt]; simpl in *.
  { injection Hd as <-. unfold format_result. rewrite take_0, bool_decide_true by lia. by eexists. }
  case_bool_decide as Hc.
  - destruct fmt as [|d fmt]; [done|]. case_bool_decide as Hd'; [|done].
    apply fmap_Some in Hd as (m & Hd & ->). unfold mbind, M_bind. simpl. unfold format_result.
    destruct (decide (i < length rs)) as [Hlt|Hlt]; [rewrite (bool_decide_true (i < length rs))|rewrite (bool_decide_false (i < length rs))]; simpl; try done.
    + destruct (lookup_lt_is_Some_2 rs i) as [r Hr]; [lia|]. rewrite Hr. simpl. rewrite (drop_S _ _ _ Hr). simpl.
      pose proof (format_subject_run name_of addr_of i r out) as Hs. destruct (printable name_of r); [|by rewrite Hs].
      destruct Hs as [out1 ->]. simpl.
      pose proof (IH (length fmt) ltac:(simpl; lia) fmt eq_refl (S i) out1 m Hd ltac:(lia)) as HR.
      unfold format_result in HR. destruct (forallb _ _); [|done].
      by rewrite (bool_decide_ext (S m ≤ S (length (drop (S i) rs))) (m ≤ length (drop (S i) rs))) by lia.
    + rewrite drop_ge by lia. by rewrite take_nil.
  - unfold mbind, M_bind. simpl. eapply IH; [|done|done|lia]. lia.
Qed.

(** C26: [lsdn_problem_format] prints a problem without a fault exactly when it carries at least
    as many references as the format string of its code has [%o] directives, and the
    interfaces among those have names: with fewer references the bounds assertion fires (it
    never reads past them), and at an interface without a name a NULL string is printed. *)
Theorem problem_format_total name_of addr_of problem out :
  format_result name_of (refs problem) (arity (code problem)) (lsdn_problem_format name_of addr_of problem out).
Proof.
  apply (format_loop_run name_of addr_of _ 0 (refs problem) out); [apply problem_code_names_ok|lia].
Qed.

(** ** Commit states *)

(** [enum lsdn_state] *)
Inductive lsdn_state :=
| LSDN_STATE_NEW | LSDN_STATE_RENEW | LSDN_STATE_DELETE | LSDN_STATE_OK | LSDN_STATE_ERR
| LSDN_STATE_FAIL.

Global Instance lsdn_state_eq_dec : EqDecision lsdn_state.
Proof. solve_decision. Defined.

(** [ack_state]: both tests are made in sequence. *)
Definition ack_state (s : lsdn_state) : lsdn_state :=
  let s := if bool_decide (s = LSDN_STATE_NEW ∨ s = LSDN_STATE_RENEW) then LSDN_STATE_OK else s in
  if bool_decide (s = LSDN_STATE_ERR) then LSDN_STATE_NEW else s.

(** [ack_decommit]: the new state and the answer. *)
Definition ack_decommit (s : lsdn_state) : lsdn_state * bool :=
  match s with
  | LSDN_STATE_DELETE => (s, true)
  | LSDN_STATE_RENEW => (LSDN_STATE_NEW, true)
  | _ => (s, false)
  end.

(** [renew] of lsdn.c; [None] is the failed assertion. *)
Definition renew_state (s : lsdn_state) : option lsdn_state :=
  if bool_decide (s = LSDN_STATE_DELETE) then None else
  Some (if bool_decide (s = LSDN_STATE_OK) then LSDN_STATE_RENEW else s).

(** [propagate] of lsdn.c: the new state of [to]. *)
Definition propagate (from to : lsdn_state) : lsdn_state :=
  if bool_decide (from = LSDN_STATE_RENEW ∧ to = LSDN_STATE_OK) then LSDN_STATE_RENEW else to.

Definition should_be_validated (s : lsdn_state) : bool :=
  bool_decide (s = LSDN_STATE_NEW ∨ s = LSDN_STATE_RENEW).

Definition will_be_deleted (s : lsdn_state) : bool := bool_decide (s = LSDN_STATE_DELETE).

Definition state_ok (s : lsdn_state) : bool :=
  bool_decide (s = LSDN_STATE_OK ∨ s = LSDN_STATE_NEW).

(** [acc_inconsistent]: the new value of the accumulator. *)
Definition acc_inconsistent (dst src : lsdn_err_t) : lsdn_err_t :=
  if bool_decide (src ≠ LSDNE_OK) then LSDNE_INCONSISTENT else dst.

(** [mark_commit_err]: the new state, the problem reported (about the object itself) and the
    answer; [None] is [abort()] on an error code the function does not expect. *)
Definition mark_commit (s : lsdn_state) (fatal : bool) (err : lsdn_err_t)
    : option (lsdn_state * option lsdn_problem_code * bool) :=
  if bool_decide (s = LSDN_STATE_FAIL) then Some (s, None, true)
  else if bool_decide (err = LSDNE_INCONSISTENT) || (fatal && bool_decide (err = LSDNE_NETLINK))
  then Some (LSDN_STATE_FAIL, Some LSDNP_COMMIT_NETLINK_CLEANUP, true)
  else if bool_decide (err = LSDNE_NETLINK)
  then Some (LSDN_STATE_ERR, Some LSDNP_COMMIT_NETLINK, true)
  else if bool_decide (err = LSDNE_NOMEM)
  then Some (LSDN_STATE_ERR, Some LSDNP_COMMIT_NOMEM, true)
  else if bool_decide (err = LSDNE_OK) then Some (s, None, false)
  else None.
