(* ===== verification/Nettypes.v ===== *)
(** * Network types ([netmodel/nettypes.c], [netmodel/include/nettypes.h])

    MAC and IP addresses, their parsers and printers, and the conversions between prefix
    lengths and masks. Bytes are [Z] in [0, 256); C strings are lists of characters without
    the terminating NUL (running off the end reads NUL). The two C library routines the file
    builds on, [strtoul] in base 16 and [inet_pton], are modelled from their documentation. *)

From Stdlib Require Import ZArith Ascii.
From stdpp Require Import base sets list strings numbers.
From S2P Require Import Prelude.
From S2P Require Import Status.

Local Open Scope char_scope.
Local Open Scope Z_scope.

Notation cstring := (list ascii).

Definition LSDN_MAC_LEN : nat := 6.
Definition LSDN_IPv4_LEN : nat := 4.
Definition LSDN_IPv6_LEN : nat := 16.

(** [lsdn_mac_t]: the bytes of the union. *)
Definition lsdn_mac_t : Type := list Z.

Inductive lsdn_ipv := LSDN_IPv4 | LSDN_IPv6.

Global Instance lsdn_ipv_eq_dec : EqDecision lsdn_ipv.
Proof. solve_decision. Defined.

(** [lsdn_ip_t]: the version tag and the bytes of the union member it selects. *)
Record lsdn_ip_t := Ip { v : lsdn_ipv; ip_bytes : list Z }.

Global Instance lsdn_ip_t_eq_dec : EqDecision lsdn_ip_t.
Proof. solve_decision. Defined.

Definition ip_len (iv : lsdn_ipv) : nat :=
  match iv with LSDN_IPv4 => LSDN_IPv4_LEN | LSDN_IPv6 => LSDN_IPv6_LEN end.

Definition byte (b : Z) : Prop := 0 ≤ b < 256.
Definition bytes_ok (n : nat) (l : list Z) : Prop := length l = n ∧ Forall byte l.
Definition mac_ok (m : lsdn_mac_t) : Prop := bytes_ok LSDN_MAC_LEN m.
Definition ip_ok (ip : lsdn_ip_t) : Prop := bytes_ok (ip_len (v ip)) (ip_bytes ip).

Definition lsdn_broadcast_mac : lsdn_mac_t := [255; 255; 255; 255; 255; 255].
Definition lsdn_multicast_mac_mask : lsdn_mac_t := [1; 0; 0; 0; 0; 0].
Definition lsdn_single_mac_mask : lsdn_mac_t := [255; 255; 255; 255; 255; 255].
Definition lsdn_all_zeroes_mac : lsdn_mac_t := [0; 0; 0; 0; 0; 0].
Definition lsdn_single_ipv4_mask : lsdn_ip_t := Ip LSDN_IPv4 [255; 255; 255; 255].
Definition lsdn_single_ipv6_mask : lsdn_ip_t := Ip LSDN_IPv6 (replicate 16 255).

(** ** Characters *)

Definition chr (c : ascii) : Z := Z.of_N (N_of_ascii c).

Definition is_between (lo hi c : ascii) : bool := (chr lo <=? chr c) && (chr c <=? chr hi).

(** Value of a hexadecimal digit. *)
Definition xdigit (c : ascii) : option Z :=
  if is_between "0" "9" c then Some (chr c - chr "0")
  else if is_between "a" "f" c then Some (chr c - chr "a" + 10)
  else if is_between "A" "F" c then Some (chr c - chr "A" + 10)
  else None.

Definition digit (c : ascii) : option Z :=
  if is_between "0" "9" c then Some (chr c - chr "0") else None.

(** [isspace] in the C locale. *)
Definition isspace (c : ascii) : bool :=
  bool_decide (c = " ") || is_between "009" "013" c.

(** ** [strtoul] in base 16 *)

Fixpoint skip_space (s : cstring) : cstring :=
  match s with c :: s' => if isspace c then skip_space s' else s | [] => [] end.

Fixpoint hex_digits (s : cstring) (acc : Z) : Z * cstring :=
  match s with
  | c :: s' => match xdigit c with Some d => hex_digits s' (acc * 16 + d) | None => (acc, s) end
  | [] => (acc, [])
  end.

(** The value and the rest of the string; without digits the rest is the whole string.
    Overflow past [ULONG_MAX] does not happen on the two characters it is given here. *)
Definition strtoul16 (s : cstring) : Z * cstring :=
  let s0 := skip_space s in
  let '(neg, s1) := match s0 with
                    | c :: r => if bool_decide (c = "-") then (true, r)
                                else if bool_decide (c = "+") then (false, r) else (false, s0)
                    | [] => (false, s0) end in
  let s2 := match s1 with
            | z :: x :: d :: r =>
                if bool_decide (z = "0") && (bool_decide (x = "x") || bool_decide (x = "X"))
                   && bool_decide (is_Some (xdigit d)) then d :: r else s1
            | _ => s1 end in
  match s2 with
  | c :: _ => match xdigit c with
              | Some _ => let '(n, rest) := hex_digits s2 0 in
                          ((if neg : bool then - n else n) mod 2 ^ 64, rest)
              | None => (0, s)
              end
  | [] => (0, s)
  end.

(** ** MAC addresses *)

(** [parse_octet]: the error, the advanced string, and the byte written to [dst], if any. *)
Definition parse_octet (ascii : cstring) : lsdn_err_t * cstring * option Z :=
  match ascii with
  | a :: b :: rest =>
      let '(n, end_) := strtoul16 [a; b] in
      match end_ with
      | [] => (LSDNE_OK, rest, Some (u8 n))
      | _ :: _ => (LSDNE_PARSE, ascii, None)
      end
  | _ => (LSDNE_OK, ascii, None)
  end.

(** The loop of [lsdn_parse_mac] from index [i], [n] rounds left. *)
Fixpoint parse_mac_loop (n i : nat) (mac : lsdn_mac_t) (ascii : cstring)
    : option cstring * lsdn_mac_t :=
  match n with
  | O => (Some ascii, mac)
  | S n =>
      let '(err, ascii, dst) := parse_octet ascii in
      let mac := match dst with Some b => <[i := b]> mac | None => mac end in
      if bool_decide (err ≠ LSDNE_OK) then (None, mac) else
      let ascii := match ascii with
                   | c :: r => if bool_decide (c = ":") then r else ascii
                   | [] => ascii end in
      parse_mac_loop n (S i) mac ascii
  end.

(** [lsdn_parse_mac]: the error and the final contents of [*mac], which held [mac] before. *)
Definition lsdn_parse_mac (mac : lsdn_mac_t) (ascii : cstring) : lsdn_err_t * lsdn_mac_t :=
  match parse_mac_loop LSDN_MAC_LEN 0 mac ascii with
  | (Some [], mac) => (LSDNE_OK, mac)
  | (_, mac) => (LSDNE_PARSE, mac)
  end.

Definition lsdn_mac_eq (a b : lsdn_mac_t) : bool := bool_decide (a = b).

(** [%x] digit of a nibble, and [%02x] of a byte. *)
Definition hexchar (d : Z) : ascii :=
  ascii_of_N (Z.to_N (if d <? 10 then chr "0" + d else chr "a" + (d - 10))).
Definition hex2 (b : Z) : cstring := [hexchar (b / 16); hexchar (b mod 16)].

(** Joins the pieces with a separator. *)
Fixpoint sep (s : cstring) (l : list cstring) : cstring :=
  match l with
  | [] => []
  | [x] => x
  | x :: l => x ++ s ++ sep s l
  end.

Definition lsdn_mac_to_string (mac : lsdn_mac_t) : cstring := sep [":"] (map hex2 mac).

(** ** IP addresses *)

(** [%d] of a byte. *)
Definition dec (b : Z) : cstring :=
  let d k := ascii_of_N (Z.to_N (chr "0" + k)) in
  if b <? 10 then [d b]
  else if b <? 100 then [d (b / 10); d (b mod 10)]
  else [d (b / 100); d (b / 10 mod 10); d (b mod 10)].

Definition lsdn_ipv4_to_string (b : list Z) : cstring := sep ["."] (map dec b).

(** Two bytes of an IPv6 address. *)
Fixpoint groups (b : list Z) : list cstring :=
  match b with
  | x :: y :: b => (hex2 x ++ hex2 y) :: groups b
  | _ => []
  end.

Definition lsdn_ipv6_to_string (b : list Z) : cstring := sep [":"] (groups b).

Definition lsdn_ip_to_string (ip : lsdn_ip_t) : cstring :=
  match v ip with
  | LSDN_IPv4 => lsdn_ipv4_to_string (ip_bytes ip)
  | LSDN_IPv6 => lsdn_ipv6_to_string (ip_bytes ip)
  end.

(** [inet_pton(AF_INET)]: four decimal octets without superfluous leading zeros. [done] are
    the finished octets, [cur] the octet being read and whether it has digits. *)
Fixpoint inet_pton4_loop (s : cstring) (done : list Z) (cur : option Z) : option (list Z) :=
  match s with
  | [] => match cur with
          | Some n => if bool_decide (length done = 3%nat) then Some (done ++ [n]) else None
          | None => None
          end
  | c :: s =>
      match digit c with
      | Some d =>
          match cur with
          | None => inet_pton4_loop s done (Some d)
          | Some n => if (n =? 0) || (255 <? n * 10 + d) then None
                      else inet_pton4_loop s done (Some (n * 10 + d))
          end
      | None =>
          match cur with
          | Some n => if bool_decide (c = ".") && bool_decide (length done < 3)%nat
                      then inet_pton4_loop s (done ++ [n]) None else None
          | None => None
          end
      end
  end.

Definition inet_pton4 (s : cstring) : option (list Z) := inet_pton4_loop s [] None.

(** The end of [inet_pton(AF_INET6)]: [tp] are the bytes read and [colonp] the place of the
    double colon, which stands for as many zero bytes as are missing. *)
Definition pton6_finish (tp : list Z) (colonp : option nat) : option (list Z) :=
  match colonp with
  | Some k => if bool_decide (length tp = 16%nat) then None else
              Some (take k tp ++ replicate (16 - length tp) 0 ++ drop k tp)
  | None => if bool_decide (length tp = 16%nat) then Some tp else None
  end.

(** [xd] is the number of hexadecimal digits of the current group and [val] its value;
    [curtok] is where the group starts. *)
Fixpoint inet_pton6_loop (s : cstring) (tp : list Z) (colonp : option nat) (xd : nat) (val : Z)
    (curtok : cstring) : option (list Z) :=
  match s with
  | [] =>
      if bool_decide (xd = 0%nat) then pton6_finish tp colonp
      else if bool_decide (16 < length tp + 2)%nat then None
      else pton6_finish (tp ++ [val / 256; val mod 256]) colonp
  | c :: s' =>
      match xdigit c with
      | Some d => if bool_decide (xd = 4%nat) then None
                  else inet_pton6_loop s' tp colonp (S xd) (val * 16 + d) curtok
      | None =>
          if bool_decide (c = ":") then
            if bool_decide (xd = 0%nat) then
              match colonp with
              | Some _ => None
              | None => inet_pton6_loop s' tp (Some (length tp)) 0 0 s'
              end
            else if bool_decide (s' = []) then None
            else if bool_decide (16 < length tp + 2)%nat then None
            else inet_pton6_loop s' (tp ++ [val / 256; val mod 256]) colonp 0 0 s'
          else if bool_decide (c = ".") && bool_decide (length tp + 4 <= 16)%nat then
            match inet_pton4 curtok with
            | Some b4 => pton6_finish (tp ++ b4) colonp
            | None => None
            end
          else None
      end
  end.

(** A leading colon must be the first of a double colon. *)
Definition inet_pton6 (s : cstring) : option (list Z) :=
  match s with
  | c :: r =>
      if bool_decide (c = ":") then
        match r with
        | c' :: _ => if bool_decide (c' = ":") then inet_pton6_loop r [] None 0 0 r else None
        | [] => None
        end
      else inet_pton6_loop s [] None 0 0 s
  | [] => None
  end.

(** [lsdn_parse_ip]: a failed [inet_pton] leaves the address bytes alone. The answer [None]
    for the address means [*ip] was not (completely) set. *)
Definition lsdn_parse_ip (ascii : cstring) : lsdn_err_t * option lsdn_ip_t :=
  if bool_decide ("." ∈ ascii) then
    match inet_pton4 ascii with
    | Some b => (LSDNE_OK, Some (Ip LSDN_IPv4 b))
    | None => (LSDNE_PARSE, None)
    end
  else if bool_decide (":" ∈ ascii) then
    match inet_pton6 ascii with
    | Some b => (LSDNE_OK, Some (Ip LSDN_IPv6 b))
    | None => (LSDNE_PARSE, None)
    end
  else (LSDNE_PARSE, None).

Definition lsdn_ipv4_eq (a b : list Z) : bool :=
  bool_decide (take LSDN_IPv4_LEN a = take LSDN_IPv4_LEN b).
Definition lsdn_ipv6_eq (a b : list Z) : bool :=
  bool_decide (take LSDN_IPv6_LEN a = take LSDN_IPv6_LEN b).

Definition lsdn_ip_eq (a b : lsdn_ip_t) : bool :=
  if bool_decide (v a ≠ v b) then false
  else if bool_decide (v a = LSDN_IPv4) then lsdn_ipv4_eq (ip_bytes a) (ip_bytes b)
  else lsdn_ipv6_eq (ip_bytes a) (ip_bytes b).

Definition lsdn_ipv_eq (a b : lsdn_ip_t) : bool := bool_decide (v a = v b).

Definition lsdn_ip4_u32 (b : list Z) : Z :=
  match b with
  | [b0; b1; b2; b3] =>
      Z.lor (Z.lor (Z.lor (Z.shiftl b0 24) (Z.shiftl b1 16)) (Z.shiftl b2 8)) b3
  | _ => 0
  end.

(** ** Prefix lengths and masks *)

Definition lsdn_is_prefix_valid (iv : lsdn_ipv) (prefix : Z) : bool :=
  match iv with
  | LSDN_IPv4 => (0 <=? prefix) && (prefix <=? 32)
  | LSDN_IPv6 => (0 <=? prefix) && (prefix <=? 128)
  end.

(** [gen_prefix]: [None] if the loop runs past the end of [dst]. *)
Fixpoint gen_prefix (dst : list Z) (prefix : Z) : option (list Z) :=
  if 0 <? prefix then
    match dst with
    | [] => None
    | _ :: dst =>
        let byte_prefix := if 8 <? prefix then 8 else prefix in
        let zero_suffix := 8 - byte_prefix in
        let b := u8 (Z.lnot (Z.shiftl 1 zero_suffix - 1)) in
        cons b <$> gen_prefix dst (prefix - 8)
    end
  else Some dst.

Definition lsdn_ip_mask_from_prefix (iv : lsdn_ipv) (prefix : Z) : M unit lsdn_ip_t :=
  _ ← assert_ (lsdn_is_prefix_valid iv prefix);
  match gen_prefix (replicate (ip_len iv) 0) prefix with
  | Some b => mret (Ip iv b)
  | None => fail OutOfBounds
  end.

(** The [while (d)] loop: does [b] occur among the byte masks? [fuel] bounds the rounds. *)
Fixpoint partial_byte (fuel : nat) (b d n : Z) (ok : bool) : bool :=
  match fuel with
  | O => ok
  | S fuel =>
      if d =? 0 then ok else
      let ok := ok || (b =? n) in
      let d := u8 (d * 2) in
      partial_byte fuel b d (u8 (n - d)) ok
  end.

Fixpoint mask_bytes_ok (bytes : list Z) : bool :=
  match bytes with
  | [] => true
  | b :: rest =>
      if b =? 255 then mask_bytes_ok rest
      else if negb (partial_byte 9 b 1 (255 - 1) false) then false
      else forallb (λ c, c =? 0) rest
  end.

Definition lsdn_ip_mask_is_prefix (mask : lsdn_ip_t) : bool :=
  mask_bytes_ok (take (ip_len (v mask)) (ip_bytes mask)).

(** Number of one bits of a byte, tested one by one. *)
Definition byte_ones (b : Z) : Z :=
  foldl (λ prefix j, if Z.land b (Z.shiftl 1 j) =? 0 then prefix else prefix + 1) 0
    [0; 1; 2; 3; 4; 5; 6; 7].

Definition lsdn_ip_prefix_from_mask (mask : lsdn_ip_t) : M unit Z :=
  _ ← assert_ (lsdn_ip_mask_is_prefix mask);
  mret (foldl (λ prefix b, prefix + byte_ones b) 0 (take (ip_len (v mask)) (ip_bytes mask))).

(** ** Digits *)

Lemma byte_ind (P : Z → Prop) :
  Forall P (map Z.of_nat (seq 0 256)) → ∀ b, byte b → P b.
Proof.
  intros HP b Hb. rewrite list.Forall_forall in HP. apply HP.
  replace b with (Z.of_nat (Z.to_nat b)) by (unfold byte in Hb; lia).
  apply list_elem_of_fmap. eexists. split; [done|]. apply elem_of_seq. unfold byte in Hb. lia.
Qed.

(** Everything the printers and parsers need of a single byte, checked on all of them. *)
Definition byte_facts (b : Z) : Prop :=
  strtoul16 (hex2 b) = (b, []) ∧
  xdigit (hexchar (b / 16)) = Some (b / 16) ∧ xdigit (hexchar (b mod 16)) = Some (b mod 16) ∧
  hexchar (b / 16) ≠ ":" ∧ hexchar (b / 16) ≠ "." ∧ hexchar (b mod 16) ≠ ".".

Global Instance byte_facts_dec b : Decision (byte_facts b).
Proof. unfold byte_facts. apply _. Defined.

Lemma byte_facts_all b : byte b → byte_facts b.
Proof.
  apply byte_ind. apply (bool_decide_unpack (Forall byte_facts _)). vm_compute. exact I.
Qed.

Lemma parse_octet_hex2 b rest :
  byte b → parse_octet (hex2 b ++ rest) = (LSDNE_OK, rest, Some b).
Proof.
  intros Hb. destruct (byte_facts_all b Hb) as (Hs & _).
  unfold hex2 in *. simpl. rewrite Hs. rewrite u8_small by done. done.
Qed.

Lemma hex2_length b : length (hex2 b) = 2%nat.
Proof. done. Qed.

(** ** MAC addresses: printing and parsing *)

Lemma parse_mac_loop_step n i mac b rest c r :
  byte b → rest = c :: r → c = ":" →
  parse_mac_loop (S n) i mac (hex2 b ++ rest) = parse_mac_loop n (S i) (<[i := b]> mac) r.
Proof.
  intros Hb -> ->. cbn [parse_mac_loop]. rewrite parse_octet_hex2 by done.
  by rewrite bool_decide_false, bool_decide_true by naive_solver.
Qed.

Lemma parse_mac_loop_last i mac b :
  byte b → parse_mac_loop 1 i mac (hex2 b) = (Some [], <[i := b]> mac).
Proof.
  intros Hb. cbn [parse_mac_loop]. rewrite <-(app_nil_r (hex2 b)), parse_octet_hex2 by done.
  by rewrite bool_decide_false by naive_solver.
Qed.

(** parsing the printed form of a MAC address gives the address back, whatever the
    destination held before, and the printed form has exactly [LSDN_MAC_STRING_LEN] = 17
    characters (so [lsdn_mac_to_string] writes 18 bytes, the terminating NUL included). *)
Theorem mac_roundtrip (m m0 : lsdn_mac_t) :
  mac_ok m → length m0 = LSDN_MAC_LEN →
  lsdn_parse_mac m0 (lsdn_mac_to_string m) = (LSDNE_OK, m) ∧
  length (lsdn_mac_to_string m) = (LSDN_MAC_LEN - 1 + LSDN_MAC_LEN * 2)%nat.
Proof.
  intros [Hlen Hb] Hlen0.
  destruct m as [|a [|b [|c [|d [|e [|f [|]]]]]]]; try done.
  destruct m0 as [|a0 [|b0 [|c0 [|d0 [|e0 [|f0 [|]]]]]]]; try done.
  rewrite !list.Forall_cons in Hb. destruct Hb as (Ha & Hb & Hc & Hd & He & Hf & _).
  split; [|done]. unfold lsdn_parse_mac, lsdn_mac_to_string, LSDN_MAC_LEN. cbn [map sep].
  do 5 (erewrite parse_mac_loop_step by done). by rewrite parse_mac_loop_last.
Qed.

Lemma mac_roundtrip_witness :
  lsdn_parse_mac lsdn_all_zeroes_mac (lsdn_mac_to_string [10; 27; 44; 255; 0; 171]) =
    (LSDNE_OK, [10; 27; 44; 255; 0; 171]).
Proof.
  apply (mac_roundtrip [10; 27; 44; 255; 0; 171] lsdn_all_zeroes_mac).
  - split; [done|]. repeat (constructor; [unfold byte; lia|]). constructor.
  - done.
Defined.

(** [lsdn_parse_mac] accepts strings that are no MAC address: when the text runs out,
    [parse_octet] answers 0, which is [LSDNE_OK], instead of a parse error. The empty string
    parses with success and leaves the caller's bytes untouched, and a truncated address
    parses with its last bytes unset. *)
Theorem parse_mac_accepts_truncated (m0 : lsdn_mac_t) :
  lsdn_parse_mac m0 [] = (LSDNE_OK, m0) ∧
  lsdn_parse_mac m0 ["0"; "a"; ":"; "1"; "b"] = (LSDNE_OK, <[1%nat := 27]> (<[0%nat := 10]> m0)).
Proof. done. Qed.

(** ** IP addresses: printing and parsing *)

Lemma digit_char k : 0 ≤ k < 10 → digit (ascii_of_N (Z.to_N (chr "0" + k))) = Some k.
Proof.
  intros Hk.
  assert (k = 0 ∨ k = 1 ∨ k = 2 ∨ k = 3 ∨ k = 4 ∨ k = 5 ∨ k = 6 ∨ k = 7 ∨ k = 8 ∨ k = 9) by lia.
  by destruct_or!; subst.
Qed.

Lemma pton4_dec b rest dn :
  byte b → inet_pton4_loop (dec b ++ rest) dn None = inet_pton4_loop rest dn (Some b).
Proof.
  intros Hb. unfold byte in Hb. unfold dec.
  destruct (Z.ltb_spec b 10) as [H1|H1]; [|destruct (Z.ltb_spec b 100) as [H2|H2]];
    cbn [app inet_pton4_loop]; rewrite !digit_char by div_lia; [done|..].
  - rewrite (proj2 (Z.eqb_neq (b / 10) 0)), (proj2 (Z.ltb_ge _ _)) by div_lia.
    simpl. do 2 f_equal. div_lia.
  - rewrite (proj2 (Z.eqb_neq (b / 100) 0)), (proj2 (Z.ltb_ge 255 (b / 100 * 10 + b / 10 mod 10)))
      by div_lia. cbn [orb].
    rewrite (proj2 (Z.eqb_neq (b / 100 * 10 + b / 10 mod 10) 0)) by div_lia.
    rewrite (proj2 (Z.ltb_ge 255 ((b / 100 * 10 + b / 10 mod 10) * 10 + b mod 10))) by div_lia.
    simpl. do 2 f_equal. div_lia.
Qed.

Lemma pton4_print b : bytes_ok 4 b → inet_pton4 (lsdn_ipv4_to_string b) = Some b.
Proof.
  intros [Hlen Hb]. destruct b as [|x [|y [|z [|w [|]]]]]; try done.
  rewrite !list.Forall_cons in Hb. destruct Hb as (Hx & Hy & Hz & Hw & _).
  unfold inet_pton4, lsdn_ipv4_to_string. cbn [map sep].
  rewrite pton4_dec by done. cbn [app inet_pton4_loop].
  rewrite pton4_dec by done. cbn [app inet_pton4_loop].
  rewrite pton4_dec by done. cbn [app inet_pton4_loop].
  rewrite <-(app_nil_r (dec w)), pton4_dec by done. done.
Qed.

Lemma pton6_group x y rest tp cp tok :
  byte x → byte y →
  inet_pton6_loop (hex2 x ++ hex2 y ++ rest) tp cp 0 0 tok =
  inet_pton6_loop rest tp cp 4 (x * 256 + y) tok.
Proof.
  intros Hx Hy. destruct (byte_facts_all x Hx) as (_ & Hx1 & Hx2 & _).
  destruct (byte_facts_all y Hy) as (_ & Hy1 & Hy2 & _).
  unfold hex2. cbn [app inet_pton6_loop]. rewrite Hx1, Hx2, Hy1, Hy2. simpl.
  f_equal. unfold byte in *. div_lia.
Qed.

Lemma pton6_colon c rest tp cp x y tok :
  byte x → byte y → (length tp + 2 ≤ 16)%nat →
  inet_pton6_loop (":" :: c :: rest) tp cp 4 (x * 256 + y) tok =
  inet_pton6_loop (c :: rest) (tp ++ [x; y]) cp 0 0 (c :: rest).
Proof.
  intros Hx Hy Hlen. cbn [inet_pton6_loop xdigit]. change (xdigit ":") with (@None Z).
  cbv iota. rewrite !(bool_decide_false (4%nat = 0%nat)), bool_decide_true by done.
  rewrite (bool_decide_false (c :: rest = [])) by done.
  rewrite bool_decide_false by lia. unfold byte in *.
  replace ((x * 256 + y) / 256) with x by div_lia.
  by replace ((x * 256 + y) mod 256) with y by div_lia.
Qed.

Lemma pton6_last tp x y tok :
  byte x → byte y → length tp = 14%nat →
  inet_pton6_loop [] tp None 4 (x * 256 + y) tok = Some (tp ++ [x; y]).
Proof.
  intros Hx Hy Hlen. cbn [inet_pton6_loop]. rewrite bool_decide_false by done.
  rewrite bool_decide_false by lia. unfold byte in *.
  replace ((x * 256 + y) / 256) with x by div_lia.
  replace ((x * 256 + y) mod 256) with y by div_lia.
  unfold pton6_finish. by rewrite bool_decide_true by (rewrite length_app; simpl; lia).
Qed.

(** The groups still to be read, after the bytes [tp]. *)
Lemma pton6_groups (l tp : list Z) tok :
  Forall byte l → Nat.Even (length l) → l ≠ [] → (length tp + length l = 16)%nat →
  inet_pton6_loop (sep [":"] (groups l)) tp None 0 0 tok = Some (tp ++ l).
Proof.
  remember (length l) as n eqn:Hn. revert l Hn tp tok.
  induction n as [n IH] using lt_wf_ind; intros l -> tp tok Hb [k Hk] Hne Hlen.
  destruct l as [|x [|y l]]; [done|simpl in Hk; lia|]. simpl in Hlen, Hk.
  rewrite !list.Forall_cons in Hb. destruct Hb as (Hx & Hy & Hb).
  destruct l as [|x' [|y' l]].
  - cbn [groups sep]. rewrite <-(app_nil_r (hex2 x ++ hex2 y)), <-app_assoc.
    rewrite pton6_group by done. apply pton6_last; [done..|]. simpl in Hlen. lia.
  - simpl in Hk. lia.
  - change (sep [":"] (groups (x :: y :: x' :: y' :: l))) with
      ((hex2 x ++ hex2 y) ++ ":" :: sep [":"] (groups (x' :: y' :: l))).
    rewrite <-app_assoc, pton6_group by done.
    assert (∃ c r, sep [":"] (groups (x' :: y' :: l)) = c :: r) as (c & r & Hcr).
    { simpl. destruct (groups l); by eexists _, _. }
    rewrite Hcr, pton6_colon by (try done; simpl in Hlen; lia). rewrite <-Hcr.
    assert (tp ++ x :: y :: x' :: y' :: l = (tp ++ [x; y]) ++ x' :: y' :: l) as ->
      by by rewrite <-app_assoc.
    eapply (IH (length (x' :: y' :: l))); try done.
    + simpl. lia.
    + exists (k - 1)%nat. simpl in *. lia.
    + rewrite length_app. simpl in *. lia.
Qed.

Lemma elem_of_sep (c : ascii) s l : c ∈ sep s l → c ∈ s ∨ ∃ x, x ∈ l ∧ c ∈ x.
Proof.
  induction l as [|x l IH]; simpl; [set_solver|]. destruct l as [|y l]; [set_solver|].
  rewrite !elem_of_app. intros [?|[?|Hc]]; [set_solver..|]. apply IH in Hc. set_solver.
Qed.

Lemma elem_of_groups l x :
  x ∈ groups l → ∃ a b, x = hex2 a ++ hex2 b ∧ a ∈ l ∧ b ∈ l.
Proof.
  remember (length l) as n eqn:Hn. revert l Hn. induction n as [n IH] using lt_wf_ind.
  intros l -> Hx. destruct l as [|a [|b l]]; simpl in Hx; [set_solver..|].
  apply elem_of_cons in Hx as [->|Hx]; [exists a, b; set_solver|].
  destruct (IH (length l) ltac:(simpl; lia) l eq_refl Hx) as (a' & b' & ? & ? & ?).
  exists a', b'. set_solver.
Qed.

Lemma no_dot_in_ipv6 l : Forall byte l → "." ∉ lsdn_ipv6_to_string l.
Proof.
  intros Hb [?|(x & (a & b & -> & Ha & Hb')%elem_of_groups & Hx)]%elem_of_sep; [set_solver|].
  rewrite list.Forall_forall in Hb.
  destruct (byte_facts_all a (Hb _ Ha)) as (_&_&_&_&?&?).
  destruct (byte_facts_all b (Hb _ Hb')) as (_&_&_&_&?&?). unfold hex2 in Hx. set_solver.
Qed.

Lemma parse_printed_ip (ip : lsdn_ip_t) :
  ip_ok ip → lsdn_parse_ip (lsdn_ip_to_string ip) = (LSDNE_OK, Some ip).
Proof.
  destruct ip as [[] b]; unfold ip_ok, lsdn_parse_ip, lsdn_ip_to_string; simpl; intros Hok.
  - rewrite bool_decide_true, pton4_print; [done|done|].
    destruct Hok as [Hlen _]. destruct b as [|x [|y b]]; [done..|].
    unfold lsdn_ipv4_to_string. simpl. set_solver.
  - destruct Hok as [Hlen Hb].
    rewrite bool_decide_false by by apply no_dot_in_ipv6.
    destruct b as [|x [|y [|z [|w b]]]]; try done.
    assert (Hc : ":" ∈ lsdn_ipv6_to_string (x :: y :: z :: w :: b))
      by (unfold lsdn_ipv6_to_string; simpl; set_solver).
    rewrite bool_decide_true by done.
    rewrite !list.Forall_cons in Hb. destruct (byte_facts_all x ltac:(tauto)) as (_&_&_&Hne&_).
    assert (inet_pton6 (lsdn_ipv6_to_string (x :: y :: z :: w :: b)) =
            Some (x :: y :: z :: w :: b)) as ->; [|done].
    pose proof (pton6_groups (x :: y :: z :: w :: b) []
      (lsdn_ipv6_to_string (x :: y :: z :: w :: b))) as Hp.
    rewrite app_nil_l in Hp. rewrite <-Hp; [|by rewrite !list.Forall_cons|rewrite Hlen; by exists 8%nat|done|done].
    unfold inet_pton6, lsdn_ipv6_to_string.
    unfold groups at 1, sep at 1, hex2 at 1. cbn [app]. by rewrite bool_decide_false.
Qed.

(** C22: parsing the printed form of an IPv4 or IPv6 address gives the address back. *)
Theorem ip_roundtrip (ip : lsdn_ip_t) :
  ip_ok ip → lsdn_parse_ip (lsdn_ip_to_string ip) = (LSDNE_OK, Some ip).
Proof. apply parse_printed_ip. Qed.

Lemma ip_roundtrip_witness :
  lsdn_parse_ip (lsdn_ip_to_string (Ip LSDN_IPv4 [192; 168; 0; 1])) =
    (LSDNE_OK, Some (Ip LSDN_IPv4 [192; 168; 0; 1])).
Proof.
  apply ip_roundtrip. split; [done|]. repeat (constructor; [unfold byte; simpl; lia|]).
  constructor.
Defined.

(** ** Masks *)

(** Bit [i] of an address, counted from the first bit on the wire. *)
Definition mask_bit (l : list Z) (i : nat) : bool :=
  Z.testbit (l !!! (i / 8)%nat) (7 - Z.of_nat (i mod 8)).

Definition prefix_facts (iv : lsdn_ipv) (p : nat) : Prop :=
  match gen_prefix (replicate (ip_len iv) 0) (Z.of_nat p) with
  | Some l =>
      length l = ip_len iv ∧ Forall (λ b, 0 ≤ b ∧ b < 256) l ∧
      Forall (λ i, mask_bit l i = bool_decide (i < p)%nat) (seq 0 (8 * ip_len iv)) ∧
      mask_bytes_ok (take (ip_len iv) l) = true ∧
      foldl (λ prefix b, prefix + byte_ones b) 0 (take (ip_len iv) l) = Z.of_nat p
  | None => False
  end.

Global Instance prefix_facts_dec iv p : Decision (prefix_facts iv p).
Proof. unfold prefix_facts. destruct (gen_prefix _ _); apply _. Defined.

Lemma prefix_facts_all iv p : (p ≤ 8 * ip_len iv)%nat → prefix_facts iv p.
Proof.
  intros Hp. assert (Forall (prefix_facts iv) (seq 0 (8 * ip_len iv + 1))) as HF.
  { destruct iv; apply (bool_decide_unpack (Forall _ _)); vm_compute; exact I. }
  rewrite list.Forall_forall in HF. apply HF, elem_of_seq. lia.
Qed.

(** C23: a valid prefix length gives a mask whose first [prefix] bits are ones and whose other
    bits are zeros; the mask is recognised by [lsdn_ip_mask_is_prefix] and
    [lsdn_ip_prefix_from_mask] gives the prefix length back. No write leaves the address. *)
Theorem mask_from_prefix_spec (iv : lsdn_ipv) (prefix : Z) :
  lsdn_is_prefix_valid iv prefix = true →
  ∃ mask, lsdn_ip_mask_from_prefix iv prefix tt = Ok mask tt ∧ v mask = iv ∧ ip_ok mask ∧
    (∀ i, (i < 8 * ip_len iv)%nat → mask_bit (ip_bytes mask) i = (Z.of_nat i <? prefix)) ∧
    lsdn_ip_mask_is_prefix mask = true ∧
    lsdn_ip_prefix_from_mask mask tt = Ok prefix tt.
Proof.
  intros Hv. assert (0 ≤ prefix ≤ 8 * Z.of_nat (ip_len iv)) as Hr.
  { destruct iv; unfold lsdn_is_prefix_valid, ip_len, LSDN_IPv4_LEN, LSDN_IPv6_LEN in *; lia. }
  pose proof (prefix_facts_all iv (Z.to_nat prefix) ltac:(lia)) as Hf.
  unfold prefix_facts in Hf. rewrite Z2Nat.id in Hf by lia.
  unfold lsdn_ip_mask_from_prefix, mbind, M_bind. rewrite Hv. simpl.
  destruct (gen_prefix _ _) as [l|]; [|done].
  destruct Hf as (Hlen & Hby & Hbit & Hm & Hsum).
  exists (Ip iv l). split; [done|]. split; [done|]. split; [by split|]. split.
  { intros i Hi. rewrite list.Forall_forall in Hbit. rewrite Hbit by (apply elem_of_seq; lia).
    case_bool_decide; destruct (Z.ltb_spec (Z.of_nat i) prefix); lia. }
  unfold lsdn_ip_mask_is_prefix. simpl. split; [done|].
  unfold lsdn_ip_prefix_from_mask, mbind, M_bind, lsdn_ip_mask_is_prefix. simpl.
  rewrite Hm. simpl. by rewrite Hsum.
Qed.

Lemma mask_from_prefix_spec_witness :
  ∃ mask, lsdn_ip_mask_from_prefix LSDN_IPv4 20 tt = Ok mask tt ∧ v mask = LSDN_IPv4 ∧
    ip_ok mask ∧
    (∀ i, (i < 8 * ip_len LSDN_IPv4)%nat →
       mask_bit (ip_bytes mask) i = (Z.of_nat i <? 20)) ∧
    lsdn_ip_mask_is_prefix mask = true ∧ lsdn_ip_prefix_from_mask mask tt = Ok 20 tt.
Proof. apply (mask_from_prefix_spec LSDN_IPv4 20). reflexivity. Defined.

Lemma gen_prefix_nonpos l p : p ≤ 0 → gen_prefix l p = Some l.
Proof. intros Hp. destruct l; simpl; by rewrite (proj2 (Z.ltb_ge 0 p)). Qed.

(** A byte that [partial_byte] accepts is the byte mask of [k] leading ones. *)
Lemma partial_byte_spec b :
  byte b → partial_byte 9 b 1 (255 - 1) false = true →
  ∃ k, 0 ≤ k < 8 ∧ byte_ones b = k ∧ u8 (Z.lnot (Z.shiftl 1 (8 - k) - 1)) = b ∧ (k = 0 → b = 0).
Proof.
  revert b. apply (byte_ind (λ b, partial_byte 9 b 1 (255 - 1) false = true → _)).
  apply (List.Forall_impl (P := λ b, partial_byte 9 b 1 (255 - 1) false = false ∨
    (0 ≤ byte_ones b ∧ byte_ones b < 8 ∧
     u8 (Z.lnot (Z.shiftl 1 (8 - byte_ones b) - 1)) = b ∧ (byte_ones b = 0 → b = 0)))).
  - intros b [->|(? & ? & ? & ?)]; [done|]. intros _. exists (byte_ones b). by split_and!.
  - apply (bool_decide_unpack (Forall _ _)). vm_compute. exact I.
Qed.

Lemma foldl_ones l acc :
  foldl (λ prefix b, prefix + byte_ones b) acc l =
  acc + foldl (λ prefix b, prefix + byte_ones b) 0 l.
Proof.
  revert acc. induction l as [|b l IH]; intros acc; simpl; [lia|].
  rewrite (IH (acc + _)), (IH (0 + byte_ones b)). lia.
Qed.

Lemma ones_zeros l :
  forallb (λ c, c =? 0) l = true →
  l = replicate (length l) 0 ∧ foldl (λ prefix b, prefix + byte_ones b) 0 l = 0.
Proof.
  induction l as [|b l IH]; simpl; [done|].
  intros [->%Z.eqb_eq Hl]%andb_true_iff. destruct (IH Hl) as [He Hs].
  split; [by rewrite <-He|exact Hs].
Qed.

Lemma mask_bytes_gen l :
  Forall byte l → mask_bytes_ok l = true →
  ∃ p, 0 ≤ p ≤ 8 * Z.of_nat (length l) ∧
    foldl (λ prefix b, prefix + byte_ones b) 0 l = p ∧
    gen_prefix (replicate (length l) 0) p = Some l.
Proof.
  induction l as [|b l IH]; intros Hb Hm.
  { exists 0. done. }
  apply list.Forall_cons in Hb as [Hb Hl]. cbn [mask_bytes_ok] in Hm.
  destruct (Z.eqb_spec b 255) as [->|Hne].
  - destruct (IH Hl Hm) as (p & Hp & Hs & Hg). exists (8 + p). split; [simpl length; lia|].
    split; [simpl; rewrite foldl_ones, Hs; done|].
    cbn [length replicate gen_prefix]. rewrite (proj2 (Z.ltb_lt 0 (8 + p))) by lia.
    replace (8 + p - 8) with p by lia. rewrite Hg. simpl.
    destruct (Z.ltb_spec 8 (8 + p)); [done|]. by replace p with 0 by lia.
  - destruct (partial_byte _ _ _ _ _) eqn:Hpb; [|done].
    destruct (partial_byte_spec b Hb Hpb) as (k & Hk & Hone & Hu & Hz).
    apply ones_zeros in Hm as [Hrep Hsum]. exists k. split; [simpl length; lia|].
    split; [simpl; rewrite foldl_ones, Hsum; lia|].
    cbn [length replicate gen_prefix]. destruct (Z.ltb_spec 0 k).
    + rewrite gen_prefix_nonpos, <-Hrep by lia. simpl.
      rewrite (proj2 (Z.ltb_ge 8 k)) by lia. by rewrite Hu.
    + by rewrite Hz, <-Hrep by lia.
Qed.

(** C24: conversely, [lsdn_ip_mask_is_prefix] accepts only the masks that
    [lsdn_ip_mask_from_prefix] builds: an accepted mask is rebuilt from the prefix length that
    [lsdn_ip_prefix_from_mask] computes. *)
Theorem prefix_from_mask_roundtrip (mask : lsdn_ip_t) :
  ip_ok mask → lsdn_ip_mask_is_prefix mask = true →
  ∃ p, lsdn_ip_prefix_from_mask mask tt = Ok p tt ∧
       lsdn_is_prefix_valid (v mask) p = true ∧
       lsdn_ip_mask_from_prefix (v mask) p tt = Ok mask tt.
Proof.
  destruct mask as [iv l]. intros [Hlen Hb] Hm. simpl in *.
  unfold lsdn_ip_prefix_from_mask, lsdn_ip_mask_from_prefix, mbind, M_bind. rewrite Hm. simpl.
  unfold lsdn_ip_mask_is_prefix in Hm. simpl in Hm.
  rewrite take_ge in * by lia. destruct (mask_bytes_gen l Hb Hm) as (p & Hp & -> & Hg).
  assert (lsdn_is_prefix_valid iv p = true) as Hv.
  { rewrite Hlen in Hp.
    destruct iv; unfold lsdn_is_prefix_valid, ip_len, LSDN_IPv4_LEN, LSDN_IPv6_LEN in *; lia. }
  exists p. rewrite Hv. simpl. rewrite <-Hlen, Hg. done.
Qed.

Lemma prefix_from_mask_roundtrip_witness :
  ∃ p, lsdn_ip_prefix_from_mask (Ip LSDN_IPv4 [255; 255; 240; 0]) tt = Ok p tt ∧
       lsdn_is_prefix_valid LSDN_IPv4 p = true ∧
       lsdn_ip_mask_from_prefix LSDN_IPv4 p tt = Ok (Ip LSDN_IPv4 [255; 255; 240; 0]) tt.
Proof.
  apply (prefix_from_mask_roundtrip (Ip LSDN_IPv4 [255; 255; 240; 0])).
  - split; [done|]. repeat (constructor; [unfold byte; simpl; lia|]). constructor.
  - reflexivity.
Defined.

(** ** Equality of addresses *)

Lemma lsdn_ip_eq_spec a b : ip_ok a → ip_ok b → lsdn_ip_eq a b = bool_decide (a = b).
Proof.
  destruct a as [va la], b as [vb lb]. intros [Ha _] [Hb _]. simpl in *.
  unfold lsdn_ip_eq, lsdn_ipv4_eq, lsdn_ipv6_eq. simpl.
  destruct va, vb; simpl in *; rewrite ?take_ge by (simpl; lia);
    try done; apply bool_decide_ext; naive_solver.
Qed.
