(* ===== verification/Heap.v ===== *)
(** * The memory of the program

    The structures of [netmodel/private/lsdn.h], [netmodel/private/net.h],
    [netmodel/private/rules.h], [netmodel/private/nl.h], [netmodel/private/lbridge.h],
    [netmodel/private/sbridge.h] and the heap that holds them. An
    allocated object has a pointer; a structure embedded in it is addressed by the pointer and
    the name of the member. Pointers are never reused, so that a use after [free] is a failed
    lookup. The doubly linked lists are in the list store of [LStore]. *)

From Stdlib Require Import ZArith.
From stdpp Require Import base list gmap strings.
From S2P Require Import Prelude.
From S2P Require Import Float.
From S2P Require Import LStore.
From S2P Require Import Status.
From S2P Require Import IdAlloc.
From S2P Require Import Nettypes.

Notation ptr := positive.

(** ** Addresses *)

(** Names of the members that are linked into lists, or that other structures point to. *)
Inductive field :=
| F_networks_list | F_settings_list | F_phys_list | F_phys_names
| F_net_names | F_setting_names | F_settings_entry | F_setting_users_list
| F_name_entry | F_phys_entry | F_attached_to_list | F_networks_entry
| F_settings_users_entry | F_virt_list | F_attached_list | F_virt_names
| F_attached_entry | F_attached_to_entry | F_connected_virt_list | F_pa_view_list
| F_remote_pa_list | F_virt_entry | F_connected_virt_entry | F_virt_view_list
| F_pa_view_entry | F_remote_pa_entry | F_remote_virt_list | F_virt_view_entry
| F_remote_virt_entry | F_rules_list | F_rules_entry | F_sources_list
| F_filters_list | F_filters_entry | F_rule | F_policing_rule_in
| F_policing_rule_out | F_rules_in | F_rules_out | F_connected_if
| F_committed_if | F_tunnel_if | F_broadcast | F_broadcast_action
| F_bridge_if | F_sbridge_bridge_if | F_bridge_ruleset_main | F_if_list
| F_if_entry | F_route_list | F_route_entry | F_mac_list
| F_mac_entry | F_cl_owner | F_route_cl_dest | F_mac_cl_dest
| F_cleanup_entry_0 | F_cleanup_entry_1 | F_rule_match_br | F_rule_fallback
| F_dummy_if | F_ruleset | F_out_redir_rule | F_in_redir_rule
| F_lbridge | F_lbridge_if | F_lbridge_route | F_sbridge
| F_sbridge_if | F_sbridge_phys_if | F_sbridge_route | F_sbridge_mac
| F_tunnel | F_tunnel_sbridge | F_ruleset_in | F_local_if.

Global Instance field_eq_dec : EqDecision field.
Proof. solve_decision. Defined.

Definition field_code (f : field) : positive :=
  match f with
  | F_networks_list => 1
  | F_settings_list => 2
  | F_phys_list => 3
  | F_phys_names => 4
  | F_net_names => 5
  | F_setting_names => 6
  | F_settings_entry => 7
  | F_setting_users_list => 8
  | F_name_entry => 9
  | F_phys_entry => 10
  | F_attached_to_list => 11
  | F_networks_entry => 12
  | F_settings_users_entry => 13
  | F_virt_list => 14
  | F_attached_list => 15
  | F_virt_names => 16
  | F_attached_entry => 17
  | F_attached_to_entry => 18
  | F_connected_virt_list => 19
  | F_pa_view_list => 20
  | F_remote_pa_list => 21
  | F_virt_entry => 22
  | F_connected_virt_entry => 23
  | F_virt_view_list => 24
  | F_pa_view_entry => 25
  | F_remote_pa_entry => 26
  | F_remote_virt_list => 27
  | F_virt_view_entry => 28
  | F_remote_virt_entry => 29
  | F_rules_list => 30
  | F_rules_entry => 31
  | F_sources_list => 32
  | F_filters_list => 33
  | F_filters_entry => 34
  | F_rule => 35
  | F_policing_rule_in => 36
  | F_policing_rule_out => 37
  | F_rules_in => 38
  | F_rules_out => 39
  | F_connected_if => 40
  | F_committed_if => 41
  | F_tunnel_if => 42
  | F_broadcast => 43
  | F_broadcast_action => 44
  | F_bridge_if => 45
  | F_sbridge_bridge_if => 46
  | F_bridge_ruleset_main => 47
  | F_if_list => 48
  | F_if_entry => 49
  | F_route_list => 50
  | F_route_entry => 51
  | F_mac_list => 52
  | F_mac_entry => 53
  | F_cl_owner => 54
  | F_route_cl_dest => 55
  | F_mac_cl_dest => 56
  | F_cleanup_entry_0 => 57
  | F_cleanup_entry_1 => 58
  | F_rule_match_br => 59
  | F_rule_fallback => 60
  | F_dummy_if => 61
  | F_ruleset => 62
  | F_out_redir_rule => 63
  | F_in_redir_rule => 64
  | F_lbridge => 65
  | F_lbridge_if => 66
  | F_lbridge_route => 67
  | F_sbridge => 68
  | F_sbridge_if => 69
  | F_sbridge_phys_if => 70
  | F_sbridge_route => 71
  | F_sbridge_mac => 72
  | F_tunnel => 73
  | F_tunnel_sbridge => 74
  | F_ruleset_in => 75
  | F_local_if => 76
  end%positive.

Definition field_decode (n : positive) : option field :=
  match n with
  | 1 => Some F_networks_list
  | 2 => Some F_settings_list
  | 3 => Some F_phys_list
  | 4 => Some F_phys_names
  | 5 => Some F_net_names
  | 6 => Some F_setting_names
  | 7 => Some F_settings_entry
  | 8 => Some F_setting_users_list
  | 9 => Some F_name_entry
  | 10 => Some F_phys_entry
  | 11 => Some F_attached_to_list
  | 12 => Some F_networks_entry
  | 13 => Some F_settings_users_entry
  | 14 => Some F_virt_list
  | 15 => Some F_attached_list
  | 16 => Some F_virt_names
  | 17 => Some F_attached_entry
  | 18 => Some F_attached_to_entry
  | 19 => Some F_connected_virt_list
  | 20 => Some F_pa_view_list
  | 21 => Some F_remote_pa_list
  | 22 => Some F_virt_entry
  | 23 => Some F_connected_virt_entry
  | 24 => Some F_virt_view_list
  | 25 => Some F_pa_view_entry
  | 26 => Some F_remote_pa_entry
  | 27 => Some F_remote_virt_list
  | 28 => Some F_virt_view_entry
  | 29 => Some F_remote_virt_entry
  | 30 => Some F_rules_list
  | 31 => Some F_rules_entry
  | 32 => Some F_sources_list
  | 33 => Some F_filters_list
  | 34 => Some F_filters_entry
  | 35 => Some F_rule
  | 36 => Some F_policing_rule_in
  | 37 => Some F_policing_rule_out
  | 38 => Some F_rules_in
  | 39 => Some F_rules_out
  | 40 => Some F_connected_if
  | 41 => Some F_committed_if
  | 42 => Some F_tunnel_if
  | 43 => Some F_broadcast
  | 44 => Some F_broadcast_action
  | 45 => Some F_bridge_if
  | 46 => Some F_sbridge_bridge_if
  | 47 => Some F_bridge_ruleset_main
  | 48 => Some F_if_list
  | 49 => Some F_if_entry
  | 50 => Some F_route_list
  | 51 => Some F_route_entry
  | 52 => Some F_mac_list
  | 53 => Some F_mac_entry
  | 54 => Some F_cl_owner
  | 55 => Some F_route_cl_dest
  | 56 => Some F_mac_cl_dest
  | 57 => Some F_cleanup_entry_0
  | 58 => Some F_cleanup_entry_1
  | 59 => Some F_rule_match_br
  | 60 => Some F_rule_fallback
  | 61 => Some F_dummy_if
  | 62 => Some F_ruleset
  | 63 => Some F_out_redir_rule
  | 64 => Some F_in_redir_rule
  | 65 => Some F_lbridge
  | 66 => Some F_lbridge_if
  | 67 => Some F_lbridge_route
  | 68 => Some F_sbridge
  | 69 => Some F_sbridge_if
  | 70 => Some F_sbridge_phys_if
  | 71 => Some F_sbridge_route
  | 72 => Some F_sbridge_mac
  | 73 => Some F_tunnel
  | 74 => Some F_tunnel_sbridge
  | 75 => Some F_ruleset_in
  | 76 => Some F_local_if
  | _ => None
  end%positive.

Global Program Instance field_countable : Countable field :=
  {| encode := field_code; decode := field_decode |}.
Next Obligation. by intros []. Qed.

Notation addr := (positive * field)%type.

(** ** Enumerations *)

(** [enum lsdn_nettype] *)
Inductive lsdn_nettype := LSDN_NET_VXLAN | LSDN_NET_VLAN | LSDN_NET_DIRECT | LSDN_NET_GENEVE.
Global Instance lsdn_nettype_eq_dec : EqDecision lsdn_nettype.
Proof. solve_decision. Defined.

(** [enum lsdn_switch] *)
Inductive lsdn_switch := LSDN_LEARNING | LSDN_LEARNING_E2E | LSDN_STATIC_E2E.
Global Instance lsdn_switch_eq_dec : EqDecision lsdn_switch.
Proof. solve_decision. Defined.

(** [enum lsdn_direction] *)
Inductive lsdn_direction := LSDN_IN | LSDN_OUT.
Global Instance lsdn_direction_eq_dec : EqDecision lsdn_direction.
Proof. solve_decision. Defined.

(** [enum lsdn_rule_target] *)
Inductive lsdn_rule_target :=
| LSDN_MATCH_NONE | LSDN_MATCH_SRC_MAC | LSDN_MATCH_DST_MAC | LSDN_MATCH_SRC_IPV4
| LSDN_MATCH_DST_IPV4 | LSDN_MATCH_SRC_IPV6 | LSDN_MATCH_DST_IPV6 | LSDN_MATCH_ENC_KEY_ID
| LSDN_MATCH_ENC_KEY_SRC_IPV4 | LSDN_MATCH_ENC_KEY_SRC_IPV6 | LSDN_MATCH_ENC_KEY_DST_IPV4
| LSDN_MATCH_ENC_KEY_DST_IPV6.
Global Instance lsdn_rule_target_eq_dec : EqDecision lsdn_rule_target.
Proof. solve_decision. Defined.

(** The operation tables ([struct lsdn_net_ops]) of the network types. *)
Inductive lsdn_net_ops_tag :=
| lsdn_net_vxlan_mcast_ops | lsdn_net_vxlan_e2e_ops | lsdn_net_vxlan_static_ops
| lsdn_net_vlan_ops | lsdn_net_direct_ops | lsdn_net_geneve_ops | lsdn_net_geneve_e2e_ops.
Global Instance lsdn_net_ops_tag_eq_dec : EqDecision lsdn_net_ops_tag.
Proof. solve_decision. Defined.

(** ** Callbacks *)

(** The out-of-memory callback: the library's own, which aborts, or one of the user. *)
Inductive nomem_cb_t := lsdn_abort_cb | user_nomem_cb (user : Z).

(** The problem callback: the handler of [lsdn_context_free], which aborts, or one that
    returns ([lsdn_problem_stderr_handler], a handler of the user). *)
Inductive problem_cb_t := abort_handler | user_problem_cb (user : Z).

(** [struct lsdn_user_hooks]: whether there is a startup hook. *)
Record user_hooks_t := UserHooks { lsdn_startup_hook : option Z }.

(** What the outside sees of callbacks. *)
Inductive event :=
| EvNomem (user : Z)
| EvProblem (problem : lsdn_problem)
| EvStartupHook (net phys : ptr) (user : Z).

(** ** Rules and filters *)

(** [union lsdn_matchdata]: 16 raw bytes. *)
Notation matchdata := (list Z).

(** [lsdn_qos_rate_t]; bytes and bytes per second. *)
Record lsdn_qos_rate_t := QosRate { avg_rate : float; burst_size : Z; burst_rate : float }.

(** What [tc] does with a packet after a [mirred] action, and where the copy goes. *)
Inductive tc_act := TC_ACT_STOLEN | TC_ACT_PIPE.
Inductive tc_eaction := TCA_EGRESS_REDIR | TCA_INGRESS_REDIR.

(** A tc action inside a filter message. A tunnel key has IPv4 addresses only if both are. *)
Inductive tc_action :=
| TcDrop
| TcContinue
| TcGotoChain (chain : Z)
| TcPolice (avg_rate burst peakrate mtu : Z)
| TcTunnelKey (vni : Z) (ipv6 : bool) (src dst : lsdn_ip_t)
| TcMirred (action : tc_act) (eaction : tc_eaction) (ifindex : Z)
| TcSkbMark (index mark : Z).

(** A callback that adds the metadata of a tunnel to a packet, with the remote attachment it
    is given: [set_vxlan_metadata] of net_vxlan.c and [set_geneve_metadata] of net_geneve.c. *)
Inductive tunnel_fn := set_vxlan_metadata (pa : ptr) | set_geneve_metadata (pa : ptr).

(** The [struct lsdn_action_desc] of a route; its callback may be NULL. *)
Record tunnel_desc := TunnelDesc { t_actions_count : Z; t_fn : option tunnel_fn }.

(** A callback that adds actions to a filter ([lsdn_mkaction_fn]) with its user data:
    [callback_drop] of rules.c, [rates_action_in] and [rates_action_out] of lsdn.c, those of
    sbridge.c and those of lbridge.c. *)
Inductive mkaction :=
| callback_drop
| rates_action_in (virt : ptr)
| rates_action_out (virt : ptr)
| if_br_mkaction (action : ptr)
| br_forward_mkaction (fwdr : ptr)
| mkaction_goto_br_chain (iface : addr)
| mkaction_goto_switch (iface : addr)
| encap_redir_mkaction (route : addr)
| ingress_redir_mkaction (route : addr).

(** A callback of a cleanup list ([lsdn_clist_cb]) with its user data. *)
Inductive clist_cb := if_br_action_free (action : ptr) | br_forward_rule_free (fwdr : ptr).

(** [struct lsdn_action_desc]; only the actions of virt rules have a name. *)
Record lsdn_action_desc := ActionDesc { a_name : option string; actions_count : Z; fn : mkaction }.

(** A match option of a flower filter. *)
Inductive flower_opt :=
| FlEthType (t : Z)
| FlKey (t : lsdn_rule_target) (value mask : matchdata)
| FlEncKeyId (key_id : list Z).

(** A tc filter message under construction ([struct lsdn_filter]). *)
Inductive filter_kind := FilterFlower | FilterFw.
Record lsdn_filter := Filter {
  f_kind : filter_kind;
  f_ifindex : Z; f_handle : Z; f_parent : Z; f_chain : Z; f_prio : Z;
  f_update : bool; f_opts : list flower_opt; f_acts : list (Z * tc_action) }.

(** The kinds of links with their parameters. A vxlan link has its underlying interface in two
    attributes, of which the first is optional; the group is a multicast address, or the
    all-zero IPv6 address. A geneve link with port 0 uses the kernel's default port. *)
Inductive link_kind :=
| LinkDummy
| LinkBridge
| LinkVlan (link vlanid : Z)
| LinkVxlan (link : option Z) (vxlan_link vxlanid port : Z) (learning collect_metadata : bool)
    (group : option lsdn_ip_t)
| LinkGeneve (port : option Z) (collect_metadata : bool)
| LinkVeth (peer : string).

(** Netlink requests. *)
Inductive request :=
| ReqFilterCreate (f : lsdn_filter)
| ReqFilterDelete (ifindex handle parent chain prio : Z)
| ReqQdiscCreate (ingress : bool) (ifindex : Z)
| ReqQdiscDelete (ingress : bool) (ifindex : Z)
| ReqLinkCreate (name : string) (kind : link_kind)
| ReqLinkDelete (ifindex : Z)
| ReqLinkMaster (master slave : Z)
| ReqLinkSet (ifindex : Z) (up : bool)
| ReqFdbAdd (ifindex : Z) (mac : lsdn_mac_t) (ip : lsdn_ip_t)
| ReqFdbRemove (ifindex : Z) (mac : lsdn_mac_t) (ip : lsdn_ip_t)
| ReqAddrSet (ifindex : Z) (ip : lsdn_ip_t).

(** ** The environment *)

(** What the program cannot determine itself: which allocations succeed, the contents of
    uninitialised memory, the interfaces of the system (given all earlier requests and their
    answers), whether a netlink socket can be opened, and whether the kernel acknowledges a
    request. *)
Module Env.
Record env := mk {
  malloc_ok : nat → bool;
  garbage : ptr → list matchdata;
  garbage_word : ptr → Z;
  if_nametoindex : list (request * bool) → string → Z;
  socket_ok : bool;
  kernel_ack : list (request * bool) → request → bool }.
End Env.

(** [struct lsdn_context]. Its list heads and name tables are in the list store; the
    buffers of the problem being reported live only during a report. *)
Module Ctx.
Record lsdn_context := mk {
  name : string;
  nomem_cb : option nomem_cb_t;
  nlsock : bool;
  overwrite : bool;
  problem_cb : option problem_cb_t;
  problem_count : Z;
  inconsistent : bool;
  disable_decommit : bool;
  obj_count : Z;
  namebuf : string }.
Definition set_name (x : string) (r : lsdn_context) : lsdn_context :=
  mk x (nomem_cb r) (nlsock r) (overwrite r) (problem_cb r) (problem_count r) (inconsistent r)
    (disable_decommit r) (obj_count r) (namebuf r).
Definition set_nomem_cb (x : option nomem_cb_t) (r : lsdn_context) : lsdn_context :=
  mk (name r) x (nlsock r) (overwrite r) (problem_cb r) (problem_count r) (inconsistent r)
    (disable_decommit r) (obj_count r) (namebuf r).
Definition set_nlsock (x : bool) (r : lsdn_context) : lsdn_context :=
  mk (name r) (nomem_cb r) x (overwrite r) (problem_cb r) (problem_count r) (inconsistent r)
    (disable_decommit r) (obj_count r) (namebuf r).
Definition set_overwrite (x : bool) (r : lsdn_context) : lsdn_context :=
  mk (name r) (nomem_cb r) (nlsock r) x (problem_cb r) (problem_count r) (inconsistent r)
    (disable_decommit r) (obj_count r) (namebuf r).
Definition set_problem_cb (x : option problem_cb_t) (r : lsdn_context) : lsdn_context :=
  mk (name r) (nomem_cb r) (nlsock r) (overwrite r) x (problem_count r) (inconsistent r)
    (disable_decommit r) (obj_count r) (namebuf r).
Definition set_problem_count (x : Z) (r : lsdn_context) : lsdn_context :=
  mk (name r) (nomem_cb r) (nlsock r) (overwrite r) (problem_cb r) x (inconsistent r)
    (disable_decommit r) (obj_count r) (namebuf r).
Definition set_inconsistent (x : bool) (r : lsdn_context) : lsdn_context :=
  mk (name r) (nomem_cb r) (nlsock r) (overwrite r) (problem_cb r) (problem_count r) x
    (disable_decommit r) (obj_count r) (namebuf r).
Definition set_disable_decommit (x : bool) (r : lsdn_context) : lsdn_context :=
  mk (name r) (nomem_cb r) (nlsock r) (overwrite r) (problem_cb r) (problem_count r)
    (inconsistent r) x (obj_count r) (namebuf r).
Definition set_obj_count (x : Z) (r : lsdn_context) : lsdn_context :=
  mk (name r) (nomem_cb r) (nlsock r) (overwrite r) (problem_cb r) (problem_count r)
    (inconsistent r) (disable_decommit r) x (namebuf r).
Definition set_namebuf (x : string) (r : lsdn_context) : lsdn_context :=
  mk (name r) (nomem_cb r) (nlsock r) (overwrite r) (problem_cb r) (problem_count r)
    (inconsistent r) (disable_decommit r) (obj_count r) x.
End Ctx.

(** [struct lsdn_if]; index 0 is an unresolved interface. *)
Module If.
Record lsdn_if := mk {
  ifindex : Z;
  ifname : option string }.
Definition set_ifindex (x : Z) (r : lsdn_if) : lsdn_if :=
  mk x (ifname r).
Definition set_ifname (x : option string) (r : lsdn_if) : lsdn_if :=
  mk (ifindex r) x.
End If.

(** [struct lsdn_settings]; [port], [mcast_ip] and [refcount] are members of the union; the
    interface, ruleset and [lsdn_sbridge_phys_if] of a shared tunnel are embedded structures. *)
Module Settings.
Record lsdn_settings := mk {
  state : lsdn_state;
  pending_free : bool;
  name : option string;
  ctx : ptr;
  ops : lsdn_net_ops_tag;
  nettype : lsdn_nettype;
  switch_type : lsdn_switch;
  port : Z;
  mcast_ip : option lsdn_ip_t;
  refcount : Z;
  user_hooks : option user_hooks_t }.
Definition set_state (x : lsdn_state) (r : lsdn_settings) : lsdn_settings :=
  mk x (pending_free r) (name r) (ctx r) (ops r) (nettype r) (switch_type r) (port r)
    (mcast_ip r) (refcount r) (user_hooks r).
Definition set_pending_free (x : bool) (r : lsdn_settings) : lsdn_settings :=
  mk (state r) x (name r) (ctx r) (ops r) (nettype r) (switch_type r) (port r) (mcast_ip r)
    (refcount r) (user_hooks r).
Definition set_name (x : option string) (r : lsdn_settings) : lsdn_settings :=
  mk (state r) (pending_free r) x (ctx r) (ops r) (nettype r) (switch_type r) (port r)
    (mcast_ip r) (refcount r) (user_hooks r).
Definition set_ctx (x : ptr) (r : lsdn_settings) : lsdn_settings :=
  mk (state r) (pending_free r) (name r) x (ops r) (nettype r) (switch_type r) (port r)
    (mcast_ip r) (refcount r) (user_hooks r).
Definition set_ops (x : lsdn_net_ops_tag) (r : lsdn_settings) : lsdn_settings :=
  mk (state r) (pending_free r) (name r) (ctx r) x (nettype r) (switch_type r) (port r)
    (mcast_ip r) (refcount r) (user_hooks r).
Definition set_nettype (x : lsdn_nettype) (r : lsdn_settings) : lsdn_settings :=
  mk (state r) (pending_free r) (name r) (ctx r) (ops r) x (switch_type r) (port r) (mcast_ip
    r) (refcount r) (user_hooks r).
Definition set_switch_type (x : lsdn_switch) (r : lsdn_settings) : lsdn_settings :=
  mk (state r) (pending_free r) (name r) (ctx r) (ops r) (nettype r) x (port r) (mcast_ip r)
    (refcount r) (user_hooks r).
Definition set_port (x : Z) (r : lsdn_settings) : lsdn_settings :=
  mk (state r) (pending_free r) (name r) (ctx r) (ops r) (nettype r) (switch_type r) x
    (mcast_ip r) (refcount r) (user_hooks r).
Definition set_mcast_ip (x : option lsdn_ip_t) (r : lsdn_settings) : lsdn_settings :=
  mk (state r) (pending_free r) (name r) (ctx r) (ops r) (nettype r) (switch_type r) (port r)
    x (refcount r) (user_hooks r).
Definition set_refcount (x : Z) (r : lsdn_settings) : lsdn_settings :=
  mk (state r) (pending_free r) (name r) (ctx r) (ops r) (nettype r) (switch_type r) (port r)
    (mcast_ip r) x (user_hooks r).
Definition set_user_hooks (x : option user_hooks_t) (r : lsdn_settings) : lsdn_settings :=
  mk (state r) (pending_free r) (name r) (ctx r) (ops r) (nettype r) (switch_type r) (port r)
    (mcast_ip r) (refcount r) x.
End Settings.

(** [struct lsdn_phys] *)
Module Phys.
Record lsdn_phys := mk {
  state : lsdn_state;
  pending_free : bool;
  name : option string;
  ctx : ptr;
  is_local : bool;
  committed_as_local : bool;
  attr_iface : option string;
  attr_ip : option lsdn_ip_t }.
Definition set_state (x : lsdn_state) (r : lsdn_phys) : lsdn_phys :=
  mk x (pending_free r) (name r) (ctx r) (is_local r) (committed_as_local r) (attr_iface r)
    (attr_ip r).
Definition set_pending_free (x : bool) (r : lsdn_phys) : lsdn_phys :=
  mk (state r) x (name r) (ctx r) (is_local r) (committed_as_local r) (attr_iface r) (attr_ip
    r).
Definition set_name (x : option string) (r : lsdn_phys) : lsdn_phys :=
  mk (state r) (pending_free r) x (ctx r) (is_local r) (committed_as_local r) (attr_iface r)
    (attr_ip r).
Definition set_ctx (x : ptr) (r : lsdn_phys) : lsdn_phys :=
  mk (state r) (pending_free r) (name r) x (is_local r) (committed_as_local r) (attr_iface r)
    (attr_ip r).
Definition set_is_local (x : bool) (r : lsdn_phys) : lsdn_phys :=
  mk (state r) (pending_free r) (name r) (ctx r) x (committed_as_local r) (attr_iface r)
    (attr_ip r).
Definition set_committed_as_local (x : bool) (r : lsdn_phys) : lsdn_phys :=
  mk (state r) (pending_free r) (name r) (ctx r) (is_local r) x (attr_iface r) (attr_ip r).
Definition set_attr_iface (x : option string) (r : lsdn_phys) : lsdn_phys :=
  mk (state r) (pending_free r) (name r) (ctx r) (is_local r) (committed_as_local r) x
    (attr_ip r).
Definition set_attr_ip (x : option lsdn_ip_t) (r : lsdn_phys) : lsdn_phys :=
  mk (state r) (pending_free r) (name r) (ctx r) (is_local r) (committed_as_local r)
    (attr_iface r) x.
End Phys.

(** [struct lsdn_net] *)
Module Net.
Record lsdn_net := mk {
  state : lsdn_state;
  pending_free : bool;
  name : option string;
  ctx : ptr;
  settings : ptr;
  vnet_id : Z }.
Definition set_state (x : lsdn_state) (r : lsdn_net) : lsdn_net :=
  mk x (pending_free r) (name r) (ctx r) (settings r) (vnet_id r).
Definition set_pending_free (x : bool) (r : lsdn_net) : lsdn_net :=
  mk (state r) x (name r) (ctx r) (settings r) (vnet_id r).
Definition set_name (x : option string) (r : lsdn_net) : lsdn_net :=
  mk (state r) (pending_free r) x (ctx r) (settings r) (vnet_id r).
Definition set_ctx (x : ptr) (r : lsdn_net) : lsdn_net :=
  mk (state r) (pending_free r) (name r) x (settings r) (vnet_id r).
Definition set_settings (x : ptr) (r : lsdn_net) : lsdn_net :=
  mk (state r) (pending_free r) (name r) (ctx r) x (vnet_id r).
Definition set_vnet_id (x : Z) (r : lsdn_net) : lsdn_net :=
  mk (state r) (pending_free r) (name r) (ctx r) (settings r) x.
End Net.

(** [struct lsdn_phys_attachment] *)
Module Pa.
Record lsdn_phys_attachment := mk {
  state : lsdn_state;
  pending_free : bool;
  net : ptr;
  phys : ptr;
  explicitly_attached : bool }.
Definition set_state (x : lsdn_state) (r : lsdn_phys_attachment) : lsdn_phys_attachment :=
  mk x (pending_free r) (net r) (phys r) (explicitly_attached r).
Definition set_pending_free (x : bool) (r : lsdn_phys_attachment) : lsdn_phys_attachment :=
  mk (state r) x (net r) (phys r) (explicitly_attached r).
Definition set_net (x : ptr) (r : lsdn_phys_attachment) : lsdn_phys_attachment :=
  mk (state r) (pending_free r) x (phys r) (explicitly_attached r).
Definition set_phys (x : ptr) (r : lsdn_phys_attachment) : lsdn_phys_attachment :=
  mk (state r) (pending_free r) (net r) x (explicitly_attached r).
Definition set_explicitly_attached (x : bool) (r : lsdn_phys_attachment) : lsdn_phys_attachment :=
  mk (state r) (pending_free r) (net r) (phys r) x.
End Pa.

(** [struct lsdn_virt]. The hash tables of rules are association lists in the order in
    which uthash iterates them; the interfaces, rulesets and policing rules embedded in the
    structure are in the maps of their own types. *)
Module Virt.
Record lsdn_virt := mk {
  state : lsdn_state;
  pending_free : bool;
  name : option string;
  network : ptr;
  connected_through : option ptr;
  committed_to : option ptr;
  attr_mac : option lsdn_mac_t;
  attr_rate_in : option lsdn_qos_rate_t;
  attr_rate_out : option lsdn_qos_rate_t;
  commited_policing_in : option ptr;
  commited_policing_out : option ptr;
  ht_in_rules : list (Z * ptr);
  ht_out_rules : list (Z * ptr) }.
Definition set_state (x : lsdn_state) (r : lsdn_virt) : lsdn_virt :=
  mk x (pending_free r) (name r) (network r) (connected_through r) (committed_to r) (attr_mac
    r) (attr_rate_in r) (attr_rate_out r) (commited_policing_in r) (commited_policing_out r)
    (ht_in_rules r) (ht_out_rules r).
Definition set_pending_free (x : bool) (r : lsdn_virt) : lsdn_virt :=
  mk (state r) x (name r) (network r) (connected_through r) (committed_to r) (attr_mac r)
    (attr_rate_in r) (attr_rate_out r) (commited_policing_in r) (commited_policing_out r)
    (ht_in_rules r) (ht_out_rules r).
Definition set_name (x : option string) (r : lsdn_virt) : lsdn_virt :=
  mk (state r) (pending_free r) x (network r) (connected_through r) (committed_to r) (attr_mac
    r) (attr_rate_in r) (attr_rate_out r) (commited_policing_in r) (commited_policing_out r)
    (ht_in_rules r) (ht_out_rules r).
Definition set_network (x : ptr) (r : lsdn_virt) : lsdn_virt :=
  mk (state r) (pending_free r) (name r) x (connected_through r) (committed_to r) (attr_mac r)
    (attr_rate_in r) (attr_rate_out r) (commited_policing_in r) (commited_policing_out r)
    (ht_in_rules r) (ht_out_rules r).
Definition set_connected_through (x : option ptr) (r : lsdn_virt) : lsdn_virt :=
  mk (state r) (pending_free r) (name r) (network r) x (committed_to r) (attr_mac r)
    (attr_rate_in r) (attr_rate_out r) (commited_policing_in r) (commited_policing_out r)
    (ht_in_rules r) (ht_out_rules r).
Definition set_committed_to (x : option ptr) (r : lsdn_virt) : lsdn_virt :=
  mk (state r) (pending_free r) (name r) (network r) (connected_through r) x (attr_mac r)
    (attr_rate_in r) (attr_rate_out r) (commited_policing_in r) (commited_policing_out r)
    (ht_in_rules r) (ht_out_rules r).
Definition set_attr_mac (x : option lsdn_mac_t) (r : lsdn_virt) : lsdn_virt :=
  mk (state r) (pending_free r) (name r) (network r) (connected_through r) (committed_to r) x
    (attr_rate_in r) (attr_rate_out r) (commited_policing_in r) (commited_policing_out r)
    (ht_in_rules r) (ht_out_rules r).
Definition set_attr_rate_in (x : option lsdn_qos_rate_t) (r : lsdn_virt) : lsdn_virt :=
  mk (state r) (pending_free r) (name r) (network r) (connected_through r) (committed_to r)
    (attr_mac r) x (attr_rate_out r) (commited_policing_in r) (commited_policing_out r)
    (ht_in_rules r) (ht_out_rules r).
Definition set_attr_rate_out (x : option lsdn_qos_rate_t) (r : lsdn_virt) : lsdn_virt :=
  mk (state r) (pending_free r) (name r) (network r) (connected_through r) (committed_to r)
    (attr_mac r) (attr_rate_in r) x (commited_policing_in r) (commited_policing_out r)
    (ht_in_rules r) (ht_out_rules r).
Definition set_commited_policing_in (x : option ptr) (r : lsdn_virt) : lsdn_virt :=
  mk (state r) (pending_free r) (name r) (network r) (connected_through r) (committed_to r)
    (attr_mac r) (attr_rate_in r) (attr_rate_out r) x (commited_policing_out r) (ht_in_rules
    r) (ht_out_rules r).
Definition set_commited_policing_out (x : option ptr) (r : lsdn_virt) : lsdn_virt :=
  mk (state r) (pending_free r) (name r) (network r) (connected_through r) (committed_to r)
    (attr_mac r) (attr_rate_in r) (attr_rate_out r) (commited_policing_in r) x (ht_in_rules r)
    (ht_out_rules r).
Definition set_ht_in_rules (x : list (Z * ptr)) (r : lsdn_virt) : lsdn_virt :=
  mk (state r) (pending_free r) (name r) (network r) (connected_through r) (committed_to r)
    (attr_mac r) (attr_rate_in r) (attr_rate_out r) (commited_policing_in r)
    (commited_policing_out r) x (ht_out_rules r).
Definition set_ht_out_rules (x : list (Z * ptr)) (r : lsdn_virt) : lsdn_virt :=
  mk (state r) (pending_free r) (name r) (network r) (connected_through r) (committed_to r)
    (attr_mac r) (attr_rate_in r) (attr_rate_out r) (commited_policing_in r)
    (commited_policing_out r) (ht_in_rules r) x.
End Virt.

(** [struct lsdn_remote_pa] *)
Module Rpa.
Record lsdn_remote_pa := mk {
  local : ptr;
  remote : ptr }.
Definition set_local (x : ptr) (r : lsdn_remote_pa) : lsdn_remote_pa :=
  mk x (remote r).
Definition set_remote (x : ptr) (r : lsdn_remote_pa) : lsdn_remote_pa :=
  mk (local r) x.
End Rpa.

(** [struct lsdn_remote_virt] *)
Module Rvirt.
Record lsdn_remote_virt := mk {
  pa : ptr;
  virt : ptr }.
Definition set_pa (x : ptr) (r : lsdn_remote_virt) : lsdn_remote_virt :=
  mk x (virt r).
Definition set_virt (x : ptr) (r : lsdn_remote_virt) : lsdn_remote_virt :=
  mk (pa r) x.
End Rvirt.

(** [struct vr_prio] *)
Module VrPrio.
Record vr_prio := mk {
  prio_num : Z;
  commited_count : Z;
  commited_prio : option ptr }.
Definition set_prio_num (x : Z) (r : vr_prio) : vr_prio :=
  mk x (commited_count r) (commited_prio r).
Definition set_commited_count (x : Z) (r : vr_prio) : vr_prio :=
  mk (prio_num r) x (commited_prio r).
Definition set_commited_prio (x : option ptr) (r : vr_prio) : vr_prio :=
  mk (prio_num r) (commited_count r) x.
End VrPrio.

(** [struct lsdn_vr]; the embedded [struct lsdn_rule] is at address [(vr, F_rule)]. *)
Module Vr.
Record lsdn_vr := mk {
  pos : Z;
  state : lsdn_state;
  pending_free : bool;
  targets : list lsdn_rule_target;
  masks : list matchdata }.
Definition set_pos (x : Z) (r : lsdn_vr) : lsdn_vr :=
  mk x (state r) (pending_free r) (targets r) (masks r).
Definition set_state (x : lsdn_state) (r : lsdn_vr) : lsdn_vr :=
  mk (pos r) x (pending_free r) (targets r) (masks r).
Definition set_pending_free (x : bool) (r : lsdn_vr) : lsdn_vr :=
  mk (pos r) (state r) x (targets r) (masks r).
Definition set_targets (x : list lsdn_rule_target) (r : lsdn_vr) : lsdn_vr :=
  mk (pos r) (state r) (pending_free r) x (masks r).
Definition set_masks (x : list matchdata) (r : lsdn_vr) : lsdn_vr :=
  mk (pos r) (state r) (pending_free r) (targets r) x.
End Vr.

(** [struct lsdn_rule] *)
Module Rule.
Record lsdn_rule := mk {
  matches : list matchdata;
  action : lsdn_action_desc;
  subprio : Z;
  ruleset : option addr;
  prio : option ptr;
  fl_rule : option ptr }.
Definition set_matches (x : list matchdata) (r : lsdn_rule) : lsdn_rule :=
  mk x (action r) (subprio r) (ruleset r) (prio r) (fl_rule r).
Definition set_action (x : lsdn_action_desc) (r : lsdn_rule) : lsdn_rule :=
  mk (matches r) x (subprio r) (ruleset r) (prio r) (fl_rule r).
Definition set_subprio (x : Z) (r : lsdn_rule) : lsdn_rule :=
  mk (matches r) (action r) x (ruleset r) (prio r) (fl_rule r).
Definition set_ruleset (x : option addr) (r : lsdn_rule) : lsdn_rule :=
  mk (matches r) (action r) (subprio r) x (prio r) (fl_rule r).
Definition set_prio (x : option ptr) (r : lsdn_rule) : lsdn_rule :=
  mk (matches r) (action r) (subprio r) (ruleset r) x (fl_rule r).
Definition set_fl_rule (x : option ptr) (r : lsdn_rule) : lsdn_rule :=
  mk (matches r) (action r) (subprio r) (ruleset r) (prio r) x.
End Rule.

(** [struct lsdn_ruleset] *)
Module Ruleset.
Record lsdn_ruleset := mk {
  iface : addr;
  ctx : ptr;
  parent_handle : Z;
  chain : Z;
  prio_start : Z;
  hash_prios : list (Z * ptr) }.
Definition set_iface (x : addr) (r : lsdn_ruleset) : lsdn_ruleset :=
  mk x (ctx r) (parent_handle r) (chain r) (prio_start r) (hash_prios r).
Definition set_ctx (x : ptr) (r : lsdn_ruleset) : lsdn_ruleset :=
  mk (iface r) x (parent_handle r) (chain r) (prio_start r) (hash_prios r).
Definition set_parent_handle (x : Z) (r : lsdn_ruleset) : lsdn_ruleset :=
  mk (iface r) (ctx r) x (chain r) (prio_start r) (hash_prios r).
Definition set_chain (x : Z) (r : lsdn_ruleset) : lsdn_ruleset :=
  mk (iface r) (ctx r) (parent_handle r) x (prio_start r) (hash_prios r).
Definition set_prio_start (x : Z) (r : lsdn_ruleset) : lsdn_ruleset :=
  mk (iface r) (ctx r) (parent_handle r) (chain r) x (hash_prios r).
Definition set_hash_prios (x : list (Z * ptr)) (r : lsdn_ruleset) : lsdn_ruleset :=
  mk (iface r) (ctx r) (parent_handle r) (chain r) (prio_start r) x.
End Ruleset.

(** [struct lsdn_ruleset_prio] *)
Module RsPrio.
Record lsdn_ruleset_prio := mk {
  prio : Z;
  targets : list lsdn_rule_target;
  masks : list matchdata;
  parent : addr;
  handle_alloc : lsdn_idalloc;
  hash_fl_rules : list (list matchdata * ptr) }.
Definition set_prio (x : Z) (r : lsdn_ruleset_prio) : lsdn_ruleset_prio :=
  mk x (targets r) (masks r) (parent r) (handle_alloc r) (hash_fl_rules r).
Definition set_targets (x : list lsdn_rule_target) (r : lsdn_ruleset_prio) : lsdn_ruleset_prio :=
  mk (prio r) x (masks r) (parent r) (handle_alloc r) (hash_fl_rules r).
Definition set_masks (x : list matchdata) (r : lsdn_ruleset_prio) : lsdn_ruleset_prio :=
  mk (prio r) (targets r) x (parent r) (handle_alloc r) (hash_fl_rules r).
Definition set_parent (x : addr) (r : lsdn_ruleset_prio) : lsdn_ruleset_prio :=
  mk (prio r) (targets r) (masks r) x (handle_alloc r) (hash_fl_rules r).
Definition set_handle_alloc (x : lsdn_idalloc) (r : lsdn_ruleset_prio) : lsdn_ruleset_prio :=
  mk (prio r) (targets r) (masks r) (parent r) x (hash_fl_rules r).
Definition set_hash_fl_rules (x : list (list matchdata * ptr)) (r : lsdn_ruleset_prio) : lsdn_ruleset_prio :=
  mk (prio r) (targets r) (masks r) (parent r) (handle_alloc r) x.
End RsPrio.

(** [struct lsdn_flower_rule] *)
Module Flower.
Record lsdn_flower_rule := mk {
  matches : list matchdata;
  fl_handle : Z }.
Definition set_matches (x : list matchdata) (r : lsdn_flower_rule) : lsdn_flower_rule :=
  mk x (fl_handle r).
Definition set_fl_handle (x : Z) (r : lsdn_flower_rule) : lsdn_flower_rule :=
  mk (matches r) x.
End Flower.

(** [struct lsdn_broadcast] *)
Module Broadcast.
Record lsdn_broadcast := mk {
  ctx : ptr;
  iface : addr;
  chain : Z;
  free_prio : Z }.
Definition set_ctx (x : ptr) (r : lsdn_broadcast) : lsdn_broadcast :=
  mk x (iface r) (chain r) (free_prio r).
Definition set_iface (x : addr) (r : lsdn_broadcast) : lsdn_broadcast :=
  mk (ctx r) x (chain r) (free_prio r).
Definition set_chain (x : Z) (r : lsdn_broadcast) : lsdn_broadcast :=
  mk (ctx r) (iface r) x (free_prio r).
Definition set_free_prio (x : Z) (r : lsdn_broadcast) : lsdn_broadcast :=
  mk (ctx r) (iface r) (chain r) x.
End Broadcast.

(** [struct lsdn_broadcast_filter] *)
Module BFilter.
Record lsdn_broadcast_filter := mk {
  broadcast : addr;
  prio : Z;
  free_actions : Z;
  actions : list (option addr) }.
Definition set_broadcast (x : addr) (r : lsdn_broadcast_filter) : lsdn_broadcast_filter :=
  mk x (prio r) (free_actions r) (actions r).
Definition set_prio (x : Z) (r : lsdn_broadcast_filter) : lsdn_broadcast_filter :=
  mk (broadcast r) x (free_actions r) (actions r).
Definition set_free_actions (x : Z) (r : lsdn_broadcast_filter) : lsdn_broadcast_filter :=
  mk (broadcast r) (prio r) x (actions r).
Definition set_actions (x : list (option addr)) (r : lsdn_broadcast_filter) : lsdn_broadcast_filter :=
  mk (broadcast r) (prio r) (free_actions r) x.
End BFilter.

(** [struct lsdn_broadcast_action] *)
Module BAction.
Record lsdn_broadcast_action := mk {
  filter : ptr;
  filter_entry_index : Z;
  action : lsdn_action_desc }.
Definition set_filter (x : ptr) (r : lsdn_broadcast_action) : lsdn_broadcast_action :=
  mk x (filter_entry_index r) (action r).
Definition set_filter_entry_index (x : Z) (r : lsdn_broadcast_action) : lsdn_broadcast_action :=
  mk (filter r) x (action r).
Definition set_action (x : lsdn_action_desc) (r : lsdn_broadcast_action) : lsdn_broadcast_action :=
  mk (filter r) (filter_entry_index r) x.
End BAction.

(** [struct if_br_action] of sbridge.c; its broadcast action is at address
    [(p, F_broadcast_action)], the nodes of its cleanup entry at [F_cleanup_entry_0] and
    [F_cleanup_entry_1]. *)
Module BrAction.
Record if_br_action := mk {
  clist : clist_cb;
  route : addr }.
Definition set_clist (x : clist_cb) (r : if_br_action) : if_br_action :=
  mk x (route r).
Definition set_route (x : addr) (r : if_br_action) : if_br_action :=
  mk (clist r) x.
End BrAction.

(** [struct br_forward_rule] of sbridge.c; its rule is at address [(p, F_rule)]. *)
Module FwdRule.
Record br_forward_rule := mk {
  clist : clist_cb;
  mac : addr }.
Definition set_clist (x : clist_cb) (r : br_forward_rule) : br_forward_rule :=
  mk x (mac r).
Definition set_mac (x : addr) (r : br_forward_rule) : br_forward_rule :=
  mk (clist r) x.
End FwdRule.

(** [struct lsdn_lbridge]; the bridge interface is at [F_bridge_if]. *)
Module Lbridge.
Record lsdn_lbridge := mk {
  ctx : ptr }.
Definition set_ctx (x : ptr) (r : lsdn_lbridge) : lsdn_lbridge :=
  mk x.
End Lbridge.

(** [struct lsdn_lbridge_if] *)
Module LbridgeIf.
Record lsdn_lbridge_if := mk {
  br : addr;
  iface : addr }.
Definition set_br (x : addr) (r : lsdn_lbridge_if) : lsdn_lbridge_if :=
  mk x (iface r).
Definition set_iface (x : addr) (r : lsdn_lbridge_if) : lsdn_lbridge_if :=
  mk (br r) x.
End LbridgeIf.

(** [struct lsdn_lbridge_route]; its interface, ruleset, rules and bridge port are the embedded
    structures [F_dummy_if], [F_ruleset], [F_out_redir_rule], [F_in_redir_rule] and
    [F_lbridge_if]. *)
Module LbridgeRoute.
Record lsdn_lbridge_route := mk {
  tunnel_action : tunnel_desc;
  phys_if : addr;
  vid_match : lsdn_rule_target;
  vid_matchdata : matchdata;
  source_match : lsdn_rule_target;
  source_matchdata : matchdata;
  out_redir : option ptr }.
Definition set_tunnel_action (x : tunnel_desc) (r : lsdn_lbridge_route) : lsdn_lbridge_route :=
  mk x (phys_if r) (vid_match r) (vid_matchdata r) (source_match r) (source_matchdata r)
    (out_redir r).
Definition set_phys_if (x : addr) (r : lsdn_lbridge_route) : lsdn_lbridge_route :=
  mk (tunnel_action r) x (vid_match r) (vid_matchdata r) (source_match r) (source_matchdata r)
    (out_redir r).
Definition set_vid_match (x : lsdn_rule_target) (r : lsdn_lbridge_route) : lsdn_lbridge_route :=
  mk (tunnel_action r) (phys_if r) x (vid_matchdata r) (source_match r) (source_matchdata r)
    (out_redir r).
Definition set_vid_matchdata (x : matchdata) (r : lsdn_lbridge_route) : lsdn_lbridge_route :=
  mk (tunnel_action r) (phys_if r) (vid_match r) x (source_match r) (source_matchdata r)
    (out_redir r).
Definition set_source_match (x : lsdn_rule_target) (r : lsdn_lbridge_route) : lsdn_lbridge_route :=
  mk (tunnel_action r) (phys_if r) (vid_match r) (vid_matchdata r) x (source_matchdata r)
    (out_redir r).
Definition set_source_matchdata (x : matchdata) (r : lsdn_lbridge_route) : lsdn_lbridge_route :=
  mk (tunnel_action r) (phys_if r) (vid_match r) (vid_matchdata r) (source_match r) x
    (out_redir r).
Definition set_out_redir (x : option ptr) (r : lsdn_lbridge_route) : lsdn_lbridge_route :=
  mk (tunnel_action r) (phys_if r) (vid_match r) (vid_matchdata r) (source_match r)
    (source_matchdata r) x.
End LbridgeRoute.

(** [struct lsdn_sbridge]; the list of interfaces is at [F_if_list], the bridge interface at
    [F_sbridge_bridge_if], the ruleset at [F_bridge_ruleset_main]. *)
Module Sbridge.
Record lsdn_sbridge := mk {
  ctx : ptr;
  bridge_ruleset : option ptr }.
Definition set_ctx (x : ptr) (r : lsdn_sbridge) : lsdn_sbridge :=
  mk x (bridge_ruleset r).
Definition set_bridge_ruleset (x : option ptr) (r : lsdn_sbridge) : lsdn_sbridge :=
  mk (ctx r) x.
End Sbridge.

(** [struct lsdn_sbridge_if]; [bridge] is set when the interface is added to a bridge. *)
Module SbridgeIf.
Record lsdn_sbridge_if := mk {
  phys_if : addr;
  additional_match : lsdn_rule_target;
  additional_matchdata : matchdata;
  bridge : option addr }.
Definition set_phys_if (x : addr) (r : lsdn_sbridge_if) : lsdn_sbridge_if :=
  mk x (additional_match r) (additional_matchdata r) (bridge r).
Definition set_additional_match (x : lsdn_rule_target) (r : lsdn_sbridge_if) : lsdn_sbridge_if :=
  mk (phys_if r) x (additional_matchdata r) (bridge r).
Definition set_additional_matchdata (x : matchdata) (r : lsdn_sbridge_if) : lsdn_sbridge_if :=
  mk (phys_if r) (additional_match r) x (bridge r).
Definition set_bridge (x : option addr) (r : lsdn_sbridge_if) : lsdn_sbridge_if :=
  mk (phys_if r) (additional_match r) (additional_matchdata r) x.
End SbridgeIf.

(** [struct lsdn_sbridge_phys_if] *)
Module PhysIf.
Record lsdn_sbridge_phys_if := mk {
  iface : addr;
  br_chain_ids : lsdn_idalloc;
  rules_match_mac : option ptr;
  rules_fallback : option ptr;
  rules_source : option ptr }.
Definition set_iface (x : addr) (r : lsdn_sbridge_phys_if) : lsdn_sbridge_phys_if :=
  mk x (br_chain_ids r) (rules_match_mac r) (rules_fallback r) (rules_source r).
Definition set_br_chain_ids (x : lsdn_idalloc) (r : lsdn_sbridge_phys_if) : lsdn_sbridge_phys_if :=
  mk (iface r) x (rules_match_mac r) (rules_fallback r) (rules_source r).
Definition set_rules_match_mac (x : option ptr) (r : lsdn_sbridge_phys_if) : lsdn_sbridge_phys_if :=
  mk (iface r) (br_chain_ids r) x (rules_fallback r) (rules_source r).
Definition set_rules_fallback (x : option ptr) (r : lsdn_sbridge_phys_if) : lsdn_sbridge_phys_if :=
  mk (iface r) (br_chain_ids r) (rules_match_mac r) x (rules_source r).
Definition set_rules_source (x : option ptr) (r : lsdn_sbridge_phys_if) : lsdn_sbridge_phys_if :=
  mk (iface r) (br_chain_ids r) (rules_match_mac r) (rules_fallback r) x.
End PhysIf.

(** [struct lsdn_sbridge_route]; [iface] is set when the route is added to an interface. *)
Module SbridgeRoute.
Record lsdn_sbridge_route := mk {
  tunnel_action : tunnel_desc;
  iface : option addr }.
Definition set_tunnel_action (x : tunnel_desc) (r : lsdn_sbridge_route) : lsdn_sbridge_route :=
  mk x (iface r).
Definition set_iface (x : option addr) (r : lsdn_sbridge_route) : lsdn_sbridge_route :=
  mk (tunnel_action r) x.
End SbridgeRoute.

(** [struct lsdn_sbridge_mac] *)
Module SbridgeMac.
Record lsdn_sbridge_mac := mk {
  route : addr;
  mac : lsdn_mac_t }.
Definition set_route (x : addr) (r : lsdn_sbridge_mac) : lsdn_sbridge_mac :=
  mk x (mac r).
Definition set_mac (x : lsdn_mac_t) (r : lsdn_sbridge_mac) : lsdn_sbridge_mac :=
  mk (route r) x.
End SbridgeMac.

(** [struct lsdn_clist]; the list of entries is at the same address. *)
Module Clist.
Record lsdn_clist := mk {
  clist_index : nat }.
Definition set_clist_index (x : nat) (r : lsdn_clist) : lsdn_clist :=
  mk x.
End Clist.

(** ** The memory *)

(** An allocated object. *)
Inductive obj :=
| OCtx (x : Ctx.lsdn_context)
| OSettings (x : Settings.lsdn_settings)
| OPhys (x : Phys.lsdn_phys)
| ONet (x : Net.lsdn_net)
| OPa (x : Pa.lsdn_phys_attachment)
| OVirt (x : Virt.lsdn_virt)
| ORpa (x : Rpa.lsdn_remote_pa)
| ORvirt (x : Rvirt.lsdn_remote_virt)
| OVrPrio (x : VrPrio.vr_prio)
| OVr (x : Vr.lsdn_vr)
| ORsPrio (x : RsPrio.lsdn_ruleset_prio)
| OFlower (x : Flower.lsdn_flower_rule)
| OBFilter (x : BFilter.lsdn_broadcast_filter)
| OBrAction (x : BrAction.if_br_action)
| OFwdRule (x : FwdRule.br_forward_rule).

(** A structure of a bridge embedded in an object. *)
Inductive nstruct :=
| NLbridge (x : Lbridge.lsdn_lbridge)
| NLbridgeIf (x : LbridgeIf.lsdn_lbridge_if)
| NLbridgeRoute (x : LbridgeRoute.lsdn_lbridge_route)
| NSbridge (x : Sbridge.lsdn_sbridge)
| NSbridgeIf (x : SbridgeIf.lsdn_sbridge_if)
| NPhysIf (x : PhysIf.lsdn_sbridge_phys_if)
| NSbridgeRoute (x : SbridgeRoute.lsdn_sbridge_route)
| NSbridgeMac (x : SbridgeMac.lsdn_sbridge_mac)
| NClist (x : Clist.lsdn_clist).

(** The maps of embedded structures are indexed by the address of the member. *)
Module H.
Record heap := mk {
  env : Env.env;
  next_ptr : ptr;
  allocs : nat;
  events : list event;
  trace : list (request * bool);
  lists : gmap addr (list addr);
  objs : gmap ptr obj;
  ifs : gmap addr If.lsdn_if;
  rules : gmap addr Rule.lsdn_rule;
  rulesets : gmap addr Ruleset.lsdn_ruleset;
  broadcasts : gmap addr Broadcast.lsdn_broadcast;
  bactions : gmap addr BAction.lsdn_broadcast_action;
  structs : gmap addr nstruct }.
Definition set_env (x : Env.env) (r : heap) : heap :=
  mk x (next_ptr r) (allocs r) (events r) (trace r) (lists r) (objs r) (ifs r) (rules r)
    (rulesets r) (broadcasts r) (bactions r) (structs r).
Definition set_next_ptr (x : ptr) (r : heap) : heap :=
  mk (env r) x (allocs r) (events r) (trace r) (lists r) (objs r) (ifs r) (rules r) (rulesets
    r) (broadcasts r) (bactions r) (structs r).
Definition set_allocs (x : nat) (r : heap) : heap :=
  mk (env r) (next_ptr r) x (events r) (trace r) (lists r) (objs r) (ifs r) (rules r)
    (rulesets r) (broadcasts r) (bactions r) (structs r).
Definition set_events (x : list event) (r : heap) : heap :=
  mk (env r) (next_ptr r) (allocs r) x (trace r) (lists r) (objs r) (ifs r) (rules r)
    (rulesets r) (broadcasts r) (bactions r) (structs r).
Definition set_trace (x : list (request * bool)) (r : heap) : heap :=
  mk (env r) (next_ptr r) (allocs r) (events r) x (lists r) (objs r) (ifs r) (rules r)
    (rulesets r) (broadcasts r) (bactions r) (structs r).
Definition set_lists (x : gmap addr (list addr)) (r : heap) : heap :=
  mk (env r) (next_ptr r) (allocs r) (events r) (trace r) x (objs r) (ifs r) (rules r)
    (rulesets r) (broadcasts r) (bactions r) (structs r).
Definition set_objs (x : gmap ptr obj) (r : heap) : heap :=
  mk (env r) (next_ptr r) (allocs r) (events r) (trace r) (lists r) x (ifs r) (rules r)
    (rulesets r) (broadcasts r) (bactions r) (structs r).
Definition set_ifs (x : gmap addr If.lsdn_if) (r : heap) : heap :=
  mk (env r) (next_ptr r) (allocs r) (events r) (trace r) (lists r) (objs r) x (rules r)
    (rulesets r) (broadcasts r) (bactions r) (structs r).
Definition set_rules (x : gmap addr Rule.lsdn_rule) (r : heap) : heap :=
  mk (env r) (next_ptr r) (allocs r) (events r) (trace r) (lists r) (objs r) (ifs r) x
    (rulesets r) (broadcasts r) (bactions r) (structs r).
Definition set_rulesets (x : gmap addr Ruleset.lsdn_ruleset) (r : heap) : heap :=
  mk (env r) (next_ptr r) (allocs r) (events r) (trace r) (lists r) (objs r) (ifs r) (rules r)
    x (broadcasts r) (bactions r) (structs r).
Definition set_broadcasts (x : gmap addr Broadcast.lsdn_broadcast) (r : heap) : heap :=
  mk (env r) (next_ptr r) (allocs r) (events r) (trace r) (lists r) (objs r) (ifs r) (rules r)
    (rulesets r) x (bactions r) (structs r).
Definition set_bactions (x : gmap addr BAction.lsdn_broadcast_action) (r : heap) : heap :=
  mk (env r) (next_ptr r) (allocs r) (events r) (trace r) (lists r) (objs r) (ifs r) (rules r)
    (rulesets r) (broadcasts r) x (structs r).
Definition set_structs (x : gmap addr nstruct) (r : heap) : heap :=
  mk (env r) (next_ptr r) (allocs r) (events r) (trace r) (lists r) (objs r) (ifs r) (rules r)
    (rulesets r) (broadcasts r) (bactions r) x.
End H.
Notation heap := H.heap.

(** An object that was freed, or is of another type, is not there. *)
Definition get_obj (p : ptr) : M heap obj := s ← get; live (H.objs s !! p).
Definition put_obj (p : ptr) (o : obj) : M heap unit :=
  modify (λ s, H.set_objs (<[p := o]> (H.objs s)) s).
(** The memory of an object is given back; the list nodes in it go with it. *)
Definition free_obj (p : ptr) : M heap unit :=
  _ ← get_obj p;
  modify (λ s, H.set_lists (filter (λ kv : addr * list addr, kv.1.1 ≠ p) (H.lists s))
                 (H.set_objs (delete p (H.objs s)) s)).

(** [get_] reads an object, [upd_] overwrites members of it. *)
Definition as_ctx (o : obj) : option Ctx.lsdn_context :=
  match o with OCtx x => Some x | _ => None end.
Definition get_ctx (p : ptr) : M heap Ctx.lsdn_context :=
  o ← get_obj p; live (as_ctx o).
Definition upd_ctx (p : ptr) (f : Ctx.lsdn_context → Ctx.lsdn_context) : M heap unit :=
  x ← get_ctx p; put_obj p (OCtx (f x)).
Definition as_settings (o : obj) : option Settings.lsdn_settings :=
  match o with OSettings x => Some x | _ => None end.
Definition get_settings (p : ptr) : M heap Settings.lsdn_settings :=
  o ← get_obj p; live (as_settings o).
Definition upd_settings (p : ptr) (f : Settings.lsdn_settings → Settings.lsdn_settings) : M heap unit :=
  x ← get_settings p; put_obj p (OSettings (f x)).
Definition as_phys (o : obj) : option Phys.lsdn_phys :=
  match o with OPhys x => Some x | _ => None end.
Definition get_phys (p : ptr) : M heap Phys.lsdn_phys :=
  o ← get_obj p; live (as_phys o).
Definition upd_phys (p : ptr) (f : Phys.lsdn_phys → Phys.lsdn_phys) : M heap unit :=
  x ← get_phys p; put_obj p (OPhys (f x)).
Definition as_net (o : obj) : option Net.lsdn_net :=
  match o with ONet x => Some x | _ => None end.
Definition get_net (p : ptr) : M heap Net.lsdn_net :=
  o ← get_obj p; live (as_net o).
Definition upd_net (p : ptr) (f : Net.lsdn_net → Net.lsdn_net) : M heap unit :=
  x ← get_net p; put_obj p (ONet (f x)).
Definition as_pa (o : obj) : option Pa.lsdn_phys_attachment :=
  match o with OPa x => Some x | _ => None end.
Definition get_pa (p : ptr) : M heap Pa.lsdn_phys_attachment :=
  o ← get_obj p; live (as_pa o).
Definition upd_pa (p : ptr) (f : Pa.lsdn_phys_attachment → Pa.lsdn_phys_attachment) : M heap unit :=
  x ← get_pa p; put_obj p (OPa (f x)).
Definition as_virt (o : obj) : option Virt.lsdn_virt :=
  match o with OVirt x => Some x | _ => None end.
Definition get_virt (p : ptr) : M heap Virt.lsdn_virt :=
  o ← get_obj p; live (as_virt o).
Definition upd_virt (p : ptr) (f : Virt.lsdn_virt → Virt.lsdn_virt) : M heap unit :=
  x ← get_virt p; put_obj p (OVirt (f x)).
Definition as_rpa (o : obj) : option Rpa.lsdn_remote_pa :=
  match o with ORpa x => Some x | _ => None end.
Definition get_rpa (p : ptr) : M heap Rpa.lsdn_remote_pa :=
  o ← get_obj p; live (as_rpa o).
Definition upd_rpa (p : ptr) (f : Rpa.lsdn_remote_pa → Rpa.lsdn_remote_pa) : M heap unit :=
  x ← get_rpa p; put_obj p (ORpa (f x)).
Definition as_rvirt (o : obj) : option Rvirt.lsdn_remote_virt :=
  match o with ORvirt x => Some x | _ => None end.
Definition get_rvirt (p : ptr) : M heap Rvirt.lsdn_remote_virt :=
  o ← get_obj p; live (as_rvirt o).
Definition upd_rvirt (p : ptr) (f : Rvirt.lsdn_remote_virt → Rvirt.lsdn_remote_virt) : M heap unit :=
  x ← get_rvirt p; put_obj p (ORvirt (f x)).
Definition as_vrprio (o : obj) : option VrPrio.vr_prio :=
  match o with OVrPrio x => Some x | _ => None end.
Definition get_vrprio (p : ptr) : M heap VrPrio.vr_prio :=
  o ← get_obj p; live (as_vrprio o).
Definition upd_vrprio (p : ptr) (f : VrPrio.vr_prio → VrPrio.vr_prio) : M heap unit :=
  x ← get_vrprio p; put_obj p (OVrPrio (f x)).
Definition as_vr (o : obj) : option Vr.lsdn_vr :=
  match o with OVr x => Some x | _ => None end.
Definition get_vr (p : ptr) : M heap Vr.lsdn_vr :=
  o ← get_obj p; live (as_vr o).
Definition upd_vr (p : ptr) (f : Vr.lsdn_vr → Vr.lsdn_vr) : M heap unit :=
  x ← get_vr p; put_obj p (OVr (f x)).
Definition as_rsprio (o : obj) : option RsPrio.lsdn_ruleset_prio :=
  match o with ORsPrio x => Some x | _ => None end.
Definition get_rsprio (p : ptr) : M heap RsPrio.lsdn_ruleset_prio :=
  o ← get_obj p; live (as_rsprio o).
Definition upd_rsprio (p : ptr) (f : RsPrio.lsdn_ruleset_prio → RsPrio.lsdn_ruleset_prio) : M heap unit :=
  x ← get_rsprio p; put_obj p (ORsPrio (f x)).
Definition as_flower (o : obj) : option Flower.lsdn_flower_rule :=
  match o with OFlower x => Some x | _ => None end.
Definition get_flower (p : ptr) : M heap Flower.lsdn_flower_rule :=
  o ← get_obj p; live (as_flower o).
Definition upd_flower (p : ptr) (f : Flower.lsdn_flower_rule → Flower.lsdn_flower_rule) : M heap unit :=
  x ← get_flower p; put_obj p (OFlower (f x)).
Definition as_bfilter (o : obj) : option BFilter.lsdn_broadcast_filter :=
  match o with OBFilter x => Some x | _ => None end.
Definition get_bfilter (p : ptr) : M heap BFilter.lsdn_broadcast_filter :=
  o ← get_obj p; live (as_bfilter o).
Definition upd_bfilter (p : ptr) (f : BFilter.lsdn_broadcast_filter → BFilter.lsdn_broadcast_filter) : M heap unit :=
  x ← get_bfilter p; put_obj p (OBFilter (f x)).
Definition as_br_action (o : obj) : option BrAction.if_br_action :=
  match o with OBrAction x => Some x | _ => None end.
Definition get_br_action (p : ptr) : M heap BrAction.if_br_action :=
  o ← get_obj p; live (as_br_action o).
Definition upd_br_action (p : ptr) (f : BrAction.if_br_action → BrAction.if_br_action) : M heap unit :=
  x ← get_br_action p; put_obj p (OBrAction (f x)).
Definition as_fwd_rule (o : obj) : option FwdRule.br_forward_rule :=
  match o with OFwdRule x => Some x | _ => None end.
Definition get_fwd_rule (p : ptr) : M heap FwdRule.br_forward_rule :=
  o ← get_obj p; live (as_fwd_rule o).
Definition upd_fwd_rule (p : ptr) (f : FwdRule.br_forward_rule → FwdRule.br_forward_rule) : M heap unit :=
  x ← get_fwd_rule p; put_obj p (OFwdRule (f x)).

(** Embedded structures: [new_] initialises one, [del_] gives it up with its container. *)
Definition get_if (p : addr) : M heap If.lsdn_if := s ← get; live (H.ifs s !! p).
Definition new_if (p : addr) (x : If.lsdn_if) : M heap unit :=
  modify (λ s, H.set_ifs (<[p := x]> (H.ifs s)) s).
Definition upd_if (p : addr) (f : If.lsdn_if → If.lsdn_if) : M heap unit :=
  x ← get_if p; new_if p (f x).
Definition del_if (p : addr) : M heap unit :=
  modify (λ s, H.set_ifs (delete p (H.ifs s)) s).
Definition get_rule (p : addr) : M heap Rule.lsdn_rule := s ← get; live (H.rules s !! p).
Definition new_rule (p : addr) (x : Rule.lsdn_rule) : M heap unit :=
  modify (λ s, H.set_rules (<[p := x]> (H.rules s)) s).
Definition upd_rule (p : addr) (f : Rule.lsdn_rule → Rule.lsdn_rule) : M heap unit :=
  x ← get_rule p; new_rule p (f x).
Definition del_rule (p : addr) : M heap unit :=
  modify (λ s, H.set_rules (delete p (H.rules s)) s).
Definition get_ruleset (p : addr) : M heap Ruleset.lsdn_ruleset := s ← get; live (H.rulesets s !! p).
Definition new_ruleset (p : addr) (x : Ruleset.lsdn_ruleset) : M heap unit :=
  modify (λ s, H.set_rulesets (<[p := x]> (H.rulesets s)) s).
Definition upd_ruleset (p : addr) (f : Ruleset.lsdn_ruleset → Ruleset.lsdn_ruleset) : M heap unit :=
  x ← get_ruleset p; new_ruleset p (f x).
Definition del_ruleset (p : addr) : M heap unit :=
  modify (λ s, H.set_rulesets (delete p (H.rulesets s)) s).
Definition get_broadcast (p : addr) : M heap Broadcast.lsdn_broadcast := s ← get; live (H.broadcasts s !! p).
Definition new_broadcast (p : addr) (x : Broadcast.lsdn_broadcast) : M heap unit :=
  modify (λ s, H.set_broadcasts (<[p := x]> (H.broadcasts s)) s).
Definition upd_broadcast (p : addr) (f : Broadcast.lsdn_broadcast → Broadcast.lsdn_broadcast) : M heap unit :=
  x ← get_broadcast p; new_broadcast p (f x).
Definition del_broadcast (p : addr) : M heap unit :=
  modify (λ s, H.set_broadcasts (delete p (H.broadcasts s)) s).
Definition get_baction (p : addr) : M heap BAction.lsdn_broadcast_action := s ← get; live (H.bactions s !! p).
Definition new_baction (p : addr) (x : BAction.lsdn_broadcast_action) : M heap unit :=
  modify (λ s, H.set_bactions (<[p := x]> (H.bactions s)) s).
Definition upd_baction (p : addr) (f : BAction.lsdn_broadcast_action → BAction.lsdn_broadcast_action) : M heap unit :=
  x ← get_baction p; new_baction p (f x).
Definition del_baction (p : addr) : M heap unit :=
  modify (λ s, H.set_bactions (delete p (H.bactions s)) s).

(** The structures of the bridges are embedded in these objects; an access needs the object. *)
Definition container (o : obj) : option unit :=
  match o with
  | OSettings _ | OPa _ | OVirt _ | ORpa _ | ORvirt _ => Some tt
  | _ => None
  end.
Definition get_container (p : ptr) : M heap unit := o ← get_obj p; live (container o).
Definition get_struct (p : addr) : M heap nstruct :=
  _ ← get_container p.1; s ← get; live (H.structs s !! p).
Definition put_struct (p : addr) (x : nstruct) : M heap unit :=
  _ ← get_container p.1; modify (λ s, H.set_structs (<[p := x]> (H.structs s)) s).
Definition as_lbridge (o : nstruct) : option Lbridge.lsdn_lbridge :=
  match o with NLbridge x => Some x | _ => None end.
Definition get_lbridge (p : addr) : M heap Lbridge.lsdn_lbridge :=
  o ← get_struct p; live (as_lbridge o).
Definition upd_lbridge (p : addr) (f : Lbridge.lsdn_lbridge → Lbridge.lsdn_lbridge) : M heap unit :=
  x ← get_lbridge p; put_struct p (NLbridge (f x)).
Definition as_lbridge_if (o : nstruct) : option LbridgeIf.lsdn_lbridge_if :=
  match o with NLbridgeIf x => Some x | _ => None end.
Definition get_lbridge_if (p : addr) : M heap LbridgeIf.lsdn_lbridge_if :=
  o ← get_struct p; live (as_lbridge_if o).
Definition upd_lbridge_if (p : addr) (f : LbridgeIf.lsdn_lbridge_if → LbridgeIf.lsdn_lbridge_if) : M heap unit :=
  x ← get_lbridge_if p; put_struct p (NLbridgeIf (f x)).
Definition as_lbridge_route (o : nstruct) : option LbridgeRoute.lsdn_lbridge_route :=
  match o with NLbridgeRoute x => Some x | _ => None end.
Definition get_lbridge_route (p : addr) : M heap LbridgeRoute.lsdn_lbridge_route :=
  o ← get_struct p; live (as_lbridge_route o).
Definition upd_lbridge_route (p : addr) (f : LbridgeRoute.lsdn_lbridge_route → LbridgeRoute.lsdn_lbridge_route) : M heap unit :=
  x ← get_lbridge_route p; put_struct p (NLbridgeRoute (f x)).
Definition as_sbridge (o : nstruct) : option Sbridge.lsdn_sbridge :=
  match o with NSbridge x => Some x | _ => None end.
Definition get_sbridge (p : addr) : M heap Sbridge.lsdn_sbridge :=
  o ← get_struct p; live (as_sbridge o).
Definition upd_sbridge (p : addr) (f : Sbridge.lsdn_sbridge → Sbridge.lsdn_sbridge) : M heap unit :=
  x ← get_sbridge p; put_struct p (NSbridge (f x)).
Definition as_sbridge_if (o : nstruct) : option SbridgeIf.lsdn_sbridge_if :=
  match o with NSbridgeIf x => Some x | _ => None end.
Definition get_sbridge_if (p : addr) : M heap SbridgeIf.lsdn_sbridge_if :=
  o ← get_struct p; live (as_sbridge_if o).
Definition upd_sbridge_if (p : addr) (f : SbridgeIf.lsdn_sbridge_if → SbridgeIf.lsdn_sbridge_if) : M heap unit :=
  x ← get_sbridge_if p; put_struct p (NSbridgeIf (f x)).
Definition as_phys_if (o : nstruct) : option PhysIf.lsdn_sbridge_phys_if :=
  match o with NPhysIf x => Some x | _ => None end.
Definition get_phys_if (p : addr) : M heap PhysIf.lsdn_sbridge_phys_if :=
  o ← get_struct p; live (as_phys_if o).
Definition upd_phys_if (p : addr) (f : PhysIf.lsdn_sbridge_phys_if → PhysIf.lsdn_sbridge_phys_if) : M heap unit :=
  x ← get_phys_if p; put_struct p (NPhysIf (f x)).
Definition as_sbridge_route (o : nstruct) : option SbridgeRoute.lsdn_sbridge_route :=
  match o with NSbridgeRoute x => Some x | _ => None end.
Definition get_sbridge_route (p : addr) : M heap SbridgeRoute.lsdn_sbridge_route :=
  o ← get_struct p; live (as_sbridge_route o).
Definition upd_sbridge_route (p : addr) (f : SbridgeRoute.lsdn_sbridge_route → SbridgeRoute.lsdn_sbridge_route) : M heap unit :=
  x ← get_sbridge_route p; put_struct p (NSbridgeRoute (f x)).
Definition as_sbridge_mac (o : nstruct) : option SbridgeMac.lsdn_sbridge_mac :=
  match o with NSbridgeMac x => Some x | _ => None end.
Definition get_sbridge_mac (p : addr) : M heap SbridgeMac.lsdn_sbridge_mac :=
  o ← get_struct p; live (as_sbridge_mac o).
Definition upd_sbridge_mac (p : addr) (f : SbridgeMac.lsdn_sbridge_mac → SbridgeMac.lsdn_sbridge_mac) : M heap unit :=
  x ← get_sbridge_mac p; put_struct p (NSbridgeMac (f x)).
Definition as_clist (o : nstruct) : option Clist.lsdn_clist :=
  match o with NClist x => Some x | _ => None end.
Definition get_clist (p : addr) : M heap Clist.lsdn_clist :=
  o ← get_struct p; live (as_clist o).
Definition upd_clist (p : addr) (f : Clist.lsdn_clist → Clist.lsdn_clist) : M heap unit :=
  x ← get_clist p; put_struct p (NClist (f x)).
