(* ===== verification/Base.v ===== *)
(** * Allocation, lists, error returns, problem reports, interfaces and names

    The services the rest of the library is written with: [malloc] and [strdup], the list
    routines on the list store, [ret_err] and [ret_ptr] of [netmodel/private/errors.h],
    [lsdn_problem_report] of [netmodel/errors.c], the interface handles of [netmodel/nl.c] and
    the name tables of [netmodel/names.c]. *)

From Stdlib Require Import ZArith.
From stdpp Require Import base list gmap strings pretty.
From S2P Require Import Prelude.
From S2P Require Import LStore.
From S2P Require Import Status.
From S2P Require Import Nettypes.
From S2P Require Import Heap.

Local Open Scope Z_scope.

(** ** Memory *)

(** One more allocation: does it succeed? *)
Definition try_alloc : M heap bool :=
  s ← get;
  _ ← modify (H.set_allocs (S (H.allocs s)));
  mret (Env.malloc_ok (H.env s) (H.allocs s)).

(** [malloc] of a structure. *)
Definition malloc : M heap (option ptr) :=
  ok ← try_alloc;
  if ok : bool then
    s ← get;
    _ ← modify (H.set_next_ptr (Pos.succ (H.next_ptr s)));
    mret (Some (H.next_ptr s))
  else mret None.

(** [strdup], and [malloc] of a value that is held by copy. *)
Definition strdup : M heap bool := try_alloc.

(** ** Lists *)

Definition on_lists {A} (m : M (gmap addr (list addr)) A) : M heap A := λ s,
  match m (H.lists s) with
  | Ok a L => Ok a (H.set_lists L s)
  | Fault f => Fault f
  end.

(** A head may be initialised again when the entries it had are freed memory: what a broadcast
    leaves behind ([lsdn_broadcast_free]). *)
Definition forget_freed (e : addr) : M heap unit :=
  modify (λ s, if forallb (λ x : addr, bool_decide (H.objs s !! x.1 = None)) (default [] (H.lists s !! e))
               then H.set_lists (delete e (H.lists s)) s else s).
Definition list_init (e : addr) : M heap unit := _ ← forget_freed e; on_lists (Store.init e).
Definition list_init_add (p e : addr) : M heap unit := on_lists (Store.init_add p e).
Definition list_add (p e : addr) : M heap unit := on_lists (Store.add p e).
Definition list_remove (e : addr) : M heap unit := on_lists (Store.remove e).
Definition is_list_empty (e : addr) : M heap bool := on_lists (Store.is_empty e).

(** The entries of a list, as the objects that contain them ([lsdn_container_of]). *)
Definition list_get (h : addr) : M heap (list ptr) :=
  s ← get; l ← live (H.lists s !! h); mret (fst <$> l).

(** [lsdn_foreach]: by the snapshot theorem of [LList], the iteration of the body over the
    entries the list has when the loop starts. *)
Definition foreach (h : addr) (body : ptr → M heap unit) : M heap unit :=
  l ← list_get h; mforeach body l.

(** ** Error returns *)

Definition nomem (ctx : ptr) : M heap unit :=
  c ← get_ctx ctx;
  match Ctx.nomem_cb c with
  | None => mret tt
  | Some lsdn_abort_cb => fail Aborted
  | Some (user_nomem_cb u) => modify (λ s, H.set_events (H.events s ++ [EvNomem u]) s)
  end.

Definition ret_err (ctx : ptr) (err : lsdn_err_t) : M heap lsdn_err_t :=
  if bool_decide (err = LSDNE_NOMEM) then _ ← nomem ctx; mret err else mret err.

Definition ret_ptr (ctx : ptr) (p : option ptr) : M heap (option ptr) :=
  match p with None => _ ← nomem ctx; mret p | Some _ => mret p end.

(** ** Problem reports *)

(** [lsdn_problem_report]: the variadic arguments are the list of references. *)
Definition lsdn_problem_report (ctx : ptr) (c : lsdn_problem_code) (rs : list lsdn_problem_ref)
    : M heap unit :=
  _ ← get_ctx ctx;
  _ ← assert_ (bool_decide (length rs ≤ LSDN_MAX_PROBLEM_REFS)%nat);
  x ← get_ctx ctx;
  _ ← match Ctx.problem_cb x with
      | None => mret tt
      | Some abort_handler => fail Aborted
      | Some (user_problem_cb _) =>
          modify (λ s, H.set_events (H.events s ++ [EvProblem (Problem c rs)]) s)
      end;
  upd_ctx ctx (λ x, Ctx.set_problem_count (Ctx.problem_count x + 1) x).

(** ** Interface handles *)

Definition lsdn_if_init (i : addr) : M heap unit := new_if i (If.mk 0 None).

Definition lsdn_if_free (i : addr) : M heap unit := _ ← get_if i; mret tt.

Definition lsdn_if_reset (i : addr) : M heap unit := _ ← lsdn_if_free i; lsdn_if_init i.

Definition lsdn_if_copy (dst src : addr) : M heap lsdn_err_t :=
  x ← get_if src;
  ok ← match If.ifname x with Some _ => strdup | None => mret true end;
  if ok : bool then
    _ ← lsdn_if_free dst;
    _ ← upd_if dst (λ _, x);
    mret LSDNE_OK
  else mret LSDNE_NOMEM.

Definition lsdn_if_swap (a b : addr) : M heap unit :=
  x ← get_if a; y ← get_if b;
  _ ← upd_if a (λ _, y);
  upd_if b (λ _, x).

Definition lsdn_if_set_name (i : addr) (ifname : string) : M heap lsdn_err_t :=
  ok ← strdup;
  if ok : bool then
    _ ← lsdn_if_free i;
    _ ← upd_if i (λ _, If.mk 0 (Some ifname));
    mret LSDNE_OK
  else mret LSDNE_NOMEM.

Definition lsdn_if_resolve (i : addr) : M heap lsdn_err_t :=
  x ← get_if i;
  if bool_decide (If.ifindex x ≠ 0) then mret LSDNE_OK else
  n ← deref (If.ifname x);
  s ← get;
  let ifindex := Env.if_nametoindex (H.env s) (H.trace s) n in
  if bool_decide (ifindex = 0) then mret LSDNE_NOIF else
  _ ← upd_if i (If.set_ifindex ifindex);
  mret LSDNE_OK.

(** ** Names *)

(** The [lsdn_name] member of object [p] has its list entry at [(p, F_name_entry)]. *)
Definition obj_name (o : obj) : option (option string) :=
  match o with
  | OSettings x => Some (Settings.name x)
  | OPhys x => Some (Phys.name x)
  | ONet x => Some (Net.name x)
  | OVirt x => Some (Virt.name x)
  | _ => None
  end.
Definition obj_set_name (n : option string) (o : obj) : obj :=
  match o with
  | OSettings x => OSettings (Settings.set_name n x)
  | OPhys x => OPhys (Phys.set_name n x)
  | ONet x => ONet (Net.set_name n x)
  | OVirt x => OVirt (Virt.set_name n x)
  | o => o
  end.

Definition get_name (p : ptr) : M heap (option string) := o ← get_obj p; live (obj_name o).
Definition put_name (p : ptr) (n : option string) : M heap unit :=
  o ← get_obj p; _ ← live (obj_name o); put_obj p (obj_set_name n o).

Definition lsdn_names_init (tab : addr) : M heap unit := list_init tab.
Definition lsdn_names_free (tab : addr) : M heap unit := mret tt.

Definition lsdn_name_init (name : ptr) : M heap unit :=
  _ ← list_init (name, F_name_entry); put_name name None.

Definition lsdn_name_free (name : ptr) : M heap unit :=
  _ ← get_name name;
  _ ← put_name name None;
  b ← is_list_empty (name, F_name_entry);
  if b : bool then mret tt else list_remove (name, F_name_entry).

(** The loop of [lsdn_names_search]. *)
Fixpoint search_loop (key : string) (l : list ptr) : M heap (option ptr) :=
  match l with
  | [] => mret None
  | p :: l =>
      n ← get_name p; str ← deref n;
      if bool_decide (str = key) then mret (Some p) else search_loop key l
  end.

Definition lsdn_names_search (tab : addr) (key : option string) : M heap (option ptr) :=
  match key with
  | None => mret None
  | Some key => l ← list_get tab; search_loop key l
  end.

(** [lsdn_name_set]; equality of the two pointers implies equality of the strings. *)
Definition lsdn_name_set (name : ptr) (table : addr) (str : option string) : M heap lsdn_err_t :=
  match str with
  | None => _ ← lsdn_name_free name; mret LSDNE_OK
  | Some str =>
      n ← get_name name;
      if bool_decide (n = Some str) then mret LSDNE_OK else
      found ← lsdn_names_search table (Some str);
      match found with
      | Some _ => mret LSDNE_DUPLICATE
      | None =>
          ok ← strdup;
          if ok : bool then
            _ ← lsdn_name_free name;
            _ ← put_name name (Some str);
            _ ← list_add table (name, F_name_entry);
            mret LSDNE_OK
          else mret LSDNE_NOMEM
      end
  end.

(** [lsdn_mk_name]: [snprintf] truncates to the 64 characters of [namebuf]. *)
Definition lsdn_mk_name (ctx : ptr) (type : string) : M heap string :=
  c ← get_ctx ctx;
  let n := Ctx.obj_count c + 1 in
  let buf := String.substring 0 64 (Ctx.name c +:+ "-" +:+ type +:+ "-" +:+ pretty n) in
  _ ← upd_ctx ctx (λ c, Ctx.set_namebuf buf (Ctx.set_obj_count n c));
  mret buf.
