(* ===== verification/Wp.v ===== *)
(** * Program logic for the heap

    Total-correctness rules for the accesses to the memory and the tactic [hstep] that executes
    a straight-line program symbolically. *)

From Stdlib Require Import ZArith Lia.
From stdpp Require Import base list gmap strings.
From S2P Require Import Prelude.
From S2P Require Import LStore.
From S2P Require Import Status.
From S2P Require Import Heap.
From S2P Require Import Base.

Lemma wp_get_obj p s Q : wp (get_obj p) s Q ↔ ∃ o, H.objs s !! p = Some o ∧ Q o s.
Proof. unfold get_obj. by rewrite wp_bind, wp_get, wp_live. Qed.

Lemma wp_put_obj p o s Q :
  wp (put_obj p o) s Q ↔ Q tt (H.set_objs (<[p := o]> (H.objs s)) s).
Proof. done. Qed.

Lemma wp_free_obj p s Q :
  wp (free_obj p) s Q ↔ ∃ o, H.objs s !! p = Some o ∧
    Q tt (H.set_lists (filter (λ kv : addr * list addr, kv.1.1 ≠ p) (H.lists s))
                 (H.set_objs (delete p (H.objs s)) s)).
Proof. unfold free_obj. by rewrite wp_bind, wp_get_obj. Qed.

Lemma wp_get_ctx p s Q :
  wp (get_ctx p) s Q ↔ ∃ x, H.objs s !! p = Some (OCtx x) ∧ Q x s.
Proof.
  unfold get_ctx. rewrite wp_bind, wp_get_obj. setoid_rewrite wp_live. split.
  - intros (o & Ho & x & Hx & HQ). destruct o; try done. simplify_eq/=. eauto.
  - intros (x & Hx & HQ). exists (OCtx x). split; [done|]. eauto.
Qed.
Lemma wp_upd_ctx p f s Q :
  wp (upd_ctx p f) s Q ↔ ∃ x, H.objs s !! p = Some (OCtx x) ∧
    Q tt (H.set_objs (<[p := OCtx (f x)]> (H.objs s)) s).
Proof. unfold upd_ctx. by rewrite wp_bind, wp_get_ctx. Qed.

Lemma wp_get_settings p s Q :
  wp (get_settings p) s Q ↔ ∃ x, H.objs s !! p = Some (OSettings x) ∧ Q x s.
Proof.
  unfold get_settings. rewrite wp_bind, wp_get_obj. setoid_rewrite wp_live. split.
  - intros (o & Ho & x & Hx & HQ). destruct o; try done. simplify_eq/=. eauto.
  - intros (x & Hx & HQ). exists (OSettings x). split; [done|]. eauto.
Qed.
Lemma wp_upd_settings p f s Q :
  wp (upd_settings p f) s Q ↔ ∃ x, H.objs s !! p = Some (OSettings x) ∧
    Q tt (H.set_objs (<[p := OSettings (f x)]> (H.objs s)) s).
Proof. unfold upd_settings. by rewrite wp_bind, wp_get_settings. Qed.

Lemma wp_get_phys p s Q :
  wp (get_phys p) s Q ↔ ∃ x, H.objs s !! p = Some (OPhys x) ∧ Q x s.
Proof.
  unfold get_phys. rewrite wp_bind, wp_get_obj. setoid_rewrite wp_live. split.
  - intros (o & Ho & x & Hx & HQ). destruct o; try done. simplify_eq/=. eauto.
  - intros (x & Hx & HQ). exists (OPhys x). split; [done|]. eauto.
Qed.
Lemma wp_upd_phys p f s Q :
  wp (upd_phys p f) s Q ↔ ∃ x, H.objs s !! p = Some (OPhys x) ∧
    Q tt (H.set_objs (<[p := OPhys (f x)]> (H.objs s)) s).
Proof. unfold upd_phys. by rewrite wp_bind, wp_get_phys. Qed.

Lemma wp_get_net p s Q :
  wp (get_net p) s Q ↔ ∃ x, H.objs s !! p = Some (ONet x) ∧ Q x s.
Proof.
  unfold get_net. rewrite wp_bind, wp_get_obj. setoid_rewrite wp_live. split.
  - intros (o & Ho & x & Hx & HQ). destruct o; try done. simplify_eq/=. eauto.
  - intros (x & Hx & HQ). exists (ONet x). split; [done|]. eauto.
Qed.
Lemma wp_upd_net p f s Q :
  wp (upd_net p f) s Q ↔ ∃ x, H.objs s !! p = Some (ONet x) ∧
    Q tt (H.set_objs (<[p := ONet (f x)]> (H.objs s)) s).
Proof. unfold upd_net. by rewrite wp_bind, wp_get_net. Qed.

Lemma wp_get_pa p s Q :
  wp (get_pa p) s Q ↔ ∃ x, H.objs s !! p = Some (OPa x) ∧ Q x s.
Proof.
  unfold get_pa. rewrite wp_bind, wp_get_obj. setoid_rewrite wp_live. split.
  - intros (o & Ho & x & Hx & HQ). destruct o; try done. simplify_eq/=. eauto.
  - intros (x & Hx & HQ). exists (OPa x). split; [done|]. eauto.
Qed.
Lemma wp_upd_pa p f s Q :
  wp (upd_pa p f) s Q ↔ ∃ x, H.objs s !! p = Some (OPa x) ∧
    Q tt (H.set_objs (<[p := OPa (f x)]> (H.objs s)) s).
Proof. unfold upd_pa. by rewrite wp_bind, wp_get_pa. Qed.

Lemma wp_get_virt p s Q :
  wp (get_virt p) s Q ↔ ∃ x, H.objs s !! p = Some (OVirt x) ∧ Q x s.
Proof.
  unfold get_virt. rewrite wp_bind, wp_get_obj. setoid_rewrite wp_live. split.
  - intros (o & Ho & x & Hx & HQ). destruct o; try done. simplify_eq/=. eauto.
  - intros (x & Hx & HQ). exists (OVirt x). split; [done|]. eauto.
Qed.
Lemma wp_upd_virt p f s Q :
  wp (upd_virt p f) s Q ↔ ∃ x, H.objs s !! p = Some (OVirt x) ∧
    Q tt (H.set_objs (<[p := OVirt (f x)]> (H.objs s)) s).
Proof. unfold upd_virt. by rewrite wp_bind, wp_get_virt. Qed.

Lemma wp_get_rpa p s Q :
  wp (get_rpa p) s Q ↔ ∃ x, H.objs s !! p = Some (ORpa x) ∧ Q x s.
Proof.
  unfold get_rpa. rewrite wp_bind, wp_get_obj. setoid_rewrite wp_live. split.
  - intros (o & Ho & x & Hx & HQ). destruct o; try done. simplify_eq/=. eauto.
  - intros (x & Hx & HQ). exists (ORpa x). split; [done|]. eauto.
Qed.
Lemma wp_upd_rpa p f s Q :
  wp (upd_rpa p f) s Q ↔ ∃ x, H.objs s !! p = Some (ORpa x) ∧
    Q tt (H.set_objs (<[p := ORpa (f x)]> (H.objs s)) s).
Proof. unfold upd_rpa. by rewrite wp_bind, wp_get_rpa. Qed.

Lemma wp_get_rvirt p s Q :
  wp (get_rvirt p) s Q ↔ ∃ x, H.objs s !! p = Some (ORvirt x) ∧ Q x s.
Proof.
  unfold get_rvirt. rewrite wp_bind, wp_get_obj. setoid_rewrite wp_live. split.
  - intros (o & Ho & x & Hx & HQ). destruct o; try done. simplify_eq/=. eauto.
  - intros (x & Hx & HQ). exists (ORvirt x). split; [done|]. eauto.
Qed.
Lemma wp_upd_rvirt p f s Q :
  wp (upd_rvirt p f) s Q ↔ ∃ x, H.objs s !! p = Some (ORvirt x) ∧
    Q tt (H.set_objs (<[p := ORvirt (f x)]> (H.objs s)) s).
Proof. unfold upd_rvirt. by rewrite wp_bind, wp_get_rvirt. Qed.

Lemma wp_get_vrprio p s Q :
  wp (get_vrprio p) s Q ↔ ∃ x, H.objs s !! p = Some (OVrPrio x) ∧ Q x s.
Proof.
  unfold get_vrprio. rewrite wp_bind, wp_get_obj. setoid_rewrite wp_live. split.
  - intros (o & Ho & x & Hx & HQ). destruct o; try done. simplify_eq/=. eauto.
  - intros (x & Hx & HQ). exists (OVrPrio x). split; [done|]. eauto.
Qed.
Lemma wp_upd_vrprio p f s Q :
  wp (upd_vrprio p f) s Q ↔ ∃ x, H.objs s !! p = Some (OVrPrio x) ∧
    Q tt (H.set_objs (<[p := OVrPrio (f x)]> (H.objs s)) s).
Proof. unfold upd_vrprio. by rewrite wp_bind, wp_get_vrprio. Qed.

Lemma wp_get_vr p s Q :
  wp (get_vr p) s Q ↔ ∃ x, H.objs s !! p = Some (OVr x) ∧ Q x s.
Proof.
  unfold get_vr. rewrite wp_bind, wp_get_obj. setoid_rewrite wp_live. split.
  - intros (o & Ho & x & Hx & HQ). destruct o; try done. simplify_eq/=. eauto.
  - intros (x & Hx & HQ). exists (OVr x). split; [done|]. eauto.
Qed.
Lemma wp_upd_vr p f s Q :
  wp (upd_vr p f) s Q ↔ ∃ x, H.objs s !! p = Some (OVr x) ∧
    Q tt (H.set_objs (<[p := OVr (f x)]> (H.objs s)) s).
Proof. unfold upd_vr. by rewrite wp_bind, wp_get_vr. Qed.

Lemma wp_get_rsprio p s Q :
  wp (get_rsprio p) s Q ↔ ∃ x, H.objs s !! p = Some (ORsPrio x) ∧ Q x s.
Proof.
  unfold get_rsprio. rewrite wp_bind, wp_get_obj. setoid_rewrite wp_live. split.
  - intros (o & Ho & x & Hx & HQ). destruct o; try done. simplify_eq/=. eauto.
  - intros (x & Hx & HQ). exists (ORsPrio x). split; [done|]. eauto.
Qed.
Lemma wp_upd_rsprio p f s Q :
  wp (upd_rsprio p f) s Q ↔ ∃ x, H.objs s !! p = Some (ORsPrio x) ∧
    Q tt (H.set_objs (<[p := ORsPrio (f x)]> (H.objs s)) s).
Proof. unfold upd_rsprio. by rewrite wp_bind, wp_get_rsprio. Qed.

Lemma wp_get_flower p s Q :
  wp (get_flower p) s Q ↔ ∃ x, H.objs s !! p = Some (OFlower x) ∧ Q x s.
Proof.
  unfold get_flower. rewrite wp_bind, wp_get_obj. setoid_rewrite wp_live. split.
  - intros (o & Ho & x & Hx & HQ). destruct o; try done. simplify_eq/=. eauto.
  - intros (x & Hx & HQ). exists (OFlower x). split; [done|]. eauto.
Qed.
Lemma wp_upd_flower p f s Q :
  wp (upd_flower p f) s Q ↔ ∃ x, H.objs s !! p = Some (OFlower x) ∧
    Q tt (H.set_objs (<[p := OFlower (f x)]> (H.objs s)) s).
Proof. unfold upd_flower. by rewrite wp_bind, wp_get_flower. Qed.

Lemma wp_get_bfilter p s Q :
  wp (get_bfilter p) s Q ↔ ∃ x, H.objs s !! p = Some (OBFilter x) ∧ Q x s.
Proof.
  unfold get_bfilter. rewrite wp_bind, wp_get_obj. setoid_rewrite wp_live. split.
  - intros (o & Ho & x & Hx & HQ). destruct o; try done. simplify_eq/=. eauto.
  - intros (x & Hx & HQ). exists (OBFilter x). split; [done|]. eauto.
Qed.
Lemma wp_upd_bfilter p f s Q :
  wp (upd_bfilter p f) s Q ↔ ∃ x, H.objs s !! p = Some (OBFilter x) ∧
    Q tt (H.set_objs (<[p := OBFilter (f x)]> (H.objs s)) s).
Proof. unfold upd_bfilter. by rewrite wp_bind, wp_get_bfilter. Qed.

Lemma wp_get_br_action p s Q :
  wp (get_br_action p) s Q ↔ ∃ x, H.objs s !! p = Some (OBrAction x) ∧ Q x s.
Proof.
  unfold get_br_action. rewrite wp_bind, wp_get_obj. setoid_rewrite wp_live. split.
  - intros (o & Ho & x & Hx & HQ). destruct o; try done. simplify_eq/=. eauto.
  - intros (x & Hx & HQ). exists (OBrAction x). split; [done|]. eauto.
Qed.
Lemma wp_get_fwd_rule p s Q :
  wp (get_fwd_rule p) s Q ↔ ∃ x, H.objs s !! p = Some (OFwdRule x) ∧ Q x s.
Proof.
  unfold get_fwd_rule. rewrite wp_bind, wp_get_obj. setoid_rewrite wp_live. split.
  - intros (o & Ho & x & Hx & HQ). destruct o; try done. simplify_eq/=. eauto.
  - intros (x & Hx & HQ). exists (OFwdRule x). split; [done|]. eauto.
Qed.

(** A live object that can hold structures of the bridges. *)
Definition embeds (s : heap) (p : ptr) : Prop :=
  ∃ o, H.objs s !! p = Some o ∧ container o = Some tt.

Lemma wp_get_container p s Q : wp (get_container p) s Q ↔ embeds s p ∧ Q tt s.
Proof.
  unfold get_container, embeds. rewrite wp_bind, wp_get_obj. setoid_rewrite wp_live. split.
  - intros (o & Ho & [] & Hc & HQ). eauto.
  - intros [(o & Ho & Hc) HQ]. eauto.
Qed.
Lemma wp_get_struct p s Q :
  wp (get_struct p) s Q ↔ embeds s p.1 ∧ ∃ x, H.structs s !! p = Some x ∧ Q x s.
Proof. unfold get_struct. by rewrite wp_bind, wp_get_container, wp_bind, wp_get, wp_live. Qed.
Lemma wp_put_struct p x s Q :
  wp (put_struct p x) s Q ↔ embeds s p.1 ∧ Q tt (H.set_structs (<[p := x]> (H.structs s)) s).
Proof. unfold put_struct. by rewrite wp_bind, wp_get_container. Qed.

Lemma wp_get_lbridge p s Q :
  wp (get_lbridge p) s Q ↔ embeds s p.1 ∧ ∃ x, H.structs s !! p = Some (NLbridge x) ∧ Q x s.
Proof.
  unfold get_lbridge. rewrite wp_bind, wp_get_struct. setoid_rewrite wp_live. split.
  - intros (He & o & Ho & x & Hx & HQ). destruct o; try done. simplify_eq/=. eauto.
  - intros (He & x & Hx & HQ). split; [done|]. exists (NLbridge x). split; [done|]. eauto.
Qed.
Lemma wp_upd_lbridge p f s Q :
  wp (upd_lbridge p f) s Q ↔ embeds s p.1 ∧ ∃ x, H.structs s !! p = Some (NLbridge x) ∧
    Q tt (H.set_structs (<[p := NLbridge (f x)]> (H.structs s)) s).
Proof.
  unfold upd_lbridge. rewrite wp_bind, wp_get_lbridge. setoid_rewrite wp_put_struct. naive_solver.
Qed.
Lemma wp_get_lbridge_if p s Q :
  wp (get_lbridge_if p) s Q ↔ embeds s p.1 ∧ ∃ x, H.structs s !! p = Some (NLbridgeIf x) ∧ Q x s.
Proof.
  unfold get_lbridge_if. rewrite wp_bind, wp_get_struct. setoid_rewrite wp_live. split.
  - intros (He & o & Ho & x & Hx & HQ). destruct o; try done. simplify_eq/=. eauto.
  - intros (He & x & Hx & HQ). split; [done|]. exists (NLbridgeIf x). split; [done|]. eauto.
Qed.
Lemma wp_upd_lbridge_if p f s Q :
  wp (upd_lbridge_if p f) s Q ↔ embeds s p.1 ∧ ∃ x, H.structs s !! p = Some (NLbridgeIf x) ∧
    Q tt (H.set_structs (<[p := NLbridgeIf (f x)]> (H.structs s)) s).
Proof.
  unfold upd_lbridge_if. rewrite wp_bind, wp_get_lbridge_if. setoid_rewrite wp_put_struct. naive_solver.
Qed.
Lemma wp_get_lbridge_route p s Q :
  wp (get_lbridge_route p) s Q ↔ embeds s p.1 ∧ ∃ x, H.structs s !! p = Some (NLbridgeRoute x) ∧ Q x s.
Proof.
  unfold get_lbridge_route. rewrite wp_bind, wp_get_struct. setoid_rewrite wp_live. split.
  - intros (He & o & Ho & x & Hx & HQ). destruct o; try done. simplify_eq/=. eauto.
  - intros (He & x & Hx & HQ). split; [done|]. exists (NLbridgeRoute x). split; [done|]. eauto.
Qed.
Lemma wp_upd_lbridge_route p f s Q :
  wp (upd_lbridge_route p f) s Q ↔ embeds s p.1 ∧ ∃ x, H.structs s !! p = Some (NLbridgeRoute x) ∧
    Q tt (H.set_structs (<[p := NLbridgeRoute (f x)]> (H.structs s)) s).
Proof.
  unfold upd_lbridge_route. rewrite wp_bind, wp_get_lbridge_route. setoid_rewrite wp_put_struct. naive_solver.
Qed.
Lemma wp_get_sbridge p s Q :
  wp (get_sbridge p) s Q ↔ embeds s p.1 ∧ ∃ x, H.structs s !! p = Some (NSbridge x) ∧ Q x s.
Proof.
  unfold get_sbridge. rewrite wp_bind, wp_get_struct. setoid_rewrite wp_live. split.
  - intros (He & o & Ho & x & Hx & HQ). destruct o; try done. simplify_eq/=. eauto.
  - intros (He & x & Hx & HQ). split; [done|]. exists (NSbridge x). split; [done|]. eauto.
Qed.
Lemma wp_upd_sbridge p f s Q :
  wp (upd_sbridge p f) s Q ↔ embeds s p.1 ∧ ∃ x, H.structs s !! p = Some (NSbridge x) ∧
    Q tt (H.set_structs (<[p := NSbridge (f x)]> (H.structs s)) s).
Proof.
  unfold upd_sbridge. rewrite wp_bind, wp_get_sbridge. setoid_rewrite wp_put_struct. naive_solver.
Qed.
Lemma wp_get_sbridge_if p s Q :
  wp (get_sbridge_if p) s Q ↔ embeds s p.1 ∧ ∃ x, H.structs s !! p = Some (NSbridgeIf x) ∧ Q x s.
Proof.
  unfold get_sbridge_if. rewrite wp_bind, wp_get_struct. setoid_rewrite wp_live. split.
  - intros (He & o & Ho & x & Hx & HQ). destruct o; try done. simplify_eq/=. eauto.
  - intros (He & x & Hx & HQ). split; [done|]. exists (NSbridgeIf x). split; [done|]. eauto.
Qed.
Lemma wp_upd_sbridge_if p f s Q :
  wp (upd_sbridge_if p f) s Q ↔ embeds s p.1 ∧ ∃ x, H.structs s !! p = Some (NSbridgeIf x) ∧
    Q tt (H.set_structs (<[p := NSbridgeIf (f x)]> (H.structs s)) s).
Proof.
  unfold upd_sbridge_if. rewrite wp_bind, wp_get_sbridge_if. setoid_rewrite wp_put_struct. naive_solver.
Qed.
Lemma wp_get_phys_if p s Q :
  wp (get_phys_if p) s Q ↔ embeds s p.1 ∧ ∃ x, H.structs s !! p = Some (NPhysIf x) ∧ Q x s.
Proof.
  unfold get_phys_if. rewrite wp_bind, wp_get_struct. setoid_rewrite wp_live. split.
  - intros (He & o & Ho & x & Hx & HQ). destruct o; try done. simplify_eq/=. eauto.
  - intros (He & x & Hx & HQ). split; [done|]. exists (NPhysIf x). split; [done|]. eauto.
Qed.
Lemma wp_upd_phys_if p f s Q :
  wp (upd_phys_if p f) s Q ↔ embeds s p.1 ∧ ∃ x, H.structs s !! p = Some (NPhysIf x) ∧
    Q tt (H.set_structs (<[p := NPhysIf (f x)]> (H.structs s)) s).
Proof.
  unfold upd_phys_if. rewrite wp_bind, wp_get_phys_if. setoid_rewrite wp_put_struct. naive_solver.
Qed.
Lemma wp_get_sbridge_route p s Q :
  wp (get_sbridge_route p) s Q ↔ embeds s p.1 ∧ ∃ x, H.structs s !! p = Some (NSbridgeRoute x) ∧ Q x s.
Proof.
  unfold get_sbridge_route. rewrite wp_bind, wp_get_struct. setoid_rewrite wp_live. split.
  - intros (He & o & Ho & x & Hx & HQ). destruct o; try done. simplify_eq/=. eauto.
  - intros (He & x & Hx & HQ). split; [done|]. exists (NSbridgeRoute x). split; [done|]. eauto.
Qed.
Lemma wp_upd_sbridge_route p f s Q :
  wp (upd_sbridge_route p f) s Q ↔ embeds s p.1 ∧ ∃ x, H.structs s !! p = Some (NSbridgeRoute x) ∧
    Q tt (H.set_structs (<[p := NSbridgeRoute (f x)]> (H.structs s)) s).
Proof.
  unfold upd_sbridge_route. rewrite wp_bind, wp_get_sbridge_route. setoid_rewrite wp_put_struct. naive_solver.
Qed.
Lemma wp_get_sbridge_mac p s Q :
  wp (get_sbridge_mac p) s Q ↔ embeds s p.1 ∧ ∃ x, H.structs s !! p = Some (NSbridgeMac x) ∧ Q x s.
Proof.
  unfold get_sbridge_mac. rewrite wp_bind, wp_get_struct. setoid_rewrite wp_live. split.
  - intros (He & o & Ho & x & Hx & HQ). destruct o; try done. simplify_eq/=. eauto.
  - intros (He & x & Hx & HQ). split; [done|]. exists (NSbridgeMac x). split; [done|]. eauto.
Qed.
Lemma wp_upd_sbridge_mac p f s Q :
  wp (upd_sbridge_mac p f) s Q ↔ embeds s p.1 ∧ ∃ x, H.structs s !! p = Some (NSbridgeMac x) ∧
    Q tt (H.set_structs (<[p := NSbridgeMac (f x)]> (H.structs s)) s).
Proof.
  unfold upd_sbridge_mac. rewrite wp_bind, wp_get_sbridge_mac. setoid_rewrite wp_put_struct. naive_solver.
Qed.
Lemma wp_get_clist p s Q :
  wp (get_clist p) s Q ↔ embeds s p.1 ∧ ∃ x, H.structs s !! p = Some (NClist x) ∧ Q x s.
Proof.
  unfold get_clist. rewrite wp_bind, wp_get_struct. setoid_rewrite wp_live. split.
  - intros (He & o & Ho & x & Hx & HQ). destruct o; try done. simplify_eq/=. eauto.
  - intros (He & x & Hx & HQ). split; [done|]. exists (NClist x). split; [done|]. eauto.
Qed.
Lemma wp_upd_clist p f s Q :
  wp (upd_clist p f) s Q ↔ embeds s p.1 ∧ ∃ x, H.structs s !! p = Some (NClist x) ∧
    Q tt (H.set_structs (<[p := NClist (f x)]> (H.structs s)) s).
Proof.
  unfold upd_clist. rewrite wp_bind, wp_get_clist. setoid_rewrite wp_put_struct. naive_solver.
Qed.

Lemma wp_get_if p s Q :
  wp (get_if p) s Q ↔ ∃ x, H.ifs s !! p = Some x ∧ Q x s.
Proof. unfold get_if. by rewrite wp_bind, wp_get, wp_live. Qed.
Lemma wp_new_if p x s Q :
  wp (new_if p x) s Q ↔ Q tt (H.set_ifs (<[p := x]> (H.ifs s)) s).
Proof. done. Qed.
Lemma wp_upd_if p f s Q :
  wp (upd_if p f) s Q ↔ ∃ x, H.ifs s !! p = Some x ∧
    Q tt (H.set_ifs (<[p := f x]> (H.ifs s)) s).
Proof. unfold upd_if. by rewrite wp_bind, wp_get_if. Qed.
Lemma wp_del_if p s Q :
  wp (del_if p) s Q ↔ Q tt (H.set_ifs (delete p (H.ifs s)) s).
Proof. done. Qed.

Lemma wp_get_rule p s Q :
  wp (get_rule p) s Q ↔ ∃ x, H.rules s !! p = Some x ∧ Q x s.
Proof. unfold get_rule. by rewrite wp_bind, wp_get, wp_live. Qed.
Lemma wp_new_rule p x s Q :
  wp (new_rule p x) s Q ↔ Q tt (H.set_rules (<[p := x]> (H.rules s)) s).
Proof. done. Qed.
Lemma wp_upd_rule p f s Q :
  wp (upd_rule p f) s Q ↔ ∃ x, H.rules s !! p = Some x ∧
    Q tt (H.set_rules (<[p := f x]> (H.rules s)) s).
Proof. unfold upd_rule. by rewrite wp_bind, wp_get_rule. Qed.
Lemma wp_del_rule p s Q :
  wp (del_rule p) s Q ↔ Q tt (H.set_rules (delete p (H.rules s)) s).
Proof. done. Qed.

Lemma wp_get_ruleset p s Q :
  wp (get_ruleset p) s Q ↔ ∃ x, H.rulesets s !! p = Some x ∧ Q x s.
Proof. unfold get_ruleset. by rewrite wp_bind, wp_get, wp_live. Qed.
Lemma wp_new_ruleset p x s Q :
  wp (new_ruleset p x) s Q ↔ Q tt (H.set_rulesets (<[p := x]> (H.rulesets s)) s).
Proof. done. Qed.
Lemma wp_upd_ruleset p f s Q :
  wp (upd_ruleset p f) s Q ↔ ∃ x, H.rulesets s !! p = Some x ∧
    Q tt (H.set_rulesets (<[p := f x]> (H.rulesets s)) s).
Proof. unfold upd_ruleset. by rewrite wp_bind, wp_get_ruleset. Qed.
Lemma wp_del_ruleset p s Q :
  wp (del_ruleset p) s Q ↔ Q tt (H.set_rulesets (delete p (H.rulesets s)) s).
Proof. done. Qed.

Lemma wp_get_broadcast p s Q :
  wp (get_broadcast p) s Q ↔ ∃ x, H.broadcasts s !! p = Some x ∧ Q x s.
Proof. unfold get_broadcast. by rewrite wp_bind, wp_get, wp_live. Qed.
Lemma wp_new_broadcast p x s Q :
  wp (new_broadcast p x) s Q ↔ Q tt (H.set_broadcasts (<[p := x]> (H.broadcasts s)) s).
Proof. done. Qed.
Lemma wp_upd_broadcast p f s Q :
  wp (upd_broadcast p f) s Q ↔ ∃ x, H.broadcasts s !! p = Some x ∧
    Q tt (H.set_broadcasts (<[p := f x]> (H.broadcasts s)) s).
Proof. unfold upd_broadcast. by rewrite wp_bind, wp_get_broadcast. Qed.
Lemma wp_del_broadcast p s Q :
  wp (del_broadcast p) s Q ↔ Q tt (H.set_broadcasts (delete p (H.broadcasts s)) s).
Proof. done. Qed.

Lemma wp_get_baction p s Q :
  wp (get_baction p) s Q ↔ ∃ x, H.bactions s !! p = Some x ∧ Q x s.
Proof. unfold get_baction. by rewrite wp_bind, wp_get, wp_live. Qed.
Lemma wp_new_baction p x s Q :
  wp (new_baction p x) s Q ↔ Q tt (H.set_bactions (<[p := x]> (H.bactions s)) s).
Proof. done. Qed.
Lemma wp_upd_baction p f s Q :
  wp (upd_baction p f) s Q ↔ ∃ x, H.bactions s !! p = Some x ∧
    Q tt (H.set_bactions (<[p := f x]> (H.bactions s)) s).
Proof. unfold upd_baction. by rewrite wp_bind, wp_get_baction. Qed.
Lemma wp_del_baction p s Q :
  wp (del_baction p) s Q ↔ Q tt (H.set_bactions (delete p (H.bactions s)) s).
Proof. done. Qed.

(** Some allocation fails. *)
Definition out_of_memory (s : heap) : Prop := ∃ n, Env.malloc_ok (H.env s) n = false.

Lemma wp_try_alloc s Q :
  wp try_alloc s Q ↔
  Q (Env.malloc_ok (H.env s) (H.allocs s)) (H.set_allocs (S (H.allocs s)) s).
Proof. done. Qed.

(** [malloc] either fails or answers a pointer that was never used. *)
Lemma wp_malloc s Q :
  wp malloc s Q ↔
  if Env.malloc_ok (H.env s) (H.allocs s)
  then Q (Some (H.next_ptr s))
         (H.set_next_ptr (Pos.succ (H.next_ptr s)) (H.set_allocs (S (H.allocs s)) s))
  else Q None (H.set_allocs (S (H.allocs s)) s).
Proof.
  unfold malloc. rewrite wp_bind, wp_try_alloc. by destruct (Env.malloc_ok _ _).
Qed.

(** Rewrites the goal with the rule of the first command. *)
Ltac hrule :=
  rewrite ?wp_bind;
  lazymatch goal with
  | |- wp (mret _) _ _ => rewrite wp_ret
  | |- wp get _ _ => rewrite wp_get
  | |- wp (gets _) _ _ => rewrite wp_gets
  | |- wp (modify _) _ _ => rewrite wp_modify
  | |- wp (assert_ _) _ _ => rewrite wp_assert
  | |- wp (deref _) _ _ => rewrite wp_deref
  | |- wp (live _) _ _ => rewrite wp_live
  | |- wp (get_obj _) _ _ => rewrite wp_get_obj
  | |- wp (put_obj _ _) _ _ => rewrite wp_put_obj
  | |- wp (free_obj _) _ _ => rewrite wp_free_obj
  | |- wp try_alloc _ _ => rewrite wp_try_alloc
  | |- wp strdup _ _ => unfold strdup; rewrite wp_try_alloc
  | |- wp malloc _ _ => rewrite wp_malloc
  | |- wp (get_ctx _) _ _ => rewrite wp_get_ctx
  | |- wp (upd_ctx _ _) _ _ => rewrite wp_upd_ctx
  | |- wp (get_settings _) _ _ => rewrite wp_get_settings
  | |- wp (upd_settings _ _) _ _ => rewrite wp_upd_settings
  | |- wp (get_phys _) _ _ => rewrite wp_get_phys
  | |- wp (upd_phys _ _) _ _ => rewrite wp_upd_phys
  | |- wp (get_net _) _ _ => rewrite wp_get_net
  | |- wp (upd_net _ _) _ _ => rewrite wp_upd_net
  | |- wp (get_pa _) _ _ => rewrite wp_get_pa
  | |- wp (upd_pa _ _) _ _ => rewrite wp_upd_pa
  | |- wp (get_virt _) _ _ => rewrite wp_get_virt
  | |- wp (upd_virt _ _) _ _ => rewrite wp_upd_virt
  | |- wp (get_rpa _) _ _ => rewrite wp_get_rpa
  | |- wp (upd_rpa _ _) _ _ => rewrite wp_upd_rpa
  | |- wp (get_rvirt _) _ _ => rewrite wp_get_rvirt
  | |- wp (upd_rvirt _ _) _ _ => rewrite wp_upd_rvirt
  | |- wp (get_vrprio _) _ _ => rewrite wp_get_vrprio
  | |- wp (upd_vrprio _ _) _ _ => rewrite wp_upd_vrprio
  | |- wp (get_vr _) _ _ => rewrite wp_get_vr
  | |- wp (upd_vr _ _) _ _ => rewrite wp_upd_vr
  | |- wp (get_rsprio _) _ _ => rewrite wp_get_rsprio
  | |- wp (upd_rsprio _ _) _ _ => rewrite wp_upd_rsprio
  | |- wp (get_flower _) _ _ => rewrite wp_get_flower
  | |- wp (upd_flower _ _) _ _ => rewrite wp_upd_flower
  | |- wp (get_bfilter _) _ _ => rewrite wp_get_bfilter
  | |- wp (upd_bfilter _ _) _ _ => rewrite wp_upd_bfilter
  | |- wp (get_br_action _) _ _ => rewrite wp_get_br_action
  | |- wp (get_fwd_rule _) _ _ => rewrite wp_get_fwd_rule
  | |- wp (get_container _) _ _ => rewrite wp_get_container
  | |- wp (get_struct _) _ _ => rewrite wp_get_struct
  | |- wp (put_struct _ _) _ _ => rewrite wp_put_struct
  | |- wp (get_lbridge _) _ _ => rewrite wp_get_lbridge
  | |- wp (upd_lbridge _ _) _ _ => rewrite wp_upd_lbridge
  | |- wp (get_lbridge_if _) _ _ => rewrite wp_get_lbridge_if
  | |- wp (upd_lbridge_if _ _) _ _ => rewrite wp_upd_lbridge_if
  | |- wp (get_lbridge_route _) _ _ => rewrite wp_get_lbridge_route
  | |- wp (upd_lbridge_route _ _) _ _ => rewrite wp_upd_lbridge_route
  | |- wp (get_sbridge _) _ _ => rewrite wp_get_sbridge
  | |- wp (upd_sbridge _ _) _ _ => rewrite wp_upd_sbridge
  | |- wp (get_sbridge_if _) _ _ => rewrite wp_get_sbridge_if
  | |- wp (upd_sbridge_if _ _) _ _ => rewrite wp_upd_sbridge_if
  | |- wp (get_phys_if _) _ _ => rewrite wp_get_phys_if
  | |- wp (upd_phys_if _ _) _ _ => rewrite wp_upd_phys_if
  | |- wp (get_sbridge_route _) _ _ => rewrite wp_get_sbridge_route
  | |- wp (upd_sbridge_route _ _) _ _ => rewrite wp_upd_sbridge_route
  | |- wp (get_sbridge_mac _) _ _ => rewrite wp_get_sbridge_mac
  | |- wp (upd_sbridge_mac _ _) _ _ => rewrite wp_upd_sbridge_mac
  | |- wp (get_clist _) _ _ => rewrite wp_get_clist
  | |- wp (upd_clist _ _) _ _ => rewrite wp_upd_clist
  | |- wp (get_if _) _ _ => rewrite wp_get_if
  | |- wp (new_if _ _) _ _ => rewrite wp_new_if
  | |- wp (upd_if _ _) _ _ => rewrite wp_upd_if
  | |- wp (del_if _) _ _ => rewrite wp_del_if
  | |- wp (get_rule _) _ _ => rewrite wp_get_rule
  | |- wp (new_rule _ _) _ _ => rewrite wp_new_rule
  | |- wp (upd_rule _ _) _ _ => rewrite wp_upd_rule
  | |- wp (del_rule _) _ _ => rewrite wp_del_rule
  | |- wp (get_ruleset _) _ _ => rewrite wp_get_ruleset
  | |- wp (new_ruleset _ _) _ _ => rewrite wp_new_ruleset
  | |- wp (upd_ruleset _ _) _ _ => rewrite wp_upd_ruleset
  | |- wp (del_ruleset _) _ _ => rewrite wp_del_ruleset
  | |- wp (get_broadcast _) _ _ => rewrite wp_get_broadcast
  | |- wp (new_broadcast _ _) _ _ => rewrite wp_new_broadcast
  | |- wp (upd_broadcast _ _) _ _ => rewrite wp_upd_broadcast
  | |- wp (del_broadcast _) _ _ => rewrite wp_del_broadcast
  | |- wp (get_baction _) _ _ => rewrite wp_get_baction
  | |- wp (new_baction _ _) _ _ => rewrite wp_new_baction
  | |- wp (upd_baction _ _) _ _ => rewrite wp_upd_baction
  | |- wp (del_baction _) _ _ => rewrite wp_del_baction
  end.

(** One symbolic step: accesses are resolved from the hypotheses. *)
Ltac hstep :=
  hrule; cbv beta;
  lazymatch goal with
  | |- embeds _ _ ∧ _ => split; [try done|]
  | _ => idtac
  end;
  lazymatch goal with
  | |- ∃ x, _ = Some _ ∧ _ => eexists; split; [try (simpl; simplify_map_eq; done)|]
  | |- _ = true ∧ _ => split; [try done|]
  | _ => idtac
  end.

(** ** Lists *)

Notation own s := (Store.owner (H.lists s)).

Lemma wp_on_lists {A} (m : M (gmap addr (list addr)) A) s Q a L :
  m (H.lists s) = Ok a L → Q a (H.set_lists L s) → wp (on_lists m) s Q.
Proof. intros Hm HQ. unfold wp, on_lists. by rewrite Hm. Qed.

Lemma wp_store_init e s Q :
  Store.wf (H.lists s) → Store.unlinked (H.lists s) e = true →
  Q tt (H.set_lists (<[e := []]> (H.lists s)) s) → wp (list_init e) s Q.
Proof.
  intros Hwf [Hfree He]%Store.unlinked_true HQ; [|done].
  unfold list_init, forget_freed. rewrite wp_bind, wp_modify.
  assert (default [] (H.lists s !! e) = []) as -> by (by destruct He as [-> | ->]). simpl.
  eapply wp_on_lists; [apply Store.init_spec|].
  - by apply Store.wf_delete.
  - cbn. intros k l [_ Hk]%lookup_delete_Some. by eapply Hfree.
  - left. cbn. by apply lookup_delete_eq.
  - cbn. by rewrite insert_delete_eq.
Qed.

Lemma wp_store_init_add k l e s Q :
  Store.wf (H.lists s) → Store.unlinked (H.lists s) e = true →
  H.lists s !! k = Some l → k ≠ e →
  Q tt (H.set_lists (<[k := e :: l]> (delete e (H.lists s))) s) → wp (list_init_add k e) s Q.
Proof.
  intros Hwf [??]%Store.unlinked_true Hk Hne HQ; [|done].
  eapply wp_on_lists; [by apply Store.init_add_spec|done].
Qed.

Lemma wp_store_add k l e s Q :
  Store.wf (H.lists s) → own s e = None → H.lists s !! e = Some [] →
  H.lists s !! k = Some l → k ≠ e →
  Q tt (H.set_lists (<[k := e :: l]> (delete e (H.lists s))) s) → wp (list_add k e) s Q.
Proof.
  intros Hwf Ho He Hk Hne HQ. eapply wp_on_lists; [|done].
  apply Store.add_spec; try done. intros k' l' Hk'. by eapply Store.owner_None.
Qed.

Lemma wp_store_remove k l e s Q :
  Store.wf (H.lists s) → H.lists s !! k = Some l → own s e = Some k →
  Q tt (H.set_lists (<[e := []]> (<[k := filter (.≠ e) l]> (H.lists s))) s) →
  wp (list_remove e) s Q.
Proof.
  intros Hwf Hk (l' & Hl' & Hin)%Store.owner_Some HQ; [|done]. simplify_eq.
  eapply wp_on_lists; [by eapply Store.remove_spec|done].
Qed.

Lemma set_lists_id s : H.set_lists (H.lists s) s = s.
Proof. by destruct s. Qed.

Lemma wp_empty_head e l s Q :
  H.lists s !! e = Some l → Q (bool_decide (l = [])) s → wp (is_list_empty e) s Q.
Proof.
  intros He HQ. eapply wp_on_lists; [by apply Store.is_empty_spec|]. by rewrite set_lists_id.
Qed.

Lemma wp_empty_entry e k s Q :
  Store.wf (H.lists s) → own s e = Some k → Q false s → wp (is_list_empty e) s Q.
Proof.
  intros Hwf Ho HQ. pose proof Ho as (l & Hl & Hin)%Store.owner_Some; [|done].
  destruct (H.lists s !! e) as [m|] eqn:He.
  { by rewrite (Store.owner_head _ _ _ Hwf He) in Ho. }
  eapply wp_on_lists; [by eapply Store.is_empty_entry_spec|]. by rewrite set_lists_id.
Qed.

Lemma wp_list_get h l s Q :
  H.lists s !! h = Some l → Q (fst <$> l) s → wp (list_get h) s Q.
Proof. intros Hl HQ. unfold list_get. rewrite wp_bind, wp_get, wp_bind, wp_live. eauto. Qed.

Lemma wp_foreach h l (body : ptr → M heap unit) (I : list ptr → list ptr → heap → Prop) s Q :
  H.lists s !! h = Some l →
  I [] (fst <$> l) s →
  (∀ done x rest s, (fst <$> l) = done ++ x :: rest → I done (x :: rest) s →
     wp (body x) s (λ _ s', I (done ++ [x]) rest s')) →
  (∀ s', I (fst <$> l) [] s' → Q tt s') →
  wp (foreach h body) s Q.
Proof.
  intros Hl H0 Hbody HQ. unfold foreach. rewrite wp_bind.
  eapply wp_list_get; [done|]. by eapply wp_mforeach.
Qed.

(** ** The list operations by their effect

    [linked L L' e k]: [L'] is [L] with [e] linked into the list of [k]. *)

Definition linked (L L' : gmap addr (list addr)) (k e : addr) : Prop :=
  Store.wf L' ∧ L' !! e = None ∧ (∃ l, L !! k = Some l ∧ L' !! k = Some (e :: l)) ∧
  (∀ x, x ≠ k → x ≠ e → L' !! x = L !! x) ∧
  (∀ x, Store.owner L' x = if decide (x = e) then Some k else Store.owner L x).

Definition unlinked_from (L L' : gmap addr (list addr)) (k e : addr) : Prop :=
  Store.wf L' ∧ L' !! e = Some [] ∧
  (∃ l, L !! k = Some l ∧ e ∈ l ∧ L' !! k = Some (filter (.≠ e) l)) ∧
  (∀ x, x ≠ k → x ≠ e → L' !! x = L !! x) ∧
  (∀ x, Store.owner L' x = if decide (x = e) then None else Store.owner L x).

Definition initialised (L L' : gmap addr (list addr)) (e : addr) : Prop :=
  Store.wf L' ∧ L' !! e = Some [] ∧ (∀ x, x ≠ e → L' !! x = L !! x) ∧
  (∀ x, Store.owner L' x = Store.owner L x).

Lemma wp_init e s Q :
  Store.wf (H.lists s) → Store.unlinked (H.lists s) e = true →
  (∀ L, initialised (H.lists s) L e → Q tt (H.set_lists L s)) → wp (list_init e) s Q.
Proof.
  intros Hwf Hun HQ. apply wp_store_init; [done..|]. apply HQ.
  apply Store.unlinked_true in Hun as [Hfree He]; [|done]. split_and!.
  - by apply Store.wf_insert_empty.
  - by rewrite lookup_insert_eq.
  - intros x Hx. by rewrite lookup_insert_ne.
  - intros x. by apply Store.owner_init.
Qed.

Lemma linked_intro L k l e :
  Store.wf L → Store.unlinked L e = true → L !! k = Some l → k ≠ e →
  linked L (<[k := e :: l]> (delete e L)) k e.
Proof.
  intros Hwf Hun Hk Hne. apply Store.unlinked_true in Hun as [Hfree He]; [|done]. split_and!.
  - by eapply Store.wf_insert_entry.
  - by rewrite lookup_insert_ne, lookup_delete_eq.
  - exists l. by rewrite lookup_insert_eq.
  - intros x Hx Hxe. by rewrite lookup_insert_ne, lookup_delete_ne.
  - intros x. by eapply Store.owner_insert_entry.
Qed.

Lemma wp_link k e s Q :
  Store.wf (H.lists s) → Store.unlinked (H.lists s) e = true → is_Some (H.lists s !! k) → k ≠ e →
  (∀ L, linked (H.lists s) L k e → Q tt (H.set_lists L s)) → wp (list_init_add k e) s Q.
Proof.
  intros Hwf Hun [l Hk] Hne HQ. eapply wp_store_init_add; [done..|].
  apply HQ. by apply linked_intro.
Qed.

Lemma wp_add k e s Q :
  Store.wf (H.lists s) → own s e = None → H.lists s !! e = Some [] →
  is_Some (H.lists s !! k) → k ≠ e →
  (∀ L, linked (H.lists s) L k e → Q tt (H.set_lists L s)) → wp (list_add k e) s Q.
Proof.
  intros Hwf Ho He [l Hk] Hne HQ. eapply wp_store_add; [done..|].
  apply HQ, linked_intro; [done| |done..]. unfold Store.unlinked.
  by rewrite Ho, He.
Qed.

Lemma wp_unlink k e s Q :
  Store.wf (H.lists s) → own s e = Some k →
  (∀ L, unlinked_from (H.lists s) L k e → Q tt (H.set_lists L s)) → wp (list_remove e) s Q.
Proof.
  intros Hwf Ho HQ. pose proof Ho as (l & Hk & Hin)%Store.owner_Some; [|done].
  assert (Hne : k ≠ e).
  { intros ->. by rewrite (Store.owner_head _ _ _ Hwf Hk) in Ho. }
  eapply wp_store_remove; [done..|]. apply HQ. split_and!.
  - by apply Store.wf_remove_entry.
  - by rewrite lookup_insert_eq.
  - exists l. by rewrite lookup_insert_ne, lookup_insert_eq.
  - intros x Hx Hxe. by rewrite !lookup_insert_ne.
  - intros x. by apply Store.owner_remove_entry.
Qed.

Lemma unlinked_none (L : gmap addr (list addr)) e :
  Store.owner L e = None → L !! e = None ∨ L !! e = Some [] → Store.unlinked L e = true.
Proof. intros Ho [He|He]; unfold Store.unlinked; by rewrite Ho, He. Qed.

(** Linking behind the entries [l1] of a list. *)
Definition linked_at (L L' : gmap addr (list addr)) (k e : addr) (l1 l2 : list addr) : Prop :=
  Store.wf L' ∧ L' !! e = None ∧ L' !! k = Some (l1 ++ e :: l2) ∧
  (∀ x, x ≠ k → x ≠ e → L' !! x = L !! x) ∧
  (∀ x, Store.owner L' x = if decide (x = e) then Some k else Store.owner L x).

Lemma wp_link_after k l1 l2 pos e s Q :
  Store.wf (H.lists s) → Store.unlinked (H.lists s) e = true →
  H.lists s !! k = Some (l1 ++ l2) → k ≠ e → last (k :: l1) = Some pos →
  (∀ L, linked_at (H.lists s) L k e l1 l2 → Q tt (H.set_lists L s)) →
  wp (list_init_add pos e) s Q.
Proof.
  intros Hwf Hun Hk Hne Hpos HQ. pose proof Hun as [Hfree He]%Store.unlinked_true; [|done].
  assert (Hperm : l1 ++ e :: l2 ≡ₚ e :: l1 ++ l2) by by rewrite Permutation_middle.
  apply (wp_on_lists _ _ _ tt (<[k := l1 ++ e :: l2]> (delete e (H.lists s)))).
  - destruct l1 as [|a l1 _] using rev_ind; simpl in Hpos.
    + simplify_eq/=. by apply Store.init_add_spec.
    + rewrite app_comm_cons, last_snoc in Hpos. simplify_eq. rewrite <-app_assoc in Hk |- *.
      by apply Store.init_add_after_spec.
  - apply HQ. split_and!.
    + by eapply Store.wf_insert_entry.
    + by rewrite lookup_insert_ne, lookup_delete_eq.
    + by rewrite lookup_insert_eq.
    + intros x ??. by rewrite lookup_insert_ne, lookup_delete_ne.
    + intros x. by eapply Store.owner_insert_entry.
Qed.

(** ** Fresh memory *)

(** All pointers in use are below the next one. *)
Definition bounded (s : heap) : Prop :=
  map_Forall (λ p _, (p < H.next_ptr s)%positive) (H.objs s) ∧
  map_Forall (λ k l, Forall (λ e : addr, (e.1 < H.next_ptr s)%positive) (k :: l)) (H.lists s).

Lemma bounded_fresh s p f :
  Store.wf (H.lists s) → bounded s → (H.next_ptr s ≤ p)%positive →
  H.objs s !! p = None ∧ own s (p, f) = None ∧ H.lists s !! (p, f) = None.
Proof.
  intros Hwf [Ho Hl] Hp. split_and!.
  - destruct (H.objs s !! p) eqn:E; [|done]. apply Ho in E. simpl in E. lia.
  - destruct (own s (p, f)) as [k|] eqn:E; [|done].
    apply Store.owner_Some in E as (l & Hk & Hin); [|done].
    apply Hl, Forall_cons in Hk as [_ Hk]. rewrite list.Forall_forall in Hk.
    apply Hk in Hin. simpl in Hin. lia.
  - destruct (H.lists s !! (p, f)) eqn:E; [|done]. apply Hl, Forall_cons in E as [E _].
    simpl in E. lia.
Qed.
