(* ===== verification/Model.v ===== *)
(** * The network model and its API ([netmodel/lsdn.c], [netmodel/net.c], virt rules of
    [netmodel/rules.c], settings constructors of the [netmodel/net_*.c] files)

    One definition per API call or helper. Objects are created, linked, changed and scheduled
    for deletion here; nothing reaches the kernel before [lsdn_commit]. *)

From Stdlib Require Import ZArith.
From stdpp Require Import base list gmap strings.
From S2P Require Import Prelude.
From S2P Require Import Status.
From S2P Require Import Nettypes.
From S2P Require Import Heap.
From S2P Require Import Base.

Local Open Scope Z_scope.

(** ** Object states *)

(** [renew] on the state member of an object. *)
Definition renew (st : lsdn_state) (put : lsdn_state → M heap unit) : M heap unit :=
  match renew_state st with
  | Some st' => put st'
  | None => fail AssertFailed
  end.

Definition renew_phys (p : ptr) : M heap unit :=
  o ← get_phys p; renew (Phys.state o) (λ st, upd_phys p (Phys.set_state st)).
Definition renew_virt (p : ptr) : M heap unit :=
  o ← get_virt p; renew (Virt.state o) (λ st, upd_virt p (Virt.set_state st)).

(** [free_helper]: delete at once, or leave it to the next commit. *)
Definition free_helper (st : lsdn_state) (freefn mark : M heap unit) : M heap unit :=
  if bool_decide (st = LSDN_STATE_NEW) then freefn else mark.

(** ** Virt rules *)

Definition LSDN_MAX_MATCHES : nat := 2.
Definition LSDN_MAX_MATCH_LEN : nat := 16.
Definition LSDN_VR_PRIO_MIN : Z := 0.
Definition LSDN_VR_PRIO_MAX : Z := 0x8000.
Definition LSDN_PRIO_FORWARD_DST_MAC : Z := LSDN_VR_PRIO_MAX + 1.

(** [LSDN_VR_DROP] *)
Definition LSDN_VR_DROP : lsdn_action_desc := ActionDesc (Some "drop"%string) 1 callback_drop.

Definition ht_get (dir : lsdn_direction) (v : Virt.lsdn_virt) : list (Z * ptr) :=
  match dir with LSDN_IN => Virt.ht_in_rules v | LSDN_OUT => Virt.ht_out_rules v end.
Definition ht_set (dir : lsdn_direction) (t : list (Z * ptr)) : Virt.lsdn_virt → Virt.lsdn_virt :=
  match dir with LSDN_IN => Virt.set_ht_in_rules t | LSDN_OUT => Virt.set_ht_out_rules t end.

(** [HASH_FIND] in a table keyed by [K]. *)
Definition hash_find {K} `{EqDecision K} (k : K) (t : list (K * ptr)) : option ptr :=
  snd <$> List.find (λ kv, bool_decide (kv.1 = k)) t.

(** [HASH_DELETE] of an element. *)
Definition hash_delete {K} (p : ptr) (t : list (K * ptr)) : list (K * ptr) :=
  filter (λ kv, kv.2 ≠ p) t.

(** A rule in memory that was only allocated. *)
Definition uninit_rule (s : heap) (p : ptr) : Rule.lsdn_rule :=
  Rule.mk (Env.garbage (H.env s) p) (ActionDesc None 0 callback_drop)
    (Env.garbage_word (H.env s) p) None None None.

(** [lsdn_vr_new] *)
Definition lsdn_vr_new (virt : ptr) (prio_num : Z) (dir : lsdn_direction) (a : lsdn_action_desc)
    : M heap (option ptr) :=
  _ ← assert_ (((LSDN_VR_PRIO_MIN <=? prio_num) && (prio_num <? LSDN_VR_PRIO_MAX))
               || (prio_num =? LSDN_PRIO_FORWARD_DST_MAC));
  v ← get_virt virt;
  n ← get_net (Virt.network v);
  m ← malloc;
  match m with
  | None => ret_ptr (Net.ctx n) None
  | Some vr =>
      found ← match hash_find prio_num (ht_get dir v) with
              | Some prio => mret (Some prio)
              | None =>
                  m ← malloc;
                  match m with
                  | None => mret None
                  | Some prio =>
                      _ ← put_obj prio (OVrPrio (VrPrio.mk prio_num 0 None));
                      _ ← list_init (prio, F_rules_list);
                      _ ← upd_virt virt (λ v, ht_set dir (ht_get dir v ++ [(prio_num, prio)]) v);
                      mret (Some prio)
                  end
              end;
      match found with
      | None => ret_ptr (Net.ctx n) None
      | Some prio =>
          s ← get;
          _ ← new_rule (vr, F_rule) (Rule.set_action a (uninit_rule s vr));
          _ ← put_obj vr (OVr (Vr.mk 0 LSDN_STATE_NEW false
                            (replicate LSDN_MAX_MATCHES LSDN_MATCH_NONE)
                            (replicate LSDN_MAX_MATCHES (replicate LSDN_MAX_MATCH_LEN 0))));
          _ ← list_init_add (prio, F_rules_list) (vr, F_rules_entry);
          mret (Some vr)
      end
  end.

Definition do_free_vr (vr : ptr) : M heap unit :=
  _ ← list_remove (vr, F_rules_entry);
  _ ← del_rule (vr, F_rule);
  free_obj vr.

Definition do_free_vr_prio (virt : ptr) (dir : lsdn_direction) (prio : ptr) : M heap unit :=
  _ ← foreach (prio, F_rules_list) do_free_vr;
  _ ← upd_virt virt (λ v, ht_set dir (hash_delete prio (ht_get dir v)) v);
  free_obj prio.

(** [HASH_ITER] over a table of virt rules. *)
Definition hash_iter (virt : ptr) (dir : lsdn_direction) (body : ptr → M heap unit) : M heap unit :=
  v ← get_virt virt; mforeach body (snd <$> ht_get dir v).

Definition lsdn_vr_do_free_all_rules (virt : ptr) : M heap unit :=
  _ ← hash_iter virt LSDN_IN (do_free_vr_prio virt LSDN_IN);
  v ← get_virt virt;
  _ ← assert_ (bool_decide (length (Virt.ht_in_rules v) = 0%nat));
  _ ← hash_iter virt LSDN_OUT (do_free_vr_prio virt LSDN_OUT);
  v ← get_virt virt;
  assert_ (bool_decide (length (Virt.ht_out_rules v) = 0%nat)).

Definition lsdn_vr_free (vr : ptr) : M heap unit :=
  o ← get_vr vr;
  free_helper (Vr.state o) (do_free_vr vr)
    (upd_vr vr (λ o, Vr.set_state LSDN_STATE_DELETE (Vr.set_pending_free true o))).

Definition lsdn_vrs_free_all (virt : ptr) : M heap unit :=
  _ ← hash_iter virt LSDN_IN (λ prio, foreach (prio, F_rules_list) lsdn_vr_free);
  hash_iter virt LSDN_OUT (λ prio, foreach (prio, F_rules_list) lsdn_vr_free).

(** An assignment to an element of an array of [LSDN_MAX_MATCHES] elements. *)
Definition array_set {A} (i : nat) (x : A) (l : list A) : M heap (list A) :=
  if bool_decide (i < length l)%nat then mret (<[i := x]> l) else fail OutOfBounds.

(** Overwrites the first bytes of a union. *)
Definition union_set (bytes : list Z) (u : matchdata) : matchdata :=
  bytes ++ drop (length bytes) u.

(** The common body of the [lsdn_vr_add_masked_*] functions: [value] and [mask] overwrite
    the leading bytes of the two unions at the next free position. *)
Definition vr_add_masked (target : lsdn_rule_target) (rule : ptr) (value mask : list Z)
    : M heap unit :=
  o ← get_vr rule;
  let pos := Z.to_nat (Vr.pos o) in
  _ ← upd_vr rule (Vr.set_pos (u8 (Vr.pos o + 1)));
  _ ← assert_ (bool_decide (pos < LSDN_MAX_MATCH_LEN)%nat);
  _ ← assert_ (bool_decide (Vr.state o = LSDN_STATE_NEW));
  ts ← array_set pos target (Vr.targets o);
  ms ← array_set pos (union_set mask (Vr.masks o !!! pos)) (Vr.masks o);
  _ ← upd_vr rule (λ o, Vr.set_masks ms (Vr.set_targets ts o));
  r ← get_rule (rule, F_rule);
  vs ← array_set pos (union_set value (Rule.matches r !!! pos)) (Rule.matches r);
  upd_rule (rule, F_rule) (Rule.set_matches vs).

Definition lsdn_vr_add_masked_src_mac (rule : ptr) (value mask : lsdn_mac_t) : M heap unit :=
  vr_add_masked LSDN_MATCH_SRC_MAC rule value mask.
Definition lsdn_vr_add_masked_dst_mac (rule : ptr) (value mask : lsdn_mac_t) : M heap unit :=
  vr_add_masked LSDN_MATCH_DST_MAC rule value mask.

(** The version check of the IP variants comes after the two assertions of the common body;
    all three stop the program, so their order is not observable. *)
Definition lsdn_vr_add_masked_src_ip (rule : ptr) (value mask : lsdn_ip_t) : M heap unit :=
  _ ← assert_ (bool_decide (v mask = v value));
  match v value with
  | LSDN_IPv4 => vr_add_masked LSDN_MATCH_SRC_IPV4 rule (ip_bytes value) (ip_bytes mask)
  | LSDN_IPv6 => vr_add_masked LSDN_MATCH_SRC_IPV6 rule (ip_bytes value) (ip_bytes mask)
  end.
Definition lsdn_vr_add_masked_dst_ip (rule : ptr) (value mask : lsdn_ip_t) : M heap unit :=
  _ ← assert_ (bool_decide (v mask = v value));
  match v value with
  | LSDN_IPv4 => vr_add_masked LSDN_MATCH_DST_IPV4 rule (ip_bytes value) (ip_bytes mask)
  | LSDN_IPv6 => vr_add_masked LSDN_MATCH_DST_IPV6 rule (ip_bytes value) (ip_bytes mask)
  end.

(** ** Contexts *)

(** [lsdn_context_new]; [problem_cb], [problem_count] and [inconsistent] stay uninitialised
    until [lsdn_validate] sets them. *)
Definition lsdn_context_new (name : string) : M heap (option ptr) :=
  m ← malloc;
  match m with
  | None => mret None
  | Some ctx =>
      ok ← strdup;
      if negb ok then mret None else
      _ ← put_obj ctx (OCtx (Ctx.mk name None false true None 0 false false 0 ""));
      _ ← lsdn_names_init (ctx, F_phys_names);
      _ ← lsdn_names_init (ctx, F_net_names);
      _ ← lsdn_names_init (ctx, F_setting_names);
      _ ← list_init (ctx, F_networks_list);
      _ ← list_init (ctx, F_settings_list);
      _ ← list_init (ctx, F_phys_list);
      mret (Some ctx)
  end.

Definition lsdn_context_set_overwrite (ctx : ptr) (overwrite : bool) : M heap unit :=
  upd_ctx ctx (Ctx.set_overwrite overwrite).
Definition lsdn_context_get_overwrite (ctx : ptr) : M heap bool :=
  Ctx.overwrite <$> get_ctx ctx.

Definition lsdn_context_ensure_socket (ctx : ptr) : M heap lsdn_err_t :=
  c ← get_ctx ctx;
  if Ctx.nlsock c then mret LSDNE_OK else
  s ← get;
  let ok := Env.socket_ok (H.env s) in
  _ ← upd_ctx ctx (Ctx.set_nlsock ok);
  mret (if ok then LSDNE_OK else LSDNE_NETLINK).

(** [lsdn_context_set_nomem_callback] with a context; without one ([NULL]) the callback is
    called and then the NULL pointer is dereferenced. *)
Definition lsdn_context_set_nomem_callback (ctx : option ptr) (cb : option nomem_cb_t)
    : M heap unit :=
  match ctx with
  | None => fail NullDeref
  | Some ctx => upd_ctx ctx (Ctx.set_nomem_cb cb)
  end.
Definition lsdn_context_abort_on_nomem (ctx : option ptr) : M heap unit :=
  lsdn_context_set_nomem_callback ctx (Some lsdn_abort_cb).

(** ** Settings *)

Definition lsdn_settings_register_user_hooks (settings : option ptr) (h : option user_hooks_t)
    : M heap unit :=
  match settings with
  | None => mret tt
  | Some s => upd_settings s (Settings.set_user_hooks h)
  end.

Definition lsdn_settings_set_name (s : ptr) (name : option string) : M heap lsdn_err_t :=
  o ← get_settings s;
  err ← lsdn_name_set s (Settings.ctx o, F_setting_names) name;
  ret_err (Settings.ctx o) err.

Definition lsdn_settings_get_name (s : ptr) : M heap (option string) :=
  _ ← get_settings s; get_name s.

Definition lsdn_settings_by_name (ctx : ptr) (name : option string) : M heap (option ptr) :=
  r ← lsdn_names_search (ctx, F_setting_names) name;
  match r with
  | None => mret None
  | Some s =>
      o ← get_settings s;
      mret (if bool_decide (Settings.state o = LSDN_STATE_DELETE) then None else Some s)
  end.

Definition settings_do_free (settings : ptr) : M heap unit :=
  _ ← get_settings settings;
  _ ← list_remove (settings, F_settings_entry);
  _ ← lsdn_name_free settings;
  b ← is_list_empty (settings, F_setting_users_list);
  _ ← assert_ b;
  free_obj settings.

(** [lsdn_settings_init_common]; the remaining members are set by the caller. *)
Definition lsdn_settings_init_common (settings ctx : ptr) (o : Settings.lsdn_settings)
    : M heap lsdn_err_t :=
  _ ← put_obj settings (OSettings o);
  _ ← lsdn_name_init settings;
  name ← lsdn_mk_name ctx "settings";
  err ← lsdn_name_set settings (ctx, F_setting_names) (Some name);
  if bool_decide (err ≠ LSDNE_OK) then mret err else
  _ ← list_init (settings, F_setting_users_list);
  _ ← list_init_add (ctx, F_settings_list) (settings, F_settings_entry);
  mret LSDNE_OK.

(** The body shared by the [lsdn_settings_new_*] functions. *)
Definition settings_new (ctx : ptr) (ops : lsdn_net_ops_tag) (nettype : lsdn_nettype)
    (switch_type : lsdn_switch) (port : Z) (mcast_ip : option lsdn_ip_t) : M heap (option ptr) :=
  m ← malloc;
  match m with
  | None => ret_ptr ctx None
  | Some s =>
      err ← lsdn_settings_init_common s ctx
              (Settings.mk LSDN_STATE_NEW false None ctx ops nettype switch_type port mcast_ip 0 None);
      _ ← assert_ (bool_decide (err ≠ LSDNE_DUPLICATE));
      if bool_decide (err = LSDNE_NOMEM) then
        _ ← free_obj s; ret_ptr ctx None
      else mret (Some s)
  end.

Definition lsdn_settings_new_direct (ctx : ptr) : M heap (option ptr) :=
  settings_new ctx lsdn_net_direct_ops LSDN_NET_DIRECT LSDN_LEARNING 0 None.
Definition lsdn_settings_new_vlan (ctx : ptr) : M heap (option ptr) :=
  settings_new ctx lsdn_net_vlan_ops LSDN_NET_VLAN LSDN_LEARNING 0 None.
Definition lsdn_settings_new_vxlan_mcast (ctx : ptr) (mcast_ip : lsdn_ip_t) (port : Z)
    : M heap (option ptr) :=
  let port := if bool_decide (port = 0) then 4789 else port in
  settings_new ctx lsdn_net_vxlan_mcast_ops LSDN_NET_VXLAN LSDN_LEARNING port (Some mcast_ip).
Definition lsdn_settings_new_vxlan_e2e (ctx : ptr) (port : Z) : M heap (option ptr) :=
  settings_new ctx lsdn_net_vxlan_e2e_ops LSDN_NET_VXLAN LSDN_LEARNING_E2E port None.
Definition lsdn_settings_new_vxlan_static (ctx : ptr) (port : Z) : M heap (option ptr) :=
  settings_new ctx lsdn_net_vxlan_static_ops LSDN_NET_VXLAN LSDN_STATIC_E2E port None.
Definition lsdn_settings_new_geneve (ctx : ptr) (port : Z) : M heap (option ptr) :=
  settings_new ctx lsdn_net_geneve_ops LSDN_NET_GENEVE LSDN_STATIC_E2E port None.
Definition lsdn_settings_new_geneve_e2e (ctx : ptr) (port : Z) : M heap (option ptr) :=
  settings_new ctx lsdn_net_geneve_e2e_ops LSDN_NET_GENEVE LSDN_LEARNING_E2E port None.

(** ** Attachments *)

Definition pa_do_free (a : ptr) : M heap unit :=
  o ← get_pa a;
  b ← is_list_empty (a, F_connected_virt_list);
  _ ← assert_ b;
  _ ← assert_ (negb (Pa.explicitly_attached o));
  _ ← list_remove (a, F_attached_entry);
  _ ← list_remove (a, F_attached_to_entry);
  free_obj a.

Definition free_pa_if_possible (a : ptr) : M heap unit :=
  b ← is_list_empty (a, F_connected_virt_list);
  o ← get_pa a;
  if b && negb (Pa.explicitly_attached o) then
    free_helper (Pa.state o) (pa_do_free a)
      (upd_pa a (λ o, Pa.set_state LSDN_STATE_DELETE (Pa.set_pending_free true o)))
  else mret tt.

Definition phys_detach_by_pa (a : ptr) : M heap unit :=
  _ ← upd_pa a (Pa.set_explicitly_attached false);
  free_pa_if_possible a.

(** The search of [find_or_create_attachement] and [lsdn_phys_detach]. *)
Fixpoint find_attachment (net : ptr) (l : list ptr) : M heap (option ptr) :=
  match l with
  | [] => mret None
  | a :: l => o ← get_pa a; if bool_decide (Pa.net o = net) then mret (Some a) else find_attachment net l
  end.

Definition find_or_create_attachement (phys net : ptr) : M heap (option ptr) :=
  l ← list_get (phys, F_attached_to_list);
  found ← find_attachment net l;
  match found with
  | Some a => mret (Some a)
  | None =>
      m ← malloc;
      match m with
      | None => mret None
      | Some a =>
          _ ← put_obj a (OPa (Pa.mk LSDN_STATE_NEW false net phys false));
          _ ← list_init_add (net, F_attached_list) (a, F_attached_entry);
          _ ← list_init_add (phys, F_attached_to_list) (a, F_attached_to_entry);
          _ ← list_init (a, F_connected_virt_list);
          _ ← list_init (a, F_remote_pa_list);
          _ ← list_init (a, F_pa_view_list);
          mret (Some a)
      end
  end.

Definition lsdn_phys_attach (phys net : ptr) : M heap lsdn_err_t :=
  a ← find_or_create_attachement phys net;
  n ← get_net net;
  match a with
  | None => ret_err (Net.ctx n) LSDNE_NOMEM
  | Some a =>
      o ← get_pa a;
      _ ← when (negb (Pa.explicitly_attached o)) (renew_phys phys);
      _ ← upd_pa a (Pa.set_explicitly_attached true);
      ret_err (Net.ctx n) LSDNE_OK
  end.

Definition lsdn_phys_detach (phys net : ptr) : M heap unit :=
  l ← list_get (phys, F_attached_to_list);
  found ← find_attachment net l;
  match found with
  | None => mret tt
  | Some a => phys_detach_by_pa a
  end.

(** ** Virts *)

Definition lsdn_virt_new (net : ptr) : M heap (option ptr) :=
  n ← get_net net;
  m ← malloc;
  match m with
  | None => ret_ptr (Net.ctx n) None
  | Some virt =>
      _ ← put_obj virt (OVirt (Virt.mk LSDN_STATE_NEW false None net None None None None None None None [] []));
      s ← get;
      _ ← new_rule (virt, F_policing_rule_in) (uninit_rule s virt);
      _ ← new_rule (virt, F_policing_rule_out) (uninit_rule s virt);
      _ ← lsdn_if_init (virt, F_connected_if);
      _ ← lsdn_if_init (virt, F_committed_if);
      _ ← lsdn_name_init virt;
      _ ← list_init_add (net, F_virt_list) (virt, F_virt_entry);
      _ ← list_init (virt, F_virt_view_list);
      ret_ptr (Net.ctx n) (Some virt)
  end.

Definition lsdn_virt_get_net (virt : ptr) : M heap ptr := Virt.network <$> get_virt virt.

Definition virt_do_free (virt : ptr) : M heap unit :=
  _ ← lsdn_vr_do_free_all_rules virt;
  v ← get_virt virt;
  _ ← match Virt.connected_through v with
      | None => mret tt
      | Some a =>
          _ ← list_remove (virt, F_connected_virt_entry);
          _ ← free_pa_if_possible a;
          upd_virt virt (Virt.set_connected_through None)
      end;
  _ ← list_remove (virt, F_virt_entry);
  _ ← lsdn_name_free virt;
  _ ← lsdn_if_free (virt, F_connected_if);
  _ ← lsdn_if_free (virt, F_committed_if);
  _ ← del_if (virt, F_connected_if);
  _ ← del_if (virt, F_committed_if);
  _ ← del_rule (virt, F_policing_rule_in);
  _ ← del_rule (virt, F_policing_rule_out);
  free_obj virt.

Definition lsdn_virt_free (virt : ptr) : M heap unit :=
  _ ← lsdn_vrs_free_all virt;
  v ← get_virt virt;
  free_helper (Virt.state v) (virt_do_free virt)
    (upd_virt virt (λ v, Virt.set_state LSDN_STATE_DELETE (Virt.set_pending_free true v))).

Definition lsdn_virt_set_name (virt : ptr) (name : option string) : M heap lsdn_err_t :=
  v ← get_virt virt;
  n ← get_net (Virt.network v);
  err ← lsdn_name_set virt (Virt.network v, F_virt_names) name;
  ret_err (Net.ctx n) err.

Definition lsdn_virt_get_name (virt : ptr) : M heap (option string) :=
  _ ← get_virt virt; get_name virt.

Definition lsdn_virt_by_name (net : ptr) (name : option string) : M heap (option ptr) :=
  r ← lsdn_names_search (net, F_virt_names) name;
  match r with
  | None => mret None
  | Some virt =>
      v ← get_virt virt;
      mret (if bool_decide (Virt.state v = LSDN_STATE_DELETE) then None else Some virt)
  end.

Definition lsdn_virt_disconnect (virt : ptr) : M heap unit :=
  v ← get_virt virt;
  match Virt.connected_through v with
  | None => mret tt
  | Some _ =>
      _ ← list_remove (virt, F_connected_virt_entry);
      _ ← upd_virt virt (Virt.set_connected_through None);
      renew_virt virt
  end.

Definition lsdn_virt_connect (virt phys : ptr) (iface : string) : M heap lsdn_err_t :=
  v ← get_virt virt;
  p ← get_phys phys;
  a ← find_or_create_attachement phys (Virt.network v);
  match a with
  | None => ret_err (Phys.ctx p) LSDNE_NOMEM
  | Some a =>
      err ← lsdn_if_set_name (virt, F_connected_if) iface;
      if bool_decide (err ≠ LSDNE_OK) then ret_err (Phys.ctx p) err else
      _ ← lsdn_virt_disconnect virt;
      _ ← upd_virt virt (Virt.set_connected_through (Some a));
      _ ← renew_virt virt;
      _ ← list_init_add (a, F_connected_virt_list) (virt, F_connected_virt_entry);
      ret_err (Phys.ctx p) LSDNE_OK
  end.

(** The context of a virt, for the error returns. *)
Definition virt_ctx (v : Virt.lsdn_virt) : M heap ptr :=
  n ← get_net (Virt.network v); mret (Net.ctx n).

Definition lsdn_virt_set_mac (virt : ptr) (mac : lsdn_mac_t) : M heap lsdn_err_t :=
  v ← get_virt virt;
  ctx ← virt_ctx v;
  if match Virt.attr_mac v with Some m => lsdn_mac_eq m mac | None => false end
  then ret_err ctx LSDNE_OK else
  ok ← strdup;
  if negb ok then ret_err ctx LSDNE_NOMEM else
  _ ← upd_virt virt (Virt.set_attr_mac (Some mac));
  _ ← renew_virt virt;
  ret_err ctx LSDNE_OK.

Definition lsdn_virt_clear_mac (virt : ptr) : M heap unit :=
  v ← get_virt virt;
  _ ← when (bool_decide (is_Some (Virt.attr_mac v))) (renew_virt virt);
  upd_virt virt (Virt.set_attr_mac None).

Definition lsdn_virt_get_mac (virt : ptr) : M heap (option lsdn_mac_t) :=
  Virt.attr_mac <$> get_virt virt.

Definition lsdn_virt_set_rate_in (virt : ptr) (rate : lsdn_qos_rate_t) : M heap lsdn_err_t :=
  v ← get_virt virt;
  ctx ← virt_ctx v;
  ok ← strdup;
  if negb ok then ret_err ctx LSDNE_NOMEM else
  _ ← upd_virt virt (Virt.set_attr_rate_in (Some rate));
  _ ← renew_virt virt;
  ret_err ctx LSDNE_OK.

Definition lsdn_virt_clear_rate_in (virt : ptr) : M heap unit :=
  v ← get_virt virt;
  _ ← when (match Virt.attr_rate_in v with Some _ => true | None => false end) (renew_virt virt);
  upd_virt virt (Virt.set_attr_rate_in None).

Definition lsdn_virt_get_rate_in (virt : ptr) : M heap (option lsdn_qos_rate_t) :=
  Virt.attr_rate_in <$> get_virt virt.

Definition lsdn_virt_set_rate_out (virt : ptr) (rate : lsdn_qos_rate_t) : M heap lsdn_err_t :=
  v ← get_virt virt;
  ctx ← virt_ctx v;
  ok ← strdup;
  if negb ok then ret_err ctx LSDNE_NOMEM else
  _ ← upd_virt virt (Virt.set_attr_rate_out (Some rate));
  _ ← renew_virt virt;
  ret_err ctx LSDNE_OK.

Definition lsdn_virt_clear_rate_out (virt : ptr) : M heap unit :=
  v ← get_virt virt;
  _ ← when (match Virt.attr_rate_out v with Some _ => true | None => false end) (renew_virt virt);
  upd_virt virt (Virt.set_attr_rate_out None).

Definition lsdn_virt_get_rate_out (virt : ptr) : M heap (option lsdn_qos_rate_t) :=
  Virt.attr_rate_out <$> get_virt virt.

(** ** Networks *)

Definition lsdn_net_new (s : ptr) (vnet_id : Z) : M heap (option ptr) :=
  o ← get_settings s;
  m ← malloc;
  match m with
  | None => ret_ptr (Settings.ctx o) None
  | Some net =>
      _ ← put_obj net (ONet (Net.mk LSDN_STATE_NEW false None (Settings.ctx o) s (u32 vnet_id)));
      _ ← lsdn_name_init net;
      _ ← lsdn_names_init (net, F_virt_names);
      _ ← list_init_add (s, F_setting_users_list) (net, F_settings_users_entry);
      _ ← list_init_add (Settings.ctx o, F_networks_list) (net, F_networks_entry);
      _ ← list_init (net, F_attached_list);
      _ ← list_init (net, F_virt_list);
      ret_ptr (Settings.ctx o) (Some net)
  end.

Definition net_do_free (net : ptr) : M heap unit :=
  _ ← get_net net;
  b ← is_list_empty (net, F_attached_list);
  _ ← assert_ b;
  b ← is_list_empty (net, F_virt_list);
  _ ← assert_ b;
  _ ← list_remove (net, F_networks_entry);
  _ ← list_remove (net, F_settings_users_entry);
  _ ← lsdn_name_free net;
  _ ← lsdn_names_free (net, F_virt_names);
  free_obj net.

Definition lsdn_net_free (net : ptr) : M heap unit :=
  _ ← foreach (net, F_virt_list) lsdn_virt_free;
  _ ← foreach (net, F_attached_list) phys_detach_by_pa;
  n ← get_net net;
  free_helper (Net.state n) (net_do_free net)
    (upd_net net (λ n, Net.set_state LSDN_STATE_DELETE (Net.set_pending_free true n))).

Definition lsdn_net_set_name (net : ptr) (name : option string) : M heap lsdn_err_t :=
  n ← get_net net;
  err ← lsdn_name_set net (Net.ctx n, F_net_names) name;
  ret_err (Net.ctx n) err.

Definition lsdn_net_get_name (net : ptr) : M heap (option string) :=
  _ ← get_net net; get_name net.

Definition lsdn_net_by_name (ctx : ptr) (name : option string) : M heap (option ptr) :=
  r ← lsdn_names_search (ctx, F_net_names) name;
  match r with
  | None => mret None
  | Some net =>
      n ← get_net net;
      mret (if bool_decide (Net.state n = LSDN_STATE_DELETE) then None else Some net)
  end.

(** [lsdn_settings_free] *)
Definition lsdn_settings_free (settings : ptr) : M heap unit :=
  _ ← foreach (settings, F_setting_users_list) lsdn_net_free;
  o ← get_settings settings;
  free_helper (Settings.state o) (settings_do_free settings)
    (upd_settings settings
       (λ o, Settings.set_state LSDN_STATE_DELETE (Settings.set_pending_free true o))).

(** ** Physes *)

Definition lsdn_phys_new (ctx : ptr) : M heap (option ptr) :=
  m ← malloc;
  match m with
  | None => ret_ptr ctx None
  | Some phys =>
      _ ← put_obj phys (OPhys (Phys.mk LSDN_STATE_NEW false None ctx false false None None));
      _ ← lsdn_name_init phys;
      name ← lsdn_mk_name ctx "phys";
      err ← lsdn_name_set phys (ctx, F_phys_names) (Some name);
      _ ← assert_ (bool_decide (err ≠ LSDNE_DUPLICATE));
      if bool_decide (err = LSDNE_NOMEM) then
        _ ← free_obj phys; ret_ptr ctx None
      else
      _ ← list_init_add (ctx, F_phys_list) (phys, F_phys_entry);
      _ ← list_init (phys, F_attached_to_list);
      ret_ptr ctx (Some phys)
  end.

Definition phys_do_free (phys : ptr) : M heap unit :=
  _ ← get_phys phys;
  _ ← list_remove (phys, F_phys_entry);
  _ ← lsdn_name_free phys;
  free_obj phys.

Definition lsdn_phys_free (phys : ptr) : M heap unit :=
  _ ← foreach (phys, F_attached_to_list) (λ pa,
        _ ← foreach (pa, F_connected_virt_list) lsdn_virt_disconnect;
        phys_detach_by_pa pa);
  p ← get_phys phys;
  free_helper (Phys.state p) (phys_do_free phys)
    (upd_phys phys (λ p, Phys.set_state LSDN_STATE_DELETE (Phys.set_pending_free true p))).

Definition lsdn_phys_set_name (phys : ptr) (name : option string) : M heap lsdn_err_t :=
  p ← get_phys phys;
  err ← lsdn_name_set phys (Phys.ctx p, F_phys_names) name;
  ret_err (Phys.ctx p) err.

Definition lsdn_phys_get_name (phys : ptr) : M heap (option string) :=
  _ ← get_phys phys; get_name phys.

Definition lsdn_phys_by_name (ctx : ptr) (name : option string) : M heap (option ptr) :=
  r ← lsdn_names_search (ctx, F_phys_names) name;
  match r with
  | None => mret None
  | Some phys =>
      p ← get_phys phys;
      mret (if bool_decide (Phys.state p = LSDN_STATE_DELETE) then None else Some phys)
  end.

Definition lsdn_phys_set_iface (phys : ptr) (iface : string) : M heap lsdn_err_t :=
  p ← get_phys phys;
  ok ← strdup;
  if negb ok then ret_err (Phys.ctx p) LSDNE_NOMEM else
  _ ← when (bool_decide (Phys.attr_iface p ≠ Some iface)) (renew_phys phys);
  _ ← upd_phys phys (Phys.set_attr_iface (Some iface));
  ret_err (Phys.ctx p) LSDNE_OK.

Definition lsdn_phys_clear_iface (phys : ptr) : M heap unit :=
  p ← get_phys phys;
  _ ← when (bool_decide (is_Some (Phys.attr_iface p))) (renew_phys phys);
  upd_phys phys (Phys.set_attr_iface None).

Definition lsnd_phys_get_iface (phys : ptr) : M heap (option string) :=
  Phys.attr_iface <$> get_phys phys.

Definition lsdn_phys_set_ip (phys : ptr) (ip : lsdn_ip_t) : M heap lsdn_err_t :=
  p ← get_phys phys;
  ok ← strdup;
  if negb ok then ret_err (Phys.ctx p) LSDNE_NOMEM else
  _ ← when (match Phys.attr_ip p with Some ip' => negb (lsdn_ip_eq ip ip') | None => true end)
        (renew_phys phys);
  _ ← upd_phys phys (Phys.set_attr_ip (Some ip));
  ret_err (Phys.ctx p) LSDNE_OK.

Definition lsdn_phys_clear_ip (phys : ptr) : M heap unit :=
  p ← get_phys phys;
  _ ← when (bool_decide (is_Some (Phys.attr_ip p))) (renew_phys phys);
  upd_phys phys (Phys.set_attr_ip None).

Definition lsdn_phys_get_ip (phys : ptr) : M heap (option lsdn_ip_t) :=
  Phys.attr_ip <$> get_phys phys.

Definition lsdn_phys_claim_local (phys : ptr) : M heap lsdn_err_t :=
  p ← get_phys phys;
  _ ← when (negb (Phys.is_local p))
        (_ ← renew_phys phys; upd_phys phys (Phys.set_is_local true));
  mret LSDNE_OK.

Definition lsdn_phys_unclaim_local (phys : ptr) : M heap lsdn_err_t :=
  p ← get_phys phys;
  _ ← when (Phys.is_local p)
        (_ ← renew_phys phys; upd_phys phys (Phys.set_is_local false));
  mret LSDNE_OK.
