(* ===== verification/Nl.v ===== *)
(** * Kernel requests ([netmodel/nl.c])

    The messages as requests: links, forwarding entries, qdiscs and tc filters with their
    actions. The kernel is the pair of functions [kernel_ack] and [if_nametoindex] of the
    environment: it acknowledges a request or refuses it, and finds an interface by its name,
    depending on all requests before. *)

From Stdlib Require Import ZArith.
From stdpp Require Import base list gmap strings.
From S2P Require Import Prelude.
From S2P Require Import Float.
From S2P Require Import Status.
From S2P Require Import Nettypes.
From S2P Require Import Heap.
From S2P Require Import Base.

Local Open Scope Z_scope.

Definition LSDN_INGRESS_HANDLE : Z := 0xffff0000.
Definition LSDN_ROOT_HANDLE : Z := 0x00010000.
Definition LSDN_DEFAULT_CHAIN : Z := 0.
(** The protocol of every packet, of the kernel headers. *)
Definition ETH_P_ALL : Z := 0x0003.
(** The mark of packets that came in through a tunnel (lbridge.c). *)
Definition INGRESS_MARK : Z := 1.

(** [send_await_response] on the socket of a context. *)
Definition send_await_response (ctx : ptr) (r : request) : M heap lsdn_err_t :=
  c ← get_ctx ctx;
  _ ← deref (if Ctx.nlsock c then Some tt else None);
  s ← get;
  let ok := Env.kernel_ack (H.env s) (H.trace s) r in
  _ ← modify (H.set_trace (H.trace s ++ [(r, ok)]));
  mret (if ok then LSDNE_OK else LSDNE_NETLINK).

(** ** Links *)

(** [if_nametoindex] of the C library: 0 is the answer for an unknown name. *)
Definition if_nametoindex (name : string) : M heap Z :=
  gets (λ s, Env.if_nametoindex (H.env s) (H.trace s) name).

Definition lsdn_link_delete (ctx : ptr) (iface : addr) : M heap lsdn_err_t :=
  i ← get_if iface; send_await_response ctx (ReqLinkDelete (If.ifindex i)).

(** [cleanup_link]: the handle of the old interface is a local variable. *)
Definition cleanup_link (ctx : ptr) (linkname : string) (overwrite : bool) : M heap lsdn_err_t :=
  if overwrite then
    ifindex ← if_nametoindex linkname;
    if bool_decide (ifindex = 0) then mret LSDNE_OK
    else send_await_response ctx (ReqLinkDelete ifindex)
  else mret LSDNE_OK.

(** [link_create_send], with the message that [link_create_header] or the caller composed. *)
Definition link_create_send (ctx : ptr) (kind : link_kind) (if_name : string) (dst_if : addr)
    : M heap lsdn_err_t :=
  err ← send_await_response ctx (ReqLinkCreate if_name kind);
  if bool_decide (err ≠ LSDNE_OK) then mret err else
  _ ← lsdn_if_init dst_if;
  err ← lsdn_if_set_name dst_if if_name;
  if bool_decide (err ≠ LSDNE_OK) then mret err else
  lsdn_if_resolve dst_if.

Definition lsdn_link_dummy_create (ctx : ptr) (dst_if : addr) (if_name : string) (overwrite : bool)
    : M heap lsdn_err_t :=
  err ← cleanup_link ctx if_name overwrite;
  if bool_decide (err ≠ LSDNE_OK) then mret err else
  link_create_send ctx LinkDummy if_name dst_if.

Definition lsdn_link_vlan_create (ctx : ptr) (dst_if : addr) (if_name vlan_name : string)
    (vlanid : Z) (overwrite : bool) : M heap lsdn_err_t :=
  ifindex ← if_nametoindex if_name;
  err ← cleanup_link ctx vlan_name overwrite;
  if bool_decide (err ≠ LSDNE_OK) then mret err else
  link_create_send ctx (LinkVlan ifindex (u16 vlanid)) vlan_name dst_if.

Definition dummy_ipv6_mcast : lsdn_ip_t := Ip LSDN_IPv6 (replicate 16 0).

Definition lsdn_link_vxlan_create (ctx : ptr) (dst_if : addr) (if_name : option string)
    (vxlan_name : string) (mcast_group : option lsdn_ip_t) (vxlanid port : Z)
    (learning collect_metadata : bool) (ipv : lsdn_ipv) (overwrite : bool) : M heap lsdn_err_t :=
  ifindex ← match if_name with Some n => if_nametoindex n | None => mret 0 end;
  err ← cleanup_link ctx vxlan_name overwrite;
  if bool_decide (err ≠ LSDNE_OK) then mret err else
  let group := match mcast_group, ipv with
               | Some g, _ => Some g
               | None, LSDN_IPv6 => Some dummy_ipv6_mcast
               | None, LSDN_IPv4 => None
               end in
  link_create_send ctx
    (LinkVxlan ((λ _, ifindex) <$> if_name) ifindex (u32 vxlanid) (u16 port) learning
       collect_metadata group) vxlan_name dst_if.

Definition lsdn_link_geneve_create (ctx : ptr) (dst_if : addr) (new_if : string) (port : Z)
    (collect_metadata overwrite : bool) : M heap lsdn_err_t :=
  err ← cleanup_link ctx new_if overwrite;
  if bool_decide (err ≠ LSDNE_OK) then mret err else
  link_create_send ctx
    (LinkGeneve (if u16 port =? 0 then None else Some (u16 port)) collect_metadata) new_if dst_if.

Definition lsdn_link_bridge_create (ctx : ptr) (dst_if : addr) (if_name : string) (overwrite : bool)
    : M heap lsdn_err_t :=
  err ← cleanup_link ctx if_name overwrite;
  if bool_decide (err ≠ LSDNE_OK) then mret err else
  link_create_send ctx LinkBridge if_name dst_if.

(** The peer's handle is set up only if the pair was created. *)
Definition lsdn_link_veth_create (ctx : ptr) (if1 : addr) (if_name1 : string) (if2 : addr)
    (if_name2 : string) : M heap lsdn_err_t :=
  err ← link_create_send ctx (LinkVeth if_name2) if_name1 if1;
  if bool_decide (err ≠ LSDNE_OK) then mret err else
  err ← lsdn_if_set_name if2 if_name2;
  if bool_decide (err ≠ LSDNE_OK) then mret err else
  lsdn_if_resolve if2.

Definition lsdn_link_set_master (ctx : ptr) (master slave : Z) : M heap lsdn_err_t :=
  send_await_response ctx (ReqLinkMaster master slave).

Definition lsdn_link_set (ctx : ptr) (ifindex : Z) (up : bool) : M heap lsdn_err_t :=
  send_await_response ctx (ReqLinkSet ifindex up).

Definition lsdn_link_set_ip (ctx : ptr) (iface : string) (ip : lsdn_ip_t) : M heap lsdn_err_t :=
  ifindex ← if_nametoindex iface;
  send_await_response ctx (ReqAddrSet ifindex ip).

Definition lsdn_fdb_add_entry (ctx : ptr) (ifindex : Z) (mac : lsdn_mac_t) (ip : lsdn_ip_t)
    : M heap lsdn_err_t :=
  send_await_response ctx (ReqFdbAdd ifindex mac ip).

Definition lsdn_fdb_remove_entry (ctx : ptr) (ifindex : Z) (mac : lsdn_mac_t) (ip : lsdn_ip_t)
    : M heap lsdn_err_t :=
  send_await_response ctx (ReqFdbRemove ifindex mac ip).

(** ** Filters *)

(** [filter_init]: two allocations; the priority is 16 bits wide. *)
Definition filter_init (kind : filter_kind) (ifindex handle parent chain prio : Z)
    : M heap (option lsdn_filter) :=
  ok ← try_alloc;
  if negb ok then mret None else
  ok ← try_alloc;
  if negb ok then mret None else
  mret (Some (Filter kind ifindex handle parent chain (u16 prio) false [] [])).

Definition lsdn_filter_flower_init := filter_init FilterFlower.
Definition lsdn_filter_fw_init := filter_init FilterFw.

Definition lsdn_filter_set_update (f : lsdn_filter) : lsdn_filter :=
  Filter (f_kind f) (f_ifindex f) (f_handle f) (f_parent f) (f_chain f) (f_prio f) true (f_opts f)
    (f_acts f).

Definition add_opt (o : flower_opt) (f : lsdn_filter) : lsdn_filter :=
  Filter (f_kind f) (f_ifindex f) (f_handle f) (f_parent f) (f_chain f) (f_prio f) (f_update f)
    (f_opts f ++ [o]) (f_acts f).
Definition add_acts (a : list (Z * tc_action)) (f : lsdn_filter) : lsdn_filter :=
  Filter (f_kind f) (f_ifindex f) (f_handle f) (f_parent f) (f_chain f) (f_prio f) (f_update f)
    (f_opts f) (f_acts f ++ a).

Definition lsdn_filter_create (ctx : ptr) (f : lsdn_filter) : M heap lsdn_err_t :=
  send_await_response ctx (ReqFilterCreate f).

Definition lsdn_filter_delete (ctx : ptr) (ifindex handle parent chain prio : Z)
    : M heap lsdn_err_t :=
  send_await_response ctx (ReqFilterDelete ifindex handle parent chain (u16 prio)).

(** Deleting a qdisc ignores the answer. *)
Definition lsdn_qdisc_egress_delete (ctx : ptr) (ifindex : Z) : M heap lsdn_err_t :=
  _ ← send_await_response ctx (ReqQdiscDelete false ifindex); mret LSDNE_OK.
Definition lsdn_qdisc_ingress_delete (ctx : ptr) (ifindex : Z) : M heap lsdn_err_t :=
  _ ← send_await_response ctx (ReqQdiscDelete true ifindex); mret LSDNE_OK.

Definition lsdn_qdisc_ingress_create (ctx : ptr) (ifindex : Z) (overwrite : bool)
    : M heap lsdn_err_t :=
  err ← (if overwrite then lsdn_qdisc_ingress_delete ctx ifindex else mret LSDNE_OK);
  if bool_decide (err ≠ LSDNE_OK) then mret err else
  send_await_response ctx (ReqQdiscCreate true ifindex).
Definition lsdn_qdisc_egress_create (ctx : ptr) (ifindex : Z) (overwrite : bool)
    : M heap lsdn_err_t :=
  err ← (if overwrite then lsdn_qdisc_egress_delete ctx ifindex else mret LSDNE_OK);
  if bool_decide (err ≠ LSDNE_OK) then mret err else
  send_await_response ctx (ReqQdiscCreate false ifindex).

(** ** Actions *)

Definition lsdn_action_drop (order : Z) : Z * tc_action := (order, TcDrop).
Definition lsdn_action_redir_ingress_add (order ifindex : Z) : Z * tc_action :=
  (order, TcMirred TC_ACT_STOLEN TCA_INGRESS_REDIR ifindex).
Definition lsdn_action_mirror_ingress_add (order ifindex : Z) : Z * tc_action :=
  (order, TcMirred TC_ACT_PIPE TCA_INGRESS_REDIR ifindex).
Definition lsdn_action_redir_egress_add (order ifindex : Z) : Z * tc_action :=
  (order, TcMirred TC_ACT_STOLEN TCA_EGRESS_REDIR ifindex).
Definition lsdn_action_mirror_egress_add (order ifindex : Z) : Z * tc_action :=
  (order, TcMirred TC_ACT_PIPE TCA_EGRESS_REDIR ifindex).
Definition lsdn_action_goto_chain (order chain : Z) : Z * tc_action :=
  (order, TcGotoChain (Z.land chain 0x0fffffff)).
Definition lsdn_action_skbmark (order mark : Z) : Z * tc_action := (order, TcSkbMark order mark).
Definition lsdn_action_set_tunnel_key (order vni : Z) (src_ip dst_ip : lsdn_ip_t) : Z * tc_action :=
  (order, TcTunnelKey vni
            (negb (bool_decide (v src_ip = LSDN_IPv4) && bool_decide (v dst_ip = LSDN_IPv4)))
            src_ip dst_ip).

(** [rates_action] of lsdn.c polices with an MTU of 0xFFFF and continues; the rates become
    32-bit integers, towards zero. *)
Definition rates_action (order : Z) (rate : option lsdn_qos_rate_t) : M heap (list (Z * tc_action)) :=
  r ← deref rate;
  mret [(order, TcPolice (convert_u32 (avg_rate r)) (burst_size r) (convert_u32 (burst_rate r)) 0xFFFF);
        (order + 1, TcContinue)].

(** [set_vxlan_metadata] and [set_geneve_metadata]. *)
Definition set_metadata (pa : ptr) (order : Z) : M heap (Z * tc_action) :=
  x ← get_rpa pa;
  local ← get_pa (Rpa.local x);
  n ← get_net (Pa.net local);
  p ← get_phys (Pa.phys local);
  src ← deref (Phys.attr_ip p);
  remote ← get_pa (Rpa.remote x);
  q ← get_phys (Pa.phys remote);
  dst ← deref (Phys.attr_ip q);
  mret (lsdn_action_set_tunnel_key order (Net.vnet_id n) src dst).

(** The actions of a route's tunnel, if it has a callback. *)
Definition tunnel_actions (d : tunnel_desc) (order : Z) : M heap (list (Z * tc_action)) :=
  match t_fn d with
  | None => mret []
  | Some (set_vxlan_metadata pa | set_geneve_metadata pa) => a ← set_metadata pa order; mret [a]
  end.
Definition tunnel_order (d : tunnel_desc) (order : Z) : Z :=
  match t_fn d with None => order | Some _ => order + t_actions_count d end.

(** [route->iface->phys_if->iface->ifindex] *)
Definition route_ifindex (r : SbridgeRoute.lsdn_sbridge_route) : M heap Z :=
  iface ← live (SbridgeRoute.iface r);
  x ← get_sbridge_if iface;
  p ← get_phys_if (SbridgeIf.phys_if x);
  i ← get_if (PhysIf.iface p);
  mret (If.ifindex i).

(** The actions of a callback ([lsdn_mkaction_fn]) at a given order. *)
Definition run_action (a : mkaction) (order : Z) : M heap (list (Z * tc_action)) :=
  match a with
  | callback_drop => mret [lsdn_action_drop order]
  | rates_action_in virt => v ← get_virt virt; rates_action order (Virt.attr_rate_in v)
  | rates_action_out virt => v ← get_virt virt; rates_action order (Virt.attr_rate_out v)
  | if_br_mkaction action =>
      x ← get_br_action action;
      r ← get_sbridge_route (BrAction.route x);
      acts ← tunnel_actions (SbridgeRoute.tunnel_action r) order;
      i ← route_ifindex r;
      mret (acts ++ [lsdn_action_mirror_egress_add
                       (tunnel_order (SbridgeRoute.tunnel_action r) order) i])
  | br_forward_mkaction fwdr =>
      x ← get_fwd_rule fwdr;
      m ← get_sbridge_mac (FwdRule.mac x);
      r ← get_sbridge_route (SbridgeMac.route m);
      acts ← tunnel_actions (SbridgeRoute.tunnel_action r) order;
      i ← route_ifindex r;
      mret (acts ++ [lsdn_action_redir_egress_add
                       (tunnel_order (SbridgeRoute.tunnel_action r) order) i])
  | mkaction_goto_br_chain iface =>
      b ← get_broadcast (iface.1, F_broadcast);
      mret [lsdn_action_goto_chain order (Broadcast.chain b)]
  | mkaction_goto_switch iface =>
      x ← get_sbridge_if iface;
      br ← live (SbridgeIf.bridge x);
      i ← get_if (br.1, F_sbridge_bridge_if);
      mret [lsdn_action_redir_ingress_add order (If.ifindex i)]
  | encap_redir_mkaction route =>
      x ← get_lbridge_route route;
      acts ← tunnel_actions (LbridgeRoute.tunnel_action x) order;
      p ← get_phys_if (LbridgeRoute.phys_if x);
      i ← get_if (PhysIf.iface p);
      mret (acts ++ [lsdn_action_redir_egress_add
                       (tunnel_order (LbridgeRoute.tunnel_action x) order) (If.ifindex i)])
  | ingress_redir_mkaction route =>
      i ← get_if (route.1, F_dummy_if);
      mret [lsdn_action_skbmark order INGRESS_MARK;
            lsdn_action_redir_ingress_add (order + 1) (If.ifindex i)]
  end.

(** Actions numbered from [order]. *)
Fixpoint orders (order : Z) (acts : list tc_action) : list (Z * tc_action) :=
  match acts with
  | [] => []
  | a :: acts => (order, a) :: orders (order + 1) acts
  end.
