(* ===== verification/Actions.v ===== *)
(** * The actions of callbacks

    A callback that adds actions to a filter ([lsdn_mkaction_fn]) only reads memory, and only
    memory that the rules engine and the broadcasts leave alone, so that what it adds does not
    change while rules are added and removed. *)

From Stdlib Require Import ZArith.
From stdpp Require Import base list gmap strings.
From S2P Require Import Prelude.
From S2P Require Import Nettypes.
From S2P Require Import Heap.
From S2P Require Import Base.
From S2P Require Import Nl.

Local Open Scope Z_scope.

(** ** What the engine keeps *)

(** The objects that belong to the rules engine and to the broadcasts. *)
Definition engine_obj (o : obj) : bool :=
  match o with ORsPrio _ | OFlower _ | OBFilter _ => true | _ => false end.

Record kept (s s' : heap) : Prop := {
  kept_ifs : H.ifs s' = H.ifs s;
  kept_structs : H.structs s' = H.structs s;
  kept_chains b : Broadcast.chain <$> H.broadcasts s' !! b = Broadcast.chain <$> H.broadcasts s !! b;
  kept_objs p o : H.objs s !! p = Some o → engine_obj o = false → H.objs s' !! p = Some o }.

Global Instance kept_preorder : PreOrder kept.
Proof.
  split.
  - by intros s.
  - intros s1 s2 s3 [Hi Hs Hb Ho] [Hi' Hs' Hb' Ho']. split; [congruence..| |eauto].
    intros b. by rewrite Hb', Hb.
Qed.

(** Everything but the objects is the same. *)
Lemma kept_same s s' :
  H.ifs s' = H.ifs s → H.structs s' = H.structs s → H.broadcasts s' = H.broadcasts s →
  (∀ p o, H.objs s !! p = Some o → engine_obj o = false → H.objs s' !! p = Some o) → kept s s'.
Proof. intros ?? Hb ?. split; [done..| |done]. intros b. by rewrite Hb. Qed.

(** ** Readers *)

(** [m] changes nothing, and answers the same wherever the engine worked meanwhile. *)
Definition reader {A} (m : M heap A) : Prop := ∀ s a s',
  m s = Ok a s' → s' = s ∧ ∀ s2, kept s s2 → m s2 = Ok a s2.

Create HintDb reader.

Lemma reader_ret {A} (a : A) : reader (mret a).
Proof. by intros s b s' [= <- <-]. Qed.
Lemma reader_bind {A B} (m : M heap A) (f : A → M heap B) :
  reader m → (∀ a, reader (f a)) → reader (m ≫= f).
Proof.
  intros Hm Hf s b s'. unfold mbind, M_bind. destruct (m s) as [a s1|] eqn:E; [|done].
  destruct (Hm _ _ _ E) as [-> Hk]. intros [-> Hk']%Hf. split; [done|].
  intros s2 Hs2. rewrite Hk by done. by apply Hk'.
Qed.
Lemma reader_deref {A} (o : option A) : reader (deref o).
Proof. destruct o; [apply reader_ret|done]. Qed.
Lemma reader_live {A} (o : option A) : reader (live o).
Proof. destruct o; [apply reader_ret|done]. Qed.
#[export] Hint Resolve reader_ret reader_deref reader_live : reader.
#[export] Hint Extern 1 (reader (mbind _ _)) => apply reader_bind; [|intros ?] : reader.

Lemma reader_get_if p : reader (get_if p).
Proof.
  intros s a s'. unfold get_if, mbind, M_bind, get. destruct (H.ifs s !! p) as [x|] eqn:E; [|done].
  intros [= <- <-]. split; [done|]. intros s2 Hk. by rewrite (kept_ifs _ _ Hk), E.
Qed.

(** An object of one type, none of the engine's. *)
Lemma reader_get_obj {A} (as_x : obj → option A) p :
  (∀ o, engine_obj o = true → as_x o = None) → reader (o ← get_obj p; live (as_x o)).
Proof.
  intros Has s a s'. unfold get_obj, mbind, M_bind, get.
  destruct (H.objs s !! p) as [o|] eqn:E; [|done]. simpl.
  destruct (as_x o) as [x|] eqn:Ex; [|done]. intros [= <- <-]. split; [done|]. intros s2 Hk.
  rewrite (kept_objs _ _ Hk p o E); simpl; [by rewrite Ex|].
  destruct (engine_obj o) eqn:Eo; [|done]. by rewrite Has in Ex.
Qed.

Lemma reader_get_struct p : reader (get_struct p).
Proof.
  apply reader_bind; [by apply reader_get_obj; intros []|]. intros [] s a s'.
  unfold mbind, M_bind, get. destruct (H.structs s !! p) as [x|] eqn:E; [|done].
  intros [= <- <-]. split; [done|]. intros s2 Hk. by rewrite (kept_structs _ _ Hk), E.
Qed.
#[export] Hint Resolve reader_get_if reader_get_struct : reader.
#[export] Hint Extern 2 (reader (o ← get_obj _; live _)) =>
  apply reader_get_obj; by intros [] : reader.

(** Of a broadcast only the chain is read. *)
Lemma reader_chain {A} b (f : Z → A) : reader (x ← get_broadcast b; mret (f (Broadcast.chain x))).
Proof.
  intros s a s'. unfold get_broadcast, mbind, M_bind, get.
  destruct (H.broadcasts s !! b) as [x|] eqn:E; [|done].
  intros [= <- <-]. split; [done|]. intros s2 Hk.
  pose proof (kept_chains _ _ Hk b) as Hb. rewrite E in Hb.
  apply fmap_Some in Hb as (y & -> & Hy). simpl in *. unfold mret, M_ret. by rewrite Hy.
Qed.

Ltac reader :=
  repeat first
    [ progress eauto with reader
    | apply reader_get_obj; by intros []
    | apply reader_bind; [|intros ?] ].

Lemma reader_tunnel d order : reader (tunnel_actions d order).
Proof. unfold tunnel_actions, set_metadata. destruct (t_fn d) as [[]|]; reader. Qed.
Lemma reader_route r : reader (route_ifindex r).
Proof. unfold route_ifindex; reader. Qed.
#[export] Hint Resolve reader_tunnel reader_route : reader.

Lemma run_action_reader a order : reader (run_action a order).
Proof.
  destruct a; simpl; try apply (reader_chain _ (λ c, [lsdn_action_goto_chain order c]));
    unfold rates_action; reader.
Qed.

Lemma run_action_state s s' a order acts : run_action a order s = Ok acts s' → s' = s.
Proof. intros H. by apply run_action_reader in H as [-> _]. Qed.
Lemma run_action_frame s s' a order acts :
  kept s s' → run_action a order s = Ok acts s → run_action a order s' = Ok acts s'.
Proof. intros Hk H. apply run_action_reader in H as [_ H]. by apply H. Qed.

(** ** Callbacks that can run *)

(** The callback of an action can run: everything it reads is there. *)
Definition act_live (s : heap) (a : mkaction) : Prop := ∀ order, ∃ acts, run_action a order s = Ok acts s.

Lemma act_live_frame s s' a : kept s s' → act_live s a → act_live s' a.
Proof.
  intros Hk Ha order. destruct (Ha order) as [acts Hacts]. exists acts.
  by apply (run_action_frame s).
Qed.
