(* ===== verification/Rules.v ===== *)
(** * The rules engine ([netmodel/rules.c], rulesets; [netmodel/net.c])

    A ruleset is a set of rules on one interface, organised by priorities. The rules of one
    priority that match the same (masked) data are merged into one flower filter of the
    kernel, their actions ordered by subpriority. *)

From Stdlib Require Import ZArith.
From stdpp Require Import base list gmap.
From S2P Require Import Prelude.
From S2P Require Import Status.
From S2P Require Import IdAlloc.
From S2P Require Import Nettypes.
From S2P Require Import Heap.
From S2P Require Import Base.
From S2P Require Import Model.
From S2P Require Import Nl.

Local Open Scope Z_scope.

Definition LSDN_MAX_ACT_PRIO : Z := 32.
Definition LSDN_IF_PRIO_POLICING : Z := 0xFF00.
Definition LSDN_VR_SUBPRIO : Z := 0.

Definition ETH_P_IP : Z := 0x0800.
Definition ETH_P_IPV6 : Z := 0x86DD.

Definition zero_matchdata : matchdata := replicate LSDN_MAX_MATCH_LEN 0.

(** [lsdn_action_init] *)
Definition lsdn_action_init (rule : addr) (count : Z) (f : mkaction) : M heap unit :=
  upd_rule rule (λ r, Rule.set_action (ActionDesc (a_name (Rule.action r)) count f) r).

Definition lsdn_ruleset_init (ruleset : addr) (ctx : ptr) (iface : addr)
    (parent_handle chain prio_start : Z) : M heap unit :=
  new_ruleset ruleset (Ruleset.mk iface ctx parent_handle chain prio_start []).

Definition lsdn_target_supports_masking (t : lsdn_rule_target) : bool :=
  match t with
  | LSDN_MATCH_NONE | LSDN_MATCH_ENC_KEY_ID => false
  | _ => true
  end.

Definition lsdn_ruleset_define_prio (rs : addr) (main : Z) : M heap (option ptr) :=
  r ← get_ruleset rs;
  match hash_find main (Ruleset.hash_prios r) with
  | Some _ => mret None
  | None =>
      m ← malloc;
      match m with
      | None => mret None
      | Some p =>
          _ ← put_obj p (ORsPrio (RsPrio.mk main (replicate LSDN_MAX_MATCHES LSDN_MATCH_NONE)
                 (replicate LSDN_MAX_MATCHES zero_matchdata) rs (lsdn_idalloc_init 1 0xFFFF) []));
          _ ← upd_ruleset rs (λ r, Ruleset.set_hash_prios (Ruleset.hash_prios r ++ [(main, p)]) r);
          mret (Some p)
      end
  end.

Definition lsdn_ruleset_get_prio (rs : addr) (main : Z) : M heap (option ptr) :=
  r ← get_ruleset rs; mret (hash_find main (Ruleset.hash_prios r)).

Definition lsdn_ruleset_free (ruleset : addr) : M heap unit :=
  r ← get_ruleset ruleset;
  mforeach (λ prio,
    p ← get_rsprio prio;
    _ ← assert_ (bool_decide (length (RsPrio.hash_fl_rules p) = 0%nat));
    _ ← upd_ruleset ruleset (λ r, Ruleset.set_hash_prios (hash_delete prio (Ruleset.hash_prios r)) r);
    free_obj prio) (snd <$> Ruleset.hash_prios r).

Definition key_ethtype (t : lsdn_rule_target) : Z :=
  match t with
  | LSDN_MATCH_SRC_IPV4 | LSDN_MATCH_DST_IPV4 => ETH_P_IP
  | LSDN_MATCH_SRC_IPV6 | LSDN_MATCH_DST_IPV6 => ETH_P_IPV6
  | _ => ETH_P_ALL
  end.

(** [find_common_ethtype]: [None] is the answer [false]. *)
Fixpoint find_common_ethtype (eth_out : Z) (targets : list lsdn_rule_target) : option Z :=
  match targets with
  | [] => Some eth_out
  | t :: targets =>
      let eth := key_ethtype t in
      if negb (eth =? ETH_P_ALL) then
        if negb (eth_out =? ETH_P_ALL) && negb (eth_out =? eth) then None
        else find_common_ethtype eth targets
      else find_common_ethtype eth_out targets
  end.

(** The [switch] of [flush_fl_rule] for one match position. *)
Definition flower_match (t : lsdn_rule_target) (value mask : matchdata) (f : lsdn_filter)
    : lsdn_filter :=
  match t with
  | LSDN_MATCH_NONE => f
  | LSDN_MATCH_DST_MAC | LSDN_MATCH_SRC_MAC => add_opt (FlKey t (take 6 value) (take 6 mask)) f
  | LSDN_MATCH_SRC_IPV4 | LSDN_MATCH_DST_IPV4 | LSDN_MATCH_ENC_KEY_SRC_IPV4
  | LSDN_MATCH_ENC_KEY_DST_IPV4 => add_opt (FlKey t (take 4 value) (take 4 mask)) f
  | LSDN_MATCH_SRC_IPV6 | LSDN_MATCH_DST_IPV6 | LSDN_MATCH_ENC_KEY_SRC_IPV6
  | LSDN_MATCH_ENC_KEY_DST_IPV6 => add_opt (FlKey t (take 16 value) (take 16 mask)) f
  | LSDN_MATCH_ENC_KEY_ID => add_opt (FlEncKeyId (take 4 value)) f
  end.

(** The loop over the match positions. *)
Fixpoint flower_matches (ts : list lsdn_rule_target) (values masks : list matchdata)
    (f : lsdn_filter) : lsdn_filter :=
  match ts, values, masks with
  | t :: ts, v :: values, m :: masks => flower_matches ts values masks (flower_match t v m f)
  | _, _, _ => f
  end.

(** The Ethernet type and the loop over the match positions; [None] is the [abort()]. *)
Definition flower_options (ts : list lsdn_rule_target) (values masks : list matchdata)
    (f : lsdn_filter) : option lsdn_filter :=
  ethtype ← find_common_ethtype ETH_P_ALL ts;
  let f := if negb (ethtype =? ETH_P_ALL) then add_opt (FlEthType ethtype) f else f in
  Some (flower_matches ts values masks f).

(** The loop over the sources: the actions of the rules, one after the other. *)
Fixpoint source_actions (order : Z) (sources : list addr) : M heap (list (Z * tc_action)) :=
  match sources with
  | [] => mret []
  | r :: sources =>
      x ← get_rule r;
      let count := actions_count (Rule.action x) in
      _ ← assert_ (order + count <=? LSDN_MAX_ACT_PRIO);
      acts ← run_action (fn (Rule.action x)) order;
      rest ← source_actions (order + count) sources;
      mret (acts ++ rest)
  end.

(** The entries of a list of rules. *)
Definition list_entries (h : addr) : M heap (list addr) := s ← get; live (H.lists s !! h).

(** [flush_fl_rule] *)
Definition flush_fl_rule (fl prio : ptr) (update : bool) : M heap lsdn_err_t :=
  p ← get_rsprio prio;
  rs ← get_ruleset (RsPrio.parent p);
  i ← get_if (Ruleset.iface rs);
  x ← get_flower fl;
  f ← lsdn_filter_flower_init (If.ifindex i) (Flower.fl_handle x) (Ruleset.parent_handle rs)
        (Ruleset.chain rs) (RsPrio.prio p + Ruleset.prio_start rs);
  match f with
  | None => mret LSDNE_NOMEM
  | Some f =>
      let f := if update then lsdn_filter_set_update f else f in
      match flower_options (RsPrio.targets p) (Flower.matches x) (RsPrio.masks p) f with
      | None => fail Aborted
      | Some f =>
          sources ← list_entries (fl, F_sources_list);
          acts ← source_actions 1 sources;
          lsdn_filter_create (Ruleset.ctx rs) (add_acts acts f)
      end
  end.

Definition free_fl_rule (fl prio : ptr) : M heap lsdn_err_t :=
  p ← get_rsprio prio;
  rs ← get_ruleset (RsPrio.parent p);
  i ← get_if (Ruleset.iface rs);
  x ← get_flower fl;
  c ← get_ctx (Ruleset.ctx rs);
  err ← (if Ctx.disable_decommit c then mret LSDNE_OK else
         lsdn_filter_delete (Ruleset.ctx rs) (If.ifindex i) (Flower.fl_handle x)
           (Ruleset.parent_handle rs) (Ruleset.chain rs) (RsPrio.prio p + Ruleset.prio_start rs));
  _ ← upd_rsprio prio (λ p, RsPrio.set_hash_fl_rules (hash_delete fl (RsPrio.hash_fl_rules p)) p);
  _ ← free_obj fl;
  mret err.

Definition lsdn_ruleset_remove (rule : addr) : M heap lsdn_err_t :=
  r ← get_rule rule;
  _ ← deref (Rule.ruleset r);
  prio ← deref (Rule.prio r);
  fl ← deref (Rule.fl_rule r);
  _ ← get_flower fl;
  _ ← list_remove rule;
  b ← is_list_empty (fl, F_sources_list);
  err ← (if b : bool then free_fl_rule fl prio else flush_fl_rule fl prio true);
  _ ← upd_rule rule (Rule.set_fl_rule None);
  mret err.

Definition lsdn_ruleset_remove_prio (prio : ptr) : M heap lsdn_err_t :=
  p ← get_rsprio prio;
  _ ← assert_ (bool_decide (length (RsPrio.hash_fl_rules p) = 0%nat));
  _ ← upd_ruleset (RsPrio.parent p)
        (λ r, Ruleset.set_hash_prios (hash_delete prio (Ruleset.hash_prios r)) r);
  _ ← free_obj prio;
  mret LSDNE_OK.

(** [hard_mask]: clears the bytes past [valsize]. *)
Definition hard_mask (valsize : nat) (value : matchdata) : matchdata :=
  take valsize value ++ replicate (length value - valsize) 0.

(** One round of the loop of [lsdn_rule_apply_mask]. *)
Definition apply_mask1 (target : lsdn_rule_target) (mask value : matchdata) : matchdata :=
  if lsdn_target_supports_masking target then zip_with Z.land value mask
  else match target with
       | LSDN_MATCH_NONE => hard_mask 0 value
       | _ => hard_mask 4 value
       end.

Fixpoint apply_mask (targets : list lsdn_rule_target) (masks values : list matchdata)
    : list matchdata :=
  match targets, masks, values with
  | t :: targets, m :: masks, v :: values => apply_mask1 t m v :: apply_mask targets masks values
  | _, _, _ => []
  end.

Definition lsdn_rule_apply_mask (rule : addr) (targets : list lsdn_rule_target)
    (masks : list matchdata) : M heap unit :=
  upd_rule rule (λ r, Rule.set_matches (apply_mask targets masks (Rule.matches r)) r).

(** The search for the place of a rule among the sources: [inl pos] is the entry to insert
    after, [inr tt] a source with the same subpriority. *)
Fixpoint find_nearest_lower (subprio : Z) (nearest_lower : addr) (sources : list addr)
    : M heap (addr + unit) :=
  match sources with
  | [] => mret (inl nearest_lower)
  | r :: sources =>
      x ← get_rule r;
      if Rule.subprio x =? subprio then mret (inr tt)
      else if subprio <? Rule.subprio x then mret (inl nearest_lower)
      else find_nearest_lower subprio r sources
  end.

(** The second half of [lsdn_ruleset_add]: the rule becomes a source of [fl]. *)
Definition insert_source (prio : ptr) (rule : addr) (subprio : Z) (fl : ptr) (update : bool)
    : M heap lsdn_err_t :=
  _ ← upd_rule rule (Rule.set_fl_rule (Some fl));
  sources ← list_entries (fl, F_sources_list);
  place ← find_nearest_lower subprio (fl, F_sources_list) sources;
  match place with
  | inr _ => mret LSDNE_DUPLICATE
  | inl nearest_lower =>
      _ ← list_init_add nearest_lower rule;
      err ← flush_fl_rule fl prio update;
      if bool_decide (err ≠ LSDNE_OK) then
        _ ← list_remove rule;
        err' ← free_fl_rule fl prio;
        mret (acc_inconsistent err err')
      else mret err
  end.

(** The flower rule that [lsdn_ruleset_add] makes for a key that has none; [None] is the return
    of [LSDNE_NOMEM]. *)
Definition new_fl_rule (prio : ptr) (p : RsPrio.lsdn_ruleset_prio) (matches : list matchdata) : M heap (option (ptr * bool)) :=
  let '(h, a) := lsdn_idalloc_get (RsPrio.handle_alloc p) in
  match h with
  | None => mret None
  | Some handle =>
      _ ← upd_rsprio prio (RsPrio.set_handle_alloc a);
      m ← malloc;
      match m with
      | None =>
          _ ← upd_rsprio prio (λ p, RsPrio.set_handle_alloc
                                      (lsdn_idalloc_return (RsPrio.handle_alloc p) handle) p);
          mret None
      | Some fl =>
          _ ← put_obj fl (OFlower (Flower.mk matches handle));
          _ ← list_init (fl, F_sources_list);
          _ ← upd_rsprio prio (λ p, RsPrio.set_hash_fl_rules (RsPrio.hash_fl_rules p ++ [(matches, fl)]) p);
          mret (Some (fl, false))
      end
  end.

(** [lsdn_ruleset_add] *)
Definition lsdn_ruleset_add (prio : ptr) (rule : addr) : M heap lsdn_err_t :=
  p ← get_rsprio prio;
  _ ← upd_rule rule (λ r, Rule.set_ruleset (Some (RsPrio.parent p)) (Rule.set_prio (Some prio) r));
  _ ← lsdn_rule_apply_mask rule (RsPrio.targets p) (RsPrio.masks p);
  r ← get_rule rule;
  found ← match hash_find (Rule.matches r) (RsPrio.hash_fl_rules p) with
    | Some fl => mret (Some (fl, true))
    | None => new_fl_rule prio p (Rule.matches r)
    end;
  match found with
  | None => mret LSDNE_NOMEM
  | Some (fl, update) =>
      insert_source prio rule (Rule.subprio r) fl update
  end.

(** ** Rulesets of an interface ([netmodel/net.c]) *)

Definition lsdn_prepare_rulesets (ctx : ptr) (iface : addr) (rs_in rs_out : option addr)
    : M heap lsdn_err_t :=
  c ← get_ctx ctx;
  err ← match rs_out with
        | None => mret LSDNE_OK
        | Some rs =>
            i ← get_if iface;
            err ← lsdn_qdisc_egress_create ctx (If.ifindex i) (Ctx.overwrite c);
            if bool_decide (err ≠ LSDNE_OK) then mret err else
            _ ← lsdn_ruleset_init rs ctx iface LSDN_ROOT_HANDLE LSDN_DEFAULT_CHAIN 1;
            mret LSDNE_OK
        end;
  if bool_decide (err ≠ LSDNE_OK) then mret err else
  match rs_in with
  | None => mret LSDNE_OK
  | Some rs =>
      i ← get_if iface;
      err ← lsdn_qdisc_ingress_create ctx (If.ifindex i) (Ctx.overwrite c);
      if bool_decide (err ≠ LSDNE_OK) then fail Aborted else
      _ ← lsdn_ruleset_init rs ctx iface LSDN_INGRESS_HANDLE LSDN_DEFAULT_CHAIN 1;
      mret LSDNE_OK
  end.

Definition lsdn_cleanup_rulesets (ctx : ptr) (iface : addr) (rs_in rs_out : option addr)
    : M heap lsdn_err_t :=
  let one rs (del : ptr → Z → M heap lsdn_err_t) err :=
    match rs with
    | None => mret err
    | Some rs =>
        _ ← lsdn_ruleset_free rs;
        c ← get_ctx ctx;
        if Ctx.disable_decommit c then mret err else
        i ← get_if iface;
        err' ← del ctx (If.ifindex i);
        mret (acc_inconsistent err err')
    end in
  err ← one rs_out lsdn_qdisc_egress_delete LSDNE_OK;
  one rs_in lsdn_qdisc_ingress_delete err.
