(* ===== verification/Broadcast.v ===== *)
(** * Broadcast actions ([netmodel/rules.c], [struct lsdn_broadcast])

    A packet is copied to several destinations by one filter whose action list mirrors it to
    each of them. The kernel takes at most 32 actions in a filter, so that long lists are
    spread over several filters chained by a final [continue]. *)

From Stdlib Require Import ZArith.
From stdpp Require Import base list gmap.
From S2P Require Import Prelude.
From S2P Require Import Status.
From S2P Require Import Heap.
From S2P Require Import Base.
From S2P Require Import Model.
From S2P Require Import Nl.
From S2P Require Import Rules.

Local Open Scope Z_scope.

Definition MAIN_RULE_HANDLE : Z := 1.

(** Slots of a filter: [LSDN_MAX_ACT_PRIO - 1]. *)
Definition SLOTS : nat := 31.

Definition lsdn_broadcast_init (br : addr) (ctx : ptr) (iface : addr) (chain : Z) : M heap unit :=
  _ ← new_broadcast br (Broadcast.mk ctx iface chain 1);
  list_init br.

(** Index of the first free slot, scanning from [i]. *)
Fixpoint free_slot (i : Z) (actions : list (option addr)) : option Z :=
  match actions with
  | [] => None
  | None :: _ => Some i
  | Some _ :: actions => free_slot (i + 1) actions
  end.

(** The loop of [lsdn_find_free_action]. *)
Fixpoint find_filter (count : Z) (filters : list ptr) : M heap (option (ptr * Z)) :=
  match filters with
  | [] => mret None
  | f :: filters =>
      x ← get_bfilter f;
      if count <=? BFilter.free_actions x then
        match free_slot 0 (BFilter.actions x) with
        | Some i => mret (Some (f, i))
        | None => fail Aborted
        end
      else find_filter count filters
  end.

Definition lsdn_find_free_action (br : addr) (count : Z) : M heap (option (ptr * Z)) :=
  filters ← list_get br;
  found ← find_filter count filters;
  match found with
  | Some r => mret (Some r)
  | None =>
      m ← malloc;
      match m with
      | None => mret None
      | Some f =>
          b ← get_broadcast br;
          _ ← put_obj f (OBFilter (BFilter.mk br (Broadcast.free_prio b) (LSDN_MAX_ACT_PRIO - 1)
                                     (replicate SLOTS None)));
          _ ← list_init_add br (f, F_filters_entry);
          _ ← upd_broadcast br (λ b, Broadcast.set_free_prio (u16 (Broadcast.free_prio b + 1)) b);
          mret (Some (f, 0))
      end
  end.

(** The loop of [lsdn_flush_action_list] over the slots; also the order after the last one. *)
Fixpoint slot_actions (order : Z) (slots : list (option addr)) : M heap (list (Z * tc_action) * Z) :=
  match slots with
  | [] => mret ([], order)
  | None :: slots => slot_actions order slots
  | Some a :: slots =>
      x ← get_baction a;
      acts ← run_action (fn (BAction.action x)) order;
      rest ← slot_actions (order + actions_count (BAction.action x)) slots;
      mret (acts ++ rest.1, rest.2)
  end.

Definition lsdn_flush_action_list (br_filter : ptr) : M heap lsdn_err_t :=
  x ← get_bfilter br_filter;
  br ← get_broadcast (BFilter.broadcast x);
  i ← get_if (Broadcast.iface br);
  f ← lsdn_filter_flower_init (If.ifindex i) MAIN_RULE_HANDLE LSDN_INGRESS_HANDLE
        (Broadcast.chain br) (BFilter.prio x);
  f ← deref f;
  let f := lsdn_filter_set_update f in
  acts ← slot_actions 1 (BFilter.actions x);
  lsdn_filter_create (Broadcast.ctx br) (add_acts (acts.1 ++ [(acts.2, TcContinue)]) f).

Definition lsdn_broadcast_add (br action : addr) (desc : lsdn_action_desc) : M heap lsdn_err_t :=
  found ← lsdn_find_free_action br (actions_count desc);
  match found with
  | None => mret LSDNE_NOMEM
  | Some (f, i) =>
      _ ← upd_bfilter f (λ x, BFilter.set_free_actions
                                 (u64 (BFilter.free_actions x - actions_count desc)) x);
      _ ← upd_bfilter f (λ x, BFilter.set_actions (<[Z.to_nat i := Some action]> (BFilter.actions x)) x);
      _ ← new_baction action (BAction.mk f i desc);
      lsdn_flush_action_list f
  end.

Definition lsdn_broadcast_remove (action : addr) : M heap lsdn_err_t :=
  a ← get_baction action;
  let f := BAction.filter a in
  _ ← upd_bfilter f (λ x, BFilter.set_free_actions
                            (u64 (BFilter.free_actions x + actions_count (BAction.action a))) x);
  _ ← upd_bfilter f (λ x, BFilter.set_actions
                            (<[Z.to_nat (BAction.filter_entry_index a) := None]> (BFilter.actions x)) x);
  x ← get_bfilter f;
  br ← get_broadcast (BFilter.broadcast x);
  c ← get_ctx (Broadcast.ctx br);
  if Ctx.disable_decommit c then mret LSDNE_OK else
  err ← lsdn_flush_action_list f;
  mret (acc_inconsistent LSDNE_OK err).

(** The filters are released, the list of them is left as it was. *)
Fixpoint broadcast_free_loop (br : addr) (filters : list ptr) (err : lsdn_err_t) : M heap lsdn_err_t :=
  match filters with
  | [] => mret err
  | f :: filters =>
      b ← get_broadcast br;
      c ← get_ctx (Broadcast.ctx b);
      x ← get_bfilter f;
      err ← (if Ctx.disable_decommit c then mret err else
             i ← get_if (Broadcast.iface b);
             err' ← lsdn_filter_delete (Broadcast.ctx b) (If.ifindex i) MAIN_RULE_HANDLE
                      LSDN_INGRESS_HANDLE (Broadcast.chain b) (BFilter.prio x);
             mret (acc_inconsistent err err'));
      _ ← free_obj f;
      broadcast_free_loop br filters err
  end.

Definition lsdn_broadcast_free (br : addr) : M heap lsdn_err_t :=
  filters ← list_get br; broadcast_free_loop br filters LSDNE_OK.
