(* ===== verification/CList.v ===== *)
(** * Cleanup lists ([netmodel/clist.c])

    An object with a cleanup handler can be in two cleanup lists at once, and is freed when
    either of them is flushed. *)

From Stdlib Require Import ZArith.
From stdpp Require Import base list gmap strings.
From S2P Require Import Prelude.
From S2P Require Import LStore.
From S2P Require Import Status.
From S2P Require Import Heap.
From S2P Require Import Base.
From S2P Require Import Wp.

Definition LSDN_CLIST_MAX : nat := 2.

(** The nodes of the [struct lsdn_clist_entry] of object [p], one for each index. *)
Definition cleanup_entry (p : ptr) (i : nat) : addr :=
  (p, if bool_decide (i = 0) then F_cleanup_entry_0 else F_cleanup_entry_1).

(** The callback of an entry. *)
Definition entry_cb (o : obj) : option clist_cb :=
  match o with
  | OBrAction x => Some (BrAction.clist x)
  | OFwdRule x => Some (FwdRule.clist x)
  | _ => None
  end.
Definition get_cb (p : ptr) : M heap clist_cb := o ← get_obj p; live (entry_cb o).

Definition lsdn_clist_init (clist : addr) (clist_index : nat) : M heap unit :=
  _ ← list_init clist; put_struct clist (NClist (Clist.mk clist_index)).

(** The callback is a member of the object from its creation on. *)
Definition lsdn_clist_init_entry (p : ptr) : M heap unit :=
  _ ← get_cb p;
  _ ← list_init (cleanup_entry p 0);
  list_init (cleanup_entry p 1).

Definition lsdn_clist_add (clist : addr) (p : ptr) : M heap unit :=
  c ← get_clist clist;
  b ← is_list_empty (cleanup_entry p (Clist.clist_index c));
  _ ← assert_ b;
  list_add clist (cleanup_entry p (Clist.clist_index c)).

(** Takes a node out of the list it is in, if any. *)
Definition drop_node (e : addr) : M heap unit :=
  b ← is_list_empty e;
  if b : bool then mret tt else list_remove e.

(** The loop of [lsdn_clist_flush]; [call] runs a callback. *)
Fixpoint flush_loop (call : clist_cb → M heap lsdn_err_t) (entries : list ptr) (err : lsdn_err_t)
    : M heap lsdn_err_t :=
  match entries with
  | [] => mret err
  | ce :: entries =>
      cb ← get_cb ce;
      _ ← drop_node (cleanup_entry ce 0);
      _ ← drop_node (cleanup_entry ce 1);
      err' ← call cb;
      flush_loop call entries (acc_inconsistent err err')
  end.

Definition lsdn_clist_flush (call : clist_cb → M heap lsdn_err_t) (clist : addr) : M heap lsdn_err_t :=
  _ ← get_clist clist;
  entries ← list_get clist;
  flush_loop call entries LSDNE_OK.
