(* ===== verification/SBridge.v ===== *)
(** * Static bridges ([netmodel/sbridge.c])

    A bridge made of tc rules. Every interface of the bridge has a broadcast, with one action
    for every route of the other interfaces; every MAC address behind a route has a forwarding
    rule on the bridge interface. The actions and rules are in cleanup lists of the interface
    that owns them and of the route or address they lead to. The structures are embedded in a
    network attachment, a virt, a remote attachment or a remote virt; the address of a
    structure identifies the object, and its members are found there. *)

From Stdlib Require Import ZArith.
From stdpp Require Import base list gmap strings.
From S2P Require Import Prelude.
From S2P Require Import Status.
From S2P Require Import IdAlloc.
From S2P Require Import Nettypes.
From S2P Require Import Heap.
From S2P Require Import Base.
From S2P Require Import Model.
From S2P Require Import Nl.
From S2P Require Import Rules.
From S2P Require Import Broadcast.
From S2P Require Import CList.

Local Open Scope Z_scope.

Definition LSDN_DEFAULT_PRIORITY : Z := 10.
Definition LSDN_IF_PRIO_MATCH : Z := 0xFF01.
Definition LSDN_IF_PRIO_FALLBACK : Z := 0xFF02.
Definition LSDN_IF_PRIO_SOURCE : Z := 0xFF03.
Definition LSDN_SBRIDGE_IF_SUBPRIO : Z := 0xFFFFFF00.

Definition CL_OWNER : nat := 0.
Definition CL_DEST : nat := 1.

(** Assignments to elements of the arrays of a priority and of a rule. *)
Definition set_target (prio : ptr) (i : nat) (t : lsdn_rule_target) : M heap unit :=
  upd_rsprio prio (λ p, RsPrio.set_targets (<[i := t]> (RsPrio.targets p)) p).
Definition set_mask (prio : ptr) (i : nat) (bytes : list Z) : M heap unit :=
  upd_rsprio prio (λ p, RsPrio.set_masks (alter (union_set bytes) i (RsPrio.masks p)) p).
Definition set_match (rule : addr) (i : nat) (f : matchdata → matchdata) : M heap unit :=
  upd_rule rule (λ r, Rule.set_matches (alter f i (Rule.matches r)) r).

(** ** Broadcast actions and forwarding rules *)

Definition run_cb (cb : clist_cb) : M heap lsdn_err_t :=
  match cb with
  | if_br_action_free action =>
      err ← lsdn_broadcast_remove (action, F_broadcast_action);
      _ ← free_obj action;
      _ ← del_baction (action, F_broadcast_action);
      mret err
  | br_forward_rule_free fwdr =>
      err ← lsdn_ruleset_remove (fwdr, F_rule);
      _ ← free_obj fwdr;
      _ ← del_rule (fwdr, F_rule);
      mret err
  end.

Definition clist_flush : addr → M heap lsdn_err_t := lsdn_clist_flush run_cb.

(** [if_br_make]: the broadcast action on interface [from] for route [to]. *)
Definition if_br_make (from to : addr) : M heap lsdn_err_t :=
  m ← malloc;
  match m with
  | None => mret LSDNE_NOMEM
  | Some bra =>
      _ ← put_obj bra (OBrAction (BrAction.mk (if_br_action_free bra) to));
      _ ← lsdn_clist_init_entry bra;
      r ← get_sbridge_route to;
      let desc := ActionDesc None (t_actions_count (SbridgeRoute.tunnel_action r) + 1)
                    (if_br_mkaction bra) in
      err ← lsdn_broadcast_add (from.1, F_broadcast) (bra, F_broadcast_action) desc;
      if bool_decide (err ≠ LSDNE_OK) then
        _ ← free_obj bra;
        _ ← del_baction (bra, F_broadcast_action);
        mret err
      else
      _ ← lsdn_clist_add (to.1, F_route_cl_dest) bra;
      _ ← lsdn_clist_add (from.1, F_cl_owner) bra;
      mret err
  end.

(** [br_forward_make]: the forwarding rule for a MAC address. *)
Definition br_forward_make (mac : addr) : M heap lsdn_err_t :=
  x ← get_sbridge_mac mac;
  r ← get_sbridge_route (SbridgeMac.route x);
  iface ← live (SbridgeRoute.iface r);
  i ← get_sbridge_if iface;
  br ← live (SbridgeIf.bridge i);
  m ← malloc;
  match m with
  | None => mret LSDNE_NOMEM
  | Some fwdr =>
      _ ← put_obj fwdr (OFwdRule (FwdRule.mk (br_forward_rule_free fwdr) mac));
      _ ← lsdn_clist_init_entry fwdr;
      s ← get;
      _ ← new_rule (fwdr, F_rule) (uninit_rule s fwdr);
      _ ← lsdn_action_init (fwdr, F_rule) (1 + t_actions_count (SbridgeRoute.tunnel_action r))
            (br_forward_mkaction fwdr);
      _ ← upd_rule (fwdr, F_rule) (Rule.set_subprio 0);
      _ ← set_match (fwdr, F_rule) 0 (union_set (SbridgeMac.mac x));
      b ← get_sbridge br;
      prio ← deref (Sbridge.bridge_ruleset b);
      err ← lsdn_ruleset_add prio (fwdr, F_rule);
      if bool_decide (err ≠ LSDNE_OK) then
        _ ← free_obj fwdr;
        _ ← del_rule (fwdr, F_rule);
        mret err
      else
      _ ← lsdn_clist_add (mac.1, F_mac_cl_dest) fwdr;
      mret err
  end.

(** ** The bridge *)

(** The local variable [sbridge_if] is at [F_local_if]; it is copied on success. *)
Definition lsdn_sbridge_init (ctx : ptr) (br : addr) : M heap lsdn_err_t :=
  let sbridge_if := (br.1, F_local_if) in
  let cleanup_if err :=
    err' ← lsdn_link_delete ctx sbridge_if;
    _ ← del_if sbridge_if;
    mret (acc_inconsistent err err') in
  c ← get_ctx ctx;
  _ ← lsdn_if_init sbridge_if;
  name ← lsdn_mk_name ctx "iface";
  err ← lsdn_link_dummy_create ctx sbridge_if name (Ctx.overwrite c);
  if bool_decide (err ≠ LSDNE_OK) then _ ← del_if sbridge_if; mret err else
  i ← get_if sbridge_if;
  err ← lsdn_qdisc_ingress_create ctx (If.ifindex i) (Ctx.overwrite c);
  if bool_decide (err ≠ LSDNE_OK) then cleanup_if err else
  err ← lsdn_link_set ctx (If.ifindex i) true;
  if bool_decide (err ≠ LSDNE_OK) then cleanup_if err else
  _ ← new_if (br.1, F_sbridge_bridge_if) i;
  _ ← put_struct br (NSbridge (Sbridge.mk ctx None));
  _ ← lsdn_ruleset_init (br.1, F_bridge_ruleset_main) ctx (br.1, F_sbridge_bridge_if)
        LSDN_INGRESS_HANDLE LSDN_DEFAULT_CHAIN LSDN_DEFAULT_PRIORITY;
  m ← lsdn_ruleset_define_prio (br.1, F_bridge_ruleset_main) 0;
  _ ← upd_sbridge br (Sbridge.set_bridge_ruleset m);
  match m with
  | None =>
      _ ← lsdn_ruleset_free (br.1, F_bridge_ruleset_main);
      cleanup_if err
  | Some prio =>
      _ ← set_target prio 0 LSDN_MATCH_DST_MAC;
      _ ← set_mask prio 0 lsdn_single_mac_mask;
      _ ← list_init (br.1, F_if_list);
      _ ← del_if sbridge_if;
      mret err
  end.

Definition lsdn_sbridge_free (br : addr) : M heap lsdn_err_t :=
  b ← is_list_empty (br.1, F_if_list);
  _ ← assert_ b;
  x ← get_sbridge br;
  c ← get_ctx (Sbridge.ctx x);
  err ← (if Ctx.disable_decommit c then mret LSDNE_OK else
         err' ← lsdn_link_delete (Sbridge.ctx x) (br.1, F_sbridge_bridge_if);
         mret (acc_inconsistent LSDNE_OK err'));
  _ ← lsdn_ruleset_free (br.1, F_bridge_ruleset_main);
  _ ← lsdn_if_free (br.1, F_sbridge_bridge_if);
  mret err.

(** ** Interfaces *)

(** The loops of [lsdn_sbridge_add_if] over the routes of the other interfaces; they end at
    the first error. *)
Fixpoint pull_routes (iface : addr) (routes : list ptr) : M heap lsdn_err_t :=
  match routes with
  | [] => mret LSDNE_OK
  | r :: routes =>
      err ← if_br_make iface (r, F_sbridge_route);
      if bool_decide (err ≠ LSDNE_OK) then mret err else pull_routes iface routes
  end.
Fixpoint pull_ifs (iface : addr) (ifs : list ptr) : M heap lsdn_err_t :=
  match ifs with
  | [] => mret LSDNE_OK
  | other :: ifs =>
      routes ← list_get (other, F_route_list);
      err ← pull_routes iface routes;
      if bool_decide (err ≠ LSDNE_OK) then mret err else pull_ifs iface ifs
  end.

Definition target_is (prio : option ptr) (i : nat) (t : lsdn_rule_target) : M heap unit :=
  p ← deref prio;
  x ← get_rsprio p;
  assert_ (bool_decide (RsPrio.targets x !! i = Some t)).

Definition lsdn_sbridge_add_if (br iface : addr) : M heap lsdn_err_t :=
  _ ← list_init (iface.1, F_route_list);
  _ ← lsdn_clist_init (iface.1, F_cl_owner) CL_OWNER;
  _ ← upd_sbridge_if iface (SbridgeIf.set_bridge (Some br));
  x ← get_sbridge_if iface;
  let phys_if := SbridgeIf.phys_if x in
  p ← get_phys_if phys_if;
  let '(h, a) := lsdn_idalloc_get (PhysIf.br_chain_ids p) in
  match h with
  | None => mret LSDNE_NOMEM
  | Some br_handle =>
      let cleanup_idalloc err :=
        _ ← upd_phys_if phys_if (λ p, PhysIf.set_br_chain_ids
                                         (lsdn_idalloc_return (PhysIf.br_chain_ids p) br_handle) p);
        mret err in
      _ ← upd_phys_if phys_if (PhysIf.set_br_chain_ids a);
      b ← get_sbridge br;
      _ ← lsdn_broadcast_init (iface.1, F_broadcast) (Sbridge.ctx b) (PhysIf.iface p) br_handle;
      _ ← target_is (PhysIf.rules_match_mac p) 0 LSDN_MATCH_DST_MAC;
      _ ← target_is (PhysIf.rules_match_mac p) 1 (SbridgeIf.additional_match x);
      _ ← target_is (PhysIf.rules_fallback p) 0 (SbridgeIf.additional_match x);
      _ ← target_is (PhysIf.rules_fallback p) 1 LSDN_MATCH_NONE;
      let match_mac := (iface.1, F_rule_match_br) in
      s ← get;
      _ ← new_rule match_mac (uninit_rule s iface.1);
      _ ← upd_rule match_mac (Rule.set_subprio LSDN_SBRIDGE_IF_SUBPRIO);
      _ ← set_match match_mac 0 (union_set lsdn_broadcast_mac);
      _ ← set_match match_mac 1 (λ _, SbridgeIf.additional_matchdata x);
      _ ← lsdn_action_init match_mac 1 (mkaction_goto_br_chain iface);
      prio_match ← deref (PhysIf.rules_match_mac p);
      err ← lsdn_ruleset_add prio_match match_mac;
      if bool_decide (err ≠ LSDNE_OK) then cleanup_idalloc err else
      let fallback := (iface.1, F_rule_fallback) in
      _ ← new_rule fallback (uninit_rule s iface.1);
      _ ← upd_rule fallback (Rule.set_subprio LSDN_SBRIDGE_IF_SUBPRIO);
      _ ← set_match fallback 0 (λ _, SbridgeIf.additional_matchdata x);
      _ ← lsdn_action_init fallback 1 (mkaction_goto_switch iface);
      prio_fallback ← deref (PhysIf.rules_fallback p);
      _ ← lsdn_ruleset_add prio_fallback fallback;
      ifs ← list_get (br.1, F_if_list);
      err ← pull_ifs iface ifs;
      if bool_decide (err ≠ LSDNE_OK) then
        e1 ← lsdn_ruleset_remove fallback;
        e2 ← clist_flush (iface.1, F_cl_owner);
        e3 ← lsdn_ruleset_remove match_mac;
        cleanup_idalloc (acc_inconsistent (acc_inconsistent (acc_inconsistent err e1) e2) e3)
      else
      _ ← list_init_add (br.1, F_if_list) (iface.1, F_if_entry);
      mret err
  end.

Definition lsdn_sbridge_remove_if (iface : addr) : M heap lsdn_err_t :=
  b ← is_list_empty (iface.1, F_route_list);
  _ ← assert_ b;
  e1 ← clist_flush (iface.1, F_cl_owner);
  e2 ← lsdn_ruleset_remove (iface.1, F_rule_match_br);
  e3 ← lsdn_ruleset_remove (iface.1, F_rule_fallback);
  x ← get_sbridge_if iface;
  br ← get_broadcast (iface.1, F_broadcast);
  _ ← upd_phys_if (SbridgeIf.phys_if x) (λ p, PhysIf.set_br_chain_ids
        (lsdn_idalloc_return (PhysIf.br_chain_ids p) (Broadcast.chain br)) p);
  _ ← lsdn_broadcast_free (iface.1, F_broadcast);
  _ ← list_remove (iface.1, F_if_entry);
  mret (acc_inconsistent (acc_inconsistent (acc_inconsistent LSDNE_OK e1) e2) e3).

(** ** Routes *)

(** The loop of [lsdn_sbridge_add_route] over the interfaces of the bridge. *)
Fixpoint push_route (iface route : addr) (ifs : list ptr) : M heap lsdn_err_t :=
  match ifs with
  | [] => mret LSDNE_OK
  | other :: ifs =>
      if bool_decide (other = iface.1) then push_route iface route ifs else
      err ← if_br_make (other, F_sbridge_if) route;
      if bool_decide (err ≠ LSDNE_OK) then mret err else push_route iface route ifs
  end.

Definition lsdn_sbridge_add_route (iface route : addr) : M heap lsdn_err_t :=
  _ ← list_init (route.1, F_mac_list);
  _ ← lsdn_clist_init (route.1, F_route_cl_dest) CL_DEST;
  _ ← upd_sbridge_route route (SbridgeRoute.set_iface (Some iface));
  x ← get_sbridge_if iface;
  br ← live (SbridgeIf.bridge x);
  ifs ← list_get (br.1, F_if_list);
  err ← push_route iface route ifs;
  if bool_decide (err ≠ LSDNE_OK) then clist_flush (route.1, F_route_cl_dest) else
  _ ← list_init_add (iface.1, F_route_list) (route.1, F_route_entry);
  mret err.

Definition lsdn_sbridge_add_route_default (iface route : addr) : M heap lsdn_err_t :=
  _ ← put_struct route (NSbridgeRoute (SbridgeRoute.mk (TunnelDesc 0 None) None));
  lsdn_sbridge_add_route iface route.

Definition lsdn_sbridge_remove_route (route : addr) : M heap lsdn_err_t :=
  b ← is_list_empty (route.1, F_mac_list);
  _ ← assert_ b;
  err ← clist_flush (route.1, F_route_cl_dest);
  _ ← list_remove (route.1, F_route_entry);
  mret err.

(** ** MAC addresses *)

Definition lsdn_sbridge_add_mac (route mac_entry : addr) (mac : lsdn_mac_t) : M heap lsdn_err_t :=
  _ ← put_struct mac_entry (NSbridgeMac (SbridgeMac.mk route mac));
  _ ← lsdn_clist_init (mac_entry.1, F_mac_cl_dest) CL_DEST;
  err ← br_forward_make mac_entry;
  _ ← list_init_add (route.1, F_mac_list) (mac_entry.1, F_mac_entry);
  mret err.

Definition lsdn_sbridge_remove_mac (mac : addr) : M heap lsdn_err_t :=
  _ ← list_remove (mac.1, F_mac_entry);
  clist_flush (mac.1, F_mac_cl_dest).

(** ** Physical interfaces *)

Definition lsdn_sbridge_phys_if_init (ctx : ptr) (sbridge_if iface : addr) (match_vni : bool)
    (rules_in : addr) : M heap lsdn_err_t :=
  _ ← put_struct sbridge_if
        (NPhysIf (PhysIf.mk iface (lsdn_idalloc_init 1 0xFFFF) None None None));
  prio_match ← lsdn_ruleset_define_prio rules_in LSDN_IF_PRIO_MATCH;
  _ ← upd_phys_if sbridge_if (PhysIf.set_rules_match_mac prio_match);
  match prio_match with
  | None => mret LSDNE_NOMEM
  | Some prio_match =>
  prio_fallback ← lsdn_ruleset_define_prio rules_in LSDN_IF_PRIO_FALLBACK;
  _ ← upd_phys_if sbridge_if (PhysIf.set_rules_fallback prio_fallback);
  match prio_fallback with
  | None =>
      e ← lsdn_ruleset_remove_prio prio_match;
      mret (acc_inconsistent LSDNE_OK e)
  | Some prio_fallback =>
  _ ← set_target prio_match 0 LSDN_MATCH_DST_MAC;
  _ ← set_mask prio_match 0 lsdn_multicast_mac_mask;
  prio_source ← lsdn_ruleset_define_prio rules_in LSDN_IF_PRIO_SOURCE;
  _ ← upd_phys_if sbridge_if (PhysIf.set_rules_source prio_source);
  match prio_source with
  | None =>
      e1 ← lsdn_ruleset_remove_prio prio_match;
      e2 ← lsdn_ruleset_remove_prio prio_fallback;
      mret (acc_inconsistent (acc_inconsistent LSDNE_OK e1) e2)
  | Some prio_source =>
  _ ← set_target prio_source 0 LSDN_MATCH_ENC_KEY_SRC_IPV4;
  _ ← set_mask prio_source 0 (ip_bytes lsdn_single_ipv4_mask);
  _ ← when match_vni (
        _ ← set_target prio_match 1 LSDN_MATCH_ENC_KEY_ID;
        _ ← set_target prio_source 1 LSDN_MATCH_ENC_KEY_ID;
        set_target prio_fallback 0 LSDN_MATCH_ENC_KEY_ID);
  i ← get_if iface;
  err ← lsdn_link_set ctx (If.ifindex i) true;
  if bool_decide (err ≠ LSDNE_OK) then
    e1 ← lsdn_ruleset_remove_prio prio_match;
    e2 ← lsdn_ruleset_remove_prio prio_fallback;
    e3 ← lsdn_ruleset_remove_prio prio_source;
    mret (acc_inconsistent (acc_inconsistent (acc_inconsistent err e1) e2) e3)
  else mret LSDNE_OK
  end end end.

Definition lsdn_sbridge_phys_if_free (iface : addr) : M heap lsdn_err_t :=
  _ ← upd_phys_if iface (λ p, PhysIf.set_br_chain_ids (lsdn_idalloc_free (PhysIf.br_chain_ids p)) p);
  mret LSDNE_OK.

(** ** Virts and shared tunnels *)

Definition lsdn_sbridge_add_virt (br : addr) (virt : ptr) : M heap lsdn_err_t :=
  x ← get_virt virt;
  ctx ← virt_ctx x;
  let committed_if := (virt, F_committed_if) in
  let rules_in := (virt, F_rules_in) in
  let rules_out := (virt, F_rules_out) in
  let phys_if := (virt, F_sbridge_phys_if) in
  let iface := (virt, F_sbridge_if) in
  let route := (virt, F_sbridge_route) in
  let cleanup_rulesets err :=
    e ← lsdn_cleanup_rulesets ctx committed_if (Some rules_in) (Some rules_out);
    mret (acc_inconsistent err e) in
  let cleanup_phys_if err :=
    e ← lsdn_sbridge_phys_if_free phys_if; cleanup_rulesets (acc_inconsistent err e) in
  let cleanup_sbridge_if err :=
    e ← lsdn_sbridge_remove_if iface; cleanup_phys_if (acc_inconsistent err e) in
  let cleanup_sbridge_route err :=
    e ← lsdn_sbridge_remove_route route; cleanup_sbridge_if (acc_inconsistent err e) in
  err ← lsdn_prepare_rulesets ctx committed_if (Some rules_in) (Some rules_out);
  if bool_decide (err ≠ LSDNE_OK) then mret err else
  err ← lsdn_sbridge_phys_if_init ctx phys_if committed_if false rules_in;
  if bool_decide (err ≠ LSDNE_OK) then cleanup_rulesets err else
  s ← get;
  _ ← put_struct iface (NSbridgeIf (SbridgeIf.mk phys_if LSDN_MATCH_NONE
                                      (Env.garbage (H.env s) virt !!! 0%nat) None));
  err ← lsdn_sbridge_add_if br iface;
  if bool_decide (err ≠ LSDNE_OK) then cleanup_phys_if err else
  err ← lsdn_sbridge_add_route_default iface route;
  if bool_decide (err ≠ LSDNE_OK) then cleanup_sbridge_if err else
  x ← get_virt virt;
  mac ← deref (Virt.attr_mac x);
  err ← lsdn_sbridge_add_mac route (virt, F_sbridge_mac) mac;
  if bool_decide (err ≠ LSDNE_OK) then cleanup_sbridge_route err else
  mret err.

Definition lsdn_sbridge_remove_virt (virt : ptr) : M heap lsdn_err_t :=
  e1 ← lsdn_sbridge_remove_mac (virt, F_sbridge_mac);
  e2 ← lsdn_sbridge_remove_route (virt, F_sbridge_route);
  e3 ← lsdn_sbridge_remove_if (virt, F_sbridge_if);
  e4 ← lsdn_sbridge_phys_if_free (virt, F_sbridge_phys_if);
  _ ← lsdn_ruleset_free (virt, F_rules_in);
  _ ← lsdn_ruleset_free (virt, F_rules_out);
  mret (acc_inconsistent (acc_inconsistent (acc_inconsistent (acc_inconsistent LSDNE_OK e1) e2) e3) e4).

(** The bytes of a [uint32_t] in memory (little endian). *)
Definition word_bytes (n : Z) : list Z :=
  [n mod 256; (n / 256) mod 256; (n / 65536) mod 256; (n / 16777216) mod 256].

Definition lsdn_sbridge_add_stunnel (br iface phys_if : addr) (net : ptr) : M heap lsdn_err_t :=
  n ← get_net net;
  s ← get;
  _ ← put_struct iface (NSbridgeIf (SbridgeIf.mk phys_if LSDN_MATCH_ENC_KEY_ID
         (union_set (word_bytes (Net.vnet_id n)) (Env.garbage (H.env s) iface.1 !!! 0%nat)) None));
  lsdn_sbridge_add_if br iface.

Definition lsdn_sbridge_remove_stunnel (iface : addr) : M heap lsdn_err_t :=
  lsdn_sbridge_remove_if iface.
