(* ===== verification/LBridge.v ===== *)
(** * Linux bridges ([netmodel/lbridge.c])

    The bridge of a network attachment, its ports, and the dummy interfaces that stand for
    tunnels with metadata. *)

From Stdlib Require Import ZArith.
From stdpp Require Import base list gmap strings.
From S2P Require Import Prelude.
From S2P Require Import Status.
From S2P Require Import Heap.
From S2P Require Import Base.
From S2P Require Import Model.
From S2P Require Import Nl.
From S2P Require Import Rules.
From S2P Require Import SBridge.

Local Open Scope Z_scope.

Definition LBRIDGE_FILTER : Z := 1.
Definition LBRIDGE_REDIR : Z := 2.

(** The local variable [bridge_if] is at [F_local_if]; it is copied on success. *)
Definition lsdn_lbridge_init (ctx : ptr) (br : addr) : M heap lsdn_err_t :=
  let bridge_if := (br.1, F_local_if) in
  c ← get_ctx ctx;
  _ ← lsdn_if_init bridge_if;
  name ← lsdn_mk_name ctx "iface";
  err ← lsdn_link_bridge_create ctx bridge_if name (Ctx.overwrite c);
  if bool_decide (err ≠ LSDNE_OK) then
    _ ← lsdn_if_free bridge_if;
    _ ← del_if bridge_if;
    mret err
  else
  i ← get_if bridge_if;
  err ← lsdn_link_set ctx (If.ifindex i) true;
  if bool_decide (err ≠ LSDNE_OK) then
    _ ← lsdn_if_free bridge_if;
    err' ← lsdn_link_delete ctx bridge_if;
    _ ← del_if bridge_if;
    mret (if bool_decide (err' ≠ LSDNE_OK) then LSDNE_INCONSISTENT else err)
  else
  _ ← put_struct br (NLbridge (Lbridge.mk ctx));
  _ ← new_if (br.1, F_bridge_if) i;
  _ ← del_if bridge_if;
  mret LSDNE_OK.

Definition lsdn_lbridge_free (br : addr) : M heap lsdn_err_t :=
  x ← get_lbridge br;
  c ← get_ctx (Lbridge.ctx x);
  err ← (if Ctx.disable_decommit c then mret LSDNE_OK
         else lsdn_link_delete (Lbridge.ctx x) (br.1, F_bridge_if));
  if bool_decide (err ≠ LSDNE_OK) then mret LSDNE_INCONSISTENT else
  _ ← lsdn_if_free (br.1, F_bridge_if);
  mret LSDNE_OK.

Definition lsdn_lbridge_add (br br_if iface : addr) : M heap lsdn_err_t :=
  x ← get_lbridge br;
  bi ← get_if (br.1, F_bridge_if);
  i ← get_if iface;
  err ← lsdn_link_set_master (Lbridge.ctx x) (If.ifindex bi) (If.ifindex i);
  if bool_decide (err ≠ LSDNE_OK) then mret err else
  err ← lsdn_link_set (Lbridge.ctx x) (If.ifindex i) true;
  if bool_decide (err ≠ LSDNE_OK) then
    err' ← lsdn_link_set_master (Lbridge.ctx x) 0 (If.ifindex i);
    mret (if bool_decide (err' ≠ LSDNE_OK) then LSDNE_INCONSISTENT else err)
  else
  _ ← put_struct br_if (NLbridgeIf (LbridgeIf.mk br iface));
  mret LSDNE_OK.

Definition lsdn_lbridge_remove (iface : addr) : M heap lsdn_err_t :=
  x ← get_lbridge_if iface;
  b ← get_lbridge (LbridgeIf.br x);
  c ← get_ctx (Lbridge.ctx b);
  if Ctx.disable_decommit c then mret LSDNE_OK else
  i ← get_if (LbridgeIf.iface x);
  err ← lsdn_link_set_master (Lbridge.ctx b) 0 (If.ifindex i);
  mret (if bool_decide (err ≠ LSDNE_OK) then LSDNE_INCONSISTENT else LSDNE_OK).

(** ** Network operations *)

(** [a->net->ctx] *)
Definition pa_ctx (a : ptr) : M heap ptr :=
  o ← get_pa a; n ← get_net (Pa.net o); mret (Net.ctx n).

Definition lsdn_lbridge_create_pa (a : ptr) : M heap lsdn_err_t :=
  ctx ← pa_ctx a;
  err ← lsdn_lbridge_init ctx (a, F_lbridge);
  if bool_decide (err ≠ LSDNE_OK) then mret err else
  err ← lsdn_lbridge_add (a, F_lbridge) (a, F_lbridge_if) (a, F_tunnel_if);
  if bool_decide (err ≠ LSDNE_OK) then
    err' ← lsdn_lbridge_free (a, F_lbridge);
    mret (if bool_decide (err' ≠ LSDNE_OK) then LSDNE_INCONSISTENT else err)
  else mret LSDNE_OK.

Definition lsdn_lbridge_destroy_pa (a : ptr) : M heap lsdn_err_t :=
  e1 ← lsdn_lbridge_remove (a, F_lbridge_if);
  e2 ← lsdn_lbridge_free (a, F_lbridge);
  let err := acc_inconsistent (acc_inconsistent LSDNE_OK e1) e2 in
  ctx ← pa_ctx a;
  c ← get_ctx ctx;
  err ← (if Ctx.disable_decommit c then mret err else
         e3 ← lsdn_link_delete ctx (a, F_tunnel_if);
         mret (acc_inconsistent err e3));
  _ ← lsdn_if_free (a, F_tunnel_if);
  mret err.

Definition lsdn_lbridge_add_virt (v : ptr) : M heap lsdn_err_t :=
  x ← get_virt v;
  a ← deref (Virt.connected_through x);
  ctx ← virt_ctx x;
  err ← lsdn_prepare_rulesets ctx (v, F_committed_if) (Some (v, F_rules_in)) (Some (v, F_rules_out));
  if bool_decide (err ≠ LSDNE_OK) then mret err else
  err ← lsdn_lbridge_add (a, F_lbridge) (v, F_lbridge_if) (v, F_committed_if);
  if bool_decide (err ≠ LSDNE_OK) then
    err' ← lsdn_cleanup_rulesets ctx (v, F_committed_if) (Some (v, F_rules_in)) (Some (v, F_rules_out));
    mret (if bool_decide (err' ≠ LSDNE_OK) then LSDNE_INCONSISTENT else err)
  else mret LSDNE_OK.

Definition lsdn_lbridge_remove_virt (v : ptr) : M heap lsdn_err_t :=
  _ ← lsdn_ruleset_free (v, F_rules_in);
  _ ← lsdn_ruleset_free (v, F_rules_out);
  e1 ← lsdn_lbridge_remove (v, F_lbridge_if);
  x ← get_virt v;
  ctx ← virt_ctx x;
  e2 ← lsdn_cleanup_rulesets ctx (v, F_committed_if) (Some (v, F_rules_in)) (Some (v, F_rules_out));
  mret (acc_inconsistent (acc_inconsistent LSDNE_OK e1) e2).

(** ** Routes *)

(** The filter that drops packets coming back into the tunnel; [abort()] without memory. *)
Definition ingress_filter (route : addr) : M heap lsdn_err_t :=
  rs ← get_ruleset (route.1, F_ruleset);
  i ← get_if (Ruleset.iface rs);
  f ← lsdn_filter_fw_init (If.ifindex i) 1 (Ruleset.parent_handle rs) (Ruleset.chain rs)
        (Ruleset.prio_start rs + LBRIDGE_FILTER);
  match f with
  | None => fail Aborted
  | Some f => lsdn_filter_create (Ruleset.ctx rs) (add_acts [lsdn_action_drop INGRESS_MARK] f)
  end.

Definition lsdn_lbridge_add_route (br route : addr) (vid : Z) : M heap lsdn_err_t :=
  b ← get_lbridge br;
  let ctx := Lbridge.ctx b in
  let dummy_if := (route.1, F_dummy_if) in
  let ruleset := (route.1, F_ruleset) in
  let out_rule := (route.1, F_out_redir_rule) in
  let in_rule := (route.1, F_in_redir_rule) in
  let cleanup_if err :=
    e ← lsdn_link_delete ctx dummy_if; mret (acc_inconsistent err e) in
  let cleanup_ruleset err :=
    e ← lsdn_cleanup_rulesets ctx dummy_if None (Some ruleset); cleanup_if (acc_inconsistent err e) in
  let cleanup_out_redir prio err :=
    _ ← lsdn_ruleset_remove_prio prio; cleanup_ruleset err in
  let cleanup_out_redir_rule prio err :=
    e ← lsdn_ruleset_remove out_rule; cleanup_out_redir prio (acc_inconsistent err e) in
  let cleanup_tunnel_ruleset prio err :=
    e ← lsdn_ruleset_remove in_rule; cleanup_out_redir_rule prio (acc_inconsistent err e) in
  let cleanup_lbridge prio err :=
    e ← lsdn_lbridge_remove (route.1, F_lbridge_if); cleanup_tunnel_ruleset prio (acc_inconsistent err e) in
  name ← lsdn_mk_name ctx "iface";
  err ← lsdn_link_dummy_create ctx dummy_if name false;
  if bool_decide (err ≠ LSDNE_OK) then mret err else
  err ← lsdn_prepare_rulesets ctx dummy_if None (Some ruleset);
  if bool_decide (err ≠ LSDNE_OK) then cleanup_if err else
  m ← lsdn_ruleset_define_prio ruleset LBRIDGE_REDIR;
  _ ← upd_lbridge_route route (LbridgeRoute.set_out_redir m);
  match m with
  | None => cleanup_ruleset LSDNE_NOMEM
  | Some prio =>
  err ← ingress_filter route;
  if bool_decide (err ≠ LSDNE_OK) then cleanup_out_redir prio err else
  x ← get_lbridge_route route;
  s ← get;
  _ ← new_rule out_rule (Rule.set_subprio 0 (uninit_rule s route.1));
  _ ← lsdn_action_init out_rule (t_actions_count (LbridgeRoute.tunnel_action x) + 1)
        (encap_redir_mkaction route);
  err ← lsdn_ruleset_add prio out_rule;
  if bool_decide (err ≠ LSDNE_OK) then cleanup_out_redir prio err else
  p ← get_phys_if (LbridgeRoute.phys_if x);
  _ ← target_is (PhysIf.rules_source p) 1 (LbridgeRoute.vid_match x);
  _ ← target_is (PhysIf.rules_source p) 0 (LbridgeRoute.source_match x);
  _ ← new_rule in_rule (Rule.set_subprio LSDN_SBRIDGE_IF_SUBPRIO (uninit_rule s route.1));
  _ ← set_match in_rule 0 (λ _, LbridgeRoute.source_matchdata x);
  _ ← set_match in_rule 1 (λ _, LbridgeRoute.vid_matchdata x);
  _ ← lsdn_action_init in_rule 2 (ingress_redir_mkaction route);
  rules_source ← deref (PhysIf.rules_source p);
  err ← lsdn_ruleset_add rules_source in_rule;
  if bool_decide (err ≠ LSDNE_OK) then cleanup_out_redir_rule prio err else
  err ← lsdn_lbridge_add br (route.1, F_lbridge_if) dummy_if;
  if bool_decide (err ≠ LSDNE_OK) then cleanup_tunnel_ruleset prio err else
  i ← get_if dummy_if;
  err ← lsdn_link_set ctx (If.ifindex i) true;
  if bool_decide (err ≠ LSDNE_OK) then cleanup_lbridge prio err else
  mret err
  end.

Definition lsdn_lbridge_remove_route (route : addr) : M heap lsdn_err_t :=
  rs ← get_ruleset (route.1, F_ruleset);
  let ctx := Ruleset.ctx rs in
  let dummy_if := (route.1, F_dummy_if) in
  e1 ← lsdn_lbridge_remove (route.1, F_lbridge_if);
  e2 ← lsdn_ruleset_remove (route.1, F_in_redir_rule);
  e3 ← lsdn_ruleset_remove (route.1, F_out_redir_rule);
  x ← get_lbridge_route route;
  prio ← deref (LbridgeRoute.out_redir x);
  _ ← lsdn_ruleset_remove_prio prio;
  e4 ← lsdn_cleanup_rulesets ctx dummy_if None (Some (route.1, F_ruleset));
  let err := acc_inconsistent (acc_inconsistent (acc_inconsistent (acc_inconsistent LSDNE_OK e1) e2) e3) e4 in
  c ← get_ctx ctx;
  err ← (if Ctx.disable_decommit c then mret err else
         e ← lsdn_link_delete ctx dummy_if; mret (acc_inconsistent err e));
  _ ← lsdn_if_free dummy_if;
  mret err.
