(* ===== verification/Validate.v ===== *)
(** * Validation of the network model ([lsdn_validate] of [netmodel/lsdn.c])

    Also the validation callbacks and tunnel overheads of the network types
    ([netmodel/net_*.c]) and [lsdn_virt_get_recommended_mtu]. *)

From Stdlib Require Import ZArith.
From stdpp Require Import base list gmap strings.
From S2P Require Import Prelude.
From S2P Require Import Float.
From S2P Require Import Status.
From S2P Require Import Nettypes.
From S2P Require Import Heap.
From S2P Require Import Base.
From S2P Require Import Model.
From S2P Require Import Rules.

Local Open Scope string_scope.
Local Open Scope Z_scope.

(** ** Validation callbacks of the network types *)

Definition NET_VXLAN_MIN_VNET_ID : Z := 1.
Definition NET_VXLAN_MAX_VNET_ID : Z := 16777215.
Definition NET_GENEVE_MIN_VNET_ID : Z := 1.
Definition NET_GENEVE_MAX_VNET_ID : Z := 16777215.
Definition NET_VLAN_MIN_VNET_ID : Z := 1.
Definition NET_VLAN_MAX_VNET_ID : Z := 4095.

Definition report_badid (net : ptr) (lo hi : Z) : M heap unit :=
  n ← get_net net;
  if (Net.vnet_id n <? lo) || (hi <? Net.vnet_id n) then
    lsdn_problem_report (Net.ctx n) LSDNP_NET_BADID
      [ProblemRef LSDNS_NET (RefObj net); ProblemRef LSDNS_NETID (RefId (Net.vnet_id n))]
  else mret tt.

Definition vxlan_validate_net (net : ptr) : M heap unit :=
  report_badid net NET_VXLAN_MIN_VNET_ID NET_VXLAN_MAX_VNET_ID.
Definition geneve_validate_net (net : ptr) : M heap unit :=
  report_badid net NET_GENEVE_MIN_VNET_ID NET_GENEVE_MAX_VNET_ID.
Definition vlan_validate_net (net : ptr) : M heap unit :=
  report_badid net NET_VLAN_MIN_VNET_ID NET_VLAN_MAX_VNET_ID.

(** The common text of [vxlan_e2e_validate_pa], [vxlan_static_validate_pa] and [geneve_validate_pa]. *)
Definition validate_pa_ip (a : ptr) : M heap unit :=
  o ← get_pa a;
  p ← get_phys (Pa.phys o);
  match Phys.attr_ip p with
  | Some _ => mret tt
  | None =>
      lsdn_problem_report (Phys.ctx p) LSDNP_PHYS_NOATTR
        [ProblemRef LSDNS_ATTR (RefStr "ip"); ProblemRef LSDNS_PHYS (RefObj (Pa.phys o));
         ProblemRef LSDNS_NET (RefObj (Pa.net o))]
  end.

(** The common text of [vxlan_static_validate_virt] and [geneve_validate_virt]. *)
Definition validate_virt_mac (virt : ptr) : M heap unit :=
  v ← get_virt virt;
  n ← get_net (Virt.network v);
  match Virt.attr_mac v with
  | Some _ => mret tt
  | None =>
      lsdn_problem_report (Net.ctx n) LSDNP_VIRT_NOATTR
        [ProblemRef LSDNS_ATTR (RefStr "mac"); ProblemRef LSDNS_VIRT (RefObj virt);
         ProblemRef LSDNS_NET (RefObj (Virt.network v))]
  end.

Definition vxlan_e2e_validate_pa : ptr → M heap unit := validate_pa_ip.
Definition vxlan_static_validate_pa : ptr → M heap unit := validate_pa_ip.
Definition geneve_validate_pa : ptr → M heap unit := validate_pa_ip.
Definition vxlan_static_validate_virt : ptr → M heap unit := validate_virt_mac.
Definition geneve_validate_virt : ptr → M heap unit := validate_virt_mac.

(** The [validate_net], [validate_pa] and [validate_virt] members of the operation tables;
    [None] is NULL. *)
Definition validate_net_op (t : lsdn_net_ops_tag) : option (ptr → M heap unit) :=
  match t with
  | lsdn_net_vxlan_mcast_ops | lsdn_net_vxlan_e2e_ops | lsdn_net_vxlan_static_ops =>
      Some vxlan_validate_net
  | lsdn_net_vlan_ops => Some vlan_validate_net
  | lsdn_net_geneve_ops | lsdn_net_geneve_e2e_ops => Some geneve_validate_net
  | lsdn_net_direct_ops => None
  end.
Definition validate_pa_op (t : lsdn_net_ops_tag) : option (ptr → M heap unit) :=
  match t with
  | lsdn_net_vxlan_e2e_ops => Some vxlan_e2e_validate_pa
  | lsdn_net_vxlan_static_ops => Some vxlan_static_validate_pa
  | lsdn_net_geneve_ops | lsdn_net_geneve_e2e_ops => Some geneve_validate_pa
  | _ => None
  end.
Definition validate_virt_op (t : lsdn_net_ops_tag) : option (ptr → M heap unit) :=
  match t with
  | lsdn_net_vxlan_static_ops => Some vxlan_static_validate_virt
  | lsdn_net_geneve_ops => Some geneve_validate_virt
  | _ => None
  end.

(** ** The checks of lsdn.c *)

Definition net_of_pa (o : Pa.lsdn_phys_attachment) : M heap Net.lsdn_net := get_net (Pa.net o).
Definition settings_of_net (n : Net.lsdn_net) : M heap Settings.lsdn_settings :=
  get_settings (Net.settings n).

Definition report_virts (pa : ptr) : M heap unit :=
  foreach (pa, F_connected_virt_list) (λ v,
    x ← get_virt v;
    if negb (should_be_validated (Virt.state x)) then mret tt else
    o ← get_pa pa;
    n ← net_of_pa o;
    lsdn_problem_report (Net.ctx n) LSDNP_PHYS_NOT_ATTACHED
      [ProblemRef LSDNS_VIRT (RefObj v); ProblemRef LSDNS_NET (RefObj (Pa.net o));
       ProblemRef LSDNS_PHYS (RefObj (Pa.phys o))]).

Definition bad_rate (r : lsdn_qos_rate_t) : bool :=
  f64_le (f64_of_f32 (avg_rate r)) (f64_const 1 100000) || (burst_size r =? 0)
  || f64_le (f64_of_f32 (burst_rate r)) (f64_const (-1) 100000).

Definition validate_rate (v : ptr) (attr_name : string) (rate : option lsdn_qos_rate_t)
    : M heap unit :=
  match rate with
  | None => mret tt
  | Some r =>
      if bad_rate r then
        x ← get_virt v;
        n ← get_net (Virt.network x);
        lsdn_problem_report (Net.ctx n) LSDNP_RATES_INVALID
          [ProblemRef LSDNS_ATTR (RefStr attr_name); ProblemRef LSDNS_VIRT (RefObj v)]
      else mret tt
  end.

Definition validate_virts_pa (pa : ptr) : M heap unit :=
  foreach (pa, F_connected_virt_list) (λ v,
    x ← get_virt v;
    if negb (should_be_validated (Virt.state x)) then mret tt else
    o ← get_pa pa;
    p ← get_phys (Pa.phys o);
    _ ← when (Pa.explicitly_attached o && Phys.is_local p) (
          err ← lsdn_if_resolve (v, F_connected_if);
          if bool_decide (err ≠ LSDNE_OK) then
            n ← get_net (Virt.network x);
            lsdn_problem_report (Net.ctx n) LSDNP_VIRT_NOIF
              [ProblemRef LSDNS_IF (RefObj v); ProblemRef LSDNS_VIRT (RefObj v)]
          else mret tt);
    n ← net_of_pa o;
    st ← settings_of_net n;
    match validate_virt_op (Settings.ops st) with
    | Some f => f v
    | None => mret tt
    end).

(** The first loop of [validate_rules]: the first rule that is not compatible with the first
    rule of the list. *)
Fixpoint find_incompatible (first : ptr) (f : Vr.lsdn_vr) (l : list ptr) : M heap (option ptr) :=
  match l with
  | [] => mret None
  | r :: l =>
      x ← get_vr r;
      if bool_decide (Vr.targets f = Vr.targets x) && bool_decide (Vr.masks f = Vr.masks x)
      then find_incompatible first f l else mret (Some r)
  end.

(** The second loop: masks the rules and looks for one that matches the same data as an
    earlier one. [seen] is the table [rule_ht]. *)
Fixpoint find_duplicate (seen : list (list matchdata * ptr)) (l : list ptr)
    : M heap (option (ptr * ptr)) :=
  match l with
  | [] => mret None
  | r :: l =>
      x ← get_vr r;
      _ ← lsdn_rule_apply_mask (r, F_rule) (Vr.targets x) (Vr.masks x);
      y ← get_rule (r, F_rule);
      match hash_find (Rule.matches y) seen with
      | Some d => mret (Some (r, d))
      | None => find_duplicate (seen ++ [(Rule.matches y, r)]) l
      end
  end.

(** [validate_rules]: a problem ends the validation of the whole table. *)
Fixpoint validate_rules_loop (virt : ptr) (prios : list ptr) : M heap unit :=
  match prios with
  | [] => mret tt
  | prio :: prios =>
      v ← get_virt virt;
      n ← get_net (Virt.network v);
      l ← list_get (prio, F_rules_list);
      bad ← match l with
            | [] => mret None
            | first :: l' => f ← get_vr first;
                             r ← find_incompatible first f l'; mret (pair first <$> r)
            end;
      match bad with
      | Some (first, r) =>
          lsdn_problem_report (Net.ctx n) LSDNP_VR_INCOMPATIBLE_MATCH
            [ProblemRef LSDNS_VR (RefObj first); ProblemRef LSDNS_VR (RefObj r);
             ProblemRef LSDNS_VIRT (RefObj virt)]
      | None =>
          dup ← find_duplicate [] l;
          match dup with
          | Some (r, d) =>
              lsdn_problem_report (Net.ctx n) LSDNP_VR_DUPLICATE_RULE
                [ProblemRef LSDNS_VR (RefObj r); ProblemRef LSDNS_VR (RefObj d);
                 ProblemRef LSDNS_VIRT (RefObj virt)]
          | None => validate_rules_loop virt prios
          end
      end
  end.

Definition validate_rules (virt : ptr) (dir : lsdn_direction) : M heap unit :=
  v ← get_virt virt; validate_rules_loop virt (snd <$> ht_get dir v).

Definition validate_virts_net (net : ptr) : M heap unit :=
  foreach (net, F_virt_list) (λ v1,
    _ ← validate_rules v1 LSDN_IN;
    _ ← validate_rules v1 LSDN_OUT;
    x1 ← get_virt v1;
    _ ← validate_rate v1 "rate_in" (Virt.attr_rate_in x1);
    _ ← validate_rate v1 "rate_out" (Virt.attr_rate_out x1);
    match Virt.attr_mac x1 with
    | Some m1 =>
        if negb (should_be_validated (Virt.state x1)) then mret tt else
        foreach (net, F_virt_list) (λ v2,
          x2 ← get_virt v2;
          match Virt.attr_mac x2 with
          | Some m2 =>
              if bool_decide (v1 = v2) || negb (should_be_validated (Virt.state x2)) then mret tt else
              if lsdn_mac_eq m1 m2 then
                n ← get_net net;
                lsdn_problem_report (Net.ctx n) LSDNP_VIRT_DUPATTR
                  [ProblemRef LSDNS_ATTR (RefStr "mac"); ProblemRef LSDNS_VIRT (RefObj v1);
                   ProblemRef LSDNS_VIRT (RefObj v2); ProblemRef LSDNS_NET (RefObj net)]
              else mret tt
          | None => mret tt
          end)
    | None => mret tt
    end).

(** Is some attachment of the list on a local phys? *)
Fixpoint any_local (l : list ptr) : M heap bool :=
  match l with
  | [] => mret false
  | a :: l => o ← get_pa a; p ← get_phys (Pa.phys o); b ← any_local l; mret (Phys.is_local p || b)
  end.

Definition cross_validate_networks (net1 net2 : ptr) : M heap unit :=
  n1 ← get_net net1; n2 ← get_net net2;
  s1 ← settings_of_net n1; s2 ← settings_of_net n2;
  _ ← when (bool_decide (Settings.nettype s1 = Settings.nettype s2)
            && (Net.vnet_id n1 =? Net.vnet_id n2))
        (lsdn_problem_report (Settings.ctx s1) LSDNP_NET_DUPID
           [ProblemRef LSDNS_NET (RefObj net1); ProblemRef LSDNS_NET (RefObj net2);
            ProblemRef LSDNS_NETID (RefId (Net.vnet_id n1))]);
  l1 ← list_get (net1, F_attached_list);
  l2 ← list_get (net2, F_attached_list);
  loc1 ← any_local l1;
  loc2 ← any_local l2;
  let check_nettypes := loc1 && loc2 in
  when (check_nettypes && bool_decide (Settings.nettype s1 = LSDN_NET_VXLAN)
        && bool_decide (Settings.nettype s2 = LSDN_NET_VXLAN)
        && bool_decide (Settings.switch_type s1 = LSDN_STATIC_E2E)
        && bool_decide (Settings.switch_type s2 ≠ LSDN_STATIC_E2E)
        && (Settings.port s1 =? Settings.port s2))
    (lsdn_problem_report (Settings.ctx s1) LSDNP_NET_BAD_NETTYPE
       [ProblemRef LSDNS_NET (RefObj net1); ProblemRef LSDNS_NET (RefObj net2)]).

(** The three loops that propagate renewals: from physes and networks to attachments, from
    attachments to virts. *)
Definition propagate_states (ctx : ptr) : M heap unit :=
  _ ← foreach (ctx, F_phys_list) (λ p,
        foreach (p, F_attached_to_list) (λ pa,
          x ← get_phys p;
          upd_pa pa (λ o, Pa.set_state (propagate (Phys.state x) (Pa.state o)) o)));
  _ ← foreach (ctx, F_networks_list) (λ n,
        foreach (n, F_attached_list) (λ pa,
          x ← get_net n;
          upd_pa pa (λ o, Pa.set_state (propagate (Net.state x) (Pa.state o)) o)));
  foreach (ctx, F_networks_list) (λ n,
    foreach (n, F_virt_list) (λ v,
      x ← get_virt v;
      match Virt.connected_through x with
      | None => mret tt
      | Some a =>
          o ← get_pa a;
          upd_virt v (λ x, Virt.set_state (propagate (Pa.state o) (Virt.state x)) x)
      end)).

(** The loop over the networks. *)
Definition validate_networks (ctx : ptr) : M heap unit :=
  foreach (ctx, F_networks_list) (λ net1,
    n1 ← get_net net1;
    if will_be_deleted (Net.state n1) then mret tt else
    _ ← validate_virts_net net1;
    foreach (ctx, F_networks_list) (λ net2,
      n2 ← get_net net2;
      when (bool_decide (net1 ≠ net2) && negb (will_be_deleted (Net.state n2)))
        (cross_validate_networks net1 net2))).

(** The loop over the physes: their attachments, and their addresses. *)
Definition validate_pa_of (ctx p a : ptr) : M heap unit :=
  o ← get_pa a;
  if negb (Pa.explicitly_attached o) then report_virts a else
  x ← get_phys p;
  _ ← when (Phys.is_local x && bool_decide (Phys.attr_iface x = None))
        (lsdn_problem_report ctx LSDNP_PHYS_NOATTR
           [ProblemRef LSDNS_ATTR (RefStr "iface"); ProblemRef LSDNS_PHYS (RefObj p);
            ProblemRef LSDNS_NET (RefObj (Pa.net o))]);
  n ← net_of_pa o;
  st ← settings_of_net n;
  _ ← match validate_pa_op (Settings.ops st) with
      | Some f => when (should_be_validated (Pa.state o)) (f a)
      | None => mret tt
      end;
  validate_virts_pa a.

Definition validate_phys_ips (ctx p p_other : ptr) : M heap unit :=
  x ← get_phys p;
  y ← get_phys p_other;
  if bool_decide (p = p_other) || will_be_deleted (Phys.state y) then mret tt else
  match Phys.attr_ip x, Phys.attr_ip y with
  | Some ip1, Some ip2 =>
      when (lsdn_ip_eq ip1 ip2)
        (lsdn_problem_report ctx LSDNP_PHYS_DUPATTR
           [ProblemRef LSDNS_ATTR (RefStr "ip"); ProblemRef LSDNS_PHYS (RefObj p);
            ProblemRef LSDNS_PHYS (RefObj p_other)])
  | _, _ => mret tt
  end.

Definition validate_physes (ctx : ptr) : M heap unit :=
  foreach (ctx, F_phys_list) (λ p,
    x ← get_phys p;
    if will_be_deleted (Phys.state x) then mret tt else
    _ ← foreach (p, F_attached_to_list) (validate_pa_of ctx p);
    foreach (ctx, F_phys_list) (validate_phys_ips ctx p)).

(** The loop that compares the IP versions inside each network. *)
Definition validate_ip_versions (ctx : ptr) : M heap unit :=
  foreach (ctx, F_networks_list) (λ n,
    foreach (n, F_attached_list) (λ a,
      o ← get_pa a;
      p ← get_phys (Pa.phys o);
      match Phys.attr_ip p with
      | Some ip1 =>
          if will_be_deleted (Phys.state p) then mret tt else
          foreach (n, F_attached_list) (λ a_other,
            if bool_decide (a = a_other) then mret tt else
            o' ← get_pa a_other;
            p' ← get_phys (Pa.phys o');
            match Phys.attr_ip p' with
            | Some ip2 =>
                when (negb (will_be_deleted (Phys.state p')) && negb (lsdn_ipv_eq ip1 ip2))
                  (lsdn_problem_report ctx LSDNP_PHYS_INCOMPATIBLE_IPV
                     [ProblemRef LSDNS_PHYS (RefObj (Pa.phys o));
                      ProblemRef LSDNS_PHYS (RefObj (Pa.phys o'));
                      ProblemRef LSDNS_NET (RefObj n)])
            | None => mret tt
            end)
      | None => mret tt
      end)).

(** [lsdn_validate] *)
Definition lsdn_validate (ctx : ptr) (cb : option problem_cb_t) : M heap lsdn_err_t :=
  _ ← upd_ctx ctx (λ c, Ctx.set_inconsistent false (Ctx.set_problem_count 0 (Ctx.set_problem_cb cb c)));
  _ ← propagate_states ctx;
  _ ← validate_networks ctx;
  _ ← validate_physes ctx;
  _ ← validate_ip_versions ctx;
  c ← get_ctx ctx;
  mret (if Ctx.problem_count c =? 0 then LSDNE_OK else LSDNE_VALIDATE).

(** ** Tunnel overhead and the recommended MTU *)

Definition ETHERNET_FRAME_LEN : Z := 14.
Definition IPv4_HEADER_LEN : Z := 20.
Definition IPv6_HEADER_LEN : Z := 40.
Definition UDP_HEADER_LEN : Z := 8.
Definition VXLAN_HEADER_LEN : Z := 8.
Definition GENEVE_HEADER_LEN : Z := 8.

Definition vxlan_tunneling_overhead (ipv : lsdn_ipv) : Z :=
  match ipv with
  | LSDN_IPv4 => ETHERNET_FRAME_LEN + IPv4_HEADER_LEN + UDP_HEADER_LEN + VXLAN_HEADER_LEN
  | LSDN_IPv6 => ETHERNET_FRAME_LEN + IPv6_HEADER_LEN + UDP_HEADER_LEN + VXLAN_HEADER_LEN
  end.

Definition geneve_overhead (ipv : lsdn_ipv) : Z :=
  match ipv with
  | LSDN_IPv4 => ETHERNET_FRAME_LEN + IPv4_HEADER_LEN + UDP_HEADER_LEN + GENEVE_HEADER_LEN
  | LSDN_IPv6 => ETHERNET_FRAME_LEN + IPv6_HEADER_LEN + UDP_HEADER_LEN + GENEVE_HEADER_LEN
  end.

Definition direct_tunneling_overhead (pa : ptr) : M heap Z := mret 0.
Definition vlan_tunneling_overhead (pa : ptr) : M heap Z := mret 4.
Definition vxlan_mcast_tunneling_overhead (pa : ptr) : M heap Z :=
  o ← get_pa pa;
  n ← net_of_pa o;
  s ← settings_of_net n;
  ip ← deref (Settings.mcast_ip s);
  mret (vxlan_tunneling_overhead (v ip)).
(** [pa->phys->attr_ip->v] *)
Definition pa_ipv (pa : ptr) : M heap lsdn_ipv :=
  o ← get_pa pa; p ← get_phys (Pa.phys o); ip ← deref (Phys.attr_ip p); mret (v ip).
Definition vxlan_e2e_tunneling_overhead (pa : ptr) : M heap Z :=
  ipv ← pa_ipv pa; mret (vxlan_tunneling_overhead ipv).
Definition vxlan_static_tunneling_overhead (pa : ptr) : M heap Z :=
  ipv ← pa_ipv pa; mret (vxlan_tunneling_overhead ipv).
Definition geneve_tunneling_overhead (pa : ptr) : M heap Z :=
  ipv ← pa_ipv pa; mret (geneve_overhead ipv).

(** The [compute_tunneling_overhead] members of the operation tables. *)
Definition compute_tunneling_overhead (t : lsdn_net_ops_tag) : ptr → M heap Z :=
  match t with
  | lsdn_net_direct_ops => direct_tunneling_overhead
  | lsdn_net_vlan_ops => vlan_tunneling_overhead
  | lsdn_net_vxlan_mcast_ops => vxlan_mcast_tunneling_overhead
  | lsdn_net_vxlan_e2e_ops => vxlan_e2e_tunneling_overhead
  | lsdn_net_vxlan_static_ops => vxlan_static_tunneling_overhead
  | lsdn_net_geneve_ops | lsdn_net_geneve_e2e_ops => geneve_tunneling_overhead
  end.

(** [lsdn_virt_get_recommended_mtu]; [get_mtu] is what the kernel answers for the MTU of an
    interface ([lsdn_link_get_mtu]); [*mtu] is an [unsigned int]. *)
Definition lsdn_virt_get_recommended_mtu (get_mtu : Z → lsdn_err_t * Z) (virt : ptr)
    : M heap (lsdn_err_t * option Z) :=
  v ← get_virt virt;
  n ← get_net (Virt.network v);
  st ← settings_of_net n;
  match Virt.connected_through v with
  | None => e ← ret_err (Net.ctx n) LSDNE_NOIF; mret (e, None)
  | Some a =>
      o ← get_pa a;
      p ← get_phys (Pa.phys o);
      ret ← lsdn_context_ensure_socket (Net.ctx n);
      if bool_decide (ret ≠ LSDNE_OK) then e ← ret_err (Net.ctx n) ret; mret (e, None) else
      match Phys.attr_iface p with
      | None => e ← ret_err (Net.ctx n) LSDNE_NOIF; mret (e, None)
      | Some iface =>
          s ← get;
          let ifindex := Env.if_nametoindex (H.env s) (H.trace s) iface in
          if bool_decide (ifindex = 0) then e ← ret_err (Net.ctx n) LSDNE_NOIF; mret (e, None) else
          let '(ret, mtu) := get_mtu ifindex in
          if bool_decide (ret ≠ LSDNE_OK) then e ← ret_err (Net.ctx n) ret; mret (e, None) else
          ov ← compute_tunneling_overhead (Settings.ops st) a;
          e ← ret_err (Net.ctx n) LSDNE_OK;
          mret (e, Some (u32 (mtu - ov)))
      end
  end.
