(* ===== verification/Commit.v ===== *)
(** * Committing the network model ([lsdn_commit] of [netmodel/lsdn.c])

    Decommit of changed and deleted objects, commit of new ones, and the acknowledgement of
    the object states. What a network type does with the kernel is behind the interface
    [NetOps], one member per entry of [struct lsdn_net_ops]. *)

From Stdlib Require Import ZArith.
From stdpp Require Import base list gmap strings.
From S2P Require Import Prelude.
From S2P Require Import Status.
From S2P Require Import Heap.
From S2P Require Import Base.
From S2P Require Import Model.
From S2P Require Import Nl.
From S2P Require Import Rules.
From S2P Require Import Validate.

Local Open Scope Z_scope.

(** [struct lsdn_net_ops]: the members that create and remove kernel objects; [None] is a
    NULL member. *)
Class NetOps := {
  create_pa : lsdn_net_ops_tag → ptr → M heap lsdn_err_t;
  add_virt : lsdn_net_ops_tag → option (ptr → M heap lsdn_err_t);
  add_remote_pa : lsdn_net_ops_tag → option (ptr → M heap lsdn_err_t);
  add_remote_virt : lsdn_net_ops_tag → option (ptr → M heap lsdn_err_t);
  destroy_pa : lsdn_net_ops_tag → option (ptr → M heap lsdn_err_t);
  remove_virt : lsdn_net_ops_tag → option (ptr → M heap lsdn_err_t);
  remove_remote_pa : lsdn_net_ops_tag → option (ptr → M heap lsdn_err_t);
  remove_remote_virt : lsdn_net_ops_tag → option (ptr → M heap lsdn_err_t) }.

(** ** Marking errors *)

(** [mark_commit_err] on the state of an attachment or of a virt. *)
Definition mark_commit_err_pa (ctx pa : ptr) (fatal : bool) (err : lsdn_err_t) : M heap bool :=
  o ← get_pa pa;
  match mark_commit (Pa.state o) fatal err with
  | None => fail Aborted
  | Some (st, problem, answer) =>
      _ ← upd_pa pa (Pa.set_state st);
      _ ← match problem with
          | Some c => lsdn_problem_report ctx c [ProblemRef LSDNS_PA (RefObj pa)]
          | None => mret tt
          end;
      mret answer
  end.

Definition mark_commit_err_virt (ctx v : ptr) (fatal : bool) (err : lsdn_err_t) : M heap bool :=
  x ← get_virt v;
  match mark_commit (Virt.state x) fatal err with
  | None => fail Aborted
  | Some (st, problem, answer) =>
      _ ← upd_virt v (Virt.set_state st);
      _ ← match problem with
          | Some c => lsdn_problem_report ctx c [ProblemRef LSDNS_VIRT (RefObj v)]
          | None => mret tt
          end;
      mret answer
  end.

(** ** Virt rules *)

Definition ruleset_of (virt : ptr) (dir : lsdn_direction) : addr :=
  match dir with LSDN_IN => (virt, F_rules_out) | LSDN_OUT => (virt, F_rules_in) end.

Definition commit_vr (virt prio vr : ptr) (dir : lsdn_direction) : M heap unit :=
  p ← get_vrprio prio;
  x ← get_vr vr;
  _ ← when (VrPrio.commited_count p =? 0) (
        _ ← assert_ (bool_decide (VrPrio.commited_prio p = None));
        _ ← upd_rule (vr, F_rule) (Rule.set_subprio LSDN_VR_SUBPRIO);
        m ← lsdn_ruleset_define_prio (ruleset_of virt dir) (VrPrio.prio_num p);
        _ ← upd_vrprio prio (VrPrio.set_commited_prio m);
        match m with
        | None => fail Aborted
        | Some rp => upd_rsprio rp (λ y, RsPrio.set_masks (Vr.masks x) (RsPrio.set_targets (Vr.targets x) y))
        end);
  p ← get_vrprio prio;
  rp ← deref (VrPrio.commited_prio p);
  err ← lsdn_ruleset_add rp (vr, F_rule);
  if bool_decide (err ≠ LSDNE_OK) then fail Aborted else
  upd_vrprio prio (λ p, VrPrio.set_commited_count (u64 (VrPrio.commited_count p + 1)) p).

Definition commit_rules (virt : ptr) (dir : lsdn_direction) : M heap unit :=
  hash_iter virt dir (λ prio,
    foreach (prio, F_rules_list) (λ r,
      x ← get_vr r;
      _ ← when (bool_decide (Vr.state x = LSDN_STATE_NEW)) (commit_vr virt prio r dir);
      upd_vr r (λ x, Vr.set_state (ack_state (Vr.state x)) x))).

Definition decommit_vr (virt prio vr : ptr) (dir : lsdn_direction) : M heap unit :=
  _ ← lsdn_ruleset_remove (vr, F_rule);
  _ ← upd_vrprio prio (λ p, VrPrio.set_commited_count (u64 (VrPrio.commited_count p - 1)) p);
  p ← get_vrprio prio;
  when (VrPrio.commited_count p =? 0) (
    rp ← deref (VrPrio.commited_prio p);
    _ ← lsdn_ruleset_remove_prio rp;
    upd_vrprio prio (VrPrio.set_commited_prio None)).

Definition decommit_rules (virt : ptr) (dir : lsdn_direction) : M heap unit :=
  hash_iter virt dir (λ prio,
    foreach (prio, F_rules_list) (λ r,
      v ← get_virt virt;
      x ← get_vr r;
      let '(st, b) := ack_decommit (propagate (Virt.state v) (Vr.state x)) in
      _ ← upd_vr r (Vr.set_state st);
      when b (decommit_vr virt prio r dir))).

(** ** Rates *)

(** The two sets of policing members of a virt. *)
Definition policing_rule (virt : ptr) (dir : lsdn_direction) : addr :=
  match dir with LSDN_IN => (virt, F_policing_rule_in) | LSDN_OUT => (virt, F_policing_rule_out) end.
Definition get_policing (dir : lsdn_direction) (v : Virt.lsdn_virt) : option ptr :=
  match dir with LSDN_IN => Virt.commited_policing_in v | LSDN_OUT => Virt.commited_policing_out v end.
Definition set_policing (dir : lsdn_direction) (p : option ptr) : Virt.lsdn_virt → Virt.lsdn_virt :=
  match dir with
  | LSDN_IN => Virt.set_commited_policing_in p
  | LSDN_OUT => Virt.set_commited_policing_out p
  end.
Definition get_rate (dir : lsdn_direction) (v : Virt.lsdn_virt) : option lsdn_qos_rate_t :=
  match dir with LSDN_IN => Virt.attr_rate_in v | LSDN_OUT => Virt.attr_rate_out v end.
Definition rates_fn (dir : lsdn_direction) (virt : ptr) : mkaction :=
  match dir with LSDN_IN => rates_action_in virt | LSDN_OUT => rates_action_out virt end.

(** [commit_rates_inout], called by [commit_rates] with the members of one direction. *)
Definition commit_rates_inout (virt : ptr) (dir : lsdn_direction) : M heap lsdn_err_t :=
  m ← lsdn_ruleset_define_prio (ruleset_of virt dir) LSDN_IF_PRIO_POLICING;
  _ ← upd_virt virt (set_policing dir m);
  match m with
  | None => mret LSDNE_NOMEM
  | Some rp =>
      let rule := policing_rule virt dir in
      _ ← upd_rule rule (Rule.set_subprio 0);
      _ ← lsdn_action_init rule 2 (rates_fn dir virt);
      err ← lsdn_ruleset_add rp rule;
      if bool_decide (err ≠ LSDNE_OK) then
        err ← lsdn_ruleset_remove_prio rp;
        if bool_decide (err ≠ LSDNE_OK) then
          v ← get_virt virt;
          ctx ← virt_ctx v;
          _ ← upd_ctx ctx (Ctx.set_inconsistent true);
          mret LSDNE_INCONSISTENT
        else
          _ ← upd_virt virt (set_policing dir None);
          mret LSDNE_OK
      else mret LSDNE_OK
  end.

Definition decommit_rates_dir (virt : ptr) (dir : lsdn_direction) : M heap unit :=
  v ← get_virt virt;
  ctx ← virt_ctx v;
  match get_policing dir v with
  | None => mret tt
  | Some rp =>
      err ← lsdn_ruleset_remove (policing_rule virt dir);
      _ ← mark_commit_err_virt ctx virt true err;
      err ← lsdn_ruleset_remove_prio rp;
      _ ← mark_commit_err_virt ctx virt true err;
      upd_virt virt (set_policing dir None)
  end.

Definition decommit_rates (virt : ptr) : M heap unit :=
  _ ← decommit_rates_dir virt LSDN_IN; decommit_rates_dir virt LSDN_OUT.

Definition commit_rates (virt : ptr) : M heap lsdn_err_t :=
  v ← get_virt virt;
  err ← match Virt.attr_rate_in v with
        | Some _ => commit_rates_inout virt LSDN_IN
        | None => mret LSDNE_OK
        end;
  if bool_decide (err ≠ LSDNE_OK) then mret err else
  match Virt.attr_rate_out v with
  | Some _ =>
      err ← commit_rates_inout virt LSDN_OUT;
      _ ← when (bool_decide (err ≠ LSDNE_OK)) (decommit_rates virt);
      mret err
  | None => mret LSDNE_OK
  end.

(** ** Decommit *)

Section commit.
Context `{NetOps}.

Definition call_op (op : option (ptr → M heap lsdn_err_t)) (p : ptr)
    (k : lsdn_err_t → M heap unit) : M heap unit :=
  match op with Some f => err ← f p; k err | None => mret tt end.

Definition ops_of_net (net : ptr) : M heap (lsdn_net_ops_tag * ptr) :=
  n ← get_net net; st ← settings_of_net n; mret (Settings.ops st, Net.ctx n).

Definition decommit_remote_virt (rv : ptr) : M heap unit :=
  x ← get_rvirt rv;
  v ← get_virt (Rvirt.virt x);
  opsctx ← ops_of_net (Virt.network v);
  rpa ← get_rpa (Rvirt.pa x);
  local ← get_pa (Rpa.local rpa);
  n ← get_net (Pa.net local);
  _ ← call_op (remove_remote_virt opsctx.1) rv (λ err,
        _ ← mark_commit_err_virt (Net.ctx n) (Rvirt.virt x) true err; mret tt);
  _ ← list_remove (rv, F_remote_virt_entry);
  _ ← list_remove (rv, F_virt_view_entry);
  free_obj rv.

Definition decommit_virt (v : ptr) : M heap unit :=
  x ← get_virt v;
  opsctx ← ops_of_net (Virt.network x);
  _ ← decommit_rates v;
  _ ← decommit_rules v LSDN_IN;
  _ ← decommit_rules v LSDN_OUT;
  _ ← foreach (v, F_virt_view_list) decommit_remote_virt;
  match Virt.committed_to x with
  | None => mret tt
  | Some pa =>
      _ ← call_op (remove_virt opsctx.1) v (λ err,
            _ ← mark_commit_err_virt opsctx.2 v true err; mret tt);
      _ ← upd_virt v (Virt.set_committed_to None);
      lsdn_if_reset (v, F_committed_if)
  end.

Definition decommit_remote_pa (rpa : ptr) : M heap unit :=
  x ← get_rpa rpa;
  local ← get_pa (Rpa.local x);
  opsctx ← ops_of_net (Pa.net local);
  _ ← foreach (rpa, F_remote_virt_list) decommit_remote_virt;
  _ ← call_op (remove_remote_pa opsctx.1) rpa (λ err,
        _ ← mark_commit_err_pa opsctx.2 (Rpa.remote x) true err; mret tt);
  _ ← list_remove (rpa, F_pa_view_entry);
  _ ← list_remove (rpa, F_remote_pa_entry);
  b ← is_list_empty (rpa, F_remote_virt_list);
  _ ← assert_ b;
  free_obj rpa.

Definition decommit_pa (pa : ptr) : M heap unit :=
  o ← get_pa pa;
  opsctx ← ops_of_net (Pa.net o);
  _ ← foreach (pa, F_pa_view_list) decommit_remote_pa;
  _ ← foreach (pa, F_remote_pa_list) decommit_remote_pa;
  p ← get_phys (Pa.phys o);
  when (Phys.committed_as_local p)
    (call_op (destroy_pa opsctx.1) pa (λ err,
       _ ← mark_commit_err_pa opsctx.2 pa true err; mret tt)).

(** ** Commit *)

(** Restores the interface and attachment a virt was committed to before. [if2] is the copy
    that [lsdn_if_swap] put in place of the committed interface. *)
Definition roll_back (v : ptr) (if2 : If.lsdn_if) (old_commited_to : option ptr) : M heap unit :=
  _ ← upd_if (v, F_committed_if) (λ _, if2);
  upd_virt v (Virt.set_committed_to old_commited_to).

(** The body of the loop over the connected virts, for a virt in the NEW state; the answer is
    whether the iteration goes on to the rules ([false] is [continue]). *)
Definition commit_new_virt (ops : lsdn_net_ops_tag) (ctx pa v : ptr) : M heap bool :=
  x ← get_virt v;
  conn ← get_if (v, F_connected_if);
  ok ← match If.ifname conn with Some _ => strdup | None => mret true end;
  if negb ok then
    _ ← upd_virt v (Virt.set_state LSDN_STATE_ERR);
    _ ← lsdn_problem_report ctx LSDNP_COMMIT_NOMEM [ProblemRef LSDNS_VIRT (RefObj v)];
    mret false
  else
  let old_commited_to := Virt.committed_to x in
  _ ← upd_virt v (Virt.set_committed_to (Some pa));
  if2 ← get_if (v, F_committed_if);
  _ ← upd_if (v, F_committed_if) (λ _, conn);
  failed ← match add_virt ops with
           | None => mret false
           | Some f => err ← f v; mark_commit_err_virt ctx v false err
           end;
  if failed : bool then _ ← roll_back v if2 old_commited_to; mret false else
  err ← commit_rates v;
  failed ← mark_commit_err_virt ctx v false err;
  if failed : bool then
    x ← get_virt v;
    if bool_decide (Virt.state x = LSDN_STATE_ERR) then
      f ← deref (remove_virt ops);
      err ← f v;
      if bool_decide (err ≠ LSDNE_OK) then
        _ ← upd_virt v (Virt.set_state LSDN_STATE_FAIL);
        vctx ← virt_ctx x;
        _ ← upd_ctx vctx (Ctx.set_inconsistent true);
        mret false
      else _ ← roll_back v if2 old_commited_to; mret false
    else mret false
  else mret true.

Definition commit_virt_of (ops : lsdn_net_ops_tag) (ctx pa v : ptr) : M heap unit :=
  x ← get_virt v;
  go ← (if bool_decide (Virt.state x = LSDN_STATE_NEW) then commit_new_virt ops ctx pa v
        else mret true);
  if go : bool then
    x ← get_virt v;
    if state_ok (Virt.state x) then
      _ ← commit_rules v LSDN_IN; commit_rules v LSDN_OUT
    else mret tt
  else mret tt.

(** The loop over the other attachments of the network. *)
Definition commit_remote_pa (ops : lsdn_net_ops_tag) (ctx pa remote : ptr) : M heap unit :=
  if bool_decide (remote = pa) then mret tt else
  o ← get_pa pa;
  r ← get_pa remote;
  if bool_decide (Pa.state o ≠ LSDN_STATE_NEW) && bool_decide (Pa.state r ≠ LSDN_STATE_NEW)
  then mret tt else
  m ← malloc;
  match m with
  | None =>
      _ ← lsdn_problem_report ctx LSDNP_COMMIT_NOMEM [ProblemRef LSDNS_PA (RefObj pa)];
      _ ← upd_pa pa (Pa.set_state LSDN_STATE_ERR);
      decommit_pa remote
  | Some rpa =>
      _ ← put_obj rpa (ORpa (Rpa.mk pa remote));
      _ ← list_init_add (remote, F_pa_view_list) (rpa, F_pa_view_entry);
      _ ← list_init_add (pa, F_remote_pa_list) (rpa, F_remote_pa_entry);
      _ ← list_init (rpa, F_remote_virt_list);
      call_op (add_remote_pa ops) rpa (λ err,
        failed ← mark_commit_err_pa ctx remote false err;
        if failed : bool then
          _ ← list_remove (rpa, F_pa_view_entry);
          _ ← list_remove (rpa, F_remote_pa_entry);
          _ ← free_obj rpa;
          decommit_pa remote
        else mret tt)
  end.

(** The loop over the virts of one remote attachment. *)
Definition commit_remote_virt (ops : lsdn_net_ops_tag) (ctx pa remote v : ptr) : M heap unit :=
  o ← get_pa pa;
  x ← get_virt v;
  if bool_decide (Pa.state o ≠ LSDN_STATE_NEW) && bool_decide (Virt.state x ≠ LSDN_STATE_NEW)
  then mret tt else
  m ← malloc;
  match m with
  | None =>
      _ ← lsdn_problem_report ctx LSDNP_COMMIT_NOMEM [ProblemRef LSDNS_VIRT (RefObj v)];
      _ ← upd_pa pa (Pa.set_state LSDN_STATE_ERR);
      decommit_virt v
  | Some rvirt =>
      _ ← put_obj rvirt (ORvirt (Rvirt.mk remote v));
      _ ← list_init_add (v, F_virt_view_list) (rvirt, F_virt_view_entry);
      _ ← list_init_add (remote, F_remote_virt_list) (rvirt, F_remote_virt_entry);
      call_op (add_remote_virt ops) rvirt (λ err,
        failed ← mark_commit_err_virt ctx v false err;
        when failed (decommit_virt v))
  end.

Definition commit_pa (pa : ptr) : M heap unit :=
  o ← get_pa pa;
  opsctx ← ops_of_net (Pa.net o);
  let '(ops, ctx) := opsctx in
  _ ← when (bool_decide (Pa.state o = LSDN_STATE_NEW)) (
        err ← create_pa ops pa;
        _ ← mark_commit_err_pa ctx pa false err; mret tt);
  o ← get_pa pa;
  if negb (state_ok (Pa.state o)) then mret tt else
  _ ← foreach (pa, F_connected_virt_list) (commit_virt_of ops ctx pa);
  _ ← foreach (Pa.net o, F_attached_list) (commit_remote_pa ops ctx pa);
  foreach (pa, F_remote_pa_list) (λ remote,
    x ← get_rpa remote;
    foreach (Rpa.remote x, F_connected_virt_list) (commit_remote_virt ops ctx pa remote)).

(** ** The phases of [lsdn_commit] *)

Definition trigger_startup_hooks (ctx : ptr) : M heap unit :=
  foreach (ctx, F_phys_list) (λ p,
    x ← get_phys p;
    when (Phys.is_local x) (
      foreach (p, F_attached_to_list) (λ a,
        o ← get_pa a;
        n ← get_net (Pa.net o);
        st ← settings_of_net n;
        match Settings.user_hooks st with
        | Some (UserHooks (Some u)) =>
            modify (λ s, H.set_events (H.events s ++ [EvStartupHook (Pa.net o) p u]) s)
        | _ => mret tt
        end))).

(** [ack_delete] *)
Definition ack_delete (pending_free : bool) (freefn : M heap unit) : M heap unit :=
  when pending_free freefn.

Definition decommit_virt_of (v : ptr) : M heap unit :=
  x ← get_virt v;
  let '(st, b) := ack_decommit (Virt.state x) in
  _ ← upd_virt v (Virt.set_state st);
  when b (_ ← decommit_virt v; x ← get_virt v; ack_delete (Virt.pending_free x) (virt_do_free v)).

Definition decommit_pa_of (pa : ptr) : M heap unit :=
  o ← get_pa pa;
  let '(st, b) := ack_decommit (Pa.state o) in
  _ ← upd_pa pa (Pa.set_state st);
  when b (_ ← decommit_pa pa; o ← get_pa pa; ack_delete (Pa.pending_free o) (pa_do_free pa)).

Definition decommit_net_of (n : ptr) : M heap unit :=
  _ ← foreach (n, F_virt_list) decommit_virt_of;
  _ ← foreach (n, F_attached_list) decommit_pa_of;
  x ← get_net n;
  let '(st, b) := ack_decommit (Net.state x) in
  _ ← upd_net n (Net.set_state st);
  when b (ack_delete (Net.pending_free x) (net_do_free n)).

Definition decommit_phys_of (p : ptr) : M heap unit :=
  x ← get_phys p;
  let '(st, b) := ack_decommit (Phys.state x) in
  _ ← upd_phys p (Phys.set_state st);
  when b (ack_delete (Phys.pending_free x) (phys_do_free p)).

Definition decommit_settings_of (p : ptr) : M heap unit :=
  x ← get_settings p;
  let '(st, b) := ack_decommit (Settings.state x) in
  _ ← upd_settings p (Settings.set_state st);
  when b (ack_delete (Settings.pending_free x) (settings_do_free p)).

Definition decommit_phase (ctx : ptr) : M heap unit :=
  _ ← foreach (ctx, F_networks_list) decommit_net_of;
  _ ← foreach (ctx, F_phys_list) decommit_phys_of;
  foreach (ctx, F_settings_list) decommit_settings_of.

Definition commit_phase (ctx : ptr) : M heap unit :=
  foreach (ctx, F_phys_list) (λ p,
    x ← get_phys p;
    when (Phys.is_local x) (
      _ ← upd_phys p (Phys.set_committed_as_local (Phys.is_local x));
      foreach (p, F_attached_to_list) commit_pa)).

Definition ack_phase (ctx : ptr) : M heap unit :=
  _ ← foreach (ctx, F_settings_list) (λ p,
        upd_settings p (λ x, Settings.set_state (ack_state (Settings.state x)) x));
  _ ← foreach (ctx, F_phys_list) (λ p,
        upd_phys p (λ x, Phys.set_state (ack_state (Phys.state x)) x));
  foreach (ctx, F_networks_list) (λ n,
    _ ← upd_net n (λ x, Net.set_state (ack_state (Net.state x)) x);
    _ ← foreach (n, F_attached_list) (λ pa,
          upd_pa pa (λ x, Pa.set_state (ack_state (Pa.state x)) x));
    foreach (n, F_virt_list) (λ v,
      upd_virt v (λ x, Virt.set_state (ack_state (Virt.state x)) x))).

(** [lsdn_commit] *)
Definition lsdn_commit (ctx : ptr) (cb : option problem_cb_t) : M heap lsdn_err_t :=
  _ ← trigger_startup_hooks ctx;
  err ← lsdn_validate ctx cb;
  if bool_decide (err ≠ LSDNE_OK) then mret err else
  err ← lsdn_context_ensure_socket ctx;
  if bool_decide (err ≠ LSDNE_OK) then
    _ ← lsdn_problem_report ctx LSDNP_NO_NLSOCK []; mret err
  else
  _ ← decommit_phase ctx;
  _ ← commit_phase ctx;
  _ ← ack_phase ctx;
  c ← get_ctx ctx;
  mret (if Ctx.inconsistent c then LSDNE_INCONSISTENT
        else if 0 <? Ctx.problem_count c then LSDNE_COMMIT else LSDNE_OK).

(** [lsdn_context_cleanup]: closing the socket of a context without one dereferences NULL. *)
Definition lsdn_context_cleanup (ctx : ptr) (cb : option problem_cb_t) : M heap unit :=
  _ ← foreach (ctx, F_phys_list) lsdn_phys_free;
  _ ← foreach (ctx, F_settings_list) lsdn_settings_free;
  _ ← lsdn_commit ctx cb;
  c ← get_ctx ctx;
  _ ← deref (if Ctx.nlsock c then Some tt else None);
  free_obj ctx.

Definition lsdn_context_free (ctx : ptr) : M heap unit :=
  _ ← upd_ctx ctx (Ctx.set_disable_decommit true);
  lsdn_context_cleanup ctx (Some abort_handler).
End commit.
