(* ===== verification/NetOps.v ===== *)
(** * The network types ([netmodel/net_direct.c], [net_vlan.c], [net_vxlan.c], [net_geneve.c])

    The operation tables that the commit calls to create and remove the kernel objects of
    attachments, virts, remote attachments and remote virts: the instance of [NetOps]. *)

From Stdlib Require Import ZArith.
From stdpp Require Import base list gmap strings.
From S2P Require Import Prelude.
From S2P Require Import Status.
From S2P Require Import Nettypes.
From S2P Require Import Heap.
From S2P Require Import Base.
From S2P Require Import Model.
From S2P Require Import Nl.
From S2P Require Import Rules.
From S2P Require Import Commit.
From S2P Require Import SBridge.
From S2P Require Import LBridge.

Local Open Scope Z_scope.

(** [a->net->settings] *)
Definition pa_settings (a : ptr) : M heap ptr :=
  o ← get_pa a; n ← get_net (Pa.net o); mret (Net.settings n).

(** ** Direct networks *)

Definition direct_create_pa (a : ptr) : M heap lsdn_err_t :=
  let tunnel_if := (a, F_tunnel_if) in
  _ ← lsdn_if_init tunnel_if;
  o ← get_pa a;
  p ← get_phys (Pa.phys o);
  iface ← deref (Phys.attr_iface p);
  err ← lsdn_if_set_name tunnel_if iface;
  if bool_decide (err ≠ LSDNE_OK) then mret err else
  err ← lsdn_if_resolve tunnel_if;
  if bool_decide (err ≠ LSDNE_OK) then _ ← lsdn_if_free tunnel_if; mret err else
  err ← lsdn_lbridge_create_pa a;
  if bool_decide (err ≠ LSDNE_OK) then _ ← lsdn_if_free tunnel_if; mret err else
  mret LSDNE_OK.

(** ** Networks with a link of their own: vlan and learning vxlan *)

(** What these do after a failed [lsdn_lbridge_create_pa]: the link goes again. *)
Definition undo_tunnel (a : ptr) (err : lsdn_err_t) : M heap lsdn_err_t :=
  ctx ← pa_ctx a;
  err' ← lsdn_link_delete ctx (a, F_tunnel_if);
  if bool_decide (err' ≠ LSDNE_OK) then mret LSDNE_INCONSISTENT else
  _ ← lsdn_if_free (a, F_tunnel_if);
  mret err.

Definition vlan_create_pa (p : ptr) : M heap lsdn_err_t :=
  let tunnel_if := (p, F_tunnel_if) in
  _ ← lsdn_if_init tunnel_if;
  o ← get_pa p;
  n ← get_net (Pa.net o);
  ph ← get_phys (Pa.phys o);
  iface ← deref (Phys.attr_iface ph);
  c ← get_ctx (Net.ctx n);
  name ← lsdn_mk_name (Net.ctx n) "iface";
  err ← lsdn_link_vlan_create (Net.ctx n) tunnel_if iface name (Net.vnet_id n) (Ctx.overwrite c);
  if bool_decide (err ≠ LSDNE_OK) then mret err else
  err ← lsdn_lbridge_create_pa p;
  if bool_decide (err ≠ LSDNE_OK) then undo_tunnel p err else
  mret LSDNE_OK.

Definition vxlan_mcast_create_pa (a : ptr) : M heap lsdn_err_t :=
  let tunnel_if := (a, F_tunnel_if) in
  o ← get_pa a;
  n ← get_net (Pa.net o);
  st ← get_settings (Net.settings n);
  _ ← lsdn_if_init tunnel_if;
  ph ← get_phys (Pa.phys o);
  c ← get_ctx (Net.ctx n);
  name ← lsdn_mk_name (Net.ctx n) "iface";
  mcast_ip ← live (Settings.mcast_ip st);
  err ← lsdn_link_vxlan_create (Net.ctx n) tunnel_if (Phys.attr_iface ph) name (Some mcast_ip)
          (Net.vnet_id n) (Settings.port st) true false (v mcast_ip) (Ctx.overwrite c);
  if bool_decide (err ≠ LSDNE_OK) then _ ← lsdn_if_free tunnel_if; mret err else
  err ← lsdn_lbridge_create_pa a;
  if bool_decide (err ≠ LSDNE_OK) then undo_tunnel a err else
  mret LSDNE_OK.

(** The handle of the tunnel is not initialised before the link is there. *)
Definition vxlan_e2e_create_pa (a : ptr) : M heap lsdn_err_t :=
  let tunnel_if := (a, F_tunnel_if) in
  o ← get_pa a;
  n ← get_net (Pa.net o);
  st ← get_settings (Net.settings n);
  ph ← get_phys (Pa.phys o);
  c ← get_ctx (Net.ctx n);
  name ← lsdn_mk_name (Net.ctx n) "iface";
  ip ← deref (Phys.attr_ip ph);
  err ← lsdn_link_vxlan_create (Net.ctx n) tunnel_if (Phys.attr_iface ph) name None
          (Net.vnet_id n) (Settings.port st) true false (v ip) (Ctx.overwrite c);
  if bool_decide (err ≠ LSDNE_OK) then mret err else
  err ← lsdn_lbridge_create_pa a;
  if bool_decide (err ≠ LSDNE_OK) then
    e ← lsdn_link_delete (Net.ctx n) tunnel_if;
    _ ← lsdn_if_free tunnel_if;
    mret (acc_inconsistent err e)
  else mret err.

(** [*remote->remote->phys->attr_ip] *)
Definition remote_ip (remote : ptr) : M heap lsdn_ip_t :=
  x ← get_rpa remote;
  r ← get_pa (Rpa.remote x);
  p ← get_phys (Pa.phys r);
  deref (Phys.attr_ip p).

Definition vxlan_e2e_add_remote_pa (remote : ptr) : M heap lsdn_err_t :=
  x ← get_rpa remote;
  ctx ← pa_ctx (Rpa.local x);
  i ← get_if (Rpa.local x, F_tunnel_if);
  ip ← remote_ip remote;
  lsdn_fdb_add_entry ctx (If.ifindex i) lsdn_all_zeroes_mac ip.

Definition vxlan_e2e_remove_remote_pa (remote : ptr) : M heap lsdn_err_t :=
  x ← get_rpa remote;
  ctx ← pa_ctx (Rpa.local x);
  c ← get_ctx ctx;
  if Ctx.disable_decommit c then mret LSDNE_OK else
  i ← get_if (Rpa.local x, F_tunnel_if);
  ip ← remote_ip remote;
  lsdn_fdb_remove_entry ctx (If.ifindex i) lsdn_all_zeroes_mac ip.

(** ** Shared tunnels: static vxlan, and geneve *)

(** [vxlan_release_stunnel] and [geneve_release_stunnel]; the counter is a [size_t]. *)
Definition release_stunnel (st : ptr) : M heap unit :=
  _ ← upd_settings st (λ x, Settings.set_refcount (u64 (Settings.refcount x - 1)) x);
  x ← get_settings st;
  when (Settings.refcount x =? 0) (
    _ ← lsdn_sbridge_phys_if_free (st, F_tunnel_sbridge);
    c ← get_ctx (Settings.ctx x);
    _ ← when (negb (Ctx.disable_decommit c)) (
          err ← lsdn_link_delete (Settings.ctx x) (st, F_tunnel);
          if bool_decide (err ≠ LSDNE_OK) then fail Aborted else mret tt);
    _ ← lsdn_ruleset_free (st, F_ruleset_in);
    lsdn_if_free (st, F_tunnel)).
Definition vxlan_release_stunnel : ptr → M heap unit := release_stunnel.
Definition geneve_release_stunnel : ptr → M heap unit := release_stunnel.

Definition use_counted (st : ptr) (err : lsdn_err_t) : M heap lsdn_err_t :=
  _ ← upd_settings st (λ x, Settings.set_refcount (u64 (Settings.refcount x + 1)) x);
  mret err.

Definition vxlan_use_stunnel (a : ptr) : M heap lsdn_err_t :=
  s ← pa_settings a;
  x ← get_settings s;
  let ctx := Settings.ctx x in
  let tunnel := (s, F_tunnel) in
  let rules_in := (s, F_ruleset_in) in
  let cleanup_link err :=
    e ← lsdn_link_delete ctx tunnel;
    _ ← lsdn_if_free tunnel;
    mret (acc_inconsistent err e) in
  let cleanup_phys_if err :=
    e ← lsdn_sbridge_phys_if_free (s, F_tunnel_sbridge); cleanup_link (acc_inconsistent err e) in
  if Settings.refcount x =? 0 then
    c ← get_ctx ctx;
    name ← lsdn_mk_name ctx "iface";
    o ← get_pa a;
    ph ← get_phys (Pa.phys o);
    ip ← deref (Phys.attr_ip ph);
    err ← lsdn_link_vxlan_create ctx tunnel None name None 0 (Settings.port x) false true (v ip)
            (Ctx.overwrite c);
    if bool_decide (err ≠ LSDNE_OK) then cleanup_link err else
    i ← get_if tunnel;
    err ← lsdn_link_set ctx (If.ifindex i) true;
    if bool_decide (err ≠ LSDNE_OK) then cleanup_link err else
    err ← lsdn_prepare_rulesets ctx tunnel (Some rules_in) None;
    if bool_decide (err ≠ LSDNE_OK) then cleanup_link err else
    err ← lsdn_sbridge_phys_if_init ctx (s, F_tunnel_sbridge) tunnel true rules_in;
    if bool_decide (err ≠ LSDNE_OK) then cleanup_phys_if err else
    use_counted s err
  else use_counted s LSDNE_OK.

Definition vxlan_static_create_pa (pa : ptr) : M heap lsdn_err_t :=
  let sbridge := (pa, F_sbridge) in
  err ← vxlan_use_stunnel pa;
  if bool_decide (err ≠ LSDNE_OK) then mret err else
  o ← get_pa pa;
  n ← get_net (Pa.net o);
  err ← lsdn_sbridge_init (Net.ctx n) sbridge;
  if bool_decide (err ≠ LSDNE_OK) then _ ← vxlan_release_stunnel (Net.settings n); mret err else
  err ← lsdn_sbridge_add_stunnel sbridge (pa, F_sbridge_if) (Net.settings n, F_tunnel_sbridge) (Pa.net o);
  if bool_decide (err ≠ LSDNE_OK) then
    e ← lsdn_sbridge_free sbridge;
    _ ← vxlan_release_stunnel (Net.settings n);
    mret (acc_inconsistent err e)
  else mret err.

Definition vxlan_static_destroy_pa (pa : ptr) : M heap lsdn_err_t :=
  e1 ← lsdn_sbridge_remove_stunnel (pa, F_sbridge_if);
  e2 ← lsdn_sbridge_free (pa, F_sbridge);
  s ← pa_settings pa;
  _ ← vxlan_release_stunnel s;
  mret (acc_inconsistent (acc_inconsistent LSDNE_OK e1) e2).

(** The common text of [vxlan_static_add_virt] and [geneve_add_virt]. *)
Definition static_add_virt (virt : ptr) : M heap lsdn_err_t :=
  x ← get_virt virt;
  pa ← deref (Virt.committed_to x);
  lsdn_sbridge_add_virt (pa, F_sbridge) virt.
Definition vxlan_static_add_virt : ptr → M heap lsdn_err_t := static_add_virt.
Definition geneve_add_virt : ptr → M heap lsdn_err_t := static_add_virt.
Definition vxlan_static_remove_virt (virt : ptr) : M heap lsdn_err_t := lsdn_sbridge_remove_virt virt.
Definition geneve_remove_virt (virt : ptr) : M heap lsdn_err_t := lsdn_sbridge_remove_virt virt.

Definition static_add_remote_pa (f : ptr → tunnel_fn) (pa : ptr) : M heap lsdn_err_t :=
  x ← get_rpa pa;
  _ ← put_struct (pa, F_sbridge_route)
        (NSbridgeRoute (SbridgeRoute.mk (TunnelDesc 1 (Some (f pa))) None));
  lsdn_sbridge_add_route (Rpa.local x, F_sbridge_if) (pa, F_sbridge_route).
Definition vxlan_static_add_remote_pa : ptr → M heap lsdn_err_t :=
  static_add_remote_pa set_vxlan_metadata.
Definition geneve_add_remote_pa : ptr → M heap lsdn_err_t := static_add_remote_pa set_geneve_metadata.

Definition vxlan_static_remove_remote_pa (pa : ptr) : M heap lsdn_err_t :=
  lsdn_sbridge_remove_route (pa, F_sbridge_route).
Definition geneve_remove_remote_pa (pa : ptr) : M heap lsdn_err_t :=
  lsdn_sbridge_remove_route (pa, F_sbridge_route).

(** The common text of [vxlan_static_add_remote_virt] and [geneve_add_remote_virt]. *)
Definition static_add_remote_virt (virt : ptr) : M heap lsdn_err_t :=
  x ← get_rvirt virt;
  y ← get_virt (Rvirt.virt x);
  mac ← deref (Virt.attr_mac y);
  lsdn_sbridge_add_mac (Rvirt.pa x, F_sbridge_route) (virt, F_sbridge_mac) mac.
Definition vxlan_static_add_remote_virt : ptr → M heap lsdn_err_t := static_add_remote_virt.
Definition geneve_add_remote_virt : ptr → M heap lsdn_err_t := static_add_remote_virt.

Definition vxlan_static_remove_remote_virt (virt : ptr) : M heap lsdn_err_t :=
  lsdn_sbridge_remove_mac (virt, F_sbridge_mac).
Definition geneve_remove_remote_virt (virt : ptr) : M heap lsdn_err_t :=
  lsdn_sbridge_remove_mac (virt, F_sbridge_mac).

Definition geneve_use_stunnel (a : ptr) : M heap lsdn_err_t :=
  s ← pa_settings a;
  x ← get_settings s;
  let ctx := Settings.ctx x in
  let tunnel := (s, F_tunnel) in
  let rules_in := (s, F_ruleset_in) in
  let delete err := e ← lsdn_link_delete ctx tunnel; mret (acc_inconsistent err e) in
  if Settings.refcount x =? 0 then
    c ← get_ctx ctx;
    name ← lsdn_mk_name ctx "iface";
    err ← lsdn_link_geneve_create ctx tunnel name (Settings.port x) true (Ctx.overwrite c);
    if bool_decide (err ≠ LSDNE_OK) then mret err else
    i ← get_if tunnel;
    err ← lsdn_link_set ctx (If.ifindex i) true;
    if bool_decide (err ≠ LSDNE_OK) then delete err else
    err ← lsdn_prepare_rulesets ctx tunnel (Some rules_in) None;
    if bool_decide (err ≠ LSDNE_OK) then delete err else
    err ← lsdn_sbridge_phys_if_init ctx (s, F_tunnel_sbridge) tunnel true rules_in;
    if bool_decide (err ≠ LSDNE_OK) then delete err else
    use_counted s err
  else use_counted s LSDNE_OK.

Definition geneve_create_pa (pa : ptr) : M heap lsdn_err_t :=
  let sbridge := (pa, F_sbridge) in
  err ← geneve_use_stunnel pa;
  if bool_decide (err ≠ LSDNE_OK) then mret err else
  o ← get_pa pa;
  n ← get_net (Pa.net o);
  err ← lsdn_sbridge_init (Net.ctx n) sbridge;
  if bool_decide (err ≠ LSDNE_OK) then _ ← geneve_release_stunnel (Net.settings n); mret err else
  err ← lsdn_sbridge_add_stunnel sbridge (pa, F_sbridge_if) (Net.settings n, F_tunnel_sbridge) (Pa.net o);
  if bool_decide (err ≠ LSDNE_OK) then
    _ ← geneve_release_stunnel (Net.settings n);
    e ← lsdn_sbridge_free sbridge;
    mret (acc_inconsistent err e)
  else mret LSDNE_OK.

Definition geneve_destroy_pa (pa : ptr) : M heap lsdn_err_t :=
  e1 ← lsdn_sbridge_remove_stunnel (pa, F_sbridge_if);
  e2 ← lsdn_sbridge_free (pa, F_sbridge);
  s ← pa_settings pa;
  _ ← geneve_release_stunnel s;
  mret (acc_inconsistent (acc_inconsistent LSDNE_OK e1) e2).

(** ** Geneve with a learning bridge *)

Definition geneve_e2e_create_pa (pa : ptr) : M heap lsdn_err_t :=
  err ← geneve_use_stunnel pa;
  if bool_decide (err ≠ LSDNE_OK) then mret err else
  o ← get_pa pa;
  n ← get_net (Pa.net o);
  err ← lsdn_lbridge_init (Net.ctx n) (pa, F_lbridge);
  if bool_decide (err ≠ LSDNE_OK) then _ ← geneve_release_stunnel (Net.settings n); mret err else
  mret LSDNE_OK.

Definition geneve_e2e_destroy_pa (pa : ptr) : M heap lsdn_err_t :=
  e ← lsdn_lbridge_free (pa, F_lbridge);
  s ← pa_settings pa;
  _ ← geneve_release_stunnel s;
  mret (acc_inconsistent LSDNE_OK e).

Definition geneve_e2e_add_virt (virt : ptr) : M heap lsdn_err_t := lsdn_lbridge_add_virt virt.
Definition geneve_e2e_remove_virt (virt : ptr) : M heap lsdn_err_t := lsdn_lbridge_remove_virt virt.

Definition geneve_e2e_add_remote_pa (pa : ptr) : M heap lsdn_err_t :=
  x ← get_rpa pa;
  local ← get_pa (Rpa.local x);
  n ← get_net (Pa.net local);
  ip ← remote_ip pa;
  s ← get;
  let garbage := Env.garbage (H.env s) pa !!! 0%nat in
  let source_match := match v ip with
                      | LSDN_IPv4 => LSDN_MATCH_ENC_KEY_SRC_IPV4
                      | LSDN_IPv6 => LSDN_MATCH_ENC_KEY_SRC_IPV6
                      end in
  _ ← put_struct (pa, F_lbridge_route) (NLbridgeRoute
        (LbridgeRoute.mk (TunnelDesc 1 (Some (set_geneve_metadata pa)))
           (Net.settings n, F_tunnel_sbridge)
           LSDN_MATCH_ENC_KEY_ID (union_set (word_bytes (Net.vnet_id n)) garbage)
           source_match (union_set (ip_bytes ip) garbage) None));
  lsdn_lbridge_add_route (Rpa.local x, F_lbridge) (pa, F_lbridge_route) (Net.vnet_id n).

Definition geneve_e2e_remove_remote_pa (pa : ptr) : M heap lsdn_err_t :=
  lsdn_lbridge_remove_route (pa, F_lbridge_route).

(** ** The tables *)

Global Instance lsdn_net_ops : NetOps := {|
  create_pa t := match t with
    | lsdn_net_vxlan_mcast_ops => vxlan_mcast_create_pa
    | lsdn_net_vxlan_e2e_ops => vxlan_e2e_create_pa
    | lsdn_net_vxlan_static_ops => vxlan_static_create_pa
    | lsdn_net_vlan_ops => vlan_create_pa
    | lsdn_net_direct_ops => direct_create_pa
    | lsdn_net_geneve_ops => geneve_create_pa
    | lsdn_net_geneve_e2e_ops => geneve_e2e_create_pa
    end;
  add_virt t := match t with
    | lsdn_net_vxlan_static_ops => Some vxlan_static_add_virt
    | lsdn_net_geneve_ops => Some geneve_add_virt
    | lsdn_net_geneve_e2e_ops => Some geneve_e2e_add_virt
    | _ => Some lsdn_lbridge_add_virt
    end;
  add_remote_pa t := match t with
    | lsdn_net_vxlan_e2e_ops => Some vxlan_e2e_add_remote_pa
    | lsdn_net_vxlan_static_ops => Some vxlan_static_add_remote_pa
    | lsdn_net_geneve_ops => Some geneve_add_remote_pa
    | lsdn_net_geneve_e2e_ops => Some geneve_e2e_add_remote_pa
    | _ => None
    end;
  add_remote_virt t := match t with
    | lsdn_net_vxlan_static_ops => Some vxlan_static_add_remote_virt
    | lsdn_net_geneve_ops => Some geneve_add_remote_virt
    | _ => None
    end;
  destroy_pa t := match t with
    | lsdn_net_vxlan_static_ops => Some vxlan_static_destroy_pa
    | lsdn_net_geneve_ops => Some geneve_destroy_pa
    | lsdn_net_geneve_e2e_ops => Some geneve_e2e_destroy_pa
    | _ => Some lsdn_lbridge_destroy_pa
    end;
  remove_virt t := match t with
    | lsdn_net_vxlan_static_ops => Some vxlan_static_remove_virt
    | lsdn_net_geneve_ops => Some geneve_remove_virt
    | lsdn_net_geneve_e2e_ops => Some geneve_e2e_remove_virt
    | _ => Some lsdn_lbridge_remove_virt
    end;
  remove_remote_pa t := match t with
    | lsdn_net_vxlan_e2e_ops => Some vxlan_e2e_remove_remote_pa
    | lsdn_net_vxlan_static_ops => Some vxlan_static_remove_remote_pa
    | lsdn_net_geneve_ops => Some geneve_remove_remote_pa
    | lsdn_net_geneve_e2e_ops => Some geneve_e2e_remove_remote_pa
    | _ => None
    end;
  remove_remote_virt t := match t with
    | lsdn_net_vxlan_static_ops => Some vxlan_static_remove_remote_virt
    | lsdn_net_geneve_ops => Some geneve_remove_remote_virt
    | _ => None
    end |}.
