(* ===== verification/Kernel.v ===== *)
(** * The kernel's links

    What the network types rely on: a reference model of the links of the kernel as the effect
    of the acknowledged requests, and what a sane environment answers with respect to it. *)

From Stdlib Require Import ZArith Lia.
From stdpp Require Import base list gmap strings.
From S2P Require Import Prelude.
From S2P Require Import Heap.

Local Open Scope Z_scope.

Record link := Link { l_name : string; l_kind : link_kind; l_master : Z; l_up : bool }.
Definition set_master (m : Z) (l : link) : link := Link (l_name l) (l_kind l) m (l_up l).
Definition set_up (b : bool) (l : link) : link := Link (l_name l) (l_kind l) (l_master l) b.

(** The links by their index; indices are not reused. *)
Record kstate := KState { links : gmap Z link; next_index : Z }.

Definition create_link (n : string) (kd : link_kind) (k : kstate) : kstate :=
  KState (<[next_index k := Link n kd 0 false]> (links k)) (next_index k + 1).

(** A bridge that goes releases its ports. *)
Definition release (i : Z) (l : link) : link :=
  if bool_decide (l_master l = i) then set_master 0 l else l.
Definition delete_link (i : Z) (k : kstate) : kstate :=
  KState (release i <$> delete i (links k)) (next_index k).

(** The effect of a request on the links, if it is acknowledged. *)
Definition kstep (k : kstate) (m : request * bool) : kstate :=
  if m.2 then
    match m.1 with
    | ReqLinkCreate n (LinkVeth peer as kd) => create_link peer (LinkVeth n) (create_link n kd k)
    | ReqLinkCreate n kd => create_link n kd k
    | ReqLinkDelete i => delete_link i k
    | ReqLinkMaster master slave => KState (alter (set_master master) slave (links k)) (next_index k)
    | ReqLinkSet i up => KState (alter (set_up up) i (links k)) (next_index k)
    | _ => k
    end
  else k.

Definition kernel (k0 : kstate) (tr : list (request * bool)) : kstate := foldl kstep k0 tr.

Definition index_of (n : string) (k : kstate) : Z :=
  match filter (λ kv : Z * link, l_name kv.2 = n) (map_to_list (links k)) with
  | (i, _) :: _ => i
  | [] => 0
  end.

(** A kernel that starts with the links of [k0], finds interfaces by name among the links
    there are, and does not create a link under a name that is taken. *)
Record kernel_ok (k0 : kstate) (env : Env.env) : Prop := {
  kok_names tr n : Env.if_nametoindex env tr n = index_of n (kernel k0 tr);
  kok_excl tr n kd : Env.kernel_ack env tr (ReqLinkCreate n kd) = true →
    index_of n (kernel k0 tr) = 0 }.

(** A kernel with the links [k0] that acknowledges what [ack] says. *)
Definition kernel_env_of (k0 : kstate) (malloc_ok : nat → bool) (ack : request → bool) : Env.env :=
  Env.mk malloc_ok (λ _, replicate 2 (replicate 16 0)) (λ _, 0)
    (λ tr n, index_of n (kernel k0 tr)) true
    (λ tr r, match r with
             | ReqLinkCreate n _ => ack r && bool_decide (index_of n (kernel k0 tr) = 0)
             | _ => ack r
             end).

(** One with the interface [eth0] only. *)
Definition eth0 : kstate := KState {[1 := Link "eth0" LinkDummy 0 true]} 2.
Definition kernel_env : (nat → bool) → (request → bool) → Env.env := kernel_env_of eth0.
