(* ===== verification/Masks.v ===== *)
(** * Masked keys

    The rules of one priority are looked up by their masked match data
    ([lsdn_rule_apply_mask] of [netmodel/rules.c]). Here is what that key means for packets:
    rules with equal keys match the same packets, rules with different keys have no packet in
    common, and the flower options made from the key, the Ethernet type among them, match exactly
    the frames of the rule. *)

From Stdlib Require Import ZArith Lia.
From stdpp Require Import base list gmap.
From S2P Require Import Prelude.
From S2P Require Import Heap.
From S2P Require Import Model.
From S2P Require Import Nl.
From S2P Require Import Rules.

Local Open Scope Z_scope.

(** ** What rules and filters mean for a packet *)

(** The size of a match value. *)
Definition target_len (t : lsdn_rule_target) : nat :=
  match t with
  | LSDN_MATCH_NONE => 0
  | LSDN_MATCH_SRC_MAC | LSDN_MATCH_DST_MAC => 6
  | LSDN_MATCH_SRC_IPV4 | LSDN_MATCH_DST_IPV4 | LSDN_MATCH_ENC_KEY_SRC_IPV4
  | LSDN_MATCH_ENC_KEY_DST_IPV4 | LSDN_MATCH_ENC_KEY_ID => 4
  | LSDN_MATCH_SRC_IPV6 | LSDN_MATCH_DST_IPV6 | LSDN_MATCH_ENC_KEY_SRC_IPV6
  | LSDN_MATCH_ENC_KEY_DST_IPV6 => 16
  end.

(** A packet, as the values of its fields. *)
Definition packet : Type := lsdn_rule_target → list Z.
Definition packet_ok (pkt : packet) : Prop := ∀ t, length (pkt t) = target_len t.

Definition mask_with (mask value : list Z) : list Z := zip_with Z.land value mask.

(** One match condition of a rule: the masked fields are equal; the tunnel key is compared as
    a whole. *)
Definition target_matches (pkt : packet) (t : lsdn_rule_target) (mask value : matchdata) : Prop :=
  let n := target_len t in
  if lsdn_target_supports_masking t
  then mask_with (take n mask) (pkt t) = mask_with (take n mask) (take n value)
  else pkt t = take n value.

Inductive rule_matches (pkt : packet)
    : list lsdn_rule_target → list matchdata → list matchdata → Prop :=
| rule_matches_nil : rule_matches pkt [] [] []
| rule_matches_cons t ts m ms v vs :
    target_matches pkt t m v → rule_matches pkt ts ms vs →
    rule_matches pkt (t :: ts) (m :: ms) (v :: vs).

(** A frame is its Ethernet type and its fields. A condition on an IP address holds only for
    frames of that version of IP; the addresses of a tunnel are not in the frame. *)
Definition ip_version_type (t : lsdn_rule_target) : option Z :=
  match t with
  | LSDN_MATCH_SRC_IPV4 | LSDN_MATCH_DST_IPV4 => Some 0x0800
  | LSDN_MATCH_SRC_IPV6 | LSDN_MATCH_DST_IPV6 => Some 0x86DD
  | _ => None
  end.
Definition type_fits (eth : Z) (t : lsdn_rule_target) : Prop :=
  match ip_version_type t with Some e => eth = e | None => True end.
Definition frame_matches (eth : Z) (pkt : packet) (ts : list lsdn_rule_target)
    (ms vs : list matchdata) : Prop :=
  Forall (type_fits eth) ts ∧ rule_matches pkt ts ms vs.

(** One option of a flower filter, as the kernel reads it. *)
Definition opt_matches (eth : Z) (pkt : packet) (o : flower_opt) : Prop :=
  match o with
  | FlEthType e => eth = e
  | FlKey t value mask => mask_with mask (pkt t) = mask_with mask value
  | FlEncKeyId id => pkt LSDN_MATCH_ENC_KEY_ID = id
  end.
Definition filter_matches (eth : Z) (pkt : packet) (f : lsdn_filter) : Prop :=
  Forall (opt_matches eth pkt) (f_opts f).

(** The match data of a rule of a priority: 16 bytes for each position. *)
Inductive shaped : list lsdn_rule_target → list matchdata → list matchdata → Prop :=
| shaped_nil : shaped [] [] []
| shaped_cons t ts m ms v vs :
    length m = LSDN_MAX_MATCH_LEN → length v = LSDN_MAX_MATCH_LEN →
    shaped ts ms vs → shaped (t :: ts) (m :: ms) (v :: vs).

(** Masks have no bits past the value: the masks of virt rules start as zeroes and are
    overwritten with a value of the size of the target. *)
Definition clean_mask (t : lsdn_rule_target) (m : matchdata) : Prop :=
  drop (target_len t) m = replicate (LSDN_MAX_MATCH_LEN - target_len t) 0.

(** ** Masking *)

Lemma mask_with_idem m v : mask_with m (mask_with m v) = mask_with m v.
Proof.
  unfold mask_with. revert v. induction m as [|b m IH]; intros [|a v]; simpl; [done..|].
  rewrite IH. f_equal. by rewrite <-Z.land_assoc, Z.land_diag.
Qed.

Lemma take_mask_with n m v : take n (mask_with m v) = mask_with (take n m) (take n v).
Proof. apply zip_with_take. Qed.

Lemma drop_mask_with n m v : drop n (mask_with m v) = mask_with (drop n m) (drop n v).
Proof. apply zip_with_drop. Qed.

Lemma mask_with_zero n v : (n ≤ length v)%nat → mask_with (replicate n 0) v = replicate n 0.
Proof.
  unfold mask_with. revert v. induction n as [|n IH]; intros [|a v] Hl; simpl in *; try done; [lia|].
  rewrite IH by lia. by rewrite Z.land_0_r.
Qed.

Lemma target_len_bound t : (target_len t ≤ LSDN_MAX_MATCH_LEN)%nat.
Proof. destruct t; vm_compute; lia. Qed.

(** The masked value of one position. *)
Lemma apply_mask1_masked t m v :
  lsdn_target_supports_masking t = true → apply_mask1 t m v = mask_with m v.
Proof. unfold apply_mask1. by intros ->. Qed.

Lemma apply_mask1_hard t m v :
  lsdn_target_supports_masking t = false → apply_mask1 t m v = hard_mask (target_len t) v.
Proof. by destruct t. Qed.

Lemma length_apply_mask1 t m v :
  length m = LSDN_MAX_MATCH_LEN → length v = LSDN_MAX_MATCH_LEN →
  length (apply_mask1 t m v) = LSDN_MAX_MATCH_LEN.
Proof.
  intros Hm Hv. destruct (lsdn_target_supports_masking t) eqn:Ht.
  - rewrite apply_mask1_masked by done. unfold mask_with. rewrite length_zip_with_l; lia.
  - rewrite apply_mask1_hard by done. unfold hard_mask.
    rewrite length_app, length_take, length_replicate. pose proof (target_len_bound t). lia.
Qed.

(** Masking the value again changes nothing for the packets. *)
Lemma target_matches_masked pkt t m v :
  length v = LSDN_MAX_MATCH_LEN →
  target_matches pkt t m (apply_mask1 t m v) ↔ target_matches pkt t m v.
Proof.
  intros Hv. unfold target_matches. destruct (lsdn_target_supports_masking t) eqn:Ht.
  - by rewrite apply_mask1_masked, take_mask_with, mask_with_idem.
  - rewrite apply_mask1_hard by done. unfold hard_mask.
    rewrite take_app_le, take_take, Nat.min_id; [done|].
    rewrite length_take. pose proof (target_len_bound t). lia.
Qed.

(** A packet that matches two values determines the key. *)
Lemma key_determined pkt t m v1 v2 :
  length m = LSDN_MAX_MATCH_LEN → length v1 = LSDN_MAX_MATCH_LEN →
  length v2 = LSDN_MAX_MATCH_LEN → clean_mask t m →
  target_matches pkt t m v1 → target_matches pkt t m v2 → apply_mask1 t m v1 = apply_mask1 t m v2.
Proof.
  intros Hm H1 H2 Hc. unfold target_matches. destruct (lsdn_target_supports_masking t) eqn:Ht.
  - intros E1 E2. rewrite !apply_mask1_masked by done. rewrite E1 in E2.
    rewrite <-(take_drop (target_len t) (mask_with m v1)),
      <-(take_drop (target_len t) (mask_with m v2)), !take_mask_with, !drop_mask_with, E2.
    f_equal. unfold clean_mask in Hc. rewrite Hc, !mask_with_zero; [done|..];
      rewrite length_drop; lia.
  - intros E1 E2. rewrite !apply_mask1_hard by done. unfold hard_mask. by rewrite <-E1, <-E2, H1, H2.
Qed.

Lemma rule_matches_masked pkt ts ms vs :
  shaped ts ms vs → rule_matches pkt ts ms (apply_mask ts ms vs) ↔ rule_matches pkt ts ms vs.
Proof.
  induction 1 as [|t ts m ms v vs Hm Hv _ IH]; simpl; [done|]. split.
  - inversion 1; subst. constructor; [by apply target_matches_masked|by apply IH].
  - inversion 1; subst. constructor; [by apply target_matches_masked|by apply IH].
Qed.

(** ** The key *)

(** C10: the masked key of a rule decides which packets it matches. Rules with equal keys
    match the same packets; rules with different keys share no packet. *)
Theorem masked_key_exact ts ms v1 v2 :
  shaped ts ms v1 → shaped ts ms v2 → Forall2 clean_mask ts ms →
  if decide (apply_mask ts ms v1 = apply_mask ts ms v2)
  then ∀ pkt, rule_matches pkt ts ms v1 ↔ rule_matches pkt ts ms v2
  else ∀ pkt, ¬ (rule_matches pkt ts ms v1 ∧ rule_matches pkt ts ms v2).
Proof.
  intros H1 H2 Hc. case_decide as E.
  - intros pkt. by rewrite <-(rule_matches_masked pkt ts ms v1), E, rule_matches_masked.
  - intros pkt [M1 M2]. apply E. clear E. revert v1 v2 H1 H2 M1 M2.
    induction Hc as [|t m ts ms Hc _ IH]; intros v1 v2 H1 H2 M1 M2; [done|].
    inversion H1; inversion H2; inversion M1; inversion M2; subst. simplify_eq. simpl. f_equal.
    + by apply (key_determined pkt).
    + by apply IH.
Qed.

(** ** The filter made from a key *)

(** Which attribute of the message an option fills: [None] is the Ethernet type. *)
Definition opt_attr (o : flower_opt) : option lsdn_rule_target :=
  match o with
  | FlEthType _ => None
  | FlKey t _ _ => Some t
  | FlEncKeyId _ => Some LSDN_MATCH_ENC_KEY_ID
  end.

(** The option of one position. *)
Lemma flower_match_spec eth pkt t m v f :
  packet_ok pkt →
  filter_matches eth pkt (flower_match t v m f) ↔ filter_matches eth pkt f ∧ target_matches pkt t m v.
Proof.
  intros Hpkt. unfold filter_matches, target_matches.
  destruct t; cbn [flower_match add_opt f_opts lsdn_target_supports_masking target_len];
    rewrite ?Forall_app, ?Forall_singleton; simpl; try done.
  rewrite take_0. pose proof (Hpkt LSDN_MATCH_NONE) as Hl. apply nil_length_inv in Hl. naive_solver.
Qed.

Lemma flower_match_attrs t v m f :
  opt_attr <$> f_opts (flower_match t v m f) =
    (opt_attr <$> f_opts f) ++ (Some <$> filter (.≠ LSDN_MATCH_NONE) [t]).
Proof.
  destruct t; cbn [flower_match add_opt f_opts]; rewrite ?fmap_app, ?app_nil_r; try done.
Qed.

(** The options of all positions. *)
Lemma flower_matches_spec eth pkt ts ms ks g :
  packet_ok pkt → shaped ts ms ks →
  (filter_matches eth pkt (flower_matches ts ks ms g) ↔ filter_matches eth pkt g ∧ rule_matches pkt ts ms ks) ∧
  opt_attr <$> f_opts (flower_matches ts ks ms g) =
    (opt_attr <$> f_opts g) ++ (Some <$> filter (.≠ LSDN_MATCH_NONE) ts).
Proof.
  intros Hpkt Hs. revert g. induction Hs as [|t ts m ms v vs Hm Hv _ IH]; intros g; simpl.
  - rewrite app_nil_r. split; [|done]. split; [|naive_solver]. intros ?. split; [done|constructor].
  - destruct (IH (flower_match t v m g)) as [-> ->]. rewrite flower_match_spec by done.
    rewrite flower_match_attrs, <-app_assoc, <-fmap_app. split; [|by rewrite <-filter_app].
    split; [intros [[??]?]; split; [done|by constructor]|].
    intros [? Hr]. inversion Hr; subst. done.
Qed.

(** The Ethernet type a priority asks for is that of all its addresses. *)
Lemma common_ethtype_spec eth ts e0 :
  match find_common_ethtype e0 ts with
  | Some e => (if e =? ETH_P_ALL then True else eth = e) ↔
                (if e0 =? ETH_P_ALL then True else eth = e0) ∧ Forall (type_fits eth) ts
  | None => ¬ ((if e0 =? ETH_P_ALL then True else eth = e0) ∧ Forall (type_fits eth) ts)
  end.
Proof.
  revert e0. induction ts as [|t ts IH]; intros e0; simpl.
  - rewrite list.Forall_nil. tauto.
  - assert (Hstep : ∀ P : Prop, P ∧ Forall (type_fits eth) (t :: ts) ↔ (P ∧ type_fits eth t) ∧ Forall (type_fits eth) ts).
    { intros P. rewrite list.Forall_cons. tauto. }
    destruct (key_ethtype t =? ETH_P_ALL) eqn:Ek; simpl.
    + specialize (IH e0). assert (Ht : type_fits eth t) by by destruct t.
      destruct (find_common_ethtype e0 ts); rewrite Hstep; tauto.
    + assert (Ht : type_fits eth t ↔ eth = key_ethtype t) by by destruct t.
      destruct (e0 =? ETH_P_ALL) eqn:E0; simpl.
      * specialize (IH (key_ethtype t)). rewrite Ek in IH.
        destruct (find_common_ethtype _ ts); rewrite Hstep; tauto.
      * destruct (Z.eqb_spec e0 (key_ethtype t)) as [->|Hne]; simpl.
        -- specialize (IH (key_ethtype t)). rewrite Ek in IH.
           destruct (find_common_ethtype _ ts); rewrite Hstep; tauto.
        -- rewrite Hstep, Ht. intros [[-> E] _]. done.
Qed.

(** C11: the options of the flower filter that is sent for a key: the filter matches exactly the
    frames of the rules with that key, the Ethernet type included that a condition on an IP
    address asks for, and it carries every attribute at most once (the kernel would use the last
    one only). The code aborts instead of making the filter only if the conditions are on
    addresses of both versions of IP, so that no frame matches them. It is assumed that no two
    positions of the priority are for the same field (a virt rule with two conditions on one
    field would make such a priority). *)
Theorem filter_of_key_exact ts ms vs f :
  shaped ts ms vs → f_opts f = [] → NoDup (filter (.≠ LSDN_MATCH_NONE) ts) →
  match flower_options ts (apply_mask ts ms vs) ms f with
  | Some f' =>
      (∀ eth pkt, packet_ok pkt → filter_matches eth pkt f' ↔ frame_matches eth pkt ts ms vs) ∧
      NoDup (opt_attr <$> f_opts f')
  | None => ∀ eth pkt, ¬ frame_matches eth pkt ts ms vs
  end.
Proof.
  intros Hs Hf Hnd. unfold flower_options.
  assert (Hk : shaped ts ms (apply_mask ts ms vs)).
  { clear -Hs. induction Hs; simpl; constructor; try done. by apply length_apply_mask1. }
  pose proof (λ eth, common_ethtype_spec eth ts ETH_P_ALL) as Hc. simpl in Hc.
  destruct (find_common_ethtype ETH_P_ALL ts) as [e|]; simpl.
  2: { intros eth pkt [Ht _]. by apply (Hc eth). }
  set (g := if negb (e =? ETH_P_ALL) then add_opt (FlEthType e) f else f).
  assert (Hg : ∀ eth pkt, filter_matches eth pkt g ↔ Forall (type_fits eth) ts).
  { intros eth pkt. specialize (Hc eth). unfold g, filter_matches.
    destruct (e =? ETH_P_ALL); simpl; rewrite Hf; simpl; [rewrite list.Forall_nil|rewrite Forall_singleton; simpl]; tauto. }
  assert (Hga : (opt_attr <$> f_opts g) = [] ∨ (opt_attr <$> f_opts g) = [None]).
  { unfold g. destruct (e =? ETH_P_ALL); simpl; rewrite Hf; auto. }
  split.
  - intros eth pkt Hpkt. destruct (flower_matches_spec eth pkt ts ms _ g Hpkt Hk) as [-> _].
    rewrite Hg, rule_matches_masked by done. done.
  - destruct (flower_matches_spec 0 (λ t, replicate (target_len t) 0) ts ms (apply_mask ts ms vs) g) as [_ ->]; [|done|].
    { intros t. apply length_replicate. }
    apply NoDup_app. split_and!.
    + destruct Hga as [-> | ->]; [constructor|apply NoDup_singleton].
    + intros a Ha (t & -> & _)%list_elem_of_fmap. destruct Hga as [E|E]; rewrite E in Ha; set_solver.
    + by apply NoDup_fmap; [intros ?? [= ->]|].
Qed.

(** ** Witnesses *)

(** Source MAC under a mask of five bytes, destination IPv4 /24. *)
Definition demo_targets : list lsdn_rule_target := [LSDN_MATCH_SRC_MAC; LSDN_MATCH_DST_IPV4].
Definition demo_masks : list matchdata :=
  [replicate 5 255 ++ replicate 11 0; replicate 3 255 ++ replicate 13 0].
Definition demo_value (junk : Z) : list matchdata :=
  [[1; 2; 3; 4; 5] ++ replicate 11 junk; [10; 0; 0] ++ replicate 13 junk].

Lemma demo_shaped junk : shaped demo_targets demo_masks (demo_value junk).
Proof. repeat constructor. Qed.

Definition demo_packet : packet := λ t,
  match t with
  | LSDN_MATCH_SRC_MAC => [1; 2; 3; 4; 5; 77]
  | LSDN_MATCH_DST_IPV4 => [10; 0; 0; 13]
  | t => replicate (target_len t) 0
  end.

(** Two rules that differ in bytes the mask hides have the same packets. *)
Lemma masked_key_exact_witness :
  rule_matches demo_packet demo_targets demo_masks (demo_value 7) ↔
  rule_matches demo_packet demo_targets demo_masks (demo_value 9).
Proof.
  pose proof (masked_key_exact demo_targets demo_masks (demo_value 7) (demo_value 9)
    (demo_shaped 7) (demo_shaped 9)) as Hx.
  rewrite decide_True in Hx by reflexivity. apply Hx. repeat constructor.
Defined.

(** The filter of the example matches the packet in a frame of IPv4, and in no other. *)
Lemma filter_of_key_exact_witness :
  match flower_options demo_targets (apply_mask demo_targets demo_masks (demo_value 7)) demo_masks
          (Filter FilterFlower 1 1 1 0 1 false [] []) with
  | Some f' => ∀ eth, filter_matches eth demo_packet f' ↔ eth = 0x0800
  | None => False
  end.
Proof.
  pose proof (filter_of_key_exact demo_targets demo_masks (demo_value 7)
           (Filter FilterFlower 1 1 1 0 1 false [] [])) as Hx.
  destruct (flower_options _ _ _ _) as [f'|] eqn:E; [|by vm_compute in E].
  destruct Hx as [Hx _].
  - apply demo_shaped.
  - done.
  - repeat constructor; set_solver.
  - intros eth. rewrite Hx by (by intros []). split.
    + intros [Ht _]. apply list.Forall_cons in Ht as [_ Ht]. by apply list.Forall_cons in Ht as [Ht _].
    + intros ->. repeat constructor.
Defined.
