(* ===== verification/VirtRules.v ===== *)
(** * Building virt rules

    [lsdn_vr_new] and the [lsdn_vr_add_masked_*] functions of [netmodel/rules.c]: each call adds
    one match condition, whatever was in the memory of the rule before. *)

From Stdlib Require Import ZArith Lia.
From stdpp Require Import base list gmap.
From S2P Require Import Prelude.
From S2P Require Import Status.
From S2P Require Import Nettypes.
From S2P Require Import Heap.
From S2P Require Import Base.
From S2P Require Import Wp.
From S2P Require Import Model.
From S2P Require Import Rules.
From S2P Require Import Masks.

Local Open Scope Z_scope.

(** A virt rule under construction: positions from [pos] on are unused, masks are clean. *)
Definition vr_ok (s : heap) (vr : ptr) (x : Vr.lsdn_vr) (r : Rule.lsdn_rule) : Prop :=
  H.objs s !! vr = Some (OVr x) ∧ H.rules s !! (vr, F_rule) = Some r ∧
  Vr.state x = LSDN_STATE_NEW ∧ 0 ≤ Vr.pos x ∧
  length (Vr.targets x) = LSDN_MAX_MATCHES ∧
  shaped (Vr.targets x) (Vr.masks x) (Rule.matches r) ∧
  Forall2 clean_mask (Vr.targets x) (Vr.masks x) ∧
  ∀ i t, Vr.targets x !! i = Some t → (Z.to_nat (Vr.pos x) ≤ i)%nat → t = LSDN_MATCH_NONE.

(** The packets a virt rule matches. *)
Definition vr_matches (x : Vr.lsdn_vr) (r : Rule.lsdn_rule) (pkt : packet) : Prop :=
  rule_matches pkt (Vr.targets x) (Vr.masks x) (Rule.matches r).

(** A call of one of the [lsdn_vr_add_masked_*] functions. *)
Inductive match_call :=
| SrcMac (value mask : lsdn_mac_t)
| DstMac (value mask : lsdn_mac_t)
| SrcIp (value mask : lsdn_ip_t)
| DstIp (value mask : lsdn_ip_t).

Definition run_match (c : match_call) (rule : ptr) : M heap unit :=
  match c with
  | SrcMac value mask => lsdn_vr_add_masked_src_mac rule value mask
  | DstMac value mask => lsdn_vr_add_masked_dst_mac rule value mask
  | SrcIp value mask => lsdn_vr_add_masked_src_ip rule value mask
  | DstIp value mask => lsdn_vr_add_masked_dst_ip rule value mask
  end.

Definition call_target (c : match_call) : lsdn_rule_target :=
  match c with
  | SrcMac _ _ => LSDN_MATCH_SRC_MAC
  | DstMac _ _ => LSDN_MATCH_DST_MAC
  | SrcIp value _ =>
      match v value with LSDN_IPv4 => LSDN_MATCH_SRC_IPV4 | LSDN_IPv6 => LSDN_MATCH_SRC_IPV6 end
  | DstIp value _ =>
      match v value with LSDN_IPv4 => LSDN_MATCH_DST_IPV4 | LSDN_IPv6 => LSDN_MATCH_DST_IPV6 end
  end.

Definition call_value (c : match_call) : list Z :=
  match c with
  | SrcMac value _ | DstMac value _ => value
  | SrcIp value _ | DstIp value _ => ip_bytes value
  end.
Definition call_mask (c : match_call) : list Z :=
  match c with
  | SrcMac _ mask | DstMac _ mask => mask
  | SrcIp _ mask | DstIp _ mask => ip_bytes mask
  end.

(** The arguments are addresses, of the same version. *)
Definition call_ok (c : match_call) : Prop :=
  match c with
  | SrcMac value mask | DstMac value mask => mac_ok value ∧ mac_ok mask
  | SrcIp value mask | DstIp value mask => ip_ok value ∧ ip_ok mask ∧ v mask = v value
  end.

(** ** Unions *)

Section unions.
Context (bytes u : list Z).

Lemma length_union_set :
  (length bytes ≤ length u)%nat → length (union_set bytes u) = length u.
Proof. intros. unfold union_set. rewrite length_app, length_drop. lia. Qed.
Lemma take_union_set : take (length bytes) (union_set bytes u) = bytes.
Proof. by apply take_app_length. Qed.
Lemma drop_union_set : drop (length bytes) (union_set bytes u) = drop (length bytes) u.
Proof. by apply drop_app_length. Qed.
End unions.

(** ** The common body *)

Lemma shaped_lengths ts ms vs :
  shaped ts ms vs → length ms = length ts ∧ length vs = length ts ∧
  Forall (λ m, length m = LSDN_MAX_MATCH_LEN) ms ∧ Forall (λ v, length v = LSDN_MAX_MATCH_LEN) vs.
Proof. induction 1; simpl; naive_solver. Qed.

Lemma shaped_insert ts ms vs i t m v :
  shaped ts ms vs → length m = LSDN_MAX_MATCH_LEN → length v = LSDN_MAX_MATCH_LEN →
  shaped (<[i := t]> ts) (<[i := m]> ms) (<[i := v]> vs).
Proof.
  intros Hs Hm Hv. revert i. induction Hs; intros [|i]; simpl; by constructor.
Qed.

(** Filling an unused position adds one condition. *)
Lemma rule_matches_insert pkt ts ms vs i t m v :
  packet_ok pkt → shaped ts ms vs → ts !! i = Some LSDN_MATCH_NONE →
  rule_matches pkt (<[i := t]> ts) (<[i := m]> ms) (<[i := v]> vs) ↔
  rule_matches pkt ts ms vs ∧ target_matches pkt t m v.
Proof.
  intros Hp Hs. revert i. induction Hs as [|t0 ts m0 ms v0 vs _ _ Hs IH]; intros [|i] Hi; simplify_eq/=.
  - assert (Hnone : target_matches pkt LSDN_MATCH_NONE m0 v0).
    { unfold target_matches. simpl. apply nil_length_inv, (Hp LSDN_MATCH_NONE). }
    split.
    + inversion 1; subst. split; [by constructor|done].
    + intros [Hr ?]. inversion Hr; subst. by constructor.
  - split.
    + inversion 1; subst. destruct (proj1 (IH i Hi)); [done|]. split; [by constructor|done].
    + intros [Hr ?]. inversion Hr; subst. constructor; [done|]. by apply IH.
Qed.

Lemma array_set_run {A} i (a : A) l s :
  (i < length l)%nat → array_set i a l s = Ok (<[i := a]> l) s.
Proof. intros Hi. unfold array_set. by rewrite bool_decide_true. Qed.

Lemma vr_add_masked_spec s vr x r t value mask :
  vr_ok s vr x r → Vr.pos x < Z.of_nat LSDN_MAX_MATCHES →
  lsdn_target_supports_masking t = true → length value = target_len t → length mask = target_len t →
  wp (vr_add_masked t vr value mask) s (λ _ s', ∃ x' r', vr_ok s' vr x' r' ∧
    Vr.pos x' = Vr.pos x + 1 ∧
    ∀ pkt, packet_ok pkt →
      vr_matches x' r' pkt ↔ vr_matches x r pkt ∧ mask_with mask (pkt t) = mask_with mask value).
Proof.
  intros (Hx & Hr & Hnew & Hpos & Hlen & Hs & Hc & Hunused) Hlt Ht Hv Hm.
  set (pos := Z.to_nat (Vr.pos x)). assert (Hp : (pos < LSDN_MAX_MATCHES)%nat) by lia.
  destruct (shaped_lengths _ _ _ Hs) as (Hlm & Hlv & Hfm & Hfv).
  destruct (lookup_lt_is_Some_2 (Vr.targets x) pos) as [t0 Ht0]; [lia|].
  destruct (lookup_lt_is_Some_2 (Vr.masks x) pos) as [m0 Hm0]; [lia|].
  destruct (lookup_lt_is_Some_2 (Rule.matches r) pos) as [v0 Hv0]; [lia|].
  assert (t0 = LSDN_MATCH_NONE) as -> by (by eapply Hunused).
  assert (Hm0l : length m0 = LSDN_MAX_MATCH_LEN) by by eapply (Forall_lookup_1 _ _ _ _ Hfm).
  assert (Hv0l : length v0 = LSDN_MAX_MATCH_LEN) by by eapply (Forall_lookup_1 _ _ _ _ Hfv).
  pose proof (target_len_bound t) as Hb.
  unfold vr_add_masked. hstep. hstep. hstep.
  { apply bool_decide_true. unfold LSDN_MAX_MATCHES, LSDN_MAX_MATCH_LEN in *. fold pos. lia. }
  hstep; [by apply bool_decide_true|]. fold pos.
  rewrite wp_bind. eapply wp_run; [apply array_set_run; lia|].
  rewrite wp_bind. eapply wp_run; [apply array_set_run; lia|]. hstep. hstep.
  rewrite wp_bind. eapply wp_run; [apply array_set_run; lia|]. hstep.
  rewrite (list_lookup_total_correct _ _ _ Hm0), (list_lookup_total_correct _ _ _ Hv0).
  eexists _, _. unfold vr_ok, vr_matches. cbn. rewrite !lookup_insert_eq.
  rewrite u8_small by (unfold LSDN_MAX_MATCHES in *; lia).
  split; [split_and!; try done|split; [done|]]; cbn.
  - lia.
  - by rewrite length_insert.
  - apply shaped_insert; [done|..]; rewrite length_union_set; lia.
  - apply Forall2_insert; [done|]. unfold clean_mask. rewrite <-Hm, drop_union_set, Hm.
    apply (Forall2_lookup_lr _ _ _ _ _ _ Hc Ht0) in Hm0. change (drop 0 m0 = replicate LSDN_MAX_MATCH_LEN 0) in Hm0.
    rewrite drop_0 in Hm0. by rewrite Hm0, drop_replicate.
  - intros i u Hi Hle. rewrite list_lookup_insert_ne in Hi by lia. eapply Hunused; [done|lia].
  - intros pkt Hpkt. rewrite rule_matches_insert by done. unfold target_matches.
    rewrite Ht. rewrite <-Hm at 1 2. rewrite take_union_set.
    by rewrite <-Hv, take_union_set.
Qed.

Lemma mac_ok_len m : mac_ok m → length m = 6%nat.
Proof. by intros [? _]. Qed.

(** C20: a call of [lsdn_vr_add_masked_*] on a rule with a free position adds exactly the
    condition that the masked field of the packet is the masked value; the rest of the rule's
    memory, uninitialised or not, does not matter. *)
Theorem vr_add_masked_condition s vr x r c :
  vr_ok s vr x r → Vr.pos x < Z.of_nat LSDN_MAX_MATCHES → call_ok c →
  wp (run_match c vr) s (λ _ s', ∃ x' r', vr_ok s' vr x' r' ∧ Vr.pos x' = Vr.pos x + 1 ∧
    ∀ pkt, packet_ok pkt →
      vr_matches x' r' pkt ↔
      vr_matches x r pkt ∧
      mask_with (call_mask c) (pkt (call_target c)) = mask_with (call_mask c) (call_value c)).
Proof.
  intros Hok Hpos Hc. destruct c as [value mask|value mask|value mask|value mask]; simpl in *.
  1,2: destruct Hc as [?%mac_ok_len ?%mac_ok_len]; by apply vr_add_masked_spec.
  all: destruct Hc as ((Hv & _) & (Hm & _) & Hver).
  all: unfold lsdn_vr_add_masked_src_ip, lsdn_vr_add_masked_dst_ip.
  all: hstep; [by apply bool_decide_true|].
  all: rewrite Hver in Hm; destruct (v value); by apply vr_add_masked_spec.
Qed.

(** C36: the bound the code asserts is that of a value's bytes, not that of the positions: the
    third match of a rule is written past the arrays. *)
Theorem third_match_out_of_bounds s vr x r c :
  vr_ok s vr x r → call_ok c →
  Z.of_nat LSDN_MAX_MATCHES ≤ Vr.pos x < Z.of_nat LSDN_MAX_MATCH_LEN →
  run_match c vr s = Fault OutOfBounds.
Proof.
  intros (Hx & Hr & Hnew & _ & Hlen & _) Hc Hpos.
  assert (Hbody : ∀ t value mask, vr_add_masked t vr value mask s = Fault OutOfBounds).
  { intros t value mask.
    unfold vr_add_masked, upd_vr, get_vr, get_obj, mbind, M_bind, get, live, put_obj, modify.
    rewrite Hx. unfold mret, M_ret. simpl. rewrite !bool_decide_true by (done || lia). simpl.
    unfold array_set. rewrite bool_decide_false; [by rewrite ?Hx|].
    unfold LSDN_MAX_MATCHES, LSDN_MAX_MATCH_LEN in *. lia. }
  destruct c as [value mask|value mask|value mask|value mask]; simpl in *; try apply Hbody.
  all: destruct Hc as (_ & _ & Hver).
  all: unfold lsdn_vr_add_masked_src_ip, lsdn_vr_add_masked_dst_ip, mbind, M_bind.
  all: rewrite bool_decide_true by done; simpl; destruct (v value); apply Hbody.
Qed.

(** ** Witnesses *)

(** A rule as [lsdn_vr_new] leaves it, its memory full of 7s, with [n] conditions counted. *)
Definition demo_vr (n : Z) : Vr.lsdn_vr :=
  Vr.mk n LSDN_STATE_NEW false (replicate LSDN_MAX_MATCHES LSDN_MATCH_NONE)
    (replicate LSDN_MAX_MATCHES zero_matchdata).
Definition demo_rule : Rule.lsdn_rule :=
  Rule.mk (replicate LSDN_MAX_MATCHES (replicate LSDN_MAX_MATCH_LEN 7)) LSDN_VR_DROP 7 None None None.
Definition demo_heap (n : Z) : heap :=
  H.mk (Env.mk (λ _, true) (λ _, []) (λ _, 0) (λ _ _, 0) true (λ _ _, true)) 2%positive 0 [] [] ∅
    {[1%positive := OVr (demo_vr n)]} ∅ {[(1%positive, F_rule) := demo_rule]} ∅ ∅ ∅ ∅.
Definition demo_call : match_call :=
  SrcIp (Ip LSDN_IPv4 [10; 0; 0; 1]) (Ip LSDN_IPv4 [255; 255; 255; 0]).

Lemma demo_vr_ok n : 0 ≤ n → vr_ok (demo_heap n) 1%positive (demo_vr n) demo_rule.
Proof.
  intros Hn. split_and!; try done; try (repeat constructor; done).
  intros i t Hi _. by apply (lookup_replicate_1 LSDN_MAX_MATCHES) in Hi as [-> _].
Qed.

Lemma demo_call_ok : call_ok demo_call.
Proof. split_and!; try done; (split; [done|]); repeat constructor; done. Qed.

Lemma vr_add_masked_condition_witness :
  wp (run_match demo_call 1%positive) (demo_heap 0) (λ _ s', ∃ x' r',
    vr_ok s' 1%positive x' r' ∧ Vr.pos x' = 1).
Proof.
  eapply wp_mono; [apply (vr_add_masked_condition _ _ (demo_vr 0) demo_rule)|].
  - by apply demo_vr_ok.
  - by vm_compute.
  - apply demo_call_ok.
  - intros _ s' (x' & r' & Hok & Hpos & _). by exists x', r'.
Defined.

Lemma third_match_out_of_bounds_witness :
  run_match demo_call 1%positive (demo_heap 2) = Fault OutOfBounds.
Proof.
  apply (third_match_out_of_bounds _ _ (demo_vr 2) demo_rule).
  - by apply demo_vr_ok.
  - apply demo_call_ok.
  - by vm_compute.
Defined.
