(* ===== verification/Engine.v ===== *)
(** * Correctness of the rules engine

    The invariant of one priority of a ruleset: the table of flower rules is keyed by masked
    match data, every flower rule has its sources in the order of their subpriorities, and all
    pointers between rules, flower rules and the priority agree. Adding and removing a rule
    ([lsdn_ruleset_add], [lsdn_ruleset_remove] of [netmodel/rules.c]) keep it, whatever malloc
    and the kernel answer, and which filter is sent or deleted is said with its handle. *)

From Stdlib Require Import ZArith Lia Sorted.
From stdpp Require Import base list gmap strings.
From S2P Require Import Prelude.
From S2P Require Import LStore.
From S2P Require Import Status.
From S2P Require Import IdAlloc.
From S2P Require Import Heap.
From S2P Require Import Base.
From S2P Require Import Wp.
From S2P Require Import Model.
From S2P Require Import Nl.
From S2P Require Import Actions.
From S2P Require Import Rules.

Local Open Scope Z_scope.

(** ** Sources *)

Definition sources (s : heap) (fl : ptr) : list addr := default [] (H.lists s !! (fl, F_sources_list)).
Definition subprio_of (s : heap) (r : addr) : Z := from_option Rule.subprio 0 (H.rules s !! r).
Definition count_of (s : heap) (r : addr) : Z :=
  from_option (λ x, actions_count (Rule.action x)) 0 (H.rules s !! r).
Definition total (s : heap) (l : list addr) : Z := foldr (λ r n, count_of s r + n) 0 l.

(** Rule [r] is a source of flower rule [fl] with masked match data [key]. *)
Definition source_ok (pr : ptr) (s : heap) (key : list matchdata) (fl : ptr) (r : addr) : Prop :=
  r.2 ≠ F_sources_list ∧
  ∃ x, H.rules s !! r = Some x ∧ Rule.matches x = key ∧ Rule.fl_rule x = Some fl ∧
       Rule.prio x = Some pr ∧ is_Some (Rule.ruleset x) ∧
       0 ≤ actions_count (Rule.action x) ∧ act_live s (fn (Rule.action x)).

Lemma source_ok_frame pr s s' key fl r :
  kept s s' → H.rules s' !! r = H.rules s !! r → source_ok pr s key fl r → source_ok pr s' key fl r.
Proof.
  intros Hk Hr (? & x & Hx & ? & ? & ? & ? & ? & Hl). split; [done|]. exists x. rewrite Hr.
  split_and!; try done. by eapply act_live_frame.
Qed.
Lemma sources_ok_frame pr s s' key fl l :
  kept s s' → (∀ r, r ∈ l → H.rules s' !! r = H.rules s !! r) →
  Forall (source_ok pr s key fl) l → Forall (source_ok pr s' key fl) l.
Proof.
  intros Hk Hr. rewrite !list.Forall_forall. intros Hl r Hin.
  eapply source_ok_frame; [done| |by apply Hl]. by apply Hr.
Qed.

Lemma source_actions_frame s s' l order acts :
  kept s s' → (∀ r, r ∈ l → H.rules s' !! r = H.rules s !! r) →
  source_actions order l s = Ok acts s → source_actions order l s' = Ok acts s'.
Proof.
  intros Hv. revert order acts. induction l as [|r l IH]; intros order acts Hr; simpl.
  { by intros [= <-]. }
  unfold mbind, M_bind, get_rule, mbind, M_bind, get, live. rewrite (Hr r) by set_solver.
  destruct (H.rules s !! r) as [x|]; simpl; [|done].
  destruct (order + actions_count (Rule.action x) <=? LSDN_MAX_ACT_PRIO); simpl; [|done].
  destruct (run_action _ order s) as [a1 s1|] eqn:E1; [|done].
  pose proof (run_action_state _ _ _ _ _ E1) as ->.
  rewrite (run_action_frame s s' _ _ _ Hv E1).
  destruct (source_actions (order + _) l s) as [a2 s2|] eqn:E2; [|done].
  intros [= <- ->]. rewrite (IH _ a2); [done|set_solver|done].
Qed.

Lemma source_actions_ok pr s key fl l order :
  Forall (source_ok pr s key fl) l → order + total s l ≤ LSDN_MAX_ACT_PRIO →
  ∃ acts, source_actions order l s = Ok acts s.
Proof.
  intros Hl. revert order. induction Hl as [|r l (_ & x & Hx & _ & _ & _ & _ & Hc & Hlive) Hl IH];
    intros order Ht; simpl in *; [by eexists|].
  assert (0 ≤ total s l).
  { clear -Hl. induction Hl as [|r l (_ & x & Hx & _ & _ & _ & _ & Hc & _) _ IH]; simpl; [done|].
    unfold count_of. rewrite Hx. simpl. lia. }
  unfold count_of in Ht. rewrite Hx in Ht. simpl in Ht.
  unfold mbind, M_bind, get_rule, mbind, M_bind, get, live. rewrite Hx. simpl.
  rewrite (proj2 (Z.leb_le _ _)) by lia. simpl.
  destruct (Hlive order) as [a1 ->].
  destruct (IH (order + actions_count (Rule.action x))) as [a2 ->]; [lia|]. simpl. eauto.
Qed.

Lemma find_nearest_run s l sub head :
  (∀ r, r ∈ l → is_Some (H.rules s !! r)) → StronglySorted Z.lt (subprio_of s <$> l) →
  ∃ place, find_nearest_lower sub head l s = Ok place s ∧
    match place with
    | inr _ => ∃ r, r ∈ l ∧ subprio_of s r = sub
    | inl pos => ∃ l1 l2, l = l1 ++ l2 ∧ last (head :: l1) = Some pos ∧
        Forall (λ r, subprio_of s r < sub) l1 ∧ Forall (λ r, sub < subprio_of s r) l2
    end.
Proof.
  revert head. induction l as [|r l IH]; intros head Hr Hs; simpl.
  { eexists. split; [done|]. exists [], []. by split_and!. }
  destruct (Hr r) as [x Hx]; [set_solver|].
  assert (Hsub : subprio_of s r = Rule.subprio x) by (unfold subprio_of; by rewrite Hx).
  rewrite fmap_cons in Hs. apply StronglySorted_inv in Hs as [Hs Hlt].
  unfold mbind, M_bind, get_rule, mbind, M_bind, get, live. rewrite Hx. simpl.
  destruct (Z.eqb_spec (Rule.subprio x) sub) as [He|Hne].
  { eexists. split; [done|]. exists r. split; [set_solver|lia]. }
  destruct (Z.ltb_spec sub (Rule.subprio x)) as [Hl|Hl].
  - eexists. split; [done|]. exists [], (r :: l). split_and!; try done.
    apply list.Forall_cons. split; [lia|]. apply list.Forall_forall. intros r' Hr'.
    rewrite list.Forall_forall in Hlt.
    pose proof (Hlt _ (list_elem_of_fmap_2 (subprio_of s) _ _ Hr')). lia.
  - destruct (IH r) as (place & Hrun & Hp); [set_solver|done|]. exists place. split; [done|].
    destruct place as [pos|]; [|destruct Hp as (r' & ? & ?); exists r'; set_solver].
    destruct Hp as (l1 & l2 & -> & Hlast & H1 & H2). exists (r :: l1), l2. split_and!; try done.
    apply list.Forall_cons. split; [lia|done].
Qed.

(** ** The invariant of a priority *)

Section prio.
Context (pr : ptr).

Definition flower_ok (s : heap) (p : RsPrio.lsdn_ruleset_prio) (key : list matchdata) (fl : ptr) : Prop :=
  ∃ x l, H.objs s !! fl = Some (OFlower x) ∧ Flower.matches x = key ∧
    Flower.fl_handle x < id_next (RsPrio.handle_alloc p) ∧
    H.lists s !! (fl, F_sources_list) = Some l ∧
    Forall (source_ok pr s key fl) l ∧ StronglySorted Z.lt (subprio_of s <$> l) ∧
    1 + total s l ≤ LSDN_MAX_ACT_PRIO.

(** [ex] is a flower rule that may be without sources: it is being added or removed. *)
Record prio_ok (ex : option ptr) (s : heap) (p : RsPrio.lsdn_ruleset_prio)
    (rs : Ruleset.lsdn_ruleset) (i : If.lsdn_if) (c : Ctx.lsdn_context) : Prop := {
  po_prio : H.objs s !! pr = Some (ORsPrio p);
  po_rs : H.rulesets s !! RsPrio.parent p = Some rs;
  po_if : H.ifs s !! Ruleset.iface rs = Some i;
  po_ctx : H.objs s !! Ruleset.ctx rs = Some (OCtx c);
  po_sock : Ctx.nlsock c = true;
  po_eth : is_Some (find_common_ethtype ETH_P_ALL (RsPrio.targets p));
  po_ids : idalloc_ok (RsPrio.handle_alloc p);
  po_wf : Store.wf (H.lists s);
  po_bounded : bounded s;
  po_keys : NoDup (RsPrio.hash_fl_rules p).*1;
  po_ptrs : NoDup (RsPrio.hash_fl_rules p).*2;
  po_flowers key fl : (key, fl) ∈ RsPrio.hash_fl_rules p →
    flower_ok s p key fl ∧ (ex ≠ Some fl → sources s fl ≠ []) }.

(** The abstract view: for every key, its rules in order. *)
Definition rules_of (s : heap) (p : RsPrio.lsdn_ruleset_prio) (key : list matchdata) : list addr :=
  match hash_find key (RsPrio.hash_fl_rules p) with
  | Some fl => sources s fl
  | None => []
  end.

(** The filter that stands for a flower rule. *)
Definition flower_filter (p : RsPrio.lsdn_ruleset_prio) (rs : Ruleset.lsdn_ruleset) (i : If.lsdn_if)
    (update : bool) (handle : Z) (key : list matchdata) (acts : list (Z * tc_action)) : lsdn_filter :=
  let f := Filter FilterFlower (If.ifindex i) handle (Ruleset.parent_handle rs) (Ruleset.chain rs)
             (u16 (RsPrio.prio p + Ruleset.prio_start rs)) false [] [] in
  let f := if update then lsdn_filter_set_update f else f in
  add_acts acts (default f (flower_options (RsPrio.targets p) key (RsPrio.masks p) f)).

(** ** Hash tables *)

Lemma hash_find_Some (k : list matchdata) t fl : hash_find k t = Some fl → (k, fl) ∈ t.
Proof.
  unfold hash_find. intros ([k' fl'] & [Hin Hk]%find_some & ->)%fmap_Some.
  apply bool_decide_eq_true in Hk. simpl in *. subst. by apply list_elem_of_In.
Qed.

Lemma hash_find_None (k : list matchdata) t : hash_find k t = None → k ∉ t.*1.
Proof.
  unfold hash_find. intros Hf%fmap_None ([k' fl] & -> & Hin)%list_elem_of_fmap.
  apply list_elem_of_In in Hin. apply (find_none _ _ Hf) in Hin. simpl in Hin.
  by apply bool_decide_eq_false in Hin.
Qed.

Lemma hash_find_elem (k : list matchdata) t fl : NoDup t.*1 → (k, fl) ∈ t → hash_find k t = Some fl.
Proof.
  intros Hnd Hin. destruct (hash_find k t) as [fl'|] eqn:E.
  - apply hash_find_Some in E. f_equal. revert Hnd Hin E.
    induction t as [|[k' f'] t IH]; simpl; [set_solver|].
    rewrite NoDup_cons, !elem_of_cons. intros [Hk Hnd] [[= -> ->]|H1] [[= ->]|H2]; try done.
    + exfalso. apply Hk. apply (list_elem_of_fmap_2 fst) in H2. done.
    + exfalso. subst. apply Hk. apply (list_elem_of_fmap_2 fst) in H1. done.
    + by apply IH.
  - apply hash_find_None in E. exfalso. apply E. by apply (list_elem_of_fmap_2 fst) in Hin.
Qed.

(** ** Flush *)

(** The filter [f] was sent and answered, or memory ran out before. *)
Definition flushed (s s' : heap) (f : lsdn_filter) (err : lsdn_err_t) : Prop :=
  match err with
  | LSDNE_OK => H.trace s' = H.trace s ++ [(ReqFilterCreate f, true)]
  | LSDNE_NETLINK => H.trace s' = H.trace s ++ [(ReqFilterCreate f, false)]
  | LSDNE_NOMEM => out_of_memory s ∧ H.trace s' = H.trace s
  | _ => False
  end.

Lemma filter_init_spec kind ifindex h parent chain prio s Q :
  (∀ n, out_of_memory s → Q None (H.set_allocs n s)) →
  (∀ n, Q (Some (Filter kind ifindex h parent chain (u16 prio) false [] [])) (H.set_allocs n s)) →
  wp (filter_init kind ifindex h parent chain prio) s Q.
Proof.
  intros HN HS. unfold filter_init. rewrite wp_bind, wp_try_alloc.
  destruct (Env.malloc_ok _ _) eqn:E1; [|by apply HN; eexists].
  change (negb true) with false. cbv iota. rewrite wp_bind, wp_try_alloc.
  destruct (Env.malloc_ok (H.env (H.set_allocs _ _)) _) eqn:E2; [|by apply HN; eexists].
  apply (HS (S (S (H.allocs s)))).
Qed.

Lemma flush_fl_rule_spec s ex p rs i c key fl x l acts update :
  prio_ok ex s p rs i c → H.objs s !! fl = Some (OFlower x) → Flower.matches x = key →
  H.lists s !! (fl, F_sources_list) = Some l → source_actions 1 l s = Ok acts s →
  wp (flush_fl_rule fl pr update) s (λ err s',
    (∃ t n, s' = H.set_trace t (H.set_allocs n s)) ∧
    flushed s s' (flower_filter p rs i update (Flower.fl_handle x) key acts) err).
Proof.
  intros [Hp Hrs Hi Hc Hsock [eth Heth] _ _ _ _ _ _] Hx <- Hl Hacts.
  assert (Hsame : ∀ n, H.set_allocs n s = H.set_trace (H.trace s) (H.set_allocs n s)) by by destruct s.
  unfold flush_fl_rule. hstep. hstep. hstep. hstep. rewrite wp_bind. apply filter_init_spec; intros n.
  { intros Hn. cbv iota beta. hstep. split; [eexists _, _; apply Hsame|by split]. }
  cbv iota beta.
  unfold flower_filter, flower_options. rewrite Heth. simpl. unfold list_entries. hstep. hstep.
  rewrite wp_bind. eapply wp_run; [apply (source_actions_frame s); [by apply kept_same|done|done]|].
  unfold lsdn_filter_create, send_await_response. hstep. hstep; [by rewrite Hsock|].
  hstep. hstep. hstep. split; [by eexists _, _|]. by destruct (Env.kernel_ack _ _ _).
Qed.
(** ** Transitions of the invariant *)

Lemma total_frame s s' l :
  (∀ r, r ∈ l → H.rules s' !! r = H.rules s !! r) →
  total s' l = total s l ∧ subprio_of s' <$> l = subprio_of s <$> l.
Proof.
  induction l as [|r l IH]; intros Hr; [done|]. destruct IH as [IH1 IH2]; [set_solver|].
  rewrite !fmap_cons, IH2. simpl. rewrite IH1. unfold count_of, subprio_of.
  by rewrite Hr by set_solver.
Qed.

Lemma flower_ok_frame s s' p p' key fl :
  flower_ok s p key fl → kept s s' →
  H.objs s' !! fl = H.objs s !! fl →
  H.lists s' !! (fl, F_sources_list) = H.lists s !! (fl, F_sources_list) →
  (∀ r, r ∈ sources s fl → H.rules s' !! r = H.rules s !! r) →
  id_next (RsPrio.handle_alloc p) ≤ id_next (RsPrio.handle_alloc p') →
  flower_ok s' p' key fl.
Proof.
  intros (x & l & Hx & Hk & Hh & Hl & Hsrc & Hsort & Ht) Hv Ho Hli Hr Hid.
  assert (Hr' : ∀ r, r ∈ l → H.rules s' !! r = H.rules s !! r).
  { intros r Hin. apply Hr. unfold sources. by rewrite Hl. }
  destruct (total_frame s s' l Hr') as [Et Es].
  exists x, l. rewrite Ho, Hli, Et, Es. split_and!; try done; [lia|].
  by apply (sources_ok_frame pr s).
Qed.

(** A source of a flower rule is linked there. *)
Lemma source_owner s ex p rs i c key fl r :
  prio_ok ex s p rs i c → (key, fl) ∈ RsPrio.hash_fl_rules p → r ∈ sources s fl →
  own s r = Some (fl, F_sources_list).
Proof.
  intros Hok Hin Hr. destruct (po_flowers _ _ _ _ _ _ Hok _ _ Hin) as [(x & l & _ & _ & _ & Hl & _) _].
  unfold sources in Hr. rewrite Hl in Hr. apply Store.owner_Some; [apply Hok|]. eauto.
Qed.

Lemma sources_disjoint s ex p rs i c k1 f1 k2 f2 r :
  prio_ok ex s p rs i c → (k1, f1) ∈ RsPrio.hash_fl_rules p → (k2, f2) ∈ RsPrio.hash_fl_rules p →
  r ∈ sources s f1 → r ∈ sources s f2 → f1 = f2.
Proof.
  intros Hok H1 H2 R1 R2. apply (source_owner _ _ _ _ _ _ _ _ _ Hok H1) in R1.
  apply (source_owner _ _ _ _ _ _ _ _ _ Hok H2) in R2. congruence.
Qed.

(** The members of a rule that is in no list may change. *)
Lemma prio_ok_rule s ex p rs i c r x :
  prio_ok ex s p rs i c → own s r = None →
  prio_ok ex (H.set_rules (<[r := x]> (H.rules s)) s) p rs i c.
Proof.
  intros Hok Ho. pose proof Hok as [? ? ? ? ? ? ? ? ? ? ? Hfl]. split; try done.
  intros key fl Hin. destruct (Hfl key fl Hin) as [Hf Hne]. split; [|done].
  eapply flower_ok_frame; try done.
  intros r' Hr'. cbn. rewrite lookup_insert_ne; [done|]. intros <-.
  by rewrite (source_owner _ _ _ _ _ _ _ _ _ Hok Hin Hr') in Ho.
Qed.

(** The requests sent and the allocations do not matter. *)
Lemma prio_ok_sent s ex p rs i c t n :
  prio_ok ex s p rs i c → prio_ok ex (H.set_trace t (H.set_allocs n s)) p rs i c.
Proof.
  intros Hok. pose proof Hok as [? ? ? ? ? ? ? ? ? ? ? Hfl]. split; try done.
  intros key fl Hin. destruct (Hfl key fl Hin) as [Hf Hne]. split; [|done].
  by eapply flower_ok_frame.
Qed.

Lemma sorted_insert (l1 l2 : list Z) a :
  StronglySorted Z.lt (l1 ++ l2) → Forall (λ b, b < a) l1 → Forall (Z.lt a) l2 →
  StronglySorted Z.lt (l1 ++ a :: l2).
Proof.
  induction l1 as [|b l1 IH]; simpl; intros Hs H1 H2; [by constructor|].
  apply StronglySorted_inv in Hs as [Hs Hb]. apply list.Forall_cons in H1 as [? H1].
  constructor; [by apply IH|]. apply Forall_app in Hb as [? ?].
  apply Forall_app. split; [done|]. by constructor.
Qed.

Lemma total_app s l1 l2 : total s (l1 ++ l2) = total s l1 + total s l2.
Proof. induction l1; simpl; lia. Qed.

(** A rule is linked among the sources of a flower rule. *)
Lemma prio_ok_insert s ex p rs i c key fl r l1 l2 L :
  prio_ok ex s p rs i c → (key, fl) ∈ RsPrio.hash_fl_rules p → ex = None ∨ ex = Some fl →
  source_ok pr s key fl r → own s r = None → (r.1 < H.next_ptr s)%positive →
  sources s fl = l1 ++ l2 →
  Forall (λ r', subprio_of s r' < subprio_of s r) l1 →
  Forall (λ r', subprio_of s r < subprio_of s r') l2 →
  1 + total s (l1 ++ l2) + count_of s r ≤ LSDN_MAX_ACT_PRIO →
  linked_at (H.lists s) L (fl, F_sources_list) r l1 l2 →
  prio_ok None (H.set_lists L s) p rs i c.
Proof.
  intros Hok Hin Hex Hr Ho Hb Hsrc H1 H2 Ht (Hwf & Hn & Hk & Hother & Hown).
  pose proof Hok as [? ? ? ? ? ? ? ? [Hbo Hbl] ? ? Hfl].
  assert (Hne : r ≠ (fl, F_sources_list)) by (destruct Hr as [Hr _]; by intros ->).
  split; try done.
  - split; [done|]. intros k l Hl. cbn in Hl.
    destruct (decide (k = (fl, F_sources_list))) as [->|Hkne].
    + rewrite Hk in Hl. simplify_eq. destruct (Hfl _ _ Hin) as [(x & l & _ & _ & _ & Hl & _) _].
      unfold sources in Hsrc. rewrite Hl in Hsrc. simpl in Hsrc. subst l. apply Hbl in Hl.
      cbn. rewrite !list.Forall_cons, !Forall_app, !list.Forall_cons in *. naive_solver.
    + destruct (decide (k = r)) as [->|]; [congruence|]. rewrite Hother in Hl by done.
      by apply Hbl in Hl.
  - intros key' fl' Hin'. destruct (Hfl _ _ Hin') as [Hf Hnonempty].
    destruct (decide (fl' = fl)) as [->|Hfne].
    + assert (key' = key) as ->.
      { destruct Hf as (x & ? & Hx & <- & _). destruct (Hfl _ _ Hin) as [(x' & ? & Hx' & <- & _) _].
        congruence. }
      destruct Hf as (x & l & Hx & Hkey & Hh & Hl & Hall & Hsort & Htot).
      unfold sources in *. rewrite Hl in Hsrc. simpl in Hsrc. subst l. cbn. rewrite Hk. split.
      * exists x, (l1 ++ r :: l2). split_and!; try done.
        -- apply (sources_ok_frame pr s); [by apply kept_same|done|].
           rewrite Forall_app, list.Forall_cons in *. tauto.
        -- rewrite fmap_app, fmap_cons in *. apply sorted_insert; [done|..]; by apply Forall_fmap.
        -- change (total (H.set_lists L s)) with (total s).
           rewrite !total_app in *. simpl. lia.
      * simpl. by destruct l1.
    + split.
      * eapply flower_ok_frame; try done. cbn. apply Hother; [naive_solver|].
        destruct Hr as [Hr _]. by intros <-.
      * intros _. unfold sources. cbn. rewrite Hother; [|naive_solver|destruct Hr as [Hr _]; by intros <-].
        apply Hnonempty. naive_solver.
Qed.
Lemma total_filter s l r key fl :
  Forall (source_ok pr s key fl) l →
  total s (filter (.≠ r) l) ≤ total s l ∧ (StronglySorted Z.lt (subprio_of s <$> l) →
    StronglySorted Z.lt (subprio_of s <$> filter (.≠ r) l)).
Proof.
  induction 1 as [|a l (_ & x & Hx & _ & _ & _ & _ & Hc & _) _ [IH1 IH2]]; [done|].
  assert (0 ≤ count_of s a) by (unfold count_of; by rewrite Hx).
  destruct (decide (a = r)) as [->|Hne].
  - rewrite filter_cons_False by naive_solver. simpl total. split; [lia|].
    intros [Hs _]%StronglySorted_inv. by apply IH2.
  - rewrite filter_cons_True by done. simpl total. split; [lia|].
    rewrite !fmap_cons. intros [Hs Ha]%StronglySorted_inv. constructor; [by apply IH2|].
    rewrite list.Forall_forall in Ha |- *. intros z (r' & -> & [_ Hr']%list_elem_of_filter)%list_elem_of_fmap.
    by apply Ha, list_elem_of_fmap_2.
Qed.

(** A source is unlinked. *)
Lemma prio_ok_unlink s ex p rs i c key fl r L :
  prio_ok ex s p rs i c → (key, fl) ∈ RsPrio.hash_fl_rules p → ex = None ∨ ex = Some fl →
  r ∈ sources s fl → unlinked_from (H.lists s) L (fl, F_sources_list) r →
  prio_ok (Some fl) (H.set_lists L s) p rs i c ∧
  sources (H.set_lists L s) fl = filter (.≠ r) (sources s fl).
Proof.
  intros Hok Hin Hex Hr (Hwf & He & (l & Hk & Hrl & Hk') & Hother & Hown).
  pose proof Hok as [? ? ? ? ? ? ? ? [Hbo Hbl] ? ? Hfl].
  assert (Hsrc : sources s fl = l) by (unfold sources; by rewrite Hk).
  assert (Hrf : r.2 ≠ F_sources_list).
  { destruct (Hfl _ _ Hin) as [(? & l' & _ & _ & _ & Hl' & Hall & _) _]. simplify_eq.
    rewrite list.Forall_forall in Hall. by destruct (Hall r Hrl) as [? _]. }
  split; [|unfold sources at 1; cbn; by rewrite Hk', Hsrc].
  split; try done.
  - split; [done|]. intros k l' Hl'. cbn in Hl'.
    destruct (decide (k = (fl, F_sources_list))) as [->|Hkne].
    + rewrite Hk' in Hl'. simplify_eq. apply Hbl in Hk. cbn.
      rewrite !list.Forall_cons, !list.Forall_forall in *. destruct Hk as [? Hk]. split; [done|].
      intros a [_ Ha]%list_elem_of_filter. by apply Hk.
    + destruct (decide (k = r)) as [->|].
      * rewrite He in Hl'. simplify_eq. apply Hbl in Hk. cbn.
        rewrite !list.Forall_cons, !list.Forall_forall in *. destruct Hk as [? Hk].
        split; [by apply Hk|]. intros ? []%not_elem_of_nil.
      * rewrite Hother in Hl' by done. by apply Hbl in Hl'.
  - intros key' fl' Hin'. destruct (Hfl _ _ Hin') as [Hf Hnonempty].
    destruct (decide (fl' = fl)) as [->|Hfne].
    + split; [|done]. destruct Hf as (x & l' & Hx & Hkey & Hh & Hl & Hall & Hsort & Htot). simplify_eq.
      destruct (total_filter _ _ r _ _ Hall) as [Htot' Hsort'].
      eexists x, _. cbn. split_and!; try done; [|by apply Hsort'|change (total (H.set_lists L s)) with (total s); lia].
      apply (sources_ok_frame pr s); [by apply kept_same|done|].
      rewrite list.Forall_forall in Hall |- *. intros a [_ Ha]%list_elem_of_filter. by apply Hall.
    + assert (Heq : L !! (fl', F_sources_list) = H.lists s !! (fl', F_sources_list)).
      { apply Hother; [naive_solver|]. by intros <-. }
      split; [by eapply flower_ok_frame; try done; intros ???|].
      intros _. unfold sources. cbn. rewrite Heq. apply Hnonempty. naive_solver.
Qed.

(** What the other steps leave alone. *)
Definition engine_frame (s s' : heap) : Prop :=
  H.env s' = H.env s ∧ H.rules s' = H.rules s ∧ H.rulesets s' = H.rulesets s ∧ H.ifs s' = H.ifs s ∧
  H.structs s' = H.structs s ∧ H.broadcasts s' = H.broadcasts s.

Definition with_table (p : RsPrio.lsdn_ruleset_prio) (p' : RsPrio.lsdn_ruleset_prio) : Prop :=
  RsPrio.prio p' = RsPrio.prio p ∧ RsPrio.targets p' = RsPrio.targets p ∧
  RsPrio.masks p' = RsPrio.masks p ∧ RsPrio.parent p' = RsPrio.parent p.

(** A new flower rule without sources. *)
Lemma prio_ok_new s s' p p' rs i c key fl x :
  prio_ok None s p rs i c → fl = H.next_ptr s → key ∉ (RsPrio.hash_fl_rules p).*1 →
  engine_frame s s' → with_table p p' →
  RsPrio.hash_fl_rules p' = RsPrio.hash_fl_rules p ++ [(key, fl)] →
  idalloc_ok (RsPrio.handle_alloc p') →
  id_next (RsPrio.handle_alloc p) ≤ id_next (RsPrio.handle_alloc p') →
  Flower.matches x = key → Flower.fl_handle x < id_next (RsPrio.handle_alloc p') →
  H.objs s' !! pr = Some (ORsPrio p') → H.objs s' !! fl = Some (OFlower x) →
  (∀ q, q ≠ pr → q ≠ fl → H.objs s' !! q = H.objs s !! q) →
  H.next_ptr s' = Pos.succ fl →
  initialised (H.lists s) (H.lists s') (fl, F_sources_list) →
  prio_ok (Some fl) s' p' rs i c.
Proof.
  intros Hok -> Hkey (_ & Er & Ers & Eif & Estr & Ebr) (Ep & Et & Em & Epar) Eh Hids Hle Hxk Hxh Hp' Hx' Ho En
    (Hwf & He & Hother & _).
  pose proof Hok as [Hp Hrs Hif Hc Hsock Heth _ Hwf0 Hb Hk Hptr Hfl].
  destruct (bounded_fresh s (H.next_ptr s) F_sources_list Hwf0 Hb) as (Hnone & _ & _); [lia|].
  assert (Hvk : kept s s').
  { apply kept_same; try done. intros q y Hq Hy. rewrite Ho; [done|..]; intros ->; simplify_eq. }
  split; rewrite ?Epar, ?Ers, ?Eif, ?Et, ?Eh; try done.
  - rewrite Ho; [done|..]; intros E; rewrite E in Hc; congruence.
  - destruct Hb as [Hbo Hbl]. split; rewrite En.
    + intros q o Hq. destruct (decide (q = H.next_ptr s)) as [->|]; [lia|].
      destruct (decide (q = pr)) as [->|]; [apply Hbo in Hp; lia|].
      rewrite Ho in Hq by done. apply Hbo in Hq. lia.
    + intros k l Hl. destruct (decide (k = (H.next_ptr s, F_sources_list))) as [->|].
      * rewrite He in Hl. simplify_eq. repeat constructor. simpl. lia.
      * rewrite Hother in Hl by done. apply Hbl in Hl. eapply Forall_impl; [done|]. simpl. lia.
  - rewrite fmap_app. apply NoDup_app. split_and!; [done| |apply NoDup_singleton].
    intros a Ha ->%list_elem_of_singleton. done.
  - rewrite fmap_app. apply NoDup_app. split_and!; [done| |apply NoDup_singleton].
    intros a Ha ->%list_elem_of_singleton. simpl in Ha.
    apply list_elem_of_fmap in Ha as ([k f] & Hf & Hin). simpl in Hf. subst f.
    destruct (Hfl _ _ Hin) as [(y & _ & Hy & _) _]. congruence.
  - intros k f [Hin| [= -> ->]%list_elem_of_singleton]%elem_of_app.
    + destruct (Hfl _ _ Hin) as [Hf Hne].
      assert (f ≠ H.next_ptr s).
      { intros ->. destruct Hf as (y & _ & Hy & _). congruence. }
      assert (f ≠ pr).
      { intros ->. destruct Hf as (y & _ & Hy & _). congruence. }
      assert (Hlk : H.lists s' !! (f, F_sources_list) = H.lists s !! (f, F_sources_list)).
      { apply Hother. naive_solver. }
      split; [eapply flower_ok_frame; try done; [by apply Ho|by rewrite Er]|].
      intros _. unfold sources. rewrite Hlk. by apply Hne.
    + split; [|done]. exists x, []. split_and!; try done; constructor.
Qed.

(** A flower rule without sources goes. *)
Lemma prio_ok_free s s' p p' rs i c key fl :
  prio_ok (Some fl) s p rs i c → (key, fl) ∈ RsPrio.hash_fl_rules p →
  engine_frame s s' → with_table p p' →
  RsPrio.hash_fl_rules p' = hash_delete fl (RsPrio.hash_fl_rules p) →
  RsPrio.handle_alloc p' = RsPrio.handle_alloc p →
  H.objs s' = delete fl (<[pr := ORsPrio p']> (H.objs s)) →
  H.next_ptr s' = H.next_ptr s →
  H.lists s' = filter (λ kv : addr * list addr, kv.1.1 ≠ fl) (H.lists s) →
  prio_ok None s' p' rs i c.
Proof.
  intros Hok Hin (_ & Er & Ers & Eif & Estr & Ebr) (Ep & Et & Em & Epar) Eh Ea Eo En El.
  pose proof Hok as [Hp Hrs Hif Hc Hsock Heth Hids Hwf0 [Hbo Hbl] Hk Hptr Hfl].
  assert (Hfx : ∃ y, H.objs s !! fl = Some (OFlower y)).
  { destruct (Hfl _ _ Hin) as [(y & _ & Hy & _) _]. eauto. }
  destruct Hfx as [y Hy].
  assert (Hother : ∀ q, q ≠ pr → q ≠ fl → H.objs s' !! q = H.objs s !! q).
  { intros q ??. by rewrite Eo, lookup_delete_ne, lookup_insert_ne. }
  assert (Hpf : pr ≠ fl) by congruence.
  assert (Hlk : ∀ q f, q ≠ fl → H.lists s' !! (q, f) = H.lists s !! (q, f)).
  { intros q f Hq. rewrite El. destruct (H.lists s !! (q, f)) as [l|] eqn:E.
    - by apply map_lookup_filter_Some.
    - apply map_lookup_filter_None. by left. }
  split; rewrite ?Epar, ?Ers, ?Eif, ?Et, ?Eh, ?Ea; try done.
  - by rewrite Eo, lookup_delete_ne, lookup_insert_eq.
  - rewrite Hother; [done|..]; intros E; rewrite E in Hc; congruence.
  - rewrite El. exact (Store.wf_filter (λ k : addr, k.1 ≠ fl) _ Hwf0).
  - split; rewrite En.
    + intros q o Hq. rewrite Eo in Hq. apply lookup_delete_Some in Hq as [? Hq].
      apply lookup_insert_Some in Hq as [[<- _]|[_ Hq]]; [by apply Hbo in Hp|by apply Hbo in Hq].
    + intros k l Hl. rewrite El in Hl. apply map_lookup_filter_Some in Hl as [Hl _]. by apply Hbl in Hl.
  - eapply sublist_NoDup; [done|]. apply fmap_sublist, sublist_filter.
  - eapply sublist_NoDup; [done|]. apply fmap_sublist, sublist_filter.
  - intros k f [Hf Hin']%list_elem_of_filter. simpl in Hf. destruct (Hfl _ _ Hin') as [Hfo Hne].
    split.
    + eapply flower_ok_frame; try done.
      * apply kept_same; try done.
        intros q z Hq Hz. rewrite Hother; [done|..]; intros ->; simplify_eq.
      * apply Hother; [|done]. intros ->. destruct Hfo as (z & _ & Hz & _). congruence.
      * by apply Hlk.
      * by rewrite Er.
      * by rewrite Ea.
    + intros _. unfold sources. rewrite Hlk by done. apply Hne. congruence.
Qed.
(** ** Freeing a flower rule *)

(** The request that removes the filter of a flower rule, unless decommits are disabled. *)
Definition deleted (s s' : heap) (p : RsPrio.lsdn_ruleset_prio) (rs : Ruleset.lsdn_ruleset)
    (i : If.lsdn_if) (c : Ctx.lsdn_context) (handle : Z) (err : lsdn_err_t) : Prop :=
  if Ctx.disable_decommit c then err = LSDNE_OK ∧ H.trace s' = H.trace s
  else ∃ ok : bool, err = (if ok then LSDNE_OK else LSDNE_NETLINK) ∧
    H.trace s' = H.trace s ++
      [(ReqFilterDelete (If.ifindex i) handle (Ruleset.parent_handle rs) (Ruleset.chain rs)
          (u16 (RsPrio.prio p + Ruleset.prio_start rs)), ok)].

Lemma free_fl_rule_spec s p rs i c key fl x :
  prio_ok (Some fl) s p rs i c → (key, fl) ∈ RsPrio.hash_fl_rules p →
  H.objs s !! fl = Some (OFlower x) →
  wp (free_fl_rule fl pr) s (λ err s', ∃ p',
    prio_ok None s' p' rs i c ∧ with_table p p' ∧ engine_frame s s' ∧
    RsPrio.hash_fl_rules p' = hash_delete fl (RsPrio.hash_fl_rules p) ∧
    (∀ f, f ≠ fl → sources s' f = sources s f) ∧
    (∀ e, own s e = None → own s' e = None) ∧ H.objs s' !! fl = None ∧
    deleted s s' p rs i c (Flower.fl_handle x) err).
Proof.
  intros Hok Hin Hx. pose proof Hok as [Hp Hrs Hi Hc Hsock _ _ _ _ _ _ _].
  set (p' := RsPrio.set_hash_fl_rules (hash_delete fl (RsPrio.hash_fl_rules p)) p).
  assert (Hne : pr ≠ fl) by congruence.
  assert (Htail : ∀ t (err : lsdn_err_t),
    wp (_ ← upd_rsprio pr (λ p, RsPrio.set_hash_fl_rules (hash_delete fl (RsPrio.hash_fl_rules p)) p);
        _ ← free_obj fl; mret err) (H.set_trace t s) (λ err' s', err' = err ∧ ∃ p',
      prio_ok None s' p' rs i c ∧ with_table p p' ∧ engine_frame s s' ∧
      RsPrio.hash_fl_rules p' = hash_delete fl (RsPrio.hash_fl_rules p) ∧
      (∀ f, f ≠ fl → sources s' f = sources s f) ∧
      (∀ e, own s e = None → own s' e = None) ∧ H.objs s' !! fl = None ∧ H.trace s' = t)).
  { intros t err. hstep. hstep. hstep. split; [done|].
    exists p'. split_and!; try done.
    - by apply (prio_ok_free s _ p p' rs i c key fl).
    - intros f Hf. unfold sources. cbn. destruct (H.lists s !! (f, F_sources_list)) as [l|] eqn:E.
      + rewrite (proj2 (map_lookup_filter_Some _ _ _ l)); [done|]. by split.
      + rewrite (proj2 (map_lookup_filter_None _ _ _)); [done|]. by left.
    - intros e He. cbn. pose proof (Store.owner_filter (λ k : addr, k.1 ≠ fl) (H.lists s) e) as Hof.
      etransitivity; [apply Hof; [apply Hok|congruence]|done].
    - cbn. by rewrite lookup_delete_eq. }
  unfold free_fl_rule. hstep. hstep. hstep. hstep. hstep. unfold deleted.
  destruct (Ctx.disable_decommit c).
  - hstep. specialize (Htail (H.trace s) LSDNE_OK).
    replace (H.set_trace (H.trace s) s) with s in Htail by by destruct s.
    eapply wp_mono; [exact Htail|]. intros err s' (-> & p'' & ?). exists p''. naive_solver.
  - unfold lsdn_filter_delete, send_await_response. hstep. hstep; [by rewrite Hsock|].
    hstep. hstep. hstep. eapply wp_mono; [apply Htail|]. cbv beta.
    intros err s' (-> & p'' & ?). exists p''. destruct_and?. split_and!; try done. eauto.
Qed.
(** ** Adding a rule *)

(** Rule [r] is new among the rules of [key], at the place of its subpriority. *)
Definition inserted (s : heap) (p : RsPrio.lsdn_ruleset_prio) (s' : heap)
    (p' : RsPrio.lsdn_ruleset_prio) (key : list matchdata) (r : addr) : Prop :=
  (∃ l1 l2, rules_of s p key = l1 ++ l2 ∧ rules_of s' p' key = l1 ++ r :: l2 ∧
     Forall (λ r', subprio_of s' r' < subprio_of s' r) l1 ∧
     Forall (λ r', subprio_of s' r < subprio_of s' r') l2) ∧
  ∀ k, k ≠ key → rules_of s' p' k = rules_of s p k.

Definition same_rules (s : heap) (p : RsPrio.lsdn_ruleset_prio) (s' : heap)
    (p' : RsPrio.lsdn_ruleset_prio) : Prop := ∀ k, rules_of s' p' k = rules_of s p k.

(** The handle of the filter for [key]: that of its flower rule, or the next one that is free. *)
Definition flower_handle (s : heap) (fl : ptr) : option Z :=
  match H.objs s !! fl with Some (OFlower y) => Some (Flower.fl_handle y) | _ => None end.
Definition handle_of (s : heap) (p : RsPrio.lsdn_ruleset_prio) (key : list matchdata) : option Z :=
  match hash_find key (RsPrio.hash_fl_rules p) with
  | Some fl => flower_handle s fl
  | None => (lsdn_idalloc_get (RsPrio.handle_alloc p)).1
  end.

Lemma rules_of_elem s ex p rs i c key fl :
  prio_ok ex s p rs i c → (key, fl) ∈ RsPrio.hash_fl_rules p → rules_of s p key = sources s fl.
Proof.
  intros Hok Hin. unfold rules_of. by rewrite (hash_find_elem _ _ fl) by (done || apply Hok).
Qed.

Lemma hash_find_delete (t : list (list matchdata * ptr)) k key fl :
  NoDup t.*1 → NoDup t.*2 → (key, fl) ∈ t →
  hash_find k (hash_delete fl t) = if decide (k = key) then None else hash_find k t.
Proof.
  intros Hk Hp Hin. case_decide as E.
  - subst k. destruct (hash_find key (hash_delete fl t)) as [f|] eqn:Ef; [|done].
    apply hash_find_Some, list_elem_of_filter in Ef as [Hf Hin'].
    apply hash_find_elem in Hin, Hin'; [|done..]. simpl in Hf. congruence.
  - assert (Hkd : NoDup (hash_delete fl t).*1).
    { eapply sublist_NoDup; [done|]. apply fmap_sublist, sublist_filter. }
    destruct (hash_find k t) as [f|] eqn:Ef.
    + apply hash_find_elem; [done|]. apply hash_find_Some in Ef.
      apply list_elem_of_filter. split; [|done]. simpl. intros ->. apply E.
      clear -Hp Hin Ef. induction t as [|[a b] t IH]; [set_solver|].
      rewrite fmap_cons, NoDup_cons in Hp. destruct Hp as [Hb Hp].
      apply elem_of_cons in Hin as [Hin|Hin], Ef as [Ef|Ef]; simplify_eq/=; try done.
      * exfalso. apply Hb. by apply (list_elem_of_fmap_2 snd) in Ef.
      * exfalso. apply Hb. by apply (list_elem_of_fmap_2 snd) in Hin.
      * by apply IH.
    + apply hash_find_None in Ef. destruct (hash_find k (hash_delete fl t)) as [f|] eqn:Ef'; [|done].
      apply hash_find_Some, list_elem_of_filter in Ef' as [_ Hin']. exfalso. apply Ef.
      by apply (list_elem_of_fmap_2 fst) in Hin'.
Qed.

Lemma unlinked_free s r : Store.unlinked (H.lists s) r = true → own s r = None.
Proof. unfold Store.unlinked. intros [Ho _]%andb_true_iff. by apply bool_decide_eq_true in Ho. Qed.

Section insert.
Context (s : heap) (p : RsPrio.lsdn_ruleset_prio) (rs : Ruleset.lsdn_ruleset) (i : If.lsdn_if)
  (c : Ctx.lsdn_context) (key : list matchdata) (fl : ptr) (y : Flower.lsdn_flower_rule) (r : addr)
  (x : Rule.lsdn_rule) (update : bool).
Hypothesis Hok : prio_ok (if update then None else Some fl) s p rs i c.
Hypothesis Hin : (key, fl) ∈ RsPrio.hash_fl_rules p.
Hypothesis Hy : H.objs s !! fl = Some (OFlower y).
Hypothesis Hempty : update = false → sources s fl = [].
Hypothesis Hx : H.rules s !! r = Some x.
Hypothesis Hkey : Rule.matches x = key.
Hypothesis Hprio : Rule.prio x = Some pr.
Hypothesis Hset : is_Some (Rule.ruleset x).
Hypothesis Hfield : r.2 ≠ F_sources_list.
Hypothesis Hun : Store.unlinked (H.lists s) r = true.
Hypothesis Hbnd : (r.1 < H.next_ptr s)%positive.
Hypothesis Hcnt : 0 ≤ actions_count (Rule.action x).
Hypothesis Hlive : act_live s (fn (Rule.action x)).
Hypothesis Hfit : 1 + total s (sources s fl) + actions_count (Rule.action x) ≤ LSDN_MAX_ACT_PRIO.

(** The filter was not accepted: the flower rule is gone, and what is left of its other rules are
    pointers to it. *)
Definition refused (s' : heap) (err : lsdn_err_t) : Prop :=
  ∃ p' acts s1 err0 err',
    prio_ok None s' p' rs i c ∧ with_table p p' ∧
    RsPrio.hash_fl_rules p' = hash_delete fl (RsPrio.hash_fl_rules p) ∧
    (∀ f, f ≠ fl → sources s' f = sources s f) ∧
    H.objs s' !! fl = None ∧ (∀ r', r' ≠ r → H.rules s' !! r' = H.rules s !! r') ∧
    flushed s s1 (flower_filter p rs i update (Flower.fl_handle y) key acts) err0 ∧ err0 ≠ LSDNE_OK ∧
    deleted s1 s' p rs i c (Flower.fl_handle y) err' ∧ err = acc_inconsistent err0 err'.

Definition accepted (s' : heap) : Prop :=
  prio_ok None s' p rs i c ∧
  (∃ l1 l2, sources s fl = l1 ++ l2 ∧ sources s' fl = l1 ++ r :: l2 ∧
     Forall (λ r', subprio_of s' r' < subprio_of s' r) l1 ∧
     Forall (λ r', subprio_of s' r < subprio_of s' r') l2) ∧
  (∀ f, f ≠ fl → sources s' f = sources s f) ∧ H.objs s' !! fl = Some (OFlower y) ∧
  ∃ acts, source_actions 1 (sources s' fl) s' = Ok acts s' ∧
    flushed s s' (flower_filter p rs i update (Flower.fl_handle y) key acts) LSDNE_OK.

Section linked.
(** The rule was linked between [l1] and [l2]; nothing was sent yet. *)
Context (s2 : heap) (l1 l2 : list addr).
Hypothesis Hok2 : prio_ok None s2 p rs i c.
Hypothesis Hy2 : H.objs s2 !! fl = Some (OFlower y).
Hypothesis Hsl : sources s fl = l1 ++ l2.
Hypothesis Hsl2 : sources s2 fl = l1 ++ r :: l2.
Hypothesis Hoth : ∀ f, f ≠ fl → sources s2 f = sources s f.
Hypothesis Hlow : Forall (λ r', subprio_of s2 r' < subprio_of s2 r) l1.
Hypothesis Hhigh : Forall (λ r', subprio_of s2 r < subprio_of s2 r') l2.
Hypothesis Henv : H.env s2 = H.env s.
Hypothesis Htr : H.trace s2 = H.trace s.
Hypothesis Hrules : ∀ r', r' ≠ r → H.rules s2 !! r' = H.rules s !! r'.

(** Rule and flower rule are taken back. *)
Lemma insert_refused acts err0 t n :
  let s3 := H.set_trace t (H.set_allocs n s2) in
  flushed s s3 (flower_filter p rs i update (Flower.fl_handle y) key acts) err0 → err0 ≠ LSDNE_OK →
  wp (_ ← list_remove r; err' ← free_fl_rule fl pr; mret (acc_inconsistent err0 err')) s3
    (λ err s', err ∉ [LSDNE_OK; LSDNE_DUPLICATE] ∧ refused s' err).
Proof using All.
  intros s3 Hfl Herr. assert (Hok3 : prio_ok None s3 p rs i c) by by apply prio_ok_sent.
  rewrite wp_bind. apply (wp_unlink (fl, F_sources_list)); [apply Hok3| |].
  { apply (source_owner _ _ _ _ _ _ _ _ _ Hok3 Hin).
    change (sources s3 fl) with (sources s2 fl). rewrite Hsl2. set_solver. }
  intros L' HL'. destruct (prio_ok_unlink s3 None p rs i c key fl r L') as [Hok4 _]; try done.
  { by left. }
  { change (sources s3 fl) with (sources s2 fl). rewrite Hsl2. set_solver. }
  rewrite wp_bind. eapply wp_mono; [by eapply (free_fl_rule_spec (H.set_lists L' s3))|].
  intros err' s5 (p' & Hok5 & Hwt & Hef & Hh & Hs5 & _ & Hgone & Hdel). hstep. split.
  { unfold acc_inconsistent. case_bool_decide; [set_solver|]. destruct err0; try done; set_solver. }
  exists p', acts, (H.set_lists L' s3), err0, err'. split_and!; try done.
  - intros f Hf. rewrite Hs5 by done. rewrite <-(Hoth f Hf). unfold sources. cbn.
    destruct HL' as (_ & _ & _ & HL' & _). cbn in HL'. rewrite HL'; [done|naive_solver|]. by intros <-.
  - intros r' Hr'. destruct Hef as (_ & Er & _). by rewrite Er, <-Hrules.
Qed.

Lemma insert_sent :
  wp (err ← flush_fl_rule fl pr update;
      if bool_decide (err ≠ LSDNE_OK) then
        _ ← list_remove r; err' ← free_fl_rule fl pr; mret (acc_inconsistent err err')
      else mret err) s2 (λ err s',
    err = LSDNE_OK ∧ accepted s' ∨ err ∉ [LSDNE_OK; LSDNE_DUPLICATE] ∧ refused s' err).
Proof using All.
  destruct (po_flowers _ _ _ _ _ _ Hok2 _ _ Hin) as [(y2 & l & Hy2' & Hyk & _ & Hl2 & Hall2 & _ & Htot2) _].
  assert (y2 = y) as -> by congruence. assert (l = l1 ++ r :: l2) as -> by (unfold sources in Hsl2; by rewrite Hl2 in Hsl2).
  destruct (source_actions_ok _ _ _ _ _ 1 Hall2 Htot2) as [acts Hacts].
  rewrite wp_bind. eapply wp_mono; [by eapply (flush_fl_rule_spec s2)|].
  intros err s3 [(t & n & ->) Hfl].
  assert (Hfl' : flushed s (H.set_trace t (H.set_allocs n s2)) (flower_filter p rs i update (Flower.fl_handle y) key acts) err).
  { unfold flushed, out_of_memory in *. by rewrite <-Htr, <-Henv. }
  destruct (decide (err = LSDNE_OK)) as [->|Herr].
  - rewrite bool_decide_false by naive_solver. hstep. left. split; [done|]. split_and!; [by apply prio_ok_sent|by exists l1, l2|done|done|].
    exists acts. split; [|done]. change (sources _ fl) with (sources s2 fl). rewrite Hsl2.
    apply (source_actions_frame s2); [by apply kept_same|done|done].
  - rewrite bool_decide_true by done. eapply wp_mono; [by eapply insert_refused|by right].
Qed.
End linked.

Lemma insert_source_spec :
  wp (insert_source pr r (Rule.subprio x) fl update) s (λ err s',
    err = LSDNE_OK ∧ accepted s' ∨
    err = LSDNE_DUPLICATE ∧ prio_ok None s' p rs i c ∧ H.lists s' = H.lists s ∧
      H.trace s' = H.trace s ∧ update = true ∧
      (∃ r', r' ∈ sources s fl ∧ subprio_of s r' = Rule.subprio x) ∨
    err ∉ [LSDNE_OK; LSDNE_DUPLICATE] ∧ refused s' err).
Proof using All.
  pose proof (po_wf _ _ _ _ _ _ Hok) as Hwf. pose proof (unlinked_free s r Hun) as Hown.
  set (x1 := Rule.set_fl_rule (Some fl) x). set (s1 := H.set_rules (<[r := x1]> (H.rules s)) s).
  assert (Hok1 : prio_ok (if update then None else Some fl) s1 p rs i c) by by apply prio_ok_rule.
  destruct (po_flowers _ _ _ _ _ _ Hok1 _ _ Hin) as [(y1 & l & Hy1 & Hyk & Hyh & Hl & Hall & Hsort & Htot) _].
  assert (Hsl : sources s fl = l) by (unfold sources; cbn in Hl; by rewrite Hl).
  assert (Hrl : ∀ r', r' ∈ l → H.rules s1 !! r' = H.rules s !! r').
  { intros r' Hr'. cbn. rewrite lookup_insert_ne; [done|]. intros <-. rewrite <-Hsl in Hr'.
    by rewrite (source_owner _ _ _ _ _ _ _ _ _ Hok Hin Hr') in Hown. }
  destruct (total_frame s s1 l Hrl) as [Et Es].
  assert (Hsub : subprio_of s1 r = Rule.subprio x) by (unfold subprio_of; cbn; by rewrite lookup_insert_eq).
  unfold insert_source. hstep. unfold list_entries. hstep. hstep. rewrite wp_bind. fold x1. fold s1.
  destruct (find_nearest_run s1 l (Rule.subprio x) (fl, F_sources_list)) as (place & Hrun & Hplace); [|done|].
  { intros r' Hr'. rewrite list.Forall_forall in Hall. destruct (Hall r' Hr') as (_ & z & Hz & _). eauto. }
  rewrite <-Hsl in Hrun. eapply wp_run; [done|]. destruct place as [pos|[]].
  2: { hstep. right; left. destruct Hplace as (r' & Hr' & Hs').
       assert (Hu : update = true).
       { destruct update; [done|]. rewrite Hempty in Hsl by done. subst l. by apply not_elem_of_nil in Hr'. }
       split_and!; try done; [by rewrite Hu in Hok1|]. exists r'. split; [by rewrite Hsl|].
       unfold subprio_of in *. by rewrite <-Hrl. }
  destruct Hplace as (l1 & l2 & -> & Hlast & H1 & H2).
  rewrite wp_bind. eapply wp_link_after; [done..| |done|]; [by destruct r; naive_solver|]. intros L HL.
  eapply wp_mono; [eapply (insert_sent (H.set_lists L s1) l1 l2); try done|naive_solver].
  - eapply (prio_ok_insert s1 _ p rs i c key fl r l1 l2); try done.
    + destruct update; eauto.
    + split; [done|]. exists x1. cbn. rewrite lookup_insert_eq. split_and!; try done.
      by apply (act_live_frame s); [apply kept_same|].
    + by rewrite Hsub.
    + by rewrite Hsub.
    + unfold count_of. cbn. rewrite lookup_insert_eq. cbn. rewrite Et, <-Hsl. lia.
  - unfold sources. cbn. by destruct HL as (_ & _ & -> & _).
  - intros f Hf. unfold sources. cbn. destruct HL as (_ & _ & _ & HL & _).
    rewrite HL; [done|naive_solver|]. by intros <-.
  - change (Forall (λ r', subprio_of s1 r' < subprio_of s1 r) l1). by rewrite Hsub.
  - change (Forall (λ r', subprio_of s1 r < subprio_of s1 r') l2). by rewrite Hsub.
  - intros r' Hr'. cbn. by rewrite lookup_insert_ne.
Qed.
End insert.
(** The masked key under which a rule is filed. *)
Definition key_of (p : RsPrio.lsdn_ruleset_prio) (x : Rule.lsdn_rule) : list matchdata :=
  apply_mask (RsPrio.targets p) (RsPrio.masks p) (Rule.matches x).

(** A rule that may be added: initialised, in no list, with an action that can run. *)
Definition addable (s : heap) (r : addr) (x : Rule.lsdn_rule) : Prop :=
  H.rules s !! r = Some x ∧ r.2 ≠ F_sources_list ∧ Store.unlinked (H.lists s) r = true ∧
  (r.1 < H.next_ptr s)%positive ∧ 0 ≤ actions_count (Rule.action x) ∧
  act_live s (fn (Rule.action x)).

(** The filter of [key] was not accepted. All its rules are gone from the table: the flower rule
    is freed, and the rules it had still point to it, so that none of them can be removed. *)
Definition given_up (s : heap) (p : RsPrio.lsdn_ruleset_prio) (rs : Ruleset.lsdn_ruleset)
    (i : If.lsdn_if) (c : Ctx.lsdn_context) (key : list matchdata) (err : lsdn_err_t)
    (s' : heap) (p' : RsPrio.lsdn_ruleset_prio) : Prop :=
  (∀ k, rules_of s' p' k = if decide (k = key) then [] else rules_of s p k) ∧
  (∀ r', r' ∈ rules_of s p key → lsdn_ruleset_remove r' s' = Fault Dangling) ∧
  ∃ h acts s1 err0 err', handle_of s p key = Some h ∧
    flushed s s1 (flower_filter p rs i (bool_decide (rules_of s p key ≠ [])) h key acts) err0 ∧
    err0 ≠ LSDNE_OK ∧ deleted s1 s' p rs i c h err' ∧ err = acc_inconsistent err0 err'.

(** The outcomes of adding rule [r] with data [x]. *)
Definition add_outcome (s : heap) (p : RsPrio.lsdn_ruleset_prio) (rs : Ruleset.lsdn_ruleset)
    (i : If.lsdn_if) (c : Ctx.lsdn_context) (r : addr) (x : Rule.lsdn_rule) (err : lsdn_err_t)
    (s' : heap) (p' : RsPrio.lsdn_ruleset_prio) : Prop :=
  let key := key_of p x in
  match err with
  | LSDNE_OK =>
      inserted s p s' p' key r ∧
      ∃ h acts, handle_of s p key = Some h ∧ handle_of s' p' key = Some h ∧
        source_actions 1 (rules_of s' p' key) s' = Ok acts s' ∧
        flushed s s' (flower_filter p rs i (bool_decide (rules_of s p key ≠ [])) h key acts) LSDNE_OK
  | LSDNE_DUPLICATE =>
      same_rules s p s' p' ∧ H.trace s' = H.trace s ∧
      ∃ r', r' ∈ rules_of s p key ∧ subprio_of s r' = Rule.subprio x
  | _ =>
      err = LSDNE_NOMEM ∧ same_rules s p s' p' ∧ H.trace s' = H.trace s ∧ rules_of s p key = [] ∧
        (handle_of s p key = None ∨ out_of_memory s) ∨
      given_up s p rs i c key err s' p'
  end.

Lemma add_outcome_error s p rs i c r x err s' p' :
  err ∉ [LSDNE_OK; LSDNE_DUPLICATE] → given_up s p rs i c (key_of p x) err s' p' →
  add_outcome s p rs i c r x err s' p'.
Proof. intros He Hg. unfold add_outcome. destruct err; try (by right); set_solver. Qed.

(** Removing a rule whose flower rule was freed. *)
Lemma remove_dangles s r x fl :
  H.rules s !! r = Some x → is_Some (Rule.ruleset x) → is_Some (Rule.prio x) →
  Rule.fl_rule x = Some fl → H.objs s !! fl = None → lsdn_ruleset_remove r s = Fault Dangling.
Proof.
  intros Hx [rs Hrs] [q Hq] Hf Ho.
  unfold lsdn_ruleset_remove, mbind, M_bind, get_rule, mbind, M_bind, get, live.
  rewrite Hx. simpl. rewrite Hrs, Hq, Hf. simpl.
  unfold get_flower, get_obj, mbind, M_bind, get, live. by rewrite Ho.
Qed.

Lemma rules_of_other s p s' fl key k :
  NoDup (RsPrio.hash_fl_rules p).*1 → NoDup (RsPrio.hash_fl_rules p).*2 →
  (key, fl) ∈ RsPrio.hash_fl_rules p → k ≠ key →
  (∀ f, f ≠ fl → sources s' f = sources s f) → rules_of s' p k = rules_of s p k.
Proof.
  intros Hk Hp Hin Hne Hs. pose proof (hash_find_delete _ k key fl Hk Hp Hin) as Hd.
  rewrite decide_False in Hd by done. unfold rules_of.
  destruct (hash_find k (RsPrio.hash_fl_rules p)) as [f|] eqn:E; [|done]. apply Hs.
  apply hash_find_Some, list_elem_of_filter in Hd as [Hf _]. done.
Qed.

(** The rule becomes a source of a flower rule that is there. *)
Lemma add_found s0 s p rs i c key fl r x :
  prio_ok None s p rs i c → (key, fl) ∈ RsPrio.hash_fl_rules p →
  addable s r x → Rule.matches x = key → Rule.prio x = Some pr → is_Some (Rule.ruleset x) →
  1 + total s (sources s fl) + actions_count (Rule.action x) ≤ LSDN_MAX_ACT_PRIO →
  (∀ r', r' ∈ sources s fl → subprio_of s0 r' = subprio_of s r') →
  H.trace s = H.trace s0 → H.lists s = H.lists s0 → H.objs s = H.objs s0 → H.env s = H.env s0 →
  ∀ x0, key_of p x0 = key → Rule.subprio x0 = Rule.subprio x →
  wp (insert_source pr r (Rule.subprio x) fl true) s (λ err s', ∃ p',
    prio_ok None s' p' rs i c ∧ with_table p p' ∧ add_outcome s0 p rs i c r x0 err s' p').
Proof.
  intros Hok Hin (Hx & Hf & Hun & Hb & Hc & Hl) Hkey Hpr Hset Hfit Hsub Htr Hli Hob Hen x0 Hk0 Hsp.
  assert (Hro : ∀ k, rules_of s0 p k = rules_of s p k).
  { intros k. unfold rules_of, sources. by rewrite Hli. }
  pose proof (rules_of_elem _ _ _ _ _ _ _ _ Hok Hin) as Hrf.
  destruct (po_flowers _ _ _ _ _ _ Hok _ _ Hin) as [(y & l & Hy & Hyk & _ & Hyl & Hall & _) Hne].
  assert (Hh0 : handle_of s0 p key = Some (Flower.fl_handle y)).
  { unfold handle_of, flower_handle. rewrite (hash_find_elem _ _ fl) by (done || apply Hok). by rewrite <-Hob, Hy. }
  assert (Hupd : bool_decide (rules_of s0 p key ≠ []) = true).
  { rewrite Hro, Hrf. apply bool_decide_eq_true. by apply Hne. }
  pose proof (unlinked_free s r Hun) as Hown.
  eapply wp_mono; [by eapply (insert_source_spec s p rs i c key fl y r x true)|].
  intros err s' [(-> & Hok' & (l1 & l2 & Hl1 & Hl2 & H1 & H2) & Hoth & Hy' & acts & Hacts & Ht)|
                 [(-> & Hok' & Hli' & Ht & _ & r' & Hr' & Hs')|
                  (Herr & p' & acts & s1 & err0 & err' & Hok' & Hwt & Hh' & Hs' & Hgone & Hrl & Ht & He0 & Hd & Ee)]].
  - exists p. split_and!; try done. simpl. rewrite Hk0. unfold inserted.
    rewrite (rules_of_elem _ _ _ _ _ _ _ _ Hok' Hin), Hro, Hrf. split; [split|].
    + by exists l1, l2.
    + intros k Hkk. rewrite Hro. by apply (rules_of_other s p s' fl key k); [apply Hok..| | |].
    + exists (Flower.fl_handle y), acts. rewrite Hro, Hrf in Hupd. rewrite Hupd, <-Htr. split_and!; try done.
      unfold handle_of, flower_handle. rewrite (hash_find_elem _ _ fl) by (done || apply Hok). by rewrite Hy'.
  - exists p. split_and!; try done. simpl. rewrite Hk0. split_and!.
    + intros k. unfold rules_of, sources. by rewrite Hli', Hli.
    + congruence.
    + exists r'. rewrite Hro, Hrf, Hsp. split; [done|]. by rewrite Hsub.
  - exists p'. split_and!; [done|done|]. apply add_outcome_error; [done|]. rewrite Hk0. split_and!.
    + intros k. unfold rules_of at 1. rewrite Hh', (hash_find_delete _ k key fl); [|apply Hok|apply Hok|done].
      case_decide as Hk; [done|]. rewrite Hro.
      rewrite <-(rules_of_other s p s' fl key k); [done|apply Hok|apply Hok|done..].
    + intros r' Hr'. rewrite Hro, Hrf in Hr'. assert (r' ≠ r).
      { intros ->. by rewrite (source_owner _ _ _ _ _ _ _ _ _ Hok Hin Hr') in Hown. }
      unfold sources in Hr'. rewrite Hyl in Hr'. rewrite list.Forall_forall in Hall.
      destruct (Hall r' Hr') as (_ & z & Hz & _ & Hzf & Hzp & Hzr & _).
      apply (remove_dangles _ r' z fl); [by rewrite Hrl|done|by eexists|done|done].
    + exists (Flower.fl_handle y), acts, s1, err0, err'. rewrite Hupd. split_and!; try done.
      unfold flushed, out_of_memory in *. by rewrite <-Htr, <-Hen.
Qed.
Lemma hash_find_app (t : list (list matchdata * ptr)) k key fl :
  NoDup (t ++ [(key, fl)]).*1 →
  hash_find k (t ++ [(key, fl)]) = if decide (k = key) then Some fl else hash_find k t.
Proof.
  intros Hnd. case_decide as E; [subst k; apply hash_find_elem; [done|set_solver]|].
  destruct (hash_find k t) as [f|] eqn:Ef.
  - apply hash_find_elem; [done|]. apply hash_find_Some in Ef. set_solver.
  - destruct (hash_find k (t ++ _)) as [f|] eqn:Ef'; [|done]. apply hash_find_None in Ef.
    apply hash_find_Some, elem_of_app in Ef' as [Hin|Hin].
    + exfalso. apply Ef. by apply (list_elem_of_fmap_2 fst) in Hin.
    + apply list_elem_of_singleton in Hin. congruence.
Qed.

(** Only the allocator of handles moves on. *)
Lemma prio_ok_handles s p rs i c a n :
  let p' := RsPrio.set_handle_alloc a p in
  prio_ok None s p rs i c → idalloc_ok a → id_next (RsPrio.handle_alloc p) ≤ id_next a →
  prio_ok None (H.set_allocs n (H.set_objs (<[pr := ORsPrio p']> (H.objs s)) s)) p' rs i c.
Proof.
  intros p' Hok Ha Hle. pose proof Hok as [Hp Hrs Hif Hc Hsock Heth _ Hwf [Hbo Hbl] Hk Hptr Hfl].
  assert (Hne : ∀ k f, (k, f) ∈ RsPrio.hash_fl_rules p → f ≠ pr).
  { intros k f Hkf ->. destruct (Hfl _ _ Hkf) as [(y & l & Hy & _) _]. congruence. }
  split; try done; cbn.
  - by rewrite lookup_insert_eq.
  - rewrite lookup_insert_ne; [done|]. intros E. rewrite E in Hp. congruence.
  - split; [|done]. intros q o Hq. cbn in Hq.
    apply lookup_insert_Some in Hq as [[<- _]|[_ Hq]]; [by apply Hbo in Hp|by apply Hbo in Hq].
  - intros k f Hkf. destruct (Hfl _ _ Hkf) as [Hf ?]. split; [|done].
    eapply flower_ok_frame; try done.
    + apply kept_same; try done. intros q y Hq Hy. cbn. rewrite lookup_insert_ne; [done|]. intros ->. simplify_eq.
    + cbn. rewrite lookup_insert_ne; [done|]. by eapply not_eq_sym, Hne.
Qed.

(** The new flower rule of a key that has none. *)
Lemma new_fl_rule_spec s0 s p rs i c key r x :
  prio_ok None s p rs i c → hash_find key (RsPrio.hash_fl_rules p) = None →
  addable s r x → (∀ f, sources s f = sources s0 f) →
  wp (new_fl_rule pr p key) s (λ found s', ∃ p', with_table p p' ∧ H.env s' = H.env s ∧ H.trace s' = H.trace s ∧
    match found with
    | None => prio_ok None s' p' rs i c ∧ RsPrio.hash_fl_rules p' = RsPrio.hash_fl_rules p ∧
        (∀ f, sources s' f = sources s0 f) ∧ (handle_of s p key = None ∨ out_of_memory s)
    | Some (fl, update) => update = false ∧
        prio_ok (Some fl) s' p' rs i c ∧ RsPrio.hash_fl_rules p' = RsPrio.hash_fl_rules p ++ [(key, fl)] ∧
        sources s' fl = [] ∧ (∀ f, f ≠ fl → sources s' f = sources s0 f) ∧
        (∃ y, H.objs s' !! fl = Some (OFlower y) ∧ handle_of s p key = Some (Flower.fl_handle y)) ∧
        addable s' r x
    end).
Proof.
  intros Hok Efind Hadd Hs0. pose proof Hadd as (Hx & Hf & Hun & Hb & Hc & Hl).
  pose proof (unlinked_free s r Hun) as Hown. unfold handle_of. rewrite Efind.
  unfold new_fl_rule. destruct (lsdn_idalloc_get (RsPrio.handle_alloc p)) as [[h|] a] eqn:Eid.
  2: { hstep. exists p. split_and!; try done. by left. }
  pose proof (idalloc_get_spec _ _ _ (po_ids _ _ _ _ _ _ Hok) Eid) as (Hids & -> & Hlt & Hnext).
  pose proof (bounded_fresh s (H.next_ptr s) F_sources_list (po_wf _ _ _ _ _ _ Hok)
                (po_bounded _ _ _ _ _ _ Hok)) as (Hn & Hno & Hnl); [lia|]. pose proof (po_prio _ _ _ _ _ _ Hok) as Hp.
  assert (Hpn : pr ≠ H.next_ptr s) by congruence.
  hstep. hstep. cbn. destruct (Env.malloc_ok _ _) eqn:Emem.
  2: { hstep. hstep.
       exists (RsPrio.set_handle_alloc a p). cbn. rewrite insert_insert_eq.
       split_and!; try done; [apply prio_ok_handles; [done..|lia]|right; by eexists]. }
  hstep. rewrite wp_bind. apply wp_init; [apply Hok|cbn; apply unlinked_none; [done|by left]|].
  intros L HL. hstep. hstep. set (p2 := RsPrio.set_hash_fl_rules _ _).
  set (fl := H.next_ptr s) in *. set (s2 := H.set_objs _ (H.set_lists L _)).
  assert (Hoth : ∀ f, f ≠ fl → sources s2 f = sources s f).
  { intros f Hff. unfold sources. cbn. destruct HL as (_ & _ & HL & _). cbn in HL. rewrite HL; [done|]. naive_solver. }
  exists p2. split_and!; try done.
  - apply (prio_ok_new s s2 p p2 rs i c key fl (Flower.mk key (id_next (RsPrio.handle_alloc p)))); try done.
    + by apply hash_find_None.
    + subst p2. simpl. lia.
    + subst p2. simpl. lia.
    + cbn. by rewrite lookup_insert_eq.
    + cbn. by rewrite lookup_insert_ne, lookup_insert_eq.
    + intros q Hq Hqf. cbn. by rewrite !lookup_insert_ne.
  - unfold sources. cbn. destruct HL as (_ & -> & _). done.
  - intros f Hff. by rewrite Hoth.
  - eexists. cbn. rewrite lookup_insert_ne, lookup_insert_eq by done. by split.
  - split_and!; try done; [|cbn; lia|].
    + cbn. apply unlinked_none; [by destruct HL as (_ & _ & _ & ->)|]. destruct HL as (_ & _ & HL & _). cbn in HL.
      rewrite HL by (by intros ->). apply Store.unlinked_true in Hun as [_ ?]; [done|apply Hok].
    + simpl. eapply act_live_frame; [|done]. apply kept_same; [done..|]. intros q y Hq Hy. cbn.
      rewrite !lookup_insert_ne; [done|intros ->; simplify_eq..].
Qed.

(** The rules of the other keys, when a flower rule was made for [key]. *)
Lemma created_others s0 p0 s p rs i c key fl :
  prio_ok (Some fl) s p rs i c → RsPrio.hash_fl_rules p = RsPrio.hash_fl_rules p0 ++ [(key, fl)] →
  (∀ f, f ≠ fl → sources s f = sources s0 f) →
  ∀ s' p', (∀ f, f ≠ fl → sources s' f = sources s f) →
    (∀ k, k ≠ key → hash_find k (RsPrio.hash_fl_rules p') = hash_find k (RsPrio.hash_fl_rules p0)) →
    ∀ k, k ≠ key → rules_of s' p' k = rules_of s0 p0 k.
Proof.
  intros Hok Hh Hsrc s' p' Hs' Hp' k Hk. unfold rules_of. rewrite Hp' by done. destruct (hash_find k _) as [f|] eqn:E; [|done].
  assert (f ≠ fl); [|by rewrite Hs', Hsrc]. intros ->. apply hash_find_Some in E.
  pose proof (po_ptrs _ _ _ _ _ _ Hok) as Hnd. rewrite Hh, fmap_app in Hnd. apply NoDup_app in Hnd as (_ & Hnd & _).
  apply (Hnd fl); [by apply (list_elem_of_fmap_2 snd) in E|set_solver].
Qed.

(** The rule becomes the source of a new flower rule. *)
Lemma add_created s0 p0 s p rs i c key fl y r x x0 :
  prio_ok (Some fl) s p rs i c → with_table p0 p →
  RsPrio.hash_fl_rules p = RsPrio.hash_fl_rules p0 ++ [(key, fl)] →
  hash_find key (RsPrio.hash_fl_rules p0) = None → sources s fl = [] →
  (∀ f, f ≠ fl → sources s f = sources s0 f) →
  H.objs s !! fl = Some (OFlower y) → handle_of s0 p0 key = Some (Flower.fl_handle y) →
  addable s r x → Rule.matches x = key → Rule.prio x = Some pr → is_Some (Rule.ruleset x) →
  1 + actions_count (Rule.action x) ≤ LSDN_MAX_ACT_PRIO →
  H.env s = H.env s0 → H.trace s = H.trace s0 → key_of p0 x0 = key →
  wp (insert_source pr r (Rule.subprio x) fl false) s (λ err s', ∃ p',
    prio_ok None s' p' rs i c ∧ with_table p0 p' ∧ add_outcome s0 p0 rs i c r x0 err s' p').
Proof.
  intros Hok (Ep & Et & Em & Epar) Hh Hnone Hempty Hsrc Hy Hhandle (Hx & Hf & Hun & Hb & Hc & Hl) Hkey Hpr Hset
    Hfit Henv Htr Hk0.
  assert (Hin : (key, fl) ∈ RsPrio.hash_fl_rules p) by (rewrite Hh; set_solver).
  assert (Hro : rules_of s0 p0 key = []) by (unfold rules_of; by rewrite Hnone).
  assert (Hupd : bool_decide (rules_of s0 p0 key ≠ []) = false) by (rewrite Hro; by apply bool_decide_eq_false; intros []).
  assert (Hfilt : ∀ u h acts, flower_filter p rs i u h key acts = flower_filter p0 rs i u h key acts).
  { intros u h acts. unfold flower_filter. by rewrite Ep, Et, Em. }
  assert (Hflush : ∀ s' f e, flushed s s' f e → flushed s0 s' f e).
  { unfold flushed, out_of_memory. intros s' f e. by rewrite Htr, Henv. }
  pose proof (created_others s0 p0 s p rs i c key fl Hok Hh Hsrc) as Hkeep.
  pose proof (po_keys _ _ _ _ _ _ Hok) as Hnd. pose proof Hnd as Hnd'. rewrite Hh in Hnd.
  eapply wp_mono; [eapply (insert_source_spec s p rs i c key fl y r x false); try done|].
  { rewrite Hempty. simpl. lia. }
  intros err s' [(-> & Hok' & (l1 & l2 & Hl1 & Hl2 & H1 & H2) & Hoth & Hy' & acts & Hacts & Ht)|
                 [(_ & _ & _ & _ & ? & _)|
                  (Herr & p' & acts & s1 & err0 & err' & Hok' & Hwt & Hh' & Hs' & Hgone & Hrl & Ht & He0 & Hd & Ee)]];
    [|done|].
  - exists p. split_and!; try done. simpl. rewrite Hk0. unfold inserted.
    rewrite (rules_of_elem _ _ _ _ _ _ _ _ Hok' Hin), Hupd, Hro. split; [split|].
    + rewrite Hempty in Hl1. by exists l1, l2.
    + apply Hkeep; [done|]. intros k Hk. rewrite Hh, hash_find_app by done. by rewrite decide_False.
    + exists (Flower.fl_handle y), acts. rewrite <-Hfilt. split_and!; try done; [|by apply Hflush in Ht].
      unfold handle_of, flower_handle. rewrite (hash_find_elem _ _ fl) by (done || apply Hok). by rewrite Hy'.
  - exists p'. destruct Hwt as (? & ? & ? & ?). split; [done|]. split.
    { split_and!; congruence. }
    assert (Hfd : ∀ k, hash_find k (RsPrio.hash_fl_rules p') =
                         if decide (k = key) then None else hash_find k (RsPrio.hash_fl_rules p0)).
    { intros k. rewrite Hh'. rewrite (hash_find_delete _ k key fl); [|done|apply Hok|done].
      case_decide; [done|]. rewrite Hh, hash_find_app by done. by rewrite decide_False. }
    apply add_outcome_error; [done|]. rewrite Hk0. split_and!.
    + intros k. case_decide as Hk; [unfold rules_of; by rewrite Hfd, decide_True|].
      apply Hkeep; [done| |done]. intros k' Hk'. by rewrite Hfd, decide_False.
    + rewrite Hro. by intros r' Hr'%elem_of_nil.
    + exists (Flower.fl_handle y), acts, s1, err0, err'. rewrite Hupd, <-Hfilt. split_and!; try done.
      * by apply Hflush.
      * unfold deleted in *. by rewrite <-Ep.
Qed.

(** C8: adding a rule to a priority. The rule is filed under its masked key among the rules
    that match the same packets, in the order of subpriorities, and the one filter of that key,
    known by the handle it had or by the next free one, is sent with the actions of all its rules
    in order, as an update if it existed. A rule with the key and subpriority of another is
    refused as a duplicate; when the handles are used up, or there is no memory for the flower
    rule, the rules are as before. When the filter cannot be made or the kernel refuses it, all
    rules of its key are given up: the filter is deleted, the rules are no longer in the table,
    and removing one of them later reads freed memory. In every case the invariant of the
    priority is kept and the other keys keep their rules. *)
Theorem ruleset_add_spec s p rs i c r x :
  prio_ok None s p rs i c → addable s r x →
  1 + total s (rules_of s p (key_of p x)) + actions_count (Rule.action x) ≤ LSDN_MAX_ACT_PRIO →
  wp (lsdn_ruleset_add pr r) s (λ err s', ∃ p',
    prio_ok None s' p' rs i c ∧ with_table p p' ∧ add_outcome s p rs i c r x err s' p').
Proof.
  intros Hok Hadd Hfit. pose proof Hadd as (Hx & Hf & Hun & Hb & Hc & Hl).
  pose proof (unlinked_free s r Hun) as Hown.
  unfold lsdn_ruleset_add, lsdn_rule_apply_mask. pose proof (po_prio _ _ _ _ _ _ Hok) as Hp.
  hstep. hstep. hstep. hstep. cbn. rewrite insert_insert_eq.
  fold (key_of p x). set (key := key_of p x). set (x1 := Rule.set_matches _ _).
  set (s1 := H.set_rules (<[r := x1]> (H.rules s)) s).
  assert (Hok1 : prio_ok None s1 p rs i c) by by apply prio_ok_rule.
  assert (Hx1 : H.rules s1 !! r = Some x1) by (cbn; by rewrite lookup_insert_eq).
  change (H.set_rules _ (H.set_rules _ s)) with s1.
  assert (Hadd1 : addable s1 r x1).
  { split_and!; try done. by apply (act_live_frame s); [apply kept_same|]. }
  rewrite wp_bind. destruct (hash_find key (RsPrio.hash_fl_rules p)) as [fl|] eqn:Efind.
  - pose proof (hash_find_Some _ _ _ Efind) as Hin.
    pose proof (rules_of_elem _ _ _ _ _ _ _ _ Hok Hin) as Hrf. fold key in Hfit. rewrite Hrf in Hfit.
    assert (Hrl : ∀ r', r' ∈ sources s fl → H.rules s1 !! r' = H.rules s !! r').
    { intros r' Hr'. cbn. rewrite lookup_insert_ne; [done|]. intros <-.
      by rewrite (source_owner _ _ _ _ _ _ _ _ _ Hok Hin Hr') in Hown. }
    hstep. change (Rule.subprio x) with (Rule.subprio x1).
    apply (add_found s s1 p rs i c key fl r x1); try done.
    + change (sources s1 fl) with (sources s fl).
      by rewrite (proj1 (total_frame s s1 _ Hrl)).
    + intros r' Hr'. unfold subprio_of. by rewrite Hrl.
  - eapply wp_mono; [eapply (new_fl_rule_spec s s1 p rs i c key r x1); try done|].
    assert (Hh1 : handle_of s1 p key = handle_of s p key) by (unfold handle_of; by rewrite Efind).
    rewrite Hh1. intros [[fl u]|] s2 (p2 & Hwt & Henv & Htr & Hnew).
    + destruct Hnew as (-> & Hok2 & Hh & Hnil & Hoth & (y & Hy & Hyh) & Hadd2).
      change (Rule.subprio x) with (Rule.subprio x1).
      eapply (add_created s p s2 p2 rs i c key fl y r x1); try done.
      fold key in Hfit. unfold rules_of in Hfit. rewrite Efind in Hfit. simpl in *. lia.
    + destruct Hnew as (Hok2 & Hh & Hsrc & Hwhy). hstep. exists p2. split_and!; try done. left.
      fold key. split_and!; try done.
      * intros k. unfold rules_of. rewrite Hh. destruct (hash_find k _); [apply Hsrc|done].
      * unfold rules_of. by rewrite Efind.
Qed.
(** ** Removing a rule *)

(** What is left when [r] was removed from the rules of [key]. *)
Definition remove_outcome (s : heap) (p : RsPrio.lsdn_ruleset_prio) (rs : Ruleset.lsdn_ruleset) (i : If.lsdn_if)
    (c : Ctx.lsdn_context) (key : list matchdata) (r : addr) (err : lsdn_err_t) (s' : heap) : Prop :=
  ∃ p', prio_ok None s' p' rs i c ∧ with_table p p' ∧ own s' r = None ∧
    (∃ x', H.rules s' !! r = Some x' ∧ Rule.fl_rule x' = None) ∧
    (∀ k, rules_of s' p' k = if decide (k = key) then filter (.≠ r) (rules_of s p k)
                             else rules_of s p k) ∧
    ∃ h, handle_of s p key = Some h ∧
    if decide (filter (.≠ r) (rules_of s p key) = [])
    then deleted s s' p rs i c h err
    else handle_of s' p' key = Some h ∧
      ∃ acts, source_actions 1 (rules_of s' p' key) s' = Ok acts s' ∧
        flushed s s' (flower_filter p rs i true h key acts) err.

Section remove.
Context (s s1 : heap) (p : RsPrio.lsdn_ruleset_prio) (rs : Ruleset.lsdn_ruleset) (i : If.lsdn_if)
  (c : Ctx.lsdn_context) (key : list matchdata) (fl : ptr) (y : Flower.lsdn_flower_rule) (r : addr) (x : Rule.lsdn_rule).
Hypothesis Hok : prio_ok None s p rs i c.
Hypothesis Hin : (key, fl) ∈ RsPrio.hash_fl_rules p.
Hypothesis Hok1 : prio_ok (Some fl) s1 p rs i c.
Hypothesis Hy : H.objs s !! fl = Some (OFlower y).
Hypothesis Hy1 : H.objs s1 !! fl = Some (OFlower y).
Hypothesis Hx1 : H.rules s1 !! r = Some x.
Hypothesis Hfield : r.2 ≠ F_sources_list.
Hypothesis Hs1 : sources s1 fl = filter (.≠ r) (sources s fl).
Hypothesis Hoth1 : ∀ f, f ≠ fl → sources s1 f = sources s f.
Hypothesis Hown1 : own s1 r = None.
Hypothesis Htr1 : H.trace s1 = H.trace s.
Hypothesis Henv1 : H.env s1 = H.env s.

Lemma remove_handle s' : H.objs s' !! fl = Some (OFlower y) → handle_of s' p key = Some (Flower.fl_handle y).
Proof using Hok Hin.
  intros Hs'. unfold handle_of, flower_handle. rewrite (hash_find_elem _ _ fl) by (done || apply Hok). by rewrite Hs'.
Qed.

(** The filter of the last rule is deleted. *)
Lemma remove_last : filter (.≠ r) (sources s fl) = [] →
  wp (err ← free_fl_rule fl pr; _ ← upd_rule r (Rule.set_fl_rule None); mret err) s1 (remove_outcome s p rs i c key r).
Proof using All.
  intros Hemp. pose proof (rules_of_elem _ _ _ _ _ _ _ _ Hok Hin) as Hrk.
  rewrite wp_bind. eapply wp_mono; [by eapply (free_fl_rule_spec s1)|].
  intros err s2 (p' & Hok2 & Hwt & (_ & Er & _) & Hh & Hs2 & Ho2 & _ & Hdel).
  hstep; [by rewrite Er|]. hstep. exists p'. split_and!; try done.
  - apply prio_ok_rule; [done|]. by apply Ho2.
  - by apply Ho2.
  - cbn. rewrite lookup_insert_eq. by eexists.
  - intros k. change (rules_of (H.set_rules _ s2) p' k) with (rules_of s2 p' k).
    unfold rules_of at 1. rewrite Hh, (hash_find_delete _ k key fl); [|apply Hok|apply Hok|done].
    case_decide as Hk; [subst k; by rewrite Hrk|].
    rewrite <-(rules_of_other s p s1 fl key k); [|apply Hok|apply Hok|done..]. unfold rules_of.
    pose proof (hash_find_delete _ k key fl (po_keys _ _ _ _ _ _ Hok) (po_ptrs _ _ _ _ _ _ Hok) Hin) as Hd.
    rewrite decide_False in Hd by done.
    destruct (hash_find k (RsPrio.hash_fl_rules p)) as [f|]; [|done]. apply Hs2.
    by apply hash_find_Some, list_elem_of_filter in Hd as [? _].
  - exists (Flower.fl_handle y). split; [by apply remove_handle|]. rewrite Hrk, decide_True by done.
    unfold deleted in *. by rewrite <-Htr1.
Qed.

(** The filter is sent again with the rules that are left. *)
Lemma remove_shared : filter (.≠ r) (sources s fl) ≠ [] →
  wp (err ← flush_fl_rule fl pr true; _ ← upd_rule r (Rule.set_fl_rule None); mret err) s1 (remove_outcome s p rs i c key r).
Proof using All.
  intros Hemp. pose proof (rules_of_elem _ _ _ _ _ _ _ _ Hok Hin) as Hrk.
  destruct (po_flowers _ _ _ _ _ _ Hok1 _ _ Hin) as [(y' & l & Hy' & Hyk & _ & Hl1 & Hall1 & _ & Htot1) _].
  assert (y' = y) as -> by congruence. assert (l = filter (.≠ r) (sources s fl)) as -> by (unfold sources in Hs1; by rewrite Hl1 in Hs1).
  destruct (source_actions_ok _ _ _ _ _ 1 Hall1 Htot1) as [acts Hacts].
  rewrite wp_bind. eapply wp_mono; [by eapply (flush_fl_rule_spec s1)|]. cbv zeta beta.
  intros err s2 [(t & n & ->) Hfl]. hstep. hstep.
  exists p. split_and!; try done.
  - apply prio_ok_rule; [|done]. apply prio_ok_sent.
    destruct Hok1 as [? ? ? ? ? ? ? ? ? ? ? Hfl1]. split; try done.
    intros k f Hkf. destruct (Hfl1 k f Hkf) as [Hf Hne]. split; [done|]. intros _.
    destruct (decide (f = fl)) as [->|]; [by rewrite Hs1|apply Hne; congruence].
  - cbn. rewrite lookup_insert_eq. by eexists.
  - intros k. change (rules_of (H.set_rules _ _) p k) with (rules_of s1 p k). case_decide as Hk.
    + subst k. rewrite Hrk, <-Hs1. by apply (rules_of_elem s1 (Some fl) p rs i c).
    + apply (rules_of_other s p s1 fl key k); [apply Hok|apply Hok|done..].
  - exists (Flower.fl_handle y). split; [by apply remove_handle|]. rewrite Hrk, decide_False by done.
    split; [by apply remove_handle|]. exists acts. split; [|unfold flushed, out_of_memory in *; by rewrite <-Htr1, <-Henv1].
    change (rules_of (H.set_rules _ _) p key) with (rules_of s1 p key).
    rewrite (rules_of_elem s1 (Some fl) p rs i c key fl), Hs1 by done.
    apply (source_actions_frame s1); [by apply kept_same| |done].
    intros r' [Hr' _]%list_elem_of_filter. cbn. by rewrite lookup_insert_ne.
Qed.
End remove.

(** C9: removing a rule takes it, and only it, out of the rules of its key. If it was the last
    one the filter with the handle of the key is deleted (unless decommits are disabled),
    otherwise the filter with that handle is sent again with the actions of the rules that are
    left, or the answer is [LSDNE_NOMEM] because it could not be made. The invariant is kept
    whatever the kernel answers, and the rule is free to be added again. *)
Theorem ruleset_remove_spec s p rs i c key fl r :
  prio_ok None s p rs i c →
  (key, fl) ∈ RsPrio.hash_fl_rules p → r ∈ sources s fl →
  wp (lsdn_ruleset_remove r) s (remove_outcome s p rs i c key r).
Proof.
  intros Hok Hin Hr. pose proof (source_owner _ _ _ _ _ _ _ _ _ Hok Hin Hr) as Hown.
  destruct (po_flowers _ _ _ _ _ _ Hok _ _ Hin) as [(y & l & Hy & Hyk & Hyh & Hl & Hall & _) _].
  assert (Hsl : sources s fl = l) by (unfold sources; by rewrite Hl). rewrite list.Forall_forall in Hall.
  destruct (Hall r) as (Hrf & x & Hx & Hxk & Hxf & Hxp & [rset Hxr] & _); [by rewrite <-Hsl|].
  unfold lsdn_ruleset_remove. hstep. hstep. hstep. hstep. hstep.
  rewrite wp_bind. apply (wp_unlink (fl, F_sources_list)); [apply Hok|done|].
  intros L HL. destruct (prio_ok_unlink s None p rs i c key fl r L) as [Hok1 Hs1]; try done; [by left|].
  assert (Hoth1 : ∀ f, f ≠ fl → sources (H.set_lists L s) f = sources s f).
  { intros f Hf. unfold sources. cbn. destruct HL as (_ & _ & _ & HL & _).
    rewrite HL; [done|naive_solver|]. by intros <-. }
  assert (Hown1 : own (H.set_lists L s) r = None).
  { cbn. destruct HL as (_ & _ & _ & _ & ->). by rewrite decide_True. }
  destruct (po_flowers _ _ _ _ _ _ Hok1 _ _ Hin) as [(y' & l' & _ & _ & _ & Hl1 & _) _].
  assert (l' = filter (.≠ r) (sources s fl)) as -> by (rewrite <-Hs1; unfold sources; by rewrite Hl1).
  rewrite wp_bind. eapply wp_empty_head; [done|]. case_bool_decide.
  - by eapply remove_last.
  - by eapply remove_shared.
Qed.
End prio.

(** ** Witnesses, and what happens when the kernel refuses an update *)

Definition demo_env (ack : request → bool) : Env.env :=
  Env.mk (λ _, true) (λ _, []) (λ _, 0) (λ _ _, 0) true (λ _, ack).
Definition demo_ctx : Ctx.lsdn_context := Ctx.mk "demo" None true true None 0 false false 0 "".
Definition demo_if : If.lsdn_if := If.mk 7 (Some "eth0"%string).
Definition demo_rs : Ruleset.lsdn_ruleset :=
  Ruleset.mk (2%positive, F_committed_if) 1%positive LSDN_ROOT_HANDLE LSDN_DEFAULT_CHAIN 1 [(5, 3%positive)].
Definition demo_key : list matchdata :=
  [[1; 2; 3; 4; 5; 6] ++ replicate 10 0; replicate 16 0].
Definition demo_prio (n : Z) (t : list (list matchdata * ptr)) : RsPrio.lsdn_ruleset_prio :=
  RsPrio.mk 5 [LSDN_MATCH_SRC_MAC; LSDN_MATCH_NONE] [replicate 6 255 ++ replicate 10 0; replicate 16 0]
    (2%positive, F_rules_out) (IdAlloc 1 0xFFFF n) t.
(** Two rules with the same match data, their memory otherwise full of 7s. *)
Definition demo_rule (sub : Z) : Rule.lsdn_rule :=
  Rule.mk [[1; 2; 3; 4; 5; 6] ++ replicate 10 7; replicate 16 7] LSDN_VR_DROP sub None None None.
Definition demo_r1 : addr := (4%positive, F_rule).
Definition demo_r2 : addr := (5%positive, F_rule).

(** Context 1, a ruleset in virt 2, a priority 3 without rules. *)
Definition demo_heap (ack : request → bool) : heap :=
  H.mk (demo_env ack) 6%positive 0 [] [] ∅
    {[1%positive := OCtx demo_ctx; 3%positive := ORsPrio (demo_prio 1 [])]}
    {[(2%positive, F_committed_if) := demo_if]}
    {[demo_r1 := demo_rule 1; demo_r2 := demo_rule 2]}
    {[(2%positive, F_rules_out) := demo_rs]} ∅ ∅ ∅.

Lemma demo_prio_ok ack :
  prio_ok 3 None (demo_heap ack) (demo_prio 1 []) demo_rs demo_if demo_ctx.
Proof.
  split; try done; try (by apply NoDup_nil); try (by apply Store.wf_check_ok).
  - split; [apply map_Forall_insert_2; [done|]; apply map_Forall_singleton; done|].
    apply map_Forall_empty.
  - intros key fl []%not_elem_of_nil.
Qed.

Lemma ruleset_add_spec_witness :
  wp (lsdn_ruleset_add 3 demo_r1) (demo_heap (λ _, true)) (λ err s', ∃ p',
    prio_ok 3 None s' p' demo_rs demo_if demo_ctx ∧
    add_outcome (demo_heap (λ _, true)) (demo_prio 1 []) demo_rs demo_if demo_ctx demo_r1
      (demo_rule 1) err s' p').
Proof.
  eapply wp_mono; [apply (ruleset_add_spec 3 _ (demo_prio 1 []) demo_rs demo_if demo_ctx demo_r1 (demo_rule 1))|].
  - apply demo_prio_ok.
  - split_and!; try done. by eexists.
  - by vm_compute.
  - intros err s' (p' & ? & _ & ?). by exists p'.
Defined.

(** The same priority with the first rule in it. *)
Definition demo_heap1 (ack : request → bool) : heap :=
  H.mk (demo_env ack) 7%positive 0 [] [] {[(6%positive, F_sources_list) := [demo_r1]]}
    {[1%positive := OCtx demo_ctx; 3%positive := ORsPrio (demo_prio 2 [(demo_key, 6%positive)]);
      6%positive := OFlower (Flower.mk demo_key 1)]}
    {[(2%positive, F_committed_if) := demo_if]}
    {[demo_r1 := Rule.mk demo_key LSDN_VR_DROP 1 (Some (2%positive, F_rules_out)) (Some 3%positive)
                   (Some 6%positive);
      demo_r2 := demo_rule 2]}
    {[(2%positive, F_rules_out) := demo_rs]} ∅ ∅ ∅.

Lemma demo_prio_ok1 ack :
  prio_ok 3 None (demo_heap1 ack) (demo_prio 2 [(demo_key, 6%positive)]) demo_rs demo_if demo_ctx.
Proof.
  split; try done; try (by apply NoDup_singleton); try (by apply Store.wf_check_ok).
  - split; [do 2 (apply map_Forall_insert_2; [done|])|]; apply map_Forall_singleton; repeat constructor.
  - intros key fl [= -> ->]%list_elem_of_singleton. split; [|done].
    exists (Flower.mk demo_key 1), [demo_r1]. split_and!; try done; [|repeat constructor].
    apply Forall_singleton. split; [done|]. eexists. split; [done|]. split_and!; try done; by eexists.
Qed.

Lemma ruleset_remove_spec_witness :
  wp (lsdn_ruleset_remove demo_r1) (demo_heap1 (λ _, true)) (λ err s', ∃ p',
    prio_ok 3 None s' p' demo_rs demo_if demo_ctx ∧ rules_of s' p' demo_key = []).
Proof.
  eapply wp_mono; [apply (ruleset_remove_spec 3 (demo_heap1 (λ _, true)) (demo_prio 2 [(demo_key, 6%positive)])
                            demo_rs demo_if demo_ctx demo_key 6)|].
  - apply demo_prio_ok1.
  - by apply list_elem_of_singleton.
  - by apply list_elem_of_singleton.
  - intros err s' (p' & ? & _ & _ & _ & Hrules & _). exists p'. split; [done|].
    rewrite Hrules, decide_True by done. done.
Defined.

(** The case of a refused update, run: the kernel takes the new filter and refuses the update
    that adds a second rule to it. The first rule can no longer be removed. *)
Example refused_update_dangles :
  let refuse_updates q := match q with ReqFilterCreate f => negb (f_update f) | _ => true end in
  wp (_ ← lsdn_ruleset_add 3 demo_r1; lsdn_ruleset_add 3 demo_r2) (demo_heap refuse_updates)
    (λ err s', err = LSDNE_NETLINK ∧ lsdn_ruleset_remove demo_r1 s' = Fault Dangling).
Proof. by vm_compute. Qed.
