(* ===== verification/BroadcastSpec.v ===== *)
(** * Correctness of broadcast actions

    The accounting of the filters of a broadcast, and that adding and removing actions keeps
    it: a free slot is always found where the counter promises one, the filter that is sent is
    the one that changed, and no filter is sent with more than [LSDN_MAX_ACT_PRIO] actions. *)

From Stdlib Require Import ZArith Lia.
From stdpp Require Import base list gmap strings.
From S2P Require Import Prelude.
From S2P Require Import LStore.
From S2P Require Import Status.
From S2P Require Import Heap.
From S2P Require Import Base.
From S2P Require Import Wp.
From S2P Require Import Nl.
From S2P Require Import Actions.
From S2P Require Import Rules.
From S2P Require Import Broadcast.

Local Open Scope Z_scope.

(** ** Actions *)

(** A description announces the number of actions its callback adds, which are [l] at
    whatever place in the filter. *)
Definition desc_ok (s : heap) (d : lsdn_action_desc) (l : list tc_action) : Prop :=
  (∀ order, run_action (fn d) order s = Ok (orders order l) s) ∧
  actions_count d = Z.of_nat (length l) ∧ l ≠ [].

Lemma desc_ok_frame s s' d l : kept s s' → desc_ok s d l → desc_ok s' d l.
Proof.
  intros Hk (Hrun & ? & ?). split_and!; try done. intros order. by apply (run_action_frame s).
Qed.

Lemma length_orders order l : length (orders order l) = length l.
Proof. revert order. induction l; simpl; auto. Qed.

Lemma orders_app order l1 l2 :
  orders order (l1 ++ l2) = orders order l1 ++ orders (order + Z.of_nat (length l1)) l2.
Proof.
  revert order. induction l1 as [|a l1 IH]; intros order; simpl; [by rewrite Z.add_0_r|].
  rewrite IH. do 3 f_equal. lia.
Qed.

(** ** The slots of a filter *)

Section slots.
Context (s : heap).

Definition count_of (a : addr) : Z :=
  match H.bactions s !! a with Some x => actions_count (BAction.action x) | None => 0 end.

(** Number of actions in the slots. *)
Fixpoint used (slots : list (option addr)) : Z :=
  match slots with
  | [] => 0
  | None :: slots => used slots
  | Some a :: slots => count_of a + used slots
  end.

(** The slot holds the action [a], which adds [l]. *)
Definition slot_ok (f : ptr) (i : nat) (a : addr) (l : list tc_action) : Prop :=
  ∃ d, H.bactions s !! a = Some (BAction.mk f (Z.of_nat i) d) ∧ desc_ok s d l.

(** [acts] are the actions of the slots, the first of which has index [i]. *)
Inductive slots_ok (f : ptr) : nat → list (option addr) → list tc_action → Prop :=
| slots_nil i : slots_ok f i [] []
| slots_none i slots acts : slots_ok f (S i) slots acts → slots_ok f i (None :: slots) acts
| slots_some i a l slots acts :
    slot_ok f i a l → slots_ok f (S i) slots acts → slots_ok f i (Some a :: slots) (l ++ acts).

Lemma count_of_slot f i a l : slot_ok f i a l → count_of a = Z.of_nat (length l) ∧ 1 ≤ count_of a.
Proof.
  intros (d & Hd & _ & Hc & Hl). unfold count_of. rewrite Hd. simpl. rewrite Hc.
  destruct l; [done|]. simpl. lia.
Qed.

Lemma slots_used f i slots acts : slots_ok f i slots acts → used slots = Z.of_nat (length acts).
Proof.
  induction 1 as [| |i a l slots acts Hs _ IH]; simpl; [done..|].
  apply count_of_slot in Hs as [-> _]. rewrite length_app. lia.
Qed.

(** A filter with fewer actions than slots has a free slot; the scan finds the first. *)
Lemma free_slot_found f i slots acts k :
  slots_ok f i slots acts → used slots < Z.of_nat (length slots) →
  ∃ j, free_slot k slots = Some (k + Z.of_nat j) ∧ slots !! j = Some None.
Proof.
  intros Hs. revert k. induction Hs as [| |i a l slots acts Hs _ IH]; intros k; simpl; [lia|..].
  - intros _. exists 0%nat. by rewrite Z.add_0_r.
  - apply count_of_slot in Hs as [_ ?]. intros ?. destruct (IH (k + 1)) as (j & -> & ?); [lia|].
    exists (S j). split; [f_equal; lia|done].
Qed.

Lemma slots_lookup f i slots acts j a :
  slots_ok f i slots acts → slots !! j = Some (Some a) → ∃ l, slot_ok f (i + j) a l.
Proof.
  intros Hs. revert j.
  induction Hs as [|i slots acts _ IH|i b l slots acts Hb _ IH]; intros [|j]; simpl; try done.
  - intros [l Hl]%IH. exists l. by replace (i + S j)%nat with (S i + j)%nat by lia.
  - intros [= ->]. exists l. by rewrite Nat.add_0_r.
  - intros [l' Hl]%IH. exists l'. by replace (i + S j)%nat with (S i + j)%nat by lia.
Qed.

(** The loop over the slots collects their actions. *)
Lemma slot_actions_run f i slots acts order :
  slots_ok f i slots acts →
  slot_actions order slots s = Ok (orders order acts, order + Z.of_nat (length acts)) s.
Proof.
  intros Hs. revert order.
  induction Hs as [| |i a l slots acts Hs _ IH]; intros order; simpl; [by rewrite Z.add_0_r|done|].
  destruct Hs as (d & Hd & Hp & Hc & _).
  unfold get_baction, mbind, M_bind, get, live. rewrite Hd.
  unfold mret at 1, M_ret at 1. cbv beta iota.
  rewrite Hp, IH. unfold mret, M_ret. simpl.
  rewrite Hc, orders_app. do 2 f_equal. rewrite length_app. lia.
Qed.
End slots.

(** Changing the registry at an action that is in no slot, and changing a slot. *)
Lemma slots_ok_frame s s' f i slots acts :
  slots_ok s f i slots acts → kept s s' →
  (∀ a, Some a ∈ slots → H.bactions s' !! a = H.bactions s !! a) →
  slots_ok s' f i slots acts.
Proof.
  intros Hs Hk. induction Hs as [|i slots acts _ IH|i a l slots acts (d & Hd & Hl) _ IH];
    intros HB; constructor.
  - apply IH. set_solver.
  - exists d. rewrite HB by set_solver. split; [done|]. by eapply desc_ok_frame.
  - apply IH. set_solver.
Qed.

Lemma slots_ok_insert s f i slots acts j a l :
  slots_ok s f i slots acts → slots !! j = Some None → slot_ok s f (i + j) a l →
  ∃ acts', slots_ok s f i (<[j := Some a]> slots) acts' ∧
           length acts' = (length acts + length l)%nat.
Proof.
  intros Hs. revert j.
  induction Hs as [|i slots acts Hs IH|i b k slots acts Hb Hs IH]; intros [|j] Hj Ha; try done; simpl.
  - rewrite Nat.add_0_r in Ha. eexists. split; [by econstructor|]. rewrite length_app. lia.
  - destruct (IH j) as (acts' & ? & ?); [done| |].
    { by replace (S i + j)%nat with (i + S j)%nat by lia. }
    exists acts'. split; [by constructor|done].
  - destruct (IH j) as (acts' & ? & ?); [done| |].
    { by replace (S i + j)%nat with (i + S j)%nat by lia. }
    eexists. split; [by econstructor|]. rewrite !length_app. lia.
Qed.

Lemma slots_ok_remove s f i slots acts j a l :
  slots_ok s f i slots acts → slots !! j = Some (Some a) → slot_ok s f (i + j) a l →
  ∃ acts', slots_ok s f i (<[j := None]> slots) acts' ∧
           length acts = (length acts' + length l)%nat.
Proof.
  intros Hs. revert j.
  induction Hs as [|i slots acts Hs IH|i b k slots acts Hb Hs IH]; intros [|j] Hj Ha; try done; simpl.
  - destruct (IH j) as (acts' & ? & ?); [done| |].
    { by replace (S i + j)%nat with (i + S j)%nat by lia. }
    exists acts'. split; [by constructor|done].
  - simplify_eq/=. rewrite Nat.add_0_r in Ha. exists acts. split; [by constructor|].
    apply count_of_slot in Ha as [Ha _], Hb as [Hb _]. rewrite length_app. lia.
  - destruct (IH j) as (acts' & ? & ?); [done| |].
    { by replace (S i + j)%nat with (i + S j)%nat by lia. }
    eexists. split; [by econstructor|]. rewrite !length_app. lia.
Qed.

(** ** The invariant of a broadcast *)

Definition filter_ok (s : heap) (br : addr) (f : ptr) : Prop :=
  ∃ x acts, H.objs s !! f = Some (OBFilter x) ∧ BFilter.broadcast x = br ∧
    length (BFilter.actions x) = SLOTS ∧
    slots_ok s f 0 (BFilter.actions x) acts ∧
    BFilter.free_actions x = LSDN_MAX_ACT_PRIO - 1 - Z.of_nat (length acts) ∧
    0 ≤ BFilter.free_actions x.

Definition filters (s : heap) (br : addr) : list addr := default [] (H.lists s !! br).

Record broadcast_ok (s : heap) (br : addr) : Prop := {
  br_wf : Store.wf (H.lists s);
  br_fresh p : (H.next_ptr s ≤ p)%positive →
    H.objs s !! p = None ∧ own s (p, F_filters_entry) = None ∧
    H.lists s !! (p, F_filters_entry) = None;
  br_struct : ∃ b c i, H.broadcasts s !! br = Some b ∧
    H.objs s !! Broadcast.ctx b = Some (OCtx c) ∧ Ctx.nlsock c = true ∧
    H.ifs s !! Broadcast.iface b = Some i;
  br_list : is_Some (H.lists s !! br);
  br_filters e : e ∈ filters s br → e.2 = F_filters_entry ∧ filter_ok s br e.1 }.

(** The abstract view: the actions of the broadcast, and where they are. *)
Definition in_slot (s : heap) (br : addr) (a : addr) (f : ptr) (i : nat) : Prop :=
  ∃ x, (f, F_filters_entry) ∈ filters s br ∧ H.objs s !! f = Some (OBFilter x) ∧
       BFilter.actions x !! i = Some (Some a).
Definition registered (s : heap) (br : addr) (a : addr) (d : lsdn_action_desc) : Prop :=
  ∃ f i, in_slot s br a f i ∧ H.bactions s !! a = Some (BAction.mk f (Z.of_nat i) d).

(** Allocations succeed. *)
Definition alloc_ok (s : heap) : Prop := ∀ n, Env.malloc_ok (H.env s) n = true.

(** What one flush sends: the actions of the filter in the order of the slots, then
    [continue], numbered from 1. *)
Definition flushed (s s' : heap) (br : addr) (f : ptr) (err : lsdn_err_t) : Prop :=
  ∃ b i x acts ok,
    H.broadcasts s' !! br = Some b ∧ H.ifs s' !! Broadcast.iface b = Some i ∧
    H.objs s' !! f = Some (OBFilter x) ∧ slots_ok s' f 0 (BFilter.actions x) acts ∧
    (S (length acts) ≤ Z.to_nat LSDN_MAX_ACT_PRIO)%nat ∧
    H.trace s' = H.trace s ++
      [(ReqFilterCreate (Filter FilterFlower (If.ifindex i) MAIN_RULE_HANDLE LSDN_INGRESS_HANDLE
          (Broadcast.chain b) (u16 (BFilter.prio x)) true [] (orders 1 (acts ++ [TcContinue]))), ok)] ∧
    err = if ok then LSDNE_OK else LSDNE_NETLINK.

Lemma flush_spec s br f :
  broadcast_ok s br → alloc_ok s → filter_ok s br f →
  wp (lsdn_flush_action_list f) s (λ err s',
    flushed s s' br f err ∧ ∃ n t, s' = H.set_trace t (H.set_allocs n s)).
Proof.
  intros [_ _ (b & c & i & Hb & Hc & Hsock & Hi) _ _] Hal
    (x & acts & Hx & Hbr & Hlen & Hs & Hfree & Hpos).
  unfold lsdn_flush_action_list. subst br. hstep. hstep. hstep.
  unfold lsdn_filter_flower_init, filter_init. repeat (rewrite ?wp_bind, ?wp_try_alloc; cbn; rewrite ?Hal; cbn).
  eapply wp_run; [eapply slot_actions_run; by eapply (slots_ok_frame s)|].
  unfold lsdn_filter_create, send_await_response. hstep. hstep; [by rewrite Hsock|].
  hstep. hstep. hstep. split; [|by do 2 eexists].
  exists b, i, x, acts. eexists. cbn. split_and!; try done.
  - by eapply (slots_ok_frame s).
  - assert (LSDN_MAX_ACT_PRIO = 32) as -> by done. unfold LSDN_MAX_ACT_PRIO in *. lia.
  - do 4 f_equal. by rewrite orders_app.
Qed.

(** The requests sent and the allocations do not matter. *)
Lemma broadcast_ok_sent s br t n :
  broadcast_ok s br → broadcast_ok (H.set_trace t (H.set_allocs n s)) br.
Proof.
  intros [? ? ? ? Hfs]. split; try done. intros e He. destruct (Hfs e He) as [? (x & acts & ?)].
  split; [done|]. exists x, acts. destruct_and?. split_and!; try done.
  by eapply (slots_ok_frame s).
Qed.

(** A change of one filter and of the records of actions that no other filter has. *)
Lemma broadcast_ok_change s s' br f0 :
  broadcast_ok s br →
  H.lists s' = H.lists s → H.next_ptr s' = H.next_ptr s → H.broadcasts s' = H.broadcasts s →
  H.ifs s' = H.ifs s →
  (∀ p, p ≠ f0 → H.objs s' !! p = H.objs s !! p) →
  (f0, F_filters_entry) ∈ filters s br → filter_ok s' br f0 →
  (∀ f i a, f ≠ f0 → in_slot s br a f i → H.bactions s' !! a = H.bactions s !! a) → kept s s' →
  broadcast_ok s' br.
Proof.
  intros [Hwf Hfresh (b & c & i & Hb & Hc & Hsock & Hi) Hl Hfs] El En Eb Ei Ho Hin Hf0 Ha Hkept.
  destruct (Hfs _ Hin) as [_ (x0 & acts0 & Hx0 & _)]. simpl in Hx0.
  assert (Efs : filters s' br = filters s br) by (unfold filters; by rewrite El).
  split; rewrite ?El, ?En, ?Eb, ?Ei.
  - done.
  - intros p Hp. destruct (Hfresh p Hp) as (Hn & ? & ?). split; [|done].
    rewrite Ho; [done|]. intros ->. congruence.
  - exists b, c, i. split_and!; try done. rewrite Ho; [done|]. intros <-. congruence.
  - done.
  - intros e He. rewrite Efs in He. destruct (Hfs e He) as [Hef (x & acts & Hx & Hbr & Hlen & Hs & ? & ?)].
    split; [done|]. destruct (decide (e.1 = f0)) as [->|Hne]; [done|].
    exists x, acts. rewrite Ho by done. split_and!; try done.
    eapply slots_ok_frame; [done..|]. intros a [j Hj]%list_elem_of_lookup.
    apply (Ha e.1 j); [done|]. exists x. split_and!; try done.
    destruct e as [p g]. simpl in *. by subst.
Qed.

(** The scan of the filters. *)
Lemma find_filter_run s br count l :
  1 ≤ count → Forall (filter_ok s br) l →
  ∃ r, find_filter count l s = Ok r s ∧
    ∀ f k, r = Some (f, k) → f ∈ l ∧ ∃ x j, k = Z.of_nat j ∧
      H.objs s !! f = Some (OBFilter x) ∧ count ≤ BFilter.free_actions x ∧
      BFilter.actions x !! j = Some None.
Proof.
  intros Hc. induction 1 as [|f l (x & acts & Hx & _ & Hlen & Hs & Hfree & _) _ IH]; simpl.
  { by eexists. }
  unfold get_bfilter, get_obj, mbind, M_bind, get, live. rewrite Hx.
  unfold mret, M_ret. cbn [as_bfilter]. destruct (count <=? BFilter.free_actions x) eqn:Hle.
  - apply Z.leb_le in Hle.
    destruct (free_slot_found _ f 0 _ acts 0 Hs) as (j & -> & Hj).
    { rewrite (slots_used _ _ _ _ _ Hs), Hlen. unfold LSDN_MAX_ACT_PRIO, SLOTS in *. lia. }
    eexists. split; [done|]. intros f' k [= <- <-]. split; [set_solver|].
    exists x, j. split_and!; try done; lia.
  - destruct IH as (r & -> & Hr). exists r. split; [done|]. intros f' k Hk.
    destruct (Hr f' k Hk) as [? ?]. split; [set_solver|done].
Qed.

Lemma in_slot_action s br a f i :
  broadcast_ok s br → in_slot s br a f i →
  ∃ d l, H.bactions s !! a = Some (BAction.mk f (Z.of_nat i) d) ∧ desc_ok s d l.
Proof.
  intros Hok (x & Hin & Hx & Ha). destruct (br_filters _ _ Hok _ Hin) as [_ (x' & acts & ? & _ & _ & Hs & _)].
  simplify_eq/=. destruct (slots_lookup _ _ _ _ _ _ _ Hs Ha) as (l & d & Hd & Hl).
  by exists d, l.
Qed.

(** An action is in one slot of one filter at most. *)
Lemma in_slot_unique s br a f i f' i' :
  broadcast_ok s br → in_slot s br a f i → in_slot s br a f' i' → f' = f ∧ i' = i.
Proof.
  intros Hok (d & l & Hd & _)%in_slot_action (d' & l' & Hd' & _)%in_slot_action; [|done..].
  rewrite Hd in Hd'. simplify_eq. split; [done|lia].
Qed.

(** Writing slot [j] of filter [f]. *)
Lemma in_slot_write s s' br f x x' j o a f' i :
  (f, F_filters_entry) ∈ filters s br → H.objs s !! f = Some (OBFilter x) →
  (j < length (BFilter.actions x))%nat →
  H.lists s' = H.lists s → H.objs s' !! f = Some (OBFilter x') →
  BFilter.actions x' = <[j := o]> (BFilter.actions x) →
  (∀ p, p ≠ f → H.objs s' !! p = H.objs s !! p) →
  in_slot s' br a f' i ↔
    if decide (f' = f ∧ i = j) then o = Some a else in_slot s br a f' i.
Proof.
  intros Hin Hx Hj El Hx' Ha' Ho. unfold in_slot, filters. rewrite El. fold (filters s br).
  case_decide as Hd.
  - destruct Hd as [-> ->]. rewrite Hx'. split.
    + intros (y & _ & ? & Ha). simplify_eq. rewrite Ha', list_lookup_insert_eq in Ha by done.
      by simplify_eq.
    + intros ->. exists x'. by rewrite Ha', list_lookup_insert_eq.
  - destruct (decide (f' = f)) as [->|Hne].
    + assert (i ≠ j) by naive_solver. rewrite Hx', Hx. split.
      * intros (y & ? & ? & Ha). simplify_eq. exists x.
        by rewrite Ha', list_lookup_insert_ne in Ha.
      * intros (y & ? & ? & Ha). simplify_eq. exists x'. by rewrite Ha', list_lookup_insert_ne.
    + by rewrite Ho.
Qed.

(** Filters may be overwritten, and filters added. *)
Lemma kept_filter s s' f x :
  H.ifs s' = H.ifs s → H.structs s' = H.structs s →
  (∀ b, Broadcast.chain <$> H.broadcasts s' !! b = Broadcast.chain <$> H.broadcasts s !! b) →
  H.objs s !! f = Some (OBFilter x) ∨ H.objs s !! f = None →
  (∀ p, p ≠ f → H.objs s' !! p = H.objs s !! p) → kept s s'.
Proof.
  intros ? ? ? Hf Ho. split; [done..|]. intros p o Hp Hk. rewrite Ho; [done|]. intros ->.
  destruct Hf; simplify_eq.
Qed.

(** The placement of an action in a free slot. *)
Definition place (f : ptr) (i : Z) (action : addr) (desc : lsdn_action_desc) : M heap lsdn_err_t :=
  _ ← upd_bfilter f (λ x, BFilter.set_free_actions
                             (u64 (BFilter.free_actions x - actions_count desc)) x);
  _ ← upd_bfilter f (λ x, BFilter.set_actions (<[Z.to_nat i := Some action]> (BFilter.actions x)) x);
  _ ← new_baction action (BAction.mk f i desc);
  lsdn_flush_action_list f.

Lemma place_spec s br f j x action d l :
  broadcast_ok s br → alloc_ok s →
  (f, F_filters_entry) ∈ filters s br → H.objs s !! f = Some (OBFilter x) →
  actions_count d ≤ BFilter.free_actions x → BFilter.actions x !! j = Some None →
  desc_ok s d l → (∀ f i, ¬ in_slot s br action f i) →
  wp (place f (Z.of_nat j) action d) s (λ err s',
    broadcast_ok s' br ∧ flushed s s' br f err ∧
    (∀ a f' i, in_slot s' br a f' i ↔ (a = action ∧ f' = f ∧ i = j) ∨ in_slot s br a f' i) ∧
    ∀ a e, registered s' br a e ↔ (a = action ∧ e = d) ∨ registered s br a e).
Proof.
  intros Hok Hal Hin Hx Hc Hj Hd Hnew.
  destruct (br_filters _ _ Hok _ Hin) as [_ (x' & acts & ? & Hbr & Hlen & Hs & Hfree & Hpos)].
  simplify_eq/=. unfold place. hstep. hstep. hstep. rewrite Nat2Z.id.
  set (x' := BFilter.set_actions _ _). set (s1 := H.set_bactions _ _).
  assert (Hx' : H.objs s1 !! f = Some (OBFilter x')) by (cbn; by rewrite lookup_insert_eq).
  pose proof Hd as (_ & Hcl & Hl).
  assert (Hkept : kept s s1).
  { eapply (kept_filter _ _ f x); [done..|by left|]. intros p Hp. cbn. by rewrite !lookup_insert_ne. }
  assert (Hf : filter_ok s1 (BFilter.broadcast x) f).
  { destruct (slots_ok_insert s1 f 0 (BFilter.actions x) acts j action l)
      as (acts' & Hs' & Hlen').
    - eapply slots_ok_frame; [done..|]. intros a [k Hk]%list_elem_of_lookup. cbn.
      rewrite lookup_insert_ne; [done|]. intros ->. apply (Hnew f k). by exists x.
    - done.
    - exists d. cbn. rewrite lookup_insert_eq. split; [done|]. by eapply desc_ok_frame.
    - exists x', acts'. cbn in *. rewrite length_insert. split_and!; try done.
      + rewrite Hlen', u64_small; unfold LSDN_MAX_ACT_PRIO in *; lia.
      + rewrite u64_small; unfold LSDN_MAX_ACT_PRIO in *; lia. }
  assert (Hok1 : broadcast_ok s1 (BFilter.broadcast x)).
  { apply (broadcast_ok_change s s1 _ f); try done.
    - intros p Hp. cbn. by rewrite !lookup_insert_ne.
    - intros f' i a Hne Hsl. cbn. rewrite lookup_insert_ne; [done|]. intros ->. by eapply Hnew. }
  eapply wp_mono; [by apply flush_spec|]. intros err s' [Hfl (n & t & ->)].
  assert (Hslot : ∀ a f' i, in_slot s1 (BFilter.broadcast x) a f' i ↔
              if decide (f' = f ∧ i = j) then Some action = Some a
              else in_slot s (BFilter.broadcast x) a f' i).
    { intros a f' i. eapply in_slot_write; try done; [by eapply lookup_lt_Some|].
      intros p Hp. cbn. by rewrite !lookup_insert_ne. }
  split_and!; [by apply broadcast_ok_sent|done| |].
  - intros a f' i. change (in_slot (H.set_trace _ _) _ a f' i) with (in_slot s1 (BFilter.broadcast x) a f' i).
    rewrite Hslot. case_decide as Hfi; [destruct Hfi as [-> ->]|naive_solver].
    split; [naive_solver|]. intros [(-> & _)|(y & _ & Hy & Hya)]; [done|congruence].
  - intros a e. unfold registered. cbn. setoid_rewrite Hslot. split.
    + intros (f' & i & Hsl & Ha). case_decide as Hfi.
      * simplify_eq. rewrite lookup_insert_eq in Ha. simplify_eq. by left.
      * rewrite lookup_insert_ne in Ha by (intros ->; by eapply Hnew). right. eauto.
    + intros [[-> ->]|(f' & i & Hsl & Ha)].
      * exists f, j. by rewrite decide_True, lookup_insert_eq.
      * exists f', i. rewrite lookup_insert_ne by (intros ->; by eapply Hnew).
        rewrite decide_False; [done|]. intros [-> ->]. destruct Hsl as (y & _ & ? & Hy). congruence.
Qed.

(** A filter that was just added to the list, all its slots free. *)
Lemma broadcast_ok_new s L br b f x :
  broadcast_ok s br → H.broadcasts s !! br = Some b → f = H.next_ptr s →
  x = BFilter.mk br (Broadcast.free_prio b) (LSDN_MAX_ACT_PRIO - 1) (replicate SLOTS None) →
  linked (H.lists s) L br (f, F_filters_entry) →
  ∀ s' n, s' = H.set_broadcasts (<[br := Broadcast.set_free_prio n b]> (H.broadcasts s))
    (H.set_lists L (H.set_objs (<[f := OBFilter x]> (H.objs s)) (H.set_next_ptr (Pos.succ f)
      (H.set_allocs (S (H.allocs s)) s)))) →
  broadcast_ok s' br ∧ kept s s' ∧ filters s' br = (f, F_filters_entry) :: filters s br ∧
  ∀ a f' i, in_slot s' br a f' i ↔ in_slot s br a f' i.
Proof.
  intros [Hwf Hfresh (b' & c & i & Hb & Hc & Hsock & Hi) _ Hfs] ? Hf Hx
    (Hwf' & Hnone & (l & Hl & Hl') & Hother & Hown) s' n ->. simplify_eq.
  assert (Hfl : filters (H.set_lists L s) br = (H.next_ptr s, F_filters_entry) :: filters s br).
  { unfold filters. cbn. by rewrite Hl, Hl'. }
  destruct (Hfresh (H.next_ptr s) ltac:(lia)) as (Hf & Hfo & Hfl0).
  assert (Hkept : ∀ x s', H.ifs s' = H.ifs s → H.structs s' = H.structs s →
      H.broadcasts s' = <[br := Broadcast.set_free_prio n b']> (H.broadcasts s) →
      H.objs s' = <[H.next_ptr s := OBFilter x]> (H.objs s) → kept s s').
  { intros x s' Ei Es Eb Eo. eapply (kept_filter _ _ (H.next_ptr s) x); [done|done| |by right|].
    - intros b. rewrite Eb. destruct (decide (b = br)) as [->|]; [|by rewrite lookup_insert_ne].
      by rewrite lookup_insert_eq, Hb.
    - intros p Hp. by rewrite Eo, lookup_insert_ne. }
  assert (Hne : ∀ e, e ∈ filters s br → e.1 ≠ H.next_ptr s).
  { intros e He Heq. destruct (Hfs e He) as [_ (y & _ & Hy & _)]. congruence. }
  split; [|split; [by eapply Hkept|split; [done|]]]; [split; cbn|].
  - done.
  - intros p Hp. destruct (Hfresh p ltac:(lia)) as (? & ? & ?).
    rewrite lookup_insert_ne by lia. rewrite Hown, decide_False by (intros [=]; lia).
    split_and!; [done..|]. destruct (decide ((p, F_filters_entry) = br)) as [<-|Hp'].
    + congruence.
    + rewrite Hother; [done..|]. intros [=]; lia.
  - eexists _, c, i. rewrite lookup_insert_eq. split; [done|]. cbn.
    rewrite lookup_insert_ne; [done|]. congruence.
  - by rewrite Hl'.
  - intros e He. change (filters _ br) with (filters (H.set_lists L s) br) in He.
    rewrite Hfl in He. apply elem_of_cons in He as [->|He]; cbn.
    + split; [done|]. eexists _, []. cbn. rewrite lookup_insert_eq. split_and!; try done.
      repeat constructor.
    + destruct (Hfs e He) as [? (y & acts & Hy & Hrest)]. split; [done|].
      exists y, acts. cbn. rewrite lookup_insert_ne by by apply not_eq_sym, Hne. destruct_and?.
      split_and!; try done. eapply (slots_ok_frame s); [done| |done]. by eapply Hkept.
  - intros a f' i'. unfold in_slot at 1. change (filters _ br) with (filters (H.set_lists L s) br).
    rewrite Hfl. cbn. split.
    + intros (y & [Heq|Hin]%elem_of_cons & Hy & Ha).
      * simplify_eq. rewrite lookup_insert_eq in Hy. simplify_eq/=.
        change (replicate SLOTS (@None addr) !! i' = Some (Some a)) in Ha.
        by apply lookup_replicate in Ha as [? _].
      * rewrite lookup_insert_ne in Hy by (by apply not_eq_sym, (Hne _ Hin)). by exists y.
    + intros (y & Hin & Hy & Ha). exists y. split; [by apply elem_of_cons; right|].
      rewrite lookup_insert_ne by (by apply not_eq_sym, (Hne _ Hin)). done.
Qed.

Lemma find_free_action_spec s br count :
  broadcast_ok s br → alloc_ok s → 1 ≤ count ≤ LSDN_MAX_ACT_PRIO - 1 →
  wp (lsdn_find_free_action br count) s (λ r s', ∃ f j x,
    r = Some (f, Z.of_nat j) ∧ broadcast_ok s' br ∧ kept s s' ∧ (f, F_filters_entry) ∈ filters s' br ∧
    H.objs s' !! f = Some (OBFilter x) ∧ count ≤ BFilter.free_actions x ∧
    BFilter.actions x !! j = Some None ∧
    H.env s' = H.env s ∧ H.trace s' = H.trace s ∧ H.bactions s' = H.bactions s ∧
    ∀ a f' i, in_slot s' br a f' i ↔ in_slot s br a f' i).
Proof.
  intros Hok Hal Hc. destruct (br_list _ _ Hok) as [l Hl].
  assert (Hfs : filters s br = l) by (unfold filters; by rewrite Hl).
  unfold lsdn_find_free_action. rewrite wp_bind. eapply wp_list_get; [done|]. rewrite wp_bind.
  destruct (find_filter_run s br count (fst <$> l)) as (r & Hr & Hrf); [lia| |].
  { apply list.Forall_forall. intros f (e & -> & He)%list_elem_of_fmap. rewrite <-Hfs in He.
    by apply (br_filters _ _ Hok). }
  eapply wp_run; [done|]. destruct r as [[f k]|].
  - destruct (Hrf f k eq_refl) as (Hin & x & j & -> & Hx & ? & ?).
    apply list_elem_of_fmap in Hin as ([p g] & -> & Hin). rewrite <-Hfs in Hin.
    destruct (br_filters _ _ Hok _ Hin) as [? _]. simpl in *; subst g.
    hstep. by exists p, j, x.
  - destruct (br_struct _ _ Hok) as (b & c & i & Hb & _).
    destruct (br_fresh _ _ Hok (H.next_ptr s)) as (Hn & Hno & Hnl); [lia|].
    hstep. unfold alloc_ok in Hal. rewrite Hal. hstep. hstep. rewrite wp_bind. apply wp_link.
    + apply Hok.
    + apply unlinked_none; [done|by left].
    + cbn. by rewrite Hl.
    + intros ->. congruence.
    + intros L HL. hstep. hstep. eexists (H.next_ptr s), 0%nat, _.
      destruct (broadcast_ok_new s L br b _ _ Hok Hb eq_refl eq_refl HL _
                  (u16 (Broadcast.free_prio b + 1)) eq_refl) as (? & ? & Hf & ?).
      split_and!; try done.
      * unfold filters in *. cbn in *. rewrite Hf. set_solver.
      * cbn. by rewrite lookup_insert_eq.
      * cbn. lia.
      * done.
Qed.

(** C14: with enough memory, adding an action that makes at most 31 actions of the kernel and is
    not in the broadcast yet always finds a slot (the [abort()] of [lsdn_find_free_action] is
    not reached). It registers the action without moving the others, and sends the filter the
    action was put into, and only that one: its actions are those of its slots in order, closed
    by [continue], numbered consecutively from 1 and at most [LSDN_MAX_ACT_PRIO]. Whether or not
    the kernel accepts, the accounting of the broadcast holds afterwards. *)
Theorem broadcast_add_spec s br action d l :
  broadcast_ok s br → alloc_ok s → desc_ok s d l → actions_count d ≤ LSDN_MAX_ACT_PRIO - 1 →
  (∀ e, ¬ registered s br action e) →
  wp (lsdn_broadcast_add br action d) s (λ err s',
    broadcast_ok s' br ∧
    (∃ f i, flushed s s' br f err ∧
       ∀ a f' i', in_slot s' br a f' i' ↔ (a = action ∧ f' = f ∧ i' = i) ∨ in_slot s br a f' i') ∧
    ∀ a e, registered s' br a e ↔ (a = action ∧ e = d) ∨ registered s br a e).
Proof.
  intros Hok Hal Hd Hc Hnew.
  assert (Hnew' : ∀ f i, ¬ in_slot s br action f i).
  { intros f i Hin. destruct (in_slot_action _ _ _ _ _ Hok Hin) as (e & _ & He & _).
    apply (Hnew e). by exists f, i. }
  pose proof Hd as (_ & Hcl & Hl). unfold lsdn_broadcast_add. rewrite wp_bind.
  eapply wp_mono; [apply find_free_action_spec; try done; destruct l; simpl in *; [done|lia]|].
  intros r s1 (f & j & x & -> & Hok1 & Hk1 & Hin & Hx & Hfree & Hj & He & Ht & Hb & Hslot).
  eapply wp_mono; [eapply (place_spec s1); try done|].
  - unfold alloc_ok. by rewrite He.
  - by eapply desc_ok_frame.
  - intros f' i. rewrite Hslot. apply Hnew'.
  - intros err s' (? & Hfl & Hsl & Hreg). split; [done|]. split.
    + exists f, j. split; [unfold flushed in *; by rewrite <-Ht|]. intros a f' i'. by rewrite Hsl, Hslot.
    + intros a e. rewrite Hreg. unfold registered. rewrite Hb. by setoid_rewrite Hslot.
Qed.

(** C15: with enough memory, removing an action of a broadcast frees exactly its slot and its
    actions in the accounting. If decommits are disabled nothing is sent and the answer is OK;
    otherwise the filter the action was in is sent again with the actions that are left in its
    slots, and the answer is INCONSISTENT if the kernel refuses it. *)
Theorem broadcast_remove_spec s br action d :
  broadcast_ok s br → alloc_ok s → registered s br action d →
  wp (lsdn_broadcast_remove action) s (λ err s',
    broadcast_ok s' br ∧
    (∀ a e, registered s' br a e ↔ a ≠ action ∧ registered s br a e) ∧
    ∃ f i b c, in_slot s br action f i ∧
      (∀ a f' i', in_slot s' br a f' i' ↔ in_slot s br a f' i' ∧ (f', i') ≠ (f, i)) ∧
      H.broadcasts s !! br = Some b ∧ H.objs s !! Broadcast.ctx b = Some (OCtx c) ∧
      if Ctx.disable_decommit c then err = LSDNE_OK ∧ H.trace s' = H.trace s
      else ∃ err', flushed s s' br f err' ∧ err = acc_inconsistent LSDNE_OK err').
Proof.
  intros Hok Hal (f & j & Hsl & Ha). pose proof Hsl as (x & Hin & Hx & Hj).
  destruct (br_filters _ _ Hok _ Hin) as [_ (x' & acts & ? & Hbr & Hlen & Hs & Hfree & Hpos)].
  simplify_eq/=. destruct (slots_lookup _ _ _ _ _ _ _ Hs Hj) as (l & Hd).
  unfold lsdn_broadcast_remove. hstep. hstep. hstep. hstep. cbn [BAction.filter_entry_index].
  rewrite Nat2Z.id.
  set (x' := BFilter.set_actions _ _). set (s1 := H.set_objs _ (H.set_objs _ s)).
  assert (Hkept : kept s s1).
  { eapply (kept_filter _ _ f x); [done..|by left|]. intros p Hp. cbn. by rewrite !lookup_insert_ne. }
  assert (Hf : filter_ok s1 (BFilter.broadcast x) f).
  { destruct (slots_ok_remove _ _ _ _ _ _ _ _ Hs Hj Hd) as (acts' & Hs' & Hl').
    apply (slots_ok_frame _ s1) in Hs'; [|done..].
    destruct Hd as (d' & Hd' & _ & Hc & _). simplify_eq/=.
    exists x', acts'. cbn in *. rewrite lookup_insert_eq, length_insert.
    rewrite u64_small by (unfold LSDN_MAX_ACT_PRIO in *; lia). split_and!; try done; lia. }
  assert (Hok1 : broadcast_ok s1 (BFilter.broadcast x)).
  { apply (broadcast_ok_change s s1 _ f); try done.
    intros p Hp. cbn. by rewrite !lookup_insert_ne. }
  assert (Hslot : ∀ a f' i, in_slot s1 (BFilter.broadcast x) a f' i ↔
            if decide (f' = f ∧ i = j) then None = Some a
            else in_slot s (BFilter.broadcast x) a f' i).
  { intros a f' i. eapply (in_slot_write s s1 _ f x x'); try done; [by eapply lookup_lt_Some| |].
    - cbn. by rewrite lookup_insert_eq.
    - intros p Hp. cbn. by rewrite !lookup_insert_ne. }
  assert (Hreg : ∀ a e, registered s1 (BFilter.broadcast x) a e ↔
                        a ≠ action ∧ registered s (BFilter.broadcast x) a e).
  { intros a e. unfold registered. setoid_rewrite Hslot. cbn. split.
    - intros (f' & i & Hi & Hae). case_decide as Hfi; [done|]. split; [|by eauto].
      intros ->. simplify_eq. naive_solver.
    - intros (Hne & f' & i & Hi & Hae). exists f', i. rewrite decide_False; [done|].
      intros [-> ->]. destruct Hi as (y & _ & ? & Hy). congruence. }
  destruct (br_struct _ _ Hok1) as (b & c & i & Hb & Hc & _).
  assert (Hc0 : H.objs s !! Broadcast.ctx b = Some (OCtx c)).
  { cbn in Hc. destruct (decide (Broadcast.ctx b = f)) as [E|E]; [rewrite E, lookup_insert_eq in Hc; done|].
    by rewrite !lookup_insert_ne in Hc by done. }
  assert (Hleft : ∀ a f' i', in_slot s1 (BFilter.broadcast x) a f' i' ↔
            in_slot s (BFilter.broadcast x) a f' i' ∧ (f', i') ≠ (f, j)).
  { intros a f' i'. rewrite Hslot. case_decide; naive_solver. }
  change (H.set_objs _ (H.set_objs _ s)) with s1.
  hstep. hstep. destruct (Ctx.disable_decommit c) eqn:Hdd.
  - hstep. split_and!; [done|done|]. exists f, j, b, c. rewrite Hdd. by split_and!.
  - rewrite wp_bind. eapply wp_mono; [by apply (flush_spec s1)|].
    intros err s' [Hfl (n & t & ->)]. hstep. split_and!; [by apply broadcast_ok_sent|apply Hreg|].
    exists f, j, b, c. rewrite Hdd. split_and!; try done. by exists err.
Qed.

(** unlike the rules of a ruleset, the filter of a broadcast is used without a check: if its
    allocation fails, adding an action dereferences NULL. *)
Theorem flush_without_memory s br f :
  broadcast_ok s br → filter_ok s br f → Env.malloc_ok (H.env s) (H.allocs s) = false →
  lsdn_flush_action_list f s = Fault NullDeref.
Proof.
  intros [_ _ (b & c & i & Hb & Hc & Hsock & Hi) _ _] (x & acts & Hx & <- & _) Hal.
  unfold lsdn_flush_action_list, get_bfilter, get_obj, get_broadcast, get_if,
    lsdn_filter_flower_init, filter_init, try_alloc, mbind, M_bind, get, live, modify, mret, M_ret.
  rewrite Hx. simpl. rewrite Hb, Hi. simpl. by rewrite Hal.
Qed.

(** ** Witnesses *)

(** A context (1), and a broadcast in object 2 on an interface of it, as [lsdn_broadcast_init]
    leaves it. *)
Definition demo_env (ok : bool) : Env.env :=
  Env.mk (λ _, ok) (λ _, []) (λ _, 0) (λ _ _, 0) true (λ _ _, true).
Definition demo_heap (ok : bool) : heap :=
  H.mk (demo_env ok) 3%positive 0 [] [] {[(2%positive, F_broadcast) := []]}
    {[1%positive := OCtx (Ctx.mk "demo"%string None true true None 0 false false 0 ""%string)]}
    {[(2%positive, F_tunnel_if) := If.mk 7 None]} ∅ ∅
    {[(2%positive, F_broadcast) := Broadcast.mk 1%positive (2%positive, F_tunnel_if) 5 1]} ∅ ∅.
Definition demo_br : addr := (2%positive, F_broadcast).
Definition demo_action : addr := (2%positive, F_broadcast_action).
Definition demo_desc : lsdn_action_desc := ActionDesc None 1 callback_drop.

Lemma demo_broadcast_ok ok : broadcast_ok (demo_heap ok) demo_br.
Proof.
  assert (Hwf : Store.wf (H.lists (demo_heap ok))) by by apply Store.wf_check_ok.
  split.
  - done.
  - intros p Hp. apply bounded_fresh; [done| |done].
    split; apply map_Forall_singleton; repeat constructor.
  - by do 3 eexists.
  - by eexists.
  - intros e He. by apply not_elem_of_nil in He.
Qed.

Lemma broadcast_add_spec_witness :
  wp (lsdn_broadcast_add demo_br demo_action demo_desc) (demo_heap true) (λ err s',
    broadcast_ok s' demo_br ∧ registered s' demo_br demo_action demo_desc).
Proof.
  eapply wp_mono; [apply (broadcast_add_spec _ demo_br demo_action demo_desc [TcDrop])|].
  - apply demo_broadcast_ok.
  - by intros n.
  - by split_and!.
  - by vm_compute.
  - intros e (f & i & (x & Hin & _) & _). by apply not_elem_of_nil in Hin.
  - intros err s' (Hok & _ & Hreg). split; [done|]. apply Hreg. by left.
Defined.

(** The same broadcast with one filter (3), the action in its first slot. *)
Definition demo_filter : BFilter.lsdn_broadcast_filter :=
  BFilter.mk demo_br 1 30 (Some demo_action :: replicate 30 None).
Definition demo_heap2 (ok : bool) : heap :=
  H.mk (demo_env ok) 4%positive 0 [] [] {[demo_br := [(3%positive, F_filters_entry)]]}
    (<[3%positive := OBFilter demo_filter]> (H.objs (demo_heap ok)))
    (H.ifs (demo_heap ok)) ∅ ∅ (H.broadcasts (demo_heap ok))
    {[demo_action := BAction.mk 3%positive 0 demo_desc]} ∅.

Lemma demo_filter_ok ok : filter_ok (demo_heap2 ok) demo_br 3%positive.
Proof.
  exists demo_filter, [TcDrop]. split_and!; try done.
  apply (slots_some _ _ 0 _ [TcDrop]); [|repeat constructor].
  by exists demo_desc.
Qed.

Lemma demo_broadcast_ok2 ok : broadcast_ok (demo_heap2 ok) demo_br.
Proof.
  assert (Hwf : Store.wf (H.lists (demo_heap2 ok))) by by apply Store.wf_check_ok.
  split.
  - done.
  - intros p Hp. apply bounded_fresh; [done| |done].
    split; [apply map_Forall_insert_2; [done|]|]; apply map_Forall_singleton; repeat constructor.
  - by do 3 eexists.
  - by eexists.
  - intros e ->%list_elem_of_singleton. split; [done|]. apply demo_filter_ok.
Qed.

Lemma broadcast_remove_spec_witness :
  wp (lsdn_broadcast_remove demo_action) (demo_heap2 true) (λ err s',
    broadcast_ok s' demo_br ∧ ¬ registered s' demo_br demo_action demo_desc).
Proof.
  eapply wp_mono; [apply (broadcast_remove_spec _ demo_br demo_action demo_desc)|].
  - apply demo_broadcast_ok2.
  - by intros n.
  - exists 3%positive, 0%nat. split; [|done]. exists demo_filter. split_and!; try done.
    by apply list_elem_of_singleton.
  - intros err s' (Hok & Hreg & _). split; [done|]. rewrite Hreg. naive_solver.
Defined.

Lemma flush_without_memory_witness :
  lsdn_flush_action_list 3%positive (demo_heap2 false) = Fault NullDeref.
Proof.
  apply (flush_without_memory _ demo_br).
  - apply demo_broadcast_ok2.
  - apply demo_filter_ok.
  - done.
Defined.
