(* ===== verification/Inv.v ===== *)
(** * The invariant of the network model

    What links the objects of the model: every list entry is linked exactly where the members
    of its object say, every pointer leads to a live object of its type, names are unique in
    their table, an object that was never committed has no committed parts. The API is proved
    against three kinds of transitions that preserve it: an object is created, changed, or
    freed. *)

From Stdlib Require Import ZArith Lia.
From stdpp Require Import base list gmap strings.
From S2P Require Import Prelude.
From S2P Require Import LStore.
From S2P Require Import Status.
From S2P Require Import Heap.
From S2P Require Import Base.
From S2P Require Import Wp.

(** ** Where the members of an object say it is linked *)

Definition obj_owner (ob : obj) (f : field) : option addr :=
  match ob, f with
  | OSettings x, F_settings_entry => Some (Settings.ctx x, F_settings_list)
  | OSettings x, F_name_entry => (λ _, (Settings.ctx x, F_setting_names)) <$> Settings.name x
  | OPhys x, F_phys_entry => Some (Phys.ctx x, F_phys_list)
  | OPhys x, F_name_entry => (λ _, (Phys.ctx x, F_phys_names)) <$> Phys.name x
  | ONet x, F_networks_entry => Some (Net.ctx x, F_networks_list)
  | ONet x, F_settings_users_entry => Some (Net.settings x, F_setting_users_list)
  | ONet x, F_name_entry => (λ _, (Net.ctx x, F_net_names)) <$> Net.name x
  | OPa x, F_attached_entry => Some (Pa.net x, F_attached_list)
  | OPa x, F_attached_to_entry => Some (Pa.phys x, F_attached_to_list)
  | OVirt x, F_virt_entry => Some (Virt.network x, F_virt_list)
  | OVirt x, F_connected_virt_entry => (λ a, (a, F_connected_virt_list)) <$> Virt.connected_through x
  | OVirt x, F_name_entry => (λ _, (Virt.network x, F_virt_names)) <$> Virt.name x
  | ORpa x, F_pa_view_entry => Some (Rpa.remote x, F_pa_view_list)
  | ORpa x, F_remote_pa_entry => Some (Rpa.local x, F_remote_pa_list)
  | ORvirt x, F_virt_view_entry => Some (Rvirt.virt x, F_virt_view_list)
  | ORvirt x, F_remote_virt_entry => Some (Rvirt.pa x, F_remote_virt_list)
  | _, _ => None
  end.

(** The entries of rules and broadcast filters: their objects do not name their list. *)
Definition struct_field (f : field) : bool :=
  match f with
  | F_rules_entry | F_rule | F_policing_rule_in | F_policing_rule_out | F_filters_entry => false
  | _ => true
  end.

(** The list heads of an object. *)
Definition obj_heads (ob : obj) : list field :=
  match ob with
  | OCtx _ => [F_networks_list; F_settings_list; F_phys_list; F_phys_names; F_net_names;
               F_setting_names]
  | OSettings _ => [F_setting_users_list]
  | OPhys _ => [F_attached_to_list]
  | ONet _ => [F_virt_list; F_attached_list; F_virt_names]
  | OPa _ => [F_connected_virt_list; F_pa_view_list; F_remote_pa_list]
  | OVirt _ => [F_virt_view_list]
  | ORpa _ => [F_remote_virt_list]
  | OVrPrio _ => [F_rules_list]
  | OFlower _ => [F_sources_list]
  | _ => []
  end.

Definition obj_state (ob : obj) : option lsdn_state :=
  match ob with
  | OSettings x => Some (Settings.state x)
  | OPhys x => Some (Phys.state x)
  | ONet x => Some (Net.state x)
  | OPa x => Some (Pa.state x)
  | OVirt x => Some (Virt.state x)
  | OVr x => Some (Vr.state x)
  | _ => None
  end.

Definition is_new (ob : obj) : Prop := obj_state ob = Some LSDN_STATE_NEW.

(** The rule tables of an object. *)
Definition tables (ob : obj) : list ptr :=
  match ob with
  | OVirt x => snd <$> (Virt.ht_in_rules x ++ Virt.ht_out_rules x)
  | _ => []
  end.

(** ** References *)

(** What an object owes to the objects that point to it: same type, and the members they
    rely on; an object does not become NEW again. *)
Definition compat (o o' : obj) : Prop :=
  match o, o' with
  | OCtx x, OCtx y => True
  | OSettings x, OSettings y => Settings.ctx y = Settings.ctx x ∧ (is_new o' → is_new o)
  | OPhys _, OPhys _ | ONet _, ONet _ | OVirt _, OVirt _ | OVr _, OVr _ => is_new o' → is_new o
  | OPa x, OPa y => Pa.net y = Pa.net x ∧ (is_new o' → is_new o)
  | ORpa _, ORpa _ | ORvirt _, ORvirt _ | OVrPrio _, OVrPrio _ | ORsPrio _, ORsPrio _
  | OFlower _, OFlower _ | OBFilter _, OBFilter _ | OBrAction _, OBrAction _
  | OFwdRule _, OFwdRule _ => True
  | _, _ => False
  end.

(** Objects of interest at an address. *)
Definition obj_at (s : heap) (p : ptr) (P : obj → Prop) : Prop :=
  ∃ ob, H.objs s !! p = Some ob ∧ P ob.

Definition is_ctx (ob : obj) : Prop := match ob with OCtx _ => True | _ => False end.
Definition is_settings (c : ptr) (ob : obj) : Prop :=
  match ob with OSettings x => Settings.ctx x = c | _ => False end.
Definition is_net (ob : obj) : Prop := match ob with ONet _ => True | _ => False end.
Definition is_phys (ob : obj) : Prop := match ob with OPhys _ => True | _ => False end.
Definition is_pa (ob : obj) : Prop := match ob with OPa _ => True | _ => False end.
Definition is_pa_of (n : ptr) (ob : obj) : Prop := match ob with OPa x => Pa.net x = n | _ => False end.
Definition is_virt (ob : obj) : Prop := match ob with OVirt _ => True | _ => False end.
Definition is_rpa (ob : obj) : Prop := match ob with ORpa _ => True | _ => False end.
Definition is_vrprio (ob : obj) : Prop := match ob with OVrPrio _ => True | _ => False end.
Definition is_vr (ob : obj) : Prop := match ob with OVr _ => True | _ => False end.
Definition is_flower (ob : obj) : Prop := match ob with OFlower _ => True | _ => False end.
Definition is_bfilter (ob : obj) : Prop := match ob with OBFilter _ => True | _ => False end.
(** The objects with a broadcast list of their own. *)
Definition is_bridged (ob : obj) : Prop := match ob with OPa _ | OVirt _ => True | _ => False end.

(** A committed object relies on committed ones. *)
Definition settled (ob ob' : obj) : Prop := is_new ob' → is_new ob.

Definition refs_ok (s : heap) (p : ptr) (ob : obj) : Prop :=
  match ob with
  | OSettings x => obj_at s (Settings.ctx x) is_ctx
  | OPhys x => obj_at s (Phys.ctx x) is_ctx
  | ONet x => obj_at s (Net.ctx x) is_ctx ∧
              obj_at s (Net.settings x) (λ o, is_settings (Net.ctx x) o ∧ settled ob o)
  | OPa x => obj_at s (Pa.net x) (λ o, is_net o ∧ settled ob o) ∧
             obj_at s (Pa.phys x) (λ o, is_phys o ∧ settled ob o)
  | OVirt x => obj_at s (Virt.network x) (λ o, is_net o ∧ settled ob o) ∧
               (∀ a, Virt.connected_through x = Some a → obj_at s a (is_pa_of (Virt.network x))) ∧
               (∀ q, q ∈ tables ob → obj_at s q is_vrprio) ∧ NoDup (tables ob)
  | ORpa x => obj_at s (Rpa.local x) (λ o, is_pa o ∧ ¬ is_new o) ∧
              obj_at s (Rpa.remote x) (λ o, is_pa o ∧ ¬ is_new o)
  | ORvirt x => obj_at s (Rvirt.pa x) is_rpa ∧ obj_at s (Rvirt.virt x) (λ o, is_virt o ∧ ¬ is_new o)
  | OVr x => ∃ q, own s (p, F_rules_entry) = Some (q, F_rules_list)
  | _ => True
  end.

(** The structures embedded in an object. *)
Definition embedded_ok (s : heap) (p : ptr) (ob : obj) : Prop :=
  match ob with
  | OVirt _ => is_Some (H.ifs s !! (p, F_connected_if)) ∧ is_Some (H.ifs s !! (p, F_committed_if)) ∧
               is_Some (H.rules s !! (p, F_policing_rule_in)) ∧
               is_Some (H.rules s !! (p, F_policing_rule_out))
  | OVr _ => is_Some (H.rules s !! (p, F_rule))
  | _ => True
  end.

(** The lists that the entries without a structural owner may be in. *)
Definition engine_ok (s : heap) (p : ptr) (f : field) (h : addr) : Prop :=
  match f with
  | F_rules_entry => h.2 = F_rules_list ∧ obj_at s p is_vr ∧ obj_at s h.1 is_vrprio
  | F_filters_entry =>
      h.2 = F_broadcast ∧ obj_at s p is_bfilter ∧ obj_at s h.1 (λ ob, is_bridged ob ∧ ¬ is_new ob)
  | F_rule =>
      h.2 = F_sources_list ∧ obj_at s p (λ ob, is_vr ob ∧ ¬ is_new ob) ∧ obj_at s h.1 is_flower
  | _ =>
      h.2 = F_sources_list ∧ obj_at s p (λ ob, is_virt ob ∧ ¬ is_new ob) ∧ obj_at s h.1 is_flower
  end.

(** ** The invariant *)

Record inv (s : heap) : Prop := {
  inv_wf : Store.wf (H.lists s);
  inv_own p ob f : H.objs s !! p = Some ob → struct_field f = true → own s (p, f) = obj_owner ob f;
  inv_own_dead p f : H.objs s !! p = None → own s (p, f) = None;
  inv_heads p ob f : H.objs s !! p = Some ob → f ∈ obj_heads ob → is_Some (H.lists s !! (p, f));
  inv_lists_dead p f : H.objs s !! p = None → H.lists s !! (p, f) = None;
  inv_name_entry p ob : H.objs s !! p = Some ob → obj_name ob = Some None →
                        H.lists s !! (p, F_name_entry) = Some [];
  inv_fresh p ob : H.objs s !! p = Some ob → (p < H.next_ptr s)%positive;
  inv_refs p ob : H.objs s !! p = Some ob → refs_ok s p ob;
  inv_embedded p ob : H.objs s !! p = Some ob → embedded_ok s p ob;
  inv_engine p f h : struct_field f = false → own s (p, f) = Some h → engine_ok s p f h;
  inv_names p q obp obq n : H.objs s !! p = Some obp → H.objs s !! q = Some obq →
    obj_name obp = Some (Some n) → obj_name obq = Some (Some n) →
    obj_owner obp F_name_entry = obj_owner obq F_name_entry → p = q;
  inv_tables p q obp obq t : H.objs s !! p = Some obp → H.objs s !! q = Some obq →
    t ∈ tables obp → t ∈ tables obq → p = q;
  inv_vrs p ob t vr ob' : H.objs s !! p = Some ob → t ∈ tables ob →
    own s (vr, F_rules_entry) = Some (t, F_rules_list) → H.objs s !! vr = Some ob' →
    is_new ob → is_new ob' }.

(** ** Consequences *)

(** Opens the hypotheses about objects at addresses, and the kinds of objects. *)
Ltac obj_cases :=
  repeat match goal with
  | H : _ ∧ _ |- _ => destruct H
  | H : obj_at _ _ _ |- _ => destruct H as (?ob & ? & ?)
  | H : is_ctx ?o |- _ => destruct o; try done; clear H
  | H : is_net ?o |- _ => destruct o; try done; clear H
  | H : is_phys ?o |- _ => destruct o; try done; clear H
  | H : is_pa ?o |- _ => destruct o; try done; clear H
  | H : is_virt ?o |- _ => destruct o; try done; clear H
  | H : is_rpa ?o |- _ => destruct o; try done; clear H
  | H : is_vrprio ?o |- _ => destruct o; try done; clear H
  | H : is_vr ?o |- _ => destruct o; try done; clear H
  | H : is_flower ?o |- _ => destruct o; try done; clear H
  | H : is_bfilter ?o |- _ => destruct o; try done; clear H
  | H : is_settings _ ?o |- _ => destruct o; try done; simpl in H
  | H : is_pa_of _ ?o |- _ => destruct o; try done; simpl in H
  end.

Section facts.
Context (s : heap) (Hinv : inv s).

(** The list an entry is in belongs to a live object that has such a list. *)
Lemma own_typed e q f :
  own s e = Some (q, f) → f ≠ F_broadcast → ∃ ob, H.objs s !! q = Some ob ∧ f ∈ obj_heads ob.
Proof using Hinv.
  intros Ho Hf. destruct e as [p g].
  destruct (H.objs s !! p) as [ob|] eqn:Hp; [|by rewrite inv_own_dead in Ho].
  destruct (struct_field g) eqn:Hg.
  - rewrite (inv_own s Hinv p ob g Hp Hg) in Ho. pose proof (inv_refs s Hinv p ob Hp) as Hr.
    unfold refs_ok in Hr.
    destruct ob, g; simpl in Ho; try done;
      try (apply fmap_Some in Ho as (? & ? & ?)); simplify_eq;
      repeat match goal with
      | H : _ ∧ _ |- _ => destruct H
      | H : Virt.connected_through _ = Some _, H2 : ∀ a, Virt.connected_through _ = Some a → _ |- _ =>
          specialize (H2 _ H)
      end;
      obj_cases; eexists; (split; [eassumption|]); simpl; set_solver.
  - pose proof (inv_engine s Hinv p g _ Hg Ho) as He.
    destruct g; simpl in *; try done; obj_cases; simplify_eq; eexists; (split; [eassumption|]);
      simpl; set_solver.
Qed.

(** A node that heads no list of its object has no entries. *)
Lemma entry_node p ob f :
  H.objs s !! p = Some ob → f ∉ obj_heads ob → f ≠ F_broadcast →
  H.lists s !! (p, f) = None ∨ H.lists s !! (p, f) = Some [].
Proof using Hinv.
  intros Hp Hf Hb. destruct (H.lists s !! (p, f)) as [[|e l]|] eqn:E; [by right| |by left].
  assert (Ho : own s e = Some (p, f)).
  { apply Store.owner_Some; [apply Hinv|]. exists (e :: l). split; [done|set_solver]. }
  destruct (own_typed _ _ _ Ho Hb) as (ob' & Hp' & Hf'). congruence.
Qed.

(** The members of the lists of an object. *)
Lemma list_members p ob f :
  H.objs s !! p = Some ob → f ∈ obj_heads ob →
  ∃ l, H.lists s !! (p, f) = Some l ∧ ∀ e, e ∈ l ↔ own s e = Some (p, f).
Proof using Hinv.
  intros Hp Hf. destruct (inv_heads s Hinv p ob f Hp Hf) as [l Hl]. exists l. split; [done|].
  intros e. rewrite Store.owner_Some by apply Hinv. split; [eauto|]. intros (l' & ? & ?). congruence.
Qed.

(** Which object and member an entry of a structural list is. *)
Lemma own_entry p f h :
  own s (p, f) = Some h → struct_field f = true →
  ∃ ob, H.objs s !! p = Some ob ∧ obj_owner ob f = Some h.
Proof using Hinv.
  intros Ho Hf. destruct (H.objs s !! p) as [ob|] eqn:Hp; [|by rewrite inv_own_dead in Ho].
  exists ob. split; [done|]. by rewrite <-(inv_own s Hinv p ob f Hp Hf).
Qed.

Lemma heads_struct ob f : f ∈ obj_heads ob → struct_field f = true.
Proof. destruct ob; simpl; set_solver. Qed.
End facts.

(** Which member of which object is in which list. *)
Lemma own_inv s p g q f :
  inv s → own s (p, g) = Some (q, f) →
  match f with
  | F_networks_list => g = F_networks_entry ∧ ∃ x, H.objs s !! p = Some (ONet x) ∧ Net.ctx x = q
  | F_settings_list => g = F_settings_entry ∧ ∃ x, H.objs s !! p = Some (OSettings x) ∧ Settings.ctx x = q
  | F_phys_list => g = F_phys_entry ∧ ∃ x, H.objs s !! p = Some (OPhys x) ∧ Phys.ctx x = q
  | F_setting_users_list =>
      g = F_settings_users_entry ∧ ∃ x, H.objs s !! p = Some (ONet x) ∧ Net.settings x = q
  | F_virt_list => g = F_virt_entry ∧ ∃ x, H.objs s !! p = Some (OVirt x) ∧ Virt.network x = q
  | F_attached_list => g = F_attached_entry ∧ ∃ x, H.objs s !! p = Some (OPa x) ∧ Pa.net x = q
  | F_attached_to_list => g = F_attached_to_entry ∧ ∃ x, H.objs s !! p = Some (OPa x) ∧ Pa.phys x = q
  | F_connected_virt_list =>
      g = F_connected_virt_entry ∧ ∃ x, H.objs s !! p = Some (OVirt x) ∧ Virt.connected_through x = Some q
  | F_pa_view_list => g = F_pa_view_entry ∧ ∃ x, H.objs s !! p = Some (ORpa x) ∧ Rpa.remote x = q
  | F_remote_pa_list => g = F_remote_pa_entry ∧ ∃ x, H.objs s !! p = Some (ORpa x) ∧ Rpa.local x = q
  | F_virt_view_list => g = F_virt_view_entry ∧ ∃ x, H.objs s !! p = Some (ORvirt x) ∧ Rvirt.virt x = q
  | F_remote_virt_list => g = F_remote_virt_entry ∧ ∃ x, H.objs s !! p = Some (ORvirt x) ∧ Rvirt.pa x = q
  | F_rules_list => g = F_rules_entry ∧ ∃ x, H.objs s !! p = Some (OVr x)
  | F_phys_names | F_net_names | F_setting_names | F_virt_names =>
      g = F_name_entry ∧ ∃ ob n, H.objs s !! p = Some ob ∧ obj_name ob = Some (Some n) ∧
                                 obj_owner ob F_name_entry = Some (q, f)
  | _ => True
  end.
Proof.
  intros Hinv Ho. destruct (struct_field g) eqn:Hg.
  - destruct (own_entry s Hinv _ _ _ Ho Hg) as (ob & Hp & Hob).
    destruct ob, g; simpl in Hob; try done;
      try (pose proof Hob as (? & ? & ?)%fmap_Some); simplify_eq; simpl; eauto 10.
    all: split; [done|]; do 2 eexists; split_and!; [done| |done]; simpl; by f_equal.
  - pose proof (inv_engine s Hinv p g _ Hg Ho) as He.
    destruct g; simpl in *; try done; obj_cases; simplify_eq; simpl; eauto.
Qed.

(** ** Transitions *)

(** The objects whose members an object relies on. *)
Definition obj_refs (ob : obj) : list ptr :=
  match ob with
  | OSettings x => [Settings.ctx x]
  | OPhys x => [Phys.ctx x]
  | ONet x => [Net.ctx x; Net.settings x]
  | OPa x => [Pa.net x; Pa.phys x]
  | OVirt x => Virt.network x :: option_list (Virt.connected_through x) ++ tables ob
  | ORpa x => [Rpa.local x; Rpa.remote x]
  | ORvirt x => [Rvirt.pa x; Rvirt.virt x]
  | _ => []
  end.

Lemma compat_new o o' : compat o o' → is_new o' → is_new o.
Proof. destruct o, o'; simpl; try done; naive_solver. Qed.
Lemma compat_refl o : compat o o.
Proof. by destruct o; simpl. Qed.
Lemma compat_heads o o' : compat o o' → obj_heads o' = obj_heads o.
Proof. by destruct o, o'. Qed.

(** Properties that survive changes of an object. *)
Definition closed (P : obj → Prop) : Prop := ∀ o o', P o → compat o o' → P o'.

Create HintDb closed.
Lemma closed_kind (P : obj → Prop) : (∀ o o', compat o o' → P o → P o') → closed P.
Proof. intros HP o o' ??. eauto. Qed.
Lemma closed_and P Q : closed P → closed Q → closed (λ o, P o ∧ Q o).
Proof. intros HP HQ o o' [??] ?. split; eauto. Qed.
Lemma closed_settled ob : closed (settled ob).
Proof. intros o o' Hs Hc Hn. by apply Hs, (compat_new o o'). Qed.
Lemma closed_old : closed (λ o, ¬ is_new o).
Proof. intros o o' Hs Hc Hn. by apply Hs, (compat_new o o'). Qed.
Lemma closed_ctx : closed is_ctx.
Proof. by apply closed_kind; intros [] []. Qed.
Lemma closed_net : closed is_net.
Proof. by apply closed_kind; intros [] []. Qed.
Lemma closed_phys : closed is_phys.
Proof. by apply closed_kind; intros [] []. Qed.
Lemma closed_pa : closed is_pa.
Proof. by apply closed_kind; intros [] []. Qed.
Lemma closed_virt : closed is_virt.
Proof. by apply closed_kind; intros [] []. Qed.
Lemma closed_rpa : closed is_rpa.
Proof. by apply closed_kind; intros [] []. Qed.
Lemma closed_vrprio : closed is_vrprio.
Proof. by apply closed_kind; intros [] []. Qed.
Lemma closed_vr : closed is_vr.
Proof. by apply closed_kind; intros [] []. Qed.
Lemma closed_flower : closed is_flower.
Proof. by apply closed_kind; intros [] []. Qed.
Lemma closed_bfilter : closed is_bfilter.
Proof. by apply closed_kind; intros [] []. Qed.
Lemma closed_bridged : closed is_bridged.
Proof. by apply closed_kind; intros [] []. Qed.
Lemma closed_settings c : closed (is_settings c).
Proof. apply closed_kind; intros [] [] Hc; try done. destruct Hc. simpl. congruence. Qed.
Lemma closed_pa_of n : closed (is_pa_of n).
Proof. apply closed_kind; intros [] [] Hc; try done. destruct Hc. simpl. congruence. Qed.
#[export] Hint Resolve closed_and closed_settled closed_old closed_ctx closed_net closed_phys closed_pa
  closed_virt closed_rpa closed_vrprio closed_vr closed_flower closed_bfilter closed_bridged closed_settings closed_pa_of : closed.

Lemma obj_at_compat s s' r (P : obj → Prop) :
  obj_at s r P → (∀ o, H.objs s !! r = Some o → ∃ o', H.objs s' !! r = Some o' ∧ compat o o') →
  closed P → obj_at s' r P.
Proof. intros (o & Ho & HP) Hc HPc. destruct (Hc o Ho) as (o' & ? & ?). exists o'. eauto. Qed.

Lemma refs_frame s s' q ob :
  refs_ok s q ob →
  (∀ r o, r ∈ obj_refs ob → H.objs s !! r = Some o → ∃ o', H.objs s' !! r = Some o' ∧ compat o o') →
  own s' (q, F_rules_entry) = own s (q, F_rules_entry) → refs_ok s' q ob.
Proof.
  intros Hr Hc Ho. unfold refs_ok in *.
  assert (Hat : ∀ r P, obj_at s r P → r ∈ obj_refs ob → closed P → obj_at s' r P).
  { intros r P Hat Hin. apply (obj_at_compat s); [done|]. intros o. by apply Hc. }
  destruct ob; try done; try (rewrite Ho; done);
    repeat match goal with H : _ ∧ _ |- _ => destruct H end; split_and?;
    try (eapply Hat; [eassumption|simpl; set_solver|eauto with closed]); try done.
  - intros a Ha. eapply Hat; [eauto|simpl; rewrite Ha; set_solver|eauto with closed].
  - intros t Ht. eapply Hat; [eauto|simpl in *; set_solver|eauto with closed].
Qed.

Lemma refs_live s p ob r : inv s → H.objs s !! p = Some ob → r ∈ obj_refs ob → is_Some (H.objs s !! r).
Proof.
  intros Hinv Hp Hr. pose proof (inv_refs s Hinv p ob Hp) as Href. unfold refs_ok in Href.
  destruct ob; cbn [obj_refs] in Hr; try (by apply not_elem_of_nil in Hr);
    repeat match goal with H : _ ∧ _ |- _ => destruct H end.
  all: repeat match goal with
    | H : _ ∈ _ :: _ |- _ => apply elem_of_cons in H as [->|H]
    | H : _ ∈ [] |- _ => by apply not_elem_of_nil in H
    | H : _ ∈ _ ++ _ |- _ => apply elem_of_app in H as [H|H]
    | H : _ ∈ option_list ?o |- _ => destruct o eqn:?; simpl in H
    | H2 : ∀ a, Some _ = Some a → _ |- _ => specialize (H2 _ eq_refl)
    | H : ?t ∈ tables ?o, H2 : ∀ q, q ∈ tables ?o → _ |- _ => specialize (H2 _ H)
    | H : obj_at _ ?r _ |- is_Some (_ !! ?r) => destruct H as (? & -> & _); by eexists
    end.
Qed.

(** Only the memory of object [p] changes: its members, the lists its entries are in, its
    list heads and the structures embedded in it. (The counters of contexts may move too.)
    Nothing is sent to the kernel. *)
Definition similar (o o' : option obj) : Prop :=
  o' = o ∨ ∃ x y, o = Some (OCtx x) ∧ o' = Some (OCtx y) ∧ Ctx.nomem_cb y = Ctx.nomem_cb x.

Record frame (p : ptr) (s s' : heap) : Prop := {
  fr_objs q : q ≠ p → similar (H.objs s !! q) (H.objs s' !! q);
  fr_next : (H.next_ptr s ≤ H.next_ptr s')%positive;
  fr_wf : Store.wf (H.lists s) → Store.wf (H.lists s');
  fr_own q f : q ≠ p → own s' (q, f) = own s (q, f);
  fr_lists q f : q ≠ p → is_Some (H.lists s' !! (q, f)) ↔ is_Some (H.lists s !! (q, f));
  fr_entry q : q ≠ p → H.lists s' !! (q, F_name_entry) = H.lists s !! (q, F_name_entry);
  fr_ifs q f : q ≠ p → is_Some (H.ifs s' !! (q, f)) ↔ is_Some (H.ifs s !! (q, f));
  fr_rules q f : q ≠ p → is_Some (H.rules s' !! (q, f)) ↔ is_Some (H.rules s !! (q, f));
  fr_trace : H.trace s' = H.trace s;
  fr_env : H.env s' = H.env s }.

Lemma similar_refl o : similar o o.
Proof. by left. Qed.
Lemma similar_trans o1 o2 o3 : similar o1 o2 → similar o2 o3 → similar o1 o3.
Proof.
  intros [->|(x & y & -> & -> & Hn)] [->|(x' & y' & ? & -> & Hn')]; simplify_eq; [by left| | |];
    right; repeat eexists; congruence.
Qed.
Lemma similar_some o o' ob : similar o o' → o = Some ob → ∃ ob', o' = Some ob' ∧ compat ob ob'.
Proof. intros [->|(x & y & -> & -> & _)] Ho; simplify_eq; eexists; eauto using compat_refl. done. Qed.
Lemma similar_inv o o' ob :
  similar o o' → o' = Some ob → o = Some ob ∨ (∃ x y, o = Some (OCtx x) ∧ ob = OCtx y).
Proof. intros [->|(x & y & -> & -> & _)] Ho; simplify_eq; eauto. Qed.
Lemma similar_none o o' : similar o o' → o' = None → o = None.
Proof. by intros [->|(x & y & -> & -> & _)]. Qed.
Create HintDb frame.
#[export] Hint Resolve similar_refl : frame.

Lemma frame_refl p s : frame p s s.
Proof. split; eauto with frame; done. Qed.
Lemma frame_trans p s1 s2 s3 : frame p s1 s2 → frame p s2 s3 → frame p s1 s3.
Proof.
  intros F1 F2. split.
  - intros q Hq. eapply similar_trans; [by apply F1|by apply F2].
  - etransitivity; [apply F1|apply F2].
  - intros Hwf. by apply F2, F1.
  - intros q f Hq. by rewrite (fr_own _ _ _ F2), (fr_own _ _ _ F1).
  - intros q f Hq. by rewrite (fr_lists _ _ _ F2), (fr_lists _ _ _ F1).
  - intros q Hq. by rewrite (fr_entry _ _ _ F2), (fr_entry _ _ _ F1).
  - intros q f Hq. by rewrite (fr_ifs _ _ _ F2), (fr_ifs _ _ _ F1).
  - intros q f Hq. by rewrite (fr_rules _ _ _ F2), (fr_rules _ _ _ F1).
  - by rewrite (fr_trace _ _ _ F2), (fr_trace _ _ _ F1).
  - by rewrite (fr_env _ _ _ F2), (fr_env _ _ _ F1).
Qed.

(** The primitive accesses. *)
Lemma frame_put p o s : frame p s (H.set_objs (<[p := o]> (H.objs s)) s).
Proof. split; simpl; try done; intros q Hq; rewrite lookup_insert_ne by done; eauto with frame. Qed.
Lemma frame_ctx p c x y s :
  H.objs s !! c = Some (OCtx x) → Ctx.nomem_cb y = Ctx.nomem_cb x →
  frame p s (H.set_objs (<[c := OCtx y]> (H.objs s)) s).
Proof.
  intros Hc Hn. split; simpl; try done. intros q Hq. destruct (decide (q = c)) as [->|Hne].
  - right. rewrite lookup_insert_eq. eauto.
  - rewrite lookup_insert_ne by done. eauto with frame.
Qed.
Lemma frame_init p f L s :
  initialised (H.lists s) L (p, f) → frame p s (H.set_lists L s).
Proof.
  intros (Hwf & He & Hl & Ho). split; simpl; try done; eauto with frame.
  - intros q g Hq. by rewrite Hl by congruence.
  - intros q Hq. by rewrite Hl by congruence.
Qed.
Lemma frame_link p f k L s :
  linked (H.lists s) L k (p, f) → k.2 ≠ F_name_entry → frame p s (H.set_lists L s).
Proof.
  intros (Hwf & He & (l & Hk & Hk') & Hl & Ho) Hf. split; simpl; try done; eauto with frame.
  - intros q g Hq. rewrite Ho. by rewrite decide_False by congruence.
  - intros q g Hq. destruct (decide ((q, g) = k)) as [<-|].
    + rewrite Hk, Hk'. split; by eexists.
    + by rewrite Hl by congruence.
  - intros q Hq. rewrite Hl; [done| |congruence]. by intros <-.
Qed.
Lemma frame_unlink p f k L s :
  unlinked_from (H.lists s) L k (p, f) → k.2 ≠ F_name_entry → frame p s (H.set_lists L s).
Proof.
  intros (Hwf & He & (l & Hk & Hin & Hk') & Hl & Ho) Hf. split; simpl; try done; eauto with frame.
  - intros q g Hq. rewrite Ho. by rewrite decide_False by congruence.
  - intros q g Hq. destruct (decide ((q, g) = k)) as [<-|].
    + rewrite Hk, Hk'. split; by eexists.
    + by rewrite Hl by congruence.
  - intros q Hq. rewrite Hl; [done| |congruence]. by intros <-.
Qed.
Lemma frame_if p f x s : frame p s (H.set_ifs (<[(p, f) := x]> (H.ifs s)) s).
Proof.
  split; simpl; eauto with frame; try done.
  intros q g Hq. by rewrite lookup_insert_ne by congruence.
Qed.
Lemma frame_del_if p f s : frame p s (H.set_ifs (delete (p, f) (H.ifs s)) s).
Proof.
  split; simpl; eauto with frame; try done.
  intros q g Hq. by rewrite lookup_delete_ne by congruence.
Qed.
Lemma frame_rule p f x s : frame p s (H.set_rules (<[(p, f) := x]> (H.rules s)) s).
Proof.
  split; simpl; eauto with frame; try done.
  intros q g Hq. by rewrite lookup_insert_ne by congruence.
Qed.
Lemma frame_del_rule p f s : frame p s (H.set_rules (delete (p, f) (H.rules s)) s).
Proof.
  split; simpl; eauto with frame; try done.
  intros q g Hq. by rewrite lookup_delete_ne by congruence.
Qed.
Lemma frame_alloc p n s : frame p s (H.set_allocs n s).
Proof. split; simpl; eauto with frame; done. Qed.
Lemma frame_fresh p s : frame p s (H.set_next_ptr (Pos.succ (H.next_ptr s)) s).
Proof. split; simpl; eauto with frame; try done. lia. Qed.
Lemma frame_event p l s : frame p s (H.set_events l s).
Proof. split; simpl; eauto with frame; done. Qed.
Lemma frame_free p s :
  Store.wf (H.lists s) → (∀ q f g, q ≠ p → own s (q, f) ≠ Some (p, g)) →
  frame p s (H.set_lists (filter (λ kv : addr * list addr, kv.1.1 ≠ p) (H.lists s))
               (H.set_objs (delete p (H.objs s)) s)).
Proof.
  intros Hwf Hfree.
  assert (Hfilter : ∀ q f, q ≠ p → filter (λ kv : addr * list addr, kv.1.1 ≠ p) (H.lists s) !! (q, f)
                                   = H.lists s !! (q, f)).
  { intros q f Hq. apply option_eq. intros l. rewrite map_lookup_filter_Some. naive_solver. }
  split; simpl; try done.
  - intros q Hq. rewrite lookup_delete_ne by done. eauto with frame.
  - intros _. exact (Store.wf_filter (λ k : addr, k.1 ≠ p) _ Hwf).
  - intros q f Hq. pose proof (Store.owner_filter (λ k : addr, k.1 ≠ p) (H.lists s) (q, f) Hwf) as Hof.
    etransitivity; [apply Hof|done]. intros [k g] Hk. simpl. intros ->. by apply (Hfree q f g).
  - intros q f Hq. by rewrite Hfilter.
  - intros q Hq. by rewrite Hfilter.
Qed.
#[export] Hint Resolve frame_refl frame_put frame_if frame_del_if frame_rule frame_del_rule frame_alloc
  frame_fresh frame_event : frame.

(** What the invariant says about one object. *)
Record local_ok (s : heap) (p : ptr) (ob : obj) : Prop := {
  lo_own f : struct_field f = true → own s (p, f) = obj_owner ob f;
  lo_heads f : f ∈ obj_heads ob → is_Some (H.lists s !! (p, f));
  lo_name : obj_name ob = Some None → H.lists s !! (p, F_name_entry) = Some [];
  lo_fresh : (p < H.next_ptr s)%positive;
  lo_refs : refs_ok s p ob;
  lo_embedded : embedded_ok s p ob;
  lo_engine f h : struct_field f = false → own s (p, f) = Some h → engine_ok s p f h }.

(** What it says about an object and the others. *)
Record shared_ok (s : heap) (p : ptr) (ob : obj) : Prop := {
  sh_names q obq n : q ≠ p → H.objs s !! q = Some obq → obj_name ob = Some (Some n) →
    obj_name obq = Some (Some n) → obj_owner ob F_name_entry ≠ obj_owner obq F_name_entry;
  sh_tables q obq t : q ≠ p → H.objs s !! q = Some obq → t ∈ tables ob → t ∉ tables obq;
  sh_vrs t vr obv : t ∈ tables ob → own s (vr, F_rules_entry) = Some (t, F_rules_list) →
    H.objs s !! vr = Some obv → is_new ob → is_new obv;
  sh_vr t q obq : own s (p, F_rules_entry) = Some (t, F_rules_list) → q ≠ p →
    H.objs s !! q = Some obq → t ∈ tables obq → is_new obq → is_new ob }.

Section step.
Context (s s' : heap) (p : ptr) (Hinv : inv s) (Hfr : frame p s s').

Lemma step_obj q ob :
  q ≠ p → H.objs s' !! q = Some ob →
  H.objs s !! q = Some ob ∨ ∃ x y, H.objs s !! q = Some (OCtx x) ∧ ob = OCtx y.
Proof using Hfr. intros Hq Hob. eapply similar_inv; [by apply Hfr|done]. Qed.

(** The parts of the invariant about the objects other than [p]. *)
Lemma step_local q ob :
  (∀ r o, r ∈ obj_refs ob → H.objs s !! r = Some o → ∃ o', H.objs s' !! r = Some o' ∧ compat o o') →
  (∀ f h, own s (q, f) = Some h → ∀ P, closed P → obj_at s h.1 P → obj_at s' h.1 P) →
  q ≠ p → H.objs s' !! q = Some ob → local_ok s' q ob.
Proof using Hinv Hfr.
  intros Hrefs Heng Hq Hob.
  assert (Hown : ∀ f, own s' (q, f) = own s (q, f)) by (intros f; by apply Hfr).
  assert (Hpair : ∀ P, closed P → obj_at s q P → obj_at s' q P).
  { intros P HP HPq. eapply obj_at_compat; [done| |done]. intros o Ho.
    eapply similar_some; [by apply Hfr|done]. }
  destruct (step_obj q ob Hq Hob) as [Ho|(x & y & Ho & ->)].
  - split.
    + intros f Hf. rewrite Hown. by apply Hinv.
    + intros f Hf. apply Hfr; [done|]. by eapply Hinv.
    + intros Hn. rewrite (fr_entry _ _ _ Hfr) by done. by eapply Hinv.
    + eapply Pos.lt_le_trans; [by eapply (inv_fresh s Hinv)|apply Hfr].
    + eapply refs_frame; [by apply (inv_refs s Hinv)|done|done].
    + pose proof (inv_embedded s Hinv q ob Ho) as He.
      destruct ob; try done; simpl in *; destruct_and?; split_and?; by apply Hfr.
    + intros f h Hf Hof. rewrite Hown in Hof. pose proof (inv_engine s Hinv q f h Hf Hof) as He.
      destruct f; try done; simpl in *; destruct_and?; split_and?; try done;
        first [eapply Heng; [done|eauto with closed|done] | apply Hpair; [eauto with closed|done]].
  - split; try done.
    + intros f Hf. rewrite Hown, (inv_own s Hinv q _ f Ho Hf). by destruct f.
    + intros f Hf. apply Hfr; [done|]. by eapply (inv_heads s Hinv _ _ _ Ho).
    + eapply Pos.lt_le_trans; [by eapply (inv_fresh s Hinv)|apply Hfr].
    + intros f h Hf Hof. rewrite Hown in Hof. pose proof (inv_engine s Hinv q f h Hf Hof) as He.
      destruct f; try done; simpl in *; destruct_and?; split_and?; try done;
        first [eapply Heng; [done|eauto with closed|done] | apply Hpair; [eauto with closed|done]].
Qed.

(** Objects that are not contexts are the same. *)
Lemma step_same q ob : q ≠ p → H.objs s' !! q = Some ob → ¬ is_ctx ob → H.objs s !! q = Some ob.
Proof using Hfr. intros Hq Hob Hc. by destruct (step_obj q ob Hq Hob) as [?|(x & y & ? & ->)]. Qed.

Lemma named_no_ctx ob n : obj_name ob = Some n → ¬ is_ctx ob.
Proof. intros Hn Hc. by destruct ob. Qed.
Lemma tables_no_ctx ob t : t ∈ tables ob → ¬ is_ctx ob.
Proof. intros Ht Hc. destruct ob; try done. by apply not_elem_of_nil in Ht. Qed.

(** The invariant from its parts. *)
Lemma inv_assemble :
  (∀ q ob, H.objs s' !! q = Some ob → local_ok s' q ob) →
  (∀ ob, H.objs s' !! p = Some ob → shared_ok s' p ob) →
  (H.objs s' !! p = None → ∀ f, own s' (p, f) = None ∧ H.lists s' !! (p, f) = None) →
  inv s'.
Proof using Hinv Hfr.
  intros Hl Hsh Hnone. split.
  - apply Hfr, Hinv.
  - intros q ob f Hq. by apply Hl.
  - intros q f Hq. destruct (decide (q = p)) as [->|Hne]; [by apply Hnone|].
    rewrite (fr_own _ _ _ Hfr) by done. apply Hinv. eapply similar_none; [by apply Hfr|done].
  - intros q ob f Hq. by apply Hl.
  - intros q f Hq. destruct (decide (q = p)) as [->|Hne]; [by apply Hnone|].
    apply eq_None_not_Some. rewrite (fr_lists _ _ _ Hfr) by done. apply eq_None_not_Some, Hinv.
    eapply similar_none; [by apply Hfr|done].
  - intros q ob Hq. by apply Hl.
  - intros q ob Hq. by eapply Hl.
  - intros q ob Hq. by apply Hl.
  - intros q ob Hq. by apply Hl.
  - intros q f h Hf Ho. destruct (H.objs s' !! q) as [ob|] eqn:Hq; [by eapply Hl|].
    destruct (decide (q = p)) as [->|Hne]; [by rewrite (proj1 (Hnone Hq f)) in Ho|].
    rewrite (fr_own _ _ _ Hfr) in Ho by done. rewrite (inv_own_dead s Hinv) in Ho; [done|].
    eapply similar_none; [by apply Hfr|done].
  - intros q r obq obr n Hq Hr Hnq Hnr Heq.
    destruct (decide (q = p)) as [->|Hqp], (decide (r = p)) as [->|Hrp]; [done|..].
    + exfalso. by eapply (sh_names _ _ _ (Hsh _ Hq) r).
    + exfalso. by eapply (sh_names _ _ _ (Hsh _ Hr) q).
    + eapply (inv_names s Hinv); [eapply step_same..| | |done]; eauto using named_no_ctx.
  - intros q r obq obr t Hq Hr Htq Htr.
    destruct (decide (q = p)) as [->|Hqp], (decide (r = p)) as [->|Hrp]; [done|..].
    + exfalso. by eapply (sh_tables _ _ _ (Hsh _ Hq) r).
    + exfalso. by eapply (sh_tables _ _ _ (Hsh _ Hr) q).
    + eapply (inv_tables s Hinv); [eapply step_same..| |]; eauto using tables_no_ctx.
  - intros q ob t vr obv Hq Ht Ho Hv Hnew. destruct (decide (q = p)) as [->|Hqp].
    { by eapply (sh_vrs _ _ _ (Hsh _ Hq)). }
    destruct (decide (vr = p)) as [->|Hvp].
    { by eapply (sh_vr _ _ _ (Hsh _ Hv) t q). }
    apply step_same in Hq; [|done|by eapply tables_no_ctx].
    rewrite (fr_own _ _ _ Hfr) in Ho by done.
    pose proof (inv_engine s Hinv vr F_rules_entry _ eq_refl Ho) as (_ & (ov & Hov & Hk) & _).
    assert (obv = ov) as ->.
    { destruct (step_obj vr obv Hvp Hv) as [?|(x & y & ? & ->)]; simplify_eq; done. }
    by eapply (inv_vrs s Hinv q ob t vr ov).
Qed.

(** Objects that are not [p] are still what others rely on. *)
Lemma step_compat r o :
  r ≠ p → H.objs s !! r = Some o → ∃ o', H.objs s' !! r = Some o' ∧ compat o o'.
Proof using Hfr. intros Hr Ho. eapply similar_some; [by apply Hfr|done]. Qed.

Lemma step_at r P : r ≠ p → closed P → obj_at s r P → obj_at s' r P.
Proof using Hfr. intros Hr HP Hat. eapply obj_at_compat; [done| |done]. intros o. by apply step_compat. Qed.

Lemma inv_create ob :
  H.objs s !! p = None → H.objs s' !! p = Some ob → local_ok s' p ob → shared_ok s' p ob → inv s'.
Proof using Hinv Hfr.
  intros Hp Hp' Hl Hsh. apply inv_assemble.
  - intros q obq Hq. destruct (decide (q = p)) as [->|Hne]; [by simplify_eq|].
    apply step_local; [| |done..].
    + intros r o _ Hr. apply step_compat; [|done]. intros ->. by simplify_eq.
    + intros f [h g] Ho P HP Hat. apply step_at; [|done..]. destruct Hat as (o & Hh & _).
      simpl in *. intros ->. by simplify_eq.
  - intros ob' Hob'. by simplify_eq.
  - by rewrite Hp'.
Qed.

Lemma inv_change o ob :
  H.objs s !! p = Some o → H.objs s' !! p = Some ob → compat o ob → local_ok s' p ob →
  shared_ok s' p ob → inv s'.
Proof using Hinv Hfr.
  intros Hp Hp' Hc Hl Hsh.
  assert (Hcomp : ∀ r o1, H.objs s !! r = Some o1 → ∃ o', H.objs s' !! r = Some o' ∧ compat o1 o').
  { intros r o1 Ho1. destruct (decide (r = p)) as [->|Hne]; [|by apply step_compat].
    simplify_eq. eauto. }
  apply inv_assemble.
  - intros q obq Hq. destruct (decide (q = p)) as [->|Hne]; [by simplify_eq|].
    apply step_local; [| |done..]; [intros r o1 _; apply Hcomp|].
    intros f h Ho P HP Hat. eapply obj_at_compat; [done|apply Hcomp|done].
  - intros ob' Hob'. by simplify_eq.
  - by rewrite Hp'.
Qed.

Lemma inv_free :
  H.objs s' !! p = None → (∀ f, own s' (p, f) = None ∧ H.lists s' !! (p, f) = None) →
  (∀ q ob, q ≠ p → H.objs s !! q = Some ob → p ∉ obj_refs ob) →
  (∀ q f g, q ≠ p → own s (q, f) ≠ Some (p, g)) → inv s'.
Proof using Hinv Hfr.
  intros Hp' Hown Hrefs Hlinks. apply inv_assemble.
  - intros q obq Hq. destruct (decide (q = p)) as [->|Hne]; [by simplify_eq|].
    apply step_local; [| |done..].
    + intros r o Hr Ho. apply step_compat; [|done]. intros ->.
      destruct (step_obj q obq Hne Hq) as [?|(x & y & ? & ->)]; [by eapply Hrefs|].
      by apply not_elem_of_nil in Hr.
    + intros f [h g] Ho P HP Hat. apply step_at; [|done..]. simpl. intros ->. by eapply Hlinks.
  - intros ob' Hob'. by simplify_eq.
  - done.
Qed.
End step.

(** ** Changes that keep the links of an object *)

Definition same_shape (o o' : obj) : Prop :=
  match o, o' with
  | OCtx _, OCtx _ => True
  | OSettings x, OSettings y => Settings.ctx y = Settings.ctx x ∧ Settings.name y = Settings.name x
  | OPhys x, OPhys y => Phys.ctx y = Phys.ctx x ∧ Phys.name y = Phys.name x
  | ONet x, ONet y =>
      Net.ctx y = Net.ctx x ∧ Net.settings y = Net.settings x ∧ Net.name y = Net.name x
  | OPa x, OPa y => Pa.net y = Pa.net x ∧ Pa.phys y = Pa.phys x
  | OVirt x, OVirt y =>
      Virt.network y = Virt.network x ∧ Virt.connected_through y = Virt.connected_through x ∧
      Virt.name y = Virt.name x ∧ tables o' = tables o
  | ORpa x, ORpa y => y = x
  | ORvirt x, ORvirt y => y = x
  | OVrPrio _, OVrPrio _ | OVr _, OVr _ | ORsPrio _, ORsPrio _ | OFlower _, OFlower _
  | OBFilter _, OBFilter _ | OBrAction _, OBrAction _ | OFwdRule _, OFwdRule _ => True
  | _, _ => False
  end ∧ (is_new o' ↔ is_new o).

Ltac shape_eq :=
  destruct_and?; repeat match goal with H : _ = _ |- _ => rewrite H; clear H end; done.

Section same_shape.
Context (o o' : obj) (Hsh : same_shape o o').

Lemma same_shape_new : is_new o' ↔ is_new o.
Proof using Hsh. apply Hsh. Qed.
Lemma same_shape_compat : compat o o'.
Proof using Hsh. destruct Hsh as [? [? _]], o, o'; simpl in *; try done; naive_solver. Qed.
Lemma same_shape_owner f : obj_owner o' f = obj_owner o f.
Proof using Hsh. destruct Hsh as [? _], o, o', f; simpl in *; try done; shape_eq. Qed.
Lemma same_shape_name : obj_name o' = obj_name o.
Proof using Hsh. destruct Hsh as [? _], o, o'; simpl in *; try done; shape_eq. Qed.
Lemma same_shape_tables : tables o' = tables o.
Proof using Hsh. destruct Hsh as [? _], o, o'; simpl in *; try done; shape_eq. Qed.
Lemma same_shape_refs s p : refs_ok s p o → refs_ok s p o'.
Proof using Hsh.
  pose proof same_shape_tables as Ht. destruct Hsh as [Hk Hn]. unfold refs_ok, settled, obj_at.
  destruct o, o'; try done; destruct_and?; simpl in Ht; try congruence;
    repeat match goal with H : _ = _ |- _ => rewrite H end; try done.
  all: setoid_rewrite Hn; done.
Qed.
End same_shape.

Lemma same_shape_refl o : same_shape o o.
Proof. by split; [destruct o|]. Qed.

Lemma inv_update s s' p o o' :
  inv s → frame p s s' → H.objs s !! p = Some o → H.objs s' !! p = Some o' → same_shape o o' →
  H.lists s' = H.lists s →
  (∀ f, is_Some (H.ifs s !! (p, f)) → is_Some (H.ifs s' !! (p, f))) →
  (∀ f, is_Some (H.rules s !! (p, f)) → is_Some (H.rules s' !! (p, f))) →
  inv s'.
Proof.
  intros Hinv Hfr Hp Hp' Hsh Hl Hifs Hrules.
  pose proof (same_shape_compat _ _ Hsh) as Hc.
  assert (Hcomp : ∀ r o1, H.objs s !! r = Some o1 → ∃ o2, H.objs s' !! r = Some o2 ∧ compat o1 o2).
  { intros r o1 Ho1. destruct (decide (r = p)) as [->|Hne]; [|by eapply step_compat].
    simplify_eq. eauto. }
  eapply (inv_change s s' p Hinv Hfr o o'); [done..| |]; split; rewrite ?Hl.
  - intros f Hf. rewrite (same_shape_owner _ _ Hsh). by apply Hinv.
  - intros f Hf. rewrite (compat_heads _ _ Hc) in Hf. by eapply Hinv.
  - rewrite (same_shape_name _ _ Hsh). by apply Hinv.
  - eapply Pos.lt_le_trans; [by eapply (inv_fresh s Hinv)|apply Hfr].
  - eapply refs_frame; [eapply same_shape_refs; [done|by apply (inv_refs s Hinv)]| |by rewrite Hl].
    intros r o1 _. apply Hcomp.
  - pose proof (inv_embedded s Hinv p o Hp) as He. destruct o, o'; try done; simpl in *; naive_solver.
  - intros f h Hf Ho. pose proof (inv_engine s Hinv p f h Hf Ho) as He.
    destruct f; try done; simpl in *; destruct_and?; split_and?; try done;
      (eapply obj_at_compat; [done|apply Hcomp|eauto with closed]).
  - intros q obq n Hq Hoq Hn Hnq Heq. rewrite (same_shape_name _ _ Hsh) in Hn.
    rewrite (same_shape_owner _ _ Hsh) in Heq. apply Hq.
    eapply (inv_names s Hinv q p obq o); try done. eapply step_same; eauto using named_no_ctx.
  - intros q obq t Hq Hoq Ht Htq. rewrite (same_shape_tables _ _ Hsh) in Ht. apply Hq.
    eapply (inv_tables s Hinv q p obq o); try done. eapply step_same; eauto using tables_no_ctx.
  - intros t vr obv Ht Ho Hv Hnew. rewrite (same_shape_tables _ _ Hsh) in Ht.
    rewrite (same_shape_new _ _ Hsh) in Hnew.
    pose proof (inv_engine s Hinv vr F_rules_entry _ eq_refl Ho) as (_ & (ov & Hov & Hk) & _).
    assert (is_new ov) by by eapply (inv_vrs s Hinv p o).
    destruct (decide (vr = p)) as [->|Hvp].
    + simplify_eq. by apply (same_shape_new _ _ Hsh).
    + destruct (step_obj _ _ _ Hfr vr obv Hvp Hv) as [?|(x & y & ? & ->)]; by simplify_eq.
  - intros t q obq Ho Hq Hoq Ht Hnew. apply (same_shape_new _ _ Hsh).
    eapply (inv_vrs s Hinv q obq t p o); try done. eapply step_same; eauto using tables_no_ctx.
Qed.

(** ** Out of memory *)

(** The program did not ask for [abort] when memory runs out, or memory does not run out. *)
Definition no_abort (s : heap) : Prop :=
  out_of_memory s → ∀ c x, H.objs s !! c = Some (OCtx x) → Ctx.nomem_cb x ≠ Some lsdn_abort_cb.

Lemma frame_oom p s s' : frame p s s' → out_of_memory s' ↔ out_of_memory s.
Proof. intros Hfr. unfold out_of_memory. by rewrite (fr_env _ _ _ Hfr). Qed.

Lemma frame_no_abort p s s' :
  frame p s s' → no_abort s → (∀ x, H.objs s' !! p ≠ Some (OCtx x)) → no_abort s'.
Proof.
  intros Hfr Hna Hp Hoom c x Hc. rewrite (frame_oom p s s') in Hoom by done.
  destruct (decide (c = p)) as [->|Hne]; [by destruct (Hp x)|].
  destruct (fr_objs _ _ _ Hfr c Hne) as [Hs|(y & z & Hy & Hz & Hn)].
  - rewrite Hs in Hc. by eapply Hna.
  - rewrite Hz in Hc. simplify_eq. rewrite Hn. by eapply Hna.
Qed.
