(* ===== verification/Names.v ===== *)
(** * Linking one object, and the name tables ([netmodel/names.c])

    The list operations as steps that move one entry of one object ([relinked]), and what the
    functions on names do: a name table holds the objects with a name, [lsdn_names_search] finds
    the one with a given name, [lsdn_name_set] keeps names unique. *)

From Stdlib Require Import ZArith Lia.
From stdpp Require Import base list gmap strings pretty.
From S2P Require Import Prelude.
From S2P Require Import LStore.
From S2P Require Import Status.
From S2P Require Import Heap.
From S2P Require Import Base.
From S2P Require Import Wp.
From S2P Require Import Inv.

(** ** One entry moves *)

(** From [s] to [s'], entry [f] of object [p] went to the list [h], or to no list. *)
Record relinked (s s' : heap) (p : ptr) (f : field) (h : option addr) : Prop := {
  rl_frame : frame p s s';
  rl_wf : Store.wf (H.lists s');
  rl_own : own s' (p, f) = h;
  rl_own_ne g : g ≠ f → own s' (p, g) = own s (p, g);
  rl_lists_ne g : g ≠ f → H.lists s' !! (p, g) = H.lists s !! (p, g);
  rl_alone : h = None → H.lists s' !! (p, f) = Some [];
  rl_objs : H.objs s' = H.objs s;
  rl_ifs : H.ifs s' = H.ifs s;
  rl_rules : H.rules s' = H.rules s;
  rl_next : H.next_ptr s' = H.next_ptr s;
  rl_env : H.env s' = H.env s;
  rl_allocs : H.allocs s' = H.allocs s }.

(** The heads of lists that are joined from other objects. *)
Definition foreign (p : ptr) (k : addr) : Prop := k.1 ≠ p ∧ k.2 ≠ F_name_entry.

Lemma wp_start p f s Q :
  Store.wf (H.lists s) → Store.unlinked (H.lists s) (p, f) = true →
  (∀ s', relinked s s' p f None → Q tt s') → wp (list_init (p, f)) s Q.
Proof.
  intros Hwf Hun HQ. apply wp_init; [done..|]. intros L HL. apply HQ.
  pose proof HL as (Hwf' & He & Hl & Ho). split; simpl; try done.
  - by eapply frame_init.
  - rewrite Ho. apply Store.unlinked_true in Hun as [Hfree _]; [|done].
    destruct (own s (p, f)) as [k|] eqn:E; [|done].
    apply Store.owner_Some in E as (l & Hk & Hin); [|done]. by destruct (Hfree k l).
  - intros g Hg. by rewrite Hl by congruence.
Qed.

Lemma linked_relinked s L p f k :
  linked (H.lists s) L k (p, f) → foreign p k → relinked s (H.set_lists L s) p f (Some k).
Proof.
  intros HL [Hk1 Hk2]. pose proof HL as (Hwf' & He & (l & Hk & Hk') & Hl & Ho). split; simpl; try done.
  - by eapply frame_link.
  - rewrite Ho. by rewrite decide_True.
  - intros g Hg. rewrite Ho. by rewrite decide_False by congruence.
  - intros g Hg. rewrite Hl; [done| |congruence]. by intros <-.
Qed.

Lemma wp_enter p f k s Q :
  Store.wf (H.lists s) → Store.unlinked (H.lists s) (p, f) = true → is_Some (H.lists s !! k) →
  foreign p k → (∀ s', relinked s s' p f (Some k) → Q tt s') → wp (list_init_add k (p, f)) s Q.
Proof.
  intros Hwf Hun Hk Hf HQ. apply wp_link; [done..| |].
  { intros ->. by destruct Hf. }
  intros L HL. apply HQ. by apply linked_relinked.
Qed.

Lemma wp_join p f k s Q :
  Store.wf (H.lists s) → own s (p, f) = None → H.lists s !! (p, f) = Some [] →
  is_Some (H.lists s !! k) → foreign p k →
  (∀ s', relinked s s' p f (Some k) → Q tt s') → wp (list_add k (p, f)) s Q.
Proof.
  intros Hwf Ho He Hk Hf HQ. apply wp_add; [done..| |].
  { intros ->. by destruct Hf. }
  intros L HL. apply HQ. by apply linked_relinked.
Qed.

Lemma wp_leave p f k s Q :
  Store.wf (H.lists s) → own s (p, f) = Some k → foreign p k →
  (∀ s', relinked s s' p f None → Q tt s') → wp (list_remove (p, f)) s Q.
Proof.
  intros Hwf Ho [Hk1 Hk2] HQ. apply (wp_unlink k); [done..|].
  intros L HL. apply HQ. pose proof HL as (Hwf' & He & (l & Hk & Hin & Hk') & Hl & Ho').
  split; simpl; try done.
  - by eapply frame_unlink.
  - rewrite Ho'. by rewrite decide_True.
  - intros g Hg. rewrite Ho'. by rewrite decide_False by congruence.
  - intros g Hg. rewrite Hl; [done| |congruence]. by intros <-.
Qed.

(** The lists of the other objects stay where they are. *)
Lemma rl_head s s' p f h k :
  relinked s s' p f h → k.1 ≠ p → is_Some (H.lists s !! k) → is_Some (H.lists s' !! k).
Proof. intros Hr Hk. destruct k as [q g]. by apply (fr_lists _ _ _ (rl_frame _ _ _ _ _ Hr)). Qed.

(** Reads the state after some moves back from the states before them. *)
Ltac track :=
  repeat first
  [ progress simpl
  | match goal with
    | H : relinked ?s ?s' ?p ?f ?h |- context [H.objs ?s'] => rewrite (rl_objs _ _ _ _ _ H)
    | H : relinked ?s ?s' ?p ?f ?h |- context [H.ifs ?s'] => rewrite (rl_ifs _ _ _ _ _ H)
    | H : relinked ?s ?s' ?p ?f ?h |- context [H.rules ?s'] => rewrite (rl_rules _ _ _ _ _ H)
    | H : relinked ?s ?s' ?p ?f ?h |- context [H.next_ptr ?s'] => rewrite (rl_next _ _ _ _ _ H)
    | H : relinked ?s ?s' ?p ?f ?h |- context [H.env ?s'] => rewrite (rl_env _ _ _ _ _ H)
    | H : relinked ?s ?s' ?p ?f ?h |- context [H.allocs ?s'] => rewrite (rl_allocs _ _ _ _ _ H)
    | H : relinked ?s ?s' ?p ?f ?h |- context [own ?s' (?p, ?f)] => rewrite (rl_own _ _ _ _ _ H)
    | H : relinked ?s ?s' ?p ?f ?h |- context [own ?s' (?p, ?g)] =>
        rewrite (rl_own_ne _ _ _ _ _ H g) by done
    | H : relinked ?s ?s' ?p ?f None |- context [H.lists ?s' !! (?p, ?f)] =>
        rewrite (rl_alone _ _ _ _ _ H eq_refl)
    | H : relinked ?s ?s' ?p ?f ?h |- context [H.lists ?s' !! (?p, ?g)] =>
        rewrite (rl_lists_ne _ _ _ _ _ H g) by done
    end ].

(** ** Names *)

Lemma wp_get_name p ob n s Q :
  H.objs s !! p = Some ob → obj_name ob = Some n → Q n s → wp (get_name p) s Q.
Proof.
  intros Hp Hn HQ. unfold get_name. rewrite wp_bind, wp_get_obj. eexists. split; [done|].
  rewrite wp_live. eauto.
Qed.

Lemma wp_put_name p n ob n' s Q :
  H.objs s !! p = Some ob → obj_name ob = Some n' →
  Q tt (H.set_objs (<[p := obj_set_name n ob]> (H.objs s)) s) → wp (put_name p n) s Q.
Proof.
  intros Hp Hn HQ. unfold put_name. rewrite wp_bind, wp_get_obj. eexists. split; [done|].
  rewrite wp_bind, wp_live. eexists. split; [done|]. by rewrite wp_put_obj.
Qed.

Lemma obj_set_name_name n n' ob : obj_name ob = Some n → obj_name (obj_set_name n' ob) = Some n'.
Proof. by destruct ob. Qed.
Lemma obj_set_name_twice n n' ob : obj_set_name n' (obj_set_name n ob) = obj_set_name n' ob.
Proof. by destruct ob. Qed.
Lemma obj_set_name_same ob n : obj_name ob = Some n → obj_set_name n ob = ob.
Proof. destruct ob; try done; destruct x; simpl; intros; by simplify_eq. Qed.

(** The entry of a name: in a table of another object, or alone. *)
Definition name_entry_ok (s : heap) (p : ptr) : Prop :=
  match own s (p, F_name_entry) with
  | Some k => foreign p k
  | None => H.lists s !! (p, F_name_entry) = Some []
  end.

Lemma wp_name_free p ob n s Q :
  Store.wf (H.lists s) → H.objs s !! p = Some ob → obj_name ob = Some n → name_entry_ok s p →
  (∀ s', relinked (H.set_objs (<[p := obj_set_name None ob]> (H.objs s)) s) s' p F_name_entry None →
         Q tt s') →
  wp (lsdn_name_free p) s Q.
Proof.
  intros Hwf Hp Hn He HQ. unfold lsdn_name_free. rewrite wp_bind. eapply wp_get_name; [done..|].
  rewrite wp_bind. eapply wp_put_name; [done..|]. rewrite wp_bind.
  unfold name_entry_ok in He. destruct (own s (p, F_name_entry)) as [k|] eqn:Ho.
  - eapply wp_empty_entry; [done..|]. eapply wp_leave; [done..|]. done.
  - eapply wp_empty_head; [done|]. rewrite bool_decide_eq_true_2 by done. rewrite wp_ret.
    apply HQ. split; try done. apply frame_refl.
Qed.

(** The members of a name table have names. *)
Definition names_table (s : heap) (l : list addr) : Prop :=
  ∀ e, e ∈ l → ∃ ob n, H.objs s !! e.1 = Some ob ∧ obj_name ob = Some (Some n).

Definition found_in (s : heap) (l : list addr) (key : string) (r : option ptr) : Prop :=
  match r with
  | Some q => ∃ e ob, e ∈ l ∧ e.1 = q ∧ H.objs s !! q = Some ob ∧ obj_name ob = Some (Some key)
  | None => ∀ e ob, e ∈ l → H.objs s !! e.1 = Some ob → obj_name ob ≠ Some (Some key)
  end.

Lemma wp_search_loop key l s Q :
  names_table s l → (∀ r, found_in s l key r → Q r s) → wp (search_loop key (fst <$> l)) s Q.
Proof.
  revert Q. induction l as [|e l IH]; intros Q Hl HQ; simpl.
  - rewrite wp_ret. apply HQ. intros e ob []%not_elem_of_nil.
  - destruct (Hl e) as (ob & n & He & Hn); [set_solver|].
    rewrite wp_bind. eapply wp_get_name; [done..|].
    rewrite wp_bind, wp_deref. eexists. split; [done|]. case_bool_decide as Hk.
    + rewrite wp_ret. apply HQ. exists e, ob. subst n. split; [set_solver|done].
    + apply IH; [intros e' He'; apply Hl; set_solver|]. intros r Hr. apply HQ.
      destruct r as [q|]; simpl in *.
      * destruct Hr as (e' & ob' & ? & ?). exists e', ob'. split; [set_solver|done].
      * intros e' ob' [->|He']%elem_of_cons Hob'; [|by eapply Hr]. congruence.
Qed.

Lemma wp_names_search tab l key s Q :
  H.lists s !! tab = Some l → names_table s l →
  (∀ r, found_in s l key r → Q r s) → wp (lsdn_names_search tab (Some key)) s Q.
Proof.
  intros Hl Ht HQ. unfold lsdn_names_search. rewrite wp_bind. eapply wp_list_get; [done|].
  by apply wp_search_loop.
Qed.

(** What [lsdn_name_set] answers and does. *)
Inductive name_set_post (s : heap) (p : ptr) (ob : obj) (tab : addr) (l : list addr) (str : string) :
  lsdn_err_t → heap → Prop :=
| name_kept : obj_name ob = Some (Some str) → name_set_post s p ob tab l str LSDNE_OK s
| name_duplicate q : obj_name ob ≠ Some (Some str) → found_in s l str (Some q) → name_set_post s p ob tab l str LSDNE_DUPLICATE s
| name_nomem : Env.malloc_ok (H.env s) (H.allocs s) = false → found_in s l str None →
    name_set_post s p ob tab l str LSDNE_NOMEM (H.set_allocs (S (H.allocs s)) s)
| name_given s' : found_in s l str None → frame p s s' → H.allocs s' = S (H.allocs s) →
    relinked (H.set_allocs (S (H.allocs s)) (H.set_objs (<[p := obj_set_name (Some str) ob]> (H.objs s)) s))
      s' p F_name_entry (Some tab) →
    name_set_post s p ob tab l str LSDNE_OK s'.

(** Two moves of the same entry, with a change of the object in between. *)
Lemma relinked_trans s s1 s2 p f h1 h2 :
  relinked s s1 p f h1 → relinked s1 s2 p f h2 → relinked s s2 p f h2.
Proof.
  intros H1 H2. split;
    [|exact (rl_wf _ _ _ _ _ H2)|exact (rl_own _ _ _ _ _ H2)|..|exact (rl_alone _ _ _ _ _ H2)| | | | | |].
  - eapply frame_trans; [apply H1|apply H2].
  - intros g Hg. by track.
  - intros g Hg. by track.
  - by rewrite (rl_objs _ _ _ _ _ H2), (rl_objs _ _ _ _ _ H1).
  - by rewrite (rl_ifs _ _ _ _ _ H2), (rl_ifs _ _ _ _ _ H1).
  - by rewrite (rl_rules _ _ _ _ _ H2), (rl_rules _ _ _ _ _ H1).
  - by rewrite (rl_next _ _ _ _ _ H2), (rl_next _ _ _ _ _ H1).
  - by rewrite (rl_env _ _ _ _ _ H2), (rl_env _ _ _ _ _ H1).
  - by rewrite (rl_allocs _ _ _ _ _ H2), (rl_allocs _ _ _ _ _ H1).
Qed.

Lemma put_put s p o o' n :
  H.set_objs (<[p := o']> (H.objs (H.set_objs (<[p := o]> (H.objs (H.set_allocs n s)))
    (H.set_allocs n s)))) (H.set_objs (<[p := o]> (H.objs (H.set_allocs n s))) (H.set_allocs n s))
  = H.set_allocs n (H.set_objs (<[p := o']> (H.objs s)) s).
Proof. destruct s. unfold H.set_objs, H.set_allocs. simpl. by rewrite insert_insert_eq. Qed.

(** A move does not look at the object. *)
Lemma relinked_put s s' p f h o :
  relinked s s' p f h →
  relinked (H.set_objs (<[p := o]> (H.objs s)) s) (H.set_objs (<[p := o]> (H.objs s')) s') p f h.
Proof.
  intros []. split; simpl; try done; [|congruence].
  destruct rl_frame0. split; try done. simpl. intros q Hq. rewrite !lookup_insert_ne by done. eauto.
Qed.

Lemma wp_name_set p ob n tab l str s Q :
  Store.wf (H.lists s) → H.objs s !! p = Some ob → obj_name ob = Some n → name_entry_ok s p →
  H.lists s !! tab = Some l → names_table s l → foreign p tab →
  (∀ err s', name_set_post s p ob tab l str err s' → Q err s') →
  wp (lsdn_name_set p tab (Some str)) s Q.
Proof.
  intros Hwf Hp Hn He Hl Ht Hf HQ. unfold lsdn_name_set. rewrite wp_bind. eapply wp_get_name; [done..|].
  case_bool_decide as Hk.
  { rewrite wp_ret. apply HQ, name_kept. congruence. }
  rewrite wp_bind. eapply wp_names_search; [done..|]. intros [q|] Hr.
  { rewrite wp_ret. eapply HQ, name_duplicate; [congruence|done]. }
  unfold strdup. rewrite wp_bind, wp_try_alloc. destruct (Env.malloc_ok _ _) eqn:Hm.
  2: { rewrite wp_ret. by apply HQ, name_nomem. }
  rewrite wp_bind. eapply wp_name_free; [done..|]. intros s1 R1.
  rewrite wp_bind. eapply wp_put_name; [track; by rewrite lookup_insert_eq|by eapply obj_set_name_name|].
  rewrite wp_bind. eapply wp_join; simpl; [by eapply rl_wf|by track|by track| |done|].
  { eapply rl_head; [done|apply Hf|]. by eexists. }
  intros s2 R2. rewrite wp_ret. apply HQ. rewrite obj_set_name_twice in R2.
  apply (relinked_put _ _ _ _ _ (obj_set_name (Some str) ob)) in R1.
  pose proof (relinked_trans _ _ _ _ _ _ _ R1 R2) as R.
  rewrite put_put in R.
  apply name_given; [done| | |done].
  - eapply frame_trans; [|apply R]. eapply frame_trans; [apply frame_put|]. apply (frame_alloc p _ _).
  - track. done.
Qed.
