(* ===== verification/Create.v ===== *)
(** * Names and new objects in a sound model

    What the invariant of [Inv] gives the API: [lsdn_name_set] and the name tables on objects
    of a sound model, and the constructors, which allocate an object and link it. *)

From Stdlib Require Import ZArith Lia.
From stdpp Require Import base list gmap strings pretty.
From S2P Require Import Prelude.
From S2P Require Import LStore.
From S2P Require Import Status.
From S2P Require Import Nettypes.
From S2P Require Import Heap.
From S2P Require Import Base.
From S2P Require Import Wp.
From S2P Require Import Model.
From S2P Require Import Inv.
From S2P Require Import Names.

(** ** Facts about sound models *)

Section sound.
Context (s : heap) (Hinv : inv s).

Lemma fresh_ptr p f :
  (H.next_ptr s ≤ p)%positive →
  H.objs s !! p = None ∧ own s (p, f) = None ∧ H.lists s !! (p, f) = None.
Proof using Hinv.
  intros Hp. assert (Hn : H.objs s !! p = None).
  { destruct (H.objs s !! p) eqn:E; [|done]. apply (inv_fresh s Hinv) in E. lia. }
  split_and!; [done|by apply Hinv..].
Qed.

(** Lists are joined from other objects. *)
Lemma owner_foreign p ob f k :
  H.objs s !! p = Some ob → obj_owner ob f = Some k → foreign p k.
Proof using Hinv.
  intros Hp Ho. pose proof (inv_refs s Hinv p ob Hp) as Hr. unfold refs_ok in Hr.
  destruct ob, f; simpl in Ho; try done;
    try (apply fmap_Some in Ho as (? & ? & ?)); simplify_eq;
    repeat match goal with
    | H : _ ∧ _ |- _ => destruct H
    | H : Virt.connected_through _ = Some _, H2 : ∀ a, Virt.connected_through _ = Some a → _ |- _ =>
        specialize (H2 _ H)
    end;
    obj_cases; (split; simpl; [intros ?; subst; congruence|done]).
Qed.

Lemma owned_foreign p ob f k :
  H.objs s !! p = Some ob → struct_field f = true → own s (p, f) = Some k → foreign p k.
Proof using Hinv.
  intros Hp Hf Ho. rewrite (inv_own s Hinv p ob f Hp Hf) in Ho. by eapply owner_foreign.
Qed.

Lemma name_owner_none ob : obj_name ob = Some None → obj_owner ob F_name_entry = None.
Proof. destruct ob; simpl; try done; by intros [= ->]. Qed.

Lemma name_entry_inv p ob n : H.objs s !! p = Some ob → obj_name ob = Some n → name_entry_ok s p.
Proof using Hinv.
  intros Hp Hn. unfold name_entry_ok. destruct (own s (p, F_name_entry)) as [k|] eqn:Ho.
  - by apply (owned_foreign p ob F_name_entry).
  - rewrite (inv_own s Hinv p ob F_name_entry Hp eq_refl) in Ho.
    apply (inv_name_entry s Hinv p ob); [done|].
    destruct n as [n|]; [|done]. destruct ob; simpl in *; try done; injection Hn as Hn; by rewrite Hn in Ho.
Qed.

(** The name tables. *)
Definition names_field (f : field) : bool :=
  match f with F_phys_names | F_net_names | F_setting_names | F_virt_names => true | _ => false end.

Lemma table_entry e c f :
  names_field f = true → own s e = Some (c, f) →
  e.2 = F_name_entry ∧ ∃ ob n, H.objs s !! e.1 = Some ob ∧ obj_name ob = Some (Some n) ∧
                               obj_owner ob F_name_entry = Some (c, f).
Proof using Hinv.
  intros Hf Ho. destruct e as [p g]. pose proof (own_inv s p g c f Hinv Ho) as Hi. by destruct f.
Qed.

Lemma table_inv c f l :
  names_field f = true → H.lists s !! (c, f) = Some l →
  names_table s l ∧ ∀ p ob, H.objs s !! p = Some ob → obj_owner ob F_name_entry = Some (c, f) →
                            (p, F_name_entry) ∈ l.
Proof using Hinv.
  intros Hf Hl. split.
  - intros e He. assert (Ho : own s e = Some (c, f)) by (apply Store.owner_Some; [apply Hinv|eauto]).
    apply table_entry in Ho as (_ & ob & n & ? & ? & _); eauto.
  - intros p ob Hp Ho. rewrite <-(inv_own s Hinv p ob F_name_entry Hp eq_refl) in Ho.
    apply Store.owner_Some in Ho as (l' & Hl' & Hin); [|apply Hinv]. by simplify_eq.
Qed.
End sound.

(** ** One entry of an object moves *)

Lemma inv_relink s s' p f o o' :
  inv s → frame p s s' → H.objs s !! p = Some o → H.objs s' = <[p := o']> (H.objs s) →
  compat o o' → (is_new o' ↔ is_new o) → tables o' = tables o →
  struct_field f = true → f ∉ obj_heads o → own s' (p, f) = obj_owner o' f →
  (∀ g, g ≠ f → own s' (p, g) = own s (p, g) ∧ H.lists s' !! (p, g) = H.lists s !! (p, g) ∧
                obj_owner o' g = obj_owner o g) →
  (obj_name o' = Some None → H.lists s' !! (p, F_name_entry) = Some []) →
  refs_ok s p o' → H.ifs s' = H.ifs s → H.rules s' = H.rules s →
  (∀ q obq n, q ≠ p → H.objs s !! q = Some obq → obj_name o' = Some (Some n) →
     obj_name obq = Some (Some n) → obj_owner o' F_name_entry ≠ obj_owner obq F_name_entry) →
  inv s'.
Proof.
  intros Hinv Hfr Hp Hobjs Hc Hnew Htab Hf Hnh Hown Hne Hname Hrefs Hifs Hrules Hnames.
  assert (Hp' : H.objs s' !! p = Some o') by by rewrite Hobjs, lookup_insert_eq.
  assert (Hoth : ∀ q, q ≠ p → H.objs s' !! q = H.objs s !! q) by
    (intros q Hq; by rewrite Hobjs, lookup_insert_ne).
  assert (Hcomp : ∀ r o1, H.objs s !! r = Some o1 → ∃ o2, H.objs s' !! r = Some o2 ∧ compat o1 o2).
  { intros r o1 Ho1. destruct (decide (r = p)) as [->|Hn]; [|by eapply step_compat].
    simplify_eq. eauto. }
  assert (Heng : ∀ g, struct_field g = false → own s' (p, g) = own s (p, g)).
  { intros g Hg. apply Hne. intros ->. congruence. }
  eapply (inv_change s s' p Hinv Hfr o o'); [done..| |]; split.
  - intros g Hg. destruct (decide (g = f)) as [->|Hgf]; [done|].
    destruct (Hne g Hgf) as (-> & _ & ->). by apply Hinv.
  - intros g Hg. rewrite (compat_heads _ _ Hc) in Hg.
    destruct (Hne g) as (_ & -> & _); [by intros ->|]. by eapply Hinv.
  - done.
  - eapply Pos.lt_le_trans; [by eapply (inv_fresh s Hinv)|apply Hfr].
  - eapply refs_frame; [done| |by apply Heng]. intros r o1 _. apply Hcomp.
  - pose proof (inv_embedded s Hinv p o Hp) as He. destruct o, o'; try done; simpl in *; congruence.
  - intros g h Hg Ho. rewrite Heng in Ho by done. pose proof (inv_engine s Hinv p g h Hg Ho) as He.
    destruct g; try done; simpl in *; destruct_and?; split_and?; try done;
      (eapply obj_at_compat; [done|apply Hcomp|eauto with closed]).
  - intros q obq n Hq. rewrite Hoth by done. by apply Hnames.
  - intros q obq t Hq. rewrite Hoth, Htab by done. intros Hoq Ht Htq. apply Hq.
    by eapply (inv_tables s Hinv q p obq o).
  - intros t vr obv. rewrite Htab, Hnew. intros Ht Ho Hv Hn.
    assert (Ho' : own s (vr, F_rules_entry) = Some (t, F_rules_list)).
    { destruct (decide (vr = p)) as [->|Hvp]; [by rewrite <-Heng|by rewrite <-(fr_own _ _ _ Hfr)]. }
    destruct (decide (vr = p)) as [->|Hvp].
    + simplify_eq. apply Hnew. by eapply (inv_vrs s Hinv p o).
    + rewrite Hoth in Hv by done. by eapply (inv_vrs s Hinv p o).
  - intros t q obq. rewrite Heng, Hnew by done. intros Ho Hq Hoq Ht Hn. rewrite Hoth in Hoq by done.
    by eapply (inv_vrs s Hinv q obq t p o).
Qed.

(** ** Names *)

Lemma compat_name n ob : compat ob (obj_set_name n ob).
Proof. by destruct ob; simpl. Qed.
Lemma new_name n ob : is_new (obj_set_name n ob) ↔ is_new ob.
Proof. by destruct ob. Qed.
Lemma tables_name n ob : tables (obj_set_name n ob) = tables ob.
Proof. by destruct ob. Qed.
Lemma refs_name s p n ob : refs_ok s p ob → refs_ok s p (obj_set_name n ob).
Proof. by destruct ob. Qed.
Lemma owner_name n ob g : g ≠ F_name_entry → obj_owner (obj_set_name n ob) g = obj_owner ob g.
Proof. by destruct ob, g. Qed.

(** An object changes its name. *)
Lemma inv_renamed s s' p ob n m k :
  inv s → H.objs s !! p = Some ob → obj_name ob = Some n →
  relinked (H.set_allocs k (H.set_objs (<[p := obj_set_name m ob]> (H.objs s)) s)) s' p F_name_entry
    (obj_owner (obj_set_name m ob) F_name_entry) →
  (∀ str q obq, m = Some str → q ≠ p → H.objs s !! q = Some obq → obj_name obq = Some (Some str) →
     obj_owner (obj_set_name m ob) F_name_entry ≠ obj_owner obq F_name_entry) →
  inv s'.
Proof.
  intros Hinv Hp Hn Hr Hnames. eapply (inv_relink s s' p F_name_entry ob (obj_set_name m ob)).
  - done.
  - eapply frame_trans; [|apply Hr]. eapply frame_trans; [apply frame_put|apply frame_alloc].
  - done.
  - by rewrite (rl_objs _ _ _ _ _ Hr).
  - apply compat_name.
  - apply new_name.
  - apply tables_name.
  - done.
  - destruct ob; simpl; set_solver.
  - apply Hr.
  - intros g Hg. split_and!; [by rewrite (rl_own_ne _ _ _ _ _ Hr)|by rewrite (rl_lists_ne _ _ _ _ _ Hr)|].
    by apply owner_name.
  - intros Hm. eapply rl_alone; [done|]. by apply name_owner_none.
  - by apply refs_name, Hinv.
  - apply Hr.
  - apply Hr.
  - intros q obq str Hq Hoq Hm. rewrite (obj_set_name_name n m ob Hn) in Hm. simplify_eq. eauto.
Qed.

(** The table an object with a name is in. *)
Definition name_table (ob : obj) : option addr :=
  match ob with
  | OSettings x => Some (Settings.ctx x, F_setting_names)
  | OPhys x => Some (Phys.ctx x, F_phys_names)
  | ONet x => Some (Net.ctx x, F_net_names)
  | OVirt x => Some (Virt.network x, F_virt_names)
  | _ => None
  end.

Lemma name_table_owner ob str : name_table ob = obj_owner (obj_set_name (Some str) ob) F_name_entry.
Proof. by destruct ob. Qed.
Lemma name_table_named ob n : obj_name ob = Some (Some n) → obj_owner ob F_name_entry = name_table ob.
Proof. destruct ob; simpl; try done; by intros [= ->]. Qed.
Lemma name_table_unnamed ob n : obj_name ob = Some n → is_Some (name_table ob).
Proof. destruct ob; simpl; try done; by eexists. Qed.

(** Whether [q] is the object called [key] in table [tab]. *)
Definition called (s : heap) (tab : addr) (key : string) (q : ptr) : Prop :=
  ∃ ob, H.objs s !! q = Some ob ∧ name_table ob = Some tab ∧ obj_name ob = Some (Some key).

Lemma called_unique s tab key p q : inv s → called s tab key p → called s tab key q → p = q.
Proof.
  intros Hinv (ob & Hp & Ht & Hn) (ob' & Hq & Ht' & Hn').
  eapply (inv_names s Hinv p q ob ob'); try done.
  by rewrite !(name_table_named _ key), Ht, Ht'.
Qed.

Lemma table_head s p ob tab :
  inv s → H.objs s !! p = Some ob → name_table ob = Some tab →
  names_field tab.2 = true ∧ is_Some (H.lists s !! tab) ∧ foreign p tab.
Proof.
  intros Hinv Hp Ht. pose proof (inv_refs s Hinv p ob Hp) as Hr. unfold refs_ok in Hr.
  assert (Hh : ∀ c f (P : obj → Prop), obj_at s c P → (∀ o, P o → f ∈ obj_heads o) →
                 is_Some (H.lists s !! (c, f))).
  { intros c f P (o & Ho & HP) HPf. eapply (inv_heads s Hinv); eauto. }
  destruct ob; simpl in Ht; simplify_eq; simpl; destruct_and?; split_and!; try done;
    first [ eapply Hh; [eassumption|]; intros []; simpl; intros; destruct_and?; try done; set_solver
          | split; [|done]; obj_cases; simpl; intros ?; subst; congruence ].
Qed.

Lemma found_called s c f l key r :
  inv s → names_field f = true → H.lists s !! (c, f) = Some l → found_in s l key r →
  match r with Some q => called s (c, f) key q | None => ∀ q, ¬ called s (c, f) key q end.
Proof.
  intros Hinv Hf Hl Hr. destruct (table_inv s Hinv c f l Hf Hl) as [Hnt Hin]. destruct r as [q|]; simpl in Hr.
  - destruct Hr as (e & ob & He & <- & Hob & Hn). exists ob. split; [done|]. split; [|done].
    assert (Ho : own s e = Some (c, f)) by (apply Store.owner_Some; [apply Hinv|eauto]).
    apply table_entry in Ho as (_ & ob' & n & Hob' & Hn' & Ht); [|done..].
    simplify_eq. by rewrite <-(name_table_named _ key).
  - intros q (ob & Hq & Ht & Hn). apply (Hr (q, F_name_entry) ob); [|done..].
    apply (Hin q ob); [done|]. by rewrite (name_table_named _ key).
Qed.

(** The table finds the object with the name, if there is one. *)
Lemma search_spec s c f key Q :
  inv s → names_field f = true → is_Some (H.lists s !! (c, f)) →
  (∀ r, match r with Some q => called s (c, f) key q | None => ∀ q, ¬ called s (c, f) key q end →
        Q r s) →
  wp (lsdn_names_search (c, f) (Some key)) s Q.
Proof.
  intros Hinv Hf [l Hl] HQ. eapply wp_names_search; [done|by eapply table_inv|].
  intros r Hr. apply HQ. by eapply found_called.
Qed.

(** [lsdn_name_set] on an object of a sound model. *)
Inductive set_name_post (s : heap) (p : ptr) (ob : obj) (tab : addr) (str : string) :
  lsdn_err_t → heap → Prop :=
| set_name_ok s' : (∀ q, called s tab str q → q = p) →
    H.objs s' = <[p := obj_set_name (Some str) ob]> (H.objs s) →
    set_name_post s p ob tab str LSDNE_OK s'
| set_name_taken q : called s tab str q → q ≠ p → set_name_post s p ob tab str LSDNE_DUPLICATE s
| set_name_nomem s' : Env.malloc_ok (H.env s) (H.allocs s) = false → H.objs s' = H.objs s →
    set_name_post s p ob tab str LSDNE_NOMEM s'.

Lemma inv_alloc s n : inv s → inv (H.set_allocs n s).
Proof. intros []. by split. Qed.

Lemma wp_set_name s p ob n tab str Q :
  inv s → H.objs s !! p = Some ob → obj_name ob = Some n → name_table ob = Some tab →
  (∀ err s', inv s' → frame p s s' → set_name_post s p ob tab str err s' → Q err s') →
  wp (lsdn_name_set p tab (Some str)) s Q.
Proof.
  intros Hinv Hp Hn Ht HQ. destruct (table_head s p ob tab Hinv Hp Ht) as (Hf & [l Hl] & Hfor).
  destruct tab as [c f].
  assert (Hcalled : obj_name ob = Some (Some str) → called s (c, f) str p).
  { intros Hob. by exists ob. }
  eapply wp_name_set; [apply Hinv|done|done|by eapply name_entry_inv|done|by eapply table_inv|done|].
  intros err s' Hpost. destruct Hpost as [Hk|q Hk Hq|Hm Hfr|s' Hfr F Ha R].
  - apply HQ; [done|apply frame_refl|]. constructor.
    + intros q Hq. by eapply called_unique; eauto.
    + rewrite (obj_set_name_same ob _ Hk). by rewrite insert_id.
  - destruct (decide (q = p)) as [->|Hne].
    + exfalso. by destruct Hq as (e & ob' & _ & _ & Hob' & Hn'); simplify_eq.
    + apply HQ; [done|apply frame_refl|]. econstructor; [|done].
      by apply (found_called s c f l str (Some q)).
  - apply HQ; [by apply inv_alloc|apply frame_alloc|]. by constructor.
  - apply HQ; [|done|].
    + eapply inv_renamed; [done..|by rewrite <-name_table_owner, Ht|].
      intros str' q obq [= <-] Hq Hoq Hnq. rewrite <-name_table_owner, Ht. intros Heq.
      apply (found_called s c f l str None Hinv Hf Hl Hfr q). exists obq. split; [done|].
      by rewrite <-(name_table_named obq str).
    + constructor; [|by rewrite (rl_objs _ _ _ _ _ R)]. intros q Hq.
      by destruct (found_called s c f l str None Hinv Hf Hl Hfr q).
Qed.

(** ** New objects *)

Lemma inv_new s s' p ob :
  inv s → frame p s s' → H.objs s !! p = None → H.objs s' !! p = Some ob →
  (p < H.next_ptr s')%positive → ¬ is_vr ob → tables ob = [] →
  (∀ f, own s' (p, f) = obj_owner ob f) →
  (∀ f, f ∈ obj_heads ob → is_Some (H.lists s' !! (p, f))) →
  (obj_name ob = Some None → H.lists s' !! (p, F_name_entry) = Some []) →
  refs_ok s p ob → embedded_ok s' p ob →
  (∀ str tab, obj_name ob = Some (Some str) → name_table ob = Some tab → ∀ q, ¬ called s tab str q) →
  inv s'.
Proof.
  intros Hinv Hfr Hp Hp' Hlt Hvr Htab Hown Hheads Hname Hrefs Hemb Hnames.
  assert (Hvrn : own s' (p, F_rules_entry) = None) by (rewrite Hown; by destruct ob).
  eapply (inv_create s s' p Hinv Hfr ob); [done..| |]; split; try done.
  - eapply refs_frame; [done| |].
    + intros r o _ Ho. eapply step_compat; [done| |done]. by intros ->; simplify_eq.
    + by rewrite Hvrn, (inv_own_dead s Hinv).
  - intros f h Hf Ho. rewrite Hown in Ho. by destruct ob, f.
  - intros q obq n Hq Hoq Hn Hnq Heq. rewrite (name_table_named _ n Hn) in Heq.
    rewrite (name_table_named _ n Hnq) in Heq.
    destruct (name_table_unnamed _ _ Hn) as [tab Ht]. apply (Hnames n tab Hn Ht q).
    exists obq. split_and!; [|congruence|done]. eapply step_same; eauto using named_no_ctx.
  - intros q obq t Hq Hoq Ht. rewrite Htab in Ht. by apply not_elem_of_nil in Ht.
  - intros t vr obv Ht. rewrite Htab in Ht. by apply not_elem_of_nil in Ht.
  - intros t q obq Ho. by rewrite Hvrn in Ho.
Qed.

(** Composes the frames of the steps of one object. *)
Ltac frames :=
  lazymatch goal with
  | |- frame ?p ?s ?s => apply frame_refl
  | |- frame ?p ?s (H.set_objs (<[?p := ?o]> (H.objs ?s1)) ?s1) =>
      eapply (frame_trans p s s1); [frames|apply frame_put]
  | |- frame ?p ?s (H.set_objs (<[?c := OCtx _]> (H.objs ?s1)) ?s1) =>
      eapply (frame_trans p s s1); [frames|eapply frame_ctx; [eassumption|done]]
  | |- frame ?p ?s (H.set_allocs _ ?s1) => eapply (frame_trans p s s1); [frames|apply frame_alloc]
  | |- frame ?p ?s (H.set_events _ ?s1) => eapply (frame_trans p s s1); [frames|apply frame_event]
  | |- frame ?p ?s (H.set_next_ptr _ ?s1) => eapply (frame_trans p s s1); [frames|apply frame_fresh]
  | |- frame ?p ?s (H.set_ifs (<[_ := _]> _) ?s1) => eapply (frame_trans p s s1); [frames|apply frame_if]
  | |- frame ?p ?s (H.set_ifs _ ?s1) => eapply (frame_trans p s s1); [frames|apply frame_del_if]
  | |- frame ?p ?s (H.set_rules (<[_ := _]> _) ?s1) =>
      eapply (frame_trans p s s1); [frames|apply frame_rule]
  | |- frame ?p ?s (H.set_rules _ ?s1) => eapply (frame_trans p s s1); [frames|apply frame_del_rule]
  | |- frame ?p ?s ?s2 =>
      match goal with
      | R : relinked ?s1 s2 p _ _ |- _ =>
          eapply (frame_trans p s s1); [frames|exact (rl_frame _ _ _ _ _ R)]
      | R : frame p ?s1 s2 |- _ => eapply (frame_trans p s s1); [frames|exact R]
      end
  end.

(** Side conditions of the list steps on a new object [p]: [Hf] says that it is fresh. *)
Ltac wf_ := simpl; first [eassumption | by eapply rl_wf | by apply inv_wf].
Ltac unlinked_ Hf := apply unlinked_none; [track; apply Hf|left; track; apply Hf].
Ltac head_ := simpl; repeat (eapply rl_head; [eassumption|simpl; done|]; simpl).

Lemma wp_name_init p ob n s Q :
  Store.wf (H.lists s) → Store.unlinked (H.lists s) (p, F_name_entry) = true →
  H.objs s !! p = Some ob → obj_name ob = Some n →
  (∀ s', relinked s s' p F_name_entry None →
         Q tt (H.set_objs (<[p := obj_set_name None ob]> (H.objs s')) s')) →
  wp (lsdn_name_init p) s Q.
Proof.
  intros Hwf Hun Hp Hn HQ. unfold lsdn_name_init. rewrite wp_bind. apply wp_start; [done..|].
  intros s' R. eapply wp_put_name; [by rewrite (rl_objs _ _ _ _ _ R)|done|]. by apply HQ.
Qed.

Lemma wp_nomem c s Q :
  no_abort s → out_of_memory s → obj_at s c is_ctx → (∀ l, Q tt (H.set_events l s)) →
  wp (nomem c) s Q.
Proof.
  intros Hna Hm (o & Hc & Hk) HQ. destruct o as [x| | | | | | | | | | | | | |]; try done.
  unfold nomem. hstep. specialize (Hna Hm c x Hc). destruct (Ctx.nomem_cb x) as [[|u]|]; [done|..].
  - rewrite wp_modify. apply HQ.
  - rewrite wp_ret. specialize (HQ (H.events s)). by destruct s.
Qed.

Lemma wp_ret_ptr c r s Q :
  no_abort s → (r = None → out_of_memory s) → obj_at s c is_ctx → (∀ l, Q r (H.set_events l s)) →
  wp (ret_ptr c r) s Q.
Proof.
  intros Hna Hm Hc HQ. unfold ret_ptr. destruct r as [p|].
  - rewrite wp_ret. specialize (HQ (H.events s)). by destruct s.
  - rewrite wp_bind. apply wp_nomem; [done|by apply Hm|done|]. intros l. by rewrite wp_ret.
Qed.

Lemma wp_ret_err c e s Q :
  no_abort s → (e = LSDNE_NOMEM → out_of_memory s) → obj_at s c is_ctx →
  (∀ l, Q e (H.set_events l s)) → wp (ret_err c e) s Q.
Proof.
  intros Hna Hm Hc HQ. unfold ret_err. case_bool_decide.
  - rewrite wp_bind. apply wp_nomem; [done|by apply Hm|done|]. intros l. by rewrite wp_ret.
  - rewrite wp_ret. specialize (HQ (H.events s)). by destruct s.
Qed.

Lemma inv_events s l : inv s → inv (H.set_events l s).
Proof. intros []. by split. Qed.
Lemma inv_next s : inv s → inv (H.set_next_ptr (Pos.succ (H.next_ptr s)) s).
Proof.
  intros Hinv. pose proof (inv_fresh s Hinv) as Hf. destruct Hinv. split; try done. simpl.
  intros p ob Hp. specialize (Hf p ob Hp). lia.
Qed.
#[export] Hint Resolve inv_events inv_alloc inv_next : frame.

(** Memory for a new object: nothing refers to it. *)
Record fresh (s : heap) (p : ptr) : Prop := {
  fresh_obj : H.objs s !! p = None;
  fresh_own f : own s (p, f) = None;
  fresh_list f : H.lists s !! (p, f) = None;
  fresh_lt : (p < H.next_ptr s)%positive }.

Lemma fresh_ne s p q P : fresh s p → obj_at s q P → q ≠ p.
Proof. intros Hf (o & Hq & _) ->. by rewrite (fresh_obj _ _ Hf) in Hq. Qed.

(** The lists of an object other objects join. *)
Lemma at_head s q f (P : obj → Prop) :
  inv s → obj_at s q P → (∀ o, P o → f ∈ obj_heads o) → is_Some (H.lists s !! (q, f)).
Proof. intros Hinv (o & Hq & HP) Hf. eapply (inv_heads s Hinv); eauto. Qed.

Lemma wp_malloc_inv s Q :
  inv s → no_abort s →
  (∀ s', inv s' → no_abort s' → out_of_memory s' → H.objs s' = H.objs s → (∀ p, frame p s s') →
         Q None s') →
  (∀ p s', inv s' → no_abort s' → H.objs s' = H.objs s → (∀ p, frame p s s') → fresh s' p →
           p = H.next_ptr s → Q (Some p) s') →
  wp malloc s Q.
Proof.
  intros Hinv Hna HN HS. rewrite wp_malloc. destruct (Env.malloc_ok _ _) eqn:Hm.
  - apply HS; try done.
    + by apply (inv_next (H.set_allocs _ s)), inv_alloc.
    + intros p. eapply frame_trans; [apply frame_alloc|]. apply (frame_fresh p (H.set_allocs _ s)).
    + destruct (fresh_ptr s Hinv (H.next_ptr s) F_rule) as [? _]; [done|].
      split; simpl; [done|intros f; by apply (inv_own_dead s Hinv)|intros f; by apply Hinv|lia].
  - apply HN; try done; [eauto with frame|by eexists|eauto with frame].
Qed.

(** What a constructor promises about the rest of the model: only a new object appears. *)
Definition only_new (s s' : heap) (r : option ptr) (ob : obj) : Prop :=
  ∃ p, frame p s s' ∧ H.objs s !! p = None ∧
    match r with
    | Some q => q = p ∧ H.objs s' !! p = Some ob
    | None => H.objs s' !! p = None
    end.

Lemma only_new_none s s0 l ob :
  inv s → H.objs s0 = H.objs s → (∀ p, frame p s s0) → only_new s (H.set_events l s0) None ob.
Proof.
  intros Hinv Ho F0. assert (Hn : H.objs s !! H.next_ptr s = None) by by apply (fresh_ptr s Hinv _ F_rule).
  exists (H.next_ptr s). split_and!; [|done|simpl; by rewrite Ho].
  eapply frame_trans; [apply F0|apply frame_event].
Qed.

(** The object at an address of a known kind. *)
Lemma at_obj s q ob (P : obj → Prop) : H.objs s !! q = Some ob → P ob → obj_at s q P.
Proof. intros. by exists ob. Qed.

(** The steps that link a new object. *)
Ltac start_ Hf s R := unfold lsdn_names_init; rewrite wp_bind; apply wp_start; [wf_|unlinked_ Hf|intros s R].
Ltac enter_ Hf s R :=
  rewrite wp_bind; apply wp_enter;
  [wf_|unlinked_ Hf
  |head_; eapply at_head; [eassumption|eassumption|]; intros []; simpl; try done; set_solver
  |split; simpl; done|intros s R].

(** The entries of an object all of whose links are tracked. *)
Ltac owners_ Hf := intros []; track; first [done | apply Hf].

Lemma net_new_spec s st x vnet :
  inv s → no_abort s → H.objs s !! st = Some (OSettings x) →
  wp (lsdn_net_new st vnet) s (λ r s', inv s' ∧ no_abort s' ∧
    only_new s s' r (ONet (Net.mk LSDN_STATE_NEW false None (Settings.ctx x) st (u32 vnet)))).
Proof.
  intros Hinv Hna Hst. unfold lsdn_net_new. hstep. rewrite wp_bind.
  apply wp_malloc_inv; [done..|intros s0 Hinv0 Hna0 Hm0 Ho F0|intros p s0 Hinv0 Hna0 Ho F0 Hf _];
    rewrite <-Ho in Hst; pose proof (inv_refs s0 Hinv0 _ _ Hst) as Hc; simpl in Hc.
  { apply wp_ret_ptr; [done..|]. intros l. split_and!; [eauto with frame|done|by apply only_new_none]. }
  assert (Hs : obj_at s0 st (is_settings (Settings.ctx x))) by by eapply at_obj.
  pose proof (fresh_ne _ _ _ _ Hf Hc). pose proof (fresh_ne _ _ _ _ Hf Hs).
  rewrite wp_bind, wp_put_obj. simpl.
  rewrite wp_bind. eapply wp_name_init; [wf_|unlinked_ Hf|simpl; by rewrite lookup_insert_eq|done|].
  intros s1 R1. start_ Hf s2 R2. enter_ Hf s3 R3. enter_ Hf s4 R4. start_ Hf s5 R5. start_ Hf s6 R6.
  assert (F : frame p s0 s6) by frames. specialize (F0 p).
  assert (Hobj : H.objs s6 !! p = Some (ONet (Net.mk LSDN_STATE_NEW false None (Settings.ctx x) st (u32 vnet)))).
  { track. by rewrite lookup_insert_eq. }
  split_and!; [|eapply frame_no_abort; [exact F|done|by rewrite Hobj]
    |exists p; rewrite <-Ho; split_and!; [exact (frame_trans _ _ _ _ F0 F)|apply Hf|done|done]].
  eapply (inv_new s0 s6 p); [done..|apply Hf|apply Hobj| |by intros []|done|owners_ Hf| | | |done|done].
  - track. apply Hf.
  - simpl. set_unfold. intros f [->|[->|[->|[]]]]; track; by eexists.
  - by track.
  - split; [done|]. exists (OSettings x). done.
Qed.

Lemma virt_new_spec s net x :
  inv s → no_abort s → H.objs s !! net = Some (ONet x) →
  wp (lsdn_virt_new net) s (λ r s', inv s' ∧ no_abort s' ∧
    only_new s s' r (OVirt (Virt.mk LSDN_STATE_NEW false None net None None None None None None None
                              [] []))).
Proof.
  intros Hinv Hna Hnet. unfold lsdn_virt_new. hstep. rewrite wp_bind.
  apply wp_malloc_inv; [done..|intros s0 Hinv0 Hna0 Hm0 Ho F0|intros p s0 Hinv0 Hna0 Ho F0 Hf _];
    rewrite <-Ho in Hnet; pose proof (inv_refs s0 Hinv0 _ _ Hnet) as [Hc _]; simpl in Hc.
  { apply wp_ret_ptr; [done..|]. intros l. split_and!; [eauto with frame|done|by apply only_new_none]. }
  assert (Hn : obj_at s0 net is_net) by by eapply at_obj.
  pose proof (fresh_ne _ _ _ _ Hf Hn).
  rewrite wp_bind, wp_put_obj. hstep. hstep. hstep. unfold lsdn_if_init. hstep. hstep.
  rewrite wp_bind. eapply wp_name_init; [wf_|unlinked_ Hf|simpl; by rewrite lookup_insert_eq|done|].
  intros s1 R1. enter_ Hf s2 R2. start_ Hf s3 R3.
  assert (F : frame p s0 s3) by frames. specialize (F0 p).
  assert (Hobj : H.objs s3 !! p = Some (OVirt (Virt.mk LSDN_STATE_NEW false None net None None None
                                          None None None None [] []))).
  { track. by rewrite lookup_insert_eq. }
  split_and!; [|eapply frame_no_abort; [exact F|done|by rewrite Hobj]
    |exists p; rewrite <-Ho; split_and!; [exact (frame_trans _ _ _ _ F0 F)|apply Hf|done|done]].
  eapply (inv_new s0 s3 p); [done..|apply Hf|apply Hobj| |by intros []|done|owners_ Hf| | | | |done].
  - track. apply Hf.
  - simpl. set_unfold. intros f [->|[]]; track; by eexists.
  - by track.
  - split_and!; [by exists (ONet x)|done| |constructor]. by intros q []%not_elem_of_nil.
  - simpl. split_and!; track; simplify_map_eq; by eexists.
Qed.

(** ** Attachments *)

Lemma wp_find_attachment s net l Q :
  (∀ a, a ∈ l → obj_at s a is_pa) →
  (∀ r, match r with
        | Some a => a ∈ l ∧ ∃ x, H.objs s !! a = Some (OPa x) ∧ Pa.net x = net
        | None => ∀ a x, a ∈ l → H.objs s !! a = Some (OPa x) → Pa.net x ≠ net
        end → Q r s) →
  wp (find_attachment net l) s Q.
Proof.
  revert Q. induction l as [|a l IH]; intros Q Hl HQ; simpl.
  - rewrite wp_ret. apply HQ. by intros a x []%not_elem_of_nil.
  - destruct (Hl a) as (o & Ha & Hk); [set_solver|]. destruct o as [| | | |x| | | | | | | | | |]; try done.
    hstep. case_bool_decide as Hn.
    + rewrite wp_ret. apply HQ. split; [set_solver|eauto].
    + apply IH; [set_solver|]. intros r Hr. apply HQ. destruct r as [b|].
      * destruct Hr. split; [set_solver|done].
      * intros b y [->|Hb]%elem_of_cons Hob; [by simplify_eq|eauto].
Qed.

(** The attachments of a phys. *)
Lemma attached_members s phys x :
  inv s → H.objs s !! phys = Some (OPhys x) →
  ∃ l, H.lists s !! (phys, F_attached_to_list) = Some l ∧
    ∀ e, e ∈ l ↔ ∃ y, e.2 = F_attached_to_entry ∧ H.objs s !! e.1 = Some (OPa y) ∧ Pa.phys y = phys.
Proof.
  intros Hinv Hp. destruct (list_members s Hinv phys _ F_attached_to_list Hp) as (l & Hl & Hin); [set_solver|].
  exists l. split; [done|]. intros [a f]. rewrite Hin. split.
  - intros Ho. pose proof (own_inv s a f phys F_attached_to_list Hinv Ho) as (-> & y & ? & ?). eauto.
  - simpl. intros (y & -> & Ha & Hy). by rewrite (inv_own s Hinv a _ F_attached_to_entry Ha eq_refl), <-Hy.
Qed.

(** A phys has an attachment to the network afterwards, unless memory ran out. *)
Lemma find_or_create_spec s phys net x y :
  inv s → no_abort s → H.objs s !! phys = Some (OPhys x) → H.objs s !! net = Some (ONet y) →
  wp (find_or_create_attachement phys net) s (λ r s', inv s' ∧ no_abort s' ∧ H.trace s' = H.trace s ∧
    (∀ q ob, H.objs s !! q = Some ob → H.objs s' !! q = Some ob) ∧
    match r with
    | Some a => ∃ z, H.objs s' !! a = Some (OPa z) ∧ Pa.net z = net ∧ Pa.phys z = phys
    | None => out_of_memory s'
    end).
Proof.
  intros Hinv Hna Hphys Hnet. destruct (attached_members s phys x Hinv Hphys) as (l & Hl & Hin).
  unfold find_or_create_attachement. rewrite wp_bind. eapply wp_list_get; [done|].
  rewrite wp_bind. apply wp_find_attachment.
  { intros a (e & -> & (z & _ & ? & _)%Hin)%list_elem_of_fmap. by eapply at_obj. }
  intros [a|] Hr.
  { rewrite wp_ret. split_and!; try done. destruct Hr as (Ha & z & Hz & ?).
    exists z. split_and!; try done. apply list_elem_of_fmap in Ha as (e & -> & (z' & _ & ? & ?)%Hin).
    by simplify_eq. }
  rewrite wp_bind. apply wp_malloc_inv; [done..| |].
  { intros s0 Hinv0 Hna0 Hm0 Ho F0. rewrite wp_ret. rewrite Ho. split_and!; try done. apply (F0 phys). }
  intros p s0 Hinv0 Hna0 Ho F0 Hf _. rewrite <-Ho in Hphys, Hnet |- *.
  assert (Hn : obj_at s0 net is_net) by by eapply at_obj.
  assert (Hp : obj_at s0 phys is_phys) by by eapply at_obj.
  pose proof (fresh_ne _ _ _ _ Hf Hn). pose proof (fresh_ne _ _ _ _ Hf Hp).
  rewrite wp_bind, wp_put_obj. enter_ Hf s1 R1. enter_ Hf s2 R2. start_ Hf s3 R3. start_ Hf s4 R4.
  start_ Hf s5 R5. rewrite wp_ret.
  assert (F : frame p s0 s5) by frames. specialize (F0 p).
  assert (Hobj : H.objs s5 !! p = Some (OPa (Pa.mk LSDN_STATE_NEW false net phys false))).
  { track. by rewrite lookup_insert_eq. }
  split; [|split_and!].
  - eapply (inv_new s0 s5 p); [done..|apply Hf|apply Hobj| |by intros []|done|owners_ Hf| | | | |done].
    + track. apply Hf.
    + simpl. set_unfold. intros f [->|[->|[->|[]]]]; track; by eexists.
    + done.
    + split; by eapply at_obj.
    + done.
  - eapply frame_no_abort; [done..|]. intros z. by rewrite Hobj.
  - etransitivity; [apply F|apply F0].
  - intros q ob Hq. track. rewrite lookup_insert_ne; [done|]. intros ->.
    by rewrite (fresh_obj _ _ Hf) in Hq.
  - eauto.
Qed.

(** ** Objects with generated names *)

(** The name [lsdn_mk_name] makes next. *)
Definition next_name (c : Ctx.lsdn_context) (type : string) : string :=
  String.substring 0 64 (Ctx.name c +:+ "-" +:+ type +:+ "-" +:+ pretty (Ctx.obj_count c + 1)%Z).

Lemma wp_mk_name ctx c type s Q :
  H.objs s !! ctx = Some (OCtx c) →
  Q (next_name c type)
    (H.set_objs (<[ctx := OCtx (Ctx.set_namebuf (next_name c type)
       (Ctx.set_obj_count (Ctx.obj_count c + 1) c))]> (H.objs s)) s) →
  wp (lsdn_mk_name ctx type) s Q.
Proof. intros Hc HQ. unfold lsdn_mk_name. hstep. hstep. by rewrite wp_ret. Qed.

(** A new object that was given up before it was linked anywhere. *)
Lemma inv_given_up s s' p :
  inv s → frame p s s' → H.objs s !! p = None → H.objs s' !! p = None →
  (∀ f, own s' (p, f) = None ∧ H.lists s' !! (p, f) = None) → inv s'.
Proof.
  intros Hinv Hfr Hp Hp' Hown. eapply (inv_free s s' p); try done.
  - intros q ob Hq Hob Hr. destruct (refs_live s q ob p Hinv Hob Hr) as [o Ho]. by simplify_eq.
  - intros q f g Hq Ho. apply Store.owner_Some in Ho as (l & Hl & _); [|apply Hinv].
    by rewrite (inv_lists_dead s Hinv) in Hl.
Qed.

(** The table of generated names, seen while the new object [p] is not linked yet. *)
Lemma table_fresh s s1 p c f l :
  inv s → frame p s s1 → fresh s p → Store.wf (H.lists s1) → (∀ g, own s1 (p, g) = None) →
  c ≠ p → names_field f = true → obj_at s c is_ctx → H.lists s1 !! (c, f) = Some l →
  names_table s1 l ∧
  ∀ key r, found_in s1 l key r →
    match r with Some q => called s (c, f) key q | None => ∀ q, ¬ called s (c, f) key q end.
Proof.
  intros Hinv Hfr Hf Hwf Hown Hcp Hnf (oc & Hc & Hctx) Hl1.
  assert (Hl : is_Some (H.lists s !! (c, f))).
  { apply (fr_lists _ _ _ Hfr c f Hcp). by eexists. }
  destruct Hl as [l0 Hl]. destruct (table_inv s Hinv c f l0 Hnf Hl) as [Hnt Hin].
  assert (Hmem : ∀ e, e ∈ l ↔ e ∈ l0).
  { intros [q g]. trans (own s1 (q, g) = Some (c, f)); [|trans (own s (q, g) = Some (c, f))].
    - rewrite Store.owner_Some by done. split; [eauto|]. intros (? & ? & ?). by simplify_eq.
    - destruct (decide (q = p)) as [->|Hq]; [by rewrite Hown, (fresh_own _ _ Hf)|].
      by rewrite (fr_own _ _ _ Hfr).
    - rewrite Store.owner_Some by apply Hinv. split; [|eauto]. intros (? & ? & ?). by simplify_eq. }
  assert (Hsame : ∀ e, e ∈ l0 → H.objs s1 !! e.1 = H.objs s !! e.1).
  { intros e He. destruct (Hnt e He) as (ob & n & Hob & Hn).
    assert (Hep : e.1 ≠ p) by (intros E; rewrite E, (fresh_obj _ _ Hf) in Hob; done).
    destruct (fr_objs _ _ _ Hfr e.1 Hep) as [->|(x & y & Hx & _)]; [done|]. by simplify_eq. }
  split.
  - intros e He%Hmem. rewrite Hsame by done. by apply Hnt.
  - intros key r Hr. apply (found_called s c f l0 key r); [done..|]. destruct r as [q|]; simpl in *.
    + destruct Hr as (e & ob & He%Hmem & <- & Hob & Hn). exists e, ob. by rewrite <-Hsame.
    + intros e ob He Hob. rewrite <-Hsame in Hob by done. eapply Hr; [by apply Hmem|done].
Qed.

(** A new object [ob] at [p] with a generated name. *)
Inductive generated (s : heap) (p : ptr) (ob : obj) (tab : addr) (name : string) :
  lsdn_err_t → heap → Prop :=
| generated_ok s' : frame p s s' → Store.wf (H.lists s') → no_abort s' →
    H.objs s' !! p = Some (obj_set_name (Some name) ob) →
    (∀ g, own s' (p, g) = if decide (g = F_name_entry) then Some tab else None) →
    (∀ g, g ≠ F_name_entry → H.lists s' !! (p, g) = None) → H.next_ptr s' = H.next_ptr s →
    generated s p ob tab name LSDNE_OK s'
| generated_nomem s' : frame p s s' → Store.wf (H.lists s') → no_abort s' →
    out_of_memory s' → is_Some (H.objs s' !! p) → (∀ g, own s' (p, g) = None) →
    generated s p ob tab name LSDNE_NOMEM s'.

Lemma wp_generated {B} s p ob ctx c f type (K : lsdn_err_t → M heap B) Q :
  inv s → no_abort s → fresh s p → ¬ is_ctx ob → obj_name ob = Some None →
  H.objs s !! ctx = Some (OCtx c) → names_field f = true → f ∈ obj_heads (OCtx c) →
  name_table ob = Some (ctx, f) →
  (∀ q, ¬ called s (ctx, f) (next_name c type) q) →
  (∀ err s', generated s p ob (ctx, f) (next_name c type) err s' → wp (K err) s' Q) →
  wp (_ ← lsdn_name_init p; name ← lsdn_mk_name ctx type;
      err ← lsdn_name_set p (ctx, f) (Some name); K err)
    (H.set_objs (<[p := ob]> (H.objs s)) s) Q.
Proof.
  intros Hinv Hna Hf Hnc Hn Hctx Hnf Hh Ht Hfree HQ.
  assert (Hcp : ctx ≠ p) by (eapply fresh_ne; [done|by eapply (at_obj _ _ _ is_ctx)]).
  destruct (inv_heads s Hinv _ _ _ Hctx Hh) as [l Hl].
  rewrite wp_bind. eapply wp_name_init; [wf_|unlinked_ Hf|simpl; by rewrite lookup_insert_eq|done|].
  intros s1 R1. rewrite (obj_set_name_same ob None Hn). rewrite wp_bind. eapply wp_mk_name.
  { track. by rewrite !lookup_insert_ne. }
  rewrite wp_bind. set (s2 := H.set_objs _ _).
  assert (F2 : frame p s s2).
  { subst s2. eapply frame_trans; [|eapply (frame_ctx p ctx c); [|done]].
    - frames.
    - track. by rewrite !lookup_insert_ne. }
  assert (Hp2 : H.objs s2 !! p = Some ob).
  { subst s2. track. rewrite lookup_insert_ne by done. by rewrite lookup_insert_eq. }
  assert (Hl2 : is_Some (H.lists s2 !! (ctx, f))) by (apply F2; [done|by eexists]).
  destruct Hl2 as [l2 Hl2].
  assert (Hown2 : ∀ g, own s2 (p, g) = None).
  { intros g. subst s2. simpl. destruct (decide (g = F_name_entry)) as [->|Hg]; [apply R1|].
    rewrite (rl_own_ne _ _ _ _ _ R1 g Hg). apply Hf. }
  assert (Hwf2 : Store.wf (H.lists s2)) by (apply (rl_wf _ _ _ _ _ R1)).
  assert (Hne2 : name_entry_ok s2 p).
  { unfold name_entry_ok. rewrite Hown2. apply (rl_alone _ _ _ _ _ R1 eq_refl). }
  destruct (table_fresh s s2 p ctx f l2) as [Hnt Hfound]; try done.
  { by eapply at_obj. }
  assert (Hna2 : no_abort s2).
  { eapply frame_no_abort; [done..|]. intros x Hx. by simplify_eq. }
  eapply wp_name_set; try done. { by destruct f. }
  intros err s' Hpost. destruct Hpost as [Hk|q _ Hq|Hm Hr|s' Hr F Ha R].
  - congruence.
  - by destruct (Hfree q (Hfound _ _ Hq)).
  - apply HQ. constructor; try done; [|by eexists]. eapply frame_trans; [done|apply frame_alloc].
  - apply HQ. constructor.
    + by eapply frame_trans.
    + by eapply rl_wf.
    + eapply frame_no_abort; [done..|]. intros x. rewrite (rl_objs _ _ _ _ _ R). simpl.
      rewrite lookup_insert_eq. intros ?. by destruct ob.
    + rewrite (rl_objs _ _ _ _ _ R). simpl. by rewrite lookup_insert_eq.
    + intros g. case_decide as Hg; [subst g; apply R|].
      rewrite (rl_own_ne _ _ _ _ _ R g Hg). apply Hown2.
    + intros g Hg. rewrite (rl_lists_ne _ _ _ _ _ R g Hg). subst s2. simpl.
      rewrite (rl_lists_ne _ _ _ _ _ R1 g Hg). apply Hf.
    + rewrite (rl_next _ _ _ _ _ R). subst s2. simpl. by rewrite (rl_next _ _ _ _ _ R1).
Qed.

(** Giving up the memory of an object. *)
Definition freed (p : ptr) (s : heap) : heap :=
  H.set_lists (filter (λ kv : addr * list addr, kv.1.1 ≠ p) (H.lists s))
    (H.set_objs (delete p (H.objs s)) s).

Lemma freed_spec p s :
  Store.wf (H.lists s) → (∀ q f g, q ≠ p → own s (q, f) ≠ Some (p, g)) → (∀ f, own s (p, f) = None) →
  frame p s (freed p s) ∧ H.objs (freed p s) !! p = None ∧
  ∀ f, own (freed p s) (p, f) = None ∧ H.lists (freed p s) !! (p, f) = None.
Proof.
  intros Hwf Hl Ho. split; [by apply frame_free|]. split; [apply lookup_delete_eq|]. intros f. split.
  - pose proof (Store.owner_filter (λ k : addr, k.1 ≠ p) (H.lists s) (p, f) Hwf) as Hof.
    etransitivity; [apply Hof|apply Ho]. by rewrite Ho.
  - apply map_lookup_filter_None. right. intros l _ Hne. by apply Hne.
Qed.

Lemma wp_freed p o s Q :
  H.objs s !! p = Some o → Q tt (freed p s) → wp (free_obj p) s Q.
Proof. intros Hp HQ. rewrite wp_free_obj. by exists o. Qed.

(** No list of a fresh object has members. *)
Lemma fresh_unlinked s s' p q f g :
  inv s → fresh s p → frame p s s' → q ≠ p → own s' (q, f) ≠ Some (p, g).
Proof.
  intros Hinv Hf Hfr Hq Ho. rewrite (fr_own _ _ _ Hfr) in Ho by done.
  apply Store.owner_Some in Ho as (l & Hl & _); [|apply Hinv]. by rewrite (fresh_list _ _ Hf) in Hl.
Qed.

(** A new object whose name could not be stored is given up. *)
Lemma generated_free s s' p :
  inv s → fresh s p → frame p s s' → Store.wf (H.lists s') → (∀ g, own s' (p, g) = None) →
  inv (freed p s') ∧ frame p s (freed p s') ∧ H.objs (freed p s') !! p = None.
Proof.
  intros Hinv Hf Hfr Hwf Ho.
  destruct (freed_spec p s' Hwf) as (F & Hp & Hn); [by intros; eapply fresh_unlinked|done|].
  assert (F' : frame p s (freed p s')) by by eapply frame_trans.
  split_and!; [|done..]. eapply inv_given_up; [done..|apply Hf|done|done].
Qed.

Lemma phys_new_spec s ctx c :
  inv s → no_abort s → H.objs s !! ctx = Some (OCtx c) →
  (∀ q, ¬ called s (ctx, F_phys_names) (next_name c "phys") q) →
  wp (lsdn_phys_new ctx) s (λ r s', inv s' ∧ no_abort s' ∧
    only_new s s' r (OPhys (Phys.mk LSDN_STATE_NEW false (Some (next_name c "phys")) ctx false false
                              None None))).
Proof.
  intros Hinv Hna Hc Hfree. unfold lsdn_phys_new. rewrite wp_bind.
  apply wp_malloc_inv; [done..|intros s0 Hinv0 Hna0 Hm0 Ho F0|intros p s0 Hinv0 Hna0 Ho F0 Hf _].
  { rewrite <-Ho in Hc. apply wp_ret_ptr; [done|done|by eapply at_obj|]. intros l.
    split_and!; [eauto with frame|done|by apply only_new_none]. }
  assert (Hfree0 : ∀ q, ¬ called s0 (ctx, F_phys_names) (next_name c "phys") q).
  { unfold called. by rewrite Ho. }
  rewrite <-Ho in Hc. pose proof (fresh_obj _ _ Hf) as Hnone. unfold only_new. rewrite <-Ho.
  assert (Hcp : ctx ≠ p) by (eapply fresh_ne; [done|by eapply (at_obj _ _ _ is_ctx)]).
  rewrite wp_bind, wp_put_obj. eapply wp_generated; [done|done|done|by intros []|done|done|done|set_solver|done|done|].
  intros err s1 Hgen. destruct Hgen as [s1 F1 Hwf1 Hna1 Hp1 Ho1 Hl1 Hn1|s1 F1 Hwf1 Hna1 Hm1 [o Hp1] Ho1].
  - rewrite wp_bind, wp_assert. split; [done|]. simpl.
    rewrite wp_bind. apply wp_enter; [done|apply unlinked_none; [by rewrite Ho1|left; by apply Hl1]| | |].
    { apply F1; [done|]. eapply (inv_heads s0 Hinv0); [done|set_solver]. }
    { by split. }
    intros s2 R2. rewrite wp_bind. apply wp_start; [wf_|apply unlinked_none; [track; by rewrite Ho1|]|].
    { left. track. by apply Hl1. }
    intros s3 R3. assert (F : frame p s0 s3) by frames.
    assert (Hobj : H.objs s3 !! p = Some (OPhys (Phys.mk LSDN_STATE_NEW false
                     (Some (next_name c "phys")) ctx false false None None))).
    { track. done. }
    split_and!.
    + eapply (inv_new s0 s3 p); [done..|apply Hf|apply Hobj| |by intros []|done| | | | |done|].
      * track. rewrite Hn1. apply Hf.
      * intros []; track; rewrite ?Ho1; done.
      * simpl. set_unfold. intros f [->|[]]; track; by eexists.
      * done.
      * by eapply at_obj.
      * intros str tab [= <-] [= <-]. done.
    + eapply frame_no_abort; [exact F|done|]. by rewrite Hobj.
    + exists p. split_and!; [eapply frame_trans; [exact (F0 p)|exact F]|done|done|done].
  - rewrite wp_bind, wp_assert. split; [done|]. simpl.
    rewrite wp_bind. eapply wp_freed; [done|].
    destruct (generated_free s0 s1 p) as (Hi & F & Hd); [done..|].
    assert (Hna' : no_abort (freed p s1)).
    { eapply frame_no_abort; [exact F|done|]. by rewrite Hd. }
    apply (wp_ret_ptr ctx None); [done|by intros _; apply (frame_oom p s0), (frame_oom p s0 s1)| |].
    { eapply (step_at s0); [exact F|done|eauto with closed|by eapply at_obj]. }
    intros l. split_and!; [eauto with frame|done|]. exists p.
    split_and!; [|done|done]. eapply frame_trans; [exact (F0 p)|]. frames.
Qed.

Definition new_settings (ctx : ptr) (name : string) (ops : lsdn_net_ops_tag) (nettype : lsdn_nettype)
    (switch : lsdn_switch) (port : Z) (ip : option lsdn_ip_t) : obj :=
  OSettings (Settings.mk LSDN_STATE_NEW false (Some name) ctx ops nettype switch port ip 0 None).

Lemma settings_new_spec s ctx c ops nettype switch port ip :
  inv s → no_abort s → H.objs s !! ctx = Some (OCtx c) →
  (∀ q, ¬ called s (ctx, F_setting_names) (next_name c "settings") q) →
  wp (settings_new ctx ops nettype switch port ip) s (λ r s', inv s' ∧ no_abort s' ∧
    only_new s s' r (new_settings ctx (next_name c "settings") ops nettype switch port ip)).
Proof.
  intros Hinv Hna Hc Hfree. unfold settings_new. rewrite wp_bind.
  apply wp_malloc_inv; [done..|intros s0 Hinv0 Hna0 Hm0 Ho F0|intros p s0 Hinv0 Hna0 Ho F0 Hf _].
  { rewrite <-Ho in Hc. apply wp_ret_ptr; [done|done|by eapply at_obj|]. intros l.
    split_and!; [eauto with frame|done|by apply only_new_none]. }
  assert (Hfree0 : ∀ q, ¬ called s0 (ctx, F_setting_names) (next_name c "settings") q).
  { unfold called. by rewrite Ho. }
  rewrite <-Ho in Hc. pose proof (fresh_obj _ _ Hf) as Hnone. unfold only_new. rewrite <-Ho.
  assert (Hcp : ctx ≠ p) by (eapply fresh_ne; [done|by eapply (at_obj _ _ _ is_ctx)]).
  unfold lsdn_settings_init_common. rewrite !wp_bind, wp_put_obj.
  eapply wp_generated; [done|done|done|by intros []|done|done|done|set_solver|done|done|].
  intros err s1 Hgen. destruct Hgen as [s1 F1 Hwf1 Hna1 Hp1 Ho1 Hl1 Hn1|s1 F1 Hwf1 Hna1 Hm1 [o Hp1] Ho1].
  - rewrite bool_decide_eq_false_2 by naive_solver.
    rewrite wp_bind. apply wp_start; [wf_|apply unlinked_none; [by rewrite Ho1|left; by apply Hl1]|].
    intros s2 R2. rewrite wp_bind. apply wp_enter; [wf_| | | |].
    { apply unlinked_none; [track; by rewrite Ho1|left; track; by apply Hl1]. }
    { head_. apply F1; [done|]. eapply (inv_heads s0 Hinv0); [done|set_solver]. }
    { by split. }
    intros s3 R3. rewrite wp_ret, wp_bind, wp_assert. split; [done|].
    assert (F : frame p s0 s3) by frames.
    assert (Hobj : H.objs s3 !! p =
      Some (new_settings ctx (next_name c "settings") ops nettype switch port ip)) by by track.
    split_and!.
    + eapply (inv_new s0 s3 p); [done..|apply Hf|apply Hobj| |by intros []|done| | | | |done|].
      * track. rewrite Hn1. apply Hf.
      * intros []; track; rewrite ?Ho1; done.
      * simpl. set_unfold. intros f [->|[]]; track; by eexists.
      * done.
      * by eapply at_obj.
      * intros str tab [= <-] [= <-]. done.
    + eapply frame_no_abort; [exact F|done|]. by rewrite Hobj.
    + exists p. split_and!; [eapply frame_trans; [exact (F0 p)|exact F]|done|done|done].
  - rewrite bool_decide_eq_true_2 by done. rewrite wp_ret, wp_bind, wp_assert. split; [done|].
    rewrite bool_decide_eq_true_2 by done. rewrite wp_bind. eapply wp_freed; [done|].
    destruct (generated_free s0 s1 p) as (Hi & F & Hd); [done..|].
    assert (Hna' : no_abort (freed p s1)).
    { eapply frame_no_abort; [exact F|done|]. by rewrite Hd. }
    apply (wp_ret_ptr ctx None); [done|by intros _; apply (frame_oom p s0), (frame_oom p s0 s1)| |].
    { eapply (step_at s0); [exact F|done|eauto with closed|by eapply at_obj]. }
    intros l. split_and!; [eauto with frame|done|]. exists p.
    split_and!; [|done|done]. eapply frame_trans; [exact (F0 p)|]. frames.
Qed.
