(* ===== verification/Change.v ===== *)
(** * Changes of one object of a sound model

    The setters of the API: names, attributes, connections and attachments. *)

From Stdlib Require Import ZArith Lia.
From stdpp Require Import base list gmap strings pretty.
From S2P Require Import Prelude.
From S2P Require Import LStore.
From S2P Require Import Status.
From S2P Require Import Nettypes.
From S2P Require Import Heap.
From S2P Require Import Base.
From S2P Require Import Wp.
From S2P Require Import Model.
From S2P Require Import Inv.
From S2P Require Import Names.
From S2P Require Import Create.

(** The model is sound and nothing was sent to the kernel. *)
Record sound (s s' : heap) : Prop := {
  sound_inv : inv s';
  sound_abort : no_abort s';
  sound_trace : H.trace s' = H.trace s }.

Lemma sound_trans s1 s2 s3 : sound s1 s2 → sound s2 s3 → sound s1 s3.
Proof. intros [] []. split; [done..|congruence]. Qed.
Lemma sound_refl s : inv s → no_abort s → sound s s.
Proof. by split. Qed.
Lemma sound_events s s' l : sound s s' → sound s (H.set_events l s').
Proof. intros []. split; [by apply inv_events|done..]. Qed.
Lemma sound_alloc s s' n : sound s s' → sound s (H.set_allocs n s').
Proof. intros []. split; [by apply inv_alloc|done..]. Qed.
Lemma sound_frame p s s' :
  no_abort s → frame p s s' → inv s' → (∀ x, H.objs s' !! p ≠ Some (OCtx x)) → sound s s'.
Proof. intros Hna Hfr Hinv Hc. split; [done|by eapply frame_no_abort|apply Hfr]. Qed.
Lemma sound_new s s' r ob : only_new s s' r ob → inv s' → no_abort s' → sound s s'.
Proof. intros (p & Hfr & _) Hinv Hna. split; [done..|apply Hfr]. Qed.
#[export] Hint Resolve sound_refl sound_events sound_alloc : frame.

(** An assignment to members that are not links. *)
Lemma sound_put s p o o' :
  inv s → no_abort s → H.objs s !! p = Some o → same_shape o o' → ¬ is_ctx o →
  sound s (H.set_objs (<[p := o']> (H.objs s)) s).
Proof.
  intros Hinv Hna Hp Hsh Hc. assert (F := frame_put p o' s). apply (sound_frame p); [done..| |].
  - eapply (inv_update s _ p o o'); try done. simpl. by rewrite lookup_insert_eq.
  - intros x. simpl. rewrite lookup_insert_eq. intros [= ->]. by destruct o; destruct Hsh.
Qed.

(** ** Names *)

Lemma wp_any_name s p ob n tab name Q :
  inv s → no_abort s → H.objs s !! p = Some ob → obj_name ob = Some n → name_table ob = Some tab →
  (∀ err s' m, sound s s' → (err = LSDNE_NOMEM → out_of_memory s') →
     H.objs s' = <[p := obj_set_name m ob]> (H.objs s) → Q err s') →
  wp (lsdn_name_set p tab name) s Q.
Proof.
  intros Hinv Hna Hp Hn Ht HQ.
  assert (Hno : ∀ m x, obj_set_name m ob ≠ OCtx x) by by destruct ob.
  destruct name as [str|].
  - eapply wp_set_name; [done..|]. intros err s' Hinv' F Hpost.
    assert (Hs : ∀ m, H.objs s' = <[p := obj_set_name m ob]> (H.objs s) → sound s s').
    { intros m Hm. eapply sound_frame; [done..|]. intros x. rewrite Hm, lookup_insert_eq. naive_solver. }
    assert (Hid : H.objs s' = H.objs s → H.objs s' = <[p := obj_set_name n ob]> (H.objs s)).
    { intros ->. rewrite obj_set_name_same by done. by rewrite insert_id. }
    destruct Hpost as [s' _ Ho|q Hq Hne|s' Hm Ho]; (eapply HQ; [by eauto| |by eauto]); try done.
    intros _. apply (frame_oom p s); [done|]. by eexists.
  - simpl. rewrite wp_bind. eapply wp_name_free; [apply Hinv|done|done|by eapply name_entry_inv|].
    intros s' R. rewrite wp_ret. pose proof (rl_objs _ _ _ _ _ R) as Ho. simpl in Ho.
    assert (F : frame p s s') by (eapply frame_trans; [apply frame_put|apply R]).
    eapply HQ; [|done|done]. eapply sound_frame; [done..| |].
    + eapply (inv_renamed s s' p ob n None (H.allocs s)); [done..| |done].
      rewrite name_owner_none by by eapply obj_set_name_name. by destruct s.
    + intros x. rewrite Ho, lookup_insert_eq. naive_solver.
Qed.

Lemma put_name_at s s' p ob m q (P : obj → Prop) :
  H.objs s !! p = Some ob → H.objs s' = <[p := obj_set_name m ob]> (H.objs s) → obj_at s q P → closed P →
  obj_at s' q P.
Proof.
  intros Hp Ho Hat HP. eapply obj_at_compat; [done| |done]. intros o Hq. rewrite Ho.
  destruct (decide (q = p)) as [->|Hne].
  - simplify_eq. rewrite lookup_insert_eq. eexists. split; [done|apply compat_name].
  - rewrite lookup_insert_ne by done. eexists. split; [done|apply compat_refl].
Qed.

Lemma settings_set_name_spec s p x name :
  inv s → no_abort s → H.objs s !! p = Some (OSettings x) →
  wp (lsdn_settings_set_name p name) s (λ _ s', sound s s').
Proof.
  intros Hinv Hna Hp. pose proof (inv_refs s Hinv _ _ Hp) as Hc. simpl in Hc.
  unfold lsdn_settings_set_name. hstep. rewrite wp_bind. eapply wp_any_name; [done..|].
  intros err s' m Hs Hm Ho. apply wp_ret_err; [apply Hs|done| |eauto with frame].
  eapply (put_name_at s); [exact Hp|exact Ho|exact Hc|eauto with closed].
Qed.

Lemma phys_set_name_spec s p x name :
  inv s → no_abort s → H.objs s !! p = Some (OPhys x) →
  wp (lsdn_phys_set_name p name) s (λ _ s', sound s s').
Proof.
  intros Hinv Hna Hp. pose proof (inv_refs s Hinv _ _ Hp) as Hc. simpl in Hc.
  unfold lsdn_phys_set_name. hstep. rewrite wp_bind. eapply wp_any_name; [done..|].
  intros err s' m Hs Hm Ho. apply wp_ret_err; [apply Hs|done| |eauto with frame].
  eapply (put_name_at s); [exact Hp|exact Ho|exact Hc|eauto with closed].
Qed.

Lemma net_set_name_spec s p x name :
  inv s → no_abort s → H.objs s !! p = Some (ONet x) →
  wp (lsdn_net_set_name p name) s (λ _ s', sound s s').
Proof.
  intros Hinv Hna Hp. pose proof (inv_refs s Hinv _ _ Hp) as [Hc _]. simpl in Hc.
  unfold lsdn_net_set_name. hstep. rewrite wp_bind. eapply wp_any_name; [done..|].
  intros err s' m Hs Hm Ho. apply wp_ret_err; [apply Hs|done| |eauto with frame].
  eapply (put_name_at s); [exact Hp|exact Ho|exact Hc|eauto with closed].
Qed.

(** The network of a virt, and its context. *)
Lemma virt_net s p x :
  inv s → H.objs s !! p = Some (OVirt x) →
  ∃ y, H.objs s !! Virt.network x = Some (ONet y) ∧ obj_at s (Net.ctx y) is_ctx.
Proof.
  intros Hinv Hp. pose proof (inv_refs s Hinv _ _ Hp) as [(o & Hn & Hk & _) _].
  destruct o as [| | |y| | | | | | | | | | |]; try done. exists y. split; [done|].
  by destruct (inv_refs s Hinv _ _ Hn).
Qed.

Lemma virt_set_name_spec s p x name :
  inv s → no_abort s → H.objs s !! p = Some (OVirt x) →
  wp (lsdn_virt_set_name p name) s (λ _ s', sound s s').
Proof.
  intros Hinv Hna Hp. destruct (virt_net s p x Hinv Hp) as (y & Hy & Hc).
  unfold lsdn_virt_set_name. hstep. hstep. rewrite wp_bind. eapply wp_any_name; [done..|].
  intros err s' m Hs Hm Ho. apply wp_ret_err; [apply Hs|done| |eauto with frame].
  eapply (put_name_at s); [exact Hp|exact Ho|exact Hc|eauto with closed].
Qed.

(** ** Attributes *)

(** [renew] answers, for an object that is not being deleted, a state that is new only if
    the old one was. *)
Lemma renew_not_deleted st :
  st ≠ LSDN_STATE_DELETE →
  ∃ st', renew_state st = Some st' ∧ (st' = LSDN_STATE_NEW ↔ st = LSDN_STATE_NEW) ∧ st' ≠ LSDN_STATE_DELETE.
Proof.
  intros Hst. exists (match st with LSDN_STATE_OK => LSDN_STATE_RENEW | _ => st end).
  destruct st; try done; (split; [reflexivity|split; [split; congruence|congruence]]).
Qed.

Lemma wp_renew_phys s p x Q :
  inv s → no_abort s → H.objs s !! p = Some (OPhys x) → Phys.state x ≠ LSDN_STATE_DELETE →
  (∀ s' st, sound s s' → H.objs s' = <[p := OPhys (Phys.set_state st x)]> (H.objs s) →
            st ≠ LSDN_STATE_DELETE → Q tt s') →
  wp (renew_phys p) s Q.
Proof.
  intros Hinv Hna Hp Hst HQ. destruct (renew_not_deleted _ Hst) as (st & Hr & Hn & Hd).
  unfold renew_phys. hstep. unfold renew. rewrite Hr. hstep. eapply HQ; [|done|done].
  eapply sound_put; [done..| |by intros []]. split; [done|]. unfold is_new. simpl. split; intros [= ?]; f_equal; by apply Hn.
Qed.

Lemma wp_renew_virt s p x Q :
  inv s → no_abort s → H.objs s !! p = Some (OVirt x) → Virt.state x ≠ LSDN_STATE_DELETE →
  (∀ s' st, sound s s' → H.objs s' = <[p := OVirt (Virt.set_state st x)]> (H.objs s) →
            st ≠ LSDN_STATE_DELETE → (st = LSDN_STATE_NEW ↔ Virt.state x = LSDN_STATE_NEW) →
            H.lists s' = H.lists s → Q tt s') →
  wp (renew_virt p) s Q.
Proof.
  intros Hinv Hna Hp Hst HQ. destruct (renew_not_deleted _ Hst) as (st & Hr & Hn & Hd).
  unfold renew_virt. hstep. unfold renew. rewrite Hr. hstep. eapply HQ; [|done|done|done|done].
  eapply sound_put; [done..| |by intros []]. split; [done|]. unfold is_new. simpl. split; intros [= ?]; f_equal; by apply Hn.
Qed.

(** No virt rule gets into another list. *)
Definition rules_kept (s s' : heap) : Prop :=
  ∀ q h, own s' (q, F_rules_entry) = Some h → own s (q, F_rules_entry) = Some h.
Lemma rules_kept_same s s' : H.lists s' = H.lists s → rules_kept s s'.
Proof. unfold rules_kept. by intros ->. Qed.
Lemma rules_kept_trans s1 s2 s3 : rules_kept s1 s2 → rules_kept s2 s3 → rules_kept s1 s3.
Proof. unfold rules_kept. eauto. Qed.
Lemma rules_kept_frame p s s' :
  frame p s s' → (∀ h, own s' (p, F_rules_entry) = Some h → own s (p, F_rules_entry) = Some h) → rules_kept s s'.
Proof.
  intros F Hp q h Ho. destruct (decide (q = p)) as [->|Hq]; [by apply Hp|]. by rewrite (fr_own _ _ _ F) in Ho.
Qed.

(** Functions that leave the links and the state of a phys or virt alone. *)
Definition phys_attr (f : Phys.lsdn_phys → Phys.lsdn_phys) : Prop :=
  ∀ y, Phys.ctx (f y) = Phys.ctx y ∧ Phys.name (f y) = Phys.name y ∧ Phys.state (f y) = Phys.state y.
Definition virt_attr (f : Virt.lsdn_virt → Virt.lsdn_virt) : Prop :=
  ∀ y, Virt.network (f y) = Virt.network y ∧ Virt.connected_through (f y) = Virt.connected_through y ∧
       Virt.name (f y) = Virt.name y ∧ Virt.state (f y) = Virt.state y ∧
       Virt.ht_in_rules (f y) = Virt.ht_in_rules y ∧ Virt.ht_out_rules (f y) = Virt.ht_out_rules y.

Lemma phys_attr_shape f y : phys_attr f → same_shape (OPhys y) (OPhys (f y)).
Proof. intros Hf. destruct (Hf y) as (? & ? & Hs). split; [done|]. unfold is_new. simpl. by rewrite Hs. Qed.
Lemma virt_attr_shape f y : virt_attr f → same_shape (OVirt y) (OVirt (f y)).
Proof.
  intros Hf. destruct (Hf y) as (? & ? & ? & Hs & Hi & Ho). split.
  - simpl. by rewrite Hi, Ho.
  - unfold is_new. simpl. by rewrite Hs.
Qed.

Section attributes.
Context (s : heap) (Hinv : inv s) (Hna : no_abort s).

Lemma wp_phys_attr p x b f Q :
  H.objs s !! p = Some (OPhys x) → Phys.state x ≠ LSDN_STATE_DELETE → phys_attr f →
  (∀ s' st, sound s s' → H.objs s' = <[p := OPhys (f (Phys.set_state st x))]> (H.objs s) →
            st ≠ LSDN_STATE_DELETE → Q tt s') →
  wp (_ ← when b (renew_phys p); upd_phys p f) s Q.
Proof using Hinv Hna.
  intros Hp Hst Hf HQ. rewrite wp_bind.
  assert (Hupd : ∀ s1 st, sound s s1 → H.objs s1 = <[p := OPhys (Phys.set_state st x)]> (H.objs s) →
            st ≠ LSDN_STATE_DELETE → wp (upd_phys p f) s1 Q).
  { intros s1 st Hs1 Ho1 Hst1. rewrite wp_upd_phys. rewrite Ho1, lookup_insert_eq. eexists. split; [done|].
    eapply HQ; [|simpl; by rewrite insert_insert_eq|done]. eapply sound_trans; [done|].
    rewrite <-Ho1. eapply (sound_put s1 p (OPhys (Phys.set_state st x)));
      [apply Hs1|apply Hs1|by rewrite Ho1, lookup_insert_eq|by apply phys_attr_shape|by intros []]. }
  destruct b; simpl.
  - eapply wp_renew_phys; [done..|]. intros s1 st Hs1 Ho1 Hd. by eapply Hupd.
  - rewrite wp_ret. eapply (Hupd s (Phys.state x)); [by apply sound_refl| |done].
    rewrite insert_id; [done|]. rewrite Hp. by destruct x.
Qed.

Lemma wp_virt_attr p x b f Q :
  H.objs s !! p = Some (OVirt x) → Virt.state x ≠ LSDN_STATE_DELETE → virt_attr f →
  (∀ s' st, sound s s' → H.objs s' = <[p := OVirt (f (Virt.set_state st x))]> (H.objs s) →
            st ≠ LSDN_STATE_DELETE → Q tt s') →
  wp (_ ← when b (renew_virt p); upd_virt p f) s Q.
Proof using Hinv Hna.
  intros Hp Hst Hf HQ. rewrite wp_bind.
  assert (Hupd : ∀ s1 st, sound s s1 → H.objs s1 = <[p := OVirt (Virt.set_state st x)]> (H.objs s) →
            st ≠ LSDN_STATE_DELETE → wp (upd_virt p f) s1 Q).
  { intros s1 st Hs1 Ho1 Hst1. rewrite wp_upd_virt. rewrite Ho1, lookup_insert_eq. eexists. split; [done|].
    eapply HQ; [|simpl; by rewrite insert_insert_eq|done]. eapply sound_trans; [done|].
    rewrite <-Ho1. eapply (sound_put s1 p (OVirt (Virt.set_state st x)));
      [apply Hs1|apply Hs1|by rewrite Ho1, lookup_insert_eq|by apply virt_attr_shape|by intros []]. }
  destruct b; simpl.
  - eapply wp_renew_virt; [done..|]. intros s1 st Hs1 Ho1 Hd _ _. by eapply Hupd.
  - rewrite wp_ret. eapply (Hupd s (Virt.state x)); [by apply sound_refl| |done].
    rewrite insert_id; [done|]. rewrite Hp. by destruct x.
Qed.

(** The setters of virts assign first. *)
Lemma wp_virt_assign p x f Q :
  H.objs s !! p = Some (OVirt x) → Virt.state x ≠ LSDN_STATE_DELETE → virt_attr f →
  (∀ s' st, sound s s' → H.objs s' = <[p := OVirt (Virt.set_state st (f x))]> (H.objs s) →
            st ≠ LSDN_STATE_DELETE → Q tt s') →
  wp (_ ← upd_virt p f; renew_virt p) s Q.
Proof using Hinv Hna.
  intros Hp Hst Hf HQ. hstep.
  pose proof (sound_put s p (OVirt x) (OVirt (f x)) Hinv Hna Hp) as Hs.
  eapply wp_renew_virt; [apply Hs; [by apply virt_attr_shape|by intros []]..| | |].
  - simpl. by rewrite lookup_insert_eq.
  - by destruct (Hf x) as (_ & _ & _ & -> & _).
  - intros s' st Hs' Ho Hd _ _. eapply HQ; [|simpl in Ho; by rewrite insert_insert_eq in Ho|done].
    eapply sound_trans; [|done]. apply Hs; [by apply virt_attr_shape|by intros []].
Qed.
End attributes.

(** A context is still there after objects changed. *)
Lemma ctx_put s s' p o o' c :
  H.objs s !! p = Some o → H.objs s' = <[p := o']> (H.objs s) → ¬ is_ctx o → obj_at s c is_ctx →
  obj_at s' c is_ctx.
Proof.
  intros Hp Ho Hk (oc & Hc & Hctx). exists oc. split; [|done]. rewrite Ho, lookup_insert_ne; [done|].
  intros ->. by simplify_eq.
Qed.

Section setters.
Context (s : heap) (Hinv : inv s) (Hna : no_abort s).

Lemma alloc_state n : inv (H.set_allocs n s) ∧ no_abort (H.set_allocs n s) ∧ sound s (H.set_allocs n s).
Proof using Hinv Hna. split_and!; [by apply inv_alloc|done|]. by apply sound_alloc, sound_refl. Qed.

(** A phys setter: copy the value, renew if it differs, assign. *)
Lemma phys_setter p x b f :
  H.objs s !! p = Some (OPhys x) → Phys.state x ≠ LSDN_STATE_DELETE → phys_attr f →
  wp (p' ← get_phys p; ok ← strdup;
      if negb ok then ret_err (Phys.ctx p') LSDNE_NOMEM else
      _ ← when (b p') (renew_phys p); _ ← upd_phys p f; ret_err (Phys.ctx p') LSDNE_OK) s
    (λ err s', sound s s' ∧ match err with
       | LSDNE_OK => ∃ st, H.objs s' !! p = Some (OPhys (f (Phys.set_state st x)))
       | _ => err = LSDNE_NOMEM ∧ H.objs s' = H.objs s
       end).
Proof using Hinv Hna.
  intros Hp Hst Hf. pose proof (inv_refs s Hinv _ _ Hp) as Hc. simpl in Hc.
  hstep. unfold strdup. rewrite wp_bind, wp_try_alloc.
  destruct (alloc_state (S (H.allocs s))) as (Hi & Hn & Hs).
  destruct (Env.malloc_ok _ _) eqn:Hm; simpl.
  - apply wp_assoc. eapply wp_phys_attr; [done..|]. intros s1 st Hs1 Ho1 Hd.
    apply wp_ret_err; [apply Hs1|done|eapply (ctx_put s); [exact Hp|exact Ho1|by intros []|done]|].
    intros l. split; [eauto using sound_trans with frame|]. exists st. simpl. by rewrite Ho1, lookup_insert_eq.
  - apply wp_ret_err; [done|by eexists|done|]. intros l. split; [eauto with frame|done].
Qed.

(** A virt setter: copy the value, assign, renew. *)
Lemma virt_setter p x f :
  H.objs s !! p = Some (OVirt x) → Virt.state x ≠ LSDN_STATE_DELETE → virt_attr f →
  wp (v ← get_virt p; ctx ← virt_ctx v; ok ← strdup;
      if negb ok then ret_err ctx LSDNE_NOMEM else
      _ ← upd_virt p f; _ ← renew_virt p; ret_err ctx LSDNE_OK) s
    (λ err s', sound s s' ∧ match err with
       | LSDNE_OK => ∃ st, H.objs s' !! p = Some (OVirt (Virt.set_state st (f x)))
       | _ => err = LSDNE_NOMEM ∧ H.objs s' = H.objs s
       end).
Proof using Hinv Hna.
  intros Hp Hst Hf. destruct (virt_net s p x Hinv Hp) as (y & Hy & Hc).
  hstep. unfold virt_ctx. rewrite !wp_bind. hstep. rewrite wp_ret. unfold strdup.
  rewrite wp_bind, wp_try_alloc.
  destruct (alloc_state (S (H.allocs s))) as (Hi & Hn & Hs).
  destruct (Env.malloc_ok _ _) eqn:Hm; simpl.
  - apply wp_assoc. eapply wp_virt_assign; [done..|]. intros s1 st Hs1 Ho1 Hd.
    apply wp_ret_err; [apply Hs1|done|eapply (ctx_put s); [exact Hp|exact Ho1|by intros []|done]|].
    intros l. split; [eauto using sound_trans with frame|]. exists st. simpl. by rewrite Ho1, lookup_insert_eq.
  - apply wp_ret_err; [done|by eexists|done|]. intros l. split; [eauto with frame|done].
Qed.

Lemma phys_set_iface_spec p x iface :
  H.objs s !! p = Some (OPhys x) → Phys.state x ≠ LSDN_STATE_DELETE →
  wp (lsdn_phys_set_iface p iface) s (λ err s', sound s s' ∧ match err with
    | LSDNE_OK => ∃ st, H.objs s' !! p =
        Some (OPhys (Phys.set_attr_iface (Some iface) (Phys.set_state st x)))
    | _ => err = LSDNE_NOMEM ∧ H.objs s' = H.objs s
    end).
Proof using Hinv Hna.
  intros. apply (phys_setter p x (λ p, bool_decide (Phys.attr_iface p ≠ Some iface))); done.
Qed.

Lemma phys_set_ip_spec p x ip :
  H.objs s !! p = Some (OPhys x) → Phys.state x ≠ LSDN_STATE_DELETE →
  wp (lsdn_phys_set_ip p ip) s (λ err s', sound s s' ∧ match err with
    | LSDNE_OK => ∃ st, H.objs s' !! p = Some (OPhys (Phys.set_attr_ip (Some ip) (Phys.set_state st x)))
    | _ => err = LSDNE_NOMEM ∧ H.objs s' = H.objs s
    end).
Proof using Hinv Hna.
  intros. apply (phys_setter p x (λ p, match Phys.attr_ip p with
    Some ip' => negb (lsdn_ip_eq ip ip') | None => true end)); done.
Qed.

Lemma phys_clear_iface_spec p x :
  H.objs s !! p = Some (OPhys x) → Phys.state x ≠ LSDN_STATE_DELETE →
  wp (lsdn_phys_clear_iface p) s (λ _ s', sound s s').
Proof using Hinv Hna.
  intros. unfold lsdn_phys_clear_iface. hstep. by eapply wp_phys_attr.
Qed.

Lemma phys_clear_ip_spec p x :
  H.objs s !! p = Some (OPhys x) → Phys.state x ≠ LSDN_STATE_DELETE →
  wp (lsdn_phys_clear_ip p) s (λ _ s', sound s s').
Proof using Hinv Hna.
  intros. unfold lsdn_phys_clear_ip. hstep. by eapply wp_phys_attr.
Qed.

Lemma phys_claim_local_spec p x :
  H.objs s !! p = Some (OPhys x) → Phys.state x ≠ LSDN_STATE_DELETE →
  wp (lsdn_phys_claim_local p) s (λ _ s', sound s s').
Proof using Hinv Hna.
  intros Hp Hst. unfold lsdn_phys_claim_local. hstep. rewrite wp_bind. unfold when.
  destruct (negb _); [|rewrite !wp_ret; by apply sound_refl].
  eapply (wp_phys_attr s Hinv Hna p x true); [done..|]. intros. by rewrite wp_ret.
Qed.

Lemma phys_unclaim_local_spec p x :
  H.objs s !! p = Some (OPhys x) → Phys.state x ≠ LSDN_STATE_DELETE →
  wp (lsdn_phys_unclaim_local p) s (λ _ s', sound s s').
Proof using Hinv Hna.
  intros Hp Hst. unfold lsdn_phys_unclaim_local. hstep. rewrite wp_bind. unfold when.
  destruct (Phys.is_local _); [|rewrite !wp_ret; by apply sound_refl].
  eapply (wp_phys_attr s Hinv Hna p x true); [done..|]. intros. by rewrite wp_ret.
Qed.

Lemma virt_set_mac_spec p x mac :
  H.objs s !! p = Some (OVirt x) → Virt.state x ≠ LSDN_STATE_DELETE →
  wp (lsdn_virt_set_mac p mac) s (λ _ s', sound s s').
Proof using Hinv Hna.
  intros Hp Hst. destruct (match Virt.attr_mac x with Some m => lsdn_mac_eq m mac | None => false end) eqn:Hm.
  - destruct (virt_net s p x Hinv Hp) as (y & Hy & Hc).
    unfold lsdn_virt_set_mac. hstep. unfold virt_ctx. rewrite !wp_bind. hstep. rewrite wp_ret, Hm.
    apply wp_ret_err; [done..|]. intros l. eauto with frame.
  - pose proof (virt_setter p x (Virt.set_attr_mac (Some mac)) Hp Hst) as Hset.
    rewrite wp_bind, wp_get_virt in Hset. destruct Hset as (x' & Hx' & Hset); [done|].
    assert (x' = x) as -> by congruence. rewrite wp_bind in Hset.
    unfold lsdn_virt_set_mac. hstep. rewrite wp_bind, Hm. eapply wp_mono; [exact Hset|]. simpl.
    intros ctx s1 Hs1. eapply wp_mono; [exact Hs1|]. naive_solver.
Qed.

Lemma virt_clear_mac_spec p x :
  H.objs s !! p = Some (OVirt x) → Virt.state x ≠ LSDN_STATE_DELETE →
  wp (lsdn_virt_clear_mac p) s (λ _ s', sound s s').
Proof using Hinv Hna. intros. unfold lsdn_virt_clear_mac. hstep. by eapply wp_virt_attr. Qed.

Lemma virt_set_rate_spec p x rate :
  H.objs s !! p = Some (OVirt x) → Virt.state x ≠ LSDN_STATE_DELETE →
  wp (lsdn_virt_set_rate_in p rate) s (λ _ s', sound s s') ∧
  wp (lsdn_virt_set_rate_out p rate) s (λ _ s', sound s s').
Proof using Hinv Hna.
  intros Hp Hst. split; (eapply wp_mono; [by apply (virt_setter p x)|naive_solver]).
Qed.

Lemma virt_clear_rate_spec p x :
  H.objs s !! p = Some (OVirt x) → Virt.state x ≠ LSDN_STATE_DELETE →
  wp (lsdn_virt_clear_rate_in p) s (λ _ s', sound s s') ∧
  wp (lsdn_virt_clear_rate_out p) s (λ _ s', sound s s').
Proof using Hinv Hna.
  intros Hp Hst. split; unfold lsdn_virt_clear_rate_in, lsdn_virt_clear_rate_out; hstep;
    by eapply wp_virt_attr.
Qed.
End setters.

(** ** Connections *)

Lemma sound_if s p o f i :
  inv s → no_abort s → H.objs s !! p = Some o →
  sound s (H.set_ifs (<[(p, f) := i]> (H.ifs s)) s).
Proof.
  intros Hinv Hna Hp. pose proof (frame_if p f i s) as F.
  split; [|done|done]. eapply (inv_update s _ p o o); try done; [apply same_shape_refl|].
  simpl. intros g Hg. destruct (decide (f = g)) as [->|Hne].
  - rewrite lookup_insert_eq. by eexists.
  - rewrite lookup_insert_ne by congruence. done.
Qed.

Lemma wp_if_set_name s p x f name Q :
  inv s → no_abort s → H.objs s !! p = Some x → is_Some (H.ifs s !! (p, f)) →
  (∀ err s', sound s s' → H.objs s' = H.objs s → (err = LSDNE_NOMEM ∧ out_of_memory s' ∨ err = LSDNE_OK) →
             Q err s') →
  wp (lsdn_if_set_name (p, f) name) s Q.
Proof.
  intros Hinv Hna Hp [i Hi] HQ. unfold lsdn_if_set_name, strdup. rewrite wp_bind, wp_try_alloc.
  destruct (alloc_state s Hinv Hna (S (H.allocs s))) as (Hinv1 & Hna1 & Hs1).
  destruct (Env.malloc_ok _ _) eqn:Hm.
  - unfold lsdn_if_free. rewrite !wp_bind. hstep. rewrite wp_ret. hstep. rewrite wp_ret.
    apply HQ; [|done|by right]. eapply sound_trans; [done|]. by eapply sound_if.
  - rewrite wp_ret. apply HQ; [done|done|left]. split; [done|by eexists].
Qed.

(** The entry of a virt in the list of its attachment moves. *)
Lemma inv_connect s s' p x y :
  inv s → frame p s s' → H.objs s !! p = Some (OVirt x) → H.objs s' = <[p := OVirt y]> (H.objs s) →
  (is_new (OVirt y) ↔ is_new (OVirt x)) → tables (OVirt y) = tables (OVirt x) →
  Virt.network y = Virt.network x → Virt.name y = Virt.name x →
  own s' (p, F_connected_virt_entry) = obj_owner (OVirt y) F_connected_virt_entry →
  (∀ g, g ≠ F_connected_virt_entry → own s' (p, g) = own s (p, g) ∧
                                     H.lists s' !! (p, g) = H.lists s !! (p, g)) →
  (∀ a, Virt.connected_through y = Some a → obj_at s a (is_pa_of (Virt.network x))) →
  H.ifs s' = H.ifs s → H.rules s' = H.rules s → inv s'.
Proof.
  intros Hinv Hfr Hp Hobjs Hnew Htab Hnet Hname Hown Hne Hpa Hifs Hrules.
  eapply (inv_relink s s' p F_connected_virt_entry (OVirt x) (OVirt y)); try done.
  - simpl. intros Hn. by apply Hnew.
  - simpl. set_solver.
  - intros g Hg. destruct (Hne g Hg). split_and!; [done..|].
    destruct g; simpl; rewrite ?Hnet, ?Hname; done.
  - simpl. rewrite Hname. intros Hn. destruct (Hne F_name_entry) as [_ ->]; [done|].
    by apply (inv_name_entry s Hinv p (OVirt x)).
  - destruct (inv_refs s Hinv _ _ Hp) as ((on & Hon & Hk & Hset) & _ & Ht & Hnd).
    simpl. rewrite Hnet. simpl in Htab. rewrite Htab. split_and!; [|done..].
    exists on. split_and!; [done..|]. intros Ho. by apply Hnew, Hset.
  - intros q obq n Hq Hoq. simpl. rewrite Hname, Hnet. intros Hn Hnq Heq. apply Hq.
    by eapply (inv_names s Hinv q p obq (OVirt x)).
Qed.

Lemma virt_attached s p x :
  inv s → H.objs s !! p = Some (OVirt x) → Virt.connected_through x = None →
  own s (p, F_connected_virt_entry) = None ∧
  Store.unlinked (H.lists s) (p, F_connected_virt_entry) = true.
Proof.
  intros Hinv Hp Hc.
  assert (Ho : own s (p, F_connected_virt_entry) = None).
  { rewrite (inv_own s Hinv p _ F_connected_virt_entry Hp eq_refl). simpl. by rewrite Hc. }
  split; [done|]. apply unlinked_none; [done|].
  eapply entry_node; [done..| |done]. simpl. set_solver.
Qed.

Lemma wp_disconnect s p x Q :
  inv s → no_abort s → H.objs s !! p = Some (OVirt x) → Virt.state x ≠ LSDN_STATE_DELETE →
  (∀ s' st, sound s s' → st ≠ LSDN_STATE_DELETE → (st = LSDN_STATE_NEW ↔ Virt.state x = LSDN_STATE_NEW) →
     H.objs s' = <[p := OVirt (Virt.set_state st (Virt.set_connected_through None x))]> (H.objs s) →
     rules_kept s s' → Q tt s') →
  wp (lsdn_virt_disconnect p) s Q.
Proof.
  intros Hinv Hna Hp Hst HQ. unfold lsdn_virt_disconnect. hstep.
  destruct (Virt.connected_through x) as [a|] eqn:Hc.
  - assert (Ho : own s (p, F_connected_virt_entry) = Some (a, F_connected_virt_list)).
    { rewrite (inv_own s Hinv p _ F_connected_virt_entry Hp eq_refl). simpl. by rewrite Hc. }
    rewrite wp_bind. eapply wp_leave; [wf_|done|by apply (owned_foreign s Hinv p (OVirt x) F_connected_virt_entry)|]. intros s1 R1.
    rewrite wp_bind, wp_upd_virt. exists x. split; [by rewrite (rl_objs _ _ _ _ _ R1)|].
    set (s2 := H.set_objs _ _). set (y := Virt.set_connected_through None x).
    assert (F2 : frame p s s2) by (subst s2; frames).
    assert (Ho2 : H.objs s2 = <[p := OVirt y]> (H.objs s)) by by subst s2; track.
    assert (Hinv2 : inv s2).
    { eapply (inv_connect s s2 p x y); try done.
      - subst s2. simpl. apply R1.
      - intros g Hg. subst s2. simpl. split; [by apply (rl_own_ne _ _ _ _ _ R1)|by apply (rl_lists_ne _ _ _ _ _ R1)].
      - apply (rl_ifs _ _ _ _ _ R1).
      - apply (rl_rules _ _ _ _ _ R1). }
    assert (Hs2 : sound s s2).
    { apply (sound_frame p); [done..|]. intros z. by rewrite Ho2, lookup_insert_eq. }
    eapply wp_renew_virt; [done|apply Hs2|by rewrite Ho2, lookup_insert_eq|done|].
    intros s3 st Hs3 Ho3 Hd Hnew Hl3. eapply HQ; [by eapply sound_trans|done|done| |].
    + rewrite Ho3, Ho2. by rewrite insert_insert_eq.
    + eapply rules_kept_trans; [|by apply rules_kept_same].
      apply (rules_kept_frame p); [done|]. intros h. subst s2. simpl. by rewrite (rl_own_ne _ _ _ _ _ R1).
  - rewrite wp_ret. apply (HQ s (Virt.state x)); [by apply sound_refl|done|done| |by apply rules_kept_same].
    rewrite insert_id; [done|]. rewrite Hp. destruct x. simpl in *. by subst.
Qed.

Lemma virt_disconnect_spec s p x :
  inv s → no_abort s → H.objs s !! p = Some (OVirt x) → Virt.state x ≠ LSDN_STATE_DELETE →
  wp (lsdn_virt_disconnect p) s (λ _ s', sound s s').
Proof. intros. by eapply wp_disconnect. Qed.

(** The end of [lsdn_virt_connect]: the virt, connected to nothing, joins an attachment. *)
Lemma wp_reattach s p y a z ctx Q :
  inv s → no_abort s → H.objs s !! p = Some (OVirt y) → Virt.connected_through y = None → Virt.state y ≠ LSDN_STATE_DELETE →
  H.objs s !! a = Some (OPa z) → Pa.net z = Virt.network y → obj_at s ctx is_ctx →
  (∀ s' y', sound s s' → H.objs s' !! p = Some (OVirt y') → Virt.connected_through y' = Some a →
     H.objs s' !! a = Some (OPa z) → Q LSDNE_OK s') →
  wp (_ ← upd_virt p (Virt.set_connected_through (Some a)); _ ← renew_virt p;
      _ ← list_init_add (a, F_connected_virt_list) (p, F_connected_virt_entry);
      ret_err ctx LSDNE_OK) s Q.
Proof.
  intros Hinv Hna Hp Hnone Hst Hz Hnet Hctx HQ. destruct (virt_attached s p y Hinv Hp Hnone) as [Hown Hun].
  destruct (renew_not_deleted _ Hst) as (st' & Hr & Hnew & _).
  assert (Hap : a ≠ p) by congruence. hstep. unfold renew_virt.
  rewrite !wp_bind, wp_get_virt. eexists. split; [simpl; by rewrite lookup_insert_eq|].
  unfold renew. simpl. rewrite Hr. rewrite wp_upd_virt. eexists. split; [simpl; by rewrite lookup_insert_eq|].
  rewrite wp_bind. apply wp_enter; [wf_|done| | |].
  { eapply (inv_heads s Hinv); [exact Hz|]. simpl. set_solver. }
  { by split. }
  intros s4 R4. pose proof (rl_objs _ _ _ _ _ R4) as Ho4. simpl in Ho4. rewrite insert_insert_eq in Ho4.
  set (y' := Virt.set_state st' (Virt.set_connected_through (Some a) y)) in Ho4.
  assert (F4 : frame p s s4) by frames.
  assert (Hinv4 : inv s4).
  { eapply (inv_connect s s4 p y y'); try done.
    - unfold is_new. simpl. split; intros [= ?]; f_equal; by apply Hnew.
    - apply R4.
    - intros g Hg. split; [by apply (rl_own_ne _ _ _ _ _ R4)|by apply (rl_lists_ne _ _ _ _ _ R4)].
    - intros b [= <-]. exists (OPa z). done.
    - apply (rl_ifs _ _ _ _ _ R4).
    - apply (rl_rules _ _ _ _ _ R4). }
  assert (Hs4 : sound s s4).
  { apply (sound_frame p); [done..|]. intros c. by rewrite Ho4, lookup_insert_eq. }
  apply wp_ret_err; [apply Hs4|done| |].
  { eapply (ctx_put s); [exact Hp|exact Ho4|by intros []|done]. }
  intros l. apply (HQ _ y'); [eauto with frame| | |]; try done; simpl; rewrite Ho4; [apply lookup_insert_eq|by rewrite lookup_insert_ne].
Qed.

(** After a successful call the virt is connected through an attachment of the phys to its
    network. *)
Lemma virt_connect_spec s p x phys ph iface :
  inv s → no_abort s → H.objs s !! p = Some (OVirt x) → Virt.state x ≠ LSDN_STATE_DELETE →
  H.objs s !! phys = Some (OPhys ph) →
  wp (lsdn_virt_connect p phys iface) s (λ err s', sound s s' ∧
    match err with
    | LSDNE_OK => ∃ y a z, H.objs s' !! p = Some (OVirt y) ∧ Virt.connected_through y = Some a ∧
        H.objs s' !! a = Some (OPa z) ∧ Pa.phys z = phys ∧ Pa.net z = Virt.network x
    | _ => err = LSDNE_NOMEM
    end).
Proof.
  intros Hinv Hna Hp Hst Hphys. destruct (virt_net s p x Hinv Hp) as (n & Hn & _).
  unfold lsdn_virt_connect. hstep. hstep. rewrite wp_bind. eapply wp_mono; [by eapply find_or_create_spec|].
  simpl. intros r s1 (Hinv1 & Hna1 & Ht1 & Hk1 & Hr).
  assert (Hs1 : sound s s1) by done.
  assert (Hc1 : obj_at s1 (Phys.ctx ph) is_ctx) by (apply (inv_refs s1 Hinv1 phys (OPhys ph)); by apply Hk1).
  destruct r as [a|].
  2: { apply wp_ret_err; [done..|]. intros l. split; [eauto with frame|done]. }
  destruct Hr as (z & Hz & Hznet & Hzphys). apply Hk1 in Hp, Hphys.
  rewrite wp_bind. destruct (inv_embedded s1 Hinv1 _ _ Hp) as (Hif & _).
  eapply wp_if_set_name; [done..|]. intros err s2 Hs2 Ho2 Herr.
  assert (Hc2 : obj_at s2 (Phys.ctx ph) is_ctx) by (unfold obj_at; by rewrite Ho2).
  destruct Herr as [[-> Hm] | ->].
  { simpl. apply wp_ret_err; [apply Hs2|done..|]. intros l. split; [eauto using sound_trans with frame|done]. }
  simpl. rewrite <-Ho2 in Hp, Hphys, Hz. rewrite wp_bind.
  eapply wp_disconnect; [apply Hs2|apply Hs2|done|done|]. intros s3 st Hs3 Hst3 _ Ho3 _.
  set (y0 := Virt.set_state st (Virt.set_connected_through None x)) in Ho3.
  pose proof (sound_inv _ _ Hs3) as Hinv3.
  assert (Hp3 : H.objs s3 !! p = Some (OVirt y0)) by by rewrite Ho3, lookup_insert_eq.
  assert (Hz3 : H.objs s3 !! a = Some (OPa z)) by (rewrite Ho3, lookup_insert_ne; [done|congruence]).
  eapply (wp_reattach s3 p y0 a z); [apply Hs3|apply Hs3|done|done|done|done|done| |].
  { eapply (ctx_put s2); [exact Hp|exact Ho3|by intros []|done]. }
  intros s4 y Hs4 Hy Hya Hz4. split; [eauto 6 using sound_trans|]. by exists y, a, z.
Qed.

(** ** Attachments *)

Lemma sound_pa s p x y :
  inv s → no_abort s → H.objs s !! p = Some (OPa x) → Pa.net y = Pa.net x → Pa.phys y = Pa.phys x →
  (Pa.state y = LSDN_STATE_NEW ↔ Pa.state x = LSDN_STATE_NEW) →
  sound s (H.set_objs (<[p := OPa y]> (H.objs s)) s).
Proof.
  intros Hinv Hna Hp Hn Hph Hst. eapply sound_put; [done..| |by intros []]. split; [done|].
  unfold is_new. simpl. split; intros [= ?]; f_equal; by apply Hst.
Qed.

Lemma phys_attach_spec s phys ph net n :
  inv s → no_abort s → H.objs s !! phys = Some (OPhys ph) → Phys.state ph ≠ LSDN_STATE_DELETE →
  H.objs s !! net = Some (ONet n) →
  wp (lsdn_phys_attach phys net) s (λ err s', sound s s' ∧
    match err with
    | LSDNE_OK => ∃ a z, H.objs s' !! a = Some (OPa z) ∧ Pa.net z = net ∧ Pa.phys z = phys ∧
                         Pa.explicitly_attached z = true
    | _ => err = LSDNE_NOMEM
    end).
Proof.
  intros Hinv Hna Hphys Hst Hnet. unfold lsdn_phys_attach. rewrite wp_bind.
  eapply wp_mono; [by eapply find_or_create_spec|]. simpl. intros r s1 (Hinv1 & Hna1 & Ht1 & Hk1 & Hr).
  assert (Hs1 : sound s s1) by done. apply Hk1 in Hphys, Hnet.
  assert (Hc1 : obj_at s1 (Net.ctx n) is_ctx) by (by destruct (inv_refs s1 Hinv1 net (ONet n))).
  rewrite wp_bind, wp_get_net. exists n. split; [done|]. destruct r as [a|].
  2: { apply wp_ret_err; [done..|]. intros l. split; [eauto with frame|done]. }
  destruct Hr as (z & Hz & Hznet & Hzphys). hstep.
  assert (Hren : ∀ Q : () → heap → Prop,
    (∀ s2, sound s1 s2 → H.objs s2 !! a = Some (OPa z) → obj_at s2 (Net.ctx n) is_ctx → Q tt s2) →
    wp (when (negb (Pa.explicitly_attached z)) (renew_phys phys)) s1 Q).
  { intros Q HQ. unfold when. destruct (negb _); [|rewrite wp_ret; apply HQ; eauto with frame].
    eapply wp_renew_phys; [done..|]. intros s2 st Hs2 Ho2 Hd. apply HQ; [done| |].
    - rewrite Ho2, lookup_insert_ne; [done|]. congruence.
    - eapply (ctx_put s1); [exact Hphys|exact Ho2|by intros []|done]. }
  rewrite wp_bind. apply Hren. intros s2 Hs2 Hz2 Hc2. hstep.
  set (z' := Pa.set_explicitly_attached true z).
  assert (Hs3 : sound s2 (H.set_objs (<[a := OPa z']> (H.objs s2)) s2)).
  { eapply sound_pa; [apply Hs2|apply Hs2|done..]. }
  apply wp_ret_err; [apply Hs3|done|eapply (ctx_put s2); [exact Hz2|done|by intros []|done]|].
  intros l. split; [eauto 6 using sound_trans with frame|]. exists a, z'. simpl.
  by rewrite lookup_insert_eq.
Qed.
