(* ===== verification/Destroy.v ===== *)
(** * Freeing objects of a sound model

    An object that was never committed is unlinked and freed at once, together with what
    depends on it; a committed one is only marked for deletion. [shrinks] says which objects
    may go or change, the rest of the heap stays. *)

From Stdlib Require Import ZArith Lia.
From stdpp Require Import base list gmap strings pretty.
From S2P Require Import Prelude.
From S2P Require Import LStore.
From S2P Require Import Status.
From S2P Require Import Nettypes.
From S2P Require Import Heap.
From S2P Require Import Base.
From S2P Require Import Wp.
From S2P Require Import Model.
From S2P Require Import Inv.
From S2P Require Import Names.
From S2P Require Import Create.
From S2P Require Import Change.

(** ** What may be freed *)

Section unreferenced.
Context (s : heap) (Hinv : inv s).

(** The engine does not use an object that was never committed. *)
Lemma engine_none p ob f :
  H.objs s !! p = Some ob → ¬ is_vr ob → ¬ is_bfilter ob → (is_virt ob → is_new ob) →
  struct_field f = false → own s (p, f) = None.
Proof using Hinv.
  intros Hp Hvr Hbf Hvirt Hf. destruct (own s (p, f)) as [h|] eqn:Ho; [|done]. exfalso.
  pose proof (inv_engine s Hinv p f h Hf Ho) as He.
  destruct f; try done; destruct He as (_ & (o & Hop & Hk) & _); simplify_eq; naive_solver.
Qed.

(** An object another one relies on has that one in a list, or is one of its rule tables. *)
Lemma ref_linked q ob p :
  H.objs s !! q = Some ob → p ∈ obj_refs ob →
  (∃ f g, own s (q, f) = Some (p, g)) ∨ p ∈ tables ob.
Proof using Hinv.
  intros Hq Hr.
  assert (Hown : ∀ f k, struct_field f = true → obj_owner ob f = Some k → own s (q, f) = Some k).
  { intros f k Hf Ho. by rewrite (inv_own s Hinv q ob f Hq Hf). }
  destruct ob; cbn [obj_refs] in Hr; try (by apply not_elem_of_nil in Hr);
    repeat match goal with
    | H : _ ∈ _ :: _ |- _ => apply elem_of_cons in H as [->|H]
    | H : _ ∈ [] |- _ => by apply not_elem_of_nil in H
    | H : _ ∈ _ ++ _ |- _ => apply elem_of_app in H as [H|H]
    | H : _ ∈ tables _ |- _ => by right
    | H : _ ∈ option_list ?o |- _ => destruct o eqn:Hco; simpl in H
    end.
  all: left.
  - exists F_settings_entry, F_settings_list. by apply Hown.
  - exists F_phys_entry, F_phys_list. by apply Hown.
  - exists F_networks_entry, F_networks_list. by apply Hown.
  - exists F_settings_users_entry, F_setting_users_list. by apply Hown.
  - exists F_attached_entry, F_attached_list. by apply Hown.
  - exists F_attached_to_entry, F_attached_to_list. by apply Hown.
  - exists F_virt_entry, F_virt_list. by apply Hown.
  - exists F_connected_virt_entry, F_connected_virt_list. apply Hown; [done|]. simpl. by rewrite Hco.
  - exists F_remote_pa_entry, F_remote_pa_list. by apply Hown.
  - exists F_pa_view_entry, F_pa_view_list. by apply Hown.
  - exists F_remote_virt_entry, F_remote_virt_list. by apply Hown.
  - exists F_virt_view_entry, F_virt_view_list. by apply Hown.
Qed.

Lemma no_links p ob :
  H.objs s !! p = Some ob → (is_bridged ob → is_new ob) →
  (∀ g, g ∈ obj_heads ob → H.lists s !! (p, g) = Some []) → ∀ e g, own s e ≠ Some (p, g).
Proof using Hinv.
  intros Hp Hb Hh [q f] g Ho. destruct (decide (g = F_broadcast)) as [->|Hg].
  - destruct (struct_field f) eqn:Hf.
    + destruct (own_entry s Hinv _ _ _ Ho Hf) as (ob' & _ & Hob'). destruct ob', f; simpl in Hob'; try done;
        by apply fmap_Some in Hob' as (? & _ & ?).
    + pose proof (inv_engine s Hinv q f _ Hf Ho) as He.
      destruct f; try done; simpl in He; destruct He as (? & _ & (o & Hop & Hk)); simplify_eq. naive_solver.
  - destruct (own_typed s Hinv _ _ _ Ho Hg) as (ob' & Hp' & Hin). simplify_eq.
    apply Store.owner_Some in Ho as (l & Hl & Hinl); [|apply Hinv].
    rewrite (Hh g Hin) in Hl. simplify_eq. by apply not_elem_of_nil in Hinl.
Qed.

(** A list whose members cannot exist is empty. *)
Lemma list_none p ob f :
  H.objs s !! p = Some ob → f ∈ obj_heads ob → (∀ e, own s e ≠ Some (p, f)) →
  H.lists s !! (p, f) = Some [].
Proof using Hinv.
  intros Hp Hf Hn. destruct (list_members s Hinv p ob f Hp Hf) as (l & Hl & Hin).
  destruct l as [|e l]; [done|]. exfalso. apply (Hn e), Hin. set_solver.
Qed.

(** The last step of freeing [p]: all its entries were unlinked before. *)
Lemma wp_free_last s1 p ob Q :
  no_abort s → H.objs s !! p = Some ob → frame p s s1 → Store.wf (H.lists s1) →
  is_Some (H.objs s1 !! p) → (∀ f, own s1 (p, f) = None) → (∀ e g, own s e ≠ Some (p, g)) →
  (is_vrprio ob → ∀ q o, H.objs s !! q = Some o → p ∉ tables o) →
  (∀ s', sound s s' → H.objs s' = delete p (H.objs s1) → frame p s s' → Q tt s') →
  wp (free_obj p) s1 Q.
Proof using Hinv.
  intros Hna Hp Hfr Hwf [o Hp1] Hown Hlinks Hprio HQ. eapply wp_freed; [done|].
  destruct (freed_spec p s1 Hwf) as (F & Hd & Hn); [|done|].
  { intros q f g Hq. rewrite (fr_own _ _ _ Hfr) by done. apply Hlinks. }
  assert (F' : frame p s (freed p s1)) by by eapply frame_trans.
  apply HQ; [|done..]. apply (sound_frame p); [done..| |by rewrite Hd].
  eapply (inv_free s _ p); [done..| |by intros].
  intros q ob' Hq Hob' Hr. destruct (ref_linked q ob' p Hob' Hr) as [(f & g & Ho)|Ht].
  - by apply (Hlinks (q, f) g).
  - pose proof (inv_refs s Hinv q ob' Hob') as Href. destruct ob'; try (by apply not_elem_of_nil in Ht).
    destruct Href as (_ & _ & Hpr & _). destruct (Hpr p Ht) as (o' & Ho' & Hk). simplify_eq.
    by eapply Hprio.
Qed.
End unreferenced.

(** ** Attachments *)

(** No committed object looks at an attachment that was never committed. *)
Lemma pa_views s a x :
  inv s → H.objs s !! a = Some (OPa x) → is_new (OPa x) →
  H.lists s !! (a, F_pa_view_list) = Some [] ∧ H.lists s !! (a, F_remote_pa_list) = Some [].
Proof.
  intros Hinv Ha Hn. split; (eapply list_none; [done|done|simpl; set_solver|]); intros [q f] Ho.
  - destruct (own_inv s q f a F_pa_view_list Hinv Ho) as (-> & r & Hr & <-).
    destruct (inv_refs s Hinv q _ Hr) as [_ (o & Ho' & _ & Hold)]. by simplify_eq.
  - destruct (own_inv s q f a F_remote_pa_list Hinv Ho) as (-> & r & Hr & <-).
    destruct (inv_refs s Hinv q _ Hr) as [(o & Ho' & _ & Hold) _]. by simplify_eq.
Qed.

Lemma wp_pa_do_free s a x Q :
  inv s → no_abort s → H.objs s !! a = Some (OPa x) → Pa.state x = LSDN_STATE_NEW →
  Pa.explicitly_attached x = false → H.lists s !! (a, F_connected_virt_list) = Some [] →
  (∀ s', sound s s' → H.objs s' = delete a (H.objs s) → frame a s s' → Q tt s') →
  wp (pa_do_free a) s Q.
Proof.
  intros Hinv Hna Ha Hst He Hl HQ. assert (Hn : is_new (OPa x)) by (unfold is_new; simpl; by rewrite Hst).
  destruct (pa_views s a x Hinv Ha Hn) as [Hv Hr].
  assert (Hfor : ∀ f k, struct_field f = true → own s (a, f) = Some k → foreign a k).
  { intros f k Hf Ho. by eapply (owned_foreign s Hinv a (OPa x) f). }
  assert (Hown : ∀ f, struct_field f = true → own s (a, f) = obj_owner (OPa x) f).
  { intros f Hf. by apply (inv_own s Hinv). }
  pose proof (Hown F_attached_entry eq_refl) as Ho1. pose proof (Hown F_attached_to_entry eq_refl) as Ho2.
  simpl in Ho1, Ho2. pose proof (Hfor F_attached_entry _ eq_refl Ho1) as Hf1. pose proof (Hfor F_attached_to_entry _ eq_refl Ho2) as Hf2.
  unfold pa_do_free. hstep. rewrite wp_bind. eapply wp_empty_head; [done|]. hstep.
  rewrite He. hstep. rewrite wp_bind. eapply wp_leave; [wf_|done|done|].
  intros s1 R1. rewrite wp_bind. eapply wp_leave; [wf_|by track|done|].
  intros s2 R2. eapply (wp_free_last s Hinv s2 a (OPa x)); try done.
  - frames.
  - wf_.
  - track. by eexists.
  - intros f. destruct (struct_field f) eqn:Hf.
    + destruct f; try done; track; try done; by apply Hown.
    + transitivity (own s (a, f)); [destruct f; try done; by track|].
      eapply engine_none; [done|done|by intros []..|done|done].
  - eapply no_links; [done..|]. intros g Hg. simpl in Hg. set_unfold in Hg.
    by destruct Hg as [->|[->|[->|[]]]].
  - intros s' Hs' Ho' F'. apply HQ; [done| |done]. by rewrite Ho'; track.
Qed.

(** ** What freeing leaves alone *)

(** An object is still itself; some of its links may be gone. *)
Definition remains (o o' : obj) : Prop :=
  (∀ f k, obj_owner o' f = Some k → obj_owner o f = Some k) ∧ (is_new o' ↔ is_new o) ∧
  (is_vr o → is_vr o') ∧ (is_pa o → is_pa o').

(** Objects disappear or change, but only those of [D]; none appears. *)
Record shrinks (D : ptr → obj → Prop) (s s' : heap) : Prop := {
  shr_sound : sound s s';
  shr_old q o' : H.objs s' !! q = Some o' → ∃ o, H.objs s !! q = Some o ∧ remains o o';
  shr_keep q o : H.objs s !! q = Some o → ¬ D q o → H.objs s' !! q = Some o;
  shr_rules : rules_kept s s' }.

Lemma remains_refl o : remains o o.
Proof. done. Qed.
Lemma remains_trans o1 o2 o3 : remains o1 o2 → remains o2 o3 → remains o1 o3.
Proof. intros (H1 & N1 & V1 & P1) (H2 & N2 & V2 & P2). split_and!; [eauto| |auto..]. by rewrite N2, N1. Qed.
Lemma remains_shape o o' : same_shape o o' → remains o o'.
Proof.
  intros Hs. split_and!; [|apply Hs|by destruct Hs, o, o'..].
  intros f k. by rewrite (same_shape_owner _ _ Hs).
Qed.

Section shrinks.
Context (D : ptr → obj → Prop).

Lemma shrinks_refl s : inv s → no_abort s → shrinks D s s.
Proof. intros Hinv Hna. split; eauto using remains_refl, rules_kept_same with frame. Qed.
Lemma shrinks_trans s1 s2 s3 : shrinks D s1 s2 → shrinks D s2 s3 → shrinks D s1 s3.
Proof.
  intros H1 H2. split.
  - eapply sound_trans; [apply H1|apply H2].
  - intros q o3 (o2 & (o1 & ? & ?)%(shr_old _ _ _ H1) & ?)%(shr_old _ _ _ H2).
    eauto using remains_trans.
  - intros q o Hq Hd. apply (shr_keep _ _ _ H2); [|done]. by apply (shr_keep _ _ _ H1).
  - eapply rules_kept_trans; [apply H1|apply H2].
Qed.
Lemma shrinks_mono (D' : ptr → obj → Prop) s s' :
  (∀ q o, D q o → D' q o) → shrinks D s s' → shrinks D' s s'.
Proof.
  intros HD [? ? Hk ?]. split; [done|done| |done]. intros q o Hq Hd. apply Hk; [done|].
  intros ?. by apply Hd, HD.
Qed.
Lemma shrinks_delete s s' p :
  sound s s' → H.objs s' = delete p (H.objs s) → frame p s s' → (∀ o, H.objs s !! p = Some o → D p o) →
  shrinks D s s'.
Proof.
  intros Hs Ho F HD. split; [done|..]; [rewrite Ho..|].
  - intros q o' [??]%lookup_delete_Some. eauto using remains_refl.
  - intros q o Hq Hnd. rewrite lookup_delete_ne; [done|]. intros <-. by apply Hnd, HD.
  - apply (rules_kept_frame p); [done|]. intros h Hh. exfalso.
    rewrite (inv_own_dead s' (sound_inv _ _ Hs)) in Hh; [done|]. by rewrite Ho, lookup_delete_eq.
Qed.
Lemma shrinks_insert s s' p o o' :
  sound s s' → H.objs s !! p = Some o → H.objs s' = <[p := o']> (H.objs s) → remains o o' → D p o →
  rules_kept s s' → shrinks D s s'.
Proof.
  intros Hs Hp Ho Hr HD Hru. split; [done|..|done]; rewrite Ho.
  - intros q oq [[<- <-]|[??]]%lookup_insert_Some; eauto using remains_refl.
  - intros q oq Hq Hnd. rewrite lookup_insert_ne; [done|]. intros <-. apply Hnd. by simplify_eq.
Qed.
Lemma shrinks_gone s s' q : shrinks D s s' → H.objs s !! q = None → H.objs s' !! q = None.
Proof.
  intros Hs Hq. destruct (H.objs s' !! q) as [o|] eqn:E; [|done].
  apply (shr_old _ _ _ Hs) in E as (o' & ? & _). congruence.
Qed.
Lemma shrinks_own s s' q f k :
  inv s → shrinks D s s' → struct_field f = true → own s' (q, f) = Some k → own s (q, f) = Some k.
Proof.
  intros Hinv Hs Hf Ho. pose proof (sound_inv _ _ (shr_sound _ _ _ Hs)) as Hinv'.
  destruct (own_entry s' Hinv' _ _ _ Ho Hf) as (o' & Hq & Ho').
  apply (shr_old _ _ _ Hs) in Hq as (o & Hq & Hr). rewrite (inv_own s Hinv q o f Hq Hf). by apply Hr.
Qed.
End shrinks.

(** ** Attachments, continued *)

Definition at_ptr (p : ptr) : ptr → obj → Prop := λ q _, q = p.

Lemma wp_free_pa s a x Q :
  inv s → no_abort s → H.objs s !! a = Some (OPa x) →
  (∀ s', shrinks (at_ptr a) s s' →
     (Pa.state x = LSDN_STATE_NEW → Pa.explicitly_attached x = false →
      H.lists s !! (a, F_connected_virt_list) = Some [] → H.objs s' !! a = None) → Q tt s') →
  wp (free_pa_if_possible a) s Q.
Proof.
  intros Hinv Hna Ha HQ.
  destruct (inv_heads s Hinv a (OPa x) F_connected_virt_list Ha) as [l Hl]; [simpl; set_solver|].
  unfold free_pa_if_possible. rewrite wp_bind. eapply wp_empty_head; [done|]. hstep.
  case_bool_decide as Hle; [destruct (Pa.explicitly_attached x) eqn:He|]; simpl.
  - rewrite wp_ret. apply HQ; [by apply shrinks_refl|done].
  - unfold free_helper. case_bool_decide as Hst.
    + eapply wp_pa_do_free; [done..|by subst l|]. intros s' Hs' Ho' F'. apply HQ.
      * by eapply shrinks_delete.
      * intros _ _ _. by rewrite Ho', lookup_delete_eq.
    + hstep. set (y := Pa.set_state _ _). apply HQ; [|done].
      assert (Hsh : same_shape (OPa x) (OPa y)).
      { split; [done|]. unfold is_new. simpl. split; [done|]. by intros [= ?]. }
      eapply shrinks_insert; [|done|done|by apply remains_shape|done|by apply rules_kept_same].
      eapply sound_put; [done..|by intros []].
  - rewrite wp_ret. apply HQ; [by apply shrinks_refl|]. intros _ _ Hl'. by rewrite Hl in Hl'; simplify_eq.
Qed.

Lemma wp_detach_pa s a x Q :
  inv s → no_abort s → H.objs s !! a = Some (OPa x) →
  (∀ s', shrinks (at_ptr a) s s' →
     (Pa.state x = LSDN_STATE_NEW → H.lists s !! (a, F_connected_virt_list) = Some [] →
      H.objs s' !! a = None) → Q tt s') →
  wp (phys_detach_by_pa a) s Q.
Proof.
  intros Hinv Hna Ha HQ. unfold phys_detach_by_pa. hstep.
  set (s1 := H.set_objs _ _). set (y := Pa.set_explicitly_attached false x).
  assert (Hs1 : sound s s1) by by eapply sound_pa.
  eapply wp_free_pa; [apply Hs1|apply Hs1|simpl; by rewrite lookup_insert_eq|].
  intros s' Hs' Hgone. apply HQ; [|by intros; apply Hgone].
  eapply shrinks_trans; [|done]. eapply shrinks_insert; [done|done|done| |done|by apply rules_kept_same].
  by apply remains_shape.
Qed.

Lemma phys_detach_spec s phys ph net :
  inv s → no_abort s → H.objs s !! phys = Some (OPhys ph) →
  wp (lsdn_phys_detach phys net) s (λ _ s', sound s s').
Proof.
  intros Hinv Hna Hphys. destruct (attached_members s phys ph Hinv Hphys) as (l & Hl & Hin).
  unfold lsdn_phys_detach. rewrite wp_bind. eapply wp_list_get; [done|].
  rewrite wp_bind. apply wp_find_attachment.
  { intros a (e & -> & (z & _ & ? & _)%Hin)%list_elem_of_fmap. by eapply at_obj. }
  intros [a|] Hr; [|rewrite wp_ret; by apply sound_refl].
  destruct Hr as (_ & x & Hx & _). eapply wp_detach_pa; [done..|]. intros s' Hs' _. apply Hs'.
Qed.

(** ** Virt rules *)

Lemma wp_do_free_vr s vr x Q :
  inv s → no_abort s → H.objs s !! vr = Some (OVr x) → is_new (OVr x) →
  (∀ s', sound s s' → H.objs s' = delete vr (H.objs s) → frame vr s s' → Q tt s') →
  wp (do_free_vr vr) s Q.
Proof.
  intros Hinv Hna Hvr Hn HQ. destruct (inv_refs s Hinv _ _ Hvr) as [q Ho].
  destruct (inv_engine s Hinv vr F_rules_entry _ eq_refl Ho) as (_ & _ & (oq & Hq & Hk)). simpl in Hq.
  unfold do_free_vr. rewrite wp_bind. eapply wp_leave; [wf_|done| |].
  { split; [|done]. simpl. intros ->. by simplify_eq. }
  intros s1 R1. rewrite wp_bind, wp_del_rule.
  eapply (wp_free_last s Hinv _ vr (OVr x)); try done.
  - frames.
  - wf_.
  - track. by eexists.
  - intros f. destruct (struct_field f) eqn:Hf.
    + transitivity (own s (vr, f)); [destruct f; try done; by track|].
      rewrite (inv_own s Hinv vr _ f Hvr Hf). by destruct f.
    + destruct (decide (f = F_rules_entry)) as [->|Hfr]; [by track|].
      transitivity (own s (vr, f)); [simpl; by rewrite (rl_own_ne _ _ _ _ _ R1)|].
      destruct (own s (vr, f)) as [h|] eqn:E; [|done].
      pose proof (inv_engine s Hinv vr f h Hf E) as He.
      destruct f; try done; destruct He as (_ & (o & Ho' & Hk') & _); simplify_eq; naive_solver.
  - eapply no_links; [done..|]. intros g []%not_elem_of_nil.
  - intros s' Hs' Ho' F'. apply HQ; [done|by rewrite Ho'; track|done].
Qed.

Lemma vr_mark_shape x : ¬ is_new (OVr x) →
  same_shape (OVr x) (OVr (Vr.set_state LSDN_STATE_DELETE (Vr.set_pending_free true x))).
Proof. intros Hn. split; [done|]. split; [done|]. intros ?. by destruct Hn. Qed.

Lemma wp_vr_free s vr x Q :
  inv s → no_abort s → H.objs s !! vr = Some (OVr x) →
  (∀ s', shrinks (at_ptr vr) s s' → Q tt s') → wp (lsdn_vr_free vr) s Q.
Proof.
  intros Hinv Hna Hvr HQ. unfold lsdn_vr_free. hstep. unfold free_helper. case_bool_decide as Hst.
  - eapply wp_do_free_vr; [done..| |]; [unfold is_new; simpl; by rewrite Hst|].
    intros s' Hs' Ho F'. apply HQ. by eapply shrinks_delete.
  - hstep. assert (Hn : ¬ is_new (OVr x)) by (unfold is_new; simpl; by intros [= ?]).
    pose proof (vr_mark_shape x Hn) as Hsh. apply HQ.
    eapply shrinks_insert; [|done|done|by apply remains_shape|done|by apply rules_kept_same].
    eapply sound_put; [done..|by intros []].
Qed.

(** The tables of a virt change. *)
Lemma sound_tables s p x y :
  inv s → no_abort s → H.objs s !! p = Some (OVirt x) →
  Virt.network y = Virt.network x → Virt.connected_through y = Virt.connected_through x →
  Virt.name y = Virt.name x → Virt.state y = Virt.state x → NoDup (tables (OVirt y)) →
  (∀ t, t ∈ tables (OVirt y) → t ∈ tables (OVirt x) ∨
     obj_at s t is_vrprio ∧ (∀ q o, H.objs s !! q = Some o → t ∉ tables o) ∧
     (∀ e, own s e ≠ Some (t, F_rules_list))) →
  sound s (H.set_objs (<[p := OVirt y]> (H.objs s)) s).
Proof.
  intros Hinv Hna Hp Hnet Hconn Hname Hst Hnd Ht.
  assert (Hnew : is_new (OVirt y) ↔ is_new (OVirt x)) by (unfold is_new; simpl; by rewrite Hst).
  set (s' := H.set_objs _ _). assert (F : frame p s s') by apply frame_put.
  assert (Hp' : H.objs s' !! p = Some (OVirt y)) by apply lookup_insert_eq.
  assert (Hoth : ∀ q, q ≠ p → H.objs s' !! q = H.objs s !! q) by (intros; by apply lookup_insert_ne).
  assert (Hc : compat (OVirt x) (OVirt y)) by by intros ?%Hnew.
  assert (Howner : ∀ f, obj_owner (OVirt y) f = obj_owner (OVirt x) f).
  { intros f. destruct f; simpl; rewrite ?Hnet, ?Hconn, ?Hname; done. }
  assert (Hcomp : ∀ r o1, H.objs s !! r = Some o1 → ∃ o2, H.objs s' !! r = Some o2 ∧ compat o1 o2).
  { intros r o1 Ho1. destruct (decide (r = p)) as [->|Hn]; [|by eapply step_compat].
    simplify_eq. eauto. }
  assert (Hvrp : ∀ h, own s (p, F_rules_entry) ≠ Some h).
  { intros h Ho. destruct (inv_engine s Hinv p F_rules_entry _ eq_refl Ho) as (_ & (o & Ho' & Hk) & _).
    by simplify_eq. }
  destruct (inv_refs s Hinv _ _ Hp) as (Hrn & Hrc & Hrt & _).
  apply (sound_frame p); [done..| |intros z; by rewrite Hp'].
  eapply (inv_change s s' p Hinv F (OVirt x) (OVirt y)); [done..| |]; split.
  - intros f Hf. rewrite Howner. by apply (inv_own s Hinv).
  - intros f Hf. by eapply (inv_heads s Hinv p (OVirt x)).
  - simpl. rewrite Hname. by apply (inv_name_entry s Hinv p (OVirt x)).
  - by eapply (inv_fresh s Hinv).
  - simpl. rewrite Hnet, Hconn. split_and!; [..|done].
    + destruct Hrn as (on & Hon & Hk & Hset). exists on. split; [|split; [done|]].
      * rewrite Hoth; [done|]. intros E. rewrite E in Hon. by simplify_eq.
      * intros Hn. by apply Hnew, Hset.
    + intros a Ha. eapply obj_at_compat; [by apply Hrc|apply Hcomp|eauto with closed].
    + intros t Hin. eapply obj_at_compat; [|apply Hcomp|eauto with closed].
      destruct (Ht t Hin) as [?|(? & _)]; [by apply Hrt|done].
  - by apply (inv_embedded s Hinv p (OVirt x)).
  - intros f h Hf Ho. pose proof (inv_engine s Hinv p f h Hf Ho) as He.
    destruct f; try done; simpl in *; destruct_and?; split_and?; try done;
      (eapply obj_at_compat; [done|apply Hcomp|eauto with closed]).
  - intros q obq n Hq. rewrite Hoth, Howner by done. simpl. rewrite Hname. intros Hoq Hn Hnq Heq.
    apply Hq. by eapply (inv_names s Hinv q p obq (OVirt x)).
  - intros q obq t Hq Hoq Hin Hin'. rewrite Hoth in Hoq by done. destruct (Ht t Hin) as [?|(_ & Hno & _)].
    + apply Hq. by eapply (inv_tables s Hinv q p obq (OVirt x)).
    + by eapply Hno.
  - intros t vr obv Hin Ho Hv Hn. destruct (Ht t Hin) as [Hin'|(_ & _ & Hno)]; [|by destruct (Hno _ Ho)].
    destruct (decide (vr = p)) as [->|Hvp]; [by destruct (Hvrp _ Ho)|]. rewrite Hoth in Hv by done.
    eapply (inv_vrs s Hinv p (OVirt x)); try done. by apply Hnew.
  - intros t q obq Ho. by destruct (Hvrp _ Ho).
Qed.

Lemma tables_dir x dir t : t ∈ snd <$> ht_get dir x → t ∈ tables (OVirt x).
Proof. destruct dir; simpl; rewrite fmap_app; set_solver. Qed.

Lemma hash_delete_snd {K} (p : ptr) (t : list (K * ptr)) :
  snd <$> hash_delete p t = filter (.≠ p) (snd <$> t).
Proof.
  unfold hash_delete. induction t as [|[k q] t IH]; [done|]. rewrite fmap_cons, !filter_cons. simpl.
  destruct (decide (q ≠ p)); [|done]. by rewrite fmap_cons, IH.
Qed.

(** A table without one of its priorities. *)
Lemma tables_delete x dir prio (y := ht_set dir (hash_delete prio (ht_get dir x)) x) :
  NoDup (tables (OVirt x)) → prio ∈ snd <$> ht_get dir x →
  NoDup (tables (OVirt y)) ∧ (∀ t, t ∈ tables (OVirt y) → t ∈ tables (OVirt x) ∧ t ≠ prio) ∧
  (snd <$> ht_get dir y) = filter (.≠ prio) (snd <$> ht_get dir x).
Proof.
  intros Hnd Hin. subst y.
  destruct dir; simpl in *; rewrite !fmap_app in *; rewrite hash_delete_snd;
    apply NoDup_app in Hnd as (Hi & Hd & Ho); (split_and!; [|intros t|done]).
  - apply NoDup_app. split_and!; [by apply NoDup_filter| |done]. intros t [_ ?]%list_elem_of_filter. eauto.
  - rewrite !elem_of_app, list_elem_of_filter. intros [[??]|?]; [split; [by left|done]|].
    split; [by right|]. intros ->. by eapply Hd.
  - apply NoDup_app. split_and!; [done| |by apply NoDup_filter].
    intros t ? [_ ?]%list_elem_of_filter. by eapply Hd.
  - rewrite !elem_of_app, list_elem_of_filter. intros [?|[??]]; [|split; [by right|done]].
    split; [by left|]. intros ->. by eapply Hd.
Qed.

(** The rules of a priority, and those of a virt with their priorities. *)
Definition prio_rule (s : heap) (prio : ptr) : ptr → obj → Prop :=
  λ q o, is_vr o ∧ own s (q, F_rules_entry) = Some (prio, F_rules_list).
Definition virt_rule (s : heap) (x : Virt.lsdn_virt) : ptr → obj → Prop :=
  λ q o, ∃ prio, prio ∈ tables (OVirt x) ∧ prio_rule s prio q o.
Definition rule_parts (s : heap) (virt : ptr) (x : Virt.lsdn_virt) : ptr → obj → Prop :=
  λ q o, q = virt ∨ virt_rule s x q o ∨ is_vrprio o ∧ q ∈ tables (OVirt x).

Lemma virt_rule_since s s1 x x1 q o :
  rules_kept s s1 → tables (OVirt x1) ⊆ tables (OVirt x) → virt_rule s1 x1 q o → virt_rule s x q o.
Proof. intros Hk Ht (prio & Hp%Ht & Hv & Ho%Hk). by exists prio. Qed.
Lemma rule_parts_since s s1 virt x x1 q o :
  rules_kept s s1 → tables (OVirt x1) ⊆ tables (OVirt x) → rule_parts s1 virt x1 q o → rule_parts s virt x q o.
Proof.
  intros Hk Ht [->|[Hr|[Hp Hq%Ht]]]; [by left|right; left|right; right; done]. by eapply virt_rule_since.
Qed.

(** A priority is gone with all its rules, and a virt with all its priorities. *)
Definition prio_gone (s s' : heap) (prio : ptr) : Prop :=
  H.objs s' !! prio = None ∧
  ∀ vr, own s (vr, F_rules_entry) = Some (prio, F_rules_list) → H.objs s' !! vr = None.
Definition prios_gone (s s' : heap) (l : list ptr) : Prop := ∀ prio, prio ∈ l → prio_gone s s' prio.
Definition virt_gone (s s' : heap) (virt : ptr) (x : Virt.lsdn_virt) : Prop :=
  H.objs s' !! virt = None ∧ prios_gone s s' (tables (OVirt x)).

Lemma prios_gone_since D D' s s1 s2 l :
  inv s → shrinks D s s1 → shrinks D' s1 s2 → prios_gone s1 s2 l → prios_gone s s2 l.
Proof.
  intros Hinv Hs1 Hs2 Hg prio Hin. destruct (Hg prio Hin) as [Hp Hv]. split; [done|]. intros vr Ho.
  destruct (H.objs s1 !! vr) as [o1|] eqn:E; [|by eapply shrinks_gone]. apply Hv.
  destruct (own_inv s vr F_rules_entry prio F_rules_list Hinv Ho) as (_ & v & Hvr).
  destruct (shr_old _ _ _ Hs1 vr o1 E) as (o & Ho' & _ & _ & Hk & _). simplify_eq.
  destruct o1; try (by destruct (Hk I)).
  destruct (inv_refs s1 (sound_inv _ _ (shr_sound _ _ _ Hs1)) _ _ E) as [q Hq].
  pose proof (shr_rules _ _ _ Hs1 _ _ Hq) as Hq'. simplify_eq. done.
Qed.
Lemma prios_gone_later D s s1 s2 l : shrinks D s1 s2 → prios_gone s s1 l → prios_gone s s2 l.
Proof.
  intros Hs Hg prio Hin. destruct (Hg prio Hin) as [Hp Hv].
  split; [by eapply shrinks_gone|]. intros vr Ho. eapply shrinks_gone; [done|]. by apply Hv.
Qed.

Lemma nodup_entries (l : list addr) g :
  NoDup l → (∀ e, e ∈ l → e.2 = g) → NoDup (fst <$> l).
Proof.
  intros Hnd Hg. induction Hnd as [|[q f] l Hni Hnd IH]; [constructor|]. rewrite fmap_cons. constructor.
  - intros ([q' f'] & Hq' & He)%list_elem_of_fmap. simpl in Hq'. subst q'. apply Hni.
    assert (f = g) as -> by (apply (Hg (q, f)); set_solver).
    assert (f' = g) as -> by (apply (Hg (q, f')); set_solver). done.
  - apply IH. intros e He. apply Hg. set_solver.
Qed.

(** The objects in a list of a sound model, when all of them use the same entry for it. *)
Lemma list_objects s p ob f g :
  inv s → H.objs s !! p = Some ob → f ∈ obj_heads ob → (∀ q h, own s (q, h) = Some (p, f) → h = g) →
  ∃ l, H.lists s !! (p, f) = Some l ∧ NoDup (fst <$> l) ∧
    (∀ q, q ∈ fst <$> l ↔ own s (q, g) = Some (p, f)).
Proof.
  intros Hinv Hp Hf Hg. destruct (list_members s Hinv p ob f Hp Hf) as (l & Hl & Hmem).
  assert (Hentry : ∀ e, e ∈ l → e.2 = g) by (intros [q h] He%Hmem; by eapply Hg).
  exists l. split_and!; [done| |].
  - pose proof (proj1 (inv_wf s Hinv) _ _ Hl) as [_ Hnd]%NoDup_cons. by eapply nodup_entries.
  - intros q. rewrite <-Hmem, list_elem_of_fmap. split; [|by intros; exists (q, g)].
    intros ([q' h] & -> & He). simpl. pose proof (Hentry _ He) as E. simpl in E. by subst h.
Qed.

Lemma prio_rules s virt x prio :
  inv s → H.objs s !! virt = Some (OVirt x) → prio ∈ tables (OVirt x) →
  ∃ l, H.lists s !! (prio, F_rules_list) = Some l ∧ NoDup (fst <$> l) ∧
    (∀ vr, vr ∈ fst <$> l ↔ own s (vr, F_rules_entry) = Some (prio, F_rules_list)) ∧
    ∀ vr, vr ∈ fst <$> l → own s (vr, F_rules_entry) = Some (prio, F_rules_list) ∧
      ∃ v, H.objs s !! vr = Some (OVr v) ∧ (is_new (OVirt x) → is_new (OVr v)).
Proof.
  intros Hinv Hv Hin. destruct (inv_refs s Hinv _ _ Hv) as (_ & _ & Ht & _).
  destruct (Ht prio Hin) as (o & Hp & Hk). destruct o as [| | | | | | | |pr| | | | | |]; try done.
  destruct (list_objects s prio _ F_rules_list F_rules_entry Hinv Hp) as (l & Hl & Hnd & Hmem).
  { simpl. set_solver. }
  { intros q h Ho. by destruct (own_inv s q h prio F_rules_list Hinv Ho). }
  exists l. split_and!; [done..|]. intros vr Hvr%Hmem. split; [done|].
  destruct (own_inv s vr F_rules_entry prio F_rules_list Hinv Hvr) as (_ & v & Ho).
  exists v. split; [done|]. intros Hn. by eapply (inv_vrs s Hinv virt (OVirt x)).
Qed.

Lemma wp_free_rules s virt x prio Q :
  inv s → no_abort s → H.objs s !! virt = Some (OVirt x) → prio ∈ tables (OVirt x) → is_new (OVirt x) →
  (∀ s', shrinks (prio_rule s prio) s s' → H.lists s' !! (prio, F_rules_list) = Some [] →
     (∀ vr, own s (vr, F_rules_entry) = Some (prio, F_rules_list) → H.objs s' !! vr = None) → Q tt s') →
  wp (foreach (prio, F_rules_list) do_free_vr) s Q.
Proof.
  intros Hinv Hna Hv Hin Hn HQ. destruct (prio_rules s virt x prio Hinv Hv Hin) as (l & Hl & Hnd & Hmem & Hvr).
  eapply (wp_foreach _ l _ (λ done rest s1,
    shrinks (prio_rule s prio) s s1 ∧ (∀ vr, vr ∈ done → H.objs s1 !! vr = None) ∧
    (∀ vr, vr ∈ rest → ∃ v, H.objs s1 !! vr = Some (OVr v) ∧ is_new (OVr v)))); [done|..].
  - split_and!; [by apply shrinks_refl|by intros vr []%not_elem_of_nil|].
    intros vr (_ & v & ? & ?)%Hvr. eauto.
  - intros done vr rest s1 Hsplit (Hs1 & Hdone & Hrest).
    destruct (Hrest vr) as (v & Hvr1 & Hnew); [set_solver|].
    eapply wp_do_free_vr; [apply Hs1|apply Hs1|done|done|]. intros s2 Hs2 Ho2 F2.
    assert (Hnd' : vr ∉ rest).
    { rewrite Hsplit in Hnd. apply NoDup_app in Hnd as (_ & _ & [? _]%NoDup_cons). done. }
    split_and!.
    + eapply shrinks_trans; [done|]. eapply shrinks_delete; [done..|]. intros o Ho. simplify_eq.
      split; [done|]. apply Hmem. rewrite Hsplit. set_solver.
    + intros q. rewrite Ho2. rewrite elem_of_app, list_elem_of_singleton. intros [Hq | ->]; [|apply lookup_delete_eq].
      apply lookup_delete_None. right. by apply Hdone.
    + intros q Hq. rewrite Ho2. rewrite lookup_delete_ne by set_solver. apply Hrest. set_solver.
  - intros s' (Hs' & Hdone & _). apply HQ; [done| |by intros vr Ho; apply Hdone, Hmem].
    pose proof (sound_inv _ _ (shr_sound _ _ _ Hs')) as Hinv'.
    destruct (inv_refs s Hinv _ _ Hv) as (_ & _ & Ht & _). destruct (Ht prio Hin) as (o & Hp & Hk).
    apply (list_none s' Hinv' prio o); [|destruct o; try done; simpl; set_solver|].
    { apply (shr_keep _ _ _ Hs'); [done|]. intros [? _]. by destruct o. }
    intros [q f] Ho. destruct (own_inv s' q f prio F_rules_list Hinv' Ho) as (-> & v & Hq).
    apply (shr_rules _ _ _ Hs'), Hmem in Ho. by rewrite Hdone in Hq.
Qed.

Lemma wp_free_prio s virt x dir prio Q :
  inv s → no_abort s → H.objs s !! virt = Some (OVirt x) → prio ∈ snd <$> ht_get dir x →
  is_new (OVirt x) →
  (∀ s', shrinks (rule_parts s virt x) s s' →
     H.objs s' !! virt = Some (OVirt (ht_set dir (hash_delete prio (ht_get dir x)) x)) →
     prio_gone s s' prio → Q tt s') →
  wp (do_free_vr_prio virt dir prio) s Q.
Proof.
  intros Hinv Hna Hv Hin Hn HQ. pose proof (tables_dir _ _ _ Hin) as Hin'.
  destruct (inv_refs s Hinv _ _ Hv) as (_ & _ & Ht & Hnd).
  destruct (tables_delete x dir prio Hnd Hin) as (Hnd' & Hsub & _).
  destruct (Ht prio Hin') as (o & Hp & Hk). destruct o as [| | | | | | | |pr| | | | | |]; try done.
  unfold do_free_vr_prio. rewrite wp_bind. eapply wp_free_rules; [done..|]. intros s1 Hs1 Hl1 Hg1.
  assert (Hv1 : H.objs s1 !! virt = Some (OVirt x)) by (apply (shr_keep _ _ _ Hs1); [done|by intros [[] _]]).
  assert (Hp1 : H.objs s1 !! prio = Some (OVrPrio pr)) by (apply (shr_keep _ _ _ Hs1); [done|by intros [[] _]]).
  hstep. set (y := ht_set _ _ _). set (s2 := H.set_objs _ _).
  assert (Hs2 : sound s1 s2).
  { eapply sound_tables; [apply Hs1|apply Hs1|done|by destruct dir..|done|].
    intros t Hty. left. by apply Hsub. }
  pose proof (sound_inv _ _ Hs2) as Hinv2.
  assert (Hpv : prio ≠ virt) by (intros ->; by simplify_eq).
  assert (Hp2 : H.objs s2 !! prio = Some (OVrPrio pr)) by (subst s2; simpl; by rewrite lookup_insert_ne).
  assert (Hs2' : shrinks (rule_parts s virt x) s s2).
  { eapply shrinks_trans; [eapply shrinks_mono; [|done]; intros q o Hq; right; left; by exists prio|].
    eapply shrinks_insert; [done|exact Hv1|done| |by left|by apply rules_kept_same].
    split; [|by destruct dir]. intros f k. by destruct dir, f. }
  eapply (wp_free_last s2 Hinv2 s2 prio (OVrPrio pr)); try done.
  - apply Hs2.
  - apply frame_refl.
  - apply Hinv2.
  - intros f. destruct (struct_field f) eqn:Hf; [by rewrite (inv_own s2 Hinv2 prio _ f Hp2 Hf)|].
    eapply (engine_none s2 Hinv2); [done|by intros []..|done].
  - eapply (no_links s2 Hinv2); [done|by intros []|]. intros g Hg. simpl in Hg. set_unfold in Hg.
    by destruct Hg as [->|[]].
  - intros _ q oq Hq Hpq. destruct (decide (q = virt)) as [->|Hqv].
    + subst s2. simpl in Hq. rewrite lookup_insert_eq in Hq. simplify_eq. by apply Hsub in Hpq as [_ ?].
    + subst s2. simpl in Hq. rewrite lookup_insert_ne in Hq by done. apply Hqv.
      by eapply (inv_tables s1 (sound_inv _ _ (shr_sound _ _ _ Hs1)) q virt oq (OVirt x)).
  - intros s3 Hs3 Ho3 F3. apply HQ.
    + eapply shrinks_trans; [done|]. eapply shrinks_delete; [done..|]. intros o Ho.
      right; right. by simplify_eq.
    + rewrite Ho3, lookup_delete_ne by done. subst s2. simpl. by rewrite lookup_insert_eq.
    + split; [by rewrite Ho3, lookup_delete_eq|]. intros vr Hvr. rewrite Ho3. apply lookup_delete_None. right.
      apply Hg1 in Hvr. subst s2. simpl. rewrite lookup_insert_ne; [done|]. by intros <-; simplify_eq.
Qed.

Lemma ht_get_set dir T x : ht_get dir (ht_set dir T x) = T.
Proof. by destruct dir. Qed.
Lemma ht_set_set dir T T' x : ht_set dir T' (ht_set dir T x) = ht_set dir T' x.
Proof. by destruct dir. Qed.
Lemma ht_set_id dir x : ht_set dir (ht_get dir x) x = x.
Proof. by destruct dir, x. Qed.
Lemma ht_set_new dir T x : is_new (OVirt (ht_set dir T x)) ↔ is_new (OVirt x).
Proof. by destruct dir. Qed.

Lemma tables_set_sub dir T x : snd <$> T ⊆ snd <$> ht_get dir x → tables (OVirt (ht_set dir T x)) ⊆ tables (OVirt x).
Proof. destruct dir; simpl; rewrite !fmap_app; set_solver. Qed.

Lemma wp_free_dir s virt x dir Q :
  inv s → no_abort s → H.objs s !! virt = Some (OVirt x) → is_new (OVirt x) →
  (∀ s', shrinks (rule_parts s virt x) s s' → H.objs s' !! virt = Some (OVirt (ht_set dir [] x)) →
     prios_gone s s' (snd <$> ht_get dir x) → Q tt s') →
  wp (hash_iter virt dir (do_free_vr_prio virt dir)) s Q.
Proof.
  intros Hinv Hna Hv Hn HQ. unfold hash_iter. hstep.
  eapply (wp_mforeach _ (λ done rest s1, shrinks (rule_parts s virt x) s s1 ∧ prios_gone s s1 done ∧
    ∃ T, H.objs s1 !! virt = Some (OVirt (ht_set dir T x)) ∧ snd <$> T = rest ∧ rest ⊆ snd <$> ht_get dir x)).
  - split; [by apply shrinks_refl|]. split; [by intros prio []%not_elem_of_nil|].
    exists (ht_get dir x). by rewrite ht_set_id.
  - intros done prio rest s1 _ (Hs1 & Hg1 & T & Hv1 & HT & Hsub).
    pose proof (sound_inv _ _ (shr_sound _ _ _ Hs1)) as Hinv1.
    destruct (inv_refs s1 Hinv1 _ _ Hv1) as (_ & _ & _ & Hnd).
    assert (Hin : prio ∈ snd <$> ht_get dir (ht_set dir T x)) by (rewrite ht_get_set, HT; set_solver).
    destruct (tables_delete _ dir prio Hnd Hin) as (_ & _ & Hrest).
    eapply wp_free_prio; [done|apply Hs1|done|done|by rewrite ht_set_new|].
    intros s2 Hs2 Hv2 Hg2. split; [|split].
    { eapply shrinks_trans; [done|]. eapply shrinks_mono; [|done]. intros q o.
      apply rule_parts_since; [apply Hs1|]. by apply tables_set_sub; rewrite HT. }
    { intros q. rewrite elem_of_app, list_elem_of_singleton. intros [Hq| ->].
      - by apply (prios_gone_later _ _ _ _ _ Hs2 Hg1).
      - eapply (prios_gone_since _ _ s s1 s2 [prio]); [done..| |set_solver].
        by intros ? ->%list_elem_of_singleton. }
    rewrite ht_get_set, ht_set_set in *. exists (hash_delete prio T). split; [done|]. split; [|set_solver].
    rewrite hash_delete_snd, HT, filter_cons_False by naive_solver. apply filter_all, Forall_forall.
    assert (Hnd' : NoDup (snd <$> T)).
    { destruct dir; simpl in Hnd; rewrite fmap_app in Hnd; by apply NoDup_app in Hnd as (? & _ & ?). }
    rewrite HT in Hnd'. apply NoDup_cons in Hnd' as [Hni _]. intros q Hq ->. done.
  - intros s' (Hs' & Hg & T & Hv' & HT & _). apply fmap_nil_inv in HT as ->. by apply HQ.
Qed.

Lemma wp_free_all_rules s virt x Q :
  inv s → no_abort s → H.objs s !! virt = Some (OVirt x) → is_new (OVirt x) →
  (∀ s', shrinks (rule_parts s virt x) s s' →
     H.objs s' !! virt = Some (OVirt (ht_set LSDN_OUT [] (ht_set LSDN_IN [] x))) →
     prios_gone s s' (tables (OVirt x)) → Q tt s') →
  wp (lsdn_vr_do_free_all_rules virt) s Q.
Proof.
  intros Hinv Hna Hv Hn HQ. unfold lsdn_vr_do_free_all_rules. rewrite wp_bind.
  eapply wp_free_dir; [done..|]. intros s1 Hs1 Hv1 Hg1. hstep. hstep. rewrite wp_bind.
  eapply wp_free_dir; [apply Hs1|apply Hs1|done|done|]. intros s2 Hs2 Hv2 Hg2. hstep. rewrite wp_assert.
  split; [done|]. apply HQ; [|done|].
  - eapply shrinks_trans; [done|]. eapply shrinks_mono; [|done]. intros q o.
    apply rule_parts_since; [apply Hs1|]. apply (tables_set_sub LSDN_IN). set_solver.
  - intros prio. simpl. rewrite fmap_app, elem_of_app. intros [Hp|Hp].
    + by apply (prios_gone_later _ _ _ _ _ Hs2 Hg1).
    + eapply (prios_gone_since _ _ s s1 s2); [done..|exact Hg2|done].
Qed.

(** Freeing the rules of a virt one by one. *)

Lemma wp_vrs_free s virt x prio Q :
  inv s → no_abort s → H.objs s !! virt = Some (OVirt x) → prio ∈ tables (OVirt x) →
  (∀ s', shrinks (virt_rule s x) s s' → Q tt s') →
  wp (foreach (prio, F_rules_list) lsdn_vr_free) s Q.
Proof.
  intros Hinv Hna Hv Hin HQ. destruct (prio_rules s virt x prio Hinv Hv Hin) as (l & Hl & Hnd & Hmem & Hvr).
  eapply (wp_foreach _ l _ (λ _ rest s1, shrinks (virt_rule s x) s s1 ∧
    (∀ vr, vr ∈ rest → ∃ v, H.objs s1 !! vr = Some (OVr v)))); [done|..].
  - split; [by apply shrinks_refl|]. intros vr (_ & v & ? & _)%Hvr. eauto.
  - intros done vr rest s1 Hsplit (Hs1 & Hrest). destruct (Hrest vr) as (v & Hvr1); [set_solver|].
    assert (Hnd' : vr ∉ rest).
    { rewrite Hsplit in Hnd. apply NoDup_app in Hnd as (_ & _ & [? _]%NoDup_cons). done. }
    eapply wp_vr_free; [apply Hs1|apply Hs1|done|]. intros s2 Hs2. split.
    + eapply shrinks_trans; [done|]. split; try apply Hs2. intros q o Hq Hd.
      apply (shr_keep _ _ _ Hs2); [done|]. intros ->. apply Hd. simplify_eq. exists prio.
      split; [done|]. split; [done|]. apply Hmem. rewrite Hsplit. set_solver.
    + intros q Hq. destruct (Hrest q) as (vq & Hvq); [set_solver|]. exists vq.
      apply (shr_keep _ _ _ Hs2); [done|]. intros ->. done.
  - intros s' [Hs' _]. by apply HQ.
Qed.

Lemma wp_vrs_free_all s virt x Q :
  inv s → no_abort s → H.objs s !! virt = Some (OVirt x) →
  (∀ s', shrinks (virt_rule s x) s s' → H.objs s' !! virt = Some (OVirt x) → Q tt s') →
  wp (lsdn_vrs_free_all virt) s Q.
Proof.
  intros Hinv Hna Hv HQ.
  assert (Hdir : ∀ dir s0 (Q0 : () → heap → Prop), inv s0 → no_abort s0 →
    H.objs s0 !! virt = Some (OVirt x) →
    (∀ s', shrinks (virt_rule s0 x) s0 s' → H.objs s' !! virt = Some (OVirt x) → Q0 tt s') →
    wp (hash_iter virt dir (λ prio, foreach (prio, F_rules_list) lsdn_vr_free)) s0 Q0).
  { intros dir s0 Q0 Hinv0 Hna0 Hv0 HQ0. unfold hash_iter. hstep.
    eapply (wp_mforeach _ (λ _ _ s1, shrinks (virt_rule s0 x) s0 s1 ∧ H.objs s1 !! virt = Some (OVirt x))).
    - split; [by apply shrinks_refl|done].
    - intros done prio rest s1 Hsplit [Hs1 Hv1].
      eapply wp_vrs_free; [apply Hs1|apply Hs1|done| |].
      { apply (tables_dir x dir). rewrite Hsplit. set_solver. }
      intros s2 Hs2. split.
      + eapply shrinks_trans; [done|]. eapply shrinks_mono; [|done]. intros q o. by apply virt_rule_since; [apply Hs1|].
      + apply (shr_keep _ _ _ Hs2); [done|by intros (? & _ & [] & _)].
    - intros s' [Hs' Hv']. by apply HQ0. }
  unfold lsdn_vrs_free_all. rewrite wp_bind. apply Hdir; [done..|]. intros s1 Hs1 Hv1.
  apply Hdir; [apply Hs1|apply Hs1|done|]. intros s2 Hs2 Hv2. apply HQ; [|done].
  eapply shrinks_trans; [done|]. eapply shrinks_mono; [|done]. intros q o. by apply virt_rule_since; [apply Hs1|].
Qed.

(** ** Independence

    A command that does not look at object [p] does the same whatever [p] is. [virt_do_free]
    clears [connected_through] only after it let the attachment go; by independence the
    assignment can be moved before it, where the model is sound. *)

Definition put (p : ptr) (o : obj) (s : heap) : heap := H.set_objs (<[p := o]> (H.objs s)) s.

Definition independent {A} (p : ptr) (m : M heap A) : Prop :=
  ∀ s o, m (put p o s) = match m s with Ok a s' => Ok a (put p o s') | Fault e => Fault e end.

Section independent.
Context (p : ptr).

Lemma ind_ret {A} (a : A) : independent p (mret a).
Proof. done. Qed.
Lemma ind_bind {A B} (m : M heap A) (f : A → M heap B) :
  independent p m → (∀ a, independent p (f a)) → independent p (m ≫= f).
Proof.
  intros Hm Hf s o. unfold mbind, M_bind. rewrite Hm. destruct (m s) as [a s'|]; [|done]. apply Hf.
Qed.
Lemma ind_assert b : independent p (assert_ b).
Proof. by destruct b. Qed.
Lemma ind_lists {A} (m : M (gmap addr (list addr)) A) : independent p (on_lists m).
Proof. intros s o. unfold on_lists, put. simpl. by destruct (m (H.lists s)). Qed.
Lemma ind_get_obj q : q ≠ p → independent p (get_obj q).
Proof.
  intros Hq s o. unfold get_obj, put, mbind, M_bind, get, live. simpl.
  rewrite lookup_insert_ne by done. by destruct (H.objs s !! q).
Qed.
Lemma ind_put_obj q o' : q ≠ p → independent p (put_obj q o').
Proof.
  intros Hq s o. unfold put_obj, put, modify, H.set_objs. simpl. by rewrite insert_insert_ne.
Qed.
Lemma ind_free_obj q : q ≠ p → independent p (free_obj q).
Proof.
  intros Hq. apply ind_bind; [by apply ind_get_obj|]. intros ob s o. unfold put, modify. simpl.
  unfold H.set_objs, H.set_lists. simpl. by rewrite delete_insert_ne.
Qed.
Lemma ind_get_pa q : q ≠ p → independent p (get_pa q).
Proof. intros Hq. apply ind_bind; [by apply ind_get_obj|]. intros ob. by destruct ob. Qed.
Lemma ind_free_pa a : a ≠ p → independent p (free_pa_if_possible a).
Proof.
  intros Ha. apply ind_bind; [apply ind_lists|]. intros b. apply ind_bind; [by apply ind_get_pa|].
  intros x. destruct (b && _); [|apply ind_ret]. unfold free_helper. case_bool_decide.
  - apply ind_bind; [by apply ind_get_pa|]. intros y.
    apply ind_bind; [apply ind_lists|]. intros b'. apply ind_bind; [apply ind_assert|]. intros _.
    apply ind_bind; [apply ind_assert|]. intros _. apply ind_bind; [apply ind_lists|]. intros _.
    apply ind_bind; [apply ind_lists|]. intros _. by apply ind_free_obj.
  - apply ind_bind; [by apply ind_get_pa|]. intros y. by apply ind_put_obj.
Qed.

Lemma wp_update_first (m : M heap ()) f s x Q :
  independent p m → H.objs s !! p = Some (OVirt x) →
  wp m (put p (OVirt (f x)) s) Q → wp (_ ← m; upd_virt p f) s Q.
Proof.
  intros Hm Hp Hwp. rewrite wp_bind. unfold wp in *. rewrite (Hm s (OVirt (f x))) in Hwp.
  assert (Hid : put p (OVirt x) s = s).
  { unfold put, H.set_objs. rewrite insert_id by done. by destruct s. }
  pose proof (Hm s (OVirt x)) as Hsame. rewrite Hid in Hsame.
  destruct (m s) as [[] s'|]; [|done]. injection Hsame as Hs'.
  change (wp (upd_virt p f) s' Q). rewrite wp_upd_virt. exists x. split; [|done].
  rewrite Hs'. apply lookup_insert_eq.
Qed.
End independent.

(** ** Virts *)

(** No committed object looks at a virt that was never committed. *)
Lemma virt_views s virt x :
  inv s → H.objs s !! virt = Some (OVirt x) → is_new (OVirt x) →
  H.lists s !! (virt, F_virt_view_list) = Some [].
Proof.
  intros Hinv Hv Hn. eapply list_none; [done|done|simpl; set_solver|]. intros [q f] Ho.
  destruct (own_inv s q f virt F_virt_view_list Hinv Ho) as (-> & r & Hr & <-).
  destruct (inv_refs s Hinv q _ Hr) as [_ (o & Ho' & _ & Hold)]. by simplify_eq.
Qed.

(** What goes with a virt: its rules, and perhaps its attachment. *)
Definition virt_parts (s : heap) (virt : ptr) (x : Virt.lsdn_virt) : ptr → obj → Prop :=
  λ q o, rule_parts s virt x q o ∨ is_pa o ∧ Virt.connected_through x = Some q.

Lemma virt_parts_since s s1 virt x x1 q o :
  rules_kept s s1 → tables (OVirt x1) ⊆ tables (OVirt x) →
  Virt.connected_through x1 = Virt.connected_through x → virt_parts s1 virt x1 q o → virt_parts s virt x q o.
Proof.
  intros Hk Ht Hc [Hr|[??]]; [left; by eapply rule_parts_since|]. right. by rewrite <-Hc.
Qed.

Lemma virt_parts_kind s virt x q o : virt_parts s virt x q o → q = virt ∨ is_vr o ∨ is_vrprio o ∨ is_pa o.
Proof. intros [[->|[(? & _ & ? & _)|[? _]]]|[? _]]; tauto. Qed.

(** The connection of a virt is given up. *)
Lemma wp_let_go s virt x Q :
  inv s → no_abort s → H.objs s !! virt = Some (OVirt x) →
  (∀ s' y, shrinks (virt_parts s virt x) s s' → H.objs s' !! virt = Some (OVirt y) →
     Virt.connected_through y = None → tables (OVirt y) = tables (OVirt x) →
     (is_new (OVirt y) ↔ is_new (OVirt x)) → Q tt s') →
  wp (match Virt.connected_through x with
      | None => mret tt
      | Some a =>
          _ ← list_remove (virt, F_connected_virt_entry);
          _ ← free_pa_if_possible a;
          upd_virt virt (Virt.set_connected_through None)
      end) s Q.
Proof.
  intros Hinv Hna Hv HQ. destruct (Virt.connected_through x) as [a|] eqn:Hc.
  2: { rewrite wp_ret. by apply (HQ s x); [apply shrinks_refl|..]. }
  assert (Ho : own s (virt, F_connected_virt_entry) = Some (a, F_connected_virt_list)).
  { rewrite (inv_own s Hinv virt _ F_connected_virt_entry Hv eq_refl). simpl. by rewrite Hc. }
  destruct (inv_refs s Hinv _ _ Hv) as (_ & Hpa & _). destruct (Hpa a Hc) as (o & Ha & Hk).
  destruct o as [| | | |pa| | | | | | | | | |]; try done.
  assert (Hav : a ≠ virt) by congruence.
  rewrite wp_bind. eapply wp_leave; [wf_|done|by apply (owned_foreign s Hinv virt (OVirt x) F_connected_virt_entry)|].
  intros s1 R1. apply (wp_update_first virt _ _ s1 x); [by apply ind_free_pa|by rewrite (rl_objs _ _ _ _ _ R1)|].
  set (s2 := put _ _ _). set (y := Virt.set_connected_through None x) in s2.
  assert (F2 : frame virt s s2) by (subst s2; unfold put; frames).
  assert (Ho2 : H.objs s2 = <[virt := OVirt y]> (H.objs s)) by (subst s2; unfold put; by track).
  assert (Hinv2 : inv s2).
  { eapply (inv_connect s s2 virt x y); try done.
    - apply R1.
    - intros g Hg. split; [by apply (rl_own_ne _ _ _ _ _ R1)|by apply (rl_lists_ne _ _ _ _ _ R1)].
    - apply (rl_ifs _ _ _ _ _ R1).
    - apply (rl_rules _ _ _ _ _ R1). }
  assert (Hs2 : sound s s2).
  { apply (sound_frame virt); [done..|]. intros z. by rewrite Ho2, lookup_insert_eq. }
  eapply wp_free_pa; [done|apply Hs2|by rewrite Ho2, lookup_insert_ne|]. intros s3 Hs3 _.
  assert (Hv3 : H.objs s3 !! virt = Some (OVirt y)).
  { apply (shr_keep _ _ _ Hs3); [by rewrite Ho2, lookup_insert_eq|]. unfold at_ptr. congruence. }
  apply (HQ s3 y); [|done..].
  eapply shrinks_trans.
  - eapply (shrinks_insert _ s s2); [done|exact Hv|exact Ho2| |by left; left|].
    + split; [|done]. intros f k. by destruct f.
    + apply (rules_kept_frame virt); [done|]. intros g. subst s2. unfold put. simpl.
      by rewrite (rl_own_ne _ _ _ _ _ R1).
  - split; try apply Hs3. intros q o Hq Hd. apply (shr_keep _ _ _ Hs3); [done|]. intros ->. apply Hd.
    rewrite Ho2, lookup_insert_ne in Hq by done. simplify_eq. by right.
Qed.

(** An unconnected virt without rules. *)
Lemma wp_virt_remove s virt y Q :
  inv s → no_abort s → H.objs s !! virt = Some (OVirt y) → is_new (OVirt y) →
  Virt.connected_through y = None →
  (∀ s', sound s s' → H.objs s' = delete virt (H.objs s) → frame virt s s' → Q tt s') →
  wp (_ ← list_remove (virt, F_virt_entry); _ ← lsdn_name_free virt;
      _ ← lsdn_if_free (virt, F_connected_if); _ ← lsdn_if_free (virt, F_committed_if);
      _ ← del_if (virt, F_connected_if); _ ← del_if (virt, F_committed_if);
      _ ← del_rule (virt, F_policing_rule_in); _ ← del_rule (virt, F_policing_rule_out);
      free_obj virt) s Q.
Proof.
  intros Hinv Hna Hv Hn Hc HQ. destruct (inv_embedded s Hinv _ _ Hv) as ([i1 Hi1] & [i2 Hi2] & _).
  assert (Hown : ∀ f, struct_field f = true → own s (virt, f) = obj_owner (OVirt y) f).
  { intros f Hf. by apply (inv_own s Hinv). }
  pose proof (Hown F_virt_entry eq_refl) as Ho1. simpl in Ho1.
  rewrite wp_bind. eapply wp_leave; [wf_|done|by apply (owned_foreign s Hinv virt (OVirt y) F_virt_entry)|].
  intros s1 R1. rewrite wp_bind.
  eapply wp_name_free; [wf_|by rewrite (rl_objs _ _ _ _ _ R1)|done| |].
  { pose proof (name_entry_inv s Hinv virt _ _ Hv eq_refl) as He. unfold name_entry_ok in *. by track. }
  intros s2 R2. unfold lsdn_if_free. rewrite wp_bind, wp_bind, wp_get_if.
  exists i1. split; [by track|]. rewrite wp_ret. rewrite wp_bind, wp_bind, wp_get_if.
  exists i2. split; [by track|]. rewrite wp_ret. hstep. hstep. hstep. hstep.
  eapply (wp_free_last s Hinv _ virt (OVirt y)); try done.
  - frames.
  - wf_.
  - track. rewrite lookup_insert_eq. by eexists.
  - intros f. destruct (struct_field f) eqn:Hf.
    + destruct (decide (f = F_virt_entry)) as [->|]; [by track|].
      destruct (decide (f = F_name_entry)) as [->|]; [by track|].
      track. rewrite Hown by done. destruct f; simpl; try done. by rewrite Hc.
    + transitivity (own s (virt, f)); [destruct f; try done; by track|].
      eapply (engine_none s Hinv); [done|by intros []..|done|done].
  - eapply (no_links s Hinv); [done..|]. intros g Hg. simpl in Hg. set_unfold in Hg.
    destruct Hg as [->|[]]. by eapply virt_views.
  - intros s' Hs' Ho' F'. apply HQ; [done| |done]. rewrite Ho'. track. by rewrite delete_insert_eq.
Qed.

Lemma wp_virt_do_free s virt x Q :
  inv s → no_abort s → H.objs s !! virt = Some (OVirt x) → is_new (OVirt x) →
  (∀ s', shrinks (virt_parts s virt x) s s' → virt_gone s s' virt x → Q tt s') →
  wp (virt_do_free virt) s Q.
Proof.
  intros Hinv Hna Hv Hn HQ. unfold virt_do_free. rewrite wp_bind.
  eapply wp_free_all_rules; [done..|]. intros s1 Hs1 Hv1 Hg1.
  set (x1 := ht_set LSDN_OUT [] (ht_set LSDN_IN [] x)) in Hv1.
  hstep. rewrite wp_bind. eapply (wp_let_go s1 virt x1); [apply Hs1|apply Hs1|done|].
  intros s2 y Hs2 Hv2 Hc2 Ht2 Hn2.
  eapply wp_virt_remove; [apply Hs2|apply Hs2|done|by apply Hn2|done|].
  intros s3 Hs3 Ho3 F3.
  assert (Hs23 : shrinks (at_ptr virt) s2 s3) by by eapply shrinks_delete.
  apply HQ; [|split; [by rewrite Ho3, lookup_delete_eq|by do 2 (eapply prios_gone_later; [done|])]].
  eapply shrinks_trans; [eapply shrinks_mono; [|done]; by left|].
  eapply shrinks_trans; [|eapply shrinks_mono; [|done]; by left; left].
  eapply shrinks_mono; [|done]. intros q o. apply virt_parts_since; [apply Hs1|simpl; set_solver|done].
Qed.

Lemma wp_virt_free s virt x Q :
  inv s → no_abort s → H.objs s !! virt = Some (OVirt x) →
  (∀ s', shrinks (virt_parts s virt x) s s' → (is_new (OVirt x) → virt_gone s s' virt x) → Q tt s') →
  wp (lsdn_virt_free virt) s Q.
Proof.
  intros Hinv Hna Hv HQ. unfold lsdn_virt_free. rewrite wp_bind. eapply wp_vrs_free_all; [done..|].
  intros s1 Hs1 Hv1. hstep.
  assert (Hs1' : shrinks (virt_parts s virt x) s s1).
  { eapply shrinks_mono; [|done]. intros q o Hr. by left; right; left. }
  unfold free_helper. case_bool_decide as Hst.
  - eapply wp_virt_do_free; [apply Hs1|apply Hs1|done|unfold is_new; simpl; by rewrite Hst|].
    intros s2 Hs2 [Hgone Hg2]. apply HQ; [|by intros _; split; [|eapply prios_gone_since; [..|exact Hg2]]].
    eapply shrinks_trans; [done|].
    eapply shrinks_mono; [|done]. intros q o. by apply virt_parts_since; [apply Hs1|..].
  - hstep. set (y := Virt.set_state _ _). apply HQ.
    + assert (Hsh : same_shape (OVirt x) (OVirt y)).
      { split; [done|]. unfold is_new. simpl. split; [done|]. by intros [= ?]. }
      eapply shrinks_trans; [done|]. eapply shrinks_insert; [|exact Hv1|done|by apply remains_shape|by left; left|by apply rules_kept_same].
      eapply sound_put; [apply Hs1|apply Hs1|done|done|by intros []].
    + unfold is_new. simpl. by intros [= ?].
Qed.
