(* ===== verification/DestroyAll.v ===== *)
(** * Freeing networks, settings and physes of a sound model

    Freeing a container frees or marks everything in it; a container that was never committed
    is empty afterwards and goes at once. *)

From Stdlib Require Import ZArith Lia.
From stdpp Require Import base list gmap strings pretty.
From S2P Require Import Prelude.
From S2P Require Import LStore.
From S2P Require Import Status.
From S2P Require Import Nettypes.
From S2P Require Import Heap.
From S2P Require Import Base.
From S2P Require Import Wp.
From S2P Require Import Model.
From S2P Require Import Inv.
From S2P Require Import Names.
From S2P Require Import Create.
From S2P Require Import Change.
From S2P Require Import Destroy.

(** ** Networks *)

Definition attachment_of (net : ptr) : ptr → obj → Prop := λ _ o, is_pa_of net o.

(** What goes with a network: its virts with their rules and priorities, and its attachments. *)
Definition net_parts (s : heap) (net : ptr) : ptr → obj → Prop := λ q o,
  q = net ∨ attachment_of net q o ∨
  ∃ v x, H.objs s !! v = Some (OVirt x) ∧ Virt.network x = net ∧ rule_parts s v x q o.

(** The virts of a network are gone with their rules. *)
Definition virts_gone (s s' : heap) (net : ptr) : Prop :=
  ∀ v x, H.objs s !! v = Some (OVirt x) → Virt.network x = net → virt_gone s s' v x.

Lemma virt_gone_later D s s1 s2 v x : shrinks D s1 s2 → virt_gone s s1 v x → virt_gone s s2 v x.
Proof. intros Hs [Hv Hp]. split; [by eapply shrinks_gone|by eapply prios_gone_later]. Qed.

Lemma attachment_gone D s s' net q o :
  shrinks D s s' → H.objs s !! q = Some o → attachment_of net q o →
  (∀ o', H.objs s' !! q = Some o' → net ∉ obj_refs o') → H.objs s' !! q = None.
Proof.
  intros Hs Hq Ha Href. destruct (H.objs s' !! q) as [o'|] eqn:E; [|done]. destruct (Href o' eq_refl).
  destruct (shr_old _ _ _ Hs q o' E) as (o1 & Ho1 & Hown & _ & _ & Hk). simplify_eq.
  red in Ha. destruct o; try done. destruct o'; try (by destruct (Hk I)).
  specialize (Hown F_attached_entry _ eq_refl). simpl in Hown. simplify_eq. simpl. set_solver.
Qed.

(** The parts of a network by their kinds. *)
Lemma net_parts_kind s net q o :
  H.objs s !! q = Some o → net_parts s net q o → q = net ∨ is_vr o ∨ is_vrprio o ∨ is_pa o ∨ is_virt o.
Proof.
  intros Hq [->|[Ha|(v & x & Hv & _ & [->|[(? & _ & ? & _)|[? _]]])]]; [tauto| | |tauto..].
  - right. destruct o; try done. simpl. tauto.
  - simplify_eq. simpl. tauto.
Qed.

(** What goes with a virt goes with its network. *)
Lemma virt_net_parts s s1 net v y q o :
  inv s1 → shrinks (net_parts s net) s s1 → H.objs s !! v = Some (OVirt y) →
  H.objs s1 !! v = Some (OVirt y) → Virt.network y = net → H.objs s1 !! q = Some o →
  virt_parts s1 v y q o → net_parts s net q o.
Proof.
  intros Hinv1 Hs1 Hv Hv1 Hnet Hq [Hr|[_ Hc]]; right.
  - right. exists v, y. split_and!; [done..|]. by eapply rule_parts_since; [apply Hs1|..].
  - left. destruct (inv_refs s1 Hinv1 _ _ Hv1) as (_ & Hpa & _). destruct (Hpa q Hc) as (o' & Ho' & Hk).
    simplify_eq. by red.
Qed.

(** One step of a loop that frees the members of a container: the members still to come are
    untouched, and the freed ones are gone if [new]. *)
Definition freeing (D : ptr → obj → Prop) (new : Prop) (s : heap) (done rest : list ptr) (s1 : heap) : Prop :=
  shrinks D s s1 ∧ (∀ q, q ∈ rest → H.objs s1 !! q = H.objs s !! q) ∧
  (new → ∀ q, q ∈ done → H.objs s1 !! q = None).

Lemma freeing_start D new s l : inv s → no_abort s → freeing D new s [] l s.
Proof. intros. split_and!; [by apply shrinks_refl|done|]. by intros _ q []%not_elem_of_nil. Qed.

Lemma freeing_step D D' new s done x rest s1 s2 :
  NoDup (x :: rest) → freeing D new s done (x :: rest) s1 → shrinks D' s1 s2 →
  (∀ q o, H.objs s1 !! q = Some o → D' q o → D q o) →
  (∀ q o, q ∈ rest → H.objs s !! q = Some o → q ≠ x → ¬ D' q o) →
  (∀ q, q ∈ rest → is_Some (H.objs s !! q)) →
  (new → H.objs s2 !! x = None) → freeing D new s (done ++ [x]) rest s2.
Proof.
  intros [Hx _]%NoDup_cons (Hs1 & Hrest & Hdone) Hs2 HD Hother Hlive Hgone. split_and!.
  - eapply shrinks_trans; [done|]. split; try apply Hs2. intros q o Hq Hd.
    apply (shr_keep _ _ _ Hs2); [done|]. eauto.
  - intros q Hq. destruct (Hlive q Hq) as [o Ho]. rewrite Ho. apply (shr_keep _ _ _ Hs2).
    + rewrite Hrest; [done|set_solver].
    + apply Hother; [done..|]. by intros ->.
  - intros Hn q. rewrite elem_of_app, list_elem_of_singleton. intros [Hq | ->]; [|by apply Hgone].
    eapply shrinks_gone; [done|]. by apply Hdone.
Qed.

(** The virts of a network. *)
Lemma net_virts s net x :
  inv s → H.objs s !! net = Some (ONet x) →
  ∃ l, H.lists s !! (net, F_virt_list) = Some l ∧ NoDup (fst <$> l) ∧
    (∀ q, q ∈ fst <$> l ↔ own s (q, F_virt_entry) = Some (net, F_virt_list)) ∧
    (∀ q, q ∈ fst <$> l → ∃ v, H.objs s !! q = Some (OVirt v) ∧ Virt.network v = net).
Proof.
  intros Hinv Hn. destruct (list_objects s net _ F_virt_list F_virt_entry Hinv Hn) as (l & Hl & Hnd & Hmem).
  { simpl. set_solver. }
  { intros q h Ho. by destruct (own_inv s q h net F_virt_list Hinv Ho). }
  exists l. split_and!; [done..|]. intros q Hq%Hmem.
  by destruct (own_inv s q F_virt_entry net F_virt_list Hinv Hq).
Qed.

(** The attachments of a network. *)
Lemma net_attached s net x :
  inv s → H.objs s !! net = Some (ONet x) →
  ∃ l, H.lists s !! (net, F_attached_list) = Some l ∧ NoDup (fst <$> l) ∧
    (∀ q, q ∈ fst <$> l ↔ own s (q, F_attached_entry) = Some (net, F_attached_list)) ∧
    (∀ q, q ∈ fst <$> l → ∃ a, H.objs s !! q = Some (OPa a) ∧ Pa.net a = net).
Proof.
  intros Hinv Hn. destruct (list_objects s net _ F_attached_list F_attached_entry Hinv Hn) as (l & Hl & Hnd & Hmem).
  { simpl. set_solver. }
  { intros q h Ho. by destruct (own_inv s q h net F_attached_list Hinv Ho). }
  exists l. split_and!; [done..|]. intros q Hq%Hmem.
  by destruct (own_inv s q F_attached_entry net F_attached_list Hinv Hq).
Qed.

(** A list that lost all its members. *)
Lemma list_emptied D s s1 p ob f g (l : list ptr) :
  inv s → H.objs s1 !! p = Some ob → f ∈ obj_heads ob → struct_field g = true →
  shrinks D s s1 → (∀ q, q ∈ l ↔ own s (q, g) = Some (p, f)) →
  (∀ q h, own s1 (q, h) = Some (p, f) → h = g) → (∀ q, q ∈ l → H.objs s1 !! q = None) →
  H.lists s1 !! (p, f) = Some [] ∧ ∀ e, own s1 e ≠ Some (p, f).
Proof.
  intros Hinv Hp Hf Hg Hs Hl Hentry Hgone. pose proof (sound_inv _ _ (shr_sound _ _ _ Hs)) as Hinv1.
  assert (Hno : ∀ e, own s1 e ≠ Some (p, f)).
  { intros [q h] Ho. pose proof (Hentry q h Ho) as ->.
    pose proof (shrinks_own _ _ _ _ _ _ Hinv Hs Hg Ho) as Hold. apply Hl, Hgone in Hold.
    by rewrite (inv_own_dead s1 Hinv1) in Ho. }
  split; [|done]. by eapply list_none.
Qed.

Lemma wp_free_virts s net x Q :
  inv s → no_abort s → H.objs s !! net = Some (ONet x) →
  (∀ s', shrinks (net_parts s net) s s' → H.objs s' !! net = Some (ONet x) →
     (is_new (ONet x) → (∀ e, own s' e ≠ Some (net, F_virt_list)) ∧ virts_gone s s' net) → Q tt s') →
  wp (foreach (net, F_virt_list) lsdn_virt_free) s Q.
Proof.
  intros Hinv Hna Hn HQ. destruct (net_virts s net x Hinv Hn) as (l & Hl & Hnd & Hmem & Hv).
  eapply (wp_foreach _ l _ (λ done rest s1, freeing (net_parts s net) (is_new (ONet x)) s done rest s1 ∧
    H.objs s1 !! net = Some (ONet x) ∧
    (is_new (ONet x) → ∀ v y, v ∈ done → H.objs s !! v = Some (OVirt y) → virt_gone s s1 v y))); [done|..].
  - split_and!; [by apply freeing_start|done|]. by intros _ v y []%not_elem_of_nil.
  - intros done v rest s1 Hsplit (Hfr & Hn1 & Hgn). rewrite Hsplit in Hnd. apply NoDup_app in Hnd as (_ & _ & Hnd).
    pose proof Hfr as (Hs1 & Hrest & _).
    destruct (Hv v) as (y & Hy & Hnet); [rewrite Hsplit; set_solver|].
    assert (Hy1 : H.objs s1 !! v = Some (OVirt y)) by (rewrite Hrest; [done|set_solver]).
    eapply wp_virt_free; [apply Hs1|apply Hs1|done|]. intros s2 Hs2 Hgone.
    assert (Hnw : is_new (ONet x) → virt_gone s1 s2 v y).
    { intros Hnew. apply Hgone. destruct (inv_refs s Hinv _ _ Hy) as ((o & Ho & _ & Hset) & _).
      rewrite Hnet in Ho. simplify_eq. by apply Hset. }
    split_and!.
    + eapply freeing_step; [done|done|exact Hs2|..].
      * intros q o Hq. eapply virt_net_parts; [apply Hs1|done..].
      * intros q o Hq Ho Hqv. destruct (Hv q) as (yq & Hyq & _); [rewrite Hsplit; set_solver|].
        simplify_eq. by intros [?|[[]|[[]|[]]]]%virt_parts_kind.
      * intros q Hq. destruct (Hv q) as (yq & -> & _); [rewrite Hsplit; set_solver|]. by eexists.
      * intros Hnew. by destruct (Hnw Hnew).
    + apply (shr_keep _ _ _ Hs2); [done|]. intros [->|[[]|[[]|[]]]]%virt_parts_kind. by simplify_eq.
    + intros Hnew q yq. rewrite elem_of_app, list_elem_of_singleton. intros [Hq| ->] Hyq.
      * eapply virt_gone_later; [done|]. by apply Hgn.
      * simplify_eq. destruct (Hnw Hnew) as [Hg1 Hg2]. split; [done|]. by eapply prios_gone_since; [..|exact Hg2].
  - intros s' ((Hs' & _ & Hdone) & Hn' & Hgn). apply HQ; [done..|]. intros Hnew.
    split; [|intros v y Hy Hnet; apply (Hgn Hnew); [|done]; apply Hmem;
             by rewrite (inv_own s Hinv v _ F_virt_entry Hy eq_refl); simpl; rewrite Hnet].
    pose proof (sound_inv _ _ (shr_sound _ _ _ Hs')) as Hinv'.
    apply (list_emptied (net_parts s net) s s' net (ONet x) F_virt_list F_virt_entry (fst <$> l)); try done.
    + simpl. set_solver.
    + intros q h Ho. by destruct (own_inv s' q h net F_virt_list Hinv' Ho).
    + by apply Hdone.
Qed.

(** An attachment of a network without virts has nothing connected. *)
Lemma pa_unused s net a pa :
  inv s → H.objs s !! a = Some (OPa pa) → Pa.net pa = net → (∀ e, own s e ≠ Some (net, F_virt_list)) →
  H.lists s !! (a, F_connected_virt_list) = Some [].
Proof.
  intros Hinv Ha Hnet Hno. eapply list_none; [done|done|simpl; set_solver|]. intros [q f] Ho.
  destruct (own_inv s q f a F_connected_virt_list Hinv Ho) as (-> & v & Hv & Hc).
  destruct (inv_refs s Hinv _ _ Hv) as (_ & Hpa & _). destruct (Hpa a Hc) as (o & Ho' & Hk).
  simplify_eq. simpl in Hk. apply (Hno (q, F_virt_entry)).
  rewrite (inv_own s Hinv q _ F_virt_entry Hv eq_refl). simpl. by rewrite <-Hk.
Qed.

Lemma wp_free_attached s net x Q :
  inv s → no_abort s → H.objs s !! net = Some (ONet x) →
  (is_new (ONet x) → ∀ e, own s e ≠ Some (net, F_virt_list)) →
  (∀ s', shrinks (attachment_of net) s s' → H.objs s' !! net = Some (ONet x) →
     (is_new (ONet x) → ∀ e, own s' e ≠ Some (net, F_attached_list)) → Q tt s') →
  wp (foreach (net, F_attached_list) phys_detach_by_pa) s Q.
Proof.
  intros Hinv Hna Hn Hno HQ. destruct (net_attached s net x Hinv Hn) as (l & Hl & Hnd & Hmem & Hv).
  eapply (wp_foreach _ l _ (λ done rest s1, freeing (attachment_of net) (is_new (ONet x)) s done rest s1 ∧
    H.objs s1 !! net = Some (ONet x))); [done|..].
  - split; [by apply freeing_start|done].
  - intros done a rest s1 Hsplit [Hfr Hn1]. rewrite Hsplit in Hnd. apply NoDup_app in Hnd as (_ & _ & Hnd).
    pose proof Hfr as (Hs1 & Hrest & _). pose proof (sound_inv _ _ (shr_sound _ _ _ Hs1)) as Hinv1.
    destruct (Hv a) as (y & Hy & Hnet); [rewrite Hsplit; set_solver|].
    assert (Hy1 : H.objs s1 !! a = Some (OPa y)) by (rewrite Hrest; [done|set_solver]).
    eapply wp_detach_pa; [done|apply Hs1|done|]. intros s2 Hs2 Hgone. split.
    + eapply freeing_step; [done|done|exact Hs2|..].
      * intros q o Hq ->. simplify_eq. by red.
      * intros q o Hq Ho Hqa. done.
      * intros q Hq. destruct (Hv q) as (yq & -> & _); [rewrite Hsplit; set_solver|]. by eexists.
      * intros Hnew. apply Hgone.
        -- destruct (inv_refs s Hinv _ _ Hy) as ((o & Ho & _ & Hset) & _).
           rewrite Hnet in Ho. simplify_eq. specialize (Hset Hnew). by injection Hset.
        -- eapply (pa_unused s1 net); [done..|]. intros [q f] Ho.
           destruct (own_inv s1 q f net F_virt_list Hinv1 Ho) as (-> & _).
           apply (shrinks_own _ _ _ q F_virt_entry _ Hinv Hs1 eq_refl) in Ho. by apply (Hno Hnew) in Ho.
    + apply (shr_keep _ _ _ Hs2); [done|]. unfold at_ptr. congruence.
  - intros s' [(Hs' & _ & Hdone) Hn']. apply HQ; [done..|]. intros Hnew.
    pose proof (sound_inv _ _ (shr_sound _ _ _ Hs')) as Hinv'.
    apply (list_emptied (attachment_of net) s s' net (ONet x) F_attached_list F_attached_entry (fst <$> l)); try done.
    + simpl. set_solver.
    + intros q h Ho. by destruct (own_inv s' q h net F_attached_list Hinv' Ho).
    + by apply Hdone.
Qed.

(** The names of the virts of a network without virts. *)
Lemma net_nameless s net :
  inv s → (∀ e, own s e ≠ Some (net, F_virt_list)) → ∀ e, own s e ≠ Some (net, F_virt_names).
Proof.
  intros Hinv Hno [q f] Ho. destruct (own_inv s q f net F_virt_names Hinv Ho) as (-> & ob & n & Hq & _ & Hob).
  destruct ob; simpl in Hob; try done; apply fmap_Some in Hob as (m & _ & Hob); try done.
  injection Hob as ->. apply (Hno (q, F_virt_entry)).
  by rewrite (inv_own s Hinv q _ F_virt_entry Hq eq_refl).
Qed.

Lemma wp_net_do_free s net x Q :
  inv s → no_abort s → H.objs s !! net = Some (ONet x) → is_new (ONet x) →
  (∀ e, own s e ≠ Some (net, F_virt_list)) → (∀ e, own s e ≠ Some (net, F_attached_list)) →
  (∀ s', sound s s' → H.objs s' = delete net (H.objs s) → frame net s s' → Q tt s') →
  wp (net_do_free net) s Q.
Proof.
  intros Hinv Hna Hn Hnew Hnov Hnoa HQ.
  assert (Hv : H.lists s !! (net, F_virt_list) = Some []) by (eapply list_none; [done|done|simpl; set_solver|done]).
  assert (Ha : H.lists s !! (net, F_attached_list) = Some []) by (eapply list_none; [done|done|simpl; set_solver|done]).
  assert (Hm : H.lists s !! (net, F_virt_names) = Some []).
  { eapply list_none; [done|done|simpl; set_solver|]. by apply net_nameless. }
  assert (Hown : ∀ f, struct_field f = true → own s (net, f) = obj_owner (ONet x) f).
  { intros f Hf. by apply (inv_own s Hinv). }
  pose proof (Hown F_networks_entry eq_refl) as Ho1. pose proof (Hown F_settings_users_entry eq_refl) as Ho2.
  simpl in Ho1, Ho2. unfold net_do_free. hstep. rewrite wp_bind. eapply wp_empty_head; [done|]. hstep.
  rewrite wp_bind. eapply wp_empty_head; [done|]. hstep.
  rewrite wp_bind. eapply wp_leave; [wf_|done|by apply (owned_foreign s Hinv net (ONet x) F_networks_entry)|].
  intros s1 R1. rewrite wp_bind.
  eapply wp_leave; [wf_|by track|by apply (owned_foreign s Hinv net (ONet x) F_settings_users_entry)|].
  intros s2 R2. rewrite wp_bind. eapply wp_name_free; [wf_|by track|done| |].
  { pose proof (name_entry_inv s Hinv net _ _ Hn eq_refl) as He. unfold name_entry_ok in *. by track. }
  intros s3 R3. unfold lsdn_names_free. rewrite wp_bind, wp_ret.
  eapply (wp_free_last s Hinv _ net (ONet x)); try done.
  - frames.
  - wf_.
  - track. rewrite lookup_insert_eq. by eexists.
  - intros f. destruct (struct_field f) eqn:Hf.
    + destruct (decide (f = F_networks_entry)) as [->|]; [by track|].
      destruct (decide (f = F_settings_users_entry)) as [->|]; [by track|].
      destruct (decide (f = F_name_entry)) as [->|]; [by track|].
      track. rewrite Hown by done. by destruct f.
    + transitivity (own s (net, f)); [destruct f; try done; by track|].
      eapply (engine_none s Hinv); [done|by intros []..|done].
  - eapply (no_links s Hinv); [done|by intros []|]. intros g Hg. simpl in Hg. set_unfold in Hg.
    by destruct Hg as [->|[->|[->|[]]]].
  - intros s' Hs' Ho' F'. apply HQ; [done| |done]. rewrite Ho'. track. by rewrite delete_insert_eq.
Qed.

Lemma wp_net_free s net x Q :
  inv s → no_abort s → H.objs s !! net = Some (ONet x) →
  (∀ s', shrinks (net_parts s net) s s' → (is_new (ONet x) → H.objs s' !! net = None ∧ virts_gone s s' net) → Q tt s') →
  wp (lsdn_net_free net) s Q.
Proof.
  intros Hinv Hna Hn HQ. unfold lsdn_net_free. rewrite wp_bind. eapply wp_free_virts; [done..|].
  intros s1 Hs1 Hn1 Hno1. rewrite wp_bind. eapply wp_free_attached; [apply Hs1|apply Hs1|done|by apply Hno1|].
  intros s2 Hs2 Hn2 Hno2. hstep.
  assert (Hs : shrinks (net_parts s net) s s2).
  { eapply shrinks_trans; [done|]. eapply shrinks_mono; [|done]. intros q o Ha. by right; left. }
  unfold free_helper. case_bool_decide as Hst.
  - assert (Hnew : is_new (ONet x)) by (unfold is_new; simpl; by rewrite Hst).
    eapply wp_net_do_free; [apply Hs|apply Hs|done|done| |by apply Hno2|].
    { intros [q f] Ho. destruct (own_inv s2 q f net F_virt_list) as (-> & _); [apply Hs2|done|].
      apply (proj1 (Hno1 Hnew) (q, F_virt_entry)), (shrinks_own (attachment_of net) s1 s2 q F_virt_entry); [apply Hs1|done..]. }
    intros s3 Hs3 Ho3 F3. 
    assert (Hs23 : shrinks (at_ptr net) s2 s3) by by eapply shrinks_delete.
    apply HQ; [|intros _; split; [by rewrite Ho3, lookup_delete_eq|]].
    2: { intros v y Hv Hvn. apply (virt_gone_later _ s s2 s3 v y Hs23), (virt_gone_later _ s s1 s2 v y Hs2).
         destruct (Hno1 Hnew) as [_ Hg]. by apply Hg. }
    eapply shrinks_trans; [done|]. eapply shrinks_mono; [|done]. by left.
  - hstep. set (y := Net.set_state _ _). apply HQ.
    + assert (Hsh : same_shape (ONet x) (ONet y)).
      { split; [done|]. unfold is_new. simpl. split; [done|]. by intros [= ?]. }
      eapply shrinks_trans; [done|]. eapply shrinks_insert; [|exact Hn2|done|by apply remains_shape|by left|by apply rules_kept_same].
      eapply sound_put; [apply Hs2|apply Hs2|done|done|by intros []].
    + unfold is_new. simpl. by intros [= ?].
Qed.

(** ** Settings *)

Definition settings_parts (p : ptr) : ptr → obj → Prop :=
  λ q o, q = p ∨ is_vr o ∨ is_vrprio o ∨ is_pa o ∨ is_virt o ∨ is_net o.

Lemma wp_settings_do_free s p x Q :
  inv s → no_abort s → H.objs s !! p = Some (OSettings x) → is_new (OSettings x) →
  (∀ e, own s e ≠ Some (p, F_setting_users_list)) →
  (∀ s', sound s s' → H.objs s' = delete p (H.objs s) → frame p s s' → Q tt s') →
  wp (settings_do_free p) s Q.
Proof.
  intros Hinv Hna Hp Hnew Hno HQ.
  assert (Hl : H.lists s !! (p, F_setting_users_list) = Some []) by (eapply list_none; [done|done|simpl; set_solver|done]).
  assert (Hown : ∀ f, struct_field f = true → own s (p, f) = obj_owner (OSettings x) f).
  { intros f Hf. by apply (inv_own s Hinv). }
  pose proof (Hown F_settings_entry eq_refl) as Ho1. simpl in Ho1.
  unfold settings_do_free. hstep.
  rewrite wp_bind. eapply wp_leave; [wf_|done|by apply (owned_foreign s Hinv p (OSettings x) F_settings_entry)|].
  intros s1 R1. rewrite wp_bind. eapply wp_name_free; [wf_|by track|done| |].
  { pose proof (name_entry_inv s Hinv p _ _ Hp eq_refl) as He. unfold name_entry_ok in *. by track. }
  intros s2 R2. rewrite wp_bind. eapply wp_empty_head; [by track|]. hstep.
  eapply (wp_free_last s Hinv _ p (OSettings x)); try done.
  - frames.
  - wf_.
  - track. rewrite lookup_insert_eq. by eexists.
  - intros f. destruct (struct_field f) eqn:Hf.
    + destruct (decide (f = F_settings_entry)) as [->|]; [by track|].
      destruct (decide (f = F_name_entry)) as [->|]; [by track|].
      track. rewrite Hown by done. by destruct f.
    + transitivity (own s (p, f)); [destruct f; try done; by track|].
      eapply (engine_none s Hinv); [done|by intros []..|done].
  - eapply (no_links s Hinv); [done|by intros []|]. intros g Hg. simpl in Hg. set_unfold in Hg.
    by destruct Hg as [->|[]].
  - intros s' Hs' Ho' F'. apply HQ; [done| |done]. rewrite Ho'. track. by rewrite delete_insert_eq.
Qed.

Lemma settings_nets s p x :
  inv s → H.objs s !! p = Some (OSettings x) →
  ∃ l, H.lists s !! (p, F_setting_users_list) = Some l ∧ NoDup (fst <$> l) ∧
    (∀ q, q ∈ fst <$> l ↔ own s (q, F_settings_users_entry) = Some (p, F_setting_users_list)) ∧
    (∀ q, q ∈ fst <$> l → ∃ n, H.objs s !! q = Some (ONet n) ∧ Net.settings n = p).
Proof.
  intros Hinv Hn.
  destruct (list_objects s p _ F_setting_users_list F_settings_users_entry Hinv Hn) as (l & Hl & Hnd & Hmem).
  { simpl. set_solver. }
  { intros q h Ho. by destruct (own_inv s q h p F_setting_users_list Hinv Ho). }
  exists l. split_and!; [done..|]. intros q Hq%Hmem.
  by destruct (own_inv s q F_settings_users_entry p F_setting_users_list Hinv Hq).
Qed.

Lemma wp_free_nets s p x Q :
  inv s → no_abort s → H.objs s !! p = Some (OSettings x) →
  (∀ s', shrinks (settings_parts p) s s' → H.objs s' !! p = Some (OSettings x) →
     (is_new (OSettings x) → ∀ e, own s' e ≠ Some (p, F_setting_users_list)) → Q tt s') →
  wp (foreach (p, F_setting_users_list) lsdn_net_free) s Q.
Proof.
  intros Hinv Hna Hp HQ. destruct (settings_nets s p x Hinv Hp) as (l & Hl & Hnd & Hmem & Hv).
  eapply (wp_foreach _ l _ (λ done rest s1, freeing (settings_parts p) (is_new (OSettings x)) s done rest s1 ∧
    H.objs s1 !! p = Some (OSettings x))); [done|..].
  - split; [by apply freeing_start|done].
  - intros done n rest s1 Hsplit [Hfr Hp1]. rewrite Hsplit in Hnd. apply NoDup_app in Hnd as (_ & _ & Hnd).
    pose proof Hfr as (Hs1 & Hrest & _).
    destruct (Hv n) as (y & Hy & Hset); [rewrite Hsplit; set_solver|].
    assert (Hy1 : H.objs s1 !! n = Some (ONet y)) by (rewrite Hrest; [done|set_solver]).
    eapply wp_net_free; [apply Hs1|apply Hs1|done|]. intros s2 Hs2 Hgone. split.
    + eapply freeing_step; [done|done|exact Hs2|..].
      * intros q o Hq [->|?]%net_parts_kind; [| |done]; unfold settings_parts; [|tauto]. simplify_eq. simpl. tauto.
      * intros q o Hq Ho Hqv. destruct (Hv q) as (yq & Hyq & _); [rewrite Hsplit; set_solver|].
        simplify_eq. intros Hp'. eapply net_parts_kind in Hp'; [|by rewrite Hrest; [done|set_solver]]. simpl in Hp'. tauto.
      * intros q Hq. destruct (Hv q) as (yq & -> & _); [rewrite Hsplit; set_solver|]. by eexists.
      * intros Hnew. apply Hgone. destruct (inv_refs s Hinv _ _ Hy) as (_ & (o & Ho & _ & Hst)).
        rewrite Hset in Ho. simplify_eq. by apply Hst.
    + apply (shr_keep _ _ _ Hs2); [done|]. intros [->|?]%net_parts_kind; [by simplify_eq|simpl in *; tauto|done].
  - intros s' [(Hs' & _ & Hdone) Hp']. apply HQ; [done..|]. intros Hnew.
    pose proof (sound_inv _ _ (shr_sound _ _ _ Hs')) as Hinv'.
    apply (list_emptied (settings_parts p) s s' p (OSettings x) F_setting_users_list
             F_settings_users_entry (fst <$> l)); try done.
    + simpl. set_solver.
    + intros q h Ho. by destruct (own_inv s' q h p F_setting_users_list Hinv' Ho).
    + by apply Hdone.
Qed.

Lemma wp_settings_free s p x Q :
  inv s → no_abort s → H.objs s !! p = Some (OSettings x) →
  (∀ s', shrinks (settings_parts p) s s' → (is_new (OSettings x) → H.objs s' !! p = None) → Q tt s') →
  wp (lsdn_settings_free p) s Q.
Proof.
  intros Hinv Hna Hp HQ. unfold lsdn_settings_free. rewrite wp_bind. eapply wp_free_nets; [done..|].
  intros s1 Hs1 Hp1 Hno1. hstep. unfold free_helper. case_bool_decide as Hst.
  - assert (Hnew : is_new (OSettings x)) by (unfold is_new; simpl; by rewrite Hst).
    eapply wp_settings_do_free; [apply Hs1|apply Hs1|done|done|by apply Hno1|].
    intros s2 Hs2 Ho2 F2. apply HQ; [|intros _; by rewrite Ho2, lookup_delete_eq].
    eapply shrinks_trans; [done|]. eapply shrinks_delete; [done|done|done|]. by left.
  - hstep. set (y := Settings.set_state _ _). apply HQ.
    + assert (Hsh : same_shape (OSettings x) (OSettings y)).
      { split; [done|]. unfold is_new. simpl. split; [done|]. by intros [= ?]. }
      eapply shrinks_trans; [done|]. eapply shrinks_insert; [|exact Hp1|done|by apply remains_shape|by left|by apply rules_kept_same].
      eapply sound_put; [apply Hs1|apply Hs1|done|done|by intros []].
    + unfold is_new. simpl. by intros [= ?].
Qed.

(** ** Physes *)

Definition phys_parts (p : ptr) : ptr → obj → Prop := λ q o, q = p ∨ is_pa o ∨ is_virt o.

(** The connected virts of [s1] are those of [s], except that some were disconnected. *)
Definition still_connected (s s1 : heap) : Prop :=
  ∀ v y, H.objs s1 !! v = Some (OVirt y) → is_Some (Virt.connected_through y) →
         H.objs s !! v = Some (OVirt y).

Lemma wp_disconnect_all s a pa Q :
  inv s → no_abort s → H.objs s !! a = Some (OPa pa) →
  (∀ v y, H.objs s !! v = Some (OVirt y) → Virt.connected_through y = Some a →
          Virt.state y ≠ LSDN_STATE_DELETE) →
  (∀ s', shrinks (λ _ o, is_virt o) s s' → still_connected s s' →
     H.lists s' !! (a, F_connected_virt_list) = Some [] → Q tt s') →
  wp (foreach (a, F_connected_virt_list) lsdn_virt_disconnect) s Q.
Proof.
  intros Hinv Hna Ha Hdel HQ.
  destruct (list_objects s a _ F_connected_virt_list F_connected_virt_entry Hinv Ha) as (l & Hl & Hnd & Hmem).
  { simpl. set_solver. }
  { intros q h Ho. by destruct (own_inv s q h a F_connected_virt_list Hinv Ho). }
  assert (Hv : ∀ q, q ∈ fst <$> l → ∃ y, H.objs s !! q = Some (OVirt y) ∧ Virt.connected_through y = Some a).
  { intros q Hq%Hmem. by destruct (own_inv s q _ a F_connected_virt_list Hinv Hq). }
  eapply (wp_foreach _ l _ (λ done rest s1,
    shrinks (λ _ o, is_virt o) s s1 ∧ still_connected s s1 ∧
    (∀ q, q ∈ rest → H.objs s1 !! q = H.objs s !! q) ∧
    (∀ q, q ∈ done → ∃ y, H.objs s1 !! q = Some (OVirt y) ∧ Virt.connected_through y = None))); [done|..].
  - split_and!; [by apply shrinks_refl|by intros v y ??|done|by intros q []%not_elem_of_nil].
  - intros done v rest s1 Hsplit (Hs1 & Hst1 & Hrest & Hdone).
    rewrite Hsplit in Hnd. apply NoDup_app in Hnd as (_ & Hdisj & [Hni _]%NoDup_cons).
    destruct (Hv v) as (y & Hy & Hc); [rewrite Hsplit; set_solver|].
    assert (Hy1 : H.objs s1 !! v = Some (OVirt y)) by (rewrite Hrest; [done|set_solver]).
    eapply wp_disconnect; [apply Hs1|apply Hs1|done|by eapply Hdel|]. intros s2 st Hs2 Hstd Hnew Ho2 Hru.
    split_and!.
    + eapply shrinks_trans; [done|]. split; [done|..|done]; rewrite Ho2.
      * intros q o [[<- <-]|[??]]%lookup_insert_Some; [|eauto using remains_refl].
        exists (OVirt y). split; [done|]. split_and!; [by intros []| |done|done].
        unfold is_new. simpl. split; intros [= ?]; f_equal; by apply Hnew.
      * intros q o Hq Hd. rewrite lookup_insert_ne; [done|]. intros <-. apply Hd. by simplify_eq.
    + intros q z. rewrite Ho2. intros [[<- [= <-]]|[??]]%lookup_insert_Some; [by intros [? ?]|by apply Hst1].
    + intros q Hq. rewrite Ho2, lookup_insert_ne by set_solver. apply Hrest. set_solver.
    + intros q. rewrite elem_of_app, list_elem_of_singleton, Ho2. intros [Hq | ->].
      * rewrite lookup_insert_ne; [by apply Hdone|]. intros ->. by destruct (Hdisj q Hq); left.
      * rewrite lookup_insert_eq. by eexists.
  - intros s' (Hs' & Hst' & _ & Hdone). apply HQ; [done..|].
    pose proof (sound_inv _ _ (shr_sound _ _ _ Hs')) as Hinv'.
    eapply (list_none s' Hinv'); [by apply (shr_keep _ _ _ Hs'); [exact Ha|by intros []]|simpl; set_solver|].
    intros [q f] Ho. destruct (own_inv s' q f a F_connected_virt_list Hinv' Ho) as (-> & y & Hy & Hc).
    pose proof (Hst' q y Hy ltac:(by eexists)) as Hold.
    destruct (Hdone q) as (y' & Hy' & Hc'); [|by simplify_eq].
    apply Hmem. rewrite (inv_own s Hinv q _ F_connected_virt_entry Hold eq_refl). simpl. by rewrite Hc.
Qed.

Lemma phys_attached s phys x :
  inv s → H.objs s !! phys = Some (OPhys x) →
  ∃ l, H.lists s !! (phys, F_attached_to_list) = Some l ∧ NoDup (fst <$> l) ∧
    (∀ q, q ∈ fst <$> l ↔ own s (q, F_attached_to_entry) = Some (phys, F_attached_to_list)) ∧
    (∀ q, q ∈ fst <$> l → ∃ a, H.objs s !! q = Some (OPa a) ∧ Pa.phys a = phys).
Proof.
  intros Hinv Hn.
  destruct (list_objects s phys _ F_attached_to_list F_attached_to_entry Hinv Hn) as (l & Hl & Hnd & Hmem).
  { simpl. set_solver. }
  { intros q h Ho. by destruct (own_inv s q h phys F_attached_to_list Hinv Ho). }
  exists l. split_and!; [done..|]. intros q Hq%Hmem.
  by destruct (own_inv s q F_attached_to_entry phys F_attached_to_list Hinv Hq).
Qed.

(** The virts connected through a phys may be disconnected. *)
Definition disconnectable (s : heap) (phys : ptr) : Prop :=
  ∀ v y a pa, H.objs s !! v = Some (OVirt y) → Virt.connected_through y = Some a →
    H.objs s !! a = Some (OPa pa) → Pa.phys pa = phys → Virt.state y ≠ LSDN_STATE_DELETE.

Definition pa_or_virt (a : ptr) : ptr → obj → Prop := λ q o, q = a ∨ is_virt o.

(** One attachment of a phys that is freed. *)
Lemma wp_phys_pa s a pa Q :
  inv s → no_abort s → H.objs s !! a = Some (OPa pa) →
  (∀ v y, H.objs s !! v = Some (OVirt y) → Virt.connected_through y = Some a →
          Virt.state y ≠ LSDN_STATE_DELETE) →
  (∀ s', shrinks (pa_or_virt a) s s' → still_connected s s' →
     (is_new (OPa pa) → H.objs s' !! a = None) → Q tt s') →
  wp (_ ← foreach (a, F_connected_virt_list) lsdn_virt_disconnect; phys_detach_by_pa a) s Q.
Proof.
  intros Hinv Hna Ha Hdel HQ. rewrite wp_bind. eapply wp_disconnect_all; [done..|].
  intros s1 Hs1 Hst1 Hl1.
  assert (Ha1 : H.objs s1 !! a = Some (OPa pa)) by (apply (shr_keep _ _ _ Hs1); [done|by intros []]).
  eapply wp_detach_pa; [apply Hs1|apply Hs1|done|]. intros s2 Hs2 Hgone. apply HQ.
  - eapply shrinks_trans; (eapply shrinks_mono; [|done]); unfold pa_or_virt, at_ptr; tauto.
  - intros v y Hv Hc. apply Hst1; [|done]. pose proof Hv as (o & Ho & _)%(shr_old _ _ _ Hs2).
    assert (Hva : v ≠ a).
    { intros ->. simplify_eq. pose proof (sound_inv _ _ (shr_sound _ _ _ Hs2)) as Hinv2.
      destruct (shr_old _ _ _ Hs2 a _ Hv) as (o' & Ho' & Hr & _). simplify_eq.
      by specialize (Hr F_virt_entry _ eq_refl). }
    pose proof (shr_keep _ _ _ Hs2 v o Ho Hva). congruence.
  - intros Hn. apply Hgone; [by injection Hn|done].
Qed.

Lemma wp_free_attachments s phys x Q :
  inv s → no_abort s → H.objs s !! phys = Some (OPhys x) → disconnectable s phys →
  (∀ s', shrinks (phys_parts phys) s s' → H.objs s' !! phys = Some (OPhys x) →
     (is_new (OPhys x) → ∀ e, own s' e ≠ Some (phys, F_attached_to_list)) → Q tt s') →
  wp (foreach (phys, F_attached_to_list) (λ pa,
        _ ← foreach (pa, F_connected_virt_list) lsdn_virt_disconnect; phys_detach_by_pa pa)) s Q.
Proof.
  intros Hinv Hna Hp Hdis HQ. destruct (phys_attached s phys x Hinv Hp) as (l & Hl & Hnd & Hmem & Hv).
  eapply (wp_foreach _ l _ (λ done rest s1, freeing (phys_parts phys) (is_new (OPhys x)) s done rest s1 ∧
    H.objs s1 !! phys = Some (OPhys x) ∧ still_connected s s1)); [done|..].
  - split_and!; [by apply freeing_start|done|by intros v y ??].
  - intros done a rest s1 Hsplit (Hfr & Hp1 & Hst1). rewrite Hsplit in Hnd.
    apply NoDup_app in Hnd as (_ & _ & Hnd). pose proof Hfr as (Hs1 & Hrest & _).
    destruct (Hv a) as (pa & Hpa & Hphys); [rewrite Hsplit; set_solver|].
    assert (Hpa1 : H.objs s1 !! a = Some (OPa pa)) by (rewrite Hrest; [done|set_solver]).
    eapply wp_phys_pa; [apply Hs1|apply Hs1|done| |].
    { intros v y Hvy Hc. eapply (Hdis v y a pa); [|done..]. apply Hst1; [done|]. rewrite Hc. by eexists. }
    intros s2 Hs2 Hst2 Hgone. split_and!.
    + eapply freeing_step; [done|done|exact Hs2|..].
      * intros q o Hq. unfold pa_or_virt, phys_parts. intros [->|?]; [|tauto]. simplify_eq. simpl. tauto.
      * intros q o Hq Ho Hqa. destruct (Hv q) as (pq & Hpq & _); [rewrite Hsplit; set_solver|].
        simplify_eq. unfold pa_or_virt. simpl. tauto.
      * intros q Hq. destruct (Hv q) as (pq & -> & _); [rewrite Hsplit; set_solver|]. by eexists.
      * intros Hnew. apply Hgone. destruct (inv_refs s Hinv _ _ Hpa) as (_ & (o & Ho & _ & Hset)).
        rewrite Hphys in Ho. simplify_eq. by apply Hset.
    + apply (shr_keep _ _ _ Hs2); [done|]. unfold pa_or_virt. simpl. intros [->|[]]. by simplify_eq.
    + intros v y Hvy Hc. apply Hst1; [|done]. by apply Hst2.
  - intros s' ((Hs' & _ & Hdone) & Hp' & _). apply HQ; [done..|]. intros Hnew.
    pose proof (sound_inv _ _ (shr_sound _ _ _ Hs')) as Hinv'.
    apply (list_emptied (phys_parts phys) s s' phys (OPhys x) F_attached_to_list
             F_attached_to_entry (fst <$> l)); try done.
    + simpl. set_solver.
    + intros q h Ho. by destruct (own_inv s' q h phys F_attached_to_list Hinv' Ho).
    + by apply Hdone.
Qed.

Lemma wp_phys_do_free s p x Q :
  inv s → no_abort s → H.objs s !! p = Some (OPhys x) → is_new (OPhys x) →
  (∀ e, own s e ≠ Some (p, F_attached_to_list)) →
  (∀ s', sound s s' → H.objs s' = delete p (H.objs s) → frame p s s' → Q tt s') →
  wp (phys_do_free p) s Q.
Proof.
  intros Hinv Hna Hp Hnew Hno HQ.
  assert (Hl : H.lists s !! (p, F_attached_to_list) = Some []) by (eapply list_none; [done|done|simpl; set_solver|done]).
  assert (Hown : ∀ f, struct_field f = true → own s (p, f) = obj_owner (OPhys x) f).
  { intros f Hf. by apply (inv_own s Hinv). }
  pose proof (Hown F_phys_entry eq_refl) as Ho1. simpl in Ho1.
  unfold phys_do_free. hstep.
  rewrite wp_bind. eapply wp_leave; [wf_|done|by apply (owned_foreign s Hinv p (OPhys x) F_phys_entry)|].
  intros s1 R1. rewrite wp_bind. eapply wp_name_free; [wf_|by track|done| |].
  { pose proof (name_entry_inv s Hinv p _ _ Hp eq_refl) as He. unfold name_entry_ok in *. by track. }
  intros s2 R2. eapply (wp_free_last s Hinv _ p (OPhys x)); try done.
  - frames.
  - wf_.
  - track. rewrite lookup_insert_eq. by eexists.
  - intros f. destruct (struct_field f) eqn:Hf.
    + destruct (decide (f = F_phys_entry)) as [->|]; [by track|].
      destruct (decide (f = F_name_entry)) as [->|]; [by track|].
      track. rewrite Hown by done. by destruct f.
    + transitivity (own s (p, f)); [destruct f; try done; by track|].
      eapply (engine_none s Hinv); [done|by intros []..|done].
  - eapply (no_links s Hinv); [done|by intros []|]. intros g Hg. simpl in Hg. set_unfold in Hg.
    by destruct Hg as [->|[]].
  - intros s' Hs' Ho' F'. apply HQ; [done| |done]. rewrite Ho'. track. by rewrite delete_insert_eq.
Qed.

Lemma wp_phys_free s p x Q :
  inv s → no_abort s → H.objs s !! p = Some (OPhys x) → disconnectable s p →
  (∀ s', shrinks (phys_parts p) s s' → (is_new (OPhys x) → H.objs s' !! p = None) → Q tt s') →
  wp (lsdn_phys_free p) s Q.
Proof.
  intros Hinv Hna Hp Hdis HQ. unfold lsdn_phys_free. rewrite wp_bind. eapply wp_free_attachments; [done..|].
  intros s1 Hs1 Hp1 Hno1. hstep. unfold free_helper. case_bool_decide as Hst.
  - assert (Hnew : is_new (OPhys x)) by (unfold is_new; simpl; by rewrite Hst).
    eapply wp_phys_do_free; [apply Hs1|apply Hs1|done|done|by apply Hno1|].
    intros s2 Hs2 Ho2 F2. apply HQ; [|intros _; by rewrite Ho2, lookup_delete_eq].
    eapply shrinks_trans; [done|]. eapply shrinks_delete; [done|done|done|]. by left.
  - hstep. set (y := Phys.set_state _ _). apply HQ.
    + assert (Hsh : same_shape (OPhys x) (OPhys y)).
      { split; [done|]. unfold is_new. simpl. split; [done|]. by intros [= ?]. }
      eapply shrinks_trans; [done|]. eapply shrinks_insert; [|exact Hp1|done|by apply remains_shape|by left|by apply rules_kept_same].
      eapply sound_put; [apply Hs1|apply Hs1|done|done|by intros []].
    + unfold is_new. simpl. by intros [= ?].
Qed.
