(* ===== verification/Api.v ===== *)
(** * The API keeps the network model sound

    The calls of the API as one step relation, and the two theorems about all of them: a call
    that respects its precondition returns, keeps the invariant of [Inv] and sends nothing to
    the kernel; hence every state reached from an empty program is sound. *)

From Stdlib Require Import ZArith Lia.
From stdpp Require Import base list gmap strings pretty.
From S2P Require Import Prelude.
From S2P Require Import LStore.
From S2P Require Import Status.
From S2P Require Import Nettypes.
From S2P Require Import Heap.
From S2P Require Import Base.
From S2P Require Import Wp.
From S2P Require Import Model.
From S2P Require Import Rules.
From S2P Require Import Masks.
From S2P Require Import VirtRules.
From S2P Require Import Inv.
From S2P Require Import Names.
From S2P Require Import Create.
From S2P Require Import Change.
From S2P Require Import Destroy.
From S2P Require Import DestroyAll.

(** ** Virt rules *)

Lemma fresh_again s p : inv s → H.objs s !! p = None → (p < H.next_ptr s)%positive → fresh s p.
Proof.
  intros Hinv Hp Hlt. split; [done| | |done]; intros f; [by apply (inv_own_dead s Hinv)|by apply Hinv].
Qed.

(** A rule joins one of the tables of a virt. *)
Lemma wp_vr_link s virt x prio vr a Q :
  inv s → no_abort s → fresh s vr → H.objs s !! virt = Some (OVirt x) → prio ∈ tables (OVirt x) →
  (∀ s', sound s s' → Q (Some vr) s') →
  wp (s1 ← get;
      _ ← new_rule (vr, F_rule) (Rule.set_action a (uninit_rule s1 vr));
      _ ← put_obj vr (OVr (Vr.mk 0 LSDN_STATE_NEW false
                        (replicate LSDN_MAX_MATCHES LSDN_MATCH_NONE)
                        (replicate LSDN_MAX_MATCHES (replicate LSDN_MAX_MATCH_LEN 0%Z))));
      _ ← list_init_add (prio, F_rules_list) (vr, F_rules_entry);
      mret (Some vr)) s Q.
Proof.
  intros Hinv Hna Hf Hv Hin HQ. destruct (inv_refs s Hinv _ _ Hv) as (_ & _ & Ht & _).
  pose proof (Ht prio Hin) as Hprio. pose proof (fresh_ne _ _ _ _ Hf Hprio).
  hstep. hstep. hstep. enter_ Hf s1 R1. rewrite wp_ret.
  assert (F : frame vr s s1) by frames.
  set (ob := OVr _) in R1.
  assert (Hob : H.objs s1 !! vr = Some ob) by (track; by rewrite lookup_insert_eq).
  assert (Hown : ∀ f, own s1 (vr, f) = if decide (f = F_rules_entry) then Some (prio, F_rules_list) else None).
  { intros f. case_decide as E; [subst f; apply R1|]. rewrite (rl_own_ne _ _ _ _ _ R1 f E). apply Hf. }
  apply HQ. apply (sound_frame vr); [done..| |by rewrite Hob].
  eapply (inv_create s s1 vr Hinv F ob); [apply Hf|done|split|split]; try done.
  - intros f Hs. rewrite Hown. by destruct f.
  - intros f []%not_elem_of_nil.
  - track. apply Hf.
  - exists prio. by rewrite Hown.
  - simpl. track. rewrite lookup_insert_eq. by eexists.
  - intros f h Hs. rewrite Hown. case_decide as E; [|done]. intros [= <-]. subst f. simpl.
    split_and!; [done|by exists ob|]. eapply (step_at s); [exact F|done|eauto with closed|done].
  - intros q obq t Hq Hoq []%not_elem_of_nil.
  - intros t v obv []%not_elem_of_nil.
Qed.

Lemma hash_find_in (k : Z) t p : hash_find k t = Some p → p ∈ snd <$> t.
Proof.
  unfold hash_find. intros (kv & Hf & ->)%fmap_Some. apply List.find_some in Hf as [Hin _].
  apply list_elem_of_fmap. exists kv. split; [done|]. by apply list_elem_of_In.
Qed.

(** The priorities [lsdn_vr_new] accepts. *)
Definition vr_prio_ok (prio_num : Z) : bool :=
  (((LSDN_VR_PRIO_MIN <=? prio_num) && (prio_num <? LSDN_VR_PRIO_MAX))
   || (prio_num =? LSDN_PRIO_FORWARD_DST_MAC))%Z.

(** A fresh object is in no table. *)
Lemma fresh_no_table s s' p o0 : inv s → fresh s p → frame p s s' → H.objs s' !! p = Some o0 → tables o0 = [] →
  ∀ q o, H.objs s' !! q = Some o → p ∉ tables o.
Proof.
  intros Hinv Hf F Hp H0 q o Hq Hin. destruct (decide (q = p)) as [->|Hqp].
  - assert (o = o0) as -> by congruence. rewrite H0 in Hin. by apply not_elem_of_nil in Hin.
  - assert (Hq1 : H.objs s !! q = Some o) by (eapply step_same; eauto using tables_no_ctx).
    destruct o; try (by apply not_elem_of_nil in Hin).
    destruct (inv_refs s Hinv _ _ Hq1) as (_ & _ & Ht & _). destruct (Ht p Hin) as (o & Ho & _).
    by rewrite (fresh_obj _ _ Hf) in Ho.
Qed.
Definition with_prio (dir : lsdn_direction) (prio_num : Z) (prio : ptr) (x : Virt.lsdn_virt) : Virt.lsdn_virt :=
  ht_set dir (ht_get dir x ++ [(prio_num, prio)]) x.
Lemma tables_with_prio dir prio_num prio x :
  tables (OVirt (with_prio dir prio_num prio x)) ≡ₚ prio :: tables (OVirt x).
Proof.
  unfold with_prio. destruct dir; simpl; rewrite !fmap_app; simpl.
  - rewrite <-app_assoc. simpl. by rewrite <-Permutation_middle.
  - by rewrite app_assoc, Permutation_app_comm.
Qed.

(** [lsdn_vr_new] makes the table of a priority that has none. *)
Lemma wp_vr_prio s virt x prio_num dir prio Q :
  inv s → no_abort s → fresh s prio → H.objs s !! virt = Some (OVirt x) →
  (∀ s', sound s s' → H.objs s' !! virt = Some (OVirt (with_prio dir prio_num prio x)) →
     (∀ q, H.objs s !! q = None → q ≠ prio → H.objs s' !! q = None) → H.next_ptr s' = H.next_ptr s → Q (Some prio) s') →
  wp (_ ← put_obj prio (OVrPrio (VrPrio.mk prio_num 0 None));
      _ ← list_init (prio, F_rules_list);
      _ ← upd_virt virt (λ v, ht_set dir (ht_get dir v ++ [(prio_num, prio)]) v);
      mret (Some prio)) s Q.
Proof.
  intros Hinv Hna Hf Hv HQ. rewrite wp_bind, wp_put_obj, wp_bind. apply wp_start; [wf_|unlinked_ Hf|]. intros s2 R2.
  assert (F2 : frame prio s s2) by frames.
  assert (Hp2 : H.objs s2 !! prio = Some (OVrPrio (VrPrio.mk prio_num 0 None))) by (track; by rewrite lookup_insert_eq).
  assert (Hinv2 : inv s2).
  { eapply (inv_new s s2 prio); [done..|apply Hf|exact Hp2| |by intros []|done|owners_ Hf| |done|done|done|done].
    - track. apply Hf.
    - simpl. set_unfold. intros f [->|[]]. track. by eexists. }
  assert (Hs2 : sound s s2) by (apply (sound_frame prio); [done..|by rewrite Hp2]).
  assert (Hvp : virt ≠ prio) by (intros ->; by rewrite (fresh_obj _ _ Hf) in Hv).
  assert (Hv2 : H.objs s2 !! virt = Some (OVirt x)) by (track; by rewrite lookup_insert_ne).
  hstep. rewrite wp_ret. fold (with_prio dir prio_num prio x). pose proof (tables_with_prio dir prio_num prio x) as Hy.
  assert (Htab : ∀ q o, H.objs s2 !! q = Some o → prio ∉ tables o) by apply (fresh_no_table s s2 prio _ Hinv Hf F2 Hp2 eq_refl).
  apply HQ; [|apply lookup_insert_eq| |simpl; by track].
  - eapply sound_trans; [done|]. eapply sound_tables; [done|apply Hs2|done|by destruct dir..| |].
    + rewrite Hy. apply NoDup_cons. split; [by eapply Htab|]. by destruct (inv_refs s2 Hinv2 _ _ Hv2) as (_ & _ & _ & ?).
    + intros t. rewrite Hy. intros [->|?]%elem_of_cons; [right|by left]. split_and!; [by eapply at_obj|done|].
      intros [q f] Hq. destruct (decide (q = prio)) as [->|Hqp]; [|by apply (fresh_unlinked s s2 prio q f F_rules_list)].
      destruct (own_inv s2 prio f prio F_rules_list Hinv2 Hq) as (_ & z & Hz). by rewrite Hp2 in Hz.
  - intros q Hq Hqp. simpl. rewrite lookup_insert_ne by congruence. track. by rewrite lookup_insert_ne.
Qed.

Lemma vr_new_spec s virt x prio_num dir a :
  inv s → no_abort s → H.objs s !! virt = Some (OVirt x) → vr_prio_ok prio_num = true →
  wp (lsdn_vr_new virt prio_num dir a) s (λ _ s', sound s s').
Proof.
  intros Hinv Hna Hv Hok. destruct (virt_net s virt x Hinv Hv) as (n & Hn & Hc).
  unfold lsdn_vr_new. rewrite wp_bind, wp_assert. split; [done|]. hstep. hstep. rewrite wp_bind.
  apply wp_malloc_inv; [done..|intros s0 Hinv0 Hna0 Hm0 Ho F0|intros vr s0 Hinv0 Hna0 Ho F0 Hf _].
  { apply wp_ret_ptr; [done|done|by unfold obj_at; rewrite Ho|]. intros l.
    apply sound_events. split; [done..|apply (F0 virt)]. }
  assert (Hs0 : sound s s0) by (split; [done..|apply (F0 virt)]).
  rewrite <-Ho in Hv, Hn. rewrite wp_bind. destruct (hash_find prio_num (ht_get dir x)) as [prio|] eqn:Hfind.
  { rewrite wp_ret. eapply wp_vr_link; [done..|by eapply tables_dir, hash_find_in|].
    intros s' Hs'. by eapply sound_trans. }
  rewrite wp_bind.
  apply wp_malloc_inv; [done..|intros s1 Hinv1 Hna1 Hm1 Ho1 F1|intros prio s1 Hinv1 Hna1 Ho1 F1 Hf1 Hnext].
  { rewrite wp_ret. apply wp_ret_ptr; [done|done|by unfold obj_at; rewrite Ho1, Ho|]. intros l.
    apply sound_events. eapply sound_trans; [done|]. split; [done..|apply (F1 virt)]. }
  assert (Hs1 : sound s s1) by (eapply sound_trans; [done|]; split; [done..|apply (F1 virt)]).
  rewrite <-Ho1 in Hv. eapply (wp_vr_prio s1 virt x); [done..|]. intros s3 Hs3 Hv3 Hnone Hn3.
  pose proof (fresh_lt _ _ Hf). eapply (wp_vr_link s3 virt); [apply Hs3|apply Hs3| |exact Hv3| |].
  - apply fresh_again; [apply Hs3|apply Hnone|].
    + rewrite Ho1. apply Hf.
    + intros ->. lia.
    + pose proof (fr_next _ _ _ (F1 virt)). rewrite Hn3. lia.
  - rewrite tables_with_prio. set_solver.
  - intros s' Hs'. eauto using sound_trans.
Qed.

(** A match is added to a rule. *)
Lemma vr_add_sound s vr x r t value mask :
  inv s → no_abort s → vr_ok s vr x r → (Vr.pos x < Z.of_nat LSDN_MAX_MATCHES)%Z →
  wp (vr_add_masked t vr value mask) s (λ _ s', sound s s').
Proof.
  intros Hinv Hna (Hx & Hr & Hnew & Hpos & Hlen & Hs & _) Hlt.
  destruct (shaped_lengths _ _ _ Hs) as (Hlm & Hlv & _).
  set (pos := Z.to_nat (Vr.pos x)). assert (Hp : (pos < LSDN_MAX_MATCHES)%nat) by lia.
  unfold vr_add_masked. hstep. hstep. hstep.
  { apply bool_decide_true. unfold LSDN_MAX_MATCHES, LSDN_MAX_MATCH_LEN in *. fold pos. lia. }
  hstep; [by apply bool_decide_true|]. fold pos.
  rewrite wp_bind. eapply wp_run; [apply array_set_run; lia|].
  rewrite wp_bind. eapply wp_run; [apply array_set_run; lia|]. hstep. hstep.
  rewrite wp_bind. eapply wp_run; [apply array_set_run; lia|]. hstep.
  set (y := Vr.set_masks _ _). set (s' := H.set_rules _ _).
  assert (F : frame vr s s') by (subst s'; frames).
  assert (Ho : H.objs s' !! vr = Some (OVr y)) by (subst s'; simpl; by rewrite lookup_insert_eq).
  apply (sound_frame vr); [done..| |by rewrite Ho].
  eapply (inv_update s s' vr (OVr x) (OVr y)); [done..| |done|done|]; [by split|].
  intros f [i Hi]. subst s'. simpl. destruct (decide (f = F_rule)) as [->|Hf].
  - rewrite lookup_insert_eq. by eexists.
  - rewrite lookup_insert_ne by congruence. by eexists.
Qed.

Lemma run_match_sound s vr x r c :
  inv s → no_abort s → vr_ok s vr x r → (Vr.pos x < Z.of_nat LSDN_MAX_MATCHES)%Z → call_ok c →
  wp (run_match c vr) s (λ _ s', sound s s').
Proof.
  intros Hinv Hna Hok Hpos Hc. destruct c as [value mask|value mask|value mask|value mask]; simpl in *.
  1,2: by eapply vr_add_sound.
  all: destruct Hc as (_ & _ & Hver); unfold lsdn_vr_add_masked_src_ip, lsdn_vr_add_masked_dst_ip.
  all: rewrite wp_bind, wp_assert; (split; [by apply bool_decide_true|]).
  all: destruct (v value); by eapply vr_add_sound.
Qed.

(** ** Contexts *)

(** Memory before the program starts. *)
Definition empty_heap (env : Env.env) : heap := H.mk env 1 0 [] [] ∅ ∅ ∅ ∅ ∅ ∅ ∅ ∅.

Lemma inv_empty env : inv (empty_heap env).
Proof.
  assert (Hwf : Store.wf (H.lists (empty_heap env))) by by apply Store.wf_check_ok.
  assert (Hown : ∀ e, own (empty_heap env) e = None) by done.
  split; [done|..]; intros; simpl in *; rewrite ?Hown in *; try (by rewrite lookup_empty in *); try done;
    repeat match goal with H : (∅ : gmap _ _) !! _ = Some _ |- _ => by rewrite lookup_empty in H end.
Qed.

Lemma context_new_spec s name :
  inv s → no_abort s → wp (lsdn_context_new name) s (λ r s', sound s s' ∧
    match r with
    | Some ctx => H.objs s !! ctx = None ∧ ∃ c, H.objs s' !! ctx = Some (OCtx c) ∧ Ctx.name c = name
    | None => H.objs s' = H.objs s
    end).
Proof.
  intros Hinv Hna. unfold lsdn_context_new. rewrite wp_bind.
  apply wp_malloc_inv; [done..|intros s0 Hinv0 Hna0 Hm0 Ho F0|intros p s0 Hinv0 Hna0 Ho F0 Hf _].
  { rewrite wp_ret. split; [|done]. split; [done..|apply (F0 1%positive)]. }
  specialize (F0 p). unfold strdup. rewrite wp_bind, wp_try_alloc.
  destruct (alloc_state s0 Hinv0 Hna0 (S (H.allocs s0))) as (Hinv1 & Hna1 & Hs1).
  assert (Hs0 : sound s s0) by (split; [done..|apply F0]).
  destruct (Env.malloc_ok _ _); simpl.
  2: { rewrite wp_ret. split; [by eapply sound_trans|done]. }
  rewrite wp_bind, wp_put_obj. start_ Hf s2 R2. start_ Hf s3 R3. start_ Hf s4 R4. start_ Hf s5 R5.
  start_ Hf s6 R6. start_ Hf s7 R7. rewrite wp_ret.
  assert (F : frame p s0 s7) by frames. set (ob := OCtx _) in R2.
  assert (Hob : H.objs s7 !! p = Some ob) by (track; by rewrite lookup_insert_eq).
  assert (Hinv7 : inv s7).
  { eapply (inv_new s0 s7 p); [done..|apply Hf|exact Hob| |by intros []|done|owners_ Hf| |done|done|done|done].
    - track. apply Hf.
    - simpl. set_unfold. intros f. intros Hin. destruct_or? Hin; try done; subst f; track; by eexists. }
  split.
  - eapply sound_trans; [done|]. split; [done| |apply F]. intros Hoom c x Hc.
    rewrite (frame_oom p s0) in Hoom by done. destruct (decide (c = p)) as [->|Hne].
    + rewrite Hob in Hc. by injection Hc as <-.
    + destruct (step_obj s0 s7 p F c _ Hne Hc) as [?|(a & b & Ha & Hb)]; [by eapply Hna0|].
      destruct (fr_objs _ _ _ F c Hne) as [E|(a' & b' & Ha' & Hb' & Hn)].
      * rewrite E in Hc. by eapply Hna0.
      * rewrite Hb' in Hc. injection Hc as <-. rewrite Hn. by eapply Hna0.
  - rewrite <-Ho. split; [apply Hf|]. by eexists.
Qed.

Lemma sound_ctx s ctx c c' :
  inv s → no_abort s → H.objs s !! ctx = Some (OCtx c) →
  (out_of_memory s → Ctx.nomem_cb c' ≠ Some lsdn_abort_cb) →
  sound s (H.set_objs (<[ctx := OCtx c']> (H.objs s)) s).
Proof.
  intros Hinv Hna Hc Hcb. split; [| |done].
  - eapply (inv_update s _ ctx (OCtx c) (OCtx c')); try done; [apply frame_put|by apply lookup_insert_eq].
  - intros Hoom d x. simpl. intros [[<- [= <-]]|[_ Hd]]%lookup_insert_Some; [by apply Hcb|by eapply Hna].
Qed.

(** ** The calls *)

Inductive api_call :=
| ContextNew (name : string)
| ContextSetOverwrite (ctx : ptr) (overwrite : bool)
| ContextSetNomemCallback (ctx : ptr) (cb : option nomem_cb_t)
| SettingsNew (ctx : ptr) (ops : lsdn_net_ops_tag) (nettype : lsdn_nettype) (switch : lsdn_switch)
    (port : Z) (ip : option lsdn_ip_t)
| SettingsHooks (settings : ptr) (hooks : option user_hooks_t)
| SettingsSetName (settings : ptr) (name : option string)
| SettingsFree (settings : ptr)
| NetNew (settings : ptr) (vnet_id : Z)
| NetSetName (net : ptr) (name : option string)
| NetFree (net : ptr)
| PhysNew (ctx : ptr)
| PhysSetName (phys : ptr) (name : option string)
| PhysFree (phys : ptr)
| PhysSetIface (phys : ptr) (iface : string)
| PhysClearIface (phys : ptr)
| PhysSetIp (phys : ptr) (ip : lsdn_ip_t)
| PhysClearIp (phys : ptr)
| PhysClaimLocal (phys : ptr)
| PhysUnclaimLocal (phys : ptr)
| PhysAttach (phys net : ptr)
| PhysDetach (phys net : ptr)
| VirtNew (net : ptr)
| VirtSetName (virt : ptr) (name : option string)
| VirtFree (virt : ptr)
| VirtConnect (virt phys : ptr) (iface : string)
| VirtDisconnect (virt : ptr)
| VirtSetMac (virt : ptr) (mac : lsdn_mac_t)
| VirtClearMac (virt : ptr)
| VirtSetRateIn (virt : ptr) (rate : lsdn_qos_rate_t)
| VirtSetRateOut (virt : ptr) (rate : lsdn_qos_rate_t)
| VirtClearRateIn (virt : ptr)
| VirtClearRateOut (virt : ptr)
| VrNew (virt : ptr) (prio : Z) (dir : lsdn_direction) (a : lsdn_action_desc)
| VrAddMatch (vr : ptr) (c : match_call)
| VrFree (vr : ptr)
| VrsFreeAll (virt : ptr).

Definition ignore {A} (m : M heap A) : M heap unit := _ ← m; mret tt.

Definition run_call (c : api_call) : M heap unit :=
  match c with
  | ContextNew name => ignore (lsdn_context_new name)
  | ContextSetOverwrite ctx b => lsdn_context_set_overwrite ctx b
  | ContextSetNomemCallback ctx cb => lsdn_context_set_nomem_callback (Some ctx) cb
  | SettingsNew ctx ops nettype switch port ip => ignore (settings_new ctx ops nettype switch port ip)
  | SettingsHooks s h => lsdn_settings_register_user_hooks (Some s) h
  | SettingsSetName s name => ignore (lsdn_settings_set_name s name)
  | SettingsFree s => lsdn_settings_free s
  | NetNew s vnet_id => ignore (lsdn_net_new s vnet_id)
  | NetSetName net name => ignore (lsdn_net_set_name net name)
  | NetFree net => lsdn_net_free net
  | PhysNew ctx => ignore (lsdn_phys_new ctx)
  | PhysSetName phys name => ignore (lsdn_phys_set_name phys name)
  | PhysFree phys => lsdn_phys_free phys
  | PhysSetIface phys iface => ignore (lsdn_phys_set_iface phys iface)
  | PhysClearIface phys => lsdn_phys_clear_iface phys
  | PhysSetIp phys ip => ignore (lsdn_phys_set_ip phys ip)
  | PhysClearIp phys => lsdn_phys_clear_ip phys
  | PhysClaimLocal phys => ignore (lsdn_phys_claim_local phys)
  | PhysUnclaimLocal phys => ignore (lsdn_phys_unclaim_local phys)
  | PhysAttach phys net => ignore (lsdn_phys_attach phys net)
  | PhysDetach phys net => lsdn_phys_detach phys net
  | VirtNew net => ignore (lsdn_virt_new net)
  | VirtSetName virt name => ignore (lsdn_virt_set_name virt name)
  | VirtFree virt => lsdn_virt_free virt
  | VirtConnect virt phys iface => ignore (lsdn_virt_connect virt phys iface)
  | VirtDisconnect virt => lsdn_virt_disconnect virt
  | VirtSetMac virt mac => ignore (lsdn_virt_set_mac virt mac)
  | VirtClearMac virt => lsdn_virt_clear_mac virt
  | VirtSetRateIn virt rate => ignore (lsdn_virt_set_rate_in virt rate)
  | VirtSetRateOut virt rate => ignore (lsdn_virt_set_rate_out virt rate)
  | VirtClearRateIn virt => lsdn_virt_clear_rate_in virt
  | VirtClearRateOut virt => lsdn_virt_clear_rate_out virt
  | VrNew virt prio dir a => ignore (lsdn_vr_new virt prio dir a)
  | VrAddMatch vr c => run_match c vr
  | VrFree vr => lsdn_vr_free vr
  | VrsFreeAll virt => lsdn_vrs_free_all virt
  end.

(** A phys or virt that is not scheduled for deletion. *)
Definition usable_phys (s : heap) (p : ptr) : Prop :=
  ∃ x, H.objs s !! p = Some (OPhys x) ∧ Phys.state x ≠ LSDN_STATE_DELETE.
Definition usable_virt (s : heap) (p : ptr) : Prop :=
  ∃ x, H.objs s !! p = Some (OVirt x) ∧ Virt.state x ≠ LSDN_STATE_DELETE.

(** What a caller has to respect: the objects it passes exist, an object that was freed is
    not used again, generated names are not taken, rules are changed only before they are
    committed and have at most two matches, and [abort] on a lack of memory is asked for only
    if memory does not run out. *)
Definition call_pre (s : heap) (c : api_call) : Prop :=
  match c with
  | ContextNew _ => True
  | ContextSetOverwrite ctx _ => obj_at s ctx is_ctx
  | ContextSetNomemCallback ctx cb =>
      obj_at s ctx is_ctx ∧ (out_of_memory s → cb ≠ Some lsdn_abort_cb)
  | SettingsNew ctx _ _ _ _ _ => ∃ x, H.objs s !! ctx = Some (OCtx x) ∧
      ∀ q, ¬ called s (ctx, F_setting_names) (next_name x "settings") q
  | SettingsHooks p _ | SettingsSetName p _ | SettingsFree p | NetNew p _ =>
      ∃ x, H.objs s !! p = Some (OSettings x)
  | NetSetName p _ | NetFree p | VirtNew p => ∃ x, H.objs s !! p = Some (ONet x)
  | PhysNew ctx => ∃ x, H.objs s !! ctx = Some (OCtx x) ∧
      ∀ q, ¬ called s (ctx, F_phys_names) (next_name x "phys") q
  | PhysSetName p _ | PhysDetach p _ => ∃ x, H.objs s !! p = Some (OPhys x)
  | PhysFree p => (∃ x, H.objs s !! p = Some (OPhys x)) ∧ disconnectable s p
  | PhysSetIface p _ | PhysClearIface p | PhysSetIp p _ | PhysClearIp p | PhysClaimLocal p
  | PhysUnclaimLocal p => usable_phys s p
  | PhysAttach p net => usable_phys s p ∧ ∃ n, H.objs s !! net = Some (ONet n)
  | VirtSetName p _ | VirtFree p | VrsFreeAll p => ∃ x, H.objs s !! p = Some (OVirt x)
  | VirtConnect p phys _ => usable_virt s p ∧ ∃ x, H.objs s !! phys = Some (OPhys x)
  | VirtDisconnect p | VirtSetMac p _ | VirtClearMac p | VirtSetRateIn p _ | VirtSetRateOut p _
  | VirtClearRateIn p | VirtClearRateOut p => usable_virt s p
  | VrNew p prio _ _ => (∃ x, H.objs s !! p = Some (OVirt x)) ∧ vr_prio_ok prio = true
  | VrAddMatch vr c => (∃ x r, vr_ok s vr x r ∧ (Vr.pos x < Z.of_nat LSDN_MAX_MATCHES)%Z) ∧ call_ok c
  | VrFree vr => ∃ x, H.objs s !! vr = Some (OVr x)
  end.

Lemma wp_ignore {A} (m : M heap A) s (P : heap → Prop) :
  wp m s (λ _ s', P s') → wp (ignore m) s (λ _ s', P s').
Proof. intros Hm. unfold ignore. by rewrite wp_bind. Qed.

Lemma hooks_shape x h : same_shape (OSettings x) (OSettings (Settings.set_user_hooks h x)).
Proof. done. Qed.

Lemma run_call_sound s c :
  inv s → no_abort s → call_pre s c → wp (run_call c) s (λ _ s', sound s s').
Proof.
  intros Hinv Hna Hpre.
  destruct c; simpl in Hpre |- *; unfold usable_phys, usable_virt in Hpre; try apply wp_ignore;
    repeat match goal with
    | H : _ ∧ _ |- _ => destruct H
    | H : ∃ _, _ |- _ => destruct H
    end.
  - eapply wp_mono; [by apply context_new_spec|]. by intros ?? [? _].
  - obj_cases. unfold lsdn_context_set_overwrite. rewrite wp_upd_ctx. eexists. split; [done|]. eapply sound_ctx; [done..|].
    simpl. intros Hoom. by eapply Hna.
  - obj_cases. unfold lsdn_context_set_overwrite. rewrite wp_upd_ctx. eexists. split; [done|]. by eapply sound_ctx.
  - eapply wp_mono; [by eapply settings_new_spec|]. intros r s' (? & ? & ?). by eapply sound_new.
  - rewrite wp_upd_settings. eexists. split; [done|]. eapply sound_put; [done..|by intros []].
  - by eapply settings_set_name_spec.
  - eapply wp_settings_free; [done..|]. intros s' Hs _. apply Hs.
  - eapply wp_mono; [by eapply net_new_spec|]. intros r s' (? & ? & ?). by eapply sound_new.
  - by eapply net_set_name_spec.
  - eapply wp_net_free; [done..|]. intros s' Hs _. apply Hs.
  - eapply wp_mono; [by eapply phys_new_spec|]. intros r s' (? & ? & ?). by eapply sound_new.
  - by eapply phys_set_name_spec.
  - eapply wp_phys_free; [done..|]. intros s' Hs _. apply Hs.
  - eapply wp_mono; [by eapply phys_set_iface_spec|]. by intros ?? [? _].
  - by eapply phys_clear_iface_spec.
  - eapply wp_mono; [by eapply phys_set_ip_spec|]. by intros ?? [? _].
  - by eapply phys_clear_ip_spec.
  - by eapply phys_claim_local_spec.
  - by eapply phys_unclaim_local_spec.
  - eapply wp_mono; [by eapply phys_attach_spec|]. by intros ?? [? _].
  - by eapply phys_detach_spec.
  - eapply wp_mono; [by eapply virt_new_spec|]. intros r s' (? & ? & ?). by eapply sound_new.
  - by eapply virt_set_name_spec.
  - eapply wp_virt_free; [done..|]. intros s' Hs _. apply Hs.
  - eapply wp_mono; [by eapply virt_connect_spec|]. by intros ?? [? _].
  - by eapply virt_disconnect_spec.
  - by eapply virt_set_mac_spec.
  - by eapply virt_clear_mac_spec.
  - by eapply (proj1 (virt_set_rate_spec s Hinv Hna _ _ _ ltac:(eassumption) ltac:(eassumption))).
  - by eapply (proj2 (virt_set_rate_spec s Hinv Hna _ _ _ ltac:(eassumption) ltac:(eassumption))).
  - by eapply (proj1 (virt_clear_rate_spec s Hinv Hna _ _ ltac:(eassumption) ltac:(eassumption))).
  - by eapply (proj2 (virt_clear_rate_spec s Hinv Hna _ _ ltac:(eassumption) ltac:(eassumption))).
  - by eapply vr_new_spec.
  - by eapply run_match_sound.
  - eapply wp_vr_free; [done..|]. intros s' Hs. apply Hs.
  - eapply wp_vrs_free_all; [done..|]. intros s' Hs _. apply Hs.
Qed.

(** ** Reachable states *)

(** The states a program can reach by calls that respect their preconditions. *)
Inductive reachable (env : Env.env) : heap → Prop :=
| reach_start : reachable env (empty_heap env)
| reach_call s c s' : reachable env s → call_pre s c → run_call c s = Ok tt s' → reachable env s'.

Lemma reachable_sound env s : reachable env s → sound (empty_heap env) s.
Proof.
  induction 1 as [|s c s' _ IH Hpre Hrun].
  - apply sound_refl; [apply inv_empty|]. intros _ c x Hc. simpl in Hc. by rewrite lookup_empty in Hc.
  - pose proof (run_call_sound s c (sound_inv _ _ IH) (sound_abort _ _ IH) Hpre) as Hwp.
    unfold wp in Hwp. rewrite Hrun in Hwp. by eapply sound_trans.
Qed.

(** Preconditions that can be evaluated: [call_check] implies [call_pre]. Rules are checked
    for [lsdn_vr_add_masked_*] by [vr_ok] only, so that call is always refused here. *)
Definition obj_find (s : heap) (P : obj → bool) : bool := existsb (λ kv, P kv.2) (map_to_list (H.objs s)).

Definition is_called (tab : addr) (key : string) (o : obj) : bool :=
  bool_decide (name_table o = Some tab) && bool_decide (obj_name o = Some (Some key)).

Definition connected_deleted (s : heap) (phys : ptr) (o : obj) : bool :=
  match o with
  | OVirt y =>
      bool_decide (Virt.state y = LSDN_STATE_DELETE) &&
      match a ← Virt.connected_through y; H.objs s !! a with
      | Some (OPa pa) => bool_decide (Pa.phys pa = phys)
      | _ => false
      end
  | _ => false
  end.

#[global] Instance clean_mask_dec t m : Decision (clean_mask t m).
Proof. unfold clean_mask. apply _. Defined.

(** A virt rule that takes one more condition. *)
Fixpoint shaped_check (ts : list lsdn_rule_target) (ms vs : list matchdata) : bool :=
  match ts, ms, vs with
  | [], [], [] => true
  | t :: ts, m :: ms, v :: vs =>
      bool_decide (length m = LSDN_MAX_MATCH_LEN) && bool_decide (length v = LSDN_MAX_MATCH_LEN) &&
      bool_decide (clean_mask t m) && shaped_check ts ms vs
  | _, _, _ => false
  end.
Definition vr_check (x : Vr.lsdn_vr) (r : Rule.lsdn_rule) : bool :=
  bool_decide (Vr.state x = LSDN_STATE_NEW) && bool_decide (0 ≤ Vr.pos x < Z.of_nat LSDN_MAX_MATCHES)%Z &&
  bool_decide (length (Vr.targets x) = LSDN_MAX_MATCHES) &&
  shaped_check (Vr.targets x) (Vr.masks x) (Rule.matches r) &&
  forallb (λ t, bool_decide (t = LSDN_MATCH_NONE)) (drop (Z.to_nat (Vr.pos x)) (Vr.targets x)).

#[global] Instance byte_dec b : Decision (byte b).
Proof. unfold byte. apply _. Defined.
#[global] Instance bytes_ok_dec n l : Decision (bytes_ok n l).
Proof. unfold bytes_ok. apply _. Defined.
Definition match_check (c : match_call) : bool :=
  match c with
  | SrcMac value mask | DstMac value mask => bool_decide (mac_ok value) && bool_decide (mac_ok mask)
  | SrcIp value mask | DstIp value mask =>
      bool_decide (ip_ok value) && bool_decide (ip_ok mask) && bool_decide (v mask = v value)
  end.

Lemma shaped_check_ok ts ms vs : shaped_check ts ms vs = true → shaped ts ms vs ∧ Forall2 clean_mask ts ms.
Proof.
  revert ms vs. induction ts as [|t ts IH]; intros [|m ms] [|v vs]; try done; [by repeat constructor|].
  simpl. rewrite !andb_true_iff, !bool_decide_eq_true. intros [[[? ?] ?] [? ?]%IH]. by repeat constructor.
Qed.
Lemma vr_check_ok s p x r : H.objs s !! p = Some (OVr x) → H.rules s !! (p, F_rule) = Some r →
  vr_check x r = true → vr_ok s p x r ∧ (Vr.pos x < Z.of_nat LSDN_MAX_MATCHES)%Z.
Proof.
  intros Hp Hr. unfold vr_check. rewrite !andb_true_iff, !bool_decide_eq_true.
  intros [[[[Hs [H0 H1]] Hl] [H2 H3]%shaped_check_ok] Hf]. split; [|done]. split_and!; try done.
  intros i t Hi Hle. rewrite forallb_forall in Hf. apply (bool_decide_eq_true_1 (t = LSDN_MATCH_NONE)), Hf, list_elem_of_In.
  apply (list_elem_of_lookup_2 _ (i - Z.to_nat (Vr.pos x))). rewrite lookup_drop. rewrite <-Hi. f_equal. lia.
Qed.
Lemma match_check_ok c : match_check c = true → call_ok c.
Proof. destruct c; simpl; rewrite !andb_true_iff, !bool_decide_eq_true; tauto. Qed.

Definition call_check (s : heap) (c : api_call) : bool :=
  match c with
  | ContextNew _ => true
  | ContextSetOverwrite p _ => match H.objs s !! p with Some (OCtx _) => true | _ => false end
  | ContextSetNomemCallback p cb =>
      match H.objs s !! p, cb with
      | Some (OCtx _), (None | Some (user_nomem_cb _)) => true
      | _, _ => false
      end
  | SettingsNew p _ _ _ _ _ =>
      match H.objs s !! p with
      | Some (OCtx x) => negb (obj_find s (is_called (p, F_setting_names) (next_name x "settings")))
      | _ => false
      end
  | PhysNew p =>
      match H.objs s !! p with
      | Some (OCtx x) => negb (obj_find s (is_called (p, F_phys_names) (next_name x "phys")))
      | _ => false
      end
  | SettingsHooks p _ | SettingsSetName p _ | SettingsFree p | NetNew p _ =>
      match H.objs s !! p with Some (OSettings _) => true | _ => false end
  | NetSetName p _ | NetFree p | VirtNew p =>
      match H.objs s !! p with Some (ONet _) => true | _ => false end
  | PhysSetName p _ | PhysDetach p _ =>
      match H.objs s !! p with Some (OPhys _) => true | _ => false end
  | PhysFree p =>
      match H.objs s !! p with
      | Some (OPhys _) => negb (obj_find s (connected_deleted s p))
      | _ => false
      end
  | PhysSetIface p _ | PhysClearIface p | PhysSetIp p _ | PhysClearIp p | PhysClaimLocal p
  | PhysUnclaimLocal p =>
      match H.objs s !! p with
      | Some (OPhys x) => bool_decide (Phys.state x ≠ LSDN_STATE_DELETE)
      | _ => false
      end
  | PhysAttach p net =>
      match H.objs s !! p, H.objs s !! net with
      | Some (OPhys x), Some (ONet _) => bool_decide (Phys.state x ≠ LSDN_STATE_DELETE)
      | _, _ => false
      end
  | VirtSetName p _ | VirtFree p | VrsFreeAll p =>
      match H.objs s !! p with Some (OVirt _) => true | _ => false end
  | VirtConnect p phys _ =>
      match H.objs s !! p, H.objs s !! phys with
      | Some (OVirt x), Some (OPhys _) => bool_decide (Virt.state x ≠ LSDN_STATE_DELETE)
      | _, _ => false
      end
  | VirtDisconnect p | VirtSetMac p _ | VirtClearMac p | VirtSetRateIn p _ | VirtSetRateOut p _
  | VirtClearRateIn p | VirtClearRateOut p =>
      match H.objs s !! p with
      | Some (OVirt x) => bool_decide (Virt.state x ≠ LSDN_STATE_DELETE)
      | _ => false
      end
  | VrNew p prio _ _ =>
      match H.objs s !! p with Some (OVirt _) => vr_prio_ok prio | _ => false end
  | VrFree p => match H.objs s !! p with Some (OVr _) => true | _ => false end
  | VrAddMatch p m =>
      match H.objs s !! p, H.rules s !! (p, F_rule) with
      | Some (OVr x), Some r => vr_check x r && match_check m
      | _, _ => false
      end
  end.

Lemma obj_find_false s P p o : obj_find s P = false → H.objs s !! p = Some o → P o = false.
Proof.
  intros Hf Hp. destruct (P o) eqn:E; [|done]. rewrite <-Hf. symmetry. apply existsb_exists.
  exists (p, o). split; [|done]. by apply list_elem_of_In, elem_of_map_to_list.
Qed.

Lemma not_called s tab key : obj_find s (is_called tab key) = false → ∀ q, ¬ called s tab key q.
Proof.
  intros Hf q (o & Hq & Ht & Hn). apply (obj_find_false _ _ _ _ Hf) in Hq. unfold is_called in Hq.
  by rewrite Ht, Hn, !bool_decide_eq_true_2 in Hq.
Qed.

Lemma call_check_ok s c : call_check s c = true → call_pre s c.
Proof.
  intros Hc. destruct c; simpl in *; unfold usable_phys, usable_virt; try done;
    repeat match goal with
    | H : context [match H.objs s !! ?p with _ => _ end] |- _ =>
        destruct (H.objs s !! p) as [[]|] eqn:?; try done
    | H : bool_decide _ = true |- _ => apply bool_decide_eq_true_1 in H
    | H : negb _ = true |- _ => apply negb_true_iff in H
    end; eauto 6 using not_called.
  - by eexists.
  - destruct cb as [[]|]; try done; split; [by eexists|done|by eexists|done].
  - split; [by eexists|]. intros v y a pa Hv Hy Ha Hphys Hdel.
    apply (obj_find_false _ _ _ _ Hc) in Hv. simpl in Hv. rewrite Hy in Hv. simpl in Hv. rewrite Ha in Hv.
    by rewrite !bool_decide_eq_true_2 in Hv.
  - destruct (H.rules s !! (vr, F_rule)) as [r|] eqn:Hr; [|done]. apply andb_true_iff in Hc as [Hv Hm].
    split; [|by apply match_check_ok]. eexists _, r. by apply vr_check_ok.
Qed.

(** Runs a program of checked calls. *)
Fixpoint run_checked (cs : list api_call) (s : heap) : option heap :=
  match cs with
  | [] => Some s
  | c :: cs =>
      if call_check s c then
        match run_call c s with Ok _ s' => run_checked cs s' | Fault _ => None end
      else None
  end.

Lemma run_checked_reachable env cs s s' :
  reachable env s → run_checked cs s = Some s' → reachable env s'.
Proof.
  revert s. induction cs as [|c cs IH]; intros s Hr; simpl; [by intros [= <-]|].
  destruct (call_check s c) eqn:Hc; [|done]. destruct (run_call c s) as [[] s1|] eqn:Hrun; [|done].
  apply IH. eapply reach_call; [done|by apply call_check_ok|done].
Qed.

(** C2: every call of the API that respects its precondition, from every state reachable by
    such calls, returns without a fault (no failed assertion, no use of freed memory, no broken
    list), keeps the invariant of the network model and sends nothing to the kernel. *)
Theorem api_safe env s c :
  reachable env s → call_pre s c →
  ∃ s', run_call c s = Ok tt s' ∧ reachable env s' ∧ inv s' ∧ H.trace s' = [].
Proof.
  intros Hr Hpre. pose proof (reachable_sound env s Hr) as Hs.
  pose proof (run_call_sound s c (sound_inv _ _ Hs) (sound_abort _ _ Hs) Hpre) as Hwp.
  unfold wp in Hwp. destruct (run_call c s) as [[] s'|] eqn:Hrun; [|done].
  exists s'. split_and!; [done|by eapply reach_call|apply Hwp|].
  by rewrite (sound_trace _ _ Hwp), (sound_trace _ _ Hs).
Qed.

(** C16: [lsdn_name_set] on an object of a sound model either makes the object the one that
    [lsdn_names_search] finds under the name, or answers DUPLICATE because the search finds
    another one, or fails for lack of memory; names stay unique. *)
Theorem name_set_search s p ob n tab str :
  inv s → H.objs s !! p = Some ob → obj_name ob = Some n → name_table ob = Some tab →
  wp (lsdn_name_set p tab (Some str)) s (λ err s', inv s' ∧
    match err with
    | LSDNE_OK => wp (lsdn_names_search tab (Some str)) s' (λ r _, r = Some p)
    | LSDNE_DUPLICATE => s' = s ∧ ∃ q, q ≠ p ∧ wp (lsdn_names_search tab (Some str)) s (λ r _, r = Some q)
    | _ => err = LSDNE_NOMEM ∧ H.objs s' = H.objs s ∧ Env.malloc_ok (H.env s) (H.allocs s) = false
    end).
Proof.
  intros Hinv Hp Hn Ht. destruct (table_head s p ob tab Hinv Hp Ht) as (Hf & Hh & _). destruct tab as [c f].
  assert (Hfind : ∀ s' q, inv s' → is_Some (H.lists s' !! (c, f)) → called s' (c, f) str q →
    wp (lsdn_names_search (c, f) (Some str)) s' (λ r _, r = Some q)).
  { intros s' q Hi Hl Hq. apply search_spec; [done..|]. intros [r|] Hr; [|by destruct (Hr q)].
    f_equal. by eapply called_unique. }
  eapply wp_set_name; [done..|]. intros err s' Hinv' Hfr Hpost. split; [done|].
  destruct Hpost as [s' Hq Ho|q Hq Hne|s' Hm Ho].
  - assert (Hp' : H.objs s' !! p = Some (obj_set_name (Some str) ob)) by by rewrite Ho, lookup_insert_eq.
    assert (Ht' : name_table (obj_set_name (Some str) ob) = Some (c, f)) by (rewrite <-Ht; by destruct ob).
    destruct (table_head s' p _ (c, f) Hinv' Hp' Ht') as (_ & Hh' & _).
    apply Hfind; [done..|]. exists (obj_set_name (Some str) ob). split_and!; [done..|].
    by eapply obj_set_name_name.
  - split; [done|]. exists q. split; [done|]. by apply Hfind.
  - done.
Qed.

(** C17: a virt is connected by [lsdn_virt_connect] to the phys it was asked for, through an
    attachment of that phys to the virt's network, unless memory runs out; the model stays
    sound in both cases. *)
Theorem connect_reaches env s virt phys iface :
  reachable env s → call_pre s (VirtConnect virt phys iface) →
  wp (lsdn_virt_connect virt phys iface) s (λ err s', inv s' ∧
    match err with
    | LSDNE_OK => ∃ y a z, H.objs s' !! virt = Some (OVirt y) ∧ Virt.connected_through y = Some a ∧
        H.objs s' !! a = Some (OPa z) ∧ Pa.phys z = phys ∧ Pa.net z = Virt.network y ∧
        own s' (virt, F_connected_virt_entry) = Some (a, F_connected_virt_list)
    | _ => err = LSDNE_NOMEM
    end).
Proof.
  intros Hr ((x & Hx & Hst) & ph & Hph). pose proof (reachable_sound env s Hr) as Hs.
  eapply wp_mono; [eapply virt_connect_spec; [apply Hs|apply Hs|done..]|].
  intros err s' [Hs' Hpost]. split; [apply Hs'|]. destruct err; try done.
  destruct Hpost as (y & a & z & Hy & Hc & Hz & Hzp & Hzn). exists y, a, z.
  pose proof (sound_inv _ _ Hs') as Hinv'. split_and!; try done.
  - destruct (inv_refs s' Hinv' _ _ Hy) as (_ & Hpa & _). destruct (Hpa a Hc) as (o & Ho & Hk).
    simplify_eq. done.
  - rewrite (inv_own s' Hinv' virt _ F_connected_virt_entry Hy eq_refl). simpl. by rewrite Hc.
Qed.

(** C18: freeing a network that was never committed leaves nothing of it behind and touches
    nothing else. In a state of the invariant its parts are the network, its virts, the
    priorities in the tables of those virts, the rules listed in these priorities, and the
    attachments of this network. Every one of them is gone afterwards and nothing refers to the
    network; every other object of the heap, the virts, rules and attachments of other networks
    included, is there with the same contents; no new object appears and the invariant holds. *)
Theorem free_new_network s net x :
  inv s → no_abort s → H.objs s !! net = Some (ONet x) → Net.state x = LSDN_STATE_NEW →
  wp (lsdn_net_free net) s (λ _ s', inv s' ∧ H.objs s' !! net = None ∧
    (∀ q o, H.objs s' !! q = Some o → is_Some (H.objs s !! q)) ∧
    (∀ q o, H.objs s !! q = Some o → net_parts s net q o → H.objs s' !! q = None) ∧
    (∀ q o, H.objs s !! q = Some o → ¬ net_parts s net q o → H.objs s' !! q = Some o) ∧
    (∀ q o, H.objs s' !! q = Some o → net ∉ obj_refs o)).
Proof.
  intros Hinv Hna Hn Hst. eapply wp_net_free; [done..|]. intros s' Hs Hgone.
  destruct Hgone as [Hg Hgv]; [unfold is_new; simpl; by rewrite Hst|].
  assert (Href : ∀ q o, H.objs s' !! q = Some o → net ∉ obj_refs o).
  { intros q o Hq Hr. destruct (refs_live s' q o net (sound_inv _ _ (shr_sound _ _ _ Hs)) Hq Hr) as [? ?].
    congruence. }
  split_and!; [apply Hs|done| | |apply Hs|done].
  - intros q o (o' & -> & _)%(shr_old _ _ _ Hs). by eexists.
  - intros q o Hq [->|[Ha|(v & y & Hv & Hvn & Hp)]]; [done| |].
    + eapply attachment_gone; [exact Hs|exact Hq|exact Ha|apply Href].
    + destruct (Hgv v y Hv Hvn) as [Hvg Hpg].
      destruct Hp as [->|[(prio & Hin & _ & Ho)|[_ Hin]]]; [done|by apply (Hpg prio Hin)|by apply Hpg].
Qed.

(** ** A concrete program *)

Definition api_env : Env.env :=
  Env.mk (λ _, true) (λ _, replicate 2 (replicate 16 0%Z)) (λ _, 0%Z) (λ _ _, 7%Z) true (λ _ _, true).

Definition api_demo : list api_call :=
  [ContextNew "demo"; SettingsNew 1 lsdn_net_direct_ops LSDN_NET_DIRECT LSDN_LEARNING 0 None;
   NetNew 2 5; PhysNew 1; VirtNew 3; VirtNew 3; VirtConnect 5 4 "eth0"; VrNew 5 10 LSDN_IN LSDN_VR_DROP;
   VirtSetName 5 (Some "a"%string)].

Definition api_state : heap := default (empty_heap api_env) (run_checked api_demo (empty_heap api_env)).

Lemma api_state_run : run_checked api_demo (empty_heap api_env) = Some api_state.
Proof.
  assert (Hok : bool_decide (is_Some (run_checked api_demo (empty_heap api_env))) = true)
    by (vm_compute; reflexivity).
  apply bool_decide_eq_true_1 in Hok as [s Hs]. unfold api_state. by rewrite Hs.
Qed.

Lemma api_state_reachable : reachable api_env api_state.
Proof. exact (run_checked_reachable _ _ _ _ (reach_start _) api_state_run). Qed.

Lemma api_state_sound : sound (empty_heap api_env) api_state.
Proof. apply reachable_sound, api_state_reachable. Qed.

Lemma api_safe_witness :
  call_pre api_state (NetFree 3) ∧
  ∃ s', run_call (NetFree 3) api_state = Ok tt s' ∧ reachable api_env s' ∧ inv s' ∧ H.trace s' = [].
Proof.
  assert (Hpre : call_pre api_state (NetFree 3)) by (apply call_check_ok; vm_compute; reflexivity).
  split; [exact Hpre|]. exact (api_safe api_env api_state (NetFree 3) api_state_reachable Hpre).
Defined.

Definition obj_of (s : heap) (p : ptr) : obj := default (OFlower (Flower.mk [] 0)) (H.objs s !! p).

Lemma name_set_search_witness :
  wp (lsdn_name_set 6 (3%positive, F_virt_names) (Some "a"%string)) api_state (λ err s', inv s' ∧
    match err with
    | LSDNE_OK => wp (lsdn_names_search (3%positive, F_virt_names) (Some "a"%string)) s' (λ r _, r = Some 6%positive)
    | LSDNE_DUPLICATE => s' = api_state ∧ ∃ q, q ≠ 6%positive ∧
        wp (lsdn_names_search (3%positive, F_virt_names) (Some "a"%string)) api_state (λ r _, r = Some q)
    | _ => err = LSDNE_NOMEM ∧ H.objs s' = H.objs api_state ∧
           Env.malloc_ok (H.env api_state) (H.allocs api_state) = false
    end).
Proof.
  apply (name_set_search api_state 6 (obj_of api_state 6) None (3%positive, F_virt_names) "a").
  - apply api_state_sound.
  - vm_compute. reflexivity.
  - vm_compute. reflexivity.
  - vm_compute. reflexivity.
Defined.

Lemma connect_reaches_witness :
  wp (lsdn_virt_connect 6 4 "eth1") api_state (λ err s', inv s' ∧
    match err with
    | LSDNE_OK => ∃ y a z, H.objs s' !! 6%positive = Some (OVirt y) ∧ Virt.connected_through y = Some a ∧
        H.objs s' !! a = Some (OPa z) ∧ Pa.phys z = 4%positive ∧ Pa.net z = Virt.network y ∧
        own s' (6%positive, F_connected_virt_entry) = Some (a, F_connected_virt_list)
    | _ => err = LSDNE_NOMEM
    end).
Proof.
  apply (connect_reaches api_env api_state 6 4 "eth1" api_state_reachable).
  apply call_check_ok. vm_compute. reflexivity.
Defined.

Lemma free_new_network_witness :
  wp (lsdn_net_free 3) api_state (λ _ s', inv s' ∧ H.objs s' !! 3%positive = None ∧
    (∀ q o, H.objs s' !! q = Some o → is_Some (H.objs api_state !! q)) ∧
    (∀ q o, H.objs api_state !! q = Some o → net_parts api_state 3 q o → H.objs s' !! q = None) ∧
    (∀ q o, H.objs api_state !! q = Some o → ¬ net_parts api_state 3 q o → H.objs s' !! q = Some o) ∧
    (∀ q o, H.objs s' !! q = Some o → 3%positive ∉ obj_refs o)).
Proof.
  apply (free_new_network api_state 3 (Net.mk LSDN_STATE_NEW false None 1 2 5)).
  - apply api_state_sound.
  - apply api_state_sound.
  - vm_compute. reflexivity.
  - reflexivity.
Defined.
