(* ===== verification/Links.v ===== *)
(** * What the bridged network types do to the kernel's links

    The networks on a Linux bridge (vlan, vxlan with multicast, vxlan end to end): attaching
    creates the tunnel and the bridge and connects them, a refusal in the middle is undone, and
    detaching removes what attaching created. When memory runs out after the kernel has
    acknowledged a link, that link stays behind. *)

From Stdlib Require Import ZArith Lia.
From stdpp Require Import base list gmap strings pretty.
From S2P Require Import Prelude.
From S2P Require Import Status.
From S2P Require Import Nettypes.
From S2P Require Import Heap.
From S2P Require Import Base.
From S2P Require Import Wp.
From S2P Require Import Model.
From S2P Require Import Nl.
From S2P Require Import Kernel.
From S2P Require Import LBridge.
From S2P Require Import Commit.
From S2P Require Import NetOps.

Local Open Scope Z_scope.

(** ** The links of a kernel *)

(** Indices are positive and not yet used up, masters exist or are 0, names are unique. *)
Definition kwf (k : kstate) : Prop :=
  0 < next_index k ∧
  (∀ i l, links k !! i = Some l → 0 < i < next_index k ∧ l_master l < next_index k) ∧
  (∀ i j l l', links k !! i = Some l → links k !! j = Some l' → l_name l = l_name l' → i = j).

Definition taken (n : string) (k : kstate) : Prop := ∃ i l, links k !! i = Some l ∧ l_name l = n.

Lemma index_of_taken k i l : kwf k → links k !! i = Some l → index_of (l_name l) k = i.
Proof.
  intros (_ & _ & Hn) Hi. unfold index_of.
  destruct (filter _ _) as [|[j l'] r] eqn:E.
  - exfalso. assert (Hin : (i, l) ∈ @nil (Z * link)); [|by apply not_elem_of_nil in Hin].
    rewrite <-E. apply list_elem_of_filter. split; [done|]. by apply elem_of_map_to_list.
  - assert (Hin : (j, l') ∈ filter (λ kv : Z * link, l_name kv.2 = l_name l) (map_to_list (links k))).
    { rewrite E. set_solver. }
    apply list_elem_of_filter in Hin as [Hl Hj]. apply elem_of_map_to_list in Hj. by eapply Hn.
Qed.

Lemma index_of_free k n : kwf k → index_of n k = 0 ↔ ¬ taken n k.
Proof.
  intros Hk. split.
  - intros H0 (i & l & Hi & <-). rewrite (index_of_taken _ _ _ Hk Hi) in H0. subst i.
    destruct Hk as (_ & Hb & _). apply Hb in Hi. lia.
  - intros Hf. unfold index_of. destruct (filter _ _) as [|[j l'] r] eqn:E; [done|]. exfalso.
    assert (Hin : (j, l') ∈ filter (λ kv : Z * link, l_name kv.2 = n) (map_to_list (links k))).
    { rewrite E. set_solver. }
    apply list_elem_of_filter in Hin as [Hl Hj]. apply elem_of_map_to_list in Hj.
    apply Hf. by exists j, l'.
Qed.

(** Creating a link under a free name. *)
Lemma kwf_create n kd k : kwf k → ¬ taken n k → kwf (create_link n kd k).
Proof.
  intros (Hp & Hb & Hu) Hf. unfold create_link. split_and!; simpl; [lia| |].
  - intros i l [[<- <-]|[_ Hi]]%lookup_insert_Some; simpl; [lia|]. apply Hb in Hi. lia.
  - intros i j l l' [[<- <-]|[_ Hi]]%lookup_insert_Some [[<- <-]|[_ Hj]]%lookup_insert_Some; simpl; try done.
    + intros Hn. exfalso. apply Hf. by exists j, l'.
    + intros Hn. exfalso. apply Hf. by exists i, l.
    + by apply Hu.
Qed.

Lemma create_fresh k : kwf k → links k !! next_index k = None.
Proof.
  intros (_ & Hb & _). destruct (links k !! next_index k) eqn:E; [|done]. apply Hb in E. lia.
Qed.

(** Changing links in place, without renaming them. *)
Lemma kwf_alter f i k :
  kwf k → (∀ l, l_name (f l) = l_name l) → (∀ l, l_master l < next_index k → l_master (f l) < next_index k) →
  kwf (KState (alter f i (links k)) (next_index k)).
Proof.
  intros (Hp & Hb & Hu) Hn Hm. split_and!; simpl; [done| |].
  - intros j l Hj. apply lookup_alter_Some in Hj as [(<- & l0 & Hl & ->)|[_ Hj]]; [|eauto].
    apply Hb in Hl. split; [lia|]. apply Hm. lia.
  - intros j1 j2 l1 l2 H1 H2.
    apply lookup_alter_Some in H1 as [(<- & l3 & H1 & ->)|[? H1]];
    apply lookup_alter_Some in H2 as [(<- & l4 & H2 & ->)|[? H2]]; rewrite ?Hn; eauto.
Qed.

(** Deleting a link that is the master of no other. *)
Lemma delete_unmastered i k :
  (∀ j l, links k !! j = Some l → j ≠ i → l_master l ≠ i) →
  links (delete_link i k) = delete i (links k).
Proof.
  intros Hm. apply map_eq. intros j. unfold delete_link. simpl. rewrite lookup_fmap.
  destruct (decide (j = i)) as [->|Hj]; [by rewrite lookup_delete_eq|].
  rewrite lookup_delete_ne by done. destruct (links k !! j) as [l|] eqn:E; [|done]. simpl. f_equal.
  unfold release. rewrite bool_decide_false; [done|]. by eapply Hm.
Qed.

Lemma kwf_delete i k : kwf k → kwf (delete_link i k).
Proof.
  intros (Hp & Hb & Hu).
  assert (Hl : ∀ j l, links (delete_link i k) !! j = Some l → ∃ l0, links k !! j = Some l0 ∧
            l_name l = l_name l0 ∧ (l_master l = l_master l0 ∨ l_master l = 0)).
  { intros j l. unfold delete_link. simpl. rewrite lookup_fmap.
    intros (l0 & [_ Hj]%lookup_delete_Some & ->)%fmap_Some. exists l0. split; [done|].
    unfold release. case_bool_decide; simpl; eauto. }
  split_and!; [done| |].
  - intros j l (l0 & H0%Hb & _ & [-> | ->])%Hl; simpl; lia.
  - intros j1 j2 l1 l2 (l3 & H1 & -> & _)%Hl (l4 & H2 & -> & _)%Hl. eauto.
Qed.

(** ** Requests *)

Section requests.
Context (k0 : kstate) (tr0 : list (request * bool)).

(** The links after the requests of a state. *)
Definition K (s : heap) : kstate := kernel k0 (H.trace s).

(** A context with its socket, on a sane kernel; [tr0] are the requests sent before. *)
Record ready (s : heap) (ctx : ptr) (c : Ctx.lsdn_context) : Prop := {
  rd_ctx : H.objs s !! ctx = Some (OCtx c);
  rd_sock : Ctx.nlsock c = true;
  rd_kernel : kernel_ok k0 (H.env s);
  rd_wf : kwf (K s);
  rd_grow : tr0 `prefix_of` H.trace s }.

(** A request after [tr0] was refused. *)
Definition refused (s : heap) : Prop := ∃ r, (r, false) ∈ drop (length tr0) (H.trace s).

(** How a step is taken back: a request was refused, and the links are as they were unless they
    could not be restored. *)
Definition restored (L : gmap Z link) (err : lsdn_err_t) (s : heap) : Prop :=
  refused s ∧ (err = LSDNE_NETLINK ∧ links (K s) = L ∨ err = LSDNE_INCONSISTENT).

(** Memory ran out after the kernel had created a link: it stays behind, down and in no bridge. *)
Definition stranded (L : gmap Z link) (err : lsdn_err_t) (s : heap) : Prop :=
  err = LSDNE_NOMEM ∧ out_of_memory s ∧
  ∃ i nm kd, L !! i = None ∧ links (K s) = <[i := Link nm kd 0 false]> L.

(** How an attempt to attach fails. *)
Definition undone (L : gmap Z link) (err : lsdn_err_t) (s : heap) : Prop :=
  restored L err s ∨ stranded L err s.

Lemma restored_bad L err s : restored L err s → bool_decide (err ≠ LSDNE_OK) = true.
Proof. intros [_ [[-> _]| ->]]; done. Qed.
Lemma undone_bad L err s : undone L err s → bool_decide (err ≠ LSDNE_OK) = true.
Proof. intros [H|[-> _]]; [by eapply restored_bad|done]. Qed.

Lemma out_of_memory_env s s' : H.env s' = H.env s → out_of_memory s → out_of_memory s'.
Proof. unfold out_of_memory. by intros ->. Qed.

Lemma restored_env L err s s' : H.trace s' = H.trace s → restored L err s → restored L err s'.
Proof. unfold restored, refused, K. by intros ->. Qed.
Lemma undone_env L err s s' :
  H.trace s' = H.trace s → H.env s' = H.env s → undone L err s → undone L err s'.
Proof. unfold undone, restored, stranded, refused, out_of_memory, K. by intros -> ->. Qed.

Lemma refused_grows s s' ctx c :
  ready s ctx c → H.trace s `prefix_of` H.trace s' → refused s → refused s'.
Proof.
  intros Hr [tr Htr] [r Hin]. exists r. rewrite Htr, drop_app_le, elem_of_app; [by left|].
  by apply prefix_length, (rd_grow _ _ _ Hr).
Qed.

Definition answer (ok : bool) : lsdn_err_t := if ok then LSDNE_OK else LSDNE_NETLINK.

Lemma answer_bad ok : bool_decide (answer ok ≠ LSDNE_OK) = negb ok.
Proof. by destruct ok. Qed.

Definition sent (r : request) (ok : bool) (s : heap) : heap := H.set_trace (H.trace s ++ [(r, ok)]) s.

Lemma refused_sent r s ctx c : ready s ctx c → refused (sent r false s).
Proof.
  intros Hr. exists r. cbn. rewrite drop_app_le by (apply prefix_length, Hr). set_solver.
Qed.

Lemma K_sent r ok s : K (sent r ok s) = kstep (K s) (r, ok).
Proof. unfold K, kernel, sent. cbn. by rewrite foldl_app. Qed.

(** Which requests keep the links of the kernel in order: links are created under free names,
    ports are given to links there are. *)
Definition orderly (k : kstate) (r : request) : Prop :=
  match r with
  | ReqLinkCreate n kd => ¬ taken n k ∧ match kd with LinkVeth _ => False | _ => True end
  | ReqLinkMaster m _ => m < next_index k
  | _ => True
  end.

Lemma kwf_step k r ok : kwf k → orderly k r → kwf (kstep k (r, ok)).
Proof.
  intros Hk Ho. destruct ok; [|done]. destruct r; simpl in *; try done.
  - destruct Ho as [Hf Hd]. destruct kind; try done; by apply kwf_create.
  - by apply kwf_delete.
  - by apply kwf_alter.
  - by apply kwf_alter.
Qed.

Lemma wp_send ctx c r s Q :
  ready s ctx c →
  (∀ ok, (orderly (K s) r ∨ (∃ n kd, r = ReqLinkCreate n kd ∧ match kd with LinkVeth _ => False | _ => True end) →
            ready (sent r ok s) ctx c) →
         (∀ n kd, r = ReqLinkCreate n kd → ok = true → ¬ taken n (K s)) →
         Q (answer ok) (sent r ok s)) →
  wp (send_await_response ctx r) s Q.
Proof.
  intros [Hc Hs Hk Hw Hg] HQ. unfold send_await_response. hstep. hstep; [by rewrite Hs|].
  hstep. hstep. hstep. fold (sent r (Env.kernel_ack (H.env s) (H.trace s) r) s).
  change (if Env.kernel_ack (H.env s) (H.trace s) r then LSDNE_OK else LSDNE_NETLINK)
    with (answer (Env.kernel_ack (H.env s) (H.trace s) r)).
  assert (Hex : ∀ n kd, r = ReqLinkCreate n kd → Env.kernel_ack (H.env s) (H.trace s) r = true → ¬ taken n (K s)).
  { intros n kd -> Ha. apply index_of_free; [done|]. by apply (kok_excl _ _ Hk) in Ha. }
  apply HQ; [|done]. intros Ho. split; try done; [|by apply prefix_app_r]. rewrite K_sent.
  destruct (Env.kernel_ack (H.env s) (H.trace s) r) eqn:Ea; [|done]. apply kwf_step; [done|].
  destruct Ho as [Ho|(n & kd & -> & Hd)]; [done|]. split; [by apply (Hex n kd)|done].
Qed.

(** ** Creating and naming links *)

(** The context after one more generated name. *)
Definition gen_name (c : Ctx.lsdn_context) : string :=
  String.substring 0 64 (Ctx.name c +:+ "-" +:+ "iface" +:+ "-" +:+ pretty (Ctx.obj_count c + 1)).
Definition named (c : Ctx.lsdn_context) : Ctx.lsdn_context :=
  Ctx.set_namebuf (gen_name c) (Ctx.set_obj_count (Ctx.obj_count c + 1) c).

(** Only the context among the objects may have changed. *)
Definition objs_kept (ctx : ptr) (s s' : heap) : Prop :=
  ∀ p, p ≠ ctx → H.objs s' !! p = H.objs s !! p.

(** The interface handles at other places than those in [l] are as before. *)
Definition ifs_kept (l : list addr) (s s' : heap) : Prop :=
  ∀ x, x ∉ l → H.ifs s' !! x = H.ifs s !! x.

Lemma wp_fresh_name ctx c s Q :
  ready s ctx c →
  (∀ s', ready s' ctx (named c) → K s' = K s → objs_kept ctx s s' → H.ifs s' = H.ifs s →
         H.structs s' = H.structs s → Q (gen_name c) s') →
  wp (lsdn_mk_name ctx "iface") s Q.
Proof.
  intros [Hc Hs Hk Hw Hg] HQ. unfold lsdn_mk_name. hstep. hstep. hstep. apply HQ; try done.
  - split; try done. cbn. by rewrite lookup_insert_eq.
  - intros p Hp. cbn. by rewrite lookup_insert_ne.
Qed.

(** Nothing is removed when no link has the name. *)
Lemma wp_cleanup_link ctx c n ow s Q :
  ready s ctx c → (ow = true → ¬ taken n (K s)) → Q LSDNE_OK s → wp (cleanup_link ctx n ow) s Q.
Proof.
  intros [Hc Hs Hk Hw Hg] Hn HQ. unfold cleanup_link. destruct ow; [|by hstep].
  unfold if_nametoindex. hstep. rewrite (kok_names _ _ Hk). fold (K s). rewrite (proj2 (index_of_free _ _ Hw)) by auto. cbn -[wp]. done.
Qed.

Lemma wp_link_create_send ctx c kd n dst s Q :
  ready s ctx c → match kd with LinkVeth _ => False | _ => True end →
  (∀ s', ready s' ctx c → refused s' → K s' = K s → H.objs s' = H.objs s → H.ifs s' = H.ifs s →
         H.structs s' = H.structs s → Q LSDNE_NETLINK s') →
  (∀ s', ready s' ctx c → ¬ taken n (K s) → K s' = create_link n kd (K s) → out_of_memory s' →
         H.objs s' = H.objs s → H.ifs s' = <[dst := If.mk 0 None]> (H.ifs s) →
         H.structs s' = H.structs s → Q LSDNE_NOMEM s') →
  (∀ s', ready s' ctx c → ¬ taken n (K s) → K s' = create_link n kd (K s) →
         H.objs s' = H.objs s → H.ifs s' = <[dst := If.mk (next_index (K s)) (Some n)]> (H.ifs s) →
         H.structs s' = H.structs s → Q LSDNE_OK s') →
  wp (link_create_send ctx kd n dst) s Q.
Proof.
  intros Hr Hd HN HM HO. unfold link_create_send. rewrite wp_bind. eapply wp_send; [done|].
  intros ok Hr' Hf. rewrite answer_bad.
  assert (Hk' : kstep (K s) (ReqLinkCreate n kd, true) = create_link n kd (K s)) by by destruct kd.
  assert (Hrd : ready (sent (ReqLinkCreate n kd) ok s) ctx c) by (apply Hr'; eauto).
  destruct ok; cbn [negb].
  - pose proof Hrd as [Hc Hs Hk Hw Hg].
    unfold lsdn_if_init, lsdn_if_set_name, lsdn_if_free, lsdn_if_resolve.
    assert (HKc : K (sent (ReqLinkCreate n kd) true s) = create_link n kd (K s)) by by rewrite <-Hk', <-K_sent.
    do 2 hstep. simpl in *. destruct (Env.malloc_ok _ _) eqn:Em.
    2: { hstep. rewrite bool_decide_true by done. hstep. apply HM; try done; [by eapply Hf|by eexists]. }
    do 4 hstep. rewrite bool_decide_false by (by intros []).
    hstep. rewrite bool_decide_false by (by intros []). do 2 hstep.
    assert (Hi : Env.if_nametoindex (H.env s) (H.trace s ++ [(ReqLinkCreate n kd, true)]) n = next_index (K s)).
    { rewrite (kok_names _ _ Hk). change n with (l_name (Link n kd 0 false)) at 1.
      apply index_of_taken; [done|].
      change (kernel k0 _) with (K (sent (ReqLinkCreate n kd) true s)).
      rewrite K_sent, Hk'. cbn. by rewrite lookup_insert_eq. }
    simpl. rewrite Hi. assert (0 < next_index (K s)) by apply (rd_wf _ _ _ Hr).
    rewrite bool_decide_false by lia. do 2 hstep.
    apply HO; try done.
    + by eapply Hf.
    + cbn. by rewrite !insert_insert_eq.
  - hstep. apply HN; try done; [|by rewrite K_sent]. by eapply refused_sent.
Qed.

Lemma ready_same s s' ctx c :
  H.objs s' !! ctx = H.objs s !! ctx → H.env s' = H.env s → H.trace s' = H.trace s →
  ready s ctx c → ready s' ctx c.
Proof.
  intros Ho He Ht [Hc Hs Hk Hw Hg]. split; rewrite ?Ho, ?He, ?Ht; try done. unfold K. by rewrite Ht.
Qed.

Lemma K_ifs m s : K (H.set_ifs m s) = K s.
Proof. done. Qed.
Lemma K_structs m s : K (H.set_structs m s) = K s.
Proof. done. Qed.

Lemma kept_embeds ctx c a s s' :
  H.objs s !! ctx = Some (OCtx c) → objs_kept ctx s s' → embeds s a → embeds s' a.
Proof.
  intros Hc Hk (o & Ho & Hcont). exists o. split; [|done]. rewrite Hk; [done|].
  intros ->. by simplify_eq.
Qed.

(** A request changes nothing but the kernel. *)
Definition quiet (s s' : heap) : Prop :=
  H.objs s' = H.objs s ∧ H.ifs s' = H.ifs s ∧ H.structs s' = H.structs s ∧
  H.trace s `prefix_of` H.trace s' ∧ H.env s' = H.env s.

Lemma refused_quiet s s' ctx c : ready s ctx c → quiet s s' → refused s → refused s'.
Proof. intros Hr Hq. eapply refused_grows; [done|apply Hq]. Qed.

Lemma wp_request ctx c r s Q :
  ready s ctx c → orderly (K s) r →
  (∀ ok s', ready s' ctx c → K s' = kstep (K s) (r, ok) → quiet s s' → (ok = false → refused s') →
     Q (answer ok) s') →
  wp (send_await_response ctx r) s Q.
Proof.
  intros Hr Ho HQ. eapply wp_send; [done|]. intros ok Hr' _. apply HQ; [auto|by rewrite K_sent| |].
  - split_and!; try done. by eexists.
  - intros ->. by eapply refused_sent.
Qed.

(** The link with the last index was created after the links of [k]. *)
Lemma delete_last k k' x : kwf k →
  links k' = <[next_index k := x]> (links k) → links (delete_link (next_index k) k') = links k.
Proof.
  intros Hk Hl. rewrite delete_unmastered; rewrite Hl.
  - by rewrite delete_insert_id by by apply create_fresh.
  - intros j l [[<- <-]|[_ Hj]]%lookup_insert_Some Hne; [done|].
    destruct Hk as (_ & Hb & _). apply Hb in Hj. lia.
Qed.

(** ** The bridge *)

Lemma wp_lbridge_init ctx c a s Q :
  ready s ctx c → embeds s a → (Ctx.overwrite c = true → ¬ taken (gen_name c) (K s)) →
  (∀ err s', undone (links (K s)) err s' →
     ready s' ctx (named c) → next_index (K s) ≤ next_index (K s') → objs_kept ctx s s' →
     ifs_kept [(a, F_local_if)] s s' → Q err s') →
  (∀ s', ready s' ctx (named c) →
     links (K s') = <[next_index (K s) := Link (gen_name c) LinkBridge 0 true]> (links (K s)) →
     next_index (K s') = next_index (K s) + 1 → objs_kept ctx s s' →
     ifs_kept [(a, F_local_if); (a, F_bridge_if)] s s' →
     H.ifs s' !! (a, F_bridge_if) = Some (If.mk (next_index (K s)) (Some (gen_name c))) →
     H.structs s' = <[(a, F_lbridge) := NLbridge (Lbridge.mk ctx)]> (H.structs s) →
     Q LSDNE_OK s') →
  wp (lsdn_lbridge_init ctx (a, F_lbridge)) s Q.
Proof.
  intros Hr Ha Hn HE HO. unfold lsdn_lbridge_init, lsdn_if_init. pose proof (rd_ctx _ _ _ Hr).
  hstep. hstep. rewrite wp_bind. eapply wp_fresh_name; [by apply (ready_same s)|].
  intros s1 Hr1 HK1 Ho1 Hi1 Hs1. rewrite K_ifs in HK1. rewrite wp_bind. unfold lsdn_link_bridge_create.
  rewrite wp_bind. eapply wp_cleanup_link; [done|by rewrite HK1|].
  rewrite bool_decide_false by (by intros []). eapply wp_link_create_send; [done..| | |].
  - intros s2 Hr2 Hf2 HK2 Ho2 Hi2 Hs2. rewrite bool_decide_true by done. unfold lsdn_if_free.
    hstep; [by rewrite Hi2, Hi1; apply lookup_insert_eq|]. do 3 hstep. apply HE.
    + left. split; [done|]. left. split; [done|]. by rewrite K_ifs, HK2, HK1.
    + by apply (ready_same s2).
    + by rewrite K_ifs, HK2, HK1.
    + intros p Hp. simpl. rewrite Ho2. by apply Ho1.
    + intros x Hx. simpl. rewrite Hi2, Hi1. cbn. rewrite lookup_delete_ne, lookup_insert_ne; set_solver.
  - intros s2 Hr2 Hf2 HK2 Hm2 Ho2 Hi2 Hs2. rewrite bool_decide_true by done. unfold lsdn_if_free.
    hstep; [by rewrite Hi2; apply lookup_insert_eq|]. do 3 hstep. rewrite HK1 in HK2. apply HE.
    + right. split_and!; [done|done|]. exists (next_index (K s)), (gen_name c), LinkBridge.
      split; [by apply create_fresh, Hr|]. by rewrite K_ifs, HK2.
    + by apply (ready_same s2).
    + rewrite K_ifs, HK2. simpl. lia.
    + intros p Hp. simpl. rewrite Ho2. by apply Ho1.
    + intros x Hx. simpl. rewrite Hi2, Hi1. cbn. rewrite lookup_delete_ne, !lookup_insert_ne; set_solver.
  - intros s2 Hr2 Hf2 HK2 Ho2 Hi2 Hs2. rewrite bool_decide_false by (by intros []).
    hstep; [by rewrite Hi2; apply lookup_insert_eq|]. unfold lsdn_link_set. rewrite wp_bind.
    eapply wp_request; [done..|]. intros ok s3 Hr3 HK3 (Ho3 & Hi3 & Hs3 & _) Hf3. rewrite answer_bad.
    rewrite HK2, HK1 in HK3.
    destruct ok; cbn [negb].
    + assert (Hk3 : objs_kept ctx s s3) by (intros p Hp; rewrite Ho3, Ho2; by apply Ho1).
      hstep; [by eapply kept_embeds|]. do 3 hstep. apply HO; rewrite ?K_ifs, ?K_structs.
      * by apply (ready_same s3).
      * rewrite HK3. cbn. by rewrite alter_insert_eq.
      * by rewrite HK3.
      * done.
      * intros x Hx. simpl. rewrite Hi3, Hi2, Hi1. cbn.
        rewrite lookup_delete_ne, !lookup_insert_ne; set_solver.
      * simpl. rewrite lookup_delete_ne, lookup_insert_eq by done. by rewrite HK1.
      * simpl. by rewrite Hs3, Hs2, Hs1.
    + unfold lsdn_if_free, lsdn_link_delete.
      assert (Hl : H.ifs s3 !! (a, F_local_if) = Some (If.mk (next_index (K s)) (Some (gen_name c)))).
      { rewrite Hi3, Hi2, lookup_insert_eq. by rewrite HK1. }
      hstep. hstep. hstep. 
      eapply wp_request; [done..|]. intros ok s4 Hr4 HK4 (Ho4 & Hi4 & Hs4 & Ht4 & _) Hf4. do 2 hstep. rewrite answer_bad.
      assert (HK5 : links (kstep (K s3) (ReqLinkDelete (next_index (K s)), true)) = links (K s)).
      { rewrite HK3. by eapply delete_last; [apply Hr|]. }
      apply HE; rewrite ?K_ifs.
      * left. split; [by eapply (refused_grows s3); eauto|]. destruct ok; [left|by right]. split; [done|]. by rewrite K_ifs, HK4.
      * by apply (ready_same s4).
      * rewrite HK4. destruct ok; simpl; rewrite HK3; simpl; lia.
      * intros p Hp. simpl. rewrite Ho4, Ho3, Ho2. by apply Ho1.
      * intros x Hx. simpl. rewrite Hi4, Hi3, Hi2, Hi1. cbn.
        rewrite lookup_delete_ne, !lookup_insert_ne; set_solver.
Qed.

(** The bridge of [a] has the index [b]. *)
Definition has_bridge (s : heap) (ctx a : ptr) (b : Z) : Prop :=
  embeds s a ∧ H.structs s !! (a, F_lbridge) = Some (NLbridge (Lbridge.mk ctx)) ∧
  ∃ n, H.ifs s !! (a, F_bridge_if) = Some (If.mk b n).

Lemma quiet_bridge s s' ctx a b : quiet s s' → has_bridge s ctx a b → has_bridge s' ctx a b.
Proof. intros (Ho & Hi & Hs & _) H. unfold has_bridge, embeds. by rewrite Ho, Hi, Hs. Qed.

Lemma quiet_trans s1 s2 s3 : quiet s1 s2 → quiet s2 s3 → quiet s1 s3.
Proof. intros (? & ? & ? & ? & ?) (? & ? & ? & ? & ?). split_and!; [congruence..|by etrans|congruence]. Qed.

(** A port is connected and up, or as it was. *)
Lemma wp_lbridge_add ctx c a b br_if iface i n s Q :
  ready s ctx c → has_bridge s ctx a b → b < next_index (K s) → embeds s br_if.1 →
  H.ifs s !! iface = Some (If.mk i n) → (∀ l, links (K s) !! i = Some l → l_master l = 0) →
  (∀ err s', restored (links (K s)) err s' →
     ready s' ctx c → next_index (K s') = next_index (K s) → quiet s s' → Q err s') →
  (∀ s', ready s' ctx c →
     links (K s') = alter (λ l, Link (l_name l) (l_kind l) b true) i (links (K s)) →
     next_index (K s') = next_index (K s) → H.objs s' = H.objs s → H.ifs s' = H.ifs s →
     H.structs s' = <[br_if := NLbridgeIf (LbridgeIf.mk (a, F_lbridge) iface)]> (H.structs s) →
     Q LSDNE_OK s') →
  wp (lsdn_lbridge_add (a, F_lbridge) br_if iface) s Q.
Proof.
  intros Hr (Ha & Hst & bn & Hb) Hlt Hp Hi Hm HE HO. unfold lsdn_lbridge_add, lsdn_link_set_master, lsdn_link_set.
  do 3 hstep. rewrite wp_bind. eapply wp_request; [done..|].
  intros ok s1 Hr1 HK1 Hq1 Hf1. rewrite answer_bad. destruct ok; cbn [negb].
  2: { hstep. apply HE; rewrite ?HK1; try done. split; [auto|]. left. by rewrite HK1. }
  rewrite wp_bind. eapply wp_request; [done..|]. intros ok s2 Hr2 HK2 Hq2 Hf2. rewrite answer_bad.
  pose proof (quiet_trans _ _ _ Hq1 Hq2) as Hq. destruct ok; cbn [negb].
  - pose proof Hq as (Ho & Hif & Hs & _). hstep; [unfold embeds in *; by rewrite Ho|]. hstep. apply HO; try done.
    + by apply (ready_same s2).
    + rewrite K_structs, HK2. simpl. rewrite HK1. simpl. by rewrite alter_alter_eq.
    + rewrite K_structs, HK2. simpl. by rewrite HK1.
    + simpl. by rewrite Hs.
  - rewrite wp_bind. eapply wp_request; [done| |].
    { simpl. rewrite HK2. simpl. apply Hr1. }
    intros ok s3 Hr3 HK3 Hq3 _. rewrite answer_bad. hstep. apply HE.
    + split; [by eapply refused_quiet; [..|done|auto]|]. destruct ok; [left|by right]. split; [done|]. rewrite HK3. simpl. rewrite HK2. simpl. rewrite HK1. simpl.
      rewrite alter_alter_eq. apply alter_id. intros l E%Hm. destruct l. simpl in *. by subst.
    + done.
    + rewrite HK3. destruct ok; simpl; rewrite HK2; simpl; by rewrite HK1.
    + by eapply quiet_trans.
Qed.

Lemma wp_lbridge_free ctx c a b s Q :
  ready s ctx c → Ctx.disable_decommit c = false → has_bridge s ctx a b →
  (∀ err s', err = LSDNE_OK ∧ K s' = delete_link b (K s) ∨ err = LSDNE_INCONSISTENT ∧ K s' = K s ∧ refused s' →
     ready s' ctx c → quiet s s' → Q err s') →
  wp (lsdn_lbridge_free (a, F_lbridge)) s Q.
Proof.
  intros Hr Hd (Ha & Hst & n & Hb) HQ. unfold lsdn_lbridge_free, lsdn_if_free, lsdn_link_delete.
  pose proof (rd_ctx _ _ _ Hr). do 2 hstep. rewrite Hd. simpl. hstep.
  eapply wp_request; [done..|]. intros ok s1 Hr1 HK1 Hq1 Hf1. rewrite answer_bad.
  destruct ok; cbn [negb].
  - pose proof Hq1 as (_ & Hif & _ & _). hstep; [by rewrite Hif|]. do 2 hstep. apply HQ; try done. by left.
  - hstep. apply HQ; try done. right. auto.
Qed.

(** ** Attachments *)

(** The attachment [a], of a network in context [ctx]. *)
Definition pa_of (s : heap) (a : ptr) (o : Pa.lsdn_phys_attachment) (n : Net.lsdn_net) : Prop :=
  H.objs s !! a = Some (OPa o) ∧ H.objs s !! Pa.net o = Some (ONet n).

Lemma kept_pa ctx c s s' a o n :
  ready s ctx c → objs_kept ctx s s' → pa_of s a o n → pa_of s' a o n.
Proof.
  intros [Hc _ _ _ _] Hk [Ha Hn]. split; (rewrite Hk; [done|]); intros Hp; rewrite <-Hp in Hc; by simplify_eq.
Qed.

Lemma wp_pa_ctx s a o n Q : pa_of s a o n → Q (Net.ctx n) s → wp (pa_ctx a) s Q.
Proof. intros [Ha Hn] HQ. unfold pa_ctx. by do 3 hstep. Qed.

(** The links [L], and beside them the tunnel of [a], up and connected to the bridge of [a]. *)
Definition attached (L : gmap Z link) (ctx a : ptr) (n : Net.lsdn_net) (tn : string) (tk : link_kind)
    (s : heap) : Prop :=
  ∃ t b bn m, (∃ o, pa_of s a o n) ∧
    has_bridge s ctx a b ∧
    H.structs s !! (a, F_lbridge_if) = Some (NLbridgeIf (LbridgeIf.mk (a, F_lbridge) (a, F_tunnel_if))) ∧
    H.ifs s !! (a, F_tunnel_if) = Some (If.mk t m) ∧
    L !! t = None ∧ L !! b = None ∧ t ≠ b ∧
    (∀ j l, L !! j = Some l → l_master l ≠ t ∧ l_master l ≠ b) ∧
    links (K s) = <[t := Link tn tk b true]> (<[b := Link bn LinkBridge 0 true]> L).

(** The tunnel was connected to the bridge that was created last. *)
Lemma attached_intro L ctx a o n t b bn tn tk up m k s :
  kwf k → b = next_index k → links k = <[t := Link tn tk 0 up]> L →
  L !! t = None → (∀ j l, L !! j = Some l → l_master l ≠ t) → pa_of s a o n → has_bridge s ctx a b →
  H.structs s !! (a, F_lbridge_if) = Some (NLbridgeIf (LbridgeIf.mk (a, F_lbridge) (a, F_tunnel_if))) →
  H.ifs s !! (a, F_tunnel_if) = Some (If.mk t m) →
  links (K s) = alter (λ l, Link (l_name l) (l_kind l) b true) t
                  (<[b := Link bn LinkBridge 0 true]> (links k)) →
  attached L ctx a n tn tk s.
Proof.
  intros Hk -> HL Ht HLm Hpa Hbr Hst Hif Hl. pose proof Hk as (_ & Hb & _).
  assert (Htb : t < next_index k) by (apply (Hb t (Link tn tk 0 up)); by rewrite HL, lookup_insert_eq).
  pose proof (create_fresh _ Hk) as Hf. rewrite HL, lookup_insert_ne in Hf by lia.
  exists t, (next_index k), bn, m. split_and!; try done; [eauto|lia| |].
  - intros j l Hj. split; [by eapply HLm|].
    assert (Hj' : links k !! j = Some l) by (rewrite HL, lookup_insert_ne; [done|congruence]).
    apply Hb in Hj'. lia.
  - by rewrite Hl, HL, insert_insert_ne, alter_insert_eq by lia.
Qed.

Lemma wp_lbridge_create_pa ctx c a o n t tn tk up m L s Q :
  ready s ctx c → Ctx.disable_decommit c = false → pa_of s a o n → Net.ctx n = ctx →
  (Ctx.overwrite c = true → ¬ taken (gen_name c) (K s)) →
  H.ifs s !! (a, F_tunnel_if) = Some (If.mk t m) →
  L !! t = None → (∀ j l, L !! j = Some l → l_master l ≠ t) →
  links (K s) = <[t := Link tn tk 0 up]> L →
  (∀ err s', undone (links (K s)) err s' → ready s' ctx (named c) → objs_kept ctx s s' →
     H.ifs s' !! (a, F_tunnel_if) = Some (If.mk t m) → Q err s') →
  (∀ s', attached L ctx a n tn tk s' → ready s' ctx (named c) → objs_kept ctx s s' → Q LSDNE_OK s') →
  wp (lsdn_lbridge_create_pa a) s Q.
Proof.
  intros Hr Hd Hpa Hctx Hn Ht HLt HLm HL HE HO. unfold lsdn_lbridge_create_pa. rewrite wp_bind.
  eapply wp_pa_ctx; [done|]. rewrite Hctx.
  assert (Ha : embeds s a) by (exists (OPa o); split; [apply Hpa|done]).
  rewrite wp_bind. eapply wp_lbridge_init; [done..| |].
  - intros err s1 Herr Hr1 _ Ho1 Hi1. rewrite (undone_bad _ _ _ Herr).
    hstep. apply HE; [done..|]. rewrite Hi1; [done|set_solver].
  - intros s1 Hr1 HL1 Hx1 Ho1 Hi1 Hb1 Hs1. rewrite bool_decide_false by (by intros []).
    set (b := next_index (K s)) in *.
    assert (Htb : t < b).
    { destruct (rd_wf _ _ _ Hr) as (_ & Hb & _). apply (Hb t (Link tn tk 0 up)).
      by rewrite HL, lookup_insert_eq. }
    assert (Ha1 : embeds s1 a) by (eapply kept_embeds; [apply (rd_ctx _ _ _ Hr)|done..]).
    assert (Hbr : has_bridge s1 ctx a b).
    { split_and!; [done| |eauto]. by rewrite Hs1, lookup_insert_eq. }
    assert (Ht1 : H.ifs s1 !! (a, F_tunnel_if) = Some (If.mk t m)) by (rewrite Hi1; [done|set_solver]).
    assert (Hm1 : ∀ l, links (K s1) !! t = Some l → l_master l = 0).
    { rewrite HL1, lookup_insert_ne, HL, lookup_insert_eq by lia. by intros l [= <-]. }
    rewrite wp_bind. eapply (wp_lbridge_add _ _ _ b _ _ t); [done|done|lia|done..| |].
    + intros err s2 Herr Hr2 Hx2 Hq2. pose proof Hq2 as (Ho2 & Hi2 & _ & _).
      rewrite (restored_bad _ _ _ Herr). rewrite wp_bind.
      eapply wp_lbridge_free; [done..|by eapply quiet_bridge|]. intros err' s3 Herr' Hr3 Hq3.
      pose proof Hq3 as (Ho3 & Hi3 & _ & _). destruct Herr as [Hf2 Herr]. hstep. apply HE.
      * left. split; [by apply (refused_quiet s2 s3 ctx (named c))|]. destruct Herr' as [[-> HK3]|[-> _]]; [|by right].
        destruct Herr as [[-> HL2]| ->]; [left|by right]. split; [done|].
        rewrite HK3. eapply delete_last; [apply Hr|]. by rewrite HL2.
      * done.
      * intros p Hp. rewrite Ho3, Ho2. by apply Ho1.
      * by rewrite Hi3, Hi2.
    + intros s2 Hr2 HL2 Hx2 Ho2 Hi2 Hs2. rewrite bool_decide_false by (by intros []). hstep. apply HO.
      * eapply (attached_intro _ _ _ o _ t b (gen_name c) _ _ up); try done; [apply Hr|..].
        -- apply (kept_pa ctx c s); [done| |done]. intros p Hp. rewrite Ho2. by apply Ho1.
        -- destruct Hbr as (He & Hst & Hif). unfold has_bridge, embeds in *. rewrite Ho2, Hi2, Hs2.
           by rewrite lookup_insert_ne.
        -- by rewrite Hs2, lookup_insert_eq.
        -- by rewrite Hi2.
        -- by rewrite HL2, HL1.
      * done.
      * intros p Hp. rewrite Ho2. by apply Ho1.
Qed.

(** The end of a [create_pa], after the tunnel has been created with index [t]: [F] removes it
    again if it could not be connected to a bridge. *)
Lemma wp_connect ctx c a o n t tn tk m L F s :
  ready s ctx c → Ctx.disable_decommit c = false → pa_of s a o n → Net.ctx n = ctx →
  (Ctx.overwrite c = true → ¬ taken (gen_name c) (K s)) →
  H.ifs s !! (a, F_tunnel_if) = Some (If.mk t m) →
  L !! t = None → (∀ j l, L !! j = Some l → l_master l ≠ t) →
  links (K s) = <[t := Link tn tk 0 false]> L →
  F LSDNE_OK = mret LSDNE_OK →
  (∀ err s', bool_decide (err ≠ LSDNE_OK) = true → ready s' ctx (named c) → pa_of s' a o n →
     H.ifs s' !! (a, F_tunnel_if) = Some (If.mk t m) →
     wp (F err) s' (λ err' s'', ∃ ok, K s'' = kstep (K s') (ReqLinkDelete t, ok) ∧ quiet s' s'' ∧
        (ok = false → refused s'') ∧ ready s'' ctx (named c) ∧ err' = if ok then err else LSDNE_INCONSISTENT)) →
  wp (lsdn_lbridge_create_pa a ≫= F) s
    (λ err s', (err = LSDNE_OK ∧ attached L ctx a n tn tk s' ∨ undone L err s') ∧ ready s' ctx (named c)).
Proof.
  intros Hr Hd Hpa Hctx Hn Ht HLt HLm HL HF HU. rewrite wp_bind.
  eapply wp_lbridge_create_pa; [done..| |].
  - intros err s1 Herr Hr1 Ho1 Hi1. eapply wp_mono; [apply HU; try done|].
    { by eapply undone_bad. }
    { by apply (kept_pa ctx c s). }
    intros err' s2 (ok & HK2 & Hq2 & Hf2 & Hr2 & ->). split; [right|done].
    destruct ok; [|left; split; [auto|by right]].
    change (kstep (K s1) (ReqLinkDelete t, true)) with (delete_link t (K s1)) in HK2.
    assert (Ht0 : 0 < t).
    { destruct (rd_wf _ _ _ Hr) as (_ & Hb & _). apply (Hb t (Link tn tk 0 false)). by rewrite HL, lookup_insert_eq. }
    destruct Herr as [[Hf Herr]|(-> & Hm & i & nm & kd & Hfree & HL1)].
    + left. split; [by apply (refused_quiet s1 s2 ctx (named c))|].
      destruct Herr as [[-> HL1]| ->]; [left|by right]. split; [done|].
      rewrite HK2. rewrite delete_unmastered; rewrite HL1, HL; [by apply delete_insert_id|].
      intros j l [[<- <-]|[_ Hj]]%lookup_insert_Some Hne; [done|eauto].
    + right. split_and!; [done|by eapply out_of_memory_env; [apply Hq2|]|]. exists i, nm, kd.
      rewrite HL in Hfree. apply lookup_insert_None in Hfree as [Hfree Hne]. split; [done|].
      rewrite HK2. rewrite delete_unmastered; rewrite HL1, HL.
      * by rewrite delete_insert_ne, delete_insert_id by done.
      * intros j l [[<- <-]|[_ [[<- <-]|[_ Hj]]%lookup_insert_Some]]%lookup_insert_Some ?; simpl; [lia|done|eauto].
  - intros s1 Hat Hr1 Ho1. rewrite HF. hstep. eauto.
Qed.

Lemma undo_tunnel_spec ctx c a o n t m err s :
  ready s ctx c → pa_of s a o n → Net.ctx n = ctx → H.ifs s !! (a, F_tunnel_if) = Some (If.mk t m) →
  wp (undo_tunnel a err) s (λ err' s', ∃ ok, K s' = kstep (K s) (ReqLinkDelete t, ok) ∧ quiet s s' ∧
        (ok = false → refused s') ∧ ready s' ctx c ∧ err' = if ok then err else LSDNE_INCONSISTENT).
Proof.
  intros Hr Hpa Hctx Ht. unfold undo_tunnel, lsdn_link_delete, lsdn_if_free. rewrite wp_bind.
  eapply wp_pa_ctx; [done|]. rewrite Hctx. hstep. eapply wp_request; [done..|].
  intros ok s1 Hr1 HK1 Hq1 Hf1. rewrite answer_bad. pose proof Hq1 as (_ & Hi1 & _). destruct ok; cbn [negb].
  - hstep; [by rewrite Hi1|]. do 2 hstep. exists true. split_and!; try done.
  - hstep. exists false. split_and!; auto.
Qed.

(** ** Creating the tunnel *)

(** What a tunnel of the network type is, for the network types that connect it to a Linux
    bridge. *)
Definition tunnel_kind (t : lsdn_net_ops_tag) (k : kstate) (n : Net.lsdn_net) (ph : Phys.lsdn_phys)
    (st : Settings.lsdn_settings) : option link_kind :=
  let dev := (λ i, index_of i k) <$> Phys.attr_iface ph in
  let vxlan group := LinkVxlan dev (default 0 dev) (u32 (Net.vnet_id n)) (u16 (Settings.port st)) true false group in
  match t with
  | lsdn_net_vlan_ops => (λ i, LinkVlan i (u16 (Net.vnet_id n))) <$> dev
  | lsdn_net_vxlan_mcast_ops => (λ g, vxlan (Some g)) <$> Settings.mcast_ip st
  | lsdn_net_vxlan_e2e_ops =>
      (λ ip, vxlan (if bool_decide (v ip = LSDN_IPv6) then Some dummy_ipv6_mcast else None)) <$> Phys.attr_ip ph
  | _ => None
  end.

(** With [overwrite], the generated names must not be those of links that are in use. *)
Definition names_free (c : Ctx.lsdn_context) (k : kstate) : Prop :=
  Ctx.overwrite c = true →
  ¬ taken (gen_name c) k ∧ ¬ taken (gen_name (named c)) k ∧ gen_name c ≠ gen_name (named c).

(** The error that answers a creation is passed on, after the handle of the interface was cleared. *)
Definition passes_on (G : lsdn_err_t → M heap lsdn_err_t) (iface : addr) (m : gmap addr If.lsdn_if) : Prop :=
  ∀ err s', bool_decide (err ≠ LSDNE_OK) = true → H.ifs s' = m ∨ H.ifs s' !! iface = Some (If.mk 0 None) →
    wp (G err) s' (λ err' s'', err' = err ∧ H.trace s'' = H.trace s' ∧ H.env s'' = H.env s').

(** The tunnel is created under the first generated name, connected, and removed if that fails;
    [G] is what follows the creation. *)
Lemma wp_create_connect ctx c a o n tk F G s :
  ready s ctx (named c) → Ctx.disable_decommit c = false → pa_of s a o n → Net.ctx n = ctx →
  names_free c (K s) → match tk with LinkVeth _ => False | _ => True end →
  passes_on G (a, F_tunnel_if) (H.ifs s) →
  G LSDNE_OK = lsdn_lbridge_create_pa a ≫= F → F LSDNE_OK = mret LSDNE_OK →
  (∀ err t m s', bool_decide (err ≠ LSDNE_OK) = true → ready s' ctx (named (named c)) → pa_of s' a o n →
     H.ifs s' !! (a, F_tunnel_if) = Some (If.mk t m) →
     wp (F err) s' (λ err' s'', ∃ ok, K s'' = kstep (K s') (ReqLinkDelete t, ok) ∧ quiet s' s'' ∧
        (ok = false → refused s'') ∧ ready s'' ctx (named (named c)) ∧ err' = if ok then err else LSDNE_INCONSISTENT)) →
  wp (link_create_send ctx tk (gen_name c) (a, F_tunnel_if) ≫= G) s
    (λ err s', err = LSDNE_OK ∧ attached (links (K s)) ctx a n (gen_name c) tk s' ∧ ready s' ctx (named (named c)) ∨
               undone (links (K s)) err s').
Proof.
  intros Hr Hd Hpa Hctx Hn Hk HG1 HG2 HF HU. rewrite wp_bind. eapply wp_link_create_send; [done..| | |].
  - intros s1 Hr1 Hf1 HK1 Ho1 Hi1 Hs1. eapply wp_mono; [by apply HG1; [|left]|].
    intros err s2 (-> & Ht2 & He2). right. eapply undone_env; [done..|]. left. split; [done|]. left. by rewrite HK1.
  - intros s1 Hr1 Hf1 HK1 Hm1 Ho1 Hi1 Hs1. eapply wp_mono; [apply HG1; [done|right; by rewrite Hi1, lookup_insert_eq]|].
    intros err s2 (-> & Ht2 & He2). right. eapply undone_env; [done..|]. right. split_and!; [done|done|].
    exists (next_index (K s)), (gen_name c), tk. split; [by apply create_fresh, Hr|]. by rewrite HK1.
  - intros s1 Hr1 Hf1 HK1 Ho1 Hi1 Hs1. rewrite HG2.
    pose proof (rd_wf _ _ _ Hr) as Hwf. eapply wp_mono.
    + eapply wp_connect with (L := links (K s)) (t := next_index (K s)); try done.
      * by destruct Hpa; split; rewrite Ho1.
      * rewrite HK1. intros How. destruct (Hn How) as (Hn1 & Hn2 & Hne).
        intros (i & l & Hi & Hl). simpl in Hi.
        apply lookup_insert_Some in Hi as [[<- <-]|[_ Hi]]; [done|]. apply Hn2. by exists i, l.
      * by rewrite Hi1, lookup_insert_eq.
      * by apply create_fresh.
      * intros j l Hj. apply Hwf in Hj. lia.
      * by rewrite HK1.
      * intros err s2 Hb Hr2 Hpa2 Hi2. by eapply HU.
    + intros err s2 [[[-> Hat]|Hu] Hr2]; auto.
Qed.

Lemma wp_nametoindex ctx c x s Q : ready s ctx c → Q (index_of x (K s)) s → wp (if_nametoindex x) s Q.
Proof. intros Hr HQ. unfold if_nametoindex. hstep. by rewrite (kok_names _ _ (rd_kernel _ _ _ Hr)). Qed.

Lemma wp_vxlan_create ctx c dst dev x group vni port learning cm ipv ow (G : lsdn_err_t → M heap lsdn_err_t) s Q :
  ready s ctx c → (ow = true → ¬ taken x (K s)) →
  wp (link_create_send ctx
        (LinkVxlan ((λ i, index_of i (K s)) <$> dev) (default 0 ((λ i, index_of i (K s)) <$> dev))
           (u32 vni) (u16 port) learning cm
           (match group with
            | Some g => Some g
            | None => if bool_decide (ipv = LSDN_IPv6) then Some dummy_ipv6_mcast else None
            end)) x dst ≫= G) s Q →
  wp (lsdn_link_vxlan_create ctx dst dev x group vni port learning cm ipv ow ≫= G) s Q.
Proof.
  intros Hr Hx HQ. unfold lsdn_link_vxlan_create. rewrite !wp_bind in *.
  assert (Hc : ∀ i, i = default 0 ((λ i, index_of i (K s)) <$> dev) →
    wp (err ← cleanup_link ctx x ow;
        if bool_decide (err ≠ LSDNE_OK) then mret err else
        link_create_send ctx (LinkVxlan ((λ _, i) <$> dev) i (u32 vni) (u16 port) learning cm
          (match group, ipv with
           | Some g, _ => Some g
           | None, LSDN_IPv6 => Some dummy_ipv6_mcast
           | None, LSDN_IPv4 => None
           end)) x dst) s (λ a s', wp (G a) s' Q)).
  { intros i ->. rewrite wp_bind. eapply wp_cleanup_link; [done..|]. rewrite bool_decide_false by (by intros []).
    by destruct dev, group, ipv. }
  destruct dev as [d|].
  - eapply wp_nametoindex; [done|]. by apply Hc.
  - hstep. by apply Hc.
Qed.

Lemma wp_vlan_create ctx c dst dev x vid ow (G : lsdn_err_t → M heap lsdn_err_t) s Q :
  ready s ctx c → (ow = true → ¬ taken x (K s)) →
  wp (link_create_send ctx (LinkVlan (index_of dev (K s)) (u16 vid)) x dst ≫= G) s Q →
  wp (lsdn_link_vlan_create ctx dst dev x vid ow ≫= G) s Q.
Proof.
  intros Hr Hx HQ. unfold lsdn_link_vlan_create. rewrite !wp_bind in *. eapply wp_nametoindex; [done|].
  rewrite wp_bind. eapply wp_cleanup_link; [done..|]. by rewrite bool_decide_false by (by intros []).
Qed.

(** An attachment with what its network type reads. *)
Record attachment (s : heap) (a : ptr) (n : Net.lsdn_net) (ph : Phys.lsdn_phys)
    (st : Settings.lsdn_settings) : Prop := {
  at_pa : ∃ o, pa_of s a o n ∧ H.objs s !! Pa.phys o = Some (OPhys ph);
  at_settings : H.objs s !! Net.settings n = Some (OSettings st) }.

(** After the first generated name: the tunnel [tk] is created, connected, or removed again. *)
Lemma wp_named_create ctx c a o n tk F G s s1 :
  ready s ctx c → Ctx.disable_decommit c = false → pa_of s a o n → Net.ctx n = ctx →
  names_free c (K s) → match tk with LinkVeth _ => False | _ => True end →
  ready s1 ctx (named c) → K s1 = K s → objs_kept ctx s s1 →
  passes_on G (a, F_tunnel_if) (H.ifs s1) →
  G LSDNE_OK = lsdn_lbridge_create_pa a ≫= F → F LSDNE_OK = mret LSDNE_OK →
  (∀ err t m s', bool_decide (err ≠ LSDNE_OK) = true → ready s' ctx (named (named c)) → pa_of s' a o n →
     H.ifs s' !! (a, F_tunnel_if) = Some (If.mk t m) →
     wp (F err) s' (λ err' s'', ∃ ok, K s'' = kstep (K s') (ReqLinkDelete t, ok) ∧ quiet s' s'' ∧
        (ok = false → refused s'') ∧ ready s'' ctx (named (named c)) ∧ err' = if ok then err else LSDNE_INCONSISTENT)) →
  wp (link_create_send ctx tk (gen_name c) (a, F_tunnel_if) ≫= G) s1
    (λ err s', err = LSDNE_OK ∧ attached (links (K s)) ctx a n (gen_name c) tk s' ∧ ready s' ctx (named (named c)) ∨
               undone (links (K s)) err s').
Proof.
  intros Hr Hd Hpa Hctx Hn Hk Hr1 HK1 Ho1 HG1 HG2 HF HU. rewrite <-HK1 in *.
  eapply wp_create_connect; try done. by eapply (kept_pa ctx c s).
Qed.

Lemma wp_attach ctx c a n ph st tk s :
  ready s ctx c → Ctx.disable_decommit c = false → attachment s a n ph st → Net.ctx n = ctx →
  names_free c (K s) → tunnel_kind (Settings.ops st) (K s) n ph st = Some tk →
  wp (create_pa (Settings.ops st) a) s
    (λ err s', err = LSDNE_OK ∧ attached (links (K s)) ctx a n (gen_name c) tk s' ∧ ready s' ctx (named (named c)) ∨
               undone (links (K s)) err s').
Proof.
  intros Hr Hd [(o & Hpa & Hph) Hst] Hctx Hn Hk. pose proof Hpa as [Ha Hnet]. subst ctx.
  pose proof (rd_ctx _ _ _ Hr). destruct (Settings.ops st) eqn:Hops; try done; simpl.
  - unfold vxlan_mcast_create_pa, lsdn_if_init, lsdn_if_free. do 6 hstep.
    rewrite wp_bind. eapply wp_fresh_name; [by apply (ready_same s)|]. intros s1 Hr1 HK1 Ho1 Hi1 Hs1.
    rewrite K_ifs in HK1. apply fmap_Some in Hk as (g & Hg & ->). hstep.
    eapply wp_vxlan_create; [done|rewrite HK1; intros How; apply Hn, How|]. rewrite HK1.
    eapply (wp_named_create _ c _ o n); try done.
    + intros err s' Hb Hs'. rewrite Hb.
      hstep; [by destruct Hs' as [-> | ->]; [rewrite Hi1; apply lookup_insert_eq|]|]. by do 2 hstep.
    + intros err t m s' Hb Hr' Hpa' Hi'. simpl. rewrite Hb. by eapply undo_tunnel_spec.
  - unfold vxlan_e2e_create_pa, lsdn_if_free. do 5 hstep.
    rewrite wp_bind. eapply wp_fresh_name; [by apply (ready_same s)|]. intros s1 Hr1 HK1 Ho1 Hi1 Hs1.
    apply fmap_Some in Hk as (g & Hg & ->). hstep.
    eapply wp_vxlan_create; [done|rewrite HK1; intros How; apply Hn, How|]. rewrite HK1.
    eapply (wp_named_create _ c _ o n); try done.
    + intros err s' Hb _. rewrite Hb. by hstep.
    + intros err t m s' Hb Hr' Hpa' Hi'. simpl. rewrite Hb. unfold lsdn_link_delete. hstep.
      eapply wp_request; [done..|]. intros ok s2 Hr2 HK2 Hq2 Hf2. pose proof Hq2 as (_ & Hi2 & _).
      hstep; [by rewrite Hi2|]. do 2 hstep. exists ok. split_and!; try done. by destruct ok, err.
  - unfold vlan_create_pa, lsdn_if_init, lsdn_if_free. apply fmap_Some in Hk as (g & Hg & ->).
    apply fmap_Some in Hg as (d & Hg & ->). do 6 hstep.
    rewrite wp_bind. eapply wp_fresh_name; [by apply (ready_same s)|]. intros s1 Hr1 HK1 Ho1 Hi1 Hs1.
    rewrite K_ifs in HK1.
    eapply wp_vlan_create; [done|rewrite HK1; intros How; apply Hn, How|]. rewrite HK1.
    eapply (wp_named_create _ c _ o n); try done.
    2: { intros err t m s' Hb Hr' Hpa' Hi'. simpl. rewrite Hb. by eapply undo_tunnel_spec. }
    intros err s' Hb _. rewrite Hb. by hstep.
Qed.

(** ** Detaching *)

(** Removing a port. *)
Lemma wp_lbridge_remove ctx c a b br_if iface t m s Q :
  ready s ctx c → Ctx.disable_decommit c = false → has_bridge s ctx a b → embeds s br_if.1 →
  H.structs s !! br_if = Some (NLbridgeIf (LbridgeIf.mk (a, F_lbridge) iface)) →
  H.ifs s !! iface = Some (If.mk t m) →
  (∀ ok s', ready s' ctx c → K s' = kstep (K s) (ReqLinkMaster 0 t, ok) → quiet s s' →
     (ok = false → refused s') → Q (if ok then LSDNE_OK else LSDNE_INCONSISTENT) s') →
  wp (lsdn_lbridge_remove br_if) s Q.
Proof.
  intros Hr Hd (Ha & Hst & bn & Hb) Hp Hpi Hi HQ. unfold lsdn_lbridge_remove, lsdn_link_set_master.
  pose proof (rd_ctx _ _ _ Hr). do 3 hstep. rewrite Hd. hstep. rewrite wp_bind.
  eapply wp_request; [done|apply Hr|]. intros ok s1 Hr1 HK1 Hq1 Hf1. rewrite answer_bad. hstep.
  specialize (HQ ok s1). destruct ok; by apply HQ.
Qed.

(** The links of an attachment go, one after the other. *)
Lemma detached_links L t b x y k : kwf k →
  L !! t = None → L !! b = None → t ≠ b →
  (∀ j l, L !! j = Some l → l_master l ≠ t ∧ l_master l ≠ b) → l_master y = 0 →
  links k = <[t := x]> (<[b := y]> L) →
  links (delete_link t (delete_link b (kstep k (ReqLinkMaster 0 t, true)))) = L.
Proof.
  intros Hk Ht Hb Htb HL Hy Hl.
  assert (0 < t ∧ 0 < b) as [? ?].
  { destruct Hk as (_ & Hbd & _). split; [apply (Hbd t x)|apply (Hbd b y)]; rewrite Hl.
    - by rewrite lookup_insert_eq.
    - by rewrite lookup_insert_ne, lookup_insert_eq. }
  set (k1 := kstep k _). assert (Hl1 : links k1 = <[t := set_master 0 x]> (<[b := y]> L)).
  { unfold k1. simpl. by rewrite Hl, alter_insert_eq. }
  assert (Hl2 : links (delete_link b k1) = <[t := set_master 0 x]> L).
  { rewrite delete_unmastered; rewrite Hl1.
    - by rewrite delete_insert_ne, delete_insert_id by done.
    - intros j l [[<- <-]|[_ [[<- <-]|[_ Hj]]%lookup_insert_Some]]%lookup_insert_Some Hne; simpl; [lia|done|].
      by eapply HL. }
  rewrite delete_unmastered; rewrite Hl2; [by apply delete_insert_id|].
  intros j l [[<- <-]|[_ Hj]]%lookup_insert_Some Hne; [done|]. by eapply HL.
Qed.

Lemma wp_detach L ctx c a n tn tk s :
  ready s ctx c → Ctx.disable_decommit c = false → Net.ctx n = ctx →
  attached L ctx a n tn tk s →
  wp (lsdn_lbridge_destroy_pa a) s
    (λ err s', err = LSDNE_OK ∧ links (K s') = L ∨ err = LSDNE_INCONSISTENT ∧ refused s').
Proof.
  intros Hr Hd Hctx (t & b & bn & m & (o & Hpa) & Hbr & Hpi & Ht & HLt & HLb & Htb & HL & Hl).
  unfold lsdn_lbridge_destroy_pa, lsdn_link_delete, lsdn_if_free. pose proof Hbr as (Ha & _).
  rewrite wp_bind. eapply wp_lbridge_remove; [done..|]. intros ok1 s1 Hr1 HK1 Hq1 Hf1.
  rewrite wp_bind. eapply wp_lbridge_free; [done|done|by eapply quiet_bridge|].
  intros e2 s2 He2 Hr2 Hq2. pose proof (quiet_trans _ _ _ Hq1 Hq2) as (Ho & Hi & _).
  rewrite wp_bind. eapply (wp_pa_ctx _ _ o n); [by unfold pa_of; rewrite Ho|]. rewrite Hctx.
  pose proof (rd_ctx _ _ _ Hr2). hstep. rewrite Hd. rewrite !wp_bind. hstep; [by rewrite Hi|].
  eapply wp_request; [done..|]. intros ok3 s3 Hr3 HK3 Hq3 Hf3. hstep. pose proof Hq3 as (_ & Hi3 & _).
  hstep; [by rewrite Hi3, Hi|]. do 2 hstep.
  assert (Hf13 : refused s1 → refused s3).
  { intros Hf. eapply refused_quiet; [exact Hr2|done|]. by eapply refused_quiet; [exact Hr1|..]. }
  assert (Hf23 : refused s2 → refused s3) by (eapply refused_quiet; done).
  destruct He2 as [[-> HK2]|(-> & _ & Hf2)]; [|right; destruct ok1, ok3; auto].
  destruct ok1; [|right; destruct ok3; auto]. destruct ok3; [|right; auto].
  left. split; [done|]. rewrite HK3, HK2, HK1.
  eapply (detached_links L t b (Link tn tk b true) (Link bn LinkBridge 0 true)); try done. apply Hr.
Qed.
End requests.

(** A context with one network on one phys, on a kernel with the interface [eth0] that
    acknowledges everything. *)
Definition demo_ctx : Ctx.lsdn_context := Ctx.mk "lsdn" None true true None 0 false false 0 "".
Definition demo_settings : Settings.lsdn_settings :=
  Settings.mk LSDN_STATE_NEW false None 1 lsdn_net_vlan_ops LSDN_NET_VLAN LSDN_LEARNING 0 None 0 None.
Definition demo_net : Net.lsdn_net := Net.mk LSDN_STATE_NEW false None 1 2 7.
Definition demo_phys : Phys.lsdn_phys := Phys.mk LSDN_STATE_NEW false None 1 true false (Some "eth0") None.
Definition demo_of (st : Settings.lsdn_settings) : heap :=
  H.mk (kernel_env (λ _, true) (λ _, true)) 6 0 [] [] ∅
    (list_to_map [(1%positive, OCtx demo_ctx); (2%positive, OSettings st);
                  (3%positive, ONet demo_net); (4%positive, OPhys demo_phys);
                  (5%positive, OPa (Pa.mk LSDN_STATE_NEW false 3 4 true))])
    ∅ ∅ ∅ ∅ ∅ ∅.
Definition demo : heap := demo_of demo_settings.
Definition demo_direct : Settings.lsdn_settings :=
  Settings.mk LSDN_STATE_NEW false None 1 lsdn_net_direct_ops LSDN_NET_DIRECT LSDN_LEARNING 0 None 0 None.

Lemma kernel_env_of_ok k0 malloc_ok ack : kernel_ok k0 (kernel_env_of k0 malloc_ok ack).
Proof.
  split; [done|]. intros tr n kd. cbn. rewrite andb_true_iff, bool_decide_eq_true. tauto.
Qed.

Lemma kernel_env_ok malloc_ok ack : kernel_ok eth0 (kernel_env malloc_ok ack).
Proof. apply kernel_env_of_ok. Qed.

Lemma eth0_wf : kwf eth0.
Proof.
  split_and!; simpl; [done| |].
  - intros i l [<- <-]%lookup_singleton_Some. simpl. lia.
  - by intros i j l l' [<- <-]%lookup_singleton_Some [<- <-]%lookup_singleton_Some.
Qed.

Lemma demo_ready st : ready eth0 [] (demo_of st) 1 demo_ctx.
Proof. split; try done; [apply kernel_env_ok|apply eth0_wf]. Qed.

Lemma demo_names : names_free demo_ctx eth0.
Proof.
  assert (Hf : ∀ n, n ≠ "eth0" → ¬ taken n eth0).
  { intros n Hn (i & l & Hi & Hl). simpl in Hi. apply lookup_singleton_Some in Hi as [<- <-]. by subst n. }
  intros _. split_and!; [apply Hf..|]; by vm_compute.
Qed.

Lemma demo_attachment st : attachment (demo_of st) 5 demo_net demo_phys st.
Proof. split; [|done]. by eexists. Qed.

(** C6: Attaching a phys to a network of type vlan, vxlan with multicast or vxlan end to end
    (the types that connect one tunnel to a Linux bridge), on a kernel that answers sensibly.
    Either the attachment now has its tunnel, of the kind the network asks for, up and a port of
    a new bridge that is up, beside the links there were before; or a request was refused, and
    then either the error is NETLINK and the links are those there were before, or the undoing
    was refused too and the error is INCONSISTENT; or memory ran out, the error is NOMEM, and
    just one of the two links stays behind, down and in no bridge. The names that were generated
    must not be in use if existing links are to be overwritten. *)
Theorem attach_links k0 ctx c a n ph st tk s :
  ready k0 (H.trace s) s ctx c → Ctx.disable_decommit c = false →
  attachment s a n ph st → Net.ctx n = ctx → names_free c (kernel k0 (H.trace s)) →
  tunnel_kind (Settings.ops st) (kernel k0 (H.trace s)) n ph st = Some tk →
  wp (create_pa (Settings.ops st) a) s (λ err s',
    let old := links (kernel k0 (H.trace s)) in
    let new := links (kernel k0 (H.trace s')) in
    (err = LSDNE_OK ∧ ∃ t b bn, old !! t = None ∧ old !! b = None ∧ t ≠ b ∧
       new = <[t := Link (gen_name c) tk b true]> (<[b := Link bn LinkBridge 0 true]> old)) ∨
    ((∃ r, (r, false) ∈ drop (length (H.trace s)) (H.trace s')) ∧
     (err = LSDNE_NETLINK ∧ new = old ∨ err = LSDNE_INCONSISTENT)) ∨
    (err = LSDNE_NOMEM ∧ out_of_memory s' ∧
     ∃ i nm kd, old !! i = None ∧ new = <[i := Link nm kd 0 false]> old)).
Proof.
  intros Hr Hd Hat Hctx Hn Hk. eapply wp_mono; [by eapply wp_attach|].
  intros err s' [(-> & (t & b & bn & m & _ & _ & _ & _ & Ht & Hb & Hne & _ & Hl) & _)|Hu].
  - left. split; [done|]. by exists t, b, bn.
  - by right.
Qed.

Lemma attach_links_witness :
  wp (vlan_create_pa 5) demo (λ err s',
    (err = LSDNE_OK ∧ ∃ t b bn, links eth0 !! t = None ∧ links eth0 !! b = None ∧ t ≠ b ∧
       links (kernel eth0 (H.trace s')) =
         <[t := Link "lsdn-iface-1" (LinkVlan 1 7) b true]> (<[b := Link bn LinkBridge 0 true]> (links eth0))) ∨
    ((∃ r, (r, false) ∈ drop 0 (H.trace s')) ∧
     (err = LSDNE_NETLINK ∧ links (kernel eth0 (H.trace s')) = links eth0 ∨ err = LSDNE_INCONSISTENT)) ∨
    (err = LSDNE_NOMEM ∧ out_of_memory s' ∧
     ∃ i nm kd, links eth0 !! i = None ∧
       links (kernel eth0 (H.trace s')) = <[i := Link nm kd 0 false]> (links eth0))).
Proof.
  apply (attach_links eth0 1 demo_ctx 5 demo_net demo_phys demo_settings (LinkVlan 1 7) demo);
    [apply demo_ready|done|apply demo_attachment|done|apply demo_names|by vm_compute].
Defined.

(** The last case, run: the first allocation of [vlan_create_pa] is the copy of the name of the
    tunnel, after the kernel has made it. *)
Example nomem_leaves_the_tunnel :
  wp (vlan_create_pa 5) (H.set_env (kernel_env (λ _, false) (λ _, true)) demo) (λ err s',
    err = LSDNE_NOMEM ∧ links (kernel eth0 (H.trace s')) !! 2 = Some (Link "lsdn-iface-1" (LinkVlan 1 7) 0 false)).
Proof. by vm_compute. Qed.

(** C7: Attaching a phys to a network of type vlan, vxlan with multicast or vxlan end to end and
    detaching it again leaves the links of the kernel as they were, whether the attachment
    succeeded or not, unless a refused request made the error INCONSISTENT or memory ran out. *)
Theorem attach_detach k0 ctx c a n ph st tk s :
  ready k0 (H.trace s) s ctx c → Ctx.disable_decommit c = false →
  attachment s a n ph st → Net.ctx n = ctx → names_free c (kernel k0 (H.trace s)) →
  tunnel_kind (Settings.ops st) (kernel k0 (H.trace s)) n ph st = Some tk →
  wp (err ← create_pa (Settings.ops st) a;
      if bool_decide (err ≠ LSDNE_OK) then mret err else
      destroy ← deref (destroy_pa (Settings.ops st)); destroy a) s (λ err s',
    ((err = LSDNE_OK ∨ err = LSDNE_NETLINK) ∧
     links (kernel k0 (H.trace s')) = links (kernel k0 (H.trace s))) ∨
    (err = LSDNE_INCONSISTENT ∧ ∃ r, (r, false) ∈ drop (length (H.trace s)) (H.trace s')) ∨
    (err = LSDNE_NOMEM ∧ out_of_memory s')).
Proof.
  intros Hr Hd Hat Hctx Hn Hk. rewrite wp_bind. eapply wp_mono; [by eapply wp_attach|].
  intros err s' [(-> & Ha & Hr')|Hu].
  - rewrite bool_decide_false by (by intros []).
    assert (Hds : destroy_pa (Settings.ops st) = Some lsdn_lbridge_destroy_pa).
    { by destruct (Settings.ops st). }
    rewrite Hds. hstep. eapply wp_mono; [by eapply wp_detach|].
    intros err s'' [[-> Hl]|[-> Hf]]; auto.
  - rewrite (undone_bad _ _ _ _ _ Hu). hstep.
    destruct Hu as [[Hf [[-> Hl]| ->]]|(-> & Hm & _)]; auto.
Qed.

Lemma attach_detach_witness :
  wp (err ← vlan_create_pa 5; if bool_decide (err ≠ LSDNE_OK) then mret err else
      destroy ← deref (Some lsdn_lbridge_destroy_pa); destroy 5%positive) demo (λ err s',
    ((err = LSDNE_OK ∨ err = LSDNE_NETLINK) ∧ links (kernel eth0 (H.trace s')) = links eth0) ∨
    (err = LSDNE_INCONSISTENT ∧ ∃ r, (r, false) ∈ drop 0 (H.trace s')) ∨
    (err = LSDNE_NOMEM ∧ out_of_memory s')).
Proof.
  apply (attach_detach eth0 1 demo_ctx 5 demo_net demo_phys demo_settings (LinkVlan 1 7) demo);
    [apply demo_ready|done|apply demo_attachment|done|apply demo_names|by vm_compute].
Defined.

(** C37: A direct network bridges the physical interface itself, but detaching treats it like a
    tunnel that the library created: attaching a phys to a direct network and detaching it
    again, when both succeed, deletes the physical interface. *)
Theorem direct_detach_deletes k0 ctx c a n ph st d i kd up s :
  ready k0 (H.trace s) s ctx c → Ctx.disable_decommit c = false →
  attachment s a n ph st → Net.ctx n = ctx → Settings.ops st = lsdn_net_direct_ops →
  (Ctx.overwrite c = true → ¬ taken (gen_name c) (kernel k0 (H.trace s))) →
  Phys.attr_iface ph = Some d →
  links (kernel k0 (H.trace s)) !! i = Some (Link d kd 0 up) →
  (∀ j l, links (kernel k0 (H.trace s)) !! j = Some l → l_master l ≠ i) →
  wp (err ← create_pa (Settings.ops st) a;
      if bool_decide (err ≠ LSDNE_OK) then mret err else
      destroy ← deref (destroy_pa (Settings.ops st)); destroy a) s (λ err s',
    err = LSDNE_OK → links (kernel k0 (H.trace s')) = delete i (links (kernel k0 (H.trace s)))).
Proof.
  intros Hr Hd [(o & Hpa & Hph) Hst] Hctx Hops Hn Hif Hi Hm. rewrite Hops. simpl.
  rewrite wp_bind. unfold direct_create_pa, lsdn_if_init, lsdn_if_set_name, lsdn_if_free, lsdn_if_resolve.
  pose proof Hpa as [Ha Hnet]. pose proof Hr as [Hc Hs Hk Hw Hg]. change (kernel k0 (H.trace s)) with (K k0 s) in *.
  do 5 hstep. simpl. destruct (Env.malloc_ok _ _).
  2: { hstep. rewrite bool_decide_true by done. hstep. rewrite bool_decide_true by done. by hstep. }
  do 4 hstep. rewrite bool_decide_false by (by intros []). hstep. simpl.
  pose proof (index_of_taken _ _ _ Hw Hi) as Hidx. simpl in Hidx.
  assert (Hpos : 0 < i) by (destruct Hw as (_ & Hb & _); by apply Hb in Hi as [[? _] _]).
  assert (Hres : Env.if_nametoindex (H.env s) (H.trace s) d = i) by (rewrite (kok_names _ _ Hk); done).
  do 2 hstep. simpl. rewrite Hres, (bool_decide_false (i = 0)) by lia. do 2 hstep.
  rewrite bool_decide_false by (by intros []). set (s1 := H.set_ifs _ _). rewrite wp_bind.
  assert (HL : links (K k0 s1) = <[i := Link d kd 0 up]> (delete i (links (K k0 s)))) by by rewrite insert_delete_id.
  eapply (wp_lbridge_create_pa k0 (H.trace s) ctx c a o n i d kd up (Some d) (delete i (links (K k0 s)))); try done.
  - apply lookup_insert_eq.
  - apply lookup_delete_eq.
  - intros j l [_ Hj]%lookup_delete_Some. by eapply Hm.
  - intros err s2 Hu _ _ Hi2. rewrite (undone_bad _ _ _ _ _ Hu). do 3 hstep.
    rewrite (undone_bad _ _ _ _ _ Hu). hstep. intros ->. by apply undone_bad in Hu.
  - intros s2 Hat Hr2 _. rewrite bool_decide_false by (by intros []). hstep.
    rewrite bool_decide_false by (by intros []). hstep.
    eapply wp_mono; [by eapply (wp_detach k0 (H.trace s) _ ctx (named c))|].
    by intros err s3 [[-> Hl]|[-> _]].
Qed.

Lemma direct_detach_deletes_witness :
  wp (err ← direct_create_pa 5; if bool_decide (err ≠ LSDNE_OK) then mret err else
      destroy ← deref (Some lsdn_lbridge_destroy_pa); destroy 5%positive) (demo_of demo_direct) (λ err s',
    err = LSDNE_OK → links (kernel eth0 (H.trace s')) = delete 1 (links eth0)).
Proof.
  apply (direct_detach_deletes eth0 1 demo_ctx 5 demo_net demo_phys demo_direct "eth0" 1 LinkDummy true
           (demo_of demo_direct));
    [apply demo_ready|reflexivity|apply demo_attachment|reflexivity|reflexivity|apply demo_names|reflexivity| |].
  - vm_compute. reflexivity.
  - intros j l Hj. simpl in Hj. apply lookup_singleton_Some in Hj as [<- <-]. discriminate.
Defined.
