(* ===== verification/Valid.v ===== *)
(** * What validation checks

    A network model is [valid] when its objects satisfy the conditions below, which do not
    mention lists, loops or the order of checks. [lsdn_validate] answers OK exactly for the
    valid models, reads only live memory and sends nothing to the kernel. *)

From Stdlib Require Import ZArith Lia.
From stdpp Require Import base list gmap strings.
From S2P Require Import Prelude.
From S2P Require Import LStore.
From S2P Require Import Status.
From S2P Require Import Nettypes.
From S2P Require Import Heap.
From S2P Require Import Base.
From S2P Require Import Wp.
From S2P Require Import Model.
From S2P Require Import Rules.
From S2P Require Import Validate.
From S2P Require Import Inv.
From S2P Require Import Change.
From S2P Require Import Api.

Local Open Scope Z_scope.

(** ** The conditions *)

(** The masked match data of a virt rule. *)
Definition key (s : heap) (r : ptr) (x : Vr.lsdn_vr) : option (list matchdata) :=
  (λ y, apply_mask (Vr.targets x) (Vr.masks x) (Rule.matches y)) <$> H.rules s !! (r, F_rule).

(** The interface of a handle is there. *)
Definition resolves (s : heap) (i : addr) : bool :=
  match H.ifs s !! i with
  | Some x => bool_decide (If.ifindex x ≠ 0) ||
      match If.ifname x with
      | Some n => bool_decide (Env.if_nametoindex (H.env s) (H.trace s) n ≠ 0)
      | None => false
      end
  | None => false
  end.

(** Network [n] is attached to some local phys. *)
Definition local_net (s : heap) (n : ptr) : Prop :=
  ∃ a o p, H.objs s !! a = Some (OPa o) ∧ Pa.net o = n ∧
           H.objs s !! Pa.phys o = Some (OPhys p) ∧ Phys.is_local p = true.

(** Rules [r1] and [r2] are for the same priority of a virt. *)
Definition same_prio (s : heap) (x : Virt.lsdn_virt) (r1 r2 : ptr) : Prop :=
  ∃ q, q ∈ tables (OVirt x) ∧ own s (r1, F_rules_entry) = Some (q, F_rules_list) ∧
       own s (r2, F_rules_entry) = Some (q, F_rules_list).

(** The types of network whose attachments need an address, and whose virts need one. *)
Definition needs_ip (t : lsdn_net_ops_tag) : bool :=
  match t with
  | lsdn_net_vxlan_e2e_ops | lsdn_net_vxlan_static_ops | lsdn_net_geneve_ops
  | lsdn_net_geneve_e2e_ops => true
  | _ => false
  end.
Definition needs_mac (t : lsdn_net_ops_tag) : bool :=
  match t with lsdn_net_vxlan_static_ops | lsdn_net_geneve_ops => true | _ => false end.

Definition good_rate (r : option lsdn_qos_rate_t) : Prop :=
  match r with Some r => bad_rate r = false | None => True end.

(** What a virt of a network that stays must satisfy, with the other virts of the network. *)
Record valid_virt (s : heap) (v : ptr) (x : Virt.lsdn_virt) : Prop := {
  vv_rate_in : good_rate (Virt.attr_rate_in x);
  vv_rate_out : good_rate (Virt.attr_rate_out x);
  vv_rules r1 r2 y1 y2 : same_prio s x r1 r2 →
    H.objs s !! r1 = Some (OVr y1) → H.objs s !! r2 = Some (OVr y2) →
    Vr.targets y1 = Vr.targets y2 ∧ Vr.masks y1 = Vr.masks y2 ∧
    (r1 ≠ r2 → key s r1 y1 ≠ key s r2 y2);
  vv_mac v' x' m m' : v ≠ v' → H.objs s !! v' = Some (OVirt x') → Virt.network x' = Virt.network x →
    should_be_validated (Virt.state x) = true → should_be_validated (Virt.state x') = true →
    Virt.attr_mac x = Some m → Virt.attr_mac x' = Some m' → lsdn_mac_eq m m' = false }.

(** Two networks that stay do not share an identifier, and do not compete for a port. *)
Record valid_nets (s : heap) (n1 : ptr) (x1 : Net.lsdn_net) (t1 : Settings.lsdn_settings)
    (n2 : ptr) (x2 : Net.lsdn_net) (t2 : Settings.lsdn_settings) : Prop := {
  vn_id : Settings.nettype t1 = Settings.nettype t2 → Net.vnet_id x1 ≠ Net.vnet_id x2;
  vn_port : local_net s n1 → local_net s n2 →
    Settings.nettype t1 = LSDN_NET_VXLAN → Settings.nettype t2 = LSDN_NET_VXLAN →
    Settings.switch_type t1 = LSDN_STATIC_E2E → Settings.switch_type t2 ≠ LSDN_STATIC_E2E →
    Settings.port t1 ≠ Settings.port t2 }.

(** An attachment of a phys that stays, with the virts that are connected through it. *)
Record valid_pa (s : heap) (a : ptr) (o : Pa.lsdn_phys_attachment) (p : Phys.lsdn_phys)
    (t : Settings.lsdn_settings) : Prop := {
  va_attached v x : Pa.explicitly_attached o = false →
    H.objs s !! v = Some (OVirt x) → Virt.connected_through x = Some a →
    should_be_validated (Virt.state x) = false;
  va_iface : Pa.explicitly_attached o = true → Phys.is_local p = true → Phys.attr_iface p ≠ None;
  va_ip : Pa.explicitly_attached o = true → needs_ip (Settings.ops t) = true →
    should_be_validated (Pa.state o) = true → Phys.attr_ip p ≠ None;
  va_virt v x : Pa.explicitly_attached o = true →
    H.objs s !! v = Some (OVirt x) → Virt.connected_through x = Some a →
    should_be_validated (Virt.state x) = true →
    (Phys.is_local p = true → resolves s (v, F_connected_if) = true) ∧
    (needs_mac (Settings.ops t) = true → Virt.attr_mac x ≠ None) }.

Record valid (s : heap) : Prop := {
  va_virts n y v x : H.objs s !! n = Some (ONet y) → will_be_deleted (Net.state y) = false →
    H.objs s !! v = Some (OVirt x) → Virt.network x = n → valid_virt s v x;
  va_nets n1 x1 t1 n2 x2 t2 : n1 ≠ n2 →
    H.objs s !! n1 = Some (ONet x1) → will_be_deleted (Net.state x1) = false →
    H.objs s !! Net.settings x1 = Some (OSettings t1) →
    H.objs s !! n2 = Some (ONet x2) → will_be_deleted (Net.state x2) = false →
    H.objs s !! Net.settings x2 = Some (OSettings t2) → valid_nets s n1 x1 t1 n2 x2 t2;
  va_pas a o p n t : H.objs s !! a = Some (OPa o) →
    H.objs s !! Pa.phys o = Some (OPhys p) → will_be_deleted (Phys.state p) = false →
    H.objs s !! Pa.net o = Some (ONet n) → H.objs s !! Net.settings n = Some (OSettings t) →
    valid_pa s a o p t;
  va_ips p1 x1 p2 x2 i1 i2 : p1 ≠ p2 →
    H.objs s !! p1 = Some (OPhys x1) → will_be_deleted (Phys.state x1) = false →
    H.objs s !! p2 = Some (OPhys x2) → will_be_deleted (Phys.state x2) = false →
    Phys.attr_ip x1 = Some i1 → Phys.attr_ip x2 = Some i2 → lsdn_ip_eq i1 i2 = false;
  va_ipv a1 o1 a2 o2 x1 x2 i1 i2 : a1 ≠ a2 →
    H.objs s !! a1 = Some (OPa o1) → H.objs s !! a2 = Some (OPa o2) → Pa.net o1 = Pa.net o2 →
    H.objs s !! Pa.phys o1 = Some (OPhys x1) → will_be_deleted (Phys.state x1) = false →
    H.objs s !! Pa.phys o2 = Some (OPhys x2) → will_be_deleted (Phys.state x2) = false →
    Phys.attr_ip x1 = Some i1 → Phys.attr_ip x2 = Some i2 → lsdn_ipv_eq i1 i2 = true }.

(** ** The lists of the model *)

Section lists.
Context (s0 : heap) (Hinv : inv s0).

Lemma members p ob f g (T : ptr → Prop) :
  H.objs s0 !! p = Some ob → f ∈ obj_heads ob → struct_field g = true →
  (∀ q h, own s0 (q, h) = Some (p, f) → h = g ∧ T q) →
  (∀ q, T q → ∃ oq, H.objs s0 !! q = Some oq ∧ obj_owner oq g = Some (p, f)) →
  ∃ l, H.lists s0 !! (p, f) = Some l ∧ ∀ q, q ∈ fst <$> l ↔ T q.
Proof.
  intros Hp Hf Hg H1 H2. destruct (list_members s0 Hinv p ob f Hp Hf) as (l & Hl & Hin).
  exists l. split; [done|]. intros q. rewrite list_elem_of_fmap. split.
  - intros ([q' h] & -> & He%Hin). by apply H1 in He as [_ HT].
  - intros (oq & Hq & Ho)%H2. exists (q, g). split; [done|]. apply Hin. by rewrite (inv_own s0 Hinv q oq g).
Qed.

Ltac members_ f :=
  intros; eapply members with (g := f); try eassumption; [simpl; set_solver|done|..];
  [intros q h (-> & x & Hx & Heq)%(own_inv s0 _ _ _ _ Hinv); split; [done|]; eauto
  |intros q (x & Hx & Hq); eexists; split; [exact Hx|]; simpl; first [congruence|by rewrite Hq]].

Lemma virt_list n y : H.objs s0 !! n = Some (ONet y) →
  ∃ l, H.lists s0 !! (n, F_virt_list) = Some l ∧
  ∀ v, v ∈ fst <$> l ↔ ∃ x, H.objs s0 !! v = Some (OVirt x) ∧ Virt.network x = n.
Proof. members_ F_virt_entry. Qed.
Lemma attached_list n y : H.objs s0 !! n = Some (ONet y) →
  ∃ l, H.lists s0 !! (n, F_attached_list) = Some l ∧
  ∀ v, v ∈ fst <$> l ↔ ∃ x, H.objs s0 !! v = Some (OPa x) ∧ Pa.net x = n.
Proof. members_ F_attached_entry. Qed.
Lemma attached_to_list n y : H.objs s0 !! n = Some (OPhys y) →
  ∃ l, H.lists s0 !! (n, F_attached_to_list) = Some l ∧
  ∀ v, v ∈ fst <$> l ↔ ∃ x, H.objs s0 !! v = Some (OPa x) ∧ Pa.phys x = n.
Proof. members_ F_attached_to_entry. Qed.
Lemma connected_list n y : H.objs s0 !! n = Some (OPa y) →
  ∃ l, H.lists s0 !! (n, F_connected_virt_list) = Some l ∧
  ∀ v, v ∈ fst <$> l ↔ ∃ x, H.objs s0 !! v = Some (OVirt x) ∧ Virt.connected_through x = Some n.
Proof. members_ F_connected_virt_entry. Qed.

Context (ctx : ptr) (Hc0 : ∃ c, H.objs s0 !! ctx = Some (OCtx c)).

Lemma nets_list : ∃ l, H.lists s0 !! (ctx, F_networks_list) = Some l ∧
  ∀ n, n ∈ fst <$> l ↔ ∃ x, H.objs s0 !! n = Some (ONet x) ∧ Net.ctx x = ctx.
Proof. destruct Hc0 as [c Hc]. members_ F_networks_entry. Qed.
Lemma settings_list : ∃ l, H.lists s0 !! (ctx, F_settings_list) = Some l ∧
  ∀ n, n ∈ fst <$> l ↔ ∃ x, H.objs s0 !! n = Some (OSettings x) ∧ Settings.ctx x = ctx.
Proof. destruct Hc0 as [c Hc]. members_ F_settings_entry. Qed.
Lemma phys_list : ∃ l, H.lists s0 !! (ctx, F_phys_list) = Some l ∧
  ∀ n, n ∈ fst <$> l ↔ ∃ x, H.objs s0 !! n = Some (OPhys x) ∧ Phys.ctx x = ctx.
Proof. destruct Hc0 as [c Hc]. members_ F_phys_entry. Qed.
End lists.

(** ** Checks

    A check reads the model, and counts a problem unless its condition holds. *)

Lemma hash_find_none {A} `{EqDecision A} (k : A) t : hash_find k t = None ↔ k ∉ fst <$> t.
Proof.
  unfold hash_find. induction t as [|[k' p] t IH]; simpl; [set_solver|].
  case_bool_decide as Hk; [set_solver|]. rewrite IH. set_solver.
Qed.

Lemma apply_mask1_idem t m v : apply_mask1 t m (apply_mask1 t m v) = apply_mask1 t m v.
Proof.
  assert (Hh : ∀ n, hard_mask n (hard_mask n v) = hard_mask n v).
  { intros n. unfold hard_mask. rewrite length_app, length_take, length_replicate.
    destruct (decide (n ≤ length v)%nat) as [Hn|Hn].
    - rewrite take_app_le, take_take by (rewrite length_take; lia). f_equal; f_equal; lia.
    - rewrite (take_ge v) by lia. replace (length v - n)%nat with 0%nat by lia. simpl.
      rewrite app_nil_r, take_ge by lia. replace (_ - n)%nat with 0%nat by lia. by rewrite app_nil_r. }
  unfold apply_mask1. destruct (lsdn_target_supports_masking t); [|by destruct t].
  clear Hh. revert m. induction v as [|x v IH]; intros [|y m]; simpl; try done.
  by rewrite IH, <-Z.land_assoc, Z.land_diag.
Qed.

Lemma apply_mask_idem ts ms vs : apply_mask ts ms (apply_mask ts ms vs) = apply_mask ts ms vs.
Proof.
  revert ms vs. induction ts as [|t ts IH]; intros [|m ms] [|v vs]; simpl; try done.
  by rewrite apply_mask1_idem, IH.
Qed.

Section checks.
Context (ctx : ptr) (cb : option problem_cb_t) (Hcb : cb ≠ Some abort_handler) (s0 : heap)
  (Hc0 : ∃ c, H.objs s0 !! ctx = Some (OCtx c)).

Definition count (s : heap) : Z :=
  match H.objs s !! ctx with Some (OCtx c) => Ctx.problem_count c | _ => 0 end.

(** What stays the same while the model is validated. *)
Record view (s : heap) : Prop := {
  vw_objs p : p ≠ ctx → H.objs s !! p = H.objs s0 !! p;
  vw_ctx : ∃ c, H.objs s !! ctx = Some (OCtx c) ∧ Ctx.problem_cb c = cb;
  vw_lists : H.lists s = H.lists s0;
  vw_env : H.env s = H.env s0;
  vw_trace : H.trace s = H.trace s0;
  vw_next : H.next_ptr s = H.next_ptr s0;
  vw_key r x : H.objs s0 !! r = Some (OVr x) → key s r x = key s0 r x;
  vw_rules i : is_Some (H.rules s !! i) ↔ is_Some (H.rules s0 !! i);
  vw_names i : If.ifname <$> H.ifs s !! i = If.ifname <$> H.ifs s0 !! i;
  vw_resolves i : resolves s i = resolves s0 i;
  vw_inv : inv s }.

Definition check (m : M heap unit) (P : Prop) : Prop := ∀ s, view s →
  wp m s (λ _ s', view s' ∧ count s ≤ count s' ∧ (count s' = count s ↔ P)).

Lemma check_iff m P Q : check m P → (P ↔ Q) → check m Q.
Proof. intros Hc HPQ s Hv. eapply wp_mono; [by apply Hc|]. intros u s' (? & ? & ->). done. Qed.

Lemma check_ret : check (mret tt) True.
Proof. intros s Hv. rewrite wp_ret. split_and!; [done|lia|done]. Qed.

Lemma check_bind m f P Q : check m P → (∀ u, check (f u) Q) → check (m ≫= f) (P ∧ Q).
Proof.
  intros Hm Hf s Hv. rewrite wp_bind. eapply wp_mono; [by apply Hm|]. intros u s1 (Hv1 & Hc1 & HP).
  eapply wp_mono; [by apply Hf|]. intros u2 s2 (Hv2 & Hc2 & HQ). split_and!; [done|lia|].
  rewrite <-HP, <-HQ. lia.
Qed.

Lemma check_when b m P : check m P → check (when b m) (b = true → P).
Proof.
  intros Hm. destruct b; simpl.
  - eapply check_iff; [done|]. tauto.
  - eapply check_iff; [apply check_ret|]. naive_solver.
Qed.

Lemma check_foreach h l body (P : ptr → Prop) :
  H.lists s0 !! h = Some l → (∀ q, q ∈ fst <$> l → check (body q) (P q)) →
  check (foreach h body) (∀ q, q ∈ fst <$> l → P q).
Proof.
  intros Hl Hb s Hv. unfold foreach. rewrite wp_bind. eapply wp_list_get; [by rewrite (vw_lists _ Hv)|].
  revert s Hv Hb. generalize (fst <$> l). clear. intros l. induction l as [|q l IH]; intros s Hv Hb; simpl.
  - rewrite wp_ret. split_and!; [done|lia|]. split; [set_solver|done].
  - rewrite wp_bind. eapply wp_mono; [by apply Hb; [set_solver|]|]. intros u1 s1 (Hv1 & Hc1 & HP).
    eapply wp_mono; [apply IH; [done|set_solver]|]. intros u2 s2 (Hv2 & Hc2 & HQ). split_and!; [done|lia|].
    setoid_rewrite elem_of_cons. split.
    + intros Hc q' [->|Hq]; [apply HP|apply HQ]; [lia|lia|done].
    + intros HPQ. transitivity (count s1); [apply HQ|apply HP]; auto.
Qed.

(** Reading an object other than the context. *)
Lemma view_get s p o : view s → H.objs s0 !! p = Some o → ¬ is_ctx o → H.objs s !! p = Some o.
Proof.
  intros Hv Hp Ho. rewrite (vw_objs _ Hv); [done|]. intros ->. destruct Hc0 as [c Hc]. rewrite Hc in Hp. by injection Hp as <-.
Qed.

Lemma check_get_virt p x f P :
  H.objs s0 !! p = Some (OVirt x) → check (f x) P → check (get_virt p ≫= f) P.
Proof. intros Hp Hf s Hv. hstep; [by apply (view_get s); [..|intros []]|by apply Hf]. Qed.
Lemma check_get_net p x f P :
  H.objs s0 !! p = Some (ONet x) → check (f x) P → check (get_net p ≫= f) P.
Proof. intros Hp Hf s Hv. hstep; [by apply (view_get s); [..|intros []]|by apply Hf]. Qed.
Lemma check_get_phys p x f P :
  H.objs s0 !! p = Some (OPhys x) → check (f x) P → check (get_phys p ≫= f) P.
Proof. intros Hp Hf s Hv. hstep; [by apply (view_get s); [..|intros []]|by apply Hf]. Qed.
Lemma check_get_pa p x f P :
  H.objs s0 !! p = Some (OPa x) → check (f x) P → check (get_pa p ≫= f) P.
Proof. intros Hp Hf s Hv. hstep; [by apply (view_get s); [..|intros []]|by apply Hf]. Qed.
Lemma check_get_settings p x f P :
  H.objs s0 !! p = Some (OSettings x) → check (f x) P → check (get_settings p ≫= f) P.
Proof. intros Hp Hf s Hv. hstep; [by apply (view_get s); [..|intros []]|by apply Hf]. Qed.
Lemma check_list_get h l f P :
  H.lists s0 !! h = Some l → check (f (fst <$> l)) P → check (list_get h ≫= f) P.
Proof.
  intros Hl Hf s Hv. rewrite wp_bind. eapply wp_list_get; [by rewrite (vw_lists _ Hv)|by apply Hf].
Qed.

(** A report counts. *)
Lemma view_count s c e n :
  view s → H.objs s !! ctx = Some (OCtx c) → Ctx.problem_cb c = cb →
  view (H.set_objs (<[ctx := OCtx (Ctx.set_problem_count n c)]> (H.objs s)) (H.set_events e s)).
Proof.
  intros [Ho Hc Hl He Ht Hn Hk Hr Hi Hs Hiv] Hx Hp. split; simpl; try done.
  - intros p Hne. rewrite lookup_insert_ne by done. by apply Ho.
  - eexists. by rewrite lookup_insert_eq.
  - eapply (inv_update s _ ctx (OCtx c) (OCtx (Ctx.set_problem_count n c))); try done.
    + eapply frame_trans; [apply frame_event|apply (frame_put _ _ (H.set_events e s))].
    + by apply lookup_insert_eq.
Qed.

Lemma check_report c code rs :
  c = ctx → (length rs ≤ LSDN_MAX_PROBLEM_REFS)%nat → check (lsdn_problem_report c code rs) False.
Proof.
  intros -> Hl s Hv. destruct (vw_ctx _ Hv) as (c & Hc & Hp). unfold lsdn_problem_report.
  assert (Hd : ∀ e n, n = Ctx.problem_count c + 1 →
    let s' := H.set_objs (<[ctx := OCtx (Ctx.set_problem_count n c)]> (H.objs s)) (H.set_events e s) in
    view s' ∧ count s ≤ count s' ∧ (count s' = count s ↔ False)).
  { intros e n Hn. split; [by apply view_count|]. unfold count. simpl. rewrite lookup_insert_eq, Hc. simpl. lia. }
  hstep. hstep; [by apply bool_decide_true|]. hstep. rewrite wp_bind, Hp.
  destruct cb as [[]|]; [done| |]; hstep; hstep.
  - by apply Hd.
  - destruct s. by apply (Hd events).
Qed.

Context (Hinv : inv s0) (Hone : ∀ p c, H.objs s0 !! p = Some (OCtx c) → p = ctx).

(** The objects an object refers to. *)
Lemma net_refs n x : H.objs s0 !! n = Some (ONet x) →
  Net.ctx x = ctx ∧ ∃ t, H.objs s0 !! Net.settings x = Some (OSettings t) ∧ Settings.ctx t = ctx.
Proof.
  intros Hn. destruct (inv_refs s0 Hinv _ _ Hn) as [([] & Hc & []) ([] & Hs & Ht & _)]; try done.
  simpl in Ht. apply Hone in Hc. rewrite Hc in *. eauto.
Qed.
Lemma phys_refs p x : H.objs s0 !! p = Some (OPhys x) → Phys.ctx x = ctx.
Proof. intros Hp. destruct (inv_refs s0 Hinv _ _ Hp) as ([] & Hc & []). by apply Hone in Hc. Qed.
Lemma pa_refs a o : H.objs s0 !! a = Some (OPa o) →
  ∃ n p, H.objs s0 !! Pa.net o = Some (ONet n) ∧ H.objs s0 !! Pa.phys o = Some (OPhys p).
Proof.
  intros Ha. destruct (inv_refs s0 Hinv _ _ Ha) as [([] & Hn & [] & _) ([] & Hp & [] & _)]. eauto.
Qed.
Lemma virt_refs v x : H.objs s0 !! v = Some (OVirt x) →
  ∃ n, H.objs s0 !! Virt.network x = Some (ONet n) ∧ Net.ctx n = ctx.
Proof.
  intros Hv. destruct (inv_refs s0 Hinv _ _ Hv) as [([] & Hn & [] & _) _]. eexists. split; [done|].
  by apply net_refs in Hn as [].
Qed.

(** ** The conditions of the checks *)

Lemma check_ok (P : Prop) : P → check (mret tt) P.
Proof. intros HP. eapply check_iff; [apply check_ret|tauto]. Qed.
Lemma check_bad c code rs (P : Prop) :
  c = ctx → (length rs ≤ LSDN_MAX_PROBLEM_REFS)%nat → ¬ P → check (lsdn_problem_report c code rs) P.
Proof. intros Hc Hl HP. eapply check_iff; [by apply check_report|tauto]. Qed.

(** One structural step. *)
Ltac chk :=
  lazymatch goal with
  | |- check (mret tt) _ => apply check_ok
  | |- check (get_virt _ ≫= _) _ => eapply check_get_virt; [eassumption|]
  | |- check (get_net _ ≫= _) _ => eapply check_get_net; [eassumption|]
  | |- check (get_phys _ ≫= _) _ => eapply check_get_phys; [eassumption|]
  | |- check (get_pa _ ≫= _) _ => eapply check_get_pa; [eassumption|]
  | |- check (get_settings _ ≫= _) _ => eapply check_get_settings; [eassumption|]
  | |- check (net_of_pa _ ≫= _) _ => eapply check_get_net; [eassumption|]
  | |- check (settings_of_net _ ≫= _) _ => eapply check_get_settings; [eassumption|]
  | |- check (list_get _ ≫= _) _ => eapply check_list_get; [eassumption|]
  | |- check (lsdn_problem_report _ _ _) _ =>
      apply check_bad; [congruence|simpl; unfold LSDN_MAX_PROBLEM_REFS; lia|]
  end.

Lemma check_report_virts a o : H.objs s0 !! a = Some (OPa o) →
  check (report_virts a)
    (∀ v x, H.objs s0 !! v = Some (OVirt x) → Virt.connected_through x = Some a →
       should_be_validated (Virt.state x) = false).
Proof.
  intros Ha. destruct (connected_list s0 Hinv _ _ Ha) as (l & Hl & Hin).
  destruct (pa_refs _ _ Ha) as (n & p & Hn & _). destruct (net_refs _ _ Hn) as (Hc & _).
  eapply check_iff.
  - eapply (check_foreach _ _ _ (λ v, ∀ x, H.objs s0 !! v = Some (OVirt x) →
              should_be_validated (Virt.state x) = false)); [done|].
    intros v (x & Hx & _)%Hin. chk. destruct (should_be_validated (Virt.state x)) eqn:Hv; cbn [negb]; repeat chk.
    + intros Hx'. rewrite (Hx' x) in Hv; done.
    + intros x' Hx'. by simplify_eq.
  - setoid_rewrite Hin. split.
    + intros Hv v x Hx Hc'. eapply Hv; eauto.
    + intros Hv v (x' & Hx' & Hc') x Hx. apply (Hv v); [done|congruence].
Qed.

Lemma check_validate_rate v x name rate : H.objs s0 !! v = Some (OVirt x) →
  check (validate_rate v name rate) (good_rate rate).
Proof.
  intros Hx. destruct (virt_refs _ _ Hx) as (n & Hn & Hc). unfold validate_rate. destruct rate as [r|]; [|by chk].
  destruct (bad_rate r) eqn:E; repeat chk; simpl; congruence.
Qed.

Lemma check_virt_mac v x : H.objs s0 !! v = Some (OVirt x) →
  check (validate_virt_mac v) (Virt.attr_mac x ≠ None).
Proof.
  intros Hx. destruct (virt_refs _ _ Hx) as (n & Hn & Hc). unfold validate_virt_mac. do 2 chk.
  destruct (Virt.attr_mac x); chk; [done|by intros []].
Qed.

Lemma check_pa_ip a o p : H.objs s0 !! a = Some (OPa o) → H.objs s0 !! Pa.phys o = Some (OPhys p) →
  check (validate_pa_ip a) (Phys.attr_ip p ≠ None).
Proof.
  intros Ha Hp. pose proof (phys_refs _ _ Hp). unfold validate_pa_ip. do 2 chk.
  destruct (Phys.attr_ip p); chk; [done|by intros []].
Qed.

Lemma check_phys_ips p x p' y : H.objs s0 !! p = Some (OPhys x) → H.objs s0 !! p' = Some (OPhys y) →
  check (validate_phys_ips ctx p p')
    (∀ i i', p ≠ p' → will_be_deleted (Phys.state y) = false → Phys.attr_ip x = Some i →
       Phys.attr_ip y = Some i' → lsdn_ip_eq i i' = false).
Proof.
  intros Hp Hp'. unfold validate_phys_ips. do 2 chk. case_bool_decide as Hd; cbn [orb]; [by chk|].
  destruct (will_be_deleted (Phys.state y)); [by chk|].
  destruct (Phys.attr_ip x) as [i|], (Phys.attr_ip y) as [i'|]; try by chk.
  destruct (lsdn_ip_eq i i') eqn:E; unfold when; chk; [|by intros; simplify_eq].
  intros HP. by rewrite (HP i i') in E.
Qed.

(** Some attachment of the list is on a local phys. *)
Lemma wp_any_local l s : view s → (∀ a, a ∈ l → ∃ o, H.objs s0 !! a = Some (OPa o)) →
  wp (any_local l) s (λ b s', s' = s ∧ (b = true ↔ ∃ a o p, a ∈ l ∧ H.objs s0 !! a = Some (OPa o) ∧
           H.objs s0 !! Pa.phys o = Some (OPhys p) ∧ Phys.is_local p = true)).
Proof.
  intros Hv. induction l as [|a l IH]; intros Hl; simpl.
  - hstep. split; [done|]. set_solver.
  - destruct (Hl a) as [o Ho]; [set_solver|]. destruct (pa_refs _ _ Ho) as (n & p & _ & Hp).
    do 2 (hstep; [by apply (view_get s); [..|intros []]|]). rewrite wp_bind. eapply wp_mono; [apply IH; set_solver|].
    intros b s' [-> Hb]. hstep. split; [done|]. rewrite orb_true_iff, Hb. setoid_rewrite elem_of_cons. split.
    + intros [Hi|(a' & o' & p' & Hin & ?)]; [by exists a, o, p; auto|]. exists a', o', p'. auto.
    + intros (a' & o' & p' & [->|Hin] & Ho' & Hp' & Hi); [left; congruence|]. right. by exists a', o', p'.
Qed.

Lemma check_any_local l f P :
  (∀ a, a ∈ l → ∃ o, H.objs s0 !! a = Some (OPa o)) →
  (∀ b, (b = true ↔ ∃ a o p, a ∈ l ∧ H.objs s0 !! a = Some (OPa o) ∧
           H.objs s0 !! Pa.phys o = Some (OPhys p) ∧ Phys.is_local p = true) → check (f b) P) →
  check (any_local l ≫= f) P.
Proof.
  intros Hl Hf s Hv. rewrite wp_bind. eapply wp_mono; [by apply wp_any_local|]. intros b s' [-> Hb]. by apply Hf.
Qed.

Lemma check_local n x l f P :
  H.objs s0 !! n = Some (ONet x) → H.lists s0 !! (n, F_attached_list) = Some l →
  (∀ b, (b = true ↔ local_net s0 n) → check (f b) P) → check (any_local (fst <$> l) ≫= f) P.
Proof.
  intros Hn Hl Hf. destruct (attached_list s0 Hinv _ _ Hn) as (l' & Hl' & Hin). simplify_eq.
  apply check_any_local; [intros a (o & Ho & _)%Hin; eauto|]. intros b Hb. apply Hf. rewrite Hb.
  unfold local_net. setoid_rewrite Hin. split.
  - intros (a & o & p & (o' & Ho' & Hn') & Ho & Hp & Hi). exists a, o, p. split_and!; try done. congruence.
  - intros (a & o & p & Ho & Hno & Hp & Hi). exists a, o, p. split_and!; try done. eauto.
Qed.

Lemma check_cross n1 x1 t1 n2 x2 t2 :
  H.objs s0 !! n1 = Some (ONet x1) → H.objs s0 !! Net.settings x1 = Some (OSettings t1) →
  H.objs s0 !! n2 = Some (ONet x2) → H.objs s0 !! Net.settings x2 = Some (OSettings t2) →
  check (cross_validate_networks n1 n2) (valid_nets s0 n1 x1 t1 n2 x2 t2).
Proof.
  intros H1 Ht1 H2 Ht2. destruct (net_refs _ _ H1) as (_ & t1' & Ht1' & Hct).
  assert (t1' = t1) as -> by congruence. unfold cross_validate_networks. do 4 chk.
  destruct (attached_list s0 Hinv _ _ H1) as (l1 & Hl1 & _), (attached_list s0 Hinv _ _ H2) as (l2 & Hl2 & _).
  eapply (check_iff _ (_ ∧ _)).
  - eapply check_bind; [apply check_when, check_report; [done|simpl; unfold LSDN_MAX_PROBLEM_REFS; lia]|]. intros _.
    do 2 chk. apply (check_local n1 x1); [done..|]. intros b1 Hb1. apply (check_local n2 x2); [done..|]. intros b2 Hb2.
    eapply (check_iff _ _ (local_net s0 n1 → local_net s0 n2 →
      Settings.nettype t1 = LSDN_NET_VXLAN → Settings.nettype t2 = LSDN_NET_VXLAN →
      Settings.switch_type t1 = LSDN_STATIC_E2E → Settings.switch_type t2 ≠ LSDN_STATIC_E2E →
      Settings.port t1 ≠ Settings.port t2)).
    + apply check_when, check_report; [done|simpl; unfold LSDN_MAX_PROBLEM_REFS; lia].
    + rewrite !andb_true_iff, !bool_decide_eq_true, Z.eqb_eq, Hb1, Hb2. tauto.
  - rewrite andb_true_iff, bool_decide_eq_true, Z.eqb_eq. split.
    + intros [Hid Hp]. split; [tauto|done].
    + intros [Hid Hp]. tauto.
Qed.

(** ** Rules *)

(** Masking a rule keeps its key. *)
Lemma view_mask s r x y : view s → H.objs s0 !! r = Some (OVr x) → H.rules s !! (r, F_rule) = Some y →
  view (H.set_rules (<[(r, F_rule) := Rule.set_matches (apply_mask (Vr.targets x) (Vr.masks x) (Rule.matches y)) y]>
          (H.rules s)) s).
Proof.
  intros [Ho Hc Hl He Ht Hn Hk Hr Hi Hs Hiv] Hx Hy. split; simpl; try done.
  - intros r' x' Hx'. rewrite <-Hk by done. unfold key. simpl.
    destruct (decide (r = r')) as [<-|Hne]; [|by rewrite lookup_insert_ne by congruence].
    assert (x' = x) as -> by congruence. rewrite lookup_insert_eq, Hy. simpl. by rewrite apply_mask_idem.
  - intros i. rewrite <-Hr. destruct (decide (i = (r, F_rule))) as [->|Hne].
    + rewrite lookup_insert_eq, Hy. split; by eexists.
    + by rewrite lookup_insert_ne by done.
  - assert (Hrx : H.objs s !! r = Some (OVr x)).
    { rewrite Ho; [done|]. intros ->. destruct Hc0 as [c0 Hc0']. congruence. }
    eapply (inv_update s _ r (OVr x) (OVr x)); try done; [apply frame_rule|].
    intros f. simpl. rewrite lookup_insert_is_Some'. auto.
Qed.

Lemma view_rule s r x : view s → H.objs s0 !! r = Some (OVr x) →
  H.objs s !! r = Some (OVr x) ∧ ∃ y, H.rules s !! (r, F_rule) = Some y ∧
    key s0 r x = Some (apply_mask (Vr.targets x) (Vr.masks x) (Rule.matches y)).
Proof.
  intros Hv Hx. split; [by apply (view_get s); [..|intros []]|].
  pose proof (inv_embedded s0 Hinv _ _ Hx) as Hr. apply (vw_rules _ Hv) in Hr as [y Hy].
  exists y. split; [done|]. rewrite <-(vw_key _ Hv) by done. unfold key. by rewrite Hy.
Qed.

Lemma wp_find_incompatible first f l s :
  view s → (∀ r, r ∈ l → ∃ y, H.objs s0 !! r = Some (OVr y)) →
  wp (find_incompatible first f l) s (λ o s', s' = s ∧
    (o = None ↔ ∀ r y, r ∈ l → H.objs s0 !! r = Some (OVr y) →
                 Vr.targets f = Vr.targets y ∧ Vr.masks f = Vr.masks y)).
Proof.
  intros Hv. induction l as [|r l IH]; intros Hl; simpl.
  - hstep. split; [done|]. split; [|done]. intros _. by split_and?; intros; (try done); match goal with H : _ ∈ [] |- _ => by apply not_elem_of_nil in H end.
  - destruct (Hl r) as [y Hy]; [by left|]. destruct (view_rule _ _ _ Hv Hy) as [Hy' _]. hstep.
    destruct (bool_decide (Vr.targets f = Vr.targets y)) eqn:E1; [apply bool_decide_eq_true in E1|]; cbn [andb].
    2: { hstep. split; [done|]. split; [done|]. intros HP. apply bool_decide_eq_false in E1.
         destruct E1. apply (HP r); [by left|done]. }
    destruct (bool_decide (Vr.masks f = Vr.masks y)) eqn:E2; [apply bool_decide_eq_true in E2|].
    2: { hstep. split; [done|]. split; [done|]. intros HP. apply bool_decide_eq_false in E2.
         destruct E2. apply (HP r); [by left|done]. }
    eapply wp_mono; [apply IH; intros r' Hr'; apply Hl; by right|]. intros o s' [-> Ho]. split; [done|]. rewrite Ho.
    setoid_rewrite elem_of_cons. split; [|by eauto]. intros HP r' y' [->|Hr'] Hy''; [|by eapply HP].
    assert (y' = y) as -> by congruence. done.
Qed.

Lemma wp_find_duplicate seen l s :
  view s → (∀ r, r ∈ l → ∃ y, H.objs s0 !! r = Some (OVr y)) → NoDup l →
  wp (find_duplicate seen l) s (λ o s', view s' ∧ count s' = count s ∧
    (o = None ↔
      (∀ r y, r ∈ l → H.objs s0 !! r = Some (OVr y) → key s0 r y ∉ Some ∘ fst <$> seen) ∧
      (∀ r1 r2 y1 y2, r1 ∈ l → r2 ∈ l → r1 ≠ r2 → H.objs s0 !! r1 = Some (OVr y1) →
         H.objs s0 !! r2 = Some (OVr y2) → key s0 r1 y1 ≠ key s0 r2 y2))).
Proof.
  revert seen s. induction l as [|r l IH]; intros seen s Hv Hl Hnd; simpl.
  - hstep. split_and!; [done|done|]. split; [|done]. intros _. by split_and?; intros; (try done); match goal with H : _ ∈ [] |- _ => by apply not_elem_of_nil in H end.
  - apply NoDup_cons in Hnd as [Hnin Hnd].
    destruct (Hl r) as [x Hx]; [by left|]. destruct (view_rule _ _ _ Hv Hx) as (Hx' & y & Hy & Hkey).
    hstep. unfold lsdn_rule_apply_mask. do 2 hstep.
    pose proof (view_mask _ _ _ _ Hv Hx Hy) as Hv'. simpl.
    destruct (hash_find _ seen) as [d|] eqn:E.
    + hstep. split_and!; [done|done|]. split; [done|]. intros [HP _]. exfalso.
      apply (HP r x); [by left|done|]. rewrite Hkey, list_fmap_compose. apply list_elem_of_fmap_2.
      apply dec_stable. intros Hn%hash_find_none. by rewrite Hn in E.
    + eapply wp_mono; [apply IH; [done|intros r' Hr'; apply Hl; by right|done]|]. intros o s' (Hv2 & Hc2 & Ho). split_and!; [done|done|].
      rewrite Ho. apply hash_find_none in E.
      assert (Hseen : ∀ k : option (list matchdata),
        k ∈ Some ∘ fst <$> seen ++ [(apply_mask (Vr.targets x) (Vr.masks x) (Rule.matches y), r)] ↔
        k ∈ Some ∘ fst <$> seen ∨ k = key s0 r x).
      { intros k. rewrite fmap_app, elem_of_app, Hkey. simpl. by rewrite list_elem_of_singleton. }
      setoid_rewrite Hseen. split.
      * intros [HP HQ]. split.
        -- intros r' y' [->|Hr']%elem_of_cons Hy'; [|intros Hin; by eapply HP; [..|left]].
           assert (y' = x) as -> by congruence. rewrite Hkey, list_fmap_compose.
           by intros (k & [= <-] & Hk)%list_elem_of_fmap.
        -- intros r1 r2 y1 y2 [->|H1]%elem_of_cons [->|H2]%elem_of_cons Hne Hy1 Hy2; try done.
           ++ assert (y1 = x) as -> by congruence. intros Heq. by eapply (HP r2); [..|right].
           ++ assert (y2 = x) as -> by congruence. intros Heq. by eapply (HP r1); [..|right].
           ++ by eapply HQ.
      * intros [HP HQ]. split.
        -- intros r' y' Hr' Hy' [Hin|Hin]; [by eapply HP; [right|..]|].
           eapply (HQ r' r); [by right|by left| |done..]. by intros ->.
        -- intros r1 r2 y1 y2 H1 H2. by apply HQ; right.
Qed.

Lemma rules_list q x : H.objs s0 !! q = Some (OVrPrio x) →
  ∃ l, H.lists s0 !! (q, F_rules_list) = Some l ∧ NoDup (fst <$> l) ∧
  (∀ r, r ∈ fst <$> l ↔ own s0 (r, F_rules_entry) = Some (q, F_rules_list)) ∧
  (∀ r, r ∈ fst <$> l → ∃ y, H.objs s0 !! r = Some (OVr y)).
Proof.
  intros Hq. destruct (list_members s0 Hinv q _ F_rules_list Hq) as (l & Hl & Hin); [by left|].
  assert (He : ∀ e, e ∈ l → e.2 = F_rules_entry ∧ ∃ y, H.objs s0 !! e.1 = Some (OVr y)).
  { intros [r f] Hr%Hin. by apply (own_inv s0) in Hr. }
  exists l. split_and!; [done| | |].
  - apply NoDup_fmap_2_strong; [|by apply (inv_wf _ Hinv) in Hl as [_ ?]%NoDup_cons].
    intros [r1 f1] [r2 f2] [H1 _]%He [H2 _]%He Heq. simpl in *. congruence.
  - intros r. rewrite <-Hin, list_elem_of_fmap. split; [|intros Hr; by exists (r, F_rules_entry)].
    intros ([r' f] & -> & Hr). destruct (He _ Hr) as [Hf _]. simpl in *. by subst f.
  - intros r ([r' f] & -> & Hr)%list_elem_of_fmap. by destruct (He _ Hr) as [_ ?].
Qed.

(** The rules of a priority have the same targets and masks, and different keys. *)
Definition table_ok (q : ptr) : Prop := ∀ r1 r2 y1 y2,
  own s0 (r1, F_rules_entry) = Some (q, F_rules_list) → own s0 (r2, F_rules_entry) = Some (q, F_rules_list) →
  H.objs s0 !! r1 = Some (OVr y1) → H.objs s0 !! r2 = Some (OVr y2) →
  Vr.targets y1 = Vr.targets y2 ∧ Vr.masks y1 = Vr.masks y2 ∧ (r1 ≠ r2 → key s0 r1 y1 ≠ key s0 r2 y2).

(** The rules of a list have the same targets and masks. *)
Definition compatible (l : list ptr) : Prop := ∀ r1 r2 y1 y2, r1 ∈ l → r2 ∈ l →
  H.objs s0 !! r1 = Some (OVr y1) → H.objs s0 !! r2 = Some (OVr y2) →
  Vr.targets y1 = Vr.targets y2 ∧ Vr.masks y1 = Vr.masks y2.

Lemma wp_first_incompatible l s : view s → (∀ r, r ∈ l → ∃ y, H.objs s0 !! r = Some (OVr y)) →
  wp (match l with
      | [] => mret None
      | first :: l' => f ← get_vr first; r ← find_incompatible first f l'; mret (pair first <$> r)
      end) s (λ o s', s' = s ∧ (o = None ↔ compatible l)).
Proof.
  intros Hv Hvr. destruct l as [|first l'].
  - hstep. split; [done|]. split; [|done]. intros _ r1 r2 y1 y2 Hr. by apply not_elem_of_nil in Hr.
  - destruct (Hvr first) as [f Hf]; [by left|]. destruct (view_rule _ _ _ Hv Hf) as [Hf' _]. hstep. rewrite wp_bind.
    eapply wp_mono; [apply wp_find_incompatible; [done|]; intros r Hr; apply Hvr; by right|].
    intros o s1 [-> Ho]. hstep. split; [done|]. rewrite fmap_None, Ho. split.
    + intros HP. assert (Hall : ∀ r y', r ∈ first :: l' → H.objs s0 !! r = Some (OVr y') →
        Vr.targets f = Vr.targets y' ∧ Vr.masks f = Vr.masks y').
      { intros r y' [->|Hr]%elem_of_cons Hy'; [|by eapply HP]. assert (y' = f) as -> by congruence. done. }
      intros r1 r2 y1 y2 H1 H2 Hy1 Hy2. destruct (Hall _ _ H1 Hy1), (Hall _ _ H2 Hy2). split; congruence.
    + intros HP r y' Hr Hy'. by eapply (HP first r); [left|right|..].
Qed.

Lemma check_rules_loop v x prios : H.objs s0 !! v = Some (OVirt x) →
  (∀ q, q ∈ prios → ∃ y, H.objs s0 !! q = Some (OVrPrio y)) →
  check (validate_rules_loop v prios) (∀ q, q ∈ prios → table_ok q).
Proof.
  intros Hx. destruct (virt_refs _ _ Hx) as (n & Hn & Hc).
  induction prios as [|q prios IH]; intros Hq; cbn [validate_rules_loop].
  { chk. intros q Hq'. by apply not_elem_of_nil in Hq'. }
  destruct (Hq q) as [y Hy]; [by left|]. destruct (rules_list _ _ Hy) as (l & Hl & Hnd & Hin & Hvr).
  do 3 chk. intros s Hv. rewrite wp_bind.
  eapply wp_mono; [by apply wp_first_incompatible|]. intros bad s1 [-> Hbad]. destruct bad as [[first r]|].
  - assert (Hrep : check (lsdn_problem_report (Net.ctx n) LSDNP_VR_INCOMPATIBLE_MATCH
      [ProblemRef LSDNS_VR (RefObj first); ProblemRef LSDNS_VR (RefObj r); ProblemRef LSDNS_VIRT (RefObj v)])
      (∀ q', q' ∈ q :: prios → table_ok q')).
    { chk. intros HP. assert (compatible (fst <$> l)) as Hcomp%Hbad; [|done]. intros r1 r2 y1 y2 H1%Hin H2%Hin Hy1 Hy2.
      by destruct (HP q (list_elem_of_here _ _) r1 r2 y1 y2) as (? & ? & _). }
    by apply Hrep.
  - rewrite wp_bind. eapply wp_mono; [by apply wp_find_duplicate|]. intros dup s1 (Hv1 & Hc1 & Hdup).
    assert (Hok : dup = None ↔ table_ok q).
    { rewrite Hdup. split.
      - intros [_ HP] r1 r2 y1 y2 H1%Hin H2%Hin Hy1 Hy2. destruct (proj1 Hbad eq_refl r1 r2 y1 y2) as [Ht Hm]; try done.
        split_and!; [done..|]. intros Hne. by eapply HP.
      - intros HP. split; [intros r y' _ _ Hk; by apply not_elem_of_nil in Hk|].
        intros r1 r2 y1 y2 H1%Hin H2%Hin Hne Hy1 Hy2. by eapply HP. }
    destruct dup as [[r d]|].
    + assert (Hrep : check (lsdn_problem_report (Net.ctx n) LSDNP_VR_DUPLICATE_RULE
        [ProblemRef LSDNS_VR (RefObj r); ProblemRef LSDNS_VR (RefObj d); ProblemRef LSDNS_VIRT (RefObj v)])
        (∀ q', q' ∈ q :: prios → table_ok q')).
      { chk. intros HP. by assert (table_ok q) as ?%Hok by (apply HP; by left). }
      rewrite <-Hc1. by apply Hrep.
    + rewrite <-Hc1. refine (check_iff _ (∀ q', q' ∈ prios → table_ok q') _ (IH _) _ _ Hv1).
      * intros q' Hq'. apply Hq. by right.
      * setoid_rewrite elem_of_cons. split; [|by auto]. intros HP q' [->|Hq']; [by apply Hok|auto].
Qed.

Lemma check_rules v x d : H.objs s0 !! v = Some (OVirt x) →
  check (validate_rules v d) (∀ q, q ∈ snd <$> ht_get d x → table_ok q).
Proof.
  intros Hx. unfold validate_rules. chk. eapply check_rules_loop; [done|].
  intros q Hq. destruct (inv_refs s0 Hinv _ _ Hx) as (_ & _ & Ht & _).
  destruct (Ht q) as ([] & Ho & []); [|by eauto]. simpl. rewrite fmap_app, elem_of_app. destruct d; auto.
Qed.

(** ** Virts and networks *)

(** The conditions of a virt, in the order of the checks. *)
Lemma valid_virt_iff v x :
  valid_virt s0 v x ↔
  (∀ q, q ∈ snd <$> ht_get LSDN_IN x → table_ok q) ∧ (∀ q, q ∈ snd <$> ht_get LSDN_OUT x → table_ok q) ∧
  good_rate (Virt.attr_rate_in x) ∧ good_rate (Virt.attr_rate_out x) ∧
  ∀ m v' x' m', H.objs s0 !! v' = Some (OVirt x') → Virt.network x' = Virt.network x →
    v ≠ v' → should_be_validated (Virt.state x) = true → should_be_validated (Virt.state x') = true →
    Virt.attr_mac x = Some m → Virt.attr_mac x' = Some m' → lsdn_mac_eq m m' = false.
Proof.
  split.
  - intros [H1 H2 H3 H4]. split_and!; [| |done|done|by eauto].
    all: intros q Hq r1 r2 y1 y2 Hr1 Hr2; apply H3; exists q; split_and!; [|done..]; simpl; rewrite fmap_app, elem_of_app.
    + by left.
    + by right.
  - intros (H1 & H2 & H3 & H4 & H5). split; [done|done| |by eauto].
    intros r1 r2 y1 y2 (q & Hq & Hr1 & Hr2). simpl in Hq. rewrite fmap_app, elem_of_app in Hq.
    destruct Hq as [Hq|Hq]; [by apply (H1 q)|by apply (H2 q)].
Qed.

Lemma check_virt n y v x : H.objs s0 !! n = Some (ONet y) → H.objs s0 !! v = Some (OVirt x) →
  Virt.network x = n →
  check (_ ← validate_rules v LSDN_IN;
    _ ← validate_rules v LSDN_OUT;
    x1 ← get_virt v;
    _ ← validate_rate v "rate_in" (Virt.attr_rate_in x1);
    _ ← validate_rate v "rate_out" (Virt.attr_rate_out x1);
    match Virt.attr_mac x1 with
    | Some m1 =>
        if negb (should_be_validated (Virt.state x1)) then mret tt else
        foreach (n, F_virt_list) (λ v2,
          x2 ← get_virt v2;
          match Virt.attr_mac x2 with
          | Some m2 =>
              if bool_decide (v = v2) || negb (should_be_validated (Virt.state x2)) then mret tt else
              if lsdn_mac_eq m1 m2 then
                n' ← get_net n;
                lsdn_problem_report (Net.ctx n') LSDNP_VIRT_DUPATTR
                  [ProblemRef LSDNS_ATTR (RefStr "mac"); ProblemRef LSDNS_VIRT (RefObj v);
                   ProblemRef LSDNS_VIRT (RefObj v2); ProblemRef LSDNS_NET (RefObj n)]
              else mret tt
          | None => mret tt
          end)
    | None => mret tt
    end) (valid_virt s0 v x).
Proof.
  intros Hn Hx Hxn. destruct (virt_list s0 Hinv _ _ Hn) as (l & Hl & Hin). destruct (net_refs _ _ Hn) as (Hc & _).
  eapply (check_iff _ (_ ∧ _ ∧ _ ∧ _ ∧ ∀ m v' x' m', H.objs s0 !! v' = Some (OVirt x') → Virt.network x' = Virt.network x →
    v ≠ v' → should_be_validated (Virt.state x) = true → should_be_validated (Virt.state x') = true →
    Virt.attr_mac x = Some m → Virt.attr_mac x' = Some m' → lsdn_mac_eq m m' = false)).
  - eapply check_bind; [by eapply (check_rules v x LSDN_IN)|intros _].
    eapply check_bind; [by eapply (check_rules v x LSDN_OUT)|intros _]. chk.
    eapply check_bind; [by eapply check_validate_rate|intros _].
    eapply check_bind; [by eapply check_validate_rate|intros _].
    destruct (Virt.attr_mac x) as [m1|]; [|by chk].
    destruct (should_be_validated (Virt.state x)) eqn:Hsv; cbn [negb]; [|by chk].
    eapply check_iff.
    + eapply (check_foreach _ _ _ (λ v', ∀ x' m', H.objs s0 !! v' = Some (OVirt x') → v ≠ v' →
        should_be_validated (Virt.state x') = true → Virt.attr_mac x' = Some m' → lsdn_mac_eq m1 m' = false)); [done|].
      intros v' (x' & Hx' & Hn')%Hin. chk.
      destruct (Virt.attr_mac x') as [m2|] eqn:Hm2; [|chk; intros; congruence].
      case_bool_decide as Hd; cbn [orb]; [by chk|].
      destruct (should_be_validated (Virt.state x')) eqn:Hsv'; cbn [negb]; [|chk; intros; congruence].
      destruct (lsdn_mac_eq m1 m2) eqn:E; repeat chk.
      * intros HP. by rewrite (HP x' m2) in E.
      * intros x2 m' Hx2. assert (x2 = x') as -> by congruence. intros. congruence.
    + setoid_rewrite Hin. rewrite Hxn. split.
      * intros HP m v' x' m' Hx' Hn' Hne _ Hs' [= <-] Hm'. by eapply (HP v' (ex_intro _ x' (conj Hx' Hn')) x').
      * intros HP v' (x' & Hx' & Hn') x2 m' Hx2 Hne Hs' Hm'. assert (x2 = x') as -> by congruence. by eapply HP.
  - symmetry. apply valid_virt_iff.
Qed.

Lemma check_virts_net n y : H.objs s0 !! n = Some (ONet y) →
  check (validate_virts_net n) (∀ v x, H.objs s0 !! v = Some (OVirt x) → Virt.network x = n → valid_virt s0 v x).
Proof.
  intros Hn. destruct (virt_list s0 Hinv _ _ Hn) as (l & Hl & Hin). eapply check_iff.
  - eapply (check_foreach _ _ _ (λ v, ∀ x, H.objs s0 !! v = Some (OVirt x) → valid_virt s0 v x)); [done|].
    intros v (x & Hx & Hxn)%Hin. eapply check_iff; [by eapply check_virt|]. split; [|by auto].
    intros HP x' Hx'. by assert (x' = x) as -> by congruence.
  - setoid_rewrite Hin. split.
    + intros HP v x Hx Hxn. eapply HP; eauto.
    + intros HP v (x & Hx & Hxn) x' Hx'. assert (x' = x) as -> by congruence. by apply HP.
Qed.

(** A network with its virts, and with the other networks. *)
Definition net_ok (n1 : ptr) : Prop := ∀ x1 t1, H.objs s0 !! n1 = Some (ONet x1) →
  H.objs s0 !! Net.settings x1 = Some (OSettings t1) → will_be_deleted (Net.state x1) = false →
  (∀ v x, H.objs s0 !! v = Some (OVirt x) → Virt.network x = n1 → valid_virt s0 v x) ∧
  ∀ n2 x2 t2, n1 ≠ n2 → H.objs s0 !! n2 = Some (ONet x2) →
    H.objs s0 !! Net.settings x2 = Some (OSettings t2) → will_be_deleted (Net.state x2) = false →
    valid_nets s0 n1 x1 t1 n2 x2 t2.

Lemma check_other_nets n1 x1 t1 : H.objs s0 !! n1 = Some (ONet x1) →
  H.objs s0 !! Net.settings x1 = Some (OSettings t1) →
  check (foreach (ctx, F_networks_list) (λ net2,
      n2 ← get_net net2;
      when (bool_decide (n1 ≠ net2) && negb (will_be_deleted (Net.state n2)))
        (cross_validate_networks n1 net2)))
    (∀ n2 x2 t2, n1 ≠ n2 → H.objs s0 !! n2 = Some (ONet x2) →
      H.objs s0 !! Net.settings x2 = Some (OSettings t2) → will_be_deleted (Net.state x2) = false →
      valid_nets s0 n1 x1 t1 n2 x2 t2).
Proof.
  intros Hn1 Ht1. destruct (nets_list s0 Hinv ctx Hc0) as (l & Hl & Hin). eapply check_iff.
  - eapply (check_foreach _ _ _ (λ n2, ∀ x2 t2, n1 ≠ n2 → H.objs s0 !! n2 = Some (ONet x2) →
        H.objs s0 !! Net.settings x2 = Some (OSettings t2) → will_be_deleted (Net.state x2) = false →
        valid_nets s0 n1 x1 t1 n2 x2 t2)); [done|].
    intros n2 (x2 & Hn2 & Hc2)%Hin. destruct (net_refs _ _ Hn2) as (_ & t2 & Ht2 & _). chk.
    eapply check_iff; [apply check_when; by eapply (check_cross n1 x1 t1 n2 x2 t2)|].
    rewrite andb_true_iff, bool_decide_eq_true, negb_true_iff. split.
    + intros HP x2' t2' Hne Hx2' Ht2' Hd2. assert (x2' = x2) as -> by congruence.
      assert (t2' = t2) as -> by congruence. auto.
    + intros HP [Hne Hd2]. by eapply HP.
  - split; [|by auto]. intros HP n2 x2 t2 Hne Hn2. apply HP; [|done..]. apply Hin. exists x2. split; [done|].
    by apply net_refs in Hn2 as [].
Qed.

Lemma check_networks : check (validate_networks ctx) (∀ n, net_ok n).
Proof.
  destruct (nets_list s0 Hinv ctx Hc0) as (l & Hl & Hin). eapply check_iff.
  - eapply (check_foreach _ _ _ net_ok); [done|].
    intros n1 (x1 & Hn1 & Hc1)%Hin. destruct (net_refs _ _ Hn1) as (_ & t1 & Ht1 & _). chk.
    destruct (will_be_deleted (Net.state x1)) eqn:Hd1; [chk; intros ????; congruence|].
    eapply check_iff; [eapply check_bind; [by eapply check_virts_net|]; intros _; by apply (check_other_nets n1 x1 t1)|].
    split.
    + intros HP x1' t1' Hx1' Ht1' _. assert (x1' = x1) as -> by congruence.
      by assert (t1' = t1) as -> by congruence.
    + intros HP. by apply (HP x1 t1).
  - split; [|by auto]. intros HP n x t Hn. apply HP; [|done]. apply Hin. exists x. split; [done|].
    by apply net_refs in Hn as [].
Qed.

(** ** Physes *)

Context (Hnamed : ∀ v x a, H.objs s0 !! v = Some (OVirt x) → Virt.connected_through x = Some a →
                  ∃ i n, H.ifs s0 !! (v, F_connected_if) = Some i ∧ If.ifname i = Some n).

Lemma view_if s v x o : view s → H.objs s !! v.1 = Some o → (∀ i, resolves (H.set_ifs (<[v := x]> (H.ifs s)) s) i = resolves s i) →
  If.ifname <$> H.ifs s !! v = Some (If.ifname x) → view (H.set_ifs (<[v := x]> (H.ifs s)) s).
Proof.
  intros [Ho Hc Hl He Ht Hn Hk Hr Hi Hs Hiv] Hv Hres Hnm. split; simpl; try done.
  - intros i. rewrite <-Hi. destruct (decide (v = i)) as [<-|Hne]; [|by rewrite lookup_insert_ne].
    by rewrite lookup_insert_eq.
  - intros i. by rewrite <-Hs.
  - eapply (inv_update s _ v.1 o o); try done; [by destruct v; apply frame_if|apply same_shape_refl|].
    intros f. simpl. rewrite lookup_insert_is_Some'. auto.
Qed.

Lemma wp_if_resolve s v x a : view s → H.objs s0 !! v = Some (OVirt x) → Virt.connected_through x = Some a →
  wp (lsdn_if_resolve (v, F_connected_if)) s (λ e s', view s' ∧ count s' = count s ∧
    bool_decide (e ≠ LSDNE_OK) = negb (resolves s0 (v, F_connected_if))).
Proof.
  intros Hv Hx Hc. destruct (Hnamed _ _ _ Hx Hc) as (i0 & n & Hi0 & Hn).
  pose proof (vw_names _ Hv (v, F_connected_if)) as Hnm. rewrite Hi0 in Hnm. simpl in Hnm. rewrite Hn in Hnm.
  destruct (H.ifs s !! (v, F_connected_if)) as [i|] eqn:Hi; [|done]. simpl in Hnm. injection Hnm as Hnm.
  rewrite <-(vw_resolves _ Hv). unfold resolves. rewrite Hi, Hnm. unfold lsdn_if_resolve. hstep.
  case_bool_decide as Hx0; cbn [orb]; [by hstep|]. rewrite Hnm. do 2 hstep.
  case_bool_decide as Hz.
  - hstep. split_and!; [done|done|]. by rewrite Hz.
  - do 2 hstep. rewrite (bool_decide_true (_ ≠ 0)) by done. split_and!; [|done|done]. eapply (view_if _ _ _ (OVirt x)); [done|by apply (view_get s); [..|intros []]| |].
    + intros j. unfold resolves. simpl. destruct (decide ((v, F_connected_if) = j)) as [<-|Hne].
      * rewrite lookup_insert_eq, Hi. simpl. rewrite Hnm, !(bool_decide_true (Env.if_nametoindex _ _ _ ≠ 0)) by done. by rewrite !orb_true_r.
      * by rewrite lookup_insert_ne.
    + by rewrite Hi.
Qed.

Lemma check_resolve v x a : H.objs s0 !! v = Some (OVirt x) → Virt.connected_through x = Some a →
  check (err ← lsdn_if_resolve (v, F_connected_if);
         if bool_decide (err ≠ LSDNE_OK) then
           n ← get_net (Virt.network x);
           lsdn_problem_report (Net.ctx n) LSDNP_VIRT_NOIF
             [ProblemRef LSDNS_IF (RefObj v); ProblemRef LSDNS_VIRT (RefObj v)]
         else mret tt) (resolves s0 (v, F_connected_if) = true).
Proof.
  intros Hx Hc s Hv. destruct (virt_refs _ _ Hx) as (n & Hn & Hcn). rewrite wp_bind.
  eapply wp_mono; [by eapply wp_if_resolve|]. intros e s' (Hv' & Hct & ->). rewrite <-Hct.
  revert s' Hv' Hct. destruct (resolves s0 (v, F_connected_if)); cbn [negb]; intros s' Hv' _; revert s' Hv'.
  - by apply check_ok.
  - by eapply check_get_net; [done|]; apply check_bad; [..|done]; [done|simpl; unfold LSDN_MAX_PROBLEM_REFS; lia].
Qed.

Lemma check_virts_pa a o p n t : H.objs s0 !! a = Some (OPa o) → Pa.explicitly_attached o = true →
  H.objs s0 !! Pa.phys o = Some (OPhys p) → H.objs s0 !! Pa.net o = Some (ONet n) →
  H.objs s0 !! Net.settings n = Some (OSettings t) →
  check (validate_virts_pa a)
    (∀ v x, H.objs s0 !! v = Some (OVirt x) → Virt.connected_through x = Some a →
       should_be_validated (Virt.state x) = true →
       (Phys.is_local p = true → resolves s0 (v, F_connected_if) = true) ∧
       (needs_mac (Settings.ops t) = true → Virt.attr_mac x ≠ None)).
Proof.
  intros Ha Hea Hp Hn Ht. destruct (connected_list s0 Hinv _ _ Ha) as (l & Hl & Hin). eapply check_iff.
  - eapply (check_foreach _ _ _ (λ v, ∀ x, H.objs s0 !! v = Some (OVirt x) →
       should_be_validated (Virt.state x) = true →
       (Phys.is_local p = true → resolves s0 (v, F_connected_if) = true) ∧
       (needs_mac (Settings.ops t) = true → Virt.attr_mac x ≠ None))); [done|].
    intros v (x & Hx & Hc)%Hin. chk.
    destruct (should_be_validated (Virt.state x)) eqn:Hsv; cbn [negb]; [|chk; intros; congruence].
    do 2 chk. rewrite Hea. cbn [andb]. eapply check_iff.
    + eapply check_bind; [by eapply check_when, check_resolve|]. intros _. do 2 chk.
      apply (check_iff _ (needs_mac (Settings.ops t) = true → Virt.attr_mac x ≠ None)); [|done].
      destruct (Settings.ops t); cbn [validate_virt_op]; try (by apply check_ok);
        (eapply check_iff; [by eapply check_virt_mac|]; by split; auto).
    + split.
      * intros HP x' Hx'. by assert (x' = x) as -> by congruence.
      * intros HP. by apply HP.
  - setoid_rewrite Hin. split.
    + intros HP v x Hx Hc. eapply HP; eauto.
    + intros HP v (x & Hx & Hc) x' Hx'. assert (x' = x) as -> by congruence. by eapply HP.
Qed.

Lemma check_pa p x a o n t : H.objs s0 !! p = Some (OPhys x) → H.objs s0 !! a = Some (OPa o) → Pa.phys o = p →
  H.objs s0 !! Pa.net o = Some (ONet n) → H.objs s0 !! Net.settings n = Some (OSettings t) →
  check (validate_pa_of ctx p a) (valid_pa s0 a o x t).
Proof.
  intros Hp Ha Hop Hn Ht. unfold validate_pa_of. chk.
  destruct (Pa.explicitly_attached o) eqn:Hea; cbn [negb].
  - chk. eapply check_iff.
    + eapply check_bind; [apply check_when, check_report; [done|simpl; unfold LSDN_MAX_PROBLEM_REFS; lia]|]. intros _.
      do 2 chk. eapply check_bind; [|intros _; subst p; by eapply check_virts_pa].
      apply (check_iff _ (needs_ip (Settings.ops t) = true → should_be_validated (Pa.state o) = true →
               Phys.attr_ip x ≠ None)); [|done].
      destruct (Settings.ops t); cbn [validate_pa_op needs_ip]; try (by apply check_ok);
        (eapply check_iff; [subst p; by eapply check_when, check_pa_ip|]; by split; auto).
    + rewrite andb_true_iff, bool_decide_eq_true. split.
      * intros (H1 & H2 & H3). split; [congruence|tauto|done|]. intros v y _. apply H3.
      * intros [H1 H2 H3 H4]. split_and!; [tauto|auto|auto].
  - eapply check_iff; [by eapply check_report_virts|]. split.
    + intros HP. split; [|congruence..]. intros v y _. apply HP.
    + intros [HP _ _ _] v y. by apply HP.
Qed.

(** A phys with its attachments, and with the other physes. *)
Definition phys_ok (p : ptr) : Prop := ∀ x, H.objs s0 !! p = Some (OPhys x) →
  will_be_deleted (Phys.state x) = false →
  (∀ a o n t, H.objs s0 !! a = Some (OPa o) → Pa.phys o = p → H.objs s0 !! Pa.net o = Some (ONet n) →
     H.objs s0 !! Net.settings n = Some (OSettings t) → valid_pa s0 a o x t) ∧
  (∀ p' y i i', H.objs s0 !! p' = Some (OPhys y) → p ≠ p' → will_be_deleted (Phys.state y) = false →
     Phys.attr_ip x = Some i → Phys.attr_ip y = Some i' → lsdn_ip_eq i i' = false).

Lemma check_pas p x : H.objs s0 !! p = Some (OPhys x) →
  check (foreach (p, F_attached_to_list) (validate_pa_of ctx p))
    (∀ a o n t, H.objs s0 !! a = Some (OPa o) → Pa.phys o = p → H.objs s0 !! Pa.net o = Some (ONet n) →
       H.objs s0 !! Net.settings n = Some (OSettings t) → valid_pa s0 a o x t).
Proof.
  intros Hp. destruct (attached_to_list s0 Hinv _ _ Hp) as (l & Hl & Hin). eapply check_iff.
  - eapply (check_foreach _ _ _ (λ a, ∀ o n t, H.objs s0 !! a = Some (OPa o) →
      H.objs s0 !! Pa.net o = Some (ONet n) → H.objs s0 !! Net.settings n = Some (OSettings t) →
      valid_pa s0 a o x t)); [done|].
    intros a (o & Ha & Hop)%Hin. destruct (pa_refs _ _ Ha) as (n & _ & Hn & _).
    destruct (net_refs _ _ Hn) as (_ & t & Ht & _). eapply check_iff; [by eapply check_pa|]. split.
    + intros HP o' n' t' Ho' Hn' Ht'. assert (o' = o) as -> by congruence. assert (n' = n) as -> by congruence.
      by assert (t' = t) as -> by congruence.
    + intros HP. by eapply HP.
  - setoid_rewrite Hin. split.
    + intros HP a o n t Ha Hop. apply HP; eauto.
    + intros HP a (o & Ha & Hop) o' n t Ho'. assert (o' = o) as -> by congruence. by apply HP.
Qed.

Lemma check_physes : check (validate_physes ctx) (∀ p, phys_ok p).
Proof.
  destruct (phys_list s0 Hinv ctx Hc0) as (l & Hl & Hin).
  assert (Hmem : ∀ p x, H.objs s0 !! p = Some (OPhys x) → p ∈ fst <$> l).
  { intros p x Hp. apply Hin. exists x. split; [done|]. by eapply phys_refs. }
  eapply check_iff.
  - eapply (check_foreach _ _ _ phys_ok); [done|].
    intros p (x & Hp & _)%Hin. chk.
    destruct (will_be_deleted (Phys.state x)) eqn:Hd; [chk; intros x'; congruence|].
    eapply check_iff.
    + eapply check_bind; [by eapply check_pas|]. intros _.
      eapply (check_foreach _ _ _ (λ p', ∀ y i i', H.objs s0 !! p' = Some (OPhys y) → p ≠ p' →
        will_be_deleted (Phys.state y) = false → Phys.attr_ip x = Some i → Phys.attr_ip y = Some i' →
        lsdn_ip_eq i i' = false)); [done|].
      intros p' (y & Hp' & _)%Hin. eapply check_iff; [by eapply (check_phys_ips p x p' y)|]. split.
      * intros HP y' i i' Hy'. assert (y' = y) as -> by congruence. by apply HP.
      * intros HP i i'. by apply HP.
    + split.
      * intros [HP HQ] x' Hx' _. assert (x' = x) as -> by congruence. split; [done|]. intros p' y i i' Hp'.
        by eapply HQ; [eapply Hmem|].
      * intros HP. destruct (HP x Hp Hd) as [H1 H2]. split; [done|]. intros p' _ y i i'. by apply H2.
  - split; [|by auto]. intros HP p x Hp. apply (HP p); [by eapply Hmem|done].
Qed.

(** ** IP versions *)

Definition ipv_ok (a1 : ptr) : Prop := ∀ o1 a2 o2 x1 x2 i1 i2, H.objs s0 !! a1 = Some (OPa o1) → a1 ≠ a2 →
  H.objs s0 !! a2 = Some (OPa o2) → Pa.net o1 = Pa.net o2 →
  H.objs s0 !! Pa.phys o1 = Some (OPhys x1) → will_be_deleted (Phys.state x1) = false →
  H.objs s0 !! Pa.phys o2 = Some (OPhys x2) → will_be_deleted (Phys.state x2) = false →
  Phys.attr_ip x1 = Some i1 → Phys.attr_ip x2 = Some i2 → lsdn_ipv_eq i1 i2 = true.

Lemma check_ipv_pa n y a o : H.objs s0 !! n = Some (ONet y) → H.objs s0 !! a = Some (OPa o) → Pa.net o = n →
  check (o ← get_pa a;
      p ← get_phys (Pa.phys o);
      match Phys.attr_ip p with
      | Some ip1 =>
          if will_be_deleted (Phys.state p) then mret tt else
          foreach (n, F_attached_list) (λ a_other,
            if bool_decide (a = a_other) then mret tt else
            o' ← get_pa a_other;
            p' ← get_phys (Pa.phys o');
            match Phys.attr_ip p' with
            | Some ip2 =>
                when (negb (will_be_deleted (Phys.state p')) && negb (lsdn_ipv_eq ip1 ip2))
                  (lsdn_problem_report ctx LSDNP_PHYS_INCOMPATIBLE_IPV
                     [ProblemRef LSDNS_PHYS (RefObj (Pa.phys o));
                      ProblemRef LSDNS_PHYS (RefObj (Pa.phys o'));
                      ProblemRef LSDNS_NET (RefObj n)])
            | None => mret tt
            end)
      | None => mret tt
      end) (ipv_ok a).
Proof.
  intros Hn Ha Hon. destruct (attached_list s0 Hinv _ _ Hn) as (l & Hl & Hin).
  destruct (pa_refs _ _ Ha) as (_ & p & _ & Hp). do 2 chk.
  destruct (Phys.attr_ip p) as [i1|] eqn:Hi; [|chk; unfold ipv_ok; intros; congruence].
  destruct (will_be_deleted (Phys.state p)) eqn:Hd; [chk; unfold ipv_ok; intros; congruence|]. eapply check_iff.
  - eapply (check_foreach _ _ _ (λ a2, ∀ o2 x2 i2, a ≠ a2 → H.objs s0 !! a2 = Some (OPa o2) →
      H.objs s0 !! Pa.phys o2 = Some (OPhys x2) → will_be_deleted (Phys.state x2) = false →
      Phys.attr_ip x2 = Some i2 → lsdn_ipv_eq i1 i2 = true)); [done|].
    intros a2 (o2 & Ha2 & _)%Hin. destruct (pa_refs _ _ Ha2) as (_ & p2 & _ & Hp2).
    case_bool_decide as Haa; [by chk|]. do 2 chk.
    destruct (Phys.attr_ip p2) as [i2|] eqn:Hi2; [|chk; intros; congruence].
    eapply check_iff; [apply check_when, check_report; [done|simpl; unfold LSDN_MAX_PROBLEM_REFS; lia]|].
    rewrite andb_true_iff, !negb_true_iff. split.
    + intros HP o2' x2 i2' _ Ho2' Hx2 Hd2 Hi2'. assert (o2' = o2) as -> by congruence.
      assert (x2 = p2) as -> by congruence. assert (i2' = i2) as -> by congruence.
      destruct (lsdn_ipv_eq i1 i2); [done|]. by destruct HP.
    + intros HP [Hd2 He]. rewrite (HP o2 p2 i2) in He; done.
  - setoid_rewrite Hin. split.
    + intros HP o1 a2 o2 x1 x2 j1 j2 Ho1 Hne Ho2 Hnn Hx1 _ Hx2 Hd2 Hj1 Hj2. assert (o1 = o) as -> by congruence.
      assert (j1 = i1) as -> by congruence. eapply (HP a2); [exists o2; split; congruence|done..].
    + intros HP a2 (o2 & Ho2 & Hn2) o2' x2 i2 Hne Ho2' Hx2 Hd2 Hi2. assert (o2' = o2) as -> by congruence.
      eapply (HP o a2 o2 p x2); done || congruence.
Qed.

Lemma check_ip_versions : check (validate_ip_versions ctx) (∀ a, ipv_ok a).
Proof.
  destruct (nets_list s0 Hinv ctx Hc0) as (l & Hl & Hin). eapply check_iff.
  - eapply (check_foreach _ _ _ (λ n, ∀ a o, H.objs s0 !! a = Some (OPa o) → Pa.net o = n → ipv_ok a)); [done|].
    intros n (y & Hn & _)%Hin. destruct (attached_list s0 Hinv _ _ Hn) as (la & Hla & Hina). eapply check_iff.
    + eapply (check_foreach _ _ _ ipv_ok); [done|]. intros a (o & Ha & Hon)%Hina. by eapply check_ipv_pa.
    + setoid_rewrite Hina. split; [by eauto|]. intros HP a (o & Ha & Hon). by eapply HP.
  - split.
    + intros HP a o1 a2 o2 x1 x2 i1 i2 Ha. destruct (pa_refs _ _ Ha) as (n & _ & Hn & _).
      eapply HP; [|done..]. apply Hin. exists n. split; [done|]. by apply net_refs in Hn as [].
    + intros HP n _ a o _ _. apply HP.
Qed.

(** ** All checks *)

Lemma valid_iff : valid s0 ↔ (∀ n, net_ok n) ∧ (∀ p, phys_ok p) ∧ (∀ a, ipv_ok a).
Proof.
  split.
  - intros [V1 V2 V3 V4 V5]. split_and!.
    + intros n x t Hn Ht Hd. split; [intros v y; by apply (V1 n x)|]. intros n2 x2 t2 Hne Hn2 Ht2 Hd2. by apply V2.
    + intros p x Hp Hd. split; [intros a o n t Ha <- Hn Ht; by apply (V3 a o x n t)|]. intros p' y i i' Hp' Hne Hd'. by apply (V4 p x p' y).
    + intros a o1 a2 o2 x1 x2 i1 i2 H1 Hne H2. by apply (V5 a o1 a2 o2).
  - intros (N & P & V). split.
    + intros n y v x Hn Hd. destruct (net_refs _ _ Hn) as (_ & t & Ht & _). by apply (proj1 (N n y t Hn Ht Hd)).
    + intros n1 x1 t1 n2 x2 t2 Hne H1 Hd1 Ht1 H2 Hd2 Ht2. by apply (proj2 (N n1 x1 t1 H1 Ht1 Hd1)).
    + intros a o p n t Ha Hp Hd Hn Ht. by apply (proj1 (P (Pa.phys o) p Hp Hd) a o n).
    + intros p1 x1 p2 x2 i1 i2 Hne H1 Hd1 H2 Hd2. by apply (proj2 (P p1 x1 H1 Hd1) p2 x2).
    + intros a1 o1 a2 o2 x1 x2 i1 i2 Hne H1 H2. by apply (V a1 o1 a2 o2).
Qed.

Lemma check_all : check (_ ← validate_networks ctx; _ ← validate_physes ctx; validate_ip_versions ctx) (valid s0).
Proof.
  eapply check_iff; [|symmetry; apply valid_iff]. eapply check_bind; [apply check_networks|intros _].
  eapply check_bind; [apply check_physes|intros _]. apply check_ip_versions.
Qed.
End checks.

(** ** Validity depends on the model only *)

Section transfer.
Context (s s' : heap).
Context (Ho : ∀ p o, ¬ is_ctx o → H.objs s' !! p = Some o → H.objs s !! p = Some o).
Context (Hl : H.lists s' = H.lists s).
Context (Hk : ∀ r x, H.objs s !! r = Some (OVr x) → key s' r x = key s r x).
Context (Hr : ∀ i, resolves s' i = resolves s i).

Ltac back :=
  repeat match goal with
  | H : H.objs s' !! _ = Some _ |- _ => apply Ho in H; [|by intros []]
  end.

Lemma valid_virt_transfer v x : valid_virt s v x → valid_virt s' v x.
Proof.
  intros [V1 V2 V3 V4]. split; [done|done| |].
  - intros r1 r2 y1 y2 Hs H1 H2. back. rewrite !Hk by done. apply V3; [|done..]. unfold same_prio in *. by rewrite Hl in Hs.
  - intros v' x' m m' Hne Hx'. back. by apply (V4 v' x').
Qed.

Lemma valid_transfer : valid s → valid s'.
Proof.
  intros [V1 V2 V3 V4 V5]. split.
  - intros n y v x Hn Hd Hv Hx. back. apply valid_virt_transfer. by eapply V1.
  - intros n1 x1 t1 n2 x2 t2 Hne H1 Hd1 Ht1 H2 Hd2 Ht2. back.
    destruct (V2 n1 x1 t1 n2 x2 t2) as [W1 W2]; try done. split; [done|].
    assert (Hloc : ∀ n, local_net s' n → local_net s n).
    { intros n (a & o & p & Ha & Hn & Hp & Hlo). back. by exists a, o, p. }
    intros ??. apply W2; by apply Hloc.
  - intros a o p n t Ha Hp Hd Hn Ht. back. destruct (V3 a o p n t) as [W1 W2 W3 W4]; try done. split; try done.
    + intros v x He Hv. back. by apply (W1 v).
    + intros v x He Hv Hc Hs. back. rewrite Hr. by apply W4.
  - intros p1 x1 p2 x2 i1 i2 Hne H1 Hd1 H2 Hd2. back. by apply (V4 p1 x1 p2 x2).
  - intros a1 o1 a2 o2 x1 x2 i1 i2 Hne H1 H2 Hn Hx1 Hd1 Hx2. back. by apply (V5 a1 o1 a2 o2).
Qed.
End transfer.

(** ** Propagation of renewals *)

(** The states of attachments and virts may go from OK to RENEW. *)
Definition promoted (st st' : lsdn_state) : Prop :=
  st' = st ∨ st = LSDN_STATE_OK ∧ st' = LSDN_STATE_RENEW.
Definition restated_obj (o o' : obj) : Prop :=
  match o, o' with
  | OPa x, OPa y => ∃ st, promoted (Pa.state x) st ∧ y = Pa.set_state st x
  | OVirt x, OVirt y => ∃ st, promoted (Virt.state x) st ∧ y = Virt.set_state st x
  | _, _ => o' = o
  end.

Record restated (s s' : heap) : Prop := {
  rs_inv : inv s';
  rs_rest : s' = H.set_objs (H.objs s') s;
  rs_objs p o : H.objs s !! p = Some o → ∃ o', H.objs s' !! p = Some o' ∧ restated_obj o o';
  rs_none p : H.objs s !! p = None → H.objs s' !! p = None }.

Lemma promoted_trans a b c : promoted a b → promoted b c → promoted a c.
Proof. intros [->|[-> ->]] [->|[? ->]]; unfold promoted; auto. Qed.

Lemma restated_obj_refl o : restated_obj o o.
Proof. destruct o as [| | | |[]|[]| | | | | | | | |]; simpl; try done; eexists; (split; [by left|done]). Qed.

Lemma restated_obj_trans a b c : restated_obj a b → restated_obj b c → restated_obj a c.
Proof.
  intros Hab Hbc. destruct a, b; simpl in Hab; simplify_eq; try done; destruct c; simpl in Hbc; simplify_eq; try done;
    destruct Hab as (st1 & H1 & ->), Hbc as (st2 & H2 & ->); exists st2; (split; [by eapply promoted_trans|done]).
Qed.

Lemma restated_refl s : inv s → restated s s.
Proof. intros Hs. split; [done|by destruct s|eauto using restated_obj_refl|done]. Qed.

Lemma restated_trans s1 s2 s3 : restated s1 s2 → restated s2 s3 → restated s1 s3.
Proof.
  intros [_ R1 O1 N1] [I2 R2 O2 N2]. split; [done| | |by eauto].
  - rewrite R2, R1. done.
  - intros p o (o2 & H2 & Hr2)%O1. apply O2 in H2 as (o3 & H3 & Hr3). eauto using restated_obj_trans.
Qed.

Lemma propagate_promoted from st : promoted st (propagate from st).
Proof. unfold propagate, promoted. case_bool_decide; naive_solver. Qed.

Lemma restated_put s p o o' :
  inv s → H.objs s !! p = Some o → restated_obj o o' → restated s (H.set_objs (<[p := o']> (H.objs s)) s).
Proof.
  intros Hs Hp Hr. split.
  - eapply (inv_update s _ p o o'); try done; [apply frame_put|by apply lookup_insert_eq|].
    destruct o, o'; simpl in Hr; simplify_eq; try by apply same_shape_refl.
    all: destruct Hr as (st & Hst & ->); split; [done|].
    all: unfold is_new; simpl; destruct Hst as [->|[-> ->]]; done.
  - done.
  - intros q oq Hq. simpl. destruct (decide (p = q)) as [<-|Hne].
    + simplify_eq. rewrite lookup_insert_eq. eauto.
    + rewrite lookup_insert_ne by done. eauto using restated_obj_refl.
  - intros q Hq. simpl. by rewrite lookup_insert_ne by congruence.
Qed.

Section propagation.
Context (s : heap) (ctx : ptr) (Hctx : ∃ c, H.objs s !! ctx = Some (OCtx c)) (Hinv : inv s).

Definition keeps (m : M heap unit) : Prop :=
  ∀ s1, restated s s1 → wp m s1 (λ _ s2, restated s s2).

Lemma keeps_seq m f : keeps m → (∀ u, keeps (f u)) → keeps (m ≫= f).
Proof. intros Hm Hf s1 H1. rewrite wp_bind. eapply wp_mono; [by apply Hm|]. intros u s2 H2. by apply Hf. Qed.

Lemma keeps_foreach h l body :
  H.lists s !! h = Some l → (∀ q, q ∈ fst <$> l → keeps (body q)) → keeps (foreach h body).
Proof.
  intros Hl Hb s1 H1. unfold foreach. rewrite wp_bind.
  eapply wp_list_get; [by rewrite (rs_rest _ _ H1)|]. clear Hl. revert s1 H1 Hb.
  generalize (fst <$> l). clear. intros l. induction l as [|q l IH]; intros s1 H1 Hb; simpl; [done|].
  rewrite wp_bind. eapply wp_mono; [by apply Hb; [left|]|]. intros u s2 H2. apply IH; [done|].
  intros q' Hq'. apply Hb. by right.
Qed.

(** A step changes the state of one object. *)
Lemma keeps_put s1 p o o' : restated s s1 → H.objs s1 !! p = Some o → restated_obj o o' →
  restated s (H.set_objs (<[p := o']> (H.objs s1)) s1).
Proof. intros H1 Hp Hr. eapply restated_trans; [done|]. by eapply restated_put; [apply H1|..]. Qed.

Lemma keeps_pa s1 a o st : restated s s1 → H.objs s !! a = Some (OPa o) →
  wp (upd_pa a (λ o, Pa.set_state (propagate st (Pa.state o)) o)) s1 (λ _ s2, restated s s2).
Proof.
  intros H1 Ha. destruct (rs_objs _ _ H1 _ _ Ha) as ([] & Ha1 & Hr); try done. hstep.
  eapply keeps_put; [done..|]. eexists. split; [apply propagate_promoted|done].
Qed.

Lemma propagate_keeps : keeps (propagate_states ctx).
Proof.
  unfold propagate_states. apply keeps_seq; [|intros _; apply keeps_seq; [|intros _]].
  - destruct (phys_list s Hinv ctx Hctx) as (l & Hl & Hin). eapply keeps_foreach; [done|].
    intros p (x & Hp & _)%Hin. destruct (attached_to_list s Hinv _ _ Hp) as (la & Hla & Hina).
    eapply keeps_foreach; [done|]. intros a (o & Ha & _)%Hina s1 H1.
    destruct (rs_objs _ _ H1 _ _ Hp) as ([] & Hp1 & Hr); try done. hstep. by eapply keeps_pa.
  - destruct (nets_list s Hinv ctx Hctx) as (l & Hl & Hin). eapply keeps_foreach; [done|].
    intros n (x & Hn & _)%Hin. destruct (attached_list s Hinv _ _ Hn) as (la & Hla & Hina).
    eapply keeps_foreach; [done|]. intros a (o & Ha & _)%Hina s1 H1.
    destruct (rs_objs _ _ H1 _ _ Hn) as ([] & Hn1 & Hr); try done. hstep. by eapply keeps_pa.
  - destruct (nets_list s Hinv ctx Hctx) as (l & Hl & Hin). eapply keeps_foreach; [done|].
    intros n (y & Hn & _)%Hin. destruct (virt_list s Hinv _ _ Hn) as (lv & Hlv & Hinv').
    eapply keeps_foreach; [done|]. intros v (x & Hv & _)%Hinv' s1 H1.
    destruct (rs_objs _ _ H1 _ _ Hv) as ([] & Hv1 & Hr); try done. hstep.
    destruct (Virt.connected_through x0) as [a|] eqn:Ha; [|by hstep].
    destruct (inv_refs s1 (rs_inv _ _ H1) _ _ Hv1) as (_ & Hc & _).
    destruct (Hc a Ha) as ([] & Hoa & Hk); try done. do 2 hstep.
    eapply keeps_put; [done..|]. eexists. split; [apply propagate_promoted|done].
Qed.
End propagation.

(** ** The theorem *)

(** A connected virt has the name of its interface: [lsdn_virt_connect] sets it first. *)
Definition named_virts (s : heap) : Prop := ∀ v x a, H.objs s !! v = Some (OVirt x) →
  Virt.connected_through x = Some a →
  ∃ i n, H.ifs s !! (v, F_connected_if) = Some i ∧ If.ifname i = Some n.

Lemma view_valid ctx cb s0 s : (∃ c, H.objs s0 !! ctx = Some (OCtx c)) → view ctx cb s0 s →
  valid s ↔ valid s0.
Proof.
  intros [c0 Hc0] Hv. destruct (vw_ctx _ _ _ _ Hv) as (c & Hc & _).
  assert (Ho : ∀ p o, ¬ is_ctx o → H.objs s0 !! p = Some o ↔ H.objs s !! p = Some o).
  { intros p o Hno. destruct (decide (p = ctx)) as [->|Hne]; [|by rewrite (vw_objs _ _ _ _ Hv)].
    split; intros Hp; simplify_eq; by destruct Hno. }
  split; apply valid_transfer; try apply Hv.
  - intros p o Hno. by apply Ho.
  - by rewrite (vw_lists _ _ _ _ Hv).
  - intros r x Hr. rewrite (vw_key _ _ _ _ Hv); [done|]. apply Ho; [by intros []|done].
  - intros i. by rewrite (vw_resolves _ _ _ _ Hv).
  - intros p o Hno. by apply Ho.
Qed.

(** The state in which the checks begin. *)
Lemma validate_start s s1 s0 ctx c1 cb :
  restated s1 s0 → H.objs s1 !! ctx = Some (OCtx c1) → Ctx.problem_cb c1 = cb →
  (∀ p, p ≠ ctx → H.objs s1 !! p = H.objs s !! p) → H.ifs s1 = H.ifs s →
  (∀ p c', H.objs s !! p = Some (OCtx c') → p = ctx) → named_virts s →
  view ctx cb s0 s0 ∧ (∀ p c', H.objs s0 !! p = Some (OCtx c') → p = ctx) ∧ named_virts s0 ∧
  (∀ p o', H.objs s0 !! p = Some o' → ∃ o, H.objs s1 !! p = Some o ∧ restated_obj o o').
Proof.
  intros [Hi Hr Ho Hn] Hc1 Hcb Hs1 Hifs Hone Hnamed.
  assert (Hback : ∀ p o', H.objs s0 !! p = Some o' → ∃ o, H.objs s1 !! p = Some o ∧ restated_obj o o').
  { intros p o' Hp. destruct (H.objs s1 !! p) as [o|] eqn:E; [|by rewrite Hn in Hp].
    destruct (Ho _ _ E) as (o2 & Ho2 & ?). simplify_eq. eauto. }
  destruct (Ho _ _ Hc1) as ([] & Hc0 & Hrc); try done. simpl in Hrc. simplify_eq. split_and!; [split; try done; eauto| | |done].
  - intros p c' Hp. destruct (decide (p = ctx)) as [|Hne]; [done|].
    destruct (Hback _ _ Hp) as (o & Hop & Hro). rewrite Hs1 in Hop by done.
    destruct o; simpl in Hro; try done. by apply Hone in Hop.
  - intros v x a Hv Hca. destruct (Hback _ _ Hv) as (o & Hov & Hro). destruct o; try done.
    destruct Hro as (st & _ & ->). rewrite Hr. simpl. rewrite Hifs. apply (Hnamed v x0 a); [|exact Hca].
    rewrite <-Hs1; [exact Hov|]. intros ->. by simplify_eq.
Qed.

(** C3: Validation decides validity. In every state that satisfies the invariant of the model,
    with one context and a callback that does not abort, [lsdn_validate] returns; it answers OK
    exactly if the model it leaves is valid, and VALIDATE otherwise. The only change to the
    model is that attachments and virts in state OK may become renewed; the invariant is kept
    and nothing is sent to the kernel. *)
Theorem validate_decides s ctx c cb :
  inv s → H.objs s !! ctx = Some (OCtx c) →
  (∀ p c', H.objs s !! p = Some (OCtx c') → p = ctx) → named_virts s → cb ≠ Some abort_handler →
  wp (lsdn_validate ctx cb) s (λ err s',
    (err = LSDNE_OK ∧ valid s' ∨ err = LSDNE_VALIDATE ∧ ¬ valid s') ∧
    inv s' ∧ H.trace s' = H.trace s ∧ H.lists s' = H.lists s ∧
    ∀ p o, p ≠ ctx → H.objs s !! p = Some o → ∃ o', H.objs s' !! p = Some o' ∧ restated_obj o o').
Proof.
  intros Hinv Hc Hone Hnamed Hcb. unfold lsdn_validate. hstep.
  set (c1 := Ctx.set_inconsistent _ _). set (s1 := H.set_objs _ s).
  assert (Hc1 : H.objs s1 !! ctx = Some (OCtx c1)) by apply lookup_insert_eq.
  assert (Hinv1 : inv s1).
  { eapply (inv_update s s1 ctx (OCtx c) (OCtx c1)); try done. apply frame_put. }
  rewrite wp_bind. eapply wp_mono; [apply (propagate_keeps s1 ctx); [eauto|done|by apply restated_refl]|].
  intros u0 s0 Hrs. destruct (validate_start s s1 s0 ctx c1 cb) as (Hv0 & Hone0 & Hnamed0 & Hback); try done.
  { intros p Hp. simpl. by rewrite lookup_insert_ne. }
  assert (Hc0 : ∃ c, H.objs s0 !! ctx = Some (OCtx c)) by (destruct (vw_ctx _ _ _ _ Hv0) as (c0 & ? & _); eauto).
  pose proof (check_all ctx cb Hcb s0 Hc0 (rs_inv _ _ Hrs) Hone0 Hnamed0 s0 Hv0) as Hall.
  apply wp_bind in Hall. rewrite wp_bind. eapply wp_mono; [exact Hall|]. intros u2 s2 H2.
  apply wp_bind in H2. rewrite wp_bind. eapply wp_mono; [exact H2|]. intros u3 s3 H3.
  rewrite wp_bind. eapply wp_mono; [exact H3|]. intros u4 s4 (Hv4 & Hle & Hiff). clear Hall H2 H3. destruct (vw_ctx _ _ _ _ Hv4) as (c4 & Hc4 & _). do 2 hstep.
  assert (count ctx s0 = 0 ∧ count ctx s4 = Ctx.problem_count c4) as [Hn0 Hn4].
  { unfold count. rewrite Hc4. destruct (rs_objs _ _ Hrs _ _ Hc1) as (o & -> & Ho). simpl in Ho. by subst o. }
  pose proof (view_valid ctx cb s0 s4 Hc0 Hv4) as Hvalid.
  split_and!; [|apply Hv4| | |].
  - rewrite Hvalid, <-Hiff, Hn0, Hn4. destruct (Ctx.problem_count c4 =? 0) eqn:E; [left|right]; split; try done; lia.
  - by rewrite (vw_trace _ _ _ _ Hv4), (rs_rest _ _ Hrs).
  - by rewrite (vw_lists _ _ _ _ Hv4), (rs_rest _ _ Hrs).
  - intros p o Hne Hp. rewrite (vw_objs _ _ _ _ Hv4) by done. apply (rs_objs _ _ Hrs). simpl. by rewrite lookup_insert_ne.
Qed.

(** ** An example *)

(** Executable tests of the two side conditions. *)
Definition one_context (s : heap) (ctx : ptr) : bool :=
  forallb (λ kv : ptr * obj, match kv.2 with OCtx _ => bool_decide (kv.1 = ctx) | _ => true end)
    (map_to_list (H.objs s)).
Definition named_check (s : heap) : bool :=
  forallb (λ kv : ptr * obj, match kv.2 with
    | OVirt x => match Virt.connected_through x with
        | Some _ => match H.ifs s !! (kv.1, F_connected_if) with
                    | Some i => bool_decide (is_Some (If.ifname i))
                    | None => false
                    end
        | None => true
        end
    | _ => true
    end) (map_to_list (H.objs s)).

Lemma forallb_objs s (f : ptr * obj → bool) p o :
  forallb f (map_to_list (H.objs s)) = true → H.objs s !! p = Some o → f (p, o) = true.
Proof. rewrite forallb_forall. intros Hf Hp. apply Hf, list_elem_of_In, elem_of_map_to_list. done. Qed.

Lemma one_context_ok s ctx p c : one_context s ctx = true → H.objs s !! p = Some (OCtx c) → p = ctx.
Proof. intros Hf Hp. by apply (forallb_objs _ _ _ _ Hf), bool_decide_eq_true in Hp. Qed.

Lemma named_check_ok s : named_check s = true → named_virts s.
Proof.
  intros Hf v x a Hv Ha. apply (forallb_objs _ _ _ _ Hf) in Hv. simpl in Hv. rewrite Ha in Hv.
  destruct (H.ifs s !! (v, F_connected_if)) as [i|]; [|done]. apply bool_decide_eq_true in Hv as [n Hn]. eauto.
Qed.

Definition ctx_of (o : option obj) : option Ctx.lsdn_context :=
  match o with Some (OCtx c) => Some c | _ => None end.

Lemma validate_decides_witness :
  ∃ c, H.objs api_state !! 1%positive = Some (OCtx c) ∧
  wp (lsdn_validate 1 (Some (user_problem_cb 0))) api_state (λ err s',
    (err = LSDNE_OK ∧ valid s' ∨ err = LSDNE_VALIDATE ∧ ¬ valid s') ∧
    inv s' ∧ H.trace s' = H.trace api_state ∧ H.lists s' = H.lists api_state ∧
    ∀ p o, p ≠ 1%positive → H.objs api_state !! p = Some o → ∃ o', H.objs s' !! p = Some o' ∧ restated_obj o o').
Proof.
  destruct (H.objs api_state !! 1%positive) as [[c| | | | | | | | | | | | | |]|] eqn:Hc;
    try (exfalso; apply (f_equal (λ o, match ctx_of o with Some _ => true | None => false end)) in Hc;
         vm_compute in Hc; discriminate).
  exists c. split; [reflexivity|].
  apply (validate_decides api_state 1 c (Some (user_problem_cb 0))).
  - apply api_state_sound.
  - exact Hc.
  - intros p c' Hp. apply (one_context_ok api_state 1 p c'); [vm_compute; reflexivity|exact Hp].
  - apply named_check_ok. vm_compute. reflexivity.
  - discriminate.
Defined.
