(* ===== verification/Scenarios.v ===== *)
(** * Whole programs

    Programs that call the API and commit, run against the kernel model of [Kernel]: what the
    library leaves behind after a commit and a cleanup, and the programs on which it fails. *)

From Stdlib Require Import ZArith.
From stdpp Require Import base list gmap strings.
From S2P Require Import Prelude.
From S2P Require Import Status.
From S2P Require Import Nettypes.
From S2P Require Import Heap.
From S2P Require Import Base.
From S2P Require Import Model.
From S2P Require Import Validate.
From S2P Require Import Commit.
From S2P Require Import NetOps.
From S2P Require Import Kernel.
From S2P Require Import Api.

Local Open Scope Z_scope.

(** Enough memory, and a kernel with [eth0] that acknowledges everything it can. *)
Definition good_env : Env.env := kernel_env (λ _, true) (λ _, true).

Definition ipv4 (n : Z) : lsdn_ip_t := Ip LSDN_IPv4 [10; 0; 0; n].
Definition ipv6 (n : Z) : lsdn_ip_t := Ip LSDN_IPv6 [0x20; 1; 0; 0; 0; 0; 0; 0; 0; 0; 0; 0; 0; 0; 0; n].

(** A network of a given type over two physes, of which the first is local; two virts on the
    local phys and one on the other. *)
Definition two_physes (ip : Z → lsdn_ip_t) (ops : lsdn_net_ops_tag) (nt : lsdn_nettype) (sw : lsdn_switch)
    : list api_call :=
  [ContextNew "demo"; SettingsNew 1 ops nt sw 4789 (Some (ip 9)); NetNew 2 5;
   PhysNew 1; PhysNew 1; PhysSetIface 4 "eth0"; PhysSetIface 5 "eth0"; PhysSetIp 4 (ip 1); PhysSetIp 5 (ip 2);
   PhysAttach 4 3; PhysAttach 5 3; PhysClaimLocal 4;
   VirtNew 3; VirtNew 3; VirtNew 3;
   VirtSetMac 8 [0; 0; 0; 0; 0; 8]; VirtSetMac 9 [0; 0; 0; 0; 0; 9]; VirtSetMac 10 [0; 0; 0; 0; 0; 10];
   VirtConnect 8 4 "eth0"; VirtConnect 9 4 "eth0"; VirtConnect 10 5 "eth0"].

Fixpoint calls (l : list api_call) : M heap unit :=
  match l with [] => mret tt | c :: l => _ ← run_call c; calls l end.

(** The program's callback for problems. *)
Definition on_problem : option problem_cb_t := Some (user_problem_cb 0).
Definition commit : M heap lsdn_err_t := lsdn_commit 1 on_problem.

Definition run {A} (m : M heap A) : res heap A := m (empty_heap good_env).

(** The network types, other than direct. *)
Definition tunnelled : list (lsdn_net_ops_tag * lsdn_nettype * lsdn_switch) :=
  [(lsdn_net_vlan_ops, LSDN_NET_VLAN, LSDN_LEARNING);
   (lsdn_net_vxlan_mcast_ops, LSDN_NET_VXLAN, LSDN_LEARNING);
   (lsdn_net_vxlan_e2e_ops, LSDN_NET_VXLAN, LSDN_LEARNING_E2E);
   (lsdn_net_vxlan_static_ops, LSDN_NET_VXLAN, LSDN_STATIC_E2E);
   (lsdn_net_geneve_ops, LSDN_NET_GENEVE, LSDN_STATIC_E2E);
   (lsdn_net_geneve_e2e_ops, LSDN_NET_GENEVE, LSDN_LEARNING_E2E)].

(** For every network type but direct, a program that builds a network over two physes,
    commits it, and cleans the context up leaves nothing behind: the commit reports no problem,
    no object of the library is left in memory, and the kernel has the links it started with. *)
Example commit_cleanup_clean : Forall (λ '(ops, nt, sw),
  match run (_ ← calls (two_physes ipv4 ops nt sw); err ← commit; _ ← lsdn_context_cleanup 1 on_problem; mret err) with
  | Ok err s => err = LSDNE_OK ∧ H.events s = [] ∧ map_to_list (H.objs s) = [] ∧
                map_to_list (links (kernel eth0 (H.trace s))) = [(1, Link "eth0" LinkDummy 0 true)]
  | Fault _ => False
  end) tunnelled.
Proof.
  unfold tunnelled. repeat (apply Forall_cons_2; [vm_compute; split_and!; reflexivity|]). apply Forall_nil_2.
Qed.

(** A geneve network with a learning bridge between physes with IPv6 addresses passes the
    validation, but committing it fails an assertion of [lsdn_lbridge_add_route]: the tunnel
    was prepared for IPv4 sources. *)
Theorem geneve_e2e_ipv6_asserts :
  let program := calls (two_physes ipv6 lsdn_net_geneve_e2e_ops LSDN_NET_GENEVE LSDN_LEARNING_E2E) in
  (∃ s, run (_ ← program; lsdn_validate 1 on_problem) = Ok LSDNE_OK s) ∧
  run (_ ← program; commit) = Fault AssertFailed.
Proof.
  split; [|vm_compute; reflexivity].
  destruct (run _) as [err s|] eqn:E.
  - exists s. f_equal. change err with (match Ok err s with Ok err _ => err | Fault _ => LSDNE_NOMEM end).
    rewrite <-E. vm_compute. reflexivity.
  - exfalso. apply (f_equal (λ r : res heap lsdn_err_t, match r with Ok _ _ => true | Fault _ => false end)) in E.
    vm_compute in E. discriminate.
Qed.

(** Changing the address of a committed virt that has a rule makes the next commit fail an
    assertion, whatever the type of the network: the rules of a renewed virt are not
    decommitted, so its rulesets are not empty when they are freed. *)
Example renewed_virt_with_rule_asserts : Forall (λ '(ops, nt, sw),
  run (_ ← calls (two_physes ipv4 ops nt sw ++ [VrNew 8 10 LSDN_IN LSDN_VR_DROP]);
       _ ← commit; _ ← calls [VirtSetMac 8 [0; 0; 0; 0; 0; 20]]; commit) = Fault AssertFailed) tunnelled.
Proof. unfold tunnelled. repeat (apply Forall_cons_2; [vm_compute; reflexivity|]). apply Forall_nil_2. Qed.

(** The same kernel, except that it creates no vxlan links. *)
Definition no_vxlan_env : Env.env :=
  kernel_env (λ _, true) (λ r, match r with ReqLinkCreate _ (LinkVxlan _ _ _ _ _ _ _) => false | _ => true end).

(** When the kernel refuses to create the tunnel of a static vxlan network, the error path
    of [vxlan_use_stunnel] deletes and frees the interface handle of the tunnel, which was never
    initialised; the learning vxlan network survives the same refusal. *)
Theorem refused_tunnel_is_uninitialised :
  (_ ← calls (two_physes ipv4 lsdn_net_vxlan_static_ops LSDN_NET_VXLAN LSDN_STATIC_E2E); commit)
    (empty_heap no_vxlan_env) = Fault Dangling ∧
  match (_ ← calls (two_physes ipv4 lsdn_net_vxlan_e2e_ops LSDN_NET_VXLAN LSDN_LEARNING_E2E); commit)
    (empty_heap no_vxlan_env) with Ok err _ => err = LSDNE_COMMIT | Fault _ => False end.
Proof. split; vm_compute; reflexivity. Qed.

(** Freeing a committed virt rule does not remove it: for every tunnelled network type the
    next commit answers OK, sends no request to the kernel, and leaves the rule in the model in
    the state [LSDN_STATE_DELETE], because only [decommit_virt] decommits rules. *)
Theorem freed_rule_stays : Forall (λ '(ops, nt, sw),
  match run (_ ← calls (two_physes ipv4 ops nt sw ++ [VrNew 8 10 LSDN_IN LSDN_VR_DROP]); _ ← commit;
             before ← get; _ ← calls [VrFree 11]; err ← commit; mret (before, err)) with
  | Ok (before, err) s =>
      err = LSDNE_OK ∧ length (H.trace s) = length (H.trace before) ∧
      match H.objs s !! 11%positive with
      | Some (OVr rule) => Vr.state rule = LSDN_STATE_DELETE
      | _ => False
      end
  | Fault _ => False
  end) tunnelled.
Proof.
  unfold tunnelled. repeat (apply Forall_cons_2; [vm_compute; split_and!; reflexivity|]). apply Forall_nil_2.
Qed.

(** A phys that is no longer local is torn down again whenever it changes, because
    [committed_as_local] is never reset: in the bridged network types, after the phys was
    unclaimed and the change committed, setting its address and committing deletes the bridge
    and the tunnel, which are gone, for a second time. *)
Theorem unclaimed_phys_torn_down_again : Forall (λ '(ops, nt, sw),
  match run (_ ← calls (two_physes ipv4 ops nt sw); _ ← commit; _ ← calls [PhysUnclaimLocal 4]; _ ← commit;
             before ← get; _ ← calls [PhysSetIp 4 (ipv4 7)]; _ ← commit; mret before) with
  | Ok before s =>
      map_to_list (links (kernel eth0 (H.trace before))) = [(1, Link "eth0" LinkDummy 0 true)] ∧
      (fst <$> drop (length (H.trace before)) (H.trace s)) =
        [ReqLinkMaster 0 2; ReqLinkDelete 3; ReqLinkDelete 2] ∧
      (fst <$> drop (length (H.trace before) - 3) (take (length (H.trace before)) (H.trace s))) =
        [ReqLinkMaster 0 2; ReqLinkDelete 3; ReqLinkDelete 2]
  | Fault _ => False
  end) (take 3 tunnelled).
Proof. simpl. repeat (apply Forall_cons_2; [vm_compute; split_and!; reflexivity|]). apply Forall_nil_2. Qed.
