(* ===== verification/Dump.v ===== *)
(** * Dumping the network model ([netmodel/dump.c])

    The model is first turned into a JSON document; the document in the language of lsctl is
    made from the text of that one. The JSON library json-c is the interface [JsonC]: its
    documents are values of [json], and what its functions do is known from the laws only. *)

From Stdlib Require Import ZArith.
From stdpp Require Import base list gmap strings pretty.
From S2P Require Import Prelude.
From S2P Require Import Float.
From S2P Require Import Status.
From S2P Require Import Nettypes.
From S2P Require Import Heap.
From S2P Require Import Base.
From S2P Require Import Model.

Local Open Scope string_scope.
Local Open Scope list_scope.
Local Open Scope Z_scope.

(** ** The JSON library *)

(** A JSON document; the members of an object are in the order in which they were added. *)
Inductive json :=
| JNull
| JString (s : string)
| JInt (n : Z)
| JDouble (d : double)
| JBool (b : bool)
| JArray (l : list json)
| JObject (l : list (string * json)).

Notation jmembers := (list (string * json)).

Fixpoint assoc {A} (k : string) (l : list (string * A)) : option A :=
  match l with
  | [] => None
  | (k', v) :: l => if bool_decide (k' = k) then Some v else assoc k l
  end.

(** No object has two members of the same name. *)
Fixpoint json_wf (j : json) : Prop :=
  match j with
  | JArray l => (fix all l := match l with [] => True | j :: l => json_wf j ∧ all l end) l
  | JObject l => NoDup l.*1 ∧
      (fix all l := match l with [] => True | (_, j) :: l => json_wf j ∧ all l end) l
  | _ => True
  end.

(** The functions of json-c that dump.c relies on, without their allocations. *)
Class JsonC := {
  json_object_object_add : jmembers → string → json → jmembers;
  json_object_object_get_ex : jmembers → string → option json;
  json_object_to_json_string_ext : json → string;
  json_tokener_parse : string → option json;
  json_object_get_string : json → string }.

(** A word without blanks. *)
Definition blank (c : Ascii.ascii) : bool :=
  existsb (λ n, bool_decide (c = Ascii.ascii_of_nat n)) [9; 10; 32]%nat.
Definition plain (w : string) : Prop :=
  w ≠ "" ∧ Forall (λ c, blank c = false) (String.list_ascii_of_string w).

Class JsonCLaws (J : JsonC) : Prop := {
  object_add_new l k v : k ∉ l.*1 → json_object_object_add l k v = l ++ [(k, v)];
  get_ex_assoc l k : NoDup l.*1 → json_object_object_get_ex l k = assoc k l;
  parse_print j : json_wf j → json_tokener_parse (json_object_to_json_string_ext j) = Some j;
  get_string_string s : json_object_get_string (JString s) = s;
  get_string_int n : json_object_get_string (JInt n) = pretty n;
  get_string_double d : plain (json_object_get_string (JDouble d)) }.

Section dump.
Context {J : JsonC}.

(** A step that jumps to [err] when it gives NULL. *)
Definition or_err {A B} (m : M heap (option A)) (k : A → M heap (option B)) : M heap (option B) :=
  r ← m; match r with Some a => k a | None => mret None end.
Notation "x ⇠ m ; k" := (or_err m (λ x, k)) (at level 20, m at level 100, k at level 200).

(** [json_object_new_object], [json_object_new_array], [json_object_new_int] and the like. *)
Definition json_new {A} (j : A) : M heap (option A) :=
  ok ← try_alloc; mret (if ok : bool then Some j else None).
Definition json_object_new_string (str : option string) : M heap (option json) :=
  str ← deref str; json_new (JString str).

(** [json_object_object_add], whose answer is ignored. *)
Definition object_add (o : jmembers) (k : string) (v : json) : M heap (option jmembers) :=
  ok ← try_alloc; mret (Some (if ok : bool then json_object_object_add o k v else o)).

(** A member that is there if a pointer is not NULL. *)
Definition object_add_if {A} (o : jmembers) (k : string) (x : option A)
    (f : A → M heap (option json)) : M heap (option jmembers) :=
  match x with None => mret (Some o) | Some x => v ⇠ f x; object_add o k v end.

(** A loop that adds what [f] makes to an array ([json_object_array_add]). *)
Fixpoint array_of {A} (f : A → M heap (option json)) (l : list A) (arr : list json)
    : M heap (option (list json)) :=
  match l with
  | [] => mret (Some arr)
  | p :: l => j ⇠ f p; arr ⇠ json_new (arr ++ [j]); array_of f l arr
  end.

(** ** The members of [struct lsdn_net_ops] that describe a network type *)

Definition ops_type (ops : lsdn_net_ops_tag) : string :=
  match ops with
  | lsdn_net_direct_ops => "direct"
  | lsdn_net_vlan_ops => "vlan"
  | lsdn_net_vxlan_mcast_ops => "vxlan/mcast"
  | lsdn_net_vxlan_e2e_ops => "vxlan/e2e"
  | lsdn_net_vxlan_static_ops => "vxlan/static"
  | lsdn_net_geneve_ops => "geneve"
  | lsdn_net_geneve_e2e_ops => "geneve"
  end.

Definition get_port (ops : lsdn_net_ops_tag) : option (Settings.lsdn_settings → Z) :=
  match ops with
  | lsdn_net_direct_ops | lsdn_net_vlan_ops => None
  | _ => Some Settings.port
  end.

Definition vxlan_mcast_get_ip (s : Settings.lsdn_settings) : M heap lsdn_ip_t := live (Settings.mcast_ip s).
Definition get_ip (ops : lsdn_net_ops_tag) : option (Settings.lsdn_settings → M heap lsdn_ip_t) :=
  match ops with lsdn_net_vxlan_mcast_ops => Some vxlan_mcast_get_ip | _ => None end.

(** ** JSON *)

Definition text (s : cstring) : option string := Some (String.string_of_list_ascii s).

Definition jsonify_lsdn_settings (s : ptr) : M heap (option json) :=
  o ⇠ json_new [];
  x ← get_settings s;
  jstr ⇠ json_object_new_string (Settings.name x);
  o ⇠ object_add o "settingsName" jstr;
  jstr ⇠ json_object_new_string (Some (ops_type (Settings.ops x)));
  o ⇠ object_add o "settingsType" jstr;
  o ⇠ object_add_if o "port" (get_port (Settings.ops x)) (λ f, json_new (JInt (f x)));
  o ⇠ object_add_if o "ip" (get_ip (Settings.ops x)) (λ f,
    ip ← f x; json_object_new_string (text (lsdn_ip_to_string ip)));
  mret (Some (JObject o)).

Definition jsonify_lsdn_phys (p : ptr) : M heap (option json) :=
  o ⇠ json_new [];
  x ← get_phys p;
  jstr ⇠ json_object_new_string (Phys.name x);
  o ⇠ object_add o "physName" jstr;
  o ⇠ object_add_if o "attrIp" (Phys.attr_ip x) (λ ip,
    json_object_new_string (text (lsdn_ip_to_string ip)));
  o ⇠ object_add_if o "iface" (Phys.attr_iface x) (λ i, json_object_new_string (Some i));
  jbool ⇠ json_new (JBool (Phys.is_local x));
  o ⇠ object_add o "isLocal" jbool;
  mret (Some (JObject o)).

(** [rule_target_names], [lsdn_rule_target_name] *)
Definition lsdn_rule_target_name (t : lsdn_rule_target) : string :=
  match t with
  | LSDN_MATCH_NONE => "none"
  | LSDN_MATCH_SRC_MAC => "src_mac"
  | LSDN_MATCH_DST_MAC => "dst_mac"
  | LSDN_MATCH_SRC_IPV4 => "src_ipv4"
  | LSDN_MATCH_DST_IPV4 => "dst_ipv4"
  | LSDN_MATCH_SRC_IPV6 => "src_ipv6"
  | LSDN_MATCH_DST_IPV6 => "dst_ipv6"
  | LSDN_MATCH_ENC_KEY_ID => "enc_key_id"
  | LSDN_MATCH_ENC_KEY_SRC_IPV4 => "enc_src_ipv4"
  | LSDN_MATCH_ENC_KEY_SRC_IPV6 => "enc_src_ipv6"
  | LSDN_MATCH_ENC_KEY_DST_IPV4 => "enc_dst_ipv4"
  | LSDN_MATCH_ENC_KEY_DST_IPV6 => "enc_dst_ipv6"
  end.

(** How the match data of a target are printed; the member of the union is chosen by the
    target. *)
Definition print_match (t : lsdn_rule_target) (u : matchdata) : option cstring :=
  match t with
  | LSDN_MATCH_SRC_MAC | LSDN_MATCH_DST_MAC => Some (lsdn_mac_to_string (take LSDN_MAC_LEN u))
  | LSDN_MATCH_SRC_IPV4 | LSDN_MATCH_DST_IPV4 => Some (lsdn_ipv4_to_string (take LSDN_IPv4_LEN u))
  | LSDN_MATCH_SRC_IPV6 | LSDN_MATCH_DST_IPV6 => Some (lsdn_ipv6_to_string (take LSDN_IPv6_LEN u))
  | _ => None
  end.

Definition element {A} (l : list A) (i : nat) : M heap A :=
  match l !! i with Some x => mret x | None => fail OutOfBounds end.

Definition is_ipv4 (t : lsdn_rule_target) : bool :=
  match t with LSDN_MATCH_SRC_IPV4 | LSDN_MATCH_DST_IPV4 => true | _ => false end.

(** The body of the loop of [jsonify_lsdn_vr]. The string for the mask of an IPv4 address is
    not checked for NULL. *)
Definition jsonify_match (vr : Vr.lsdn_vr) (rule : Rule.lsdn_rule) (i : nat) : M heap (option json) :=
  o ⇠ json_new [];
  t ← element (Vr.targets vr) i;
  jstr ⇠ json_object_new_string (Some (lsdn_rule_target_name t));
  o ⇠ object_add o "target" jstr;
  value ← element (Rule.matches rule) i;
  o ⇠ object_add_if o "match" (print_match t value) (λ s, json_object_new_string (text s));
  mask ← element (Vr.masks vr) i;
  o ⇠ object_add_if o "matchMask" (print_match t mask) (λ s,
    jstr ← json_object_new_string (text s);
    mret (if is_ipv4 t then Some (default JNull jstr) else jstr));
  mret (Some (JObject o)).

Definition jsonify_lsdn_vr (vr : ptr) : M heap (option jmembers) :=
  o ⇠ json_new [];
  x ← get_vr vr;
  rule ← get_rule (vr, F_rule);
  arr ⇠ json_new [];
  arr ⇠ array_of (jsonify_match x rule) (seq 0 (Z.to_nat (Vr.pos x))) arr;
  object_add o "targets" (JArray arr).

(** A rule with what [jsonify_lsdn_virt_rules] adds to it. *)
Definition jsonify_rule (dir : string) (prio_num : Z) (vr : ptr) : M heap (option json) :=
  o ⇠ jsonify_lsdn_vr vr;
  jstr ⇠ json_object_new_string (Some dir);
  o ⇠ object_add o "dir" jstr;
  jint ⇠ json_new (JInt prio_num);
  o ⇠ object_add o "prio" jint;
  rule ← get_rule (vr, F_rule);
  jstr ⇠ json_object_new_string (a_name (Rule.action rule));
  o ⇠ object_add o "action" jstr;
  mret (Some (JObject o)).

(** The loop over the priorities of one direction. *)
Fixpoint jsonify_prios (dir : string) (prios : list ptr) (arr : list json)
    : M heap (option (list json)) :=
  match prios with
  | [] => mret (Some arr)
  | prio :: prios =>
      x ← get_vrprio prio;
      rules ← list_get (prio, F_rules_list);
      arr ⇠ array_of (jsonify_rule dir (VrPrio.prio_num x)) rules arr;
      jsonify_prios dir prios arr
  end.

Definition jsonify_lsdn_virt_rules (virt : ptr) : M heap (option json) :=
  arr ⇠ json_new [];
  x ← get_virt virt;
  arr ⇠ jsonify_prios "in" (snd <$> Virt.ht_in_rules x) arr;
  arr ⇠ jsonify_prios "out" (snd <$> Virt.ht_out_rules x) arr;
  mret (Some (JArray arr)).

Definition jsonify_lsdn_qos_rate (qos : lsdn_qos_rate_t) : M heap (option json) :=
  o ⇠ json_new [];
  jdouble ⇠ json_new (JDouble (f64_of_f32 (avg_rate qos)));
  o ⇠ object_add o "avgRate" jdouble;
  jint ⇠ json_new (JInt (burst_size qos));
  o ⇠ object_add o "burstSize" jint;
  jdouble ⇠ json_new (JDouble (f64_of_f32 (burst_rate qos)));
  o ⇠ object_add o "burstRate" jdouble;
  mret (Some (JObject o)).

Definition jsonify_lsdn_virt (virt : ptr) : M heap (option json) :=
  o ⇠ json_new [];
  x ← get_virt virt;
  o ⇠ object_add_if o "virtName" (Virt.name x) (λ n, json_object_new_string (Some n));
  o ⇠ object_add_if o "attrMac" (Virt.attr_mac x) (λ mac,
    json_object_new_string (text (lsdn_mac_to_string mac)));
  o ⇠ object_add_if o "phys" (Virt.connected_through x) (λ pa,
    a ← get_pa pa; p ← get_phys (Pa.phys a); json_object_new_string (Phys.name p));
  i ← get_if (virt, F_connected_if);
  o ⇠ object_add_if o "iface" (If.ifname i) (λ n, json_object_new_string (Some n));
  rules ⇠ jsonify_lsdn_virt_rules virt;
  o ⇠ object_add o "rules" rules;
  o ⇠ object_add_if o "qosIn" (Virt.attr_rate_in x) jsonify_lsdn_qos_rate;
  o ⇠ object_add_if o "qosOut" (Virt.attr_rate_out x) jsonify_lsdn_qos_rate;
  mret (Some (JObject o)).

(** The name of the phys of an attachment. *)
Definition jsonify_pa (pa : ptr) : M heap (option json) :=
  a ← get_pa pa; p ← get_phys (Pa.phys a); json_object_new_string (Phys.name p).

Definition jsonify_lsdn_net (net : ptr) : M heap (option json) :=
  o ⇠ json_new [];
  x ← get_net net;
  o ⇠ object_add_if o "netName" (Net.name x) (λ n, json_object_new_string (Some n));
  st ← get_settings (Net.settings x);
  jstr ⇠ json_object_new_string (Settings.name st);
  o ⇠ object_add o "settings" jstr;
  jint ⇠ json_new (JInt (Net.vnet_id x));
  o ⇠ object_add o "vnetId" jint;
  physes ⇠ json_new [];
  attached ← list_get (net, F_attached_list);
  physes ⇠ array_of jsonify_pa attached physes;
  o ⇠ object_add o "physList" (JArray physes);
  virts ⇠ json_new [];
  l ← list_get (net, F_virt_list);
  virts ⇠ array_of jsonify_lsdn_virt l virts;
  o ⇠ object_add o "virts" (JArray virts);
  mret (Some (JObject o)).

(** One of the three arrays of the document. *)
Definition jsonify_list (o : jmembers) (key : string) (h : addr) (f : ptr → M heap (option json))
    : M heap (option jmembers) :=
  arr ⇠ json_new [];
  l ← list_get h;
  arr ⇠ array_of f l arr;
  object_add o key (JArray arr).

(** [ret_ptr] with a string. *)
Definition ret_str (ctx : ptr) (str : option string) : M heap (option string) :=
  match str with None => _ ← nomem ctx; mret None | Some _ => mret str end.

Definition jsonify_context (ctx : ptr) : M heap (option json) :=
  o ⇠ json_new [];
  c ← get_ctx ctx;
  jname ⇠ json_object_new_string (Some (Ctx.name c));
  o ⇠ object_add o "lsdnName" jname;
  o ⇠ jsonify_list o "lsdnSettings" (ctx, F_settings_list) jsonify_lsdn_settings;
  o ⇠ jsonify_list o "lsdnPhyses" (ctx, F_phys_list) jsonify_lsdn_phys;
  o ⇠ jsonify_list o "lsdnNets" (ctx, F_networks_list) jsonify_lsdn_net;
  mret (Some (JObject o)).

Definition lsdn_dump_context_json (ctx : ptr) : M heap (option string) :=
  res ← (jobj ⇠ jsonify_context ctx;
         str ⇠ json_new (json_object_to_json_string_ext jobj);
         json_new str);
  ret_str ctx res.

(** ** The language of lsctl *)

(** [struct dump_ctx]: the text in the memory stream, the indentation, and whether a write
    failed. *)
Record dump_ctx := DumpCtx { buf : string; indent : nat; d_state : Z }.

Definition dump_ctx_create : M heap (option dump_ctx) :=
  d ⇠ json_new (DumpCtx "" 0 0);
  json_new d.

Definition dump_ctx_inc_indent (d : dump_ctx) : dump_ctx := DumpCtx (buf d) (S (indent d)) (d_state d).
Definition dump_ctx_dec_indent (d : dump_ctx) : M heap dump_ctx :=
  _ ← assert_ (bool_decide (0 < indent d)%nat);
  mret (DumpCtx (buf d) (pred (indent d)) (d_state d)).

(** [dump_ctx_append_str]; a write to the stream ([fputs]) fails for lack of memory. Its
    answer only ends loops that would write nothing more, since the failure is in [d_state]. *)
Definition dump_ctx_append_str (str : string) (d : dump_ctx) : M heap dump_ctx :=
  if d_state d =? 0 then
    ok ← try_alloc;
    mret (if ok : bool then DumpCtx (buf d +:+ str) (indent d) (d_state d)
          else DumpCtx (buf d) (indent d) 1)
  else mret d.

(** [dump_ctx_append]: the arguments end at the first NULL. *)
Fixpoint dump_ctx_append (args : list (option string)) (d : dump_ctx) : M heap dump_ctx :=
  match args with
  | Some str :: args =>
      d ← dump_ctx_append_str str d;
      d ← dump_ctx_append_str " " d;
      dump_ctx_append args d
  | _ => mret d
  end.

Definition tab : string := String.String (Ascii.ascii_of_nat 9) "".
Definition newline : string := String.String (Ascii.ascii_of_nat 10) "".

Fixpoint start_line_loop (n : nat) (d : dump_ctx) : M heap dump_ctx :=
  match n with
  | O => mret d
  | S n => d ← dump_ctx_append_str tab d; start_line_loop n d
  end.
Definition dump_ctx_start_line (d : dump_ctx) : M heap dump_ctx := start_line_loop (indent d) d.
Definition dump_ctx_end_line (d : dump_ctx) : M heap dump_ctx := dump_ctx_append_str newline d.

(** [json_object_object_get_ex] and [json_object_get_string] on any value, also NULL. *)
Definition get_ex (j : json) (k : string) : option json :=
  match j with JObject o => json_object_object_get_ex o k | _ => None end.
Definition get_string (j : option json) : option string :=
  match j with None | Some JNull => None | Some j => Some (json_object_get_string j) end.

Definition json_object_get_boolean (j : json) : bool :=
  match j with
  | JBool b => b
  | JInt n => negb (n =? 0)
  | JDouble d => match d with SpecFloat.S754_zero _ => false | _ => true end
  | JString s => negb (bool_decide (s = ""))
  | _ => false
  end.

(** [json_object_array_length] and [json_object_array_get_idx], after the assertion that the
    value is an array. *)
Definition json_array (j : json) : M heap (list json) :=
  match j with JArray l => mret l | _ => fail AssertFailed end.
Definition assert_object (j : json) : M heap unit :=
  match j with JObject _ => mret tt | _ => fail AssertFailed end.

(** An option that is printed if its member is there. *)
Definition append_opt (opt : string) (j : json) (k : string) (d : dump_ctx) : M heap dump_ctx :=
  match get_ex j k with
  | Some val => dump_ctx_append [Some opt; get_string (Some val)] d
  | None => mret d
  end.

(** A loop over the elements of an array whose body may answer 1 for the function. *)
Fixpoint for_each (body : json → dump_ctx → M heap (Z * dump_ctx)) (l : list json) (d : dump_ctx)
    : M heap (Z * dump_ctx) :=
  match l with
  | [] => mret (0, d)
  | j :: l =>
      r ← body j d;
      if r.1 =? 0 then for_each body l r.2 else mret r
  end.

Definition settings_line (jsettings : json) (d : dump_ctx) : M heap (Z * dump_ctx) :=
  _ ← assert_object jsettings;
  d ← dump_ctx_start_line d;
  d ← dump_ctx_append [Some "settings"] d;
  val ← match get_ex jsettings "settingsType" with Some val => mret val | None => fail AssertFailed end;
  d ← dump_ctx_append [get_string (Some val)] d;
  d ← append_opt "-name" jsettings "settingsName" d;
  d ← append_opt "-port" jsettings "port" d;
  d ← append_opt "-mcastIp" jsettings "ip" d;
  d ← dump_ctx_end_line d;
  mret (0, d).

Definition parse_json_lsdn_settings (jobj : json) (d : dump_ctx) : M heap (Z * dump_ctx) :=
  l ← json_array jobj; for_each settings_line l d.

(** [target_match_conversion]: the search runs over all strings of the table. *)
Definition conversion_table : list string :=
  ["src_mac"; "-srcMac"; "dst_mac"; "-dstMac"; "src_ipv4"; "-srcIp"; "dst_ipv4"; "-dstIp";
   "src_ipv6"; "-srcIp"; "dst_ipv6"; "-dstIp"].
Fixpoint conversion_loop (target : string) (table : list string) : option string :=
  match table with
  | [] => None
  | s :: table => if bool_decide (target = s) then head table else conversion_loop target table
  end.
Definition target_match_conversion (target : string) : option string :=
  conversion_loop target conversion_table.

Definition target_has_mask (target : string) : bool :=
  existsb (λ s, bool_decide (target = s)) ["src_ipv4"; "dst_ipv4"; "src_ipv6"; "dst_ipv6"].

(** The mask of a rule, as a prefix length if it is one; 1 for a string that is no address. *)
Definition append_mask (zal : json) (d : dump_ctx) : M heap (Z * dump_ctx) :=
  str ← deref (get_string (Some zal));
  match lsdn_parse_ip (String.list_ascii_of_string str) with
  | (LSDNE_OK, Some ip) =>
      d ← dump_ctx_append_str "/" d;
      if lsdn_ip_mask_is_prefix ip then
        match lsdn_ip_prefix_from_mask ip tt with
        | Ok prefix _ => d ← dump_ctx_append [Some (pretty prefix)] d; mret (0, d)
        | Fault f => fail f
        end
      else d ← dump_ctx_append [Some str] d; mret (0, d)
  | _ => mret (1, d)
  end.

(** The body of the inner loop of [convert_rules]. *)
Definition convert_target (wal : json) (d : dump_ctx) : M heap (Z * dump_ctx) :=
  match get_ex wal "target" with
  | None => mret (1, d)
  | Some zal =>
      target ← deref (get_string (Some zal));
      d ← dump_ctx_append [target_match_conversion target] d;
      match get_ex wal "match" with
      | None => mret (1, d)
      | Some zal =>
          str ← deref (get_string (Some zal));
          d ← dump_ctx_append_str str d;
          r ← match get_ex wal "matchMask" with
              | Some zal => if target_has_mask target then append_mask zal d else mret (0, d)
              | None => mret (0, d)
              end;
          if r.1 =? 0 then d ← dump_ctx_append_str " " r.2; mret (0, d) else mret r
      end
  end.

(** The body of the loop of [convert_rules]. *)
Definition convert_rule (rule : json) (d : dump_ctx) : M heap (Z * dump_ctx) :=
  _ ← assert_object rule;
  d ← dump_ctx_start_line d;
  d ← dump_ctx_append [Some "rule"] d;
  match get_ex rule "dir" with None => mret (1, d) | Some val =>
  d ← dump_ctx_append [get_string (Some val)] d;
  match get_ex rule "prio" with None => mret (1, d) | Some val =>
  d ← dump_ctx_append [get_string (Some val)] d;
  match get_ex rule "action" with None => mret (1, d) | Some val =>
  d ← dump_ctx_append [get_string (Some val)] d;
  r ← match get_ex rule "targets" with
      | Some val => l ← json_array val; for_each convert_target l d
      | None => mret (0, d)
      end;
  if r.1 =? 0 then d ← dump_ctx_end_line r.2; mret (0, d) else mret r
  end end end.

Definition convert_rules (rules : json) (d : dump_ctx) : M heap (Z * dump_ctx) :=
  l ← json_array rules; for_each convert_rule l d.

Definition convert_qos (qos : json) (inbound : bool) (d : dump_ctx) : M heap (Z * dump_ctx) :=
  _ ← assert_object qos;
  d ← dump_ctx_start_line d;
  d ← dump_ctx_append [Some "rate"] d;
  d ← dump_ctx_append [Some (if inbound then "in" else "out")] d;
  d ← append_opt "-avg" qos "avgRate" d;
  d ← append_opt "-burst" qos "burstSize" d;
  d ← append_opt "-burstRate" qos "burstRate" d;
  d ← dump_ctx_end_line d;
  mret (0, d).

Definition attach_line (p : json) (d : dump_ctx) : M heap (Z * dump_ctx) :=
  d ← dump_ctx_start_line d;
  d ← dump_ctx_append [Some "attach"; get_string (Some p)] d;
  d ← dump_ctx_end_line d;
  mret (0, d).

(** The options of a virt, in the order of the members of its object. *)
Definition virt_option (pkey : string) (pval : json) (d : dump_ctx) : M heap dump_ctx :=
  if bool_decide (pkey = "virtName") then dump_ctx_append [Some "-name"; get_string (Some pval)] d
  else if bool_decide (pkey = "phys") then dump_ctx_append [Some "-phys"; get_string (Some pval)] d
  else if bool_decide (pkey = "iface") then dump_ctx_append [Some "-if"; get_string (Some pval)] d
  else if bool_decide (pkey = "attrMac") then dump_ctx_append [Some "-mac"; get_string (Some pval)] d
  else mret d.
Fixpoint virt_options (o : jmembers) (d : dump_ctx) : M heap dump_ctx :=
  match o with
  | [] => mret d
  | (pkey, pval) :: o => d ← virt_option pkey pval d; virt_options o d
  end.

(** The last member of a name in the loop over the members of an object. *)
Definition last_member (k : string) (o : jmembers) : option json := assoc k (reverse o).

Definition opt_block (j : option json) (f : json → dump_ctx → M heap (Z * dump_ctx)) (d : dump_ctx)
    : M heap (Z * dump_ctx) :=
  match j with Some j => f j d | None => mret (0, d) end.

Definition virt_block (p : json) (d : dump_ctx) : M heap (Z * dump_ctx) :=
  d ← dump_ctx_start_line d;
  d ← dump_ctx_append [Some "virt"] d;
  o ← match p with JObject o => mret o | _ => fail NullDeref end;
  d ← virt_options o d;
  d ← dump_ctx_append [Some "{"] d;
  d ← dump_ctx_end_line d;
  let d := dump_ctx_inc_indent d in
  r ← opt_block (last_member "rules" o) convert_rules d;
  if negb (r.1 =? 0) then mret r else
  r ← opt_block (last_member "qosIn" o) (λ j, convert_qos j true) r.2;
  if negb (r.1 =? 0) then mret r else
  r ← opt_block (last_member "qosOut" o) (λ j, convert_qos j false) r.2;
  if negb (r.1 =? 0) then mret r else
  d ← dump_ctx_dec_indent r.2;
  d ← dump_ctx_start_line d;
  d ← dump_ctx_append [Some "}"] d;
  d ← dump_ctx_end_line d;
  mret (0, d).

Definition net_block (jnet : json) (d : dump_ctx) : M heap (Z * dump_ctx) :=
  _ ← assert_object jnet;
  d ← dump_ctx_start_line d;
  d ← dump_ctx_append [Some "net"] d;
  d ← dump_ctx_append [Some "-vid"; get_string (get_ex jnet "vnetId")] d;
  d ← append_opt "-settings" jnet "settings" d;
  d ← match get_ex jnet "netName" with
      | Some val => dump_ctx_append [get_string (Some val)] d
      | None => dump_ctx_append [get_string (get_ex jnet "vnetId")] d
      end;
  d ← dump_ctx_append [Some "{"] d;
  d ← dump_ctx_end_line d;
  let d := dump_ctx_inc_indent d in
  r ← opt_block (get_ex jnet "physList") (λ j d, l ← json_array j; for_each attach_line l d) d;
  r ← opt_block (get_ex jnet "virts") (λ j d, l ← json_array j; for_each virt_block l d) r.2;
  if negb (r.1 =? 0) then mret r else
  d ← dump_ctx_append [Some "}"] r.2;
  d ← dump_ctx_end_line d;
  d ← dump_ctx_dec_indent d;
  mret (0, d).

Definition parse_json_lsdn_nets (jobj : json) (d : dump_ctx) : M heap (Z * dump_ctx) :=
  l ← json_array jobj; for_each net_block l d.

Definition phys_line (jphys : json) (d : dump_ctx) : M heap (Z * dump_ctx) :=
  _ ← assert_object jphys;
  d ← dump_ctx_start_line d;
  d ← dump_ctx_append [Some "phys"] d;
  let name := match get_ex jphys "physName" with Some val => get_string (Some val) | None => None end in
  d ← match get_ex jphys "physName" with
      | Some val => d ← dump_ctx_append [Some "-name"] d; dump_ctx_append [name] d
      | None => mret d
      end;
  d ← append_opt "-ip" jphys "attrIp" d;
  d ← append_opt "-if" jphys "iface" d;
  d ← dump_ctx_end_line d;
  match get_ex jphys "isLocal", name with
  | Some val, Some name =>
      if json_object_get_boolean val then
        d ← dump_ctx_start_line d;
        d ← dump_ctx_append [Some "claimLocal"; Some name] d;
        d ← dump_ctx_end_line d;
        mret (0, d)
      else mret (0, d)
  | _, _ => mret (0, d)
  end.

Definition parse_json_lsdn_physes (jobj : json) (d : dump_ctx) : M heap (Z * dump_ctx) :=
  l ← json_array jobj; for_each phys_line l d.

(** The loop of [lsdn_dump_context_tcl] over the members of the document. *)
Definition convert_member (key : string) (val : json) (d : dump_ctx) : M heap (Z * dump_ctx) :=
  if bool_decide (key = "lsdnSettings") then parse_json_lsdn_settings val d
  else if bool_decide (key = "lsdnPhyses") then parse_json_lsdn_physes val d
  else if bool_decide (key = "lsdnNets") then parse_json_lsdn_nets val d
  else mret (0, d).
Fixpoint convert_members (o : jmembers) (d : dump_ctx) : M heap (option dump_ctx) :=
  match o with
  | [] => mret (Some d)
  | (key, val) :: o =>
      r ← convert_member key val d;
      if r.1 =? 0 then convert_members o r.2 else mret None
  end.

Definition lsdn_dump_context_tcl (ctx : ptr) : M heap (option string) :=
  res ← (str_json ⇠ lsdn_dump_context_json ctx;
         d ⇠ dump_ctx_create;
         ok ← try_alloc;
         jobj ⇠ mret (if ok : bool then json_tokener_parse str_json else None);
         o ← match jobj with JObject o => mret o | _ => fail AssertFailed end;
         d ← dump_ctx_start_line d;
         d ← dump_ctx_append [Some "namespace import lsdn::*"] d;
         d ← dump_ctx_end_line d;
         d ⇠ convert_members o d;
         mret (if d_state d =? 0 then Some (buf d) else None));
  ret_str ctx res.
End dump.

Notation "x ⇠ m ; k" := (or_err m (λ x, k)) (at level 20, m at level 100, k at level 200).
