(* ===== verification/DumpSpec.v ===== *)
(** * What a dump says

    The content of a model is what the API can set: [describes] reads it off the objects. With
    enough memory, [lsdn_dump_context_json] prints a document that holds exactly the content,
    and the text of [lsdn_dump_context_tcl] is the script of lsctl commands that says the same. *)

From Stdlib Require Import ZArith Lia.
From stdpp Require Import base list gmap strings pretty countable.
From S2P Require Import Prelude.
From S2P Require Import Float.
From S2P Require Import LStore.
From S2P Require Import Status.
From S2P Require Import Nettypes.
From S2P Require Import Heap.
From S2P Require Import Base.
From S2P Require Import Wp.
From S2P Require Import Model.
From S2P Require Import Dump.
From S2P Require Import Inv.
From S2P Require Import Api.
From S2P Require Import Valid.

Local Open Scope string_scope.
Local Open Scope list_scope.
Local Open Scope Z_scope.

(** ** The content of a model *)

(** A match condition: target, value and mask. *)
Definition condition : Type := lsdn_rule_target * matchdata * matchdata.

(** The types of networks, as lsctl names them in its command [settings]. The settings of a
    learning geneve network ([geneve/e2e]) are left out: a dump takes them for those of a static
    one, see [dumpable]. *)
Inductive net_kind := KDirect | KVlan | KVxlanMcast | KVxlanE2e | KVxlanStatic | KGeneve.
Definition kind_of (ops : lsdn_net_ops_tag) : option net_kind :=
  match ops with
  | lsdn_net_direct_ops => Some KDirect
  | lsdn_net_vlan_ops => Some KVlan
  | lsdn_net_vxlan_mcast_ops => Some KVxlanMcast
  | lsdn_net_vxlan_e2e_ops => Some KVxlanE2e
  | lsdn_net_vxlan_static_ops => Some KVxlanStatic
  | lsdn_net_geneve_ops => Some KGeneve
  | lsdn_net_geneve_e2e_ops => None
  end.
Definition kind_word (k : net_kind) : string :=
  match k with
  | KDirect => "direct"
  | KVlan => "vlan"
  | KVxlanMcast => "vxlan/mcast"
  | KVxlanE2e => "vxlan/e2e"
  | KVxlanStatic => "vxlan/static"
  | KGeneve => "geneve"
  end.
(** Tunnels over UDP have a port. *)
Definition kind_udp (k : net_kind) : bool := match k with KDirect | KVlan => false | _ => true end.

Record settings_content := SettingsC {
  sc_name : string; sc_kind : net_kind; sc_port : option Z; sc_ip : option lsdn_ip_t }.
Record phys_content := PhysC {
  pc_name : string; pc_ip : option lsdn_ip_t; pc_iface : option string; pc_local : bool }.
Record rule_content := RuleC {
  rc_dir : string; rc_prio : Z; rc_action : string; rc_conditions : list condition }.
Record virt_content := VirtC {
  vc_name : option string; vc_mac : option lsdn_mac_t; vc_phys : option string;
  vc_iface : option string; vc_rules : list rule_content;
  vc_rate_in : option lsdn_qos_rate_t; vc_rate_out : option lsdn_qos_rate_t }.
Record net_content := NetC {
  nc_name : option string; nc_settings : string; nc_vnet_id : Z;
  nc_physes : list string; nc_virts : list virt_content }.
Record content := Content {
  c_name : string; c_settings : list settings_content; c_physes : list phys_content;
  c_nets : list net_content }.

(** The objects of a list. *)
Definition elems (s : heap) (h : addr) : list ptr := fst <$> default [] (H.lists s !! h).

Definition settings_is (s : heap) (p : ptr) (c : settings_content) : Prop :=
  ∃ x, H.objs s !! p = Some (OSettings x) ∧ Settings.name x = Some (sc_name c) ∧
  kind_of (Settings.ops x) = Some (sc_kind c) ∧
  sc_port c = (if kind_udp (sc_kind c) then Some (Settings.port x) else None) ∧
  sc_ip c = match sc_kind c with KVxlanMcast => Settings.mcast_ip x | _ => None end.

Definition phys_is (s : heap) (p : ptr) (c : phys_content) : Prop :=
  ∃ x, H.objs s !! p = Some (OPhys x) ∧ Phys.name x = Some (pc_name c) ∧
  pc_ip c = Phys.attr_ip x ∧ pc_iface c = Phys.attr_iface x ∧ pc_local c = Phys.is_local x.

(** The conditions of a virt rule: the positions of its arrays that are in use. *)
Definition conditions (x : Vr.lsdn_vr) (r : Rule.lsdn_rule) : list condition :=
  let n := Z.to_nat (Vr.pos x) in
  zip (zip (take n (Vr.targets x)) (take n (Rule.matches r))) (take n (Vr.masks x)).

Definition rule_is (s : heap) (dir : string) (prio : Z) (p : ptr) (c : rule_content) : Prop :=
  ∃ x r, H.objs s !! p = Some (OVr x) ∧ H.rules s !! (p, F_rule) = Some r ∧
  rc_dir c = dir ∧ rc_prio c = prio ∧ a_name (Rule.action r) = Some (rc_action c) ∧
  rc_conditions c = conditions x r.

(** The rules of one priority, and of all priorities of a direction. *)
Definition prio_is (s : heap) (dir : string) (q : ptr) (l : list rule_content) : Prop :=
  ∃ y, H.objs s !! q = Some (OVrPrio y) ∧
  Forall2 (rule_is s dir (VrPrio.prio_num y)) (elems s (q, F_rules_list)) l.
Definition rules_are (s : heap) (dir : string) (prios : list (Z * ptr)) (l : list rule_content) : Prop :=
  ∃ ll, Forall2 (prio_is s dir) prios.*2 ll ∧ l = concat ll.

(** The name of the phys behind an attachment. *)
Definition pa_phys (s : heap) (a : ptr) (n : string) : Prop :=
  ∃ o p, H.objs s !! a = Some (OPa o) ∧ H.objs s !! Pa.phys o = Some (OPhys p) ∧ Phys.name p = Some n.

Definition virt_is (s : heap) (v : ptr) (c : virt_content) : Prop :=
  ∃ x i li lo, H.objs s !! v = Some (OVirt x) ∧ H.ifs s !! (v, F_connected_if) = Some i ∧
  vc_name c = Virt.name x ∧ vc_mac c = Virt.attr_mac x ∧
  option_Forall2 (pa_phys s) (Virt.connected_through x) (vc_phys c) ∧ vc_iface c = If.ifname i ∧
  rules_are s "in" (Virt.ht_in_rules x) li ∧ rules_are s "out" (Virt.ht_out_rules x) lo ∧
  vc_rules c = li ++ lo ∧
  vc_rate_in c = Virt.attr_rate_in x ∧ vc_rate_out c = Virt.attr_rate_out x.

Definition net_is (s : heap) (n : ptr) (c : net_content) : Prop :=
  ∃ x t, H.objs s !! n = Some (ONet x) ∧ H.objs s !! Net.settings x = Some (OSettings t) ∧
  nc_name c = Net.name x ∧ Settings.name t = Some (nc_settings c) ∧ nc_vnet_id c = Net.vnet_id x ∧
  Forall2 (pa_phys s) (elems s (n, F_attached_list)) (nc_physes c) ∧
  Forall2 (virt_is s) (elems s (n, F_virt_list)) (nc_virts c).

Definition describes (s : heap) (ctx : ptr) (c : content) : Prop :=
  ∃ x, H.objs s !! ctx = Some (OCtx x) ∧ c_name c = Ctx.name x ∧
  Forall2 (settings_is s) (elems s (ctx, F_settings_list)) (c_settings c) ∧
  Forall2 (phys_is s) (elems s (ctx, F_phys_list)) (c_physes c) ∧
  Forall2 (net_is s) (elems s (ctx, F_networks_list)) (c_nets c).

(** What dump.c takes for granted: settings and physes have names, the actions of rules too, and
    the arrays of a rule have the positions that are in use. And no settings are those of a
    learning geneve network, which the dump would describe wrongly. *)
Record dumpable (s : heap) : Prop := {
  du_settings p x : H.objs s !! p = Some (OSettings x) → is_Some (Settings.name x) ∧
    Settings.ops x ≠ lsdn_net_geneve_e2e_ops ∧
    (Settings.ops x = lsdn_net_vxlan_mcast_ops → is_Some (Settings.mcast_ip x));
  du_phys p x : H.objs s !! p = Some (OPhys x) → is_Some (Phys.name x);
  du_vr p x r : H.objs s !! p = Some (OVr x) → H.rules s !! (p, F_rule) = Some r →
    is_Some (a_name (Rule.action r)) ∧
    (Z.to_nat (Vr.pos x) ≤ length (Vr.targets x))%nat ∧
    (Z.to_nat (Vr.pos x) ≤ length (Rule.matches r))%nat ∧
    (Z.to_nat (Vr.pos x) ≤ length (Vr.masks x))%nat }.

(** ** The document of a content *)

Definition member (k : string) (j : option json) : jmembers := match j with Some j => [(k, j)] | None => [] end.
Definition of_text (s : cstring) : json := JString (String.string_of_list_ascii s).

Definition settings_json (c : settings_content) : json :=
  JObject ([("settingsName", JString (sc_name c)); ("settingsType", JString (kind_word (sc_kind c)))] ++
    member "port" (JInt <$> sc_port c) ++ member "ip" (of_text ∘ lsdn_ip_to_string <$> sc_ip c)).

Definition phys_json (c : phys_content) : json :=
  JObject ([("physName", JString (pc_name c))] ++
    member "attrIp" (of_text ∘ lsdn_ip_to_string <$> pc_ip c) ++
    member "iface" (JString <$> pc_iface c) ++ [("isLocal", JBool (pc_local c))]).

(** What a condition is about: the member and the version of IP for an address, nothing for a
    MAC address; the API makes no other conditions. *)
Definition field_name (t : lsdn_rule_target) : string :=
  match t with
  | LSDN_MATCH_SRC_MAC => "src_mac" | LSDN_MATCH_DST_MAC => "dst_mac"
  | LSDN_MATCH_SRC_IPV4 => "src_ipv4" | LSDN_MATCH_DST_IPV4 => "dst_ipv4"
  | LSDN_MATCH_SRC_IPV6 => "src_ipv6" | LSDN_MATCH_DST_IPV6 => "dst_ipv6"
  | LSDN_MATCH_ENC_KEY_ID => "enc_key_id"
  | LSDN_MATCH_ENC_KEY_SRC_IPV4 => "enc_src_ipv4" | LSDN_MATCH_ENC_KEY_DST_IPV4 => "enc_dst_ipv4"
  | LSDN_MATCH_ENC_KEY_SRC_IPV6 => "enc_src_ipv6" | LSDN_MATCH_ENC_KEY_DST_IPV6 => "enc_dst_ipv6"
  | LSDN_MATCH_NONE => "none"
  end.
Definition match_ipv (t : lsdn_rule_target) : option lsdn_ipv :=
  match t with
  | LSDN_MATCH_SRC_IPV4 | LSDN_MATCH_DST_IPV4 => Some LSDN_IPv4
  | LSDN_MATCH_SRC_IPV6 | LSDN_MATCH_DST_IPV6 => Some LSDN_IPv6
  | _ => None
  end.
Definition match_mac (t : lsdn_rule_target) : bool :=
  match t with LSDN_MATCH_SRC_MAC | LSDN_MATCH_DST_MAC => true | _ => false end.
(** The address in a value or a mask. *)
Definition field_text (t : lsdn_rule_target) (u : matchdata) : option cstring :=
  match match_ipv t with
  | Some iv => Some (lsdn_ip_to_string (Ip iv (take (ip_len iv) u)))
  | None => if match_mac t then Some (lsdn_mac_to_string (take LSDN_MAC_LEN u)) else None
  end.
Lemma field_name_spec t : lsdn_rule_target_name t = field_name t.
Proof. by destruct t. Qed.
Lemma field_text_spec t u : print_match t u = field_text t u.
Proof. by destruct t. Qed.

Definition condition_json (c : condition) : json :=
  let '(t, value, mask) := c in
  JObject ([("target", JString (field_name t))] ++
    member "match" (of_text <$> field_text t value) ++ member "matchMask" (of_text <$> field_text t mask)).

Definition rule_json (c : rule_content) : json :=
  JObject [("targets", JArray (condition_json <$> rc_conditions c)); ("dir", JString (rc_dir c));
    ("prio", JInt (rc_prio c)); ("action", JString (rc_action c))].

Definition rate_json (r : lsdn_qos_rate_t) : json :=
  JObject [("avgRate", JDouble (f64_of_f32 (avg_rate r))); ("burstSize", JInt (burst_size r));
    ("burstRate", JDouble (f64_of_f32 (burst_rate r)))].

Definition virt_json (c : virt_content) : json :=
  JObject (member "virtName" (JString <$> vc_name c) ++
    member "attrMac" (of_text ∘ lsdn_mac_to_string <$> vc_mac c) ++
    member "phys" (JString <$> vc_phys c) ++ member "iface" (JString <$> vc_iface c) ++
    [("rules", JArray (rule_json <$> vc_rules c))] ++
    member "qosIn" (rate_json <$> vc_rate_in c) ++ member "qosOut" (rate_json <$> vc_rate_out c)).

Definition net_json (c : net_content) : json :=
  JObject (member "netName" (JString <$> nc_name c) ++
    [("settings", JString (nc_settings c)); ("vnetId", JInt (nc_vnet_id c));
     ("physList", JArray (JString <$> nc_physes c)); ("virts", JArray (virt_json <$> nc_virts c))]).

Definition content_members (c : content) : jmembers :=
  [("lsdnName", JString (c_name c)); ("lsdnSettings", JArray (settings_json <$> c_settings c));
   ("lsdnPhyses", JArray (phys_json <$> c_physes c)); ("lsdnNets", JArray (net_json <$> c_nets c))].
Definition content_json (c : content) : json := JObject (content_members c).

(** ** Names of members *)

Lemma key_nil k : k ∉ ([] : jmembers).*1.
Proof. apply not_elem_of_nil. Qed.
Lemma key_cons k k' j (l : jmembers) : k ≠ k' → k ∉ l.*1 → k ∉ ((k', j) :: l).*1.
Proof. intros ? ?. simpl. by apply not_elem_of_cons. Qed.
Lemma key_member k k' j : k ≠ k' → k ∉ (member k' j).*1.
Proof. destruct j; [intros ?; apply key_cons; [done|]|intros ?]; apply key_nil. Qed.
Lemma key_app k (l l' : jmembers) : k ∉ l.*1 → k ∉ l'.*1 → k ∉ (l ++ l').*1.
Proof. rewrite fmap_app, not_elem_of_app. done. Qed.
Create HintDb keys.
#[export] Hint Resolve key_nil key_cons key_member key_app : keys.
#[export] Hint Extern 1 (_ ≠ _) => discriminate : keys.

(** ** Reading the model *)

Definition mem_ok (s : heap) : Prop := ∀ n, Env.malloc_ok (H.env s) n = true.

Section json.
Context {J : JsonC} {JL : JsonCLaws J} (s : heap) (Hmem : mem_ok s).

(** [m] only reads and allocates, and answers something that satisfies [P]. *)
Definition answers {A} (m : M heap A) (P : A → Prop) : Prop :=
  ∀ n, wp m (H.set_allocs n s) (λ r s', (∃ n', s' = H.set_allocs n' s) ∧ P r).
Definition dumps {A} (m : M heap (option A)) (P : A → Prop) : Prop :=
  answers m (λ r, ∃ a, r = Some a ∧ P a).

Lemma answers_mono {A} (m : M heap A) (P Q : A → Prop) : answers m P → (∀ a, P a → Q a) → answers m Q.
Proof. intros Hm HPQ n. eapply wp_mono; [apply Hm|]. intros a s' [? ?]. auto. Qed.
Lemma dumps_mono {A} (m : M heap (option A)) (P Q : A → Prop) : dumps m P → (∀ a, P a → Q a) → dumps m Q.
Proof. intros Hm HPQ. eapply answers_mono; [exact Hm|]. intros r (a & -> & ?). eauto. Qed.

Lemma answers_ret {A} (a : A) (P : A → Prop) : P a → answers (mret a) P.
Proof. intros HP n. rewrite wp_ret. eauto. Qed.
Lemma dumps_ret {A} (a : A) (P : A → Prop) : P a → dumps (mret (Some a)) P.
Proof. intros HP. apply answers_ret. eauto. Qed.
Lemma answers_bind {A B} (m : M heap A) (k : A → M heap B) P Q :
  answers m P → (∀ a, P a → answers (k a) Q) → answers (a ← m; k a) Q.
Proof.
  intros Hm Hk n. rewrite wp_bind. eapply wp_mono; [apply Hm|]. intros a s' [[n' ->] HP]. by apply Hk.
Qed.
Lemma dumps_or_err {A B} (m : M heap (option A)) (k : A → M heap (option B)) P Q :
  dumps m P → (∀ a, P a → dumps (k a) Q) → dumps (or_err m k) Q.
Proof. intros Hm Hk. eapply answers_bind; [exact Hm|]. intros r (a & -> & HP). by apply Hk. Qed.

(** Reads. *)
Lemma reads_obj {A} (m : M heap A) (a : A) Q :
  (∀ n, wp m (H.set_allocs n s) (λ r s', r = a ∧ s' = H.set_allocs n s)) → Q a → answers m Q.
Proof. intros Hm HQ n. eapply wp_mono; [apply Hm|]. intros r s' [-> ->]. eauto. Qed.

Lemma dumps_new {A} (j : A) : dumps (json_new j) (.= j).
Proof.
  intros n. unfold json_new. rewrite wp_bind, wp_try_alloc, wp_ret. simpl. rewrite Hmem.
  split; [by exists (S n)|eauto].
Qed.
Lemma dumps_string str : dumps (json_object_new_string (Some str)) (.= JString str).
Proof. intros n. unfold json_object_new_string. rewrite wp_bind, wp_deref. eexists. split; [done|]. apply dumps_new. Qed.
Lemma dumps_text str : dumps (json_object_new_string (text str)) (.= of_text str).
Proof. apply dumps_string. Qed.
Lemma dumps_add o k v : k ∉ o.*1 → dumps (object_add o k v) (.= o ++ [(k, v)]).
Proof.
  intros Hk n. unfold object_add. rewrite wp_bind, wp_try_alloc, wp_ret. simpl. rewrite Hmem.
  split; [by exists (S n)|]. rewrite object_add_new by done. eauto.
Qed.
Lemma dumps_add_if {A} o k (x : option A) f (R : A → json → Prop) :
  k ∉ o.*1 → (∀ a, x = Some a → dumps (f a) (R a)) →
  dumps (object_add_if o k x f) (λ o', ∃ j, option_Forall2 R x j ∧ o' = o ++ member k j).
Proof.
  intros Hk Hf. unfold object_add_if. destruct x as [a|].
  - eapply dumps_or_err; [by apply Hf|]. intros j HR. eapply dumps_mono; [by apply dumps_add|].
    intros o' ->. exists (Some j). split; [by constructor|done].
  - apply dumps_ret. exists None. split; [by constructor|]. simpl. by rewrite app_nil_r.
Qed.
Lemma dumps_array {A} (f : A → M heap (option json)) (R : A → json → Prop) l arr :
  (∀ a, a ∈ l → dumps (f a) (R a)) →
  dumps (array_of f l arr) (λ arr', ∃ js, Forall2 R l js ∧ arr' = arr ++ js).
Proof.
  revert arr. induction l as [|a l IH]; intros arr Hf; simpl.
  { apply dumps_ret. exists []. split; [constructor|by rewrite app_nil_r]. }
  eapply dumps_or_err; [apply Hf; by left|]. intros j HR.
  eapply dumps_or_err; [apply dumps_new|]. intros ? ->.
  eapply dumps_mono; [apply IH; intros b Hb; apply Hf; by right|].
  intros arr' (js & Hjs & ->). exists (j :: js). split; [by constructor|by rewrite <-app_assoc].
Qed.

Lemma dumps_read {A B} (m : M heap A) (a : A) (k : A → M heap (option B)) P :
  (∀ n, wp m (H.set_allocs n s) (λ r s', r = a ∧ s' = H.set_allocs n s)) →
  dumps (k a) P → dumps (x ← m; k x) P.
Proof. intros Hm Hk. eapply answers_bind; [by eapply (reads_obj m a (.= a))|]. by intros ? ->. Qed.

Lemma dumps_list {B} h (k : list ptr → M heap (option B)) P :
  is_Some (H.lists s !! h) → dumps (k (elems s h)) P → dumps (l ← list_get h; k l) P.
Proof.
  intros [l Hl]. unfold elems. rewrite Hl. apply dumps_read. intros n. by eapply wp_list_get.
Qed.
Lemma dumps_element {A B} (l : list A) i x (k : A → M heap (option B)) P :
  l !! i = Some x → dumps (k x) P → dumps (x ← element l i; k x) P.
Proof. intros Hx. unfold element. rewrite Hx. apply dumps_read. intros n. by rewrite wp_ret. Qed.

(** Executes a function of dump.c; the object that is read is found in the context. *)
Ltac d_wp :=
  intros ?; first [rewrite wp_get_settings | rewrite wp_get_phys | rewrite wp_get_net | rewrite wp_get_pa
    | rewrite wp_get_virt | rewrite wp_get_vr | rewrite wp_get_vrprio | rewrite wp_get_rule | rewrite wp_get_if
    | rewrite wp_get_ctx];
  eexists; split; [eassumption|done].
Ltac d_step :=
  lazymatch goal with
  | |- dumps (or_err (json_new _) _) _ => eapply dumps_or_err; [apply dumps_new|intros ? ->]
  | |- dumps (or_err (json_object_new_string (text _)) _) _ => eapply dumps_or_err; [apply dumps_text|intros ? ->]
  | |- dumps (or_err (json_object_new_string (Some _)) _) _ => eapply dumps_or_err; [apply dumps_string|intros ? ->]
  | |- dumps (or_err (object_add _ _ _) _) _ =>
      eapply dumps_or_err; [apply dumps_add; solve [eauto 20 with keys nocore]|intros ? ->]
  | |- dumps (mbind _ _) _ => eapply dumps_read; [solve [d_wp]|]
  end.
(** The same for a member that is not always there, with what is known of its value. *)
Ltac d_if R :=
  eapply dumps_or_err; [apply (dumps_add_if _ _ _ _ R); [solve [eauto 20 with keys nocore]|]|
                        intros ? (? & ?Hopt & ->)].

Lemma option_fn {A} (f : A → json) x j : option_Forall2 (λ a j, j = f a) x j → j = f <$> x.
Proof. by intros [|]; [subst|]. Qed.

Lemma settings_dumps p x : H.objs s !! p = Some (OSettings x) → dumpable s →
  dumps (jsonify_lsdn_settings p) (λ j, ∃ c, settings_is s p c ∧ j = settings_json c).
Proof.
  intros Hp Hd. destruct (du_settings _ Hd _ _ Hp) as ([nm Hnm] & Hge & Hip). unfold jsonify_lsdn_settings.
  d_step. d_step. rewrite Hnm. do 4 d_step.
  d_if (λ (f : Settings.lsdn_settings → Z) j, j = JInt (f x)); [intros; apply dumps_new|].
  d_if (λ (f : Settings.lsdn_settings → M heap lsdn_ip_t) j, ∃ ip, Settings.mcast_ip x = Some ip ∧ j = of_text (lsdn_ip_to_string ip)).
  { intros f Hf. destruct (Settings.ops x) eqn:Ho; simplify_eq/=. destruct Hip as [ip Hip]; [done|].
    eapply dumps_read; [intros n; unfold vxlan_mcast_get_ip; rewrite wp_live; by exists ip|].
    eapply dumps_mono; [apply dumps_text|]. eauto. }
  apply dumps_ret. apply option_fn in Hopt as ->.
  assert (Hk : ∃ k, kind_of (Settings.ops x) = Some k) by (destruct (Settings.ops x); eauto; done).
  destruct Hk as [k Hk].
  exists (SettingsC nm k (if kind_udp k then Some (Settings.port x) else None)
            (match k with KVxlanMcast => Settings.mcast_ip x | _ => None end)).
  split; [by exists x|]. unfold settings_json. simpl.
  destruct (Settings.ops x); simplify_eq/=; inversion Hopt0 as [? ? (ip & Hi & ->)|]; try done; by rewrite Hi.
Qed.

Lemma phys_dumps p x : H.objs s !! p = Some (OPhys x) → dumpable s →
  dumps (jsonify_lsdn_phys p) (λ j, ∃ c, phys_is s p c ∧ j = phys_json c).
Proof.
  intros Hp Hd. destruct (du_phys _ Hd _ _ Hp) as [nm Hnm]. unfold jsonify_lsdn_phys.
  d_step. d_step. rewrite Hnm. do 2 d_step.
  d_if (λ ip j, j = of_text (lsdn_ip_to_string ip)); [intros; apply dumps_text|].
  d_if (λ i j, j = JString i); [intros; apply dumps_string|].
  do 2 d_step. apply dumps_ret. apply option_fn in Hopt as ->. apply option_fn in Hopt0 as ->.
  exists (PhysC nm (Phys.attr_ip x) (Phys.attr_iface x) (Phys.is_local x)). split; [by exists x|].
  unfold phys_json. simpl. by rewrite <-!app_assoc.
Qed.

Lemma match_dumps x r i t value mask :
  Vr.targets x !! i = Some t → Rule.matches r !! i = Some value → Vr.masks x !! i = Some mask →
  dumps (jsonify_match x r i) (.= condition_json (t, value, mask)).
Proof.
  intros Ht Hv Hm. unfold jsonify_match. d_step. eapply dumps_element; [done|]. do 2 d_step.
  eapply dumps_element; [done|].
  d_if (λ m j, j = of_text m); [intros; apply dumps_text|]. eapply dumps_element; [done|].
  d_if (λ m j, j = of_text m).
  { intros m _. eapply answers_bind; [apply dumps_text|]. intros ? (? & -> & ->). apply answers_ret.
    by destruct (is_ipv4 t); eauto. }
  apply dumps_ret. apply option_fn in Hopt as ->. apply option_fn in Hopt0 as ->.
  unfold condition_json. by rewrite <-!app_assoc, field_name_spec, !field_text_spec.
Qed.

Lemma conditions_lookup x r i c : conditions x r !! i = Some c ↔
  (i < Z.to_nat (Vr.pos x))%nat ∧ Vr.targets x !! i = Some c.1.1 ∧ Rule.matches r !! i = Some c.1.2 ∧
  Vr.masks x !! i = Some c.2.
Proof.
  unfold conditions. destruct c as [[t value] mask]. simpl.
  rewrite !lookup_zip_Some. simpl. rewrite !lookup_take_Some. naive_solver.
Qed.

Lemma conditions_length x r n :
  n = Z.to_nat (Vr.pos x) → (n ≤ length (Vr.targets x))%nat → (n ≤ length (Rule.matches r))%nat →
  (n ≤ length (Vr.masks x))%nat → length (conditions x r) = n.
Proof. intros ->. unfold conditions. rewrite !length_zip_with, !length_take. lia. Qed.

Lemma positions {A} (f : A → json) l js :
  Forall2 (λ i j, ∃ c, l !! i = Some c ∧ j = f c) (seq 0 (length l)) js → js = f <$> l.
Proof.
  intros Hjs. pose proof (Forall2_length Hjs) as Hlen. rewrite length_seq in Hlen.
  apply list_eq_same_length with (length l); [by rewrite length_fmap|done|].
  intros i j j' Hi Hj Hj'. apply list_lookup_fmap_Some in Hj' as (c & -> & Hc).
  destruct (Forall2_lookup_r _ _ _ _ _ Hjs Hj) as (k & Hk & c' & Hc' & ->).
  apply lookup_seq in Hk as [-> _]. by simplify_eq/=.
Qed.

Lemma vr_dumps p x r :
  H.objs s !! p = Some (OVr x) → H.rules s !! (p, F_rule) = Some r → dumpable s →
  dumps (jsonify_lsdn_vr p) (.= [("targets", JArray (condition_json <$> conditions x r))]).
Proof.
  intros Hp Hr Hd. destruct (du_vr _ Hd _ _ _ Hp Hr) as (_ & H1 & H2 & H3).
  unfold jsonify_lsdn_vr. do 4 d_step. eapply dumps_or_err.
  { apply (dumps_array _ (λ i j, ∃ c, conditions x r !! i = Some c ∧ j = condition_json c)).
    intros i Hi. apply elem_of_seq in Hi.
    destruct (lookup_lt_is_Some_2 (conditions x r) i) as [[[t value] mask] Hc].
    { rewrite (conditions_length x r (Z.to_nat (Vr.pos x))); [lia|done..]. }
    pose proof Hc as (_ & ? & ? & ?)%conditions_lookup. eapply dumps_mono; [by apply match_dumps|]. eauto. }
  intros ? (js & Hjs & ->). eapply dumps_mono; [apply dumps_add, key_nil|]. intros ? ->. simpl.
  rewrite <-(conditions_length x r _ eq_refl H1 H2 H3) in Hjs. by apply positions in Hjs as ->.
Qed.

Lemma rule_dumps dir prio p x r :
  H.objs s !! p = Some (OVr x) → H.rules s !! (p, F_rule) = Some r → dumpable s →
  dumps (jsonify_rule dir prio p) (λ j, ∃ c, rule_is s dir prio p c ∧ j = rule_json c).
Proof.
  intros Hp Hr Hd. destruct (du_vr _ Hd _ _ _ Hp Hr) as ([nm Hnm] & _). unfold jsonify_rule.
  eapply dumps_or_err; [by eapply vr_dumps|]. intros ? ->. do 5 d_step. rewrite Hnm. do 2 d_step.
  apply dumps_ret. exists (RuleC dir prio nm (conditions x r)). split; [by exists x, r|done].
Qed.

(** A list of elements that each are the document of a content. *)
Lemma Forall2_content {A B} (R : A → B → Prop) (f : B → json) l js :
  Forall2 (λ a j, ∃ c, R a c ∧ j = f c) l js → ∃ cs, Forall2 R l cs ∧ js = f <$> cs.
Proof.
  induction 1 as [|a j l js (c & Hc & ->) _ (cs & Hcs & ->)].
  - exists []. done.
  - exists (c :: cs). split; [by constructor|done].
Qed.

Lemma prios_dumps dir prios arr : inv s → dumpable s →
  (∀ q, q ∈ prios → ∃ y, H.objs s !! q = Some (OVrPrio y)) →
  dumps (jsonify_prios dir prios arr) (λ arr', ∃ ll, Forall2 (prio_is s dir) prios ll ∧
    arr' = arr ++ (rule_json <$> concat ll)).
Proof.
  intros Hinv Hd. revert arr. induction prios as [|q prios IH]; intros arr Hq; simpl.
  { apply dumps_ret. exists []. split; [constructor|by rewrite app_nil_r]. }
  destruct (Hq q) as [y Hy]; [by left|]. d_step.
  destruct (rules_list s Hinv _ _ Hy) as (l & Hl & _ & _ & Hvr). apply dumps_list; [eauto|].
  eapply dumps_or_err.
  { apply (dumps_array _ (λ p j, ∃ c, rule_is s dir (VrPrio.prio_num y) p c ∧ j = rule_json c)).
    intros p Hp. unfold elems in Hp. rewrite Hl in Hp. destruct (Hvr p Hp) as [x Hx].
    destruct (inv_embedded s Hinv _ _ Hx) as [r Hr]. by eapply rule_dumps. }
  intros ? (js & (cs & Hcs & ->)%Forall2_content & ->).
  eapply dumps_mono; [apply IH; intros q' ?; apply Hq; by right|]. intros ? (ll & Hll & ->).
  exists (cs :: ll). split; [constructor; [by exists y|done]|]. simpl. by rewrite fmap_app, app_assoc.
Qed.

Lemma rate_dumps r : dumps (jsonify_lsdn_qos_rate r) (.= rate_json r).
Proof. unfold jsonify_lsdn_qos_rate. do 7 d_step. by apply dumps_ret. Qed.

Lemma pa_dumps a o : inv s → dumpable s → H.objs s !! a = Some (OPa o) →
  dumps (jsonify_pa a) (λ j, ∃ n, pa_phys s a n ∧ j = JString n).
Proof.
  intros Hinv Hd Ha. destruct (inv_refs s Hinv _ _ Ha) as [_ ([] & Hp & [] & _)].
  destruct (du_phys _ Hd _ _ Hp) as [n Hn]. unfold jsonify_pa. do 2 d_step. rewrite Hn.
  eapply dumps_mono; [apply dumps_string|]. intros ? ->. exists n. split; [|done]. by eexists _, _.
Qed.

Lemma virt_rules_dumps v x : inv s → dumpable s → H.objs s !! v = Some (OVirt x) →
  dumps (jsonify_lsdn_virt_rules v) (λ j, ∃ li lo, rules_are s "in" (Virt.ht_in_rules x) li ∧
    rules_are s "out" (Virt.ht_out_rules x) lo ∧ j = JArray (rule_json <$> li ++ lo)).
Proof.
  intros Hinv Hd Hv. destruct (inv_refs s Hinv _ _ Hv) as (_ & _ & Ht & _).
  assert (Hq : ∀ q, q ∈ tables (OVirt x) → ∃ y, H.objs s !! q = Some (OVrPrio y)).
  { intros q ([] & Hq & [])%Ht. eauto. }
  unfold jsonify_lsdn_virt_rules. do 2 d_step.
  eapply dumps_or_err; [apply (prios_dumps "in"); [done..|intros q ?; apply Hq; simpl; rewrite fmap_app, elem_of_app; by left]|].
  intros ? (li & Hli & ->).
  eapply dumps_or_err; [apply (prios_dumps "out"); [done..|intros q ?; apply Hq; simpl; rewrite fmap_app, elem_of_app; by right]|].
  intros ? (lo & Hlo & ->). apply dumps_ret. exists (concat li), (concat lo).
  split_and!; [by exists li|by exists lo|]. simpl. by rewrite fmap_app.
Qed.

Lemma option_content {A B} (R : A → B → Prop) (f : B → json) x j :
  option_Forall2 (λ a j, ∃ c, R a c ∧ j = f c) x j → ∃ c, option_Forall2 R x c ∧ j = f <$> c.
Proof.
  intros [a ? (c & Hc & ->)|]; [exists (Some c)|exists None]; (split; [by constructor|done]).
Qed.

Lemma virt_dumps v x : inv s → dumpable s → H.objs s !! v = Some (OVirt x) →
  dumps (jsonify_lsdn_virt v) (λ j, ∃ c, virt_is s v c ∧ j = virt_json c).
Proof.
  intros Hinv Hd Hv. destruct (inv_embedded s Hinv _ _ Hv) as [[i Hi] _].
  destruct (inv_refs s Hinv _ _ Hv) as (_ & Hth & _). unfold jsonify_lsdn_virt. do 2 d_step.
  d_if (λ n j, j = JString n); [intros; apply dumps_string|].
  d_if (λ m j, j = of_text (lsdn_mac_to_string m)); [intros; apply dumps_text|].
  d_if (λ a j, ∃ n, pa_phys s a n ∧ j = JString n).
  { intros a ([] & Ha & ?)%Hth; try done. by eapply pa_dumps. }
  d_step. d_if (λ n j, j = JString n); [intros; apply dumps_string|].
  eapply dumps_or_err; [by eapply virt_rules_dumps|]. intros ? (li & lo & Hli & Hlo & ->). d_step.
  d_if (λ r j, j = rate_json r); [intros; apply rate_dumps|].
  d_if (λ r j, j = rate_json r); [intros; apply rate_dumps|].
  apply dumps_ret. apply option_content in Hopt1 as (ph & Hph & ->).
  apply option_fn in Hopt as ->, Hopt0 as ->, Hopt2 as ->, Hopt3 as ->, Hopt4 as ->.
  exists (VirtC (Virt.name x) (Virt.attr_mac x) ph (If.ifname i) (li ++ lo) (Virt.attr_rate_in x) (Virt.attr_rate_out x)).
  split; [by exists x, i, li, lo|]. unfold virt_json. simpl. by rewrite <-!app_assoc.
Qed.

Lemma net_dumps n x : inv s → dumpable s → H.objs s !! n = Some (ONet x) →
  dumps (jsonify_lsdn_net n) (λ j, ∃ c, net_is s n c ∧ j = net_json c).
Proof.
  intros Hinv Hd Hn. destruct (inv_refs s Hinv _ _ Hn) as [_ ([] & Ht & Hk & _)]; try done. clear Hk.
  destruct (du_settings _ Hd _ _ Ht) as [[nm Hnm] _]. unfold jsonify_lsdn_net. do 2 d_step.
  d_if (λ n j, j = JString n); [intros; apply dumps_string|]. d_step. rewrite Hnm. do 5 d_step.
  destruct (attached_list s Hinv _ _ Hn) as (la & Hla & Ha). apply dumps_list; [eauto|].
  eapply dumps_or_err.
  { apply (dumps_array _ (λ a j, ∃ n, pa_phys s a n ∧ j = JString n)). unfold elems. rewrite Hla.
    intros a (o & Ho & _)%Ha. by eapply pa_dumps. }
  intros ? (js & (ps & Hps & ->)%Forall2_content & ->). do 2 d_step.
  destruct (virt_list s Hinv _ _ Hn) as (lv & Hlv & Hv). apply dumps_list; [eauto|].
  eapply dumps_or_err.
  { apply (dumps_array _ (λ v j, ∃ c, virt_is s v c ∧ j = virt_json c)). unfold elems. rewrite Hlv.
    intros v (y & Hy & _)%Hv. by eapply virt_dumps. }
  intros ? (js & (vs & Hvs & ->)%Forall2_content & ->). d_step. apply dumps_ret.
  apply option_fn in Hopt as ->. exists (NetC (Net.name x) nm (Net.vnet_id x) ps vs).
  split; [by eexists x, _|]. unfold net_json. simpl. by rewrite <-!app_assoc.
Qed.

(** The context with its three lists. *)
Lemma list_dumps o k h f (R : ptr → json → Prop) :
  k ∉ o.*1 → is_Some (H.lists s !! h) → (∀ p, p ∈ elems s h → dumps (f p) (R p)) →
  dumps (jsonify_list o k h f) (λ o', ∃ js, Forall2 R (elems s h) js ∧ o' = o ++ [(k, JArray js)]).
Proof.
  intros Hk Hh Hf. unfold jsonify_list. d_step. apply dumps_list; [done|].
  eapply dumps_or_err; [by apply dumps_array|]. intros ? (js & Hjs & ->).
  eapply dumps_mono; [by apply dumps_add|]. eauto.
Qed.

Lemma context_dumps ctx c : inv s → dumpable s → H.objs s !! ctx = Some (OCtx c) →
  dumps (jsonify_context ctx) (λ j, ∃ ct, describes s ctx ct ∧ j = content_json ct).
Proof.
  intros Hinv Hd Hc. unfold jsonify_context. do 4 d_step.
  destruct (settings_list s Hinv ctx) as (ls & Hls & Hs); [eauto|].
  destruct (phys_list s Hinv ctx) as (lp & Hlp & Hp); [eauto|].
  destruct (nets_list s Hinv ctx) as (ln & Hln & Hn); [eauto|].
  eapply dumps_or_err; [apply (list_dumps _ _ _ _ (λ p j, ∃ c, settings_is s p c ∧ j = settings_json c));
    [solve [eauto 20 with keys nocore]|eauto|]|].
  { unfold elems. rewrite Hls. intros p (x & Hx & _)%Hs. by eapply settings_dumps. }
  intros ? (js & (cs & Hcs & ->)%Forall2_content & ->).
  eapply dumps_or_err; [apply (list_dumps _ _ _ _ (λ p j, ∃ c, phys_is s p c ∧ j = phys_json c));
    [solve [eauto 20 with keys nocore]|eauto|]|].
  { unfold elems. rewrite Hlp. intros p (x & Hx & _)%Hp. by eapply phys_dumps. }
  intros ? (js & (cp & Hcp & ->)%Forall2_content & ->).
  eapply dumps_or_err; [apply (list_dumps _ _ _ _ (λ p j, ∃ c, net_is s p c ∧ j = net_json c));
    [solve [eauto 20 with keys nocore]|eauto|]|].
  { unfold elems. rewrite Hln. intros p (x & Hx & _)%Hn. by eapply net_dumps. }
  intros ? (js & (cn & Hcn & ->)%Forall2_content & ->). apply dumps_ret.
  exists (Content (Ctx.name c) cs cp cn). split; [by exists c|done].
Qed.

Lemma dump_json_dumps ctx c : inv s → dumpable s → H.objs s !! ctx = Some (OCtx c) →
  dumps (lsdn_dump_context_json ctx)
    (λ str, ∃ ct, describes s ctx ct ∧ str = json_object_to_json_string_ext (content_json ct)).
Proof.
  intros Hinv Hd Hc. unfold lsdn_dump_context_json. eapply answers_bind.
  { eapply dumps_or_err; [by eapply context_dumps|]. intros ? (ct & Hct & ->). d_step.
    eapply dumps_mono; [apply dumps_new|]. intros ? ->.
    instantiate (1 := λ str, ∃ ct, describes s ctx ct ∧ str = json_object_to_json_string_ext (content_json ct)).
    simpl. eauto. }
  intros ? (str & -> & Hstr). simpl. by apply dumps_ret.
Qed.
End json.
