(* ===== verification/DumpTcl.v ===== *)
(** * The script of a dump

    The text of [lsdn_dump_context_tcl] read as Tcl reads it, line by line and word by word:
    with enough memory, names without blanks and no partial masks of MAC addresses, it is the
    script of commands that says what the model holds. *)

From Stdlib Require Import ZArith Lia.
From stdpp Require Import base list gmap strings pretty.
From S2P Require Import Prelude.
From S2P Require Import Float.
From S2P Require Import Status.
From S2P Require Import Nettypes.
From S2P Require Import Heap.
From S2P Require Import Base.
From S2P Require Import Wp.
From S2P Require Import Model.
From S2P Require Import Dump.
From S2P Require Import Inv.
From S2P Require Import Api.
From S2P Require Import Valid.
From S2P Require Import DumpSpec.

Local Open Scope string_scope.
Local Open Scope list_scope.
Local Open Scope Z_scope.

(** ** Words and lines *)

Notation chars := String.list_ascii_of_string.

(** The lines that are complete, the words of the current line, the current word. *)
Definition lexer : Type := list (list string) * list string * cstring.

Definition end_word (W : list string) (w : cstring) : list string :=
  match w with [] => W | _ => W ++ [String.string_of_list_ascii w] end.
Definition lex_char (st : lexer) (c : Ascii.ascii) : lexer :=
  let '(L, W, w) := st in
  if bool_decide (c = Ascii.ascii_of_nat 10) then (L ++ [end_word W w], [], [])
  else if blank c then (L, end_word W w, [])
  else (L, W, w ++ [c]).
Definition lex (st : lexer) (str : string) : lexer := foldl lex_char st (chars str).

(** The lines of a text, as lists of words. *)
Definition tcl_lines (str : string) : list (list string) := (lex ([], [], []) str).1.1.

Lemma chars_app a b : chars (a +:+ b) = chars a ++ chars b.
Proof. induction a as [|c a IH]; simpl; [done|]. by rewrite IH. Qed.
Lemma text_app_assoc a b c : a +:+ (b +:+ c) = (a +:+ b) +:+ c.
Proof. induction a as [|x a IH]; [done|]. cbn. apply (f_equal (String.String x)), IH. Qed.
Lemma lex_app st a b : lex st (a +:+ b) = lex (lex st a) b.
Proof. unfold lex. by rewrite chars_app, foldl_app. Qed.

Definition no_blank (w : string) : Prop := Forall (λ c, blank c = false) (chars w).

Lemma no_blank_app a b : no_blank a → no_blank b → no_blank (a +:+ b).
Proof. unfold no_blank. rewrite chars_app. apply Forall_app_2. Qed.

Lemma lex_word L W w str : no_blank str → lex (L, W, w) str = (L, W, w ++ chars str).
Proof.
  unfold lex, no_blank. revert w. induction (chars str) as [|c l IH]; intros w Hl; simpl; [by rewrite app_nil_r|].
  apply Forall_cons in Hl as [Hc Hl]. rewrite bool_decide_false, Hc; [|by intros ->].
  rewrite IH by done. by rewrite <-app_assoc.
Qed.
Lemma lex_blank L W w : lex (L, W, w) " " = (L, end_word W w, []).
Proof. done. Qed.
Lemma lex_tab L W w : lex (L, W, w) tab = (L, end_word W w, []).
Proof. done. Qed.
Lemma lex_newline L W w : lex (L, W, w) newline = (L ++ [end_word W w], [], []).
Proof. done. Qed.
Lemma end_plain W str : plain str → end_word W (chars str) = W ++ [str].
Proof.
  intros [Hne _]. rewrite <-(String.string_of_list_ascii_of_string str) at 2.
  by destruct str as [|c str].
Qed.

(** ** Words without blanks *)

Lemma pretty_go_chars (P : Ascii.ascii → Prop) x acc :
  (∀ n, P (pretty_N_char n)) → Forall P (chars acc) → Forall P (chars (pretty_N_go x acc)).
Proof.
  intros HP. revert acc. induction (N.lt_wf_0 x) as [x _ IH]; intros acc Hacc.
  destruct (decide (x = 0)%N) as [->|Hx]; [by rewrite pretty_N_go_0|].
  rewrite pretty_N_go_step by lia. apply IH; [by apply N.div_lt; lia|]. by apply Forall_cons.
Qed.
Lemma pretty_go_blank x acc : no_blank acc → no_blank (pretty_N_go x acc).
Proof. apply pretty_go_chars. intros n. unfold pretty_N_char. by repeat case_match. Qed.
Lemma pretty_go_ne x acc : acc ≠ "" → pretty_N_go x acc ≠ "".
Proof.
  revert acc. induction (N.lt_wf_0 x) as [x _ IH]; intros acc Hacc.
  destruct (decide (x = 0)%N) as [->|Hx]; [by rewrite pretty_N_go_0|].
  rewrite pretty_N_go_step by lia. apply IH; [by apply N.div_lt; lia|done].
Qed.
Lemma plain_N (x : N) : plain (pretty x).
Proof.
  unfold pretty, pretty_N. destruct (decide (x = 0)%N) as [->|Hx]; [split; [done|by repeat constructor]|].
  split; [|by apply pretty_go_blank; constructor].
  rewrite pretty_N_go_step by lia. by apply pretty_go_ne.
Qed.
Lemma plain_Z (x : Z) : plain (pretty x).
Proof.
  destruct x as [|p|p]; [split; [done|by repeat constructor]|apply (plain_N (N.pos p))|].
  destruct (plain_N (N.pos p)) as [_ Hp]. split; [done|]. simpl. by constructor.
Qed.

Definition blankless (c : Ascii.ascii) : Prop := blank c = false.
Lemma byte_blankless b : byte b → Forall blankless (hex2 b) ∧ Forall blankless (dec b) ∧ dec b ≠ [].
Proof.
  revert b. apply byte_ind. apply (bool_decide_unpack (Forall (λ b, _ ∧ _ ∧ _) _)). vm_compute. exact I.
Qed.
Lemma sep_blankless s l : Forall blankless s → Forall (Forall blankless) l → Forall blankless (sep s l).
Proof.
  intros Hs. induction 1 as [|x l Hx Hl IH]; [constructor|]. destruct l as [|y l]; [done|].
  change (sep s (x :: y :: l)) with (x ++ s ++ sep s (y :: l)). by repeat apply Forall_app_2.
Qed.
Lemma mac_blankless mac : Forall byte mac → Forall blankless (lsdn_mac_to_string mac).
Proof.
  intros Hm. apply sep_blankless; [by repeat constructor|]. apply Forall_fmap.
  eapply Forall_impl; [exact Hm|]. intros b Hb. by apply byte_blankless.
Qed.
Lemma ipv4_blankless l : Forall byte l → Forall blankless (lsdn_ipv4_to_string l).
Proof.
  intros Hm. apply sep_blankless; [by repeat constructor|]. apply Forall_fmap.
  eapply Forall_impl; [exact Hm|]. intros b Hb. by apply byte_blankless.
Qed.
Lemma ipv6_blankless l : Forall byte l → Forall blankless (lsdn_ipv6_to_string l).
Proof.
  intros Hm. apply sep_blankless; [by repeat constructor|]. apply Forall_forall.
  intros x (a & b & -> & Ha & Hb)%elem_of_groups. rewrite Forall_forall in Hm.
  apply Forall_app_2; by apply byte_blankless, Hm.
Qed.

Lemma plain_text l : l ≠ [] → Forall blankless l → plain (String.string_of_list_ascii l).
Proof.
  intros Hne Hl. split; [by destruct l|]. by rewrite String.list_ascii_of_string_of_list_ascii.
Qed.
Lemma plain_mac mac : mac_ok mac → plain (String.string_of_list_ascii (lsdn_mac_to_string mac)).
Proof.
  intros [Hlen Hm]. apply plain_text; [|by apply mac_blankless]. by destruct mac as [|? [|? ?]].
Qed.
Lemma plain_ip ip : ip_ok ip → plain (String.string_of_list_ascii (lsdn_ip_to_string ip)).
Proof.
  destruct ip as [[] l]; intros [Hlen Hm]; unfold lsdn_ip_to_string; simpl in *; apply plain_text.
  - destruct l as [|x [|y l]]; try done. unfold lsdn_ipv4_to_string. simpl. apply Forall_cons in Hm as [Hx _].
    destruct (byte_blankless _ Hx) as (_ & _ & Hne). by destruct (dec x).
  - by apply ipv4_blankless.
  - by destruct l as [|? [|? [|? [|? ?]]]].
  - by apply ipv6_blankless.
Qed.

(** ** The script of a content *)

Section script.
Context {J : JsonC}.

Definition opt_words (opt : string) (w : option string) : list string :=
  match w with Some w => [opt; w] | None => [] end.
Definition ip_text (ip : lsdn_ip_t) : string := String.string_of_list_ascii (lsdn_ip_to_string ip).
Definition mac_text (mac : lsdn_mac_t) : string := String.string_of_list_ascii (lsdn_mac_to_string mac).

Definition settings_words (c : settings_content) : list string :=
  ["settings"; kind_word (sc_kind c); "-name"; sc_name c] ++ opt_words "-port" (pretty <$> sc_port c) ++
  opt_words "-mcastIp" (ip_text <$> sc_ip c).

Definition phys_lines (c : phys_content) : list (list string) :=
  [["phys"; "-name"; pc_name c] ++ opt_words "-ip" (ip_text <$> pc_ip c) ++ opt_words "-if" (pc_iface c)] ++
  (if pc_local c then [["claimLocal"; pc_name c]] else []).

(** A match condition as lsctl takes it: an option, and an address with the mask after a slash. A
    condition on a MAC address has no mask in a script, so this is only what the condition says
    if its mask is full, see [condition_ok]. *)
Definition match_option (t : lsdn_rule_target) : string :=
  match t with
  | LSDN_MATCH_SRC_MAC => "-srcMac"
  | LSDN_MATCH_DST_MAC => "-dstMac"
  | LSDN_MATCH_SRC_IPV4 | LSDN_MATCH_SRC_IPV6 => "-srcIp"
  | _ => "-dstIp"
  end.
Definition ones (l : list Z) : Z := foldl (λ n b, n + byte_ones b) 0 l.
Definition mask_text (ip : lsdn_ip_t) : string :=
  if lsdn_ip_mask_is_prefix ip then pretty (ones (ip_bytes ip)) else ip_text ip.
Definition condition_words (c : condition) : list string :=
  let '(t, value, mask) := c in
  [match_option t;
   match match_ipv t with
   | Some iv => ip_text (Ip iv (take (ip_len iv) value)) +:+ "/" +:+ mask_text (Ip iv (take (ip_len iv) mask))
   | None => mac_text (take LSDN_MAC_LEN value)
   end].

Definition rule_words (c : rule_content) : list string :=
  ["rule"; rc_dir c; pretty (rc_prio c); rc_action c] ++ concat (condition_words <$> rc_conditions c).

Definition rate_words (dir : string) (r : lsdn_qos_rate_t) : list string :=
  ["rate"; dir; "-avg"; json_object_get_string (JDouble (f64_of_f32 (avg_rate r))); "-burst"; pretty (burst_size r);
   "-burstRate"; json_object_get_string (JDouble (f64_of_f32 (burst_rate r)))].

Definition opt_lines {A} (f : A → list string) (x : option A) : list (list string) :=
  match x with Some x => [f x] | None => [] end.

Definition virt_lines (c : virt_content) : list (list string) :=
  [["virt"] ++ opt_words "-name" (vc_name c) ++ opt_words "-mac" (mac_text <$> vc_mac c) ++
   opt_words "-phys" (vc_phys c) ++ opt_words "-if" (vc_iface c) ++ ["{"]] ++
  (rule_words <$> vc_rules c) ++ opt_lines (rate_words "in") (vc_rate_in c) ++
  opt_lines (rate_words "out") (vc_rate_out c) ++ [["}"]].

Definition net_lines (c : net_content) : list (list string) :=
  [["net"; "-vid"; pretty (nc_vnet_id c); "-settings"; nc_settings c;
    default (pretty (nc_vnet_id c)) (nc_name c); "{"]] ++
  ((λ n, ["attach"; n]) <$> nc_physes c) ++ concat (virt_lines <$> nc_virts c) ++ [["}"]].

Definition script (c : content) : list (list string) :=
  [["namespace"; "import"; "lsdn::*"]] ++ (settings_words <$> c_settings c) ++
  concat (phys_lines <$> c_physes c) ++ concat (net_lines <$> c_nets c).
End script.

(** ** Contents that can be printed *)

Definition condition_ok (c : condition) : Prop :=
  let '(t, value, mask) := c in
  t ∈ [LSDN_MATCH_SRC_MAC; LSDN_MATCH_DST_MAC; LSDN_MATCH_SRC_IPV4; LSDN_MATCH_DST_IPV4;
       LSDN_MATCH_SRC_IPV6; LSDN_MATCH_DST_IPV6] ∧
  bytes_ok LSDN_MAX_MATCH_LEN value ∧ bytes_ok LSDN_MAX_MATCH_LEN mask ∧
  (match_ipv t = None → take LSDN_MAC_LEN mask = replicate LSDN_MAC_LEN 255).

(** Names have no blanks, addresses are addresses, and the conditions of rules are those the
    API makes; those on a MAC address ask for the whole of it, since a script cannot say more. *)
Record printable (s : heap) : Prop := {
  pr_settings p x : H.objs s !! p = Some (OSettings x) →
    (∀ n, Settings.name x = Some n → plain n) ∧ (∀ ip, Settings.mcast_ip x = Some ip → ip_ok ip);
  pr_phys p x : H.objs s !! p = Some (OPhys x) → (∀ n, Phys.name x = Some n → plain n) ∧
    (∀ ip, Phys.attr_ip x = Some ip → ip_ok ip) ∧ (∀ i, Phys.attr_iface x = Some i → plain i);
  pr_net p x : H.objs s !! p = Some (ONet x) → ∀ n, Net.name x = Some n → plain n;
  pr_virt p x : H.objs s !! p = Some (OVirt x) → (∀ n, Virt.name x = Some n → plain n) ∧
    (∀ m, Virt.attr_mac x = Some m → mac_ok m) ∧
    (∀ i n, H.ifs s !! (p, F_connected_if) = Some i → If.ifname i = Some n → plain n);
  pr_vr p x r : H.objs s !! p = Some (OVr x) → H.rules s !! (p, F_rule) = Some r →
    (∀ n, a_name (Rule.action r) = Some n → plain n) ∧ Forall condition_ok (conditions x r) }.

Definition opt_ok {A} (P : A → Prop) (x : option A) : Prop := ∀ a, x = Some a → P a.
Definition settings_ok (c : settings_content) : Prop := plain (sc_name c) ∧ opt_ok ip_ok (sc_ip c).
Definition phys_ok (c : phys_content) : Prop := plain (pc_name c) ∧ opt_ok ip_ok (pc_ip c) ∧ opt_ok plain (pc_iface c).
Definition rule_ok (c : rule_content) : Prop := plain (rc_dir c) ∧ plain (rc_action c) ∧ Forall condition_ok (rc_conditions c).
Definition virt_ok (c : virt_content) : Prop := opt_ok plain (vc_name c) ∧ opt_ok mac_ok (vc_mac c) ∧
  opt_ok plain (vc_phys c) ∧ opt_ok plain (vc_iface c) ∧ Forall rule_ok (vc_rules c).
Definition net_ok (c : net_content) : Prop := opt_ok plain (nc_name c) ∧ plain (nc_settings c) ∧
  Forall plain (nc_physes c) ∧ Forall virt_ok (nc_virts c).
Definition content_ok (c : content) : Prop :=
  Forall settings_ok (c_settings c) ∧ Forall phys_ok (c_physes c) ∧ Forall net_ok (c_nets c).

(** A literal word. *)
Ltac lit := split; [discriminate|repeat (constructor; [reflexivity|]); constructor].
Create HintDb words.
#[export] Hint Extern 2 (plain _) => lit : words.

Section printable.
Context (s : heap) (Hp : printable s).

Lemma Forall2_ok {A B} (R : A → B → Prop) (P : B → Prop) l l' :
  Forall2 R l l' → (∀ a b, R a b → P b) → Forall P l'.
Proof. induction 1; constructor; eauto. Qed.

Lemma settings_is_ok p c : settings_is s p c → settings_ok c.
Proof.
  intros (x & Hx & Hn & _ & _ & Hi). destruct (pr_settings s Hp _ _ Hx) as [H1 H2]. split; [by apply H1|].
  intros ip. rewrite Hi. destruct (sc_kind c); first [apply H2|done].
Qed.
Lemma phys_is_ok p c : phys_is s p c → phys_ok c.
Proof.
  intros (x & Hx & Hn & Hi & Hf & _). destruct (pr_phys s Hp _ _ Hx) as (H1 & H2 & H3).
  split_and!; [by apply H1|by rewrite Hi|by rewrite Hf].
Qed.
Lemma pa_phys_ok a n : pa_phys s a n → plain n.
Proof. intros (o & p & _ & Hx & Hn). destruct (pr_phys s Hp _ _ Hx) as [H1 _]. by apply H1. Qed.
Lemma rules_are_ok dir prios l : plain dir → rules_are s dir prios l → Forall rule_ok l.
Proof.
  intros Hd (ll & Hll & ->). apply Forall_concat. eapply Forall2_ok; [exact Hll|].
  intros q cs (y & _ & Hcs). eapply Forall2_ok; [exact Hcs|]. intros p c (x & r & Hx & Hr & Hdir & _ & Ha & Hc).
  destruct (pr_vr s Hp _ _ _ Hx Hr) as [H1 H2]. split_and!; [by rewrite Hdir|by apply H1|by rewrite Hc].
Qed.
Lemma virt_is_ok v c : virt_is s v c → virt_ok c.
Proof.
  intros (x & i & li & lo & Hx & Hi & Hn & Hm & Hph & Hif & Hli & Hlo & Hr & _).
  destruct (pr_virt s Hp _ _ Hx) as (H1 & H2 & H3). split_and!.
  - by rewrite Hn.
  - by rewrite Hm.
  - intros n Hvp. rewrite Hvp in Hph. inversion Hph; subst. by eapply pa_phys_ok.
  - intros n. rewrite Hif. by apply H3.
  - rewrite Hr. apply Forall_app_2; (eapply rules_are_ok; [|eassumption]; lit).
Qed.
Lemma net_is_ok n c : net_is s n c → net_ok c.
Proof.
  intros (x & t & Hx & Ht & Hn & Hs & _ & Hps & Hvs). split_and!.
  - intros nm. rewrite Hn. by apply (pr_net s Hp _ _ Hx).
  - destruct (pr_settings s Hp _ _ Ht) as [H1 _]. by apply H1.
  - eapply Forall2_ok; [exact Hps|]. apply pa_phys_ok.
  - eapply Forall2_ok; [exact Hvs|]. apply virt_is_ok.
Qed.
Lemma describes_ok ctx c : describes s ctx c → content_ok c.
Proof.
  intros (x & _ & _ & H1 & H2 & H3). split_and!; (eapply Forall2_ok; [eassumption|]).
  - apply settings_is_ok.
  - apply phys_is_ok.
  - apply net_is_ok.
Qed.
End printable.

(** ** The documents are well-formed *)

Lemma keys_nil : NoDup ([] : jmembers).*1.
Proof. constructor. Qed.
Lemma keys_cons k j (l : jmembers) : k ∉ l.*1 → NoDup l.*1 → NoDup ((k, j) :: l).*1.
Proof. by constructor. Qed.
Lemma keys_member k j (l : jmembers) : k ∉ l.*1 → NoDup l.*1 → NoDup (member k j ++ l).*1.
Proof. destruct j; [apply keys_cons|done]. Qed.
Lemma keys_last k j : NoDup (member k j).*1.
Proof. rewrite <-(app_nil_r (member k j)). apply keys_member; [apply key_nil|apply keys_nil]. Qed.
Ltac nodup_keys :=
  cbn [app]; repeat first
    [apply keys_cons; [solve [eauto 20 with keys nocore]|] | apply keys_member; [solve [eauto 20 with keys nocore]|]
    | apply keys_last | apply keys_nil].

Lemma wf_array l : Forall json_wf l → json_wf (JArray l).
Proof. simpl. induction 1; [done|]. by split. Qed.
Lemma wf_object (l : jmembers) : NoDup l.*1 → Forall json_wf l.*2 → json_wf (JObject l).
Proof.
  intros Hk Hl. split; [done|]. clear Hk. induction l as [|[k j] l IH]; [done|].
  apply Forall_cons in Hl as [Hj Hl]. split; [exact Hj|by apply IH].
Qed.
Lemma wf_map {A} (f : A → json) l : (∀ x, json_wf (f x)) → json_wf (JArray (f <$> l)).
Proof. intros Hf. apply wf_array, Forall_fmap, Forall_true. done. Qed.
Lemma wf_members_cons k j (l : jmembers) : json_wf j → Forall json_wf l.*2 → Forall json_wf ((k, j) :: l).*2.
Proof. by constructor. Qed.
Lemma wf_member {A} k (f : A → json) x : (∀ a, json_wf (f a)) → Forall json_wf (member k (f <$> x)).*2.
Proof. intros Hf. destruct x; simpl; repeat constructor. apply Hf. Qed.
Lemma wf_members_app (l l' : jmembers) : Forall json_wf l.*2 → Forall json_wf l'.*2 → Forall json_wf (l ++ l').*2.
Proof. rewrite fmap_app. apply Forall_app_2. Qed.

(** Takes a list of members apart. *)
Ltac wf_members :=
  repeat first [apply wf_members_app | apply wf_members_cons | apply wf_member; intros ? | apply Forall_nil_2 | done].

Lemma settings_wf c : json_wf (settings_json c).
Proof. apply wf_object; [nodup_keys|wf_members]. Qed.
Lemma phys_wf c : json_wf (phys_json c).
Proof. apply wf_object; [nodup_keys|wf_members]. Qed.
Lemma condition_wf c : json_wf (condition_json c).
Proof. destruct c as [[t value] mask]. apply wf_object; [nodup_keys|wf_members]. Qed.
Lemma rule_wf c : json_wf (rule_json c).
Proof. apply wf_object; [nodup_keys|wf_members]. apply wf_map, condition_wf. Qed.
Lemma rate_wf c : json_wf (rate_json c).
Proof. apply wf_object; [nodup_keys|wf_members]. Qed.
Lemma virt_wf c : json_wf (virt_json c).
Proof.
  apply wf_object; [nodup_keys|wf_members]; [apply wf_map, rule_wf|apply rate_wf..].
Qed.
Lemma net_wf c : json_wf (net_json c).
Proof. apply wf_object; [nodup_keys|wf_members]; apply wf_map; [done|apply virt_wf]. Qed.
Lemma content_wf c : json_wf (content_json c).
Proof.
  apply wf_object; [nodup_keys|wf_members]; apply wf_map; [apply settings_wf|apply phys_wf|apply net_wf].
Qed.

(** ** Writing *)

Section tcl.
Context {J : JsonC} {JL : JsonCLaws J} (s : heap) (Hmem : mem_ok s).

Lemma get_ex_wf (l : jmembers) k : json_wf (JObject l) → get_ex (JObject l) k = assoc k l.
Proof. intros [Hk _]. by apply get_ex_assoc. Qed.

Definition at_ (d : dump_ctx) (ind : nat) (st : lexer) : Prop :=
  indent d = ind ∧ d_state d = 0 ∧ lex ([], [], []) (buf d) = st.
(** Lines [L] are written, and words [W] of the next one. *)
Definition line (d : dump_ctx) (ind : nat) (L : list (list string)) (W : list string) : Prop :=
  at_ d ind (L, W, []).

(** Goes on after a step that was specified. *)
Tactic Notation "after" uconstr(t) simple_intropattern(d) simple_intropattern(H) :=
  eapply answers_bind; [eapply t; auto with words|cbn beta; intros d H].

Lemma append_str_spec d ind st str : at_ d ind st →
  answers s (dump_ctx_append_str str d) (λ d', at_ d' ind (lex st str)).
Proof.
  intros (Hi & Hst & Hl) n. unfold dump_ctx_append_str. rewrite Hst. simpl.
  rewrite wp_bind, wp_try_alloc, wp_ret. simpl. rewrite Hmem. split; [by exists (S n)|].
  split_and!; [done..|]. simpl. by rewrite lex_app, Hl.
Qed.
Lemma append_spec d ind L W ws : line d ind L W → Forall plain ws →
  answers s (dump_ctx_append (Some <$> ws) d) (λ d', line d' ind L (W ++ ws)).
Proof.
  intros Hd Hws. revert d W Hd. induction Hws as [|w ws Hw _ IH]; intros d W Hd; simpl.
  { apply answers_ret. by rewrite app_nil_r. }
  after (append_str_spec _ _ _ _ Hd) d1 Hd1. after (append_str_spec _ _ _ _ Hd1) d2 Hd2. destruct Hw as [Hne Hb]. rewrite lex_word, app_nil_l, lex_blank, end_plain in Hd2 by done.
  eapply answers_mono; [by apply IH|]. intros d'. by rewrite <-app_assoc.
Qed.
Lemma append1 d ind L W w : line d ind L W → plain w →
  answers s (dump_ctx_append [Some w] d) (λ d', line d' ind L (W ++ [w])).
Proof. intros Hd Hw. apply (append_spec _ _ _ _ [w] Hd). repeat apply Forall_cons_2; try done. Qed.
Lemma append2 d ind L W w w' : line d ind L W → plain w → plain w' →
  answers s (dump_ctx_append [Some w; Some w'] d) (λ d', line d' ind L (W ++ [w; w'])).
Proof. intros Hd Hw Hw'. apply (append_spec _ _ _ _ [w; w'] Hd). repeat apply Forall_cons_2; try done. Qed.
Lemma start_line_spec d ind L : line d ind L [] → answers s (dump_ctx_start_line d) (λ d', line d' ind L []).
Proof.
  intros Hd. unfold dump_ctx_start_line. generalize (indent d). intros n. revert d Hd.
  induction n as [|n IH]; intros d Hd; simpl; [by apply answers_ret|].
  after (append_str_spec _ _ _ _ Hd) d1 Hd1. by apply IH.
Qed.
Lemma end_line_spec d ind L W : line d ind L W → answers s (dump_ctx_end_line d) (λ d', line d' ind (L ++ [W]) []).
Proof. apply append_str_spec. Qed.

Lemma answers_deref {A B} (a : A) (k : A → M heap B) Q : answers s (k a) Q → answers s (x ← deref (Some a); k x) Q.
Proof. intros Hk n. rewrite wp_bind, wp_deref. eauto. Qed.

Lemma concat_single {A B} (f : A → B) l : concat ((λ x, [f x]) <$> l) = f <$> l.
Proof. induction l as [|x l IH]; [done|]. by rewrite !fmap_cons, <-IH. Qed.

(** A loop over an array, with what holds after each element. *)
Lemma for_each_spec {A} (body : json → dump_ctx → M heap (Z * dump_ctx)) (f : A → json)
    (I : dump_ctx → list A → Prop) cs d :
  (∀ x l d, x ∈ cs → I d l → answers s (body (f x) d) (λ r, r.1 = 0 ∧ I r.2 (l ++ [x]))) →
  I d [] → answers s (for_each body (f <$> cs) d) (λ r, r.1 = 0 ∧ I r.2 cs).
Proof.
  intros Hb. assert (∀ cs1 cs2 d, cs = cs1 ++ cs2 → I d cs1 →
    answers s (for_each body (f <$> cs2) d) (λ r, r.1 = 0 ∧ I r.2 cs)) as H; [|by apply (H [])].
  intros cs1 cs2. revert cs1. induction cs2 as [|x cs2 IH]; intros cs1 d' Hcs HI; simpl.
  { apply answers_ret. by rewrite Hcs, app_nil_r. }
  eapply answers_bind; [apply Hb; [|done]; rewrite Hcs; set_solver|]. intros [z d1] [Hz HI1]. simpl in *. subst z.
  simpl. apply (IH (cs1 ++ [x])); [|done]. by rewrite <-app_assoc.
Qed.

(** The case that each element writes lines of its own. *)
Lemma for_each_lines {A} body (f : A → json) (lines : A → list (list string)) cs d ind L :
  (∀ x L d, x ∈ cs → line d ind L [] →
     answers s (body (f x) d) (λ r, r.1 = 0 ∧ line r.2 ind (L ++ lines x) [])) →
  line d ind L [] → answers s (for_each body (f <$> cs) d) (λ r, r.1 = 0 ∧ line r.2 ind (L ++ concat (lines <$> cs)) []).
Proof.
  intros Hb Hd. apply (for_each_spec body f (λ d l, line d ind (L ++ concat (lines <$> l)) [])).
  - intros x l d' Hx Hd'. eapply answers_mono; [by apply Hb|]. intros r. 
    by rewrite fmap_app, concat_app, <-app_assoc; simpl; rewrite app_nil_r.
  - simpl. by rewrite app_nil_r.
Qed.

#[local] Hint Resolve get_string_double plain_ip plain_mac plain_Z : words.

(** An option whose value is printed from a part of the content. *)
Lemma append_opt_of {A} d ind L W opt j k (f : A → json) (g : A → string) x :
  line d ind L W → plain opt → get_ex j k = f <$> x →
  (∀ a, x = Some a → get_string (Some (f a)) = Some (g a) ∧ plain (g a)) →
  answers s (append_opt opt j k d) (λ d', line d' ind L (W ++ opt_words opt (g <$> x))).
Proof.
  intros Hd Ho Hj Hx. unfold append_opt. rewrite Hj. destruct x as [a|].
  - destruct (Hx a) as [Hg Hw]; [done|]. cbn -[dump_ctx_append get_string]. rewrite Hg. by apply append2.
  - apply answers_ret. by rewrite app_nil_r.
Qed.
Lemma get_JString w : get_string (Some (JString w)) = Some w.
Proof. simpl. by rewrite get_string_string. Qed.
Lemma get_of_text str : get_string (Some (of_text str)) = Some (String.string_of_list_ascii str).
Proof. apply get_JString. Qed.
Lemma get_JInt n : get_string (Some (JInt n)) = Some (pretty n).
Proof. simpl. by rewrite get_string_int. Qed.

(** Looks a member of a document up. *)
Ltac key wf opts :=
  match goal with |- get_ex (?f ?c) _ = _ => unfold f; rewrite get_ex_wf by apply (wf c) end; opts; reflexivity.

Lemma settings_line_spec c d ind L : settings_ok c → line d ind L [] →
  answers s (settings_line (settings_json c) d) (λ r, r.1 = 0 ∧ line r.2 ind (L ++ [settings_words c]) []).
Proof.
  intros (Hn & Hip) Hd. unfold settings_line.
  assert (Ht : plain (kind_word (sc_kind c))) by (destruct (sc_kind c); lit).
  after (answers_ret s tt (λ _, True) I) u Hu. after (start_line_spec _ _ _ Hd) d1 Hd1.
  after (append1 _ _ _ _ "settings" Hd1) d2 Hd2.
  assert (get_ex (settings_json c) "settingsType" = Some (JString (kind_word (sc_kind c)))) as ->
    by key settings_wf ltac:(destruct (sc_port c), (sc_ip c)).
  after (answers_ret s (JString (kind_word (sc_kind c))) (.= JString (kind_word (sc_kind c))) eq_refl) ? ->.
  rewrite get_JString. after (append1 _ _ _ _ _ Hd2) d3 Hd3.
  after (append_opt_of _ _ _ _ "-name" _ "settingsName" JString id (Some (sc_name c)) Hd3) d4 Hd4.
  { key settings_wf ltac:(destruct (sc_port c), (sc_ip c)). }
  { intros a [= <-]. by rewrite get_JString. }
  after (append_opt_of _ _ _ _ "-port" _ "port" JInt pretty (sc_port c) Hd4) d5 Hd5.
  { key settings_wf ltac:(destruct (sc_port c), (sc_ip c)). }
  { intros a _. rewrite get_JInt. auto with words. }
  after (append_opt_of _ _ _ _ "-mcastIp" _ "ip" (of_text ∘ lsdn_ip_to_string) ip_text (sc_ip c) Hd5) d6 Hd6.
  { key settings_wf ltac:(destruct (sc_port c), (sc_ip c)). }
  { intros a ?%Hip. split; [apply get_JString|by apply plain_ip]. }
  after (end_line_spec _ _ _ _ Hd6) d7 Hd7. apply answers_ret. split; [done|].
  unfold settings_words. by rewrite <-!app_assoc in Hd7.
Qed.

Lemma phys_line_spec c d ind L : phys_ok c → line d ind L [] →
  answers s (phys_line (phys_json c) d) (λ r, r.1 = 0 ∧ line r.2 ind (L ++ phys_lines c) []).
Proof.
  intros (Hn & Hip & Hif) Hd. unfold phys_line.
  assert (get_ex (phys_json c) "physName" = Some (JString (pc_name c))) as ->
    by key phys_wf ltac:(destruct (pc_ip c), (pc_iface c)).
  assert (get_ex (phys_json c) "isLocal" = Some (JBool (pc_local c))) as ->
    by key phys_wf ltac:(destruct (pc_ip c), (pc_iface c)).
  rewrite get_JString. after (answers_ret s tt (λ _, True) I) u Hu. after (start_line_spec _ _ _ Hd) d1 Hd1.
  after (append1 _ _ _ _ "phys" Hd1) d2 Hd2. eapply answers_bind.
  { after (append1 _ _ _ _ "-name" Hd2) d3 Hd3. apply (append1 _ _ _ _ _ Hd3 Hn). }
  cbn beta. intros d4 Hd4.
  after (append_opt_of _ _ _ _ "-ip" _ "attrIp" (of_text ∘ lsdn_ip_to_string) ip_text (pc_ip c) Hd4) d5 Hd5.
  { key phys_wf ltac:(destruct (pc_ip c), (pc_iface c)). }
  { intros a ?%Hip. split; [apply get_JString|by apply plain_ip]. }
  after (append_opt_of _ _ _ _ "-if" _ "iface" JString id (pc_iface c) Hd5) d6 Hd6.
  { key phys_wf ltac:(destruct (pc_ip c), (pc_iface c)). }
  { intros a ?%Hif. by rewrite get_JString. }
  after (end_line_spec _ _ _ _ Hd6) d7 Hd7. rewrite option_fmap_id, <-!app_assoc in Hd7.
  unfold phys_lines. cbn [json_object_get_boolean]. destruct (pc_local c).
  - after (start_line_spec _ _ _ Hd7) d8 Hd8. after (append2 _ _ _ _ "claimLocal" _ Hd8) d9 Hd9.
    after (end_line_spec _ _ _ _ Hd9) d10 Hd10. apply answers_ret. split; [done|]. by rewrite <-app_assoc in Hd10.
  - apply answers_ret. split; [done|]. by rewrite app_nil_r.
Qed.

(** The value of a match condition and its mask are one word. *)
Lemma match_conversion c : condition_ok c →
  target_match_conversion (field_name c.1.1) = Some (match_option c.1.1) ∧
  target_has_mask (field_name c.1.1) = bool_decide (is_Some (match_ipv c.1.1)) ∧ plain (match_option c.1.1).
Proof.
  destruct c as [[t value] mask]. intros [Ht _]. simpl.
  rewrite !elem_of_cons in Ht. destruct_or!; subst; (split_and!; [reflexivity..|lit]) || by apply not_elem_of_nil in Ht.
Qed.

Lemma bytes_take n l k : bytes_ok n l → (k ≤ n)%nat → bytes_ok k (take k l).
Proof. intros [Hl Hb] Hk. split; [rewrite length_take; lia|by apply Forall_take]. Qed.

Lemma print_ip_match c iv : condition_ok c → match_ipv c.1.1 = Some iv →
  ip_ok (Ip iv (take (ip_len iv) c.1.2)) ∧ ip_ok (Ip iv (take (ip_len iv) c.2)) ∧
  field_text c.1.1 c.1.2 = Some (lsdn_ip_to_string (Ip iv (take (ip_len iv) c.1.2))) ∧
  field_text c.1.1 c.2 = Some (lsdn_ip_to_string (Ip iv (take (ip_len iv) c.2))).
Proof.
  destruct c as [[t value] mask]. intros (_ & Hv & Hm & _) Ht. simpl in *.
  destruct t; simplify_eq/=; (split_and!; [eapply bytes_take; [done|by apply (bool_decide_unpack _)]..|done|done]).
Qed.
Lemma print_mac_match c : condition_ok c → match_ipv c.1.1 = None →
  mac_ok (take LSDN_MAC_LEN c.1.2) ∧ field_text c.1.1 c.1.2 = Some (lsdn_mac_to_string (take LSDN_MAC_LEN c.1.2)).
Proof.
  destruct c as [[t value] mask]. intros (Ht & Hv & _) Hn. simpl in *. rewrite !elem_of_cons in Ht.
  destruct_or!; subst; simplify_eq/=; try (by apply not_elem_of_nil in Ht);
  (split; [eapply bytes_take; [done|by apply (bool_decide_unpack _)]|done]).
Qed.

Lemma append_rest d ind L W pre str : at_ d ind (L, W, chars pre) → no_blank str → plain (pre +:+ str) →
  answers s (dump_ctx_append [Some str] d) (λ d', line d' ind L (W ++ [pre +:+ str])).
Proof.
  intros Hd Hs Hp. simpl. after (append_str_spec _ _ _ _ Hd) d1 Hd1. after (append_str_spec _ _ _ _ Hd1) d2 Hd2.
  apply answers_ret. by rewrite lex_word, lex_blank, <-chars_app, end_plain in Hd2.
Qed.
Lemma plain_app a b : plain a → no_blank b → plain (a +:+ b).
Proof. intros [Ha Hb] Hc. split; [by destruct a|by apply no_blank_app]. Qed.

Lemma plain_mask ip : ip_ok ip → plain (mask_text ip).
Proof. intros Hip. unfold mask_text. case_match; [apply plain_Z|by apply plain_ip]. Qed.

Lemma mask_spec d ind L W pre ip : ip_ok ip → at_ d ind (L, W, chars pre) → plain pre →
  answers s (append_mask (of_text (lsdn_ip_to_string ip)) d) (λ r, r.1 = 0 ∧
    line r.2 ind L (W ++ [pre +:+ "/" +:+ mask_text ip])).
Proof.
  intros Hip Hd Hpre. unfold append_mask, of_text. rewrite get_JString.
  apply answers_deref. rewrite String.list_ascii_of_string_of_list_ascii, parse_printed_ip by done.
  assert (Hs : plain (pre +:+ "/")) by (apply plain_app; [done|by repeat constructor]).
  after (append_str_spec _ _ _ _ Hd) d1 Hd1. rewrite lex_word, <-chars_app in Hd1 by by repeat constructor.
  rewrite text_app_assoc. assert (Hm : plain (mask_text ip)) by by apply plain_mask.
  assert (Hend : answers s (dump_ctx_append [Some (mask_text ip)] d1 ≫= λ d, mret (0, d)) (λ r, r.1 = 0 ∧
    line r.2 ind L (W ++ [(pre +:+ "/") +:+ mask_text ip]))).
  { after (append_rest _ _ _ _ _ (mask_text ip) Hd1) d2 Hd2; [apply Hm|by apply plain_app, Hm|]. by apply answers_ret. }
  unfold mask_text in *. unfold lsdn_ip_prefix_from_mask, mbind, M_bind. case_match; [|done].
  destruct Hip as [Hlen _]. rewrite take_ge by lia. exact Hend.
Qed.

Lemma target_spec c d ind L W : condition_ok c → line d ind L W →
  answers s (convert_target (condition_json c) d) (λ r, r.1 = 0 ∧ line r.2 ind L (W ++ condition_words c)).
Proof.
  intros Hc Hd. destruct (match_conversion c Hc) as (Hconv & Hmask & Hopt). unfold convert_target.
  pose proof (λ iv, print_ip_match c iv Hc) as Hip. pose proof (print_mac_match c Hc) as Hmac.
  destruct c as [[t value] mask]. cbn [fst snd] in Hconv, Hmask, Hopt, Hip, Hmac. unfold condition_words.
  assert (∀ k, get_ex (condition_json (t, value, mask)) k =
    assoc k ([("target", JString (field_name t))] ++ member "match" (of_text <$> field_text t value) ++
             member "matchMask" (of_text <$> field_text t mask))) as Hget.
  { intros k. apply get_ex_wf, (condition_wf (t, value, mask)). }
  rewrite !Hget. clear Hget. set (jm := assoc "matchMask" _). set (jv := assoc "match" _).
  change (assoc "target" _) with (Some (JString (field_name t))).
  cbv beta iota. rewrite get_JString.
  apply answers_deref. rewrite Hconv, Hmask. after (append1 _ _ _ _ _ Hd Hopt) d1 Hd1.
  destruct (match_ipv t) as [iv|] eqn:Hiv.
  - destruct (Hip iv eq_refl) as (Hv & Hm & Hpv & Hpm).
    assert (jv = Some (of_text (lsdn_ip_to_string (Ip iv (take (ip_len iv) value))))) as -> by (subst jv; by rewrite Hpv).
    assert (jm = Some (of_text (lsdn_ip_to_string (Ip iv (take (ip_len iv) mask))))) as -> by (subst jm; by rewrite Hpv, Hpm).
    cbv beta iota. rewrite get_of_text. apply answers_deref.
    after (append_str_spec _ _ _ _ Hd1) d2 Hd2. rewrite lex_word, app_nil_l in Hd2 by by apply plain_ip.
    rewrite bool_decide_true by eauto. after (mask_spec _ _ _ _ _ _ Hm Hd2) [z d3] [Hz Hd3].
    simpl in Hz, Hd3. subst z. cbn [fst snd Z.eqb].
    after (append_str_spec _ _ _ _ Hd3) d4 Hd4. apply answers_ret. split; [done|].
    rewrite lex_blank, <-app_assoc in Hd4. exact Hd4.
  - destruct (Hmac eq_refl) as (Hm & Hpv).
    assert (jv = Some (of_text (lsdn_mac_to_string (take LSDN_MAC_LEN value)))) as -> by (subst jv; by rewrite Hpv).
    cbv beta iota. rewrite get_of_text. apply answers_deref.
    after (append_str_spec _ _ _ _ Hd1) d2 Hd2. rewrite lex_word, app_nil_l in Hd2 by by apply plain_mac.
    rewrite bool_decide_false by by intros [? ?]. eapply answers_bind.
    { destruct jm; apply (answers_ret s (0, d2) (.= (0, d2))); done. }
    intros ? ->. cbn [fst snd Z.eqb]. after (append_str_spec _ _ _ _ Hd2) d3 Hd3. apply answers_ret.
    split; [done|]. rewrite lex_blank, end_plain, <-app_assoc in Hd3 by by apply plain_mac. exact Hd3.
Qed.

Lemma rule_line_spec c d ind L : rule_ok c → line d ind L [] →
  answers s (convert_rule (rule_json c) d) (λ r, r.1 = 0 ∧ line r.2 ind (L ++ [rule_words c]) []).
Proof.
  intros (Hdir & Ha & Hc) Hd. unfold convert_rule.
  assert (get_ex (rule_json c) "dir" = Some (JString (rc_dir c))) as -> by key rule_wf idtac.
  assert (get_ex (rule_json c) "prio" = Some (JInt (rc_prio c))) as -> by key rule_wf idtac.
  assert (get_ex (rule_json c) "action" = Some (JString (rc_action c))) as -> by key rule_wf idtac.
  assert (get_ex (rule_json c) "targets" = Some (JArray (condition_json <$> rc_conditions c))) as -> by key rule_wf idtac.
  rewrite !get_JString, get_JInt.
  after (answers_ret s tt (λ _, True) I) u Hu. after (start_line_spec _ _ _ Hd) d1 Hd1.
  after (append1 _ _ _ _ "rule" Hd1) d2 Hd2. after (append1 _ _ _ _ _ Hd2 Hdir) d3 Hd3.
  after (append1 _ _ _ _ (pretty (rc_prio c)) Hd3) d4 Hd4. after (append1 _ _ _ _ _ Hd4 Ha) d5 Hd5.
  eapply answers_bind.
  { after (answers_ret s (condition_json <$> rc_conditions c) (.= condition_json <$> rc_conditions c) eq_refl) ? ->.
    apply (for_each_spec _ _ (λ d l, line d ind L
      (((([] ++ ["rule"]) ++ [rc_dir c]) ++ [pretty (rc_prio c)]) ++ [rc_action c] ++ concat (condition_words <$> l)))).
    - intros x l d' Hx Hd'. eapply answers_mono; [apply target_spec; [|exact Hd']|].
      + by eapply Forall_forall in Hc.
      + intros r. by rewrite fmap_app, concat_app, <-!app_assoc; simpl; rewrite app_nil_r.
    - by rewrite <-!app_assoc in *. }
  intros [z d6] [Hz Hd6]. simpl in Hz, Hd6. subst z. cbn [fst snd Z.eqb].
  after (end_line_spec _ _ _ _ Hd6) d7 Hd7. apply answers_ret. split; [done|]. exact Hd7.
Qed.

Lemma for_each_rules cs d ind L : Forall rule_ok cs → line d ind L [] →
  answers s (convert_rules (JArray (rule_json <$> cs)) d) (λ r, r.1 = 0 ∧ line r.2 ind (L ++ (rule_words <$> cs)) []).
Proof.
  intros Hcs Hd. unfold convert_rules. after (answers_ret s (rule_json <$> cs) (.= rule_json <$> cs) eq_refl) ? ->.
  rewrite <-(concat_single rule_words).
  apply for_each_lines; [|done]. intros c L' d' Hc Hd'. apply rule_line_spec; [|done].
  by eapply Forall_forall in Hcs.
Qed.

Lemma qos_spec q inb d ind L : line d ind L [] →
  answers s (convert_qos (rate_json q) inb d)
    (λ r, r.1 = 0 ∧ line r.2 ind (L ++ [rate_words (if inb then "in" else "out") q]) []).
Proof.
  intros Hd. unfold convert_qos. after (answers_ret s tt (λ _, True) I) u Hu. after (start_line_spec _ _ _ Hd) d1 Hd1.
  after (append1 _ _ _ _ "rate" Hd1) d2 Hd2.
  after (append1 _ _ _ _ (if inb then "in" else "out") Hd2) d3 Hd3; [destruct inb; lit|].
  after (append_opt_of _ _ _ _ "-avg" _ "avgRate" JDouble (λ r, json_object_get_string (JDouble r)) (Some (f64_of_f32 (avg_rate q))) Hd3) d4 Hd4.
  { key rate_wf idtac. }
  after (append_opt_of _ _ _ _ "-burst" _ "burstSize" JInt pretty (Some (burst_size q)) Hd4) d5 Hd5.
  { key rate_wf idtac. } { intros ? [= <-]. rewrite get_JInt. auto with words. }
  after (append_opt_of _ _ _ _ "-burstRate" _ "burstRate" JDouble (λ r, json_object_get_string (JDouble r)) (Some (f64_of_f32 (burst_rate q))) Hd5) d6 Hd6.
  { key rate_wf idtac. }
  after (end_line_spec _ _ _ _ Hd6) d7 Hd7. apply answers_ret. split; [done|]. by rewrite <-!app_assoc in Hd7.
Qed.

Lemma attach_spec n d ind L : plain n → line d ind L [] →
  answers s (attach_line (JString n) d) (λ r, r.1 = 0 ∧ line r.2 ind (L ++ [["attach"; n]]) []).
Proof.
  intros Hn Hd. unfold attach_line. rewrite get_JString. after (start_line_spec _ _ _ Hd) d1 Hd1.
  after (append2 _ _ _ _ "attach" _ Hd1) d2 Hd2. after (end_line_spec _ _ _ _ Hd2) d3 Hd3. by apply answers_ret.
Qed.

(** The loop over the members of a virt. *)
Lemma options_run l l' d s0 :
  virt_options (l ++ l') d s0 = (virt_options l d ≫= virt_options l') s0.
Proof.
  revert d s0. induction l as [|[k j] l IH]; intros d s0; [done|]. simpl. unfold mbind, M_bind in *.
  destruct (virt_option k j d s0) as [d1 s1|]; [|done]. apply IH.
Qed.
Lemma options_app l l' d P Q :
  answers s (virt_options l d) P → (∀ d, P d → answers s (virt_options l' d) Q) → answers s (virt_options (l ++ l') d) Q.
Proof.
  intros Hl Hl' n. pose proof (answers_bind s _ _ P Q Hl Hl' n) as Hw.
  unfold wp in *. by rewrite options_run.
Qed.

Lemma option_member {A} k opt (f : A → json) (g : A → string) x d ind L W :
  (∀ j d, virt_option k j d = dump_ctx_append [Some opt; get_string (Some j)] d) → plain opt →
  (∀ a, x = Some a → get_string (Some (f a)) = Some (g a) ∧ plain (g a)) → line d ind L W →
  answers s (virt_options (member k (f <$> x)) d) (λ d', line d' ind L (W ++ opt_words opt (g <$> x))).
Proof.
  intros Hk Ho Hx Hd. destruct x as [a|].
  - destruct (Hx a) as [Hg Hw]; [done|]. cbn -[virt_option]. rewrite Hk, Hg.
    after (append2 _ _ _ _ opt (g a) Hd) d1 Hd1. by apply answers_ret.
  - apply answers_ret. by rewrite app_nil_r.
Qed.
Lemma option_other k jo d ind L W : (∀ j d, virt_option k j d = mret d) → line d ind L W →
  answers s (virt_options (member k jo) d) (λ d', line d' ind L W).
Proof.
  intros Hk Hd. destruct jo as [j|]; [|by apply answers_ret]. cbn -[virt_option]. rewrite Hk.
  after (answers_ret s d (λ d', line d' ind L W) Hd) d1 Hd1. by apply answers_ret.
Qed.

Lemma virt_options_spec c d ind L : virt_ok c → line d ind L ["virt"] →
  match virt_json c with JObject o => answers s (virt_options o d) (λ d', line d' ind L
    (["virt"] ++ opt_words "-name" (vc_name c) ++ opt_words "-mac" (mac_text <$> vc_mac c) ++
     opt_words "-phys" (vc_phys c) ++ opt_words "-if" (vc_iface c))) | _ => False end.
Proof.
  intros (Hn & Hm & Hp & Hi & _) Hd. unfold virt_json.
  eapply options_app; [apply (option_member _ "-name" JString id); [done|lit| |exact Hd]|].
  { intros a ?%Hn. by rewrite get_JString. }
  cbn beta. intros d1 Hd1.
  eapply options_app; [apply (option_member _ "-mac" (of_text ∘ lsdn_mac_to_string) mac_text); [done|lit| |exact Hd1]|].
  { intros a ?%Hm. split; [apply get_of_text|by apply plain_mac]. }
  cbn beta. intros d2 Hd2.
  eapply options_app; [apply (option_member _ "-phys" JString id); [done|lit| |exact Hd2]|].
  { intros a ?%Hp. by rewrite get_JString. }
  cbn beta. intros d3 Hd3.
  eapply options_app; [apply (option_member _ "-if" JString id); [done|lit| |exact Hd3]|].
  { intros a ?%Hi. by rewrite get_JString. }
  cbn beta. intros d4 Hd4.
  eapply options_app; [apply (option_other "rules" (Some _)); [done|exact Hd4]|]. cbn beta. intros d5 Hd5.
  eapply options_app; [apply option_other; [done|exact Hd5]|]. cbn beta. intros d6 Hd6.
  eapply answers_mono; [apply option_other; [done|exact Hd6]|]. cbn beta. intros d7.
  by rewrite !option_fmap_id, <-!app_assoc.
Qed.

Lemma opt_rate_spec r inb d ind L : line d ind L [] →
  answers s (opt_block (rate_json <$> r) (λ j, convert_qos j inb) d)
    (λ z, z.1 = 0 ∧ line z.2 ind (L ++ opt_lines (rate_words (if inb then "in" else "out")) r) []).
Proof. intros Hd. destruct r; [by apply qos_spec|]. apply answers_ret. split; [done|]. by rewrite app_nil_r. Qed.

Lemma indent_spec d ind L W : line d ind L W → line (dump_ctx_inc_indent d) (S ind) L W.
Proof. intros (Hi & Hs & Hl). split_and!; [by rewrite <-Hi|done..]. Qed.
Lemma dedent_spec d ind L W : line d (S ind) L W → answers s (dump_ctx_dec_indent d) (λ d', line d' ind L W).
Proof.
  intros (Hi & Hs & Hl). unfold dump_ctx_dec_indent. rewrite Hi, bool_decide_true by lia.
  after (answers_ret s tt (λ _, True) I) u Hu. apply answers_ret. by split_and!.
Qed.

(** A block that cannot fail, before the rest of the function. *)
Lemma block {A} (m : M heap (Z * dump_ctx)) (k : Z * dump_ctx → M heap A) P Q :
  answers s m (λ r, r.1 = 0 ∧ P r.2) → (∀ d, P d → answers s (k (0, d)) Q) → answers s (r ← m; k r) Q.
Proof. intros Hm Hk. eapply answers_bind; [exact Hm|]. intros [z d] [Hz Hd]. simpl in *. subst z. by apply Hk. Qed.

Lemma virt_block_spec c d ind L : virt_ok c → line d ind L [] →
  answers s (virt_block (virt_json c) d) (λ r, r.1 = 0 ∧ line r.2 ind (L ++ virt_lines c) []).
Proof.
  intros Hc Hd. unfold virt_block. after (start_line_spec _ _ _ Hd) d1 Hd1. after (append1 _ _ _ _ "virt" Hd1) d2 Hd2.
  pose proof (virt_options_spec c d2 ind L Hc Hd2) as Ho.
  assert (Hrules : match virt_json c with JObject o =>
    last_member "rules" o = Some (JArray (rule_json <$> vc_rules c)) ∧
    last_member "qosIn" o = rate_json <$> vc_rate_in c ∧ last_member "qosOut" o = rate_json <$> vc_rate_out c
    | _ => False end).
  { unfold virt_json, last_member. destruct (vc_name c), (vc_mac c), (vc_phys c), (vc_iface c), (vc_rate_in c), (vc_rate_out c);
      split_and!; reflexivity. }
  destruct Hc as (_ & _ & _ & _ & Hr). destruct (virt_json c) as [| | | | | |o]; try done. destruct Hrules as (E1 & E2 & E3).
  after (answers_ret s o (.= o) eq_refl) ? ->. rewrite E1, E2, E3. after Ho d3 Hd3.
  after (append1 _ _ _ _ "{" Hd3) d4 Hd4. after (end_line_spec _ _ _ _ Hd4) d5 Hd5.
  apply indent_spec in Hd5. eapply (block _ _ (λ d, line d _ _ _)); [apply (for_each_rules _ _ _ _ Hr Hd5)|]. cbn [fst snd Z.eqb negb].
  intros d6 Hd6. eapply (block _ _ (λ d, line d _ _ _)); [apply (opt_rate_spec _ true _ _ _ Hd6)|]. cbn [fst snd Z.eqb negb].
  intros d7 Hd7. eapply (block _ _ (λ d, line d _ _ _)); [apply (opt_rate_spec _ false _ _ _ Hd7)|]. cbn [fst snd Z.eqb negb].
  intros d8 Hd8. after (dedent_spec _ _ _ _ Hd8) d9 Hd9. after (start_line_spec _ _ _ Hd9) d10 Hd10.
  after (append1 _ _ _ _ "}" Hd10) d11 Hd11. after (end_line_spec _ _ _ _ Hd11) d12 Hd12.
  apply answers_ret. split; [done|]. unfold virt_lines. by rewrite <-!app_assoc in *.
Qed.

(** A block of lines for the elements of an array. *)
Lemma array_lines {A} body (f : A → json) (lines : A → list (list string)) cs d ind L :
  line d ind L [] →
  (∀ x L d, x ∈ cs → line d ind L [] →
     answers s (body (f x) d) (λ r, r.1 = 0 ∧ line r.2 ind (L ++ lines x) [])) →
  answers s (opt_block (Some (JArray (f <$> cs))) (λ j d, l ← json_array j; for_each body l d) d)
    (λ r, r.1 = 0 ∧ (λ d, line d ind (L ++ concat (lines <$> cs)) []) r.2).
Proof.
  intros Hd Hb. unfold opt_block. after (answers_ret s (f <$> cs) (.= f <$> cs) eq_refl) ? ->. by apply for_each_lines.
Qed.

Lemma net_block_spec c d ind L : net_ok c → line d ind L [] →
  answers s (net_block (net_json c) d) (λ r, r.1 = 0 ∧ line r.2 ind (L ++ net_lines c) []).
Proof.
  intros (Hn & Hst & Hps & Hvs) Hd. unfold net_block.
  assert (get_ex (net_json c) "vnetId" = Some (JInt (nc_vnet_id c))) as -> by key net_wf ltac:(destruct (nc_name c)).
  assert (get_ex (net_json c) "netName" = JString <$> nc_name c) as -> by key net_wf ltac:(destruct (nc_name c)).
  assert (get_ex (net_json c) "physList" = Some (JArray (JString <$> nc_physes c))) as ->
    by key net_wf ltac:(destruct (nc_name c)).
  assert (get_ex (net_json c) "virts" = Some (JArray (virt_json <$> nc_virts c))) as ->
    by key net_wf ltac:(destruct (nc_name c)).
  rewrite !get_JInt. after (answers_ret s tt (λ _, True) I) u Hu. after (start_line_spec _ _ _ Hd) d1 Hd1.
  after (append1 _ _ _ _ "net" Hd1) d2 Hd2. after (append2 _ _ _ _ "-vid" _ Hd2) d3 Hd3.
  after (append_opt_of _ _ _ _ "-settings" _ "settings" JString id (Some (nc_settings c)) Hd3) d4 Hd4.
  { key net_wf ltac:(destruct (nc_name c)). } { intros ? [= <-]. by rewrite get_JString. }
  eapply (answers_bind s _ _ (λ d, line d ind L _)).
  { instantiate (1 := (((([] ++ ["net"]) ++ ["-vid"; pretty (nc_vnet_id c)]) ++ ["-settings"; nc_settings c]) ++
      [default (pretty (nc_vnet_id c)) (nc_name c)])).
    destruct (nc_name c) as [n|]; [|exact (append1 _ _ _ _ _ Hd4 (plain_Z _))].
    change (JString <$> Some n) with (Some (JString n)). cbv beta iota. rewrite get_JString.
    exact (append1 _ _ _ _ n Hd4 (Hn n eq_refl)). }
  intros d5 Hd5. after (append1 _ _ _ _ "{" Hd5) d6 Hd6. after (end_line_spec _ _ _ _ Hd6) d7 Hd7. apply indent_spec in Hd7.
  refine (block _ _ (λ d, line d _ _ _) _ (array_lines attach_line JString (λ n, [["attach"; n]]) (nc_physes c) _ _ _ Hd7 _) _).
  { intros n L' d' Hx Hd'. apply attach_spec; [|done]. by eapply Forall_forall in Hps. }
  cbn [fst snd Z.eqb negb]. intros d8 Hd8.
  refine (block _ _ (λ d, line d _ _ _) _ (array_lines virt_block virt_json virt_lines (nc_virts c) _ _ _ Hd8 _) _).
  { intros v L' d' Hx Hd'. apply virt_block_spec; [|done]. by eapply Forall_forall in Hvs. }
  cbn [fst snd Z.eqb negb]. intros d9 Hd9. after (append1 _ _ _ _ "}" Hd9) d10 Hd10.
  after (end_line_spec _ _ _ _ Hd10) d11 Hd11. after (dedent_spec _ _ _ _ Hd11) d12 Hd12. apply answers_ret.
  split; [done|]. unfold net_lines. by rewrite concat_single, <-!app_assoc in Hd12.
Qed.

Lemma convert_members_spec c d L : content_ok c → line d 0 L [] →
  dumps s (convert_members (content_members c) d)
    (λ d', line d' 0 (L ++ (settings_words <$> c_settings c) ++ concat (phys_lines <$> c_physes c) ++
                      concat (net_lines <$> c_nets c)) []).
Proof.
  intros (Hs & Hp & Hn) Hd. unfold content_members. cbn [convert_members].
  refine (block _ _ (λ d, line d _ _ _) _ (answers_ret s (0, d) _ (conj eq_refl Hd)) _). cbn [fst snd Z.eqb].
  intros d1 Hd1. refine (block _ _ (λ d, line d _ _ _) _ (array_lines settings_line settings_json
    (λ c, [settings_words c]) (c_settings c) _ _ _ Hd1 _) _).
  { intros x L' d' Hx Hd'. apply settings_line_spec; [|done]. by eapply Forall_forall in Hs. }
  cbn [fst snd Z.eqb]. intros d2 Hd2.
  refine (block _ _ (λ d, line d _ _ _) _ (array_lines phys_line phys_json phys_lines (c_physes c) _ _ _ Hd2 _) _).
  { intros x L' d' Hx Hd'. apply phys_line_spec; [|done]. by eapply Forall_forall in Hp. }
  cbn [fst snd Z.eqb]. intros d3 Hd3.
  refine (block _ _ (λ d, line d _ _ _) _ (array_lines net_block net_json net_lines (c_nets c) _ _ _ Hd3 _) _).
  { intros x L' d' Hx Hd'. apply net_block_spec; [|done]. by eapply Forall_forall in Hn. }
  cbn [fst snd Z.eqb]. intros d4 Hd4. apply dumps_ret. by rewrite concat_single, <-!app_assoc in Hd4.
Qed.

Lemma dump_tcl_dumps ctx c : inv s → dumpable s → printable s → H.objs s !! ctx = Some (OCtx c) →
  dumps s (lsdn_dump_context_tcl ctx) (λ str, ∃ ct, describes s ctx ct ∧ tcl_lines str = script ct).
Proof.
  intros Hinv Hdu Hpr Hc. unfold lsdn_dump_context_tcl.
  eapply (answers_bind s _ _ (λ r, ∃ str, r = Some str ∧ ∃ ct, describes s ctx ct ∧ tcl_lines str = script ct));
    [|intros ? (str & -> & Hstr); by apply dumps_ret].
  eapply dumps_or_err; [by eapply dump_json_dumps|]. intros ? (ct & Hct & ->).
  eapply (dumps_or_err s _ _ (λ d, line d 0 [] [])).
  { unfold dump_ctx_create. eapply dumps_or_err; [by apply dumps_new|]. intros ? ->.
    eapply dumps_mono; [by apply dumps_new|]. by intros ? ->. }
  intros d Hd. eapply (answers_bind s _ _ (.= true)).
  { intros n. rewrite wp_try_alloc. simpl. rewrite Hmem. split; [by exists (S n)|done]. }
  intros ? ->. rewrite parse_print by apply content_wf.
  eapply dumps_or_err; [by apply (dumps_ret s (content_json ct) (.= content_json ct))|]. intros ? ->.
  after (answers_ret s (content_members ct) (.= content_members ct) eq_refl) ? ->.
  after (start_line_spec _ _ _ Hd) d1 Hd1. eapply (answers_bind s _ _ (λ d, line d 0 [] ["namespace"; "import"; "lsdn::*"])).
  { cbn [dump_ctx_append]. after (append_str_spec _ _ _ _ Hd1) d2 Hd2. after (append_str_spec _ _ _ _ Hd2) d3 Hd3.
    apply answers_ret. exact Hd3. }
  intros d4 Hd4. after (end_line_spec _ _ _ _ Hd4) d5 Hd5.
  eapply dumps_or_err; [apply (convert_members_spec ct _ _ (describes_ok s Hpr ctx ct Hct) Hd5)|].
  intros d6 (_ & Hst & Hlex). rewrite Hst. apply dumps_ret. exists ct. split; [done|].
  unfold tcl_lines. by rewrite Hlex.
Qed.
End tcl.
