(* ===== verification/DumpTheorems.v ===== *)
(** * The theorems about dumps

    What a dump says, for every implementation of the JSON library that keeps its laws, with an
    implementation that does, and a model that is dumped. *)

From Stdlib Require Import ZArith SpecFloat Lia.
From stdpp Require Import base list gmap strings pretty countable.
From S2P Require Import Prelude.
From S2P Require Import Float.
From S2P Require Import Status.
From S2P Require Import Nettypes.
From S2P Require Import Heap.
From S2P Require Import Base.
From S2P Require Import Wp.
From S2P Require Import Model.
From S2P Require Import VirtRules.
From S2P Require Import Dump.
From S2P Require Import Inv.
From S2P Require Import Change.
From S2P Require Import Api.
From S2P Require Import Valid.
From S2P Require Import DumpSpec.
From S2P Require Import DumpTcl.

Local Open Scope string_scope.
Local Open Scope list_scope.
Local Open Scope Z_scope.

(** ** An implementation of the JSON library *)

(** A document as a tree with labels. *)
Notation label := (string + Z * positive * bool)%type.
Definition float_labels (d : double) : list (gen_tree label) :=
  match d with
  | S754_zero s => [GenLeaf (inr (0, 1%positive, s))]
  | S754_infinity s => [GenLeaf (inr (1, 1%positive, s))]
  | S754_nan => []
  | S754_finite s m e => [GenLeaf (inr (e, m, s)); GenNode 0 []]
  end.
Definition labels_float (l : list (gen_tree label)) : double :=
  match l with
  | [GenLeaf (inr (n, _, s))] => if n =? 0 then S754_zero s else S754_infinity s
  | [GenLeaf (inr (e, m, s)); _] => S754_finite s m e
  | _ => S754_nan
  end.
Lemma labels_float_inv d : labels_float (float_labels d) = d.
Proof. by destruct d. Qed.
Fixpoint to_tree (j : json) : gen_tree label :=
  match j with
  | JNull => GenNode 0 []
  | JString s => GenNode 1 [GenLeaf (inl s)]
  | JInt n => GenNode 2 [GenLeaf (inr (n, 1%positive, false))]
  | JDouble d => GenNode 3 (float_labels d)
  | JBool b => GenNode 4 [GenLeaf (inr (0, 1%positive, b))]
  | JArray l => GenNode 5 (to_tree <$> l)
  | JObject l => GenNode 6 ((λ kj, GenNode 7 [GenLeaf (inl kj.1); to_tree kj.2]) <$> l)
  end.
Fixpoint of_tree (t : gen_tree label) : json :=
  match t with
  | GenNode 1 [GenLeaf (inl s)] => JString s
  | GenNode 2 [GenLeaf (inr (n, _, _))] => JInt n
  | GenNode 3 l => JDouble (labels_float l)
  | GenNode 4 [GenLeaf (inr (_, _, b))] => JBool b
  | GenNode 5 l => JArray (of_tree <$> l)
  | GenNode 6 l => JObject ((λ t, match t with
      | GenNode 7 [GenLeaf (inl k); t] => (k, of_tree t)
      | _ => ("", JNull)
      end) <$> l)
  | _ => JNull
  end.

Section json_ind.
Context (P : json → Prop).
Context (H_leaf : ∀ j, (∀ l, j ≠ JArray l) → (∀ l, j ≠ JObject l) → P j).
Context (H_array : ∀ l, Forall P l → P (JArray l)).
Context (H_object : ∀ l : jmembers, Forall P l.*2 → P (JObject l)).

(** Induction over documents. *)
Fixpoint json_rec' (j : json) : P j.
Proof.
  refine (match j with
  | JArray l => H_array l _
  | JObject l => H_object l _
  | j => H_leaf j _ _
  end); try discriminate.
  - induction l as [|j' l IH]; constructor; [apply json_rec'|exact IH].
  - induction l as [|[k j'] l IH]; constructor; [apply json_rec'|exact IH].
Defined.
End json_ind.

Lemma map_inv {A B} (f : A → B) (g : B → A) l : Forall (λ x, g (f x) = x) l → g <$> (f <$> l) = l.
Proof. induction 1 as [|x l Hx _ IH]; [done|]. rewrite !fmap_cons. by rewrite Hx, IH. Qed.

Lemma tree_json j : of_tree (to_tree j) = j.
Proof.
  induction j as [j H1 H2|l IH|l IH] using json_rec'.
  - destruct j as [| | |d| |l|l]; try done; [by destruct d|by destruct (H1 l)|by destruct (H2 l)].
  - apply (f_equal JArray), (map_inv to_tree of_tree), IH.
  - apply (f_equal JObject), map_inv. apply Forall_fmap in IH. eapply list.Forall_impl; [exact IH|].
    intros [k j] Hj. exact (f_equal (pair k) Hj).
Qed.

(** A number as a string of binary digits. *)
Definition zero : Ascii.ascii := Ascii.ascii_of_nat 48.
Definition one : Ascii.ascii := Ascii.ascii_of_nat 49.
Fixpoint bits (p : positive) : string :=
  match p with
  | xH => ""
  | xO p => String.String zero (bits p)
  | xI p => String.String one (bits p)
  end.
Fixpoint of_bits (s : string) : positive :=
  match s with
  | String.EmptyString => xH
  | String.String c s => if bool_decide (c = zero) then xO (of_bits s) else xI (of_bits s)
  end.
Lemma bits_inv p : of_bits (bits p) = p.
Proof. induction p as [p IH|p IH|]; simpl; [by rewrite IH..|done]. Qed.

Definition print_tree (j : json) : string := bits (encode (to_tree j)).

(** Mantissa and exponent. *)
Definition float_text (d : double) : string :=
  match d with
  | S754_zero _ => "0"
  | S754_infinity _ => "inf"
  | S754_nan => "nan"
  | S754_finite s m e => pretty (if s then Z.neg m else Z.pos m) +:+ "p" +:+ pretty e
  end.

#[global] Instance demo_json : JsonC := {
  json_object_object_add l k v := if bool_decide (k ∈ l.*1)
    then (λ kj, if bool_decide (kj.1 = k) then (k, v) else kj) <$> l else l ++ [(k, v)];
  json_object_object_get_ex l k := assoc k l;
  json_object_to_json_string_ext := print_tree;
  json_tokener_parse s := of_tree <$> decode (of_bits s);
  json_object_get_string j := match j with
    | JString s => s
    | JInt n => pretty n
    | JDouble d => float_text d
    | j => print_tree j
    end }.

#[global] Instance demo_json_laws : JsonCLaws demo_json.
Proof.
  split; simpl; try done.
  - intros l k v Hk. by rewrite bool_decide_false.
  - intros j _. unfold print_tree. rewrite bits_inv, decode_encode. simpl. by rewrite tree_json.
  - intros [s|s| |s m e]; try (split; [done|by repeat constructor]). apply plain_app; [apply plain_Z|].
    apply no_blank_app; [by repeat constructor|]. apply (plain_Z e).
Qed.

(** ** A model that is dumped *)

#[global] Instance plain_dec w : Decision (plain w).
Proof. unfold plain. apply _. Defined.
#[global] Instance condition_ok_dec c : Decision (condition_ok c).
Proof. destruct c as [[t value] mask]. unfold condition_ok. apply _. Defined.

Definition opt_check {A} (P : A → Prop) `{∀ a, Decision (P a)} (x : option A) : bool :=
  match x with Some a => bool_decide (P a) | None => true end.
Lemma opt_check_ok {A} (P : A → Prop) `{∀ a, Decision (P a)} x a : opt_check P x = true → x = Some a → P a.
Proof. intros Hx ->. by apply bool_decide_eq_true in Hx. Qed.

Definition dumpable_check (s : heap) : bool :=
  forallb (λ kv : ptr * obj, match kv.2 with
    | OSettings x => bool_decide (is_Some (Settings.name x) ∧ Settings.ops x ≠ lsdn_net_geneve_e2e_ops) &&
        (bool_decide (Settings.ops x ≠ lsdn_net_vxlan_mcast_ops) || bool_decide (is_Some (Settings.mcast_ip x)))
    | OPhys x => bool_decide (is_Some (Phys.name x))
    | OVr x => match H.rules s !! (kv.1, F_rule) with
        | Some r => bool_decide (is_Some (a_name (Rule.action r)) ∧
            (Z.to_nat (Vr.pos x) ≤ length (Vr.targets x))%nat ∧
            (Z.to_nat (Vr.pos x) ≤ length (Rule.matches r))%nat ∧ (Z.to_nat (Vr.pos x) ≤ length (Vr.masks x))%nat)
        | None => true
        end
    | _ => true
    end) (map_to_list (H.objs s)).
Lemma dumpable_check_ok s : dumpable_check s = true → dumpable s.
Proof.
  intros Hf. split.
  - intros p x Hp. apply (forallb_objs _ _ _ _ Hf) in Hp. simpl in Hp.
    apply andb_true_iff in Hp as [H1 [H2|H2]%orb_true_iff]; apply bool_decide_eq_true in H1, H2; tauto.
  - intros p x Hp. apply (forallb_objs _ _ _ _ Hf), bool_decide_eq_true in Hp. done.
  - intros p x r Hp Hr. apply (forallb_objs _ _ _ _ Hf) in Hp. simpl in Hp. rewrite Hr in Hp.
    by apply bool_decide_eq_true in Hp.
Qed.

Definition printable_check (s : heap) : bool :=
  forallb (λ kv : ptr * obj, match kv.2 with
    | OSettings x => opt_check plain (Settings.name x) && opt_check ip_ok (Settings.mcast_ip x)
    | OPhys x => opt_check plain (Phys.name x) && opt_check ip_ok (Phys.attr_ip x) && opt_check plain (Phys.attr_iface x)
    | ONet x => opt_check plain (Net.name x)
    | OVirt x => opt_check plain (Virt.name x) && opt_check mac_ok (Virt.attr_mac x) &&
        match H.ifs s !! (kv.1, F_connected_if) with Some i => opt_check plain (If.ifname i) | None => true end
    | OVr x => match H.rules s !! (kv.1, F_rule) with
        | Some r => opt_check plain (a_name (Rule.action r)) && bool_decide (Forall condition_ok (conditions x r))
        | None => true
        end
    | _ => true
    end) (map_to_list (H.objs s)).
Lemma printable_check_ok s : printable_check s = true → printable s.
Proof.
  intros Hf. split; [intros p x Hp|intros p x Hp|intros p x Hp|intros p x Hp|intros p x r Hp Hr];
    apply (forallb_objs _ _ _ _ Hf) in Hp; simpl in Hp; rewrite ?andb_true_iff in Hp.
  - destruct Hp as [H1 H2]. split; intros a; by eapply opt_check_ok.
  - destruct Hp as [[H1 H2] H3]. split_and!; intros a; by eapply opt_check_ok.
  - intros a. by eapply opt_check_ok.
  - destruct Hp as [[H1 H2] H3]. split_and!; [intros a; by eapply opt_check_ok..|].
    intros i n Hi. rewrite Hi in H3. by eapply opt_check_ok.
  - rewrite Hr in Hp. apply andb_true_iff in Hp as [H1 H2]. split; [intros a; by eapply opt_check_ok|].
    by apply bool_decide_eq_true in H2.
Qed.

Definition dump_demo : list api_call :=
  [ContextNew "demo";
   SettingsNew 1 lsdn_net_vxlan_mcast_ops LSDN_NET_VXLAN LSDN_LEARNING 4789 (Some (Ip LSDN_IPv4 [239; 0; 0; 1]));
   NetNew 2 5; PhysNew 1; PhysSetIface 4 "eth0"; PhysSetIp 4 (Ip LSDN_IPv4 [10; 0; 0; 1]); PhysClaimLocal 4;
   PhysAttach 4 3; VirtNew 3; VirtConnect 6 4 "eth1"; VirtSetName 6 (Some "a"); VirtSetMac 6 [0; 0; 0; 0; 0; 6];
   VirtSetRateIn 6 (QosRate (f32_const 1 1) 2 (f32_const 3 1));
   VrNew 6 10 LSDN_IN LSDN_VR_DROP; VrAddMatch 7 (SrcIp (Ip LSDN_IPv4 [10; 1; 0; 0]) (Ip LSDN_IPv4 [255; 255; 0; 0]));
   VrAddMatch 7 (DstMac [0; 0; 0; 0; 0; 7] [255; 255; 255; 255; 255; 255])].
Definition dump_state : heap := default (empty_heap api_env) (run_checked dump_demo (empty_heap api_env)).

Lemma dump_state_run : run_checked dump_demo (empty_heap api_env) = Some dump_state.
Proof.
  assert (Hok : bool_decide (is_Some (run_checked dump_demo (empty_heap api_env))) = true)
    by (vm_compute; reflexivity).
  apply bool_decide_eq_true_1 in Hok as [s Hs]. unfold dump_state. by rewrite Hs.
Qed.
Lemma dump_state_inv : inv dump_state.
Proof.
  apply (sound_inv (empty_heap api_env)), (reachable_sound api_env).
  exact (run_checked_reachable _ _ _ _ (reach_start _) dump_state_run).
Qed.
Lemma dump_state_mem : mem_ok dump_state.
Proof. intros n. vm_compute. reflexivity. Qed.
Lemma dump_state_ctx : obj_at dump_state 1 is_ctx.
Proof.
  assert (Hc : bool_decide (is_Some (ctx_of (H.objs dump_state !! 1%positive))) = true) by (vm_compute; reflexivity).
  apply bool_decide_eq_true in Hc. unfold obj_at. revert Hc. generalize (H.objs dump_state !! 1%positive).
  intros [[c| | | | | | | | | | | | | |]|] [? Hc]; try done. by exists (OCtx c).
Qed.

(** ** The theorems *)

Section theorems.
Context (J : JsonC) (JL : JsonCLaws J) (s : heap) (ctx : ptr).
Context (Hmem : mem_ok s) (Hinv : inv s) (Hctx : obj_at s ctx is_ctx) (Hdump : dumpable s).

(** C13: In a state of the invariant, if no allocation fails, settings, physes and the actions of
    rules have names, the settings of a vxlan/mcast network have their address and there are no
    settings of a learning geneve network ([dumpable]), [lsdn_dump_context_json] returns and
    answers the text of a document that says exactly what the model holds: its settings with
    the type that lsctl calls them by, physes, networks, virts, rules with the fields and
    addresses of their conditions, and rates, each list in the order of the model. The document
    is written down independently of dump.c, from the kinds of networks and of conditions.
    Nothing changes but the count of allocations. (The settings of a learning geneve network
    are left out because the dump says they are those of a static one.) *)
Theorem dump_json_content :
  wp (lsdn_dump_context_json ctx) s (λ r s', (∃ n, s' = H.set_allocs n s) ∧
    ∃ c, describes s ctx c ∧ r = Some (json_object_to_json_string_ext (content_json c))).
Proof.
  destruct Hctx as ([] & Hc & []). pose proof (dump_json_dumps s Hmem ctx x Hinv Hdump Hc (H.allocs s)) as Hw.
  replace (H.set_allocs (H.allocs s) s) with s in Hw by by destruct s.
  eapply wp_mono; [exact Hw|]. cbn beta. intros r s' (Hs & str & -> & c & Hd & ->). eauto.
Qed.

(** C12: If moreover no name is empty or has a blank in it, addresses are addresses, and the
    conditions of rules on a MAC address ask for all of it ([printable]), the text of
    [lsdn_dump_context_tcl], read line by line and word by word, is the script of lsctl
    commands that says what the model holds, where a network without a name is called by its
    identifier. (A mask of a MAC address would be lost, and learning geneve settings would be
    dumped as static ones; such models are outside the statement.) *)
Theorem dump_tcl_script : printable s →
  wp (lsdn_dump_context_tcl ctx) s (λ r s', (∃ n, s' = H.set_allocs n s) ∧
    ∃ c str, describes s ctx c ∧ r = Some str ∧ tcl_lines str = script c).
Proof.
  intros Hp. destruct Hctx as ([] & Hc & []). pose proof (dump_tcl_dumps s Hmem ctx x Hinv Hdump Hp Hc (H.allocs s)) as Hw.
  replace (H.set_allocs (H.allocs s) s) with s in Hw by by destruct s.
  eapply wp_mono; [exact Hw|]. cbn beta. intros r s' (Hs & str & -> & c & Hd & Hl). eauto 10.
Qed.
End theorems.

Lemma dump_json_content_witness :
  wp (lsdn_dump_context_json 1) dump_state (λ r s', (∃ n, s' = H.set_allocs n dump_state) ∧
    ∃ c, describes dump_state 1 c ∧ r = Some (json_object_to_json_string_ext (content_json c))).
Proof.
  apply dump_json_content; [apply demo_json_laws|exact dump_state_mem|exact dump_state_inv|exact dump_state_ctx|].
  apply dumpable_check_ok. vm_compute. reflexivity.
Defined.

Lemma dump_tcl_script_witness :
  wp (lsdn_dump_context_tcl 1) dump_state (λ r s', (∃ n, s' = H.set_allocs n dump_state) ∧
    ∃ c str, describes dump_state 1 c ∧ r = Some str ∧ tcl_lines str = script c).
Proof.
  apply dump_tcl_script; [apply demo_json_laws|exact dump_state_mem|exact dump_state_inv|exact dump_state_ctx|..].
  - apply dumpable_check_ok. vm_compute. reflexivity.
  - apply printable_check_ok. vm_compute. reflexivity.
Defined.
