(* ===== verification/Lsctl.v ===== *)
(** * The commands of lsctl ([lsctl/lsext.c])

    The Tcl commands that build a model: [settings], [net], [phys], [virt], [rule] and the
    others. The Tcl library is the interface [TclLib]: how it parses options, numbers and
    scripts is known from its documentation as laws only. A command is given with its words,
    after the substitutions of Tcl. *)

From Stdlib Require Import ZArith.
From stdpp Require Import base list gmap strings pretty.
From S2P Require Import Prelude.
From S2P Require Import Float.
From S2P Require Import Status.
From S2P Require Import Nettypes.
From S2P Require Import Heap.
From S2P Require Import Base.
From S2P Require Import Model.
From S2P Require Import Validate.
From S2P Require Import Commit.
From S2P Require Import NetOps.
From S2P Require Import Dump.

Local Open Scope string_scope.
Local Open Scope list_scope.
Local Open Scope Z_scope.

(** ** The state *)

Definition TCL_OK : Z := 0.
Definition TCL_ERROR : Z := 1.

(** [enum scope], whose values are bits of a set of scopes. *)
Inductive scope := S_ROOT | S_NET | S_PHYS | S_VIRT.
#[global] Instance scope_eq_dec : EqDecision scope.
Proof. solve_decision. Defined.

Definition MAX_SCOPE_NESTING : nat := 3.

(** [struct tcl_ctx] *)
Record tcl_ctx := TclCtx {
  t_lsctx : option ptr;
  t_net : option ptr;
  t_phys : option ptr;
  t_virt : option ptr;
  stack_pos : nat;
  scope_stack : list scope }.

(** The program: its memory, the context of the extension, the message of the last error
    (None for one of Tcl itself), and what was printed. *)
Record tcl := Tcl { t_heap : heap; t_ctx : tcl_ctx; t_result : option string; t_out : list string }.

Definition lift {A} (m : M heap A) : M tcl A := λ s,
  match m (t_heap s) with
  | Ok a h => Ok a (Tcl h (t_ctx s) (t_result s) (t_out s))
  | Fault f => Fault f
  end.
Definition get_tcl_ctx : M tcl tcl_ctx := t_ctx <$> get.
Definition upd_tcl_ctx (f : tcl_ctx → tcl_ctx) : M tcl unit :=
  modify (λ s, Tcl (t_heap s) (f (t_ctx s)) (t_result s) (t_out s)).
Definition set_lsctx (x : option ptr) (c : tcl_ctx) : tcl_ctx :=
  TclCtx x (t_net c) (t_phys c) (t_virt c) (stack_pos c) (scope_stack c).
Definition set_net (x : option ptr) (c : tcl_ctx) : tcl_ctx :=
  TclCtx (t_lsctx c) x (t_phys c) (t_virt c) (stack_pos c) (scope_stack c).
Definition set_phys (x : option ptr) (c : tcl_ctx) : tcl_ctx :=
  TclCtx (t_lsctx c) (t_net c) x (t_virt c) (stack_pos c) (scope_stack c).
Definition set_virt (x : option ptr) (c : tcl_ctx) : tcl_ctx :=
  TclCtx (t_lsctx c) (t_net c) (t_phys c) x (stack_pos c) (scope_stack c).
Definition set_stack (pos : nat) (stack : list scope) (c : tcl_ctx) : tcl_ctx :=
  TclCtx (t_lsctx c) (t_net c) (t_phys c) (t_virt c) pos stack.

Definition set_result (msg : option string) : M tcl Z :=
  _ ← modify (λ s, Tcl (t_heap s) (t_ctx s) msg (t_out s)); mret TCL_ERROR.
Definition tcl_error (err : string) : M tcl Z := set_result (Some err).
(** An error that Tcl describes itself. *)
Definition lib_error : M tcl Z := set_result None.

(** lsctl does not check that the stack has room: it writes beyond the array, which is undefined
    behaviour. The fault stands for that; it is not an error that scripts could see. *)
Definition push_scope (s : scope) : M tcl unit :=
  c ← get_tcl_ctx;
  let pos := S (stack_pos c) in
  if bool_decide (pos < length (scope_stack c))%nat
  then upd_tcl_ctx (set_stack pos (<[pos := s]> (scope_stack c))) else fail OutOfBounds.
Definition pop_scope : M tcl unit := upd_tcl_ctx (λ c, set_stack (pred (stack_pos c)) (scope_stack c) c).
Definition get_scope : M tcl scope :=
  c ← get_tcl_ctx;
  match scope_stack c !! stack_pos c with Some s => mret s | None => fail OutOfBounds end.

(** A script is evaluated inside a scope, with the object of the scope in the context. *)
Definition in_scope (s : scope) (set : option ptr → tcl_ctx → tcl_ctx) (p : ptr) (body : M tcl Z) : M tcl Z :=
  _ ← push_scope s;
  _ ← upd_tcl_ctx (set (Some p));
  res ← body;
  _ ← upd_tcl_ctx (set None);
  _ ← pop_scope;
  mret res.

(** The name of a scope in an error message. *)
Definition scope_error (s : scope) : string :=
  match s with
  | S_ROOT => "command is not allowed inside root scope"
  | S_NET => "command is not allowed inside 'net' scope"
  | S_PHYS => "command is not allowed inside 'phys' scope"
  | S_VIRT => "command is not allowed inside 'virt' scope"
  end.
Definition check_scope (allowed : list scope) : M tcl Z :=
  current ← get_scope;
  if bool_decide (current ∈ allowed) then mret TCL_OK else tcl_error (scope_error current).

(** ** The Tcl library *)

(** A word of a command: a string, or a script between braces. *)
Inductive tcl_obj :=
| Word (s : string)
| Braces (script : list (list tcl_obj)).

(** An option of [Tcl_ParseArgsObjv] and the value that it stores. *)
Inductive argv_type := TCL_ARGV_STRING | TCL_ARGV_INT | TCL_ARGV_CONSTANT (c : Z) | TCL_ARGV_FUNC.
Inductive argv_value := ArgString (s : string) | ArgInt (n : Z) | ArgObj (o : tcl_obj).
Notation argv_info := (list (string * argv_type)).

Class TclLib := {
  (** The options that were found, in their order, and the words that remain, the command
      included; if no words may remain, an error. *)
  Tcl_ParseArgsObjv : argv_info → bool → list tcl_obj → option (list (string * argv_value) * list tcl_obj);
  Tcl_GetIntFromObj : tcl_obj → option Z;
  Tcl_GetIndexFromObj : tcl_obj → list string → option nat;
  Tcl_GetString : tcl_obj → string;
  (** The command [split] with the separator [/]. *)
  tcl_split : tcl_obj → list tcl_obj;
  (** The commands of a script. *)
  tcl_script : tcl_obj → list (list tcl_obj);
  (** The commands of Tcl itself. *)
  tcl_builtin : list tcl_obj → M tcl Z }.

Section lsext.
Context {T : TclLib} {J : JsonC}.
(** What local variables hold before they are assigned. *)
Context (uninit_mac : lsdn_mac_t) (uninit_str : option string).

(** The value of an option: the last one wins. *)
Definition opt_value (k : string) (b : list (string * argv_value)) : option argv_value := assoc k (reverse b).
Definition opt_string (k : string) (b : list (string * argv_value)) : option string :=
  match opt_value k b with Some (ArgString s) => Some s | _ => None end.
Definition opt_int (k : string) (dflt : Z) (b : list (string * argv_value)) : Z :=
  match opt_value k b with Some (ArgInt n) => n | _ => dflt end.
Definition opt_obj (k : string) (b : list (string * argv_value)) : option tcl_obj :=
  match opt_value k b with Some (ArgObj o) => Some o | _ => None end.
Definition opt_set (k : string) (b : list (string * argv_value)) : bool := negb (opt_int k 0 b =? 0).

Definition split_slashes (obj : tcl_obj) : list tcl_obj := tcl_split obj.

Definition the_lsctx : M tcl ptr := c ← get_tcl_ctx; deref (t_lsctx c).

(** A function that answers TCL_ERROR, or goes on with a value. *)
Definition or_fail {A} (m : M tcl (option A)) (k : A → M tcl Z) : M tcl Z :=
  r ← m; match r with Some a => k a | None => mret TCL_ERROR end.
Notation "x ↞ m ; k" := (or_fail m (λ x, k)) (at level 20, m at level 100, k at level 200).
(** Such a function from a status. *)
Definition ok_or (m : M tcl Z) : M tcl (option unit) :=
  r ← m; mret (if r =? TCL_OK then Some tt else None).
Definition err_none {A} (m : M tcl Z) : M tcl (option A) := _ ← m; mret None.

Definition parse_args (opts : argv_info) (rem : bool) (argv : list tcl_obj)
    : M tcl (option (list (string * argv_value) * list tcl_obj)) :=
  match Tcl_ParseArgsObjv opts rem argv with
  | Some r => mret (Some r)
  | None => err_none lib_error
  end.

Definition resolve_net_arg (arg : option string) (needed : bool) : M tcl (option (option ptr)) :=
  c ← get_tcl_ctx;
  match arg, t_net c with
  | Some _, Some _ => err_none (tcl_error "-net argument is not allowed inside net scope")
  | None, Some net => mret (Some (Some net))
  | Some arg, None =>
      ctx ← the_lsctx;
      net ← lift (lsdn_net_by_name ctx (Some arg));
      match net with
      | Some net => mret (Some (Some net))
      | None => err_none (tcl_error "can not find network")
      end
  | None, None =>
      if needed
      then err_none (tcl_error "network must be specified, either using -net argument or from net scope")
      else mret (Some None)
  end.

Definition resolve_phys_arg (arg : option string) (needed : bool) : M tcl (option (option ptr)) :=
  c ← get_tcl_ctx;
  match arg, t_phys c with
  | Some _, Some _ => err_none (tcl_error "-phys argument is not allowed inside phys scope")
  | None, Some phys => mret (Some (Some phys))
  | Some arg, None =>
      ctx ← the_lsctx;
      phys ← lift (lsdn_phys_by_name ctx (Some arg));
      match phys with
      | Some phys => mret (Some (Some phys))
      | None => err_none (tcl_error "can not find phys")
      end
  | None, None =>
      if needed
      then err_none (tcl_error "phys must be specified, either using -phys argument or from phys scope")
      else mret (Some None)
  end.

(** ** Settings *)

Definition settings_common (settings : option ptr) (name : option string) : M tcl Z :=
  settings ← deref settings;
  err ← lift (lsdn_settings_set_name settings (Some (default "default" name)));
  match err with
  | LSDNE_OK => mret TCL_OK
  | LSDNE_DUPLICATE =>
      tcl_error (if name then "Name already exists" else "Default settings already exist")
  | _ => fail Aborted
  end.

(** The commands for the types without a port, and for those with one. *)
Definition settings_plain (new : ptr → M heap (option ptr)) (argv : list tcl_obj) : M tcl Z :=
  r ↞ parse_args [("-name", TCL_ARGV_STRING)] false (tail argv);
  ctx ← the_lsctx;
  settings ← lift (new ctx);
  settings_common settings (opt_string "-name" r.1).
Definition tcl_settings_direct : list tcl_obj → M tcl Z := settings_plain lsdn_settings_new_direct.
Definition tcl_settings_vlan : list tcl_obj → M tcl Z := settings_plain lsdn_settings_new_vlan.

Definition settings_port (dflt : Z) (new : ptr → Z → M heap (option ptr)) (argv : list tcl_obj) : M tcl Z :=
  r ↞ parse_args [("-port", TCL_ARGV_INT); ("-name", TCL_ARGV_STRING)] false (tail argv);
  ctx ← the_lsctx;
  settings ← lift (new ctx (u16 (opt_int "-port" dflt r.1)));
  settings_common settings (opt_string "-name" r.1).
Definition tcl_settings_vxlan_e2e : list tcl_obj → M tcl Z := settings_port 4789 lsdn_settings_new_vxlan_e2e.
Definition tcl_settings_vxlan_static : list tcl_obj → M tcl Z := settings_port 4789 lsdn_settings_new_vxlan_static.
Definition tcl_settings_geneve : list tcl_obj → M tcl Z := settings_port 6081 lsdn_settings_new_geneve.
Definition tcl_settings_geneve_e2e : list tcl_obj → M tcl Z := settings_port 6081 lsdn_settings_new_geneve_e2e.

(** The address is not initialised. *)
Definition tcl_settings_vxlan_mcast (argv : list tcl_obj) : M tcl Z :=
  r ↞ parse_args [("-mcastIp", TCL_ARGV_STRING); ("-name", TCL_ARGV_STRING); ("-port", TCL_ARGV_INT)] false (tail argv);
  let ip := match opt_string "-mcastIp" r.1 with Some ip => Some ip | None => uninit_str end in
  match ip with
  | None => tcl_error "vxlan multicast require the -mcastIp argument"
  | Some ip =>
      match lsdn_parse_ip (String.list_ascii_of_string ip) with
      | (LSDNE_OK, Some ip) =>
          ctx ← the_lsctx;
          settings ← lift (lsdn_settings_new_vxlan_mcast ctx ip (u16 (opt_int "-port" 4789 r.1)));
          settings_common settings (opt_string "-name" r.1)
      | _ => tcl_error "mcastIp is not a valid ip address"
      end
  end.

Definition type_names : list string :=
  ["direct"; "vlan"; "vxlan/mcast"; "vxlan/static"; "vxlan/e2e"; "geneve"; "geneve/e2e"].

Definition tcl_settings (argv : list tcl_obj) : M tcl Z :=
  match argv with
  | _ :: type :: _ =>
      _ ↞ ok_or (check_scope [S_ROOT]);
      match Tcl_GetIndexFromObj type type_names with
      | None => lib_error
      | Some 0%nat => tcl_settings_direct argv
      | Some 1%nat => tcl_settings_vlan argv
      | Some 2%nat => tcl_settings_vxlan_mcast argv
      | Some 3%nat => tcl_settings_vxlan_static argv
      | Some 4%nat => tcl_settings_vxlan_e2e argv
      | Some 5%nat => tcl_settings_geneve argv
      | Some 6%nat => tcl_settings_geneve_e2e argv
      | Some _ => fail Aborted
      end
  | _ => lib_error
  end.

(** ** Networks and virts *)

(** [strtol] in base 10: white space, a sign, digits; the value is cut to the range of long. *)
Fixpoint dec_digits (s : cstring) (acc : Z) : Z :=
  match s with
  | c :: s => match digit c with Some d => dec_digits s (acc * 10 + d) | None => acc end
  | [] => acc
  end.
Definition strtol10 (s : cstring) : Z :=
  let s0 := skip_space s in
  let n := match s0 with
           | c :: r => if bool_decide (c = Ascii.ascii_of_nat 45) then - dec_digits r 0
                       else if bool_decide (c = Ascii.ascii_of_nat 43) then dec_digits r 0
                       else dec_digits s0 0
           | [] => 0
           end in
  Z.max (- 2 ^ 63) (Z.min (2 ^ 63 - 1) n).

(** The positional arguments; the command is the first of them. *)
Definition Tcl_WrongNumArgs : M tcl Z := lib_error.

(** The options of [net], [virt] and [phys]. *)
Definition net_opts : argv_info :=
  [("-vid", TCL_ARGV_INT); ("-settings", TCL_ARGV_STRING); ("-phys", TCL_ARGV_STRING);
   ("-remove", TCL_ARGV_CONSTANT 1)].
Definition virt_opts : argv_info :=
  [("-mac", TCL_ARGV_STRING); ("-phys", TCL_ARGV_STRING); ("-net", TCL_ARGV_STRING); ("-if", TCL_ARGV_STRING);
   ("-name", TCL_ARGV_STRING); ("-remove", TCL_ARGV_CONSTANT 1); ("-macClear", TCL_ARGV_CONSTANT 1)].
Definition phys_opts : argv_info :=
  [("-name", TCL_ARGV_STRING); ("-if", TCL_ARGV_STRING); ("-ip", TCL_ARGV_STRING); ("-net", TCL_ARGV_STRING);
   ("-remove", TCL_ARGV_CONSTANT 1); ("-ifClear", TCL_ARGV_CONSTANT 1); ("-ipClear", TCL_ARGV_CONSTANT 1)].

Section recursive.
(** [Tcl_EvalObj] *)
Context (eval : tcl_obj → M tcl Z).

Definition tcl_net (argv : list tcl_obj) : M tcl Z :=
  _ ↞ ok_or (check_scope [S_PHYS; S_ROOT]);
  r ↞ parse_args net_opts true argv;
  match r.2 with
  | [_; name] | [_; name; _] =>
      let str := Tcl_GetString name in
      ctx ← the_lsctx;
      net ← lift (lsdn_net_by_name ctx (Some str));
      if opt_set "-remove" r.1 then
        match net with
        | None => tcl_error "net not found, can not remove net"
        | Some net => _ ← lift (lsdn_net_free net); mret TCL_OK
        end
      else
      phys ↞ resolve_phys_arg (opt_string "-phys" r.1) false;
      let vid := opt_int "-vid" 0 r.1 in
      let vnet_id := u32 (if vid =? 0 then strtol10 (String.list_ascii_of_string str) else vid) in
      net ↞ match net, opt_string "-settings" r.1 with
            | None, sname =>
                s ← lift (lsdn_settings_by_name ctx (Some (default "default" sname)));
                match s with
                | None => err_none (tcl_error (if sname then "settings not found"
                                               else "Please define default network settings first"))
                | Some s => net ← lift (lsdn_net_new s vnet_id); mret (Some net)
                end
            | Some net, None => mret (Some (Some net))
            | Some _, Some _ => err_none (tcl_error "Can not change settings, the network already exists")
            end;
      net ← deref net;
      _ ← match phys with Some phys => _ ← lift (lsdn_phys_attach phys net); mret tt | None => mret tt end;
      _ ← lift (lsdn_net_set_name net (Some str));
      match r.2 with
      | [_; _; contents] =>
          in_scope S_NET set_net net (eval contents)
      | _ => mret TCL_OK
      end
  | _ => Tcl_WrongNumArgs
  end.

Definition tcl_virt (argv : list tcl_obj) : M tcl Z :=
  _ ↞ ok_or (check_scope [S_PHYS; S_NET; S_ROOT]);
  r ↞ parse_args virt_opts true argv;
  let mac := opt_string "-mac" r.1 in
  let name := opt_string "-name" r.1 in
  if negb (bool_decide (length r.2 = 2 ∨ length r.2 = 1)%nat) then Tcl_WrongNumArgs else
  net ↞ resolve_net_arg (opt_string "-net" r.1) true;
  net ← deref net;
  if bool_decide (is_Some mac) && opt_set "-macClear" r.1 then
    tcl_error "can not clear and set MAC address at the same time" else
  virt ← lift (lsdn_virt_by_name net name);
  if opt_set "-remove" r.1 then
    match virt with
    | None => tcl_error "virt not found, can not remove virt"
    | Some virt => _ ← lift (lsdn_virt_free virt); mret TCL_OK
    end
  else
  phys ↞ resolve_phys_arg (opt_string "-phys" r.1) false;
  virt ↞ match virt with
         | None => virt ← lift (lsdn_virt_new net); mret (Some virt)
         | Some virt =>
             n ← lift (lsdn_virt_get_net virt);
             if bool_decide (net ≠ n) then err_none (tcl_error "Can not change network for existing virt")
             else mret (Some (Some virt))
         end;
  mac ↞ match mac with
        | None => mret (Some None)
        | Some mac =>
            match lsdn_parse_mac uninit_mac (String.list_ascii_of_string mac) with
            | (LSDNE_OK, mac) => mret (Some (Some mac))
            | _ => err_none (tcl_error "mac address is in invalid format")
            end
        end;
  virt ← deref virt;
  _ ← match name with Some _ => _ ← lift (lsdn_virt_set_name virt name); mret tt | None => mret tt end;
  _ ← match mac with
      | Some mac => _ ← lift (lsdn_virt_set_mac virt mac); mret tt
      | None => if opt_set "-macClear" r.1 then lift (lsdn_virt_clear_mac virt) else mret tt
      end;
  _ ← match phys with
      | Some phys =>
          iface ← deref (opt_string "-if" r.1);
          _ ← lift (lsdn_virt_connect virt phys iface); mret tt
      | None => mret tt
      end;
  match r.2 with
  | [_; contents] =>
      in_scope S_VIRT set_virt virt (eval contents)
  | _ => mret TCL_OK
  end.

Definition tcl_phys (argv : list tcl_obj) : M tcl Z :=
  _ ↞ ok_or (check_scope [S_NET; S_ROOT]);
  r ↞ parse_args phys_opts true argv;
  let name := opt_string "-name" r.1 in
  let iface := opt_string "-if" r.1 in
  let ip := opt_string "-ip" r.1 in
  if bool_decide (is_Some iface) && opt_set "-ifClear" r.1 then
    tcl_error "can not clear and set interface at the same time" else
  if bool_decide (is_Some ip) && opt_set "-ipClear" r.1 then
    tcl_error "can not clear and set IP address at the same time" else
  ctx ← the_lsctx;
  phys ← lift (lsdn_phys_by_name ctx name);
  if opt_set "-remove" r.1 then
    match phys with
    | None => tcl_error "phys not found, can not remove phys"
    | Some phys => _ ← lift (lsdn_phys_free phys); mret TCL_OK
    end
  else
  net ↞ resolve_net_arg (opt_string "-net" r.1) false;
  phys ← match phys with None => lift (lsdn_phys_new ctx) | Some phys => mret (Some phys) end;
  ip ↞ match ip with
       | None => mret (Some None)
       | Some ip =>
           match lsdn_parse_ip (String.list_ascii_of_string ip) with
           | (LSDNE_OK, Some ip) => mret (Some (Some ip))
           | _ => err_none (tcl_error "ip address not in valid format")
           end
       end;
  phys ← deref phys;
  _ ← match name with Some _ => _ ← lift (lsdn_phys_set_name phys name); mret tt | None => mret tt end;
  _ ← match iface with
      | Some iface => _ ← lift (lsdn_phys_set_iface phys iface); mret tt
      | None => if opt_set "-ifClear" r.1 then lift (lsdn_phys_clear_iface phys) else mret tt
      end;
  _ ← match ip with
      | Some ip => _ ← lift (lsdn_phys_set_ip phys ip); mret tt
      | None => if opt_set "-ipClear" r.1 then lift (lsdn_phys_clear_ip phys) else mret tt
      end;
  _ ← match net with Some net => _ ← lift (lsdn_phys_attach phys net); mret tt | None => mret tt end;
  match r.2 with
  | [_] => in_scope S_PHYS set_phys phys (mret TCL_OK)
  | [_; contents] => in_scope S_PHYS set_phys phys (eval contents)
  | _ => _ ← push_scope S_PHYS; _ ← upd_tcl_ctx (set_phys (Some phys)); Tcl_WrongNumArgs
  end.
End recursive.

(** ** Rules *)

(** The value and the mask of a match, or an error. The mask of a MAC address is read from the
    first part too. *)
Definition parse_mac_match (obj : tcl_obj) : M tcl (option (lsdn_mac_t * lsdn_mac_t)) :=
  match split_slashes obj with
  | value_obj :: rest =>
      if bool_decide (length rest ≤ 1)%nat then
        match lsdn_parse_mac uninit_mac (String.list_ascii_of_string (Tcl_GetString value_obj)) with
        | (LSDNE_OK, value) =>
            match rest with
            | [] => mret (Some (value, lsdn_single_mac_mask))
            | _ =>
                match lsdn_parse_mac uninit_mac (String.list_ascii_of_string (Tcl_GetString value_obj)) with
                | (LSDNE_OK, mask) => mret (Some (value, mask))
                | _ => err_none (tcl_error "can not parse mac address mask")
                end
            end
        | _ => err_none (tcl_error "can not parse mac address")
        end
      else err_none (tcl_error "Mac match has too many parts. Expected either a single mac, or mac-value/mac-mask pair.")
  | [] => err_none (tcl_error "Mac match has too many parts. Expected either a single mac, or mac-value/mac-mask pair.")
  end.

Definition too_many_parts : string :=
  "Mac match has too many parts. Expected either a single ip, ip-value/ip-mask pair or ip-value/prefix pair.".

(** The mask after the slash: a prefix length if it is a number. *)
Definition parse_ip_mask (value : lsdn_ip_t) (mask_obj : tcl_obj) : M tcl (option lsdn_ip_t) :=
  match Tcl_GetIntFromObj mask_obj with
  | Some prefix =>
      if lsdn_is_prefix_valid (v value) prefix then
        match lsdn_ip_mask_from_prefix (v value) prefix tt with
        | Ok mask _ => mret (Some mask)
        | Fault f => fail f
        end
      else err_none (tcl_error "the network prefix has invalid size for given IP version")
  | None =>
      match lsdn_parse_ip (String.list_ascii_of_string (Tcl_GetString mask_obj)) with
      | (LSDNE_OK, Some mask) => mret (Some mask)
      | _ => err_none (tcl_error "can not parse mac address mask")
      end
  end.

Definition parse_ip_match (obj : tcl_obj) : M tcl (option (lsdn_ip_t * lsdn_ip_t)) :=
  match split_slashes obj with
  | value_obj :: rest =>
      if bool_decide (length rest ≤ 1)%nat then
        match lsdn_parse_ip (String.list_ascii_of_string (Tcl_GetString value_obj)) with
        | (LSDNE_OK, Some value) =>
            mask ← match rest with
                   | [] => mret (Some (match v value with
                                       | LSDN_IPv4 => lsdn_single_ipv4_mask
                                       | LSDN_IPv6 => lsdn_single_ipv6_mask
                                       end))
                   | mask_obj :: _ => parse_ip_mask value mask_obj
                   end;
            match mask with
            | None => mret None
            | Some mask =>
                if bool_decide (v value ≠ v mask)
                then err_none (tcl_error "The IP protocol versions for the value and mask do not match")
                else mret (Some (value, mask))
            end
        | _ => err_none (tcl_error "can not parse mac address")
        end
      else err_none (tcl_error too_many_parts)
  | [] => err_none (tcl_error too_many_parts)
  end.

Definition direction_names : list string := ["in"; "out"].
(** The array of the names has no NULL at its end, where [Tcl_GetIndexFromObj] would stop: unless
    the word is one of the names it reads beyond the array. *)
Definition direction_index (dir : tcl_obj) : M tcl nat :=
  if bool_decide (Tcl_GetString dir ∈ direction_names)
  then match Tcl_GetIndexFromObj dir direction_names with Some i => mret i | None => fail OutOfBounds end
  else fail OutOfBounds.
Definition direction_values (i : nat) : lsdn_direction := match i with O => LSDN_IN | _ => LSDN_OUT end.

(** A match that is parsed if its option is given. *)
Definition parse_opt {A} (f : tcl_obj → M tcl (option A)) (o : option tcl_obj) : M tcl (option (option A)) :=
  match o with
  | None => mret (Some None)
  | Some o => r ← f o; mret (match r with Some a => Some (Some a) | None => None end)
  end.
(** A condition that is added if its option is given. *)
Definition add_opt {A} (x : option A) (f : A → M heap unit) : M tcl unit :=
  match x with Some a => lift (f a) | None => mret tt end.

(** The condition on the destination MAC takes the variables of the source MAC. *)
Definition tcl_rule (argv : list tcl_obj) : M tcl Z :=
  _ ↞ ok_or (check_scope [S_VIRT]);
  match argv with
  | _ :: dir :: prio :: action :: _ =>
      i ← direction_index dir;
      match Tcl_GetIntFromObj prio with
      | Some prio =>
          if (prio <? LSDN_VR_PRIO_MIN) || (LSDN_VR_PRIO_MAX <=? prio) then
            tcl_error ("Rule priorities must be between " +:+ pretty LSDN_VR_PRIO_MIN +:+ " and " +:+
                       pretty LSDN_VR_PRIO_MAX)
          else if bool_decide (Tcl_GetString action ≠ "drop") then
            tcl_error "only the drop action is supported"
          else
          r ↞ parse_args [("-srcMac", TCL_ARGV_FUNC); ("-dstMac", TCL_ARGV_FUNC); ("-srcIp", TCL_ARGV_FUNC);
                          ("-dstIp", TCL_ARGV_FUNC)] false (drop 3 argv);
          let src_mac := opt_obj "-srcMac" r.1 in
          let dst_mac := opt_obj "-dstMac" r.1 in
          let src_ip := opt_obj "-srcIp" r.1 in
          let dst_ip := opt_obj "-dstIp" r.1 in
          let count := length (filter is_Some [src_mac; dst_mac; src_ip; dst_ip]) in
          if bool_decide (LSDN_MAX_MATCHES < count)%nat then
            tcl_error ("Maximum number of match targets per rule is: " +:+ pretty (Z.of_nat LSDN_MAX_MATCHES))
          else
          src_mac ↞ parse_opt parse_mac_match src_mac;
          dst_mac ↞ parse_opt parse_mac_match dst_mac;
          src_ip ↞ parse_opt parse_ip_match src_ip;
          dst_ip ↞ parse_opt parse_ip_match dst_ip;
          c ← get_tcl_ctx;
          virt ← deref (t_virt c);
          vr ← lift (lsdn_vr_new virt prio (direction_values i) LSDN_VR_DROP);
          let src := default (uninit_mac, uninit_mac) src_mac in
          _ ← add_opt src_mac (λ m, vr ← deref vr; lsdn_vr_add_masked_src_mac vr m.1 m.2);
          _ ← add_opt dst_mac (λ _, vr ← deref vr; lsdn_vr_add_masked_dst_mac vr src.1 src.2);
          _ ← add_opt src_ip (λ m, vr ← deref vr; lsdn_vr_add_masked_src_ip vr m.1 m.2);
          _ ← add_opt dst_ip (λ m, vr ← deref vr; lsdn_vr_add_masked_dst_ip vr m.1 m.2);
          mret TCL_OK
      | None => lib_error
      end
  | _ => Tcl_WrongNumArgs
  end.

Definition tcl_flushVr (argv : list tcl_obj) : M tcl Z :=
  _ ↞ ok_or (check_scope [S_VIRT]);
  c ← get_tcl_ctx;
  virt ← deref (t_virt c);
  _ ← lift (lsdn_vrs_free_all virt);
  mret TCL_OK.

(** ** Rates *)

(** [utab_bytes] *)
Definition utab_bytes : list (string * double) :=
  [("", f64_of_Z 1); ("kb", f64_of_Z 1024); ("mb", f64_of_Z (1024 * 1024)); ("gb", f64_of_Z (1024 * 1024 * 1024));
   ("bit", f64_const 1 8); ("kbit", f64_const 1024 8); ("mbit", f64_const (1024 * 1024) 8);
   ("gbit", f64_const (1024 * 1024 * 1024) 8)].

Definition isdigit (c : Ascii.ascii) : bool := bool_decide (is_Some (digit c)).
Definition isalpha (c : Ascii.ascii) : bool :=
  let n := chr c in ((65 <=? n) && (n <=? 90)) || ((97 <=? n) && (n <=? 122)).
Fixpoint span (p : Ascii.ascii → bool) (s : cstring) : cstring * cstring :=
  match s with
  | c :: s' => if p c then let '(a, b) := span p s' in (c :: a, b) else ([], s)
  | [] => ([], [])
  end.

(** [strtof] of digits, with or without a point and more digits: the float nearest to the number
    that the digits are, of which as many as [frac] are behind the point. *)
Definition strtof (int frac : cstring) : float :=
  f32_const (dec_digits (int ++ frac) 0) (Z.to_pos (10 ^ Z.of_nat (length frac))).
Example strtof_rounds : trunc (strtof (String.list_ascii_of_string "16777217") []) = Some 16777216.
Proof. reflexivity. Qed.

Definition parse_units (value : string) (unit_tab : list (string * double)) : M tcl (option float) :=
  let '(int, c) := span isdigit (String.list_ascii_of_string value) in
  if bool_decide (int = []) then err_none (tcl_error "numeric value must start with a digit") else
  let '(point, c) := match c with
                     | p :: c' => if bool_decide (p = Ascii.ascii_of_nat 46) then (true, c') else (false, c)
                     | [] => (false, c)
                     end in
  let '(frac, c) := if point : bool then span isdigit c else ([], c) in
  if point && bool_decide (frac = []) then err_none (tcl_error "digit must follow after '.'") else
  let '(unit, c) := span isalpha c in
  if negb (bool_decide (c = [])) then err_none (tcl_error "garbage foun after numeric value") else
  match assoc (String.string_of_list_ascii unit) unit_tab with
  | None => err_none (tcl_error "unknown unit")
  | Some scale => mret (Some (f32_of_f64 (f64_mul (f64_of_f32 (strtof int frac)) scale)))
  end.

Definition tcl_rate (argv : list tcl_obj) : M tcl Z :=
  _ ↞ ok_or (check_scope [S_VIRT]);
  match argv with
  | _ :: dir :: _ =>
      i ← direction_index dir;
      r ↞ parse_args [("-avg", TCL_ARGV_STRING); ("-burstRate", TCL_ARGV_STRING);
                      ("-burst", TCL_ARGV_STRING)] false (tail argv);
      avg_rate ↞ match opt_string "-avg" r.1 with
                 | Some avg => parse_units avg utab_bytes
                 | None => err_none (tcl_error "-avg argument must be specified")
                 end;
      burst_size ↞ match opt_string "-burst" r.1 with
                   | Some burst => parse_units burst utab_bytes
                   | None => err_none (tcl_error "-burst argument must be specified")
                   end;
      burst_rate ↞ match opt_string "-burstRate" r.1 with
                   | Some burst => parse_units burst utab_bytes
                   | None => mret (Some (SpecFloat.S754_zero false))
                   end;
      let rate := QosRate avg_rate (convert_u32 burst_size) burst_rate in
      c ← get_tcl_ctx;
      virt ← deref (t_virt c);
      _ ← match direction_values i with
          | LSDN_IN => lift (lsdn_virt_set_rate_in virt rate)
          | LSDN_OUT => lift (lsdn_virt_set_rate_out virt rate)
          end;
      mret TCL_OK
  | _ => Tcl_WrongNumArgs
  end.

(** ** The other commands *)

(** [lsdn_problem_stderr_handler] *)
Definition stderr_handler : option problem_cb_t := Some (user_problem_cb 0).

Definition tcl_commit (argv : list tcl_obj) : M tcl Z :=
  _ ↞ ok_or (check_scope [S_ROOT]);
  ctx ← the_lsctx;
  err ← lift (lsdn_commit ctx stderr_handler);
  if bool_decide (err ≠ LSDNE_OK) then tcl_error "commit error" else mret TCL_OK.

Definition tcl_validate (argv : list tcl_obj) : M tcl Z :=
  _ ↞ ok_or (check_scope [S_ROOT]);
  ctx ← the_lsctx;
  err ← lift (lsdn_validate ctx stderr_handler);
  if bool_decide (err ≠ LSDNE_OK) then tcl_error "validation error" else mret TCL_OK.

(** A loop over the positional arguments: the objects of these names, until one is missing. *)
Fixpoint for_names (find : string → M heap (option ptr)) (f : ptr → M heap unit) (missing : string)
    (args : list tcl_obj) : M tcl Z :=
  match args with
  | [] => mret TCL_OK
  | a :: args =>
      p ← lift (find (Tcl_GetString a));
      match p with
      | None => tcl_error missing
      | Some p => _ ← lift (f p); for_names find f missing args
      end
  end.

Definition tcl_claimLocal (argv : list tcl_obj) : M tcl Z :=
  _ ↞ ok_or (check_scope [S_ROOT; S_PHYS]);
  r ↞ parse_args [("-phys", TCL_ARGV_STRING)] true argv;
  phys ↞ resolve_phys_arg (opt_string "-phys" r.1) false;
  c ← get_tcl_ctx;
  match phys, tail r.2 with
  | Some _, _ :: _ =>
      tcl_error (if t_phys c then "claimLocal in phys scope does not expect a list of physes"
                 else "claimLocal with -phys argument does not expect a list of physes")
  | None, [] => tcl_error "expected either a list of physes, a phys scope or -phys argument"
  | Some phys, [] => _ ← lift (lsdn_phys_claim_local phys); mret TCL_OK
  | None, args =>
      ctx ← the_lsctx;
      for_names (λ n, lsdn_phys_by_name ctx (Some n)) (λ p, _ ← lsdn_phys_claim_local p; mret tt)
        "can not find phys" args
  end.

(** [tcl_cleanup] and [tcl_free]: the new context has no callback for a lack of memory. *)
Definition new_context (release : ptr → M heap unit) (argv : list tcl_obj) : M tcl Z :=
  _ ↞ ok_or (check_scope [S_ROOT]);
  if negb (bool_decide (length argv = 1%nat)) then Tcl_WrongNumArgs else
  ctx ← the_lsctx;
  _ ← lift (release ctx);
  ctx ← lift (lsdn_context_new "lsdn");
  _ ← upd_tcl_ctx (set_lsctx ctx);
  mret TCL_OK.
Definition tcl_cleanup : list tcl_obj → M tcl Z := new_context (λ ctx, lsdn_context_cleanup ctx stderr_handler).
Definition tcl_free : list tcl_obj → M tcl Z := new_context lsdn_context_free.

Definition attach_or_detach (cb : ptr → ptr → M heap unit) (argv : list tcl_obj) : M tcl Z :=
  _ ↞ ok_or (check_scope [S_ROOT; S_PHYS; S_NET]);
  r ↞ parse_args [("-phys", TCL_ARGV_STRING); ("-net", TCL_ARGV_STRING)] true argv;
  net ↞ resolve_net_arg (opt_string "-net" r.1) false;
  phys ↞ resolve_phys_arg (opt_string "-phys" r.1) false;
  let args := tail r.2 in
  match net, phys with
  | Some net, Some phys =>
      match args with
      | [] => _ ← lift (cb phys net); mret TCL_OK
      | _ => tcl_error "Can not specify all three: -phys (or phys scope), -net (or net scope) and positional arguments"
      end
  | Some net, None =>
      match args with
      | [] => tcl_error "Need to specify a phys, either as -phys argument, phys scope or positional argument"
      | _ => ctx ← the_lsctx; for_names (λ n, lsdn_phys_by_name ctx (Some n)) (λ p, cb p net) "phys not found" args
      end
  | None, Some phys =>
      match args with
      | [] => tcl_error "Need to specify a net, either as -net argument, net scope or positional argument"
      | _ => ctx ← the_lsctx; for_names (λ n, lsdn_net_by_name ctx (Some n)) (λ n, cb phys n) "net not found" args
      end
  | None, None =>
      tcl_error "command requires a -phys and -virt to attach (one of them can be a list of positional arguments)"
  end.
Definition tcl_attach : list tcl_obj → M tcl Z :=
  attach_or_detach (λ phys net, _ ← lsdn_phys_attach phys net; mret tt).
Definition tcl_detach : list tcl_obj → M tcl Z := attach_or_detach lsdn_phys_detach.

(** [enum dump_format]: DF_JSON is 0, DF_TCL is 1. *)
Definition tcl_show (argv : list tcl_obj) : M tcl Z :=
  _ ↞ ok_or (check_scope [S_ROOT]);
  r ↞ parse_args [("-json", TCL_ARGV_CONSTANT 0); ("-tcl", TCL_ARGV_CONSTANT 1)] false argv;
  let format := match last r.1 with Some (_, ArgInt n) => n | _ => 1 end in
  ctx ← the_lsctx;
  dump ← lift (if format =? 1 then lsdn_dump_context_tcl ctx
               else if format =? 0 then lsdn_dump_context_json ctx else mret None);
  match dump with
  | None => tcl_error "Not enough memory to dump"
  | Some dump =>
      _ ← modify (λ s, Tcl (t_heap s) (t_ctx s) (t_result s) (t_out s ++ [dump])); mret TCL_OK
  end.

(** ** Scripts *)

(** The commands by their names ([register_lsdn_tcl]). *)
Definition commands (eval : tcl_obj → M tcl Z) : list (string * (list tcl_obj → M tcl Z)) :=
  [("settings", tcl_settings); ("net", tcl_net eval); ("virt", tcl_virt eval); ("phys", tcl_phys eval);
   ("commit", tcl_commit); ("validate", tcl_validate); ("claimLocal", tcl_claimLocal);
   ("cleanup", tcl_cleanup); ("free", tcl_free); ("attach", tcl_attach); ("detach", tcl_detach);
   ("flushVr", tcl_flushVr); ("rule", tcl_rule); ("rate", tcl_rate); ("show", tcl_show)].
Definition run_command (eval : tcl_obj → M tcl Z) (argv : list tcl_obj) : M tcl Z :=
  match argv with
  | [] => mret TCL_OK
  | name :: _ =>
      match assoc (Tcl_GetString name) (commands eval) with Some f => f argv | None => tcl_builtin argv end
  end.

(** A script ends at its first error. *)
Fixpoint run_script (run : list tcl_obj → M tcl Z) (cmds : list (list tcl_obj)) : M tcl Z :=
  match cmds with
  | [] => mret TCL_OK
  | c :: cmds => r ← run c; if r =? TCL_OK then run_script run cmds else mret r
  end.

(** [Tcl_EvalObj] of a word; the fuel bounds the nesting of scripts, and [stop] is what happens
    without fuel. *)
Fixpoint eval_from (stop : tcl_obj → M tcl Z) (fuel : nat) (o : tcl_obj) : M tcl Z :=
  match fuel with
  | O => stop o
  | S fuel => run_script (run_command (eval_from stop fuel)) (tcl_script o)
  end.
Definition eval_obj : nat → tcl_obj → M tcl Z := eval_from (λ _, fail OutOfFuel).
End lsext.

(** [default_ctx] before it is set up, whatever its stack holds. *)
Definition default_ctx : tcl_ctx := TclCtx None None None None 0 (replicate MAX_SCOPE_NESTING S_ROOT).
(** [register_lsdn_tcl], when the calls of Tcl itself succeed. *)
Definition register_lsdn_tcl : M tcl Z :=
  ctx ← lift (lsdn_context_new "lsdn");
  _ ← upd_tcl_ctx (λ c, TclCtx ctx (t_net c) (t_phys c) (t_virt c) 0 (<[0%nat := S_ROOT]> (scope_stack c)));
  _ ← lift (lsdn_context_abort_on_nomem ctx);
  mret TCL_OK.
