(* ===== verification/LsctlScopes.v ===== *)
(** * The scopes of lsctl

    The commands [net], [phys] and [virt] evaluate a script inside a scope, which they push on a
    stack of [MAX_SCOPE_NESTING] entries. Which computations leave the stack alone, how deep
    scripts can nest, and when a script leaves the scopes as it found them. *)

From Stdlib Require Import ZArith Lia.
From stdpp Require Import base list gmap strings pretty.
From S2P Require Import Prelude.
From S2P Require Import Status.
From S2P Require Import Nettypes.
From S2P Require Import Heap.
From S2P Require Import Base.
From S2P Require Import Model.
From S2P Require Import Dump.
From S2P Require Import Lsctl.

Local Open Scope string_scope.
Local Open Scope list_scope.

(** ** Computations that leave the scopes alone *)

Definition same_scopes (s s' : tcl) : Prop := set_lsctx None (t_ctx s) = set_lsctx None (t_ctx s').
#[global] Instance same_scopes_equiv : Equivalence same_scopes.
Proof. unfold same_scopes. split; [done|by intros ? ?|by intros ? ? ? -> ->]. Qed.

Lemma same_scopes_fields s s' : same_scopes s s' →
  stack_pos (t_ctx s) = stack_pos (t_ctx s') ∧ scope_stack (t_ctx s) = scope_stack (t_ctx s') ∧
  t_net (t_ctx s) = t_net (t_ctx s') ∧ t_phys (t_ctx s) = t_phys (t_ctx s') ∧ t_virt (t_ctx s) = t_virt (t_ctx s').
Proof. unfold same_scopes, set_lsctx. intros Hs. by simplify_eq. Qed.

(** If [m] returns, the scopes are as before. *)
Definition keeps {A} (m : M tcl A) : Prop := ∀ s a s', m s = Ok a s' → same_scopes s s'.

Lemma keeps_ret {A} (a : A) : keeps (mret a).
Proof. by intros s b s' [= <- <-]. Qed.
Lemma keeps_fail {A} e : keeps (fail e : M tcl A).
Proof. by intros s b s' Hm. Qed.
Lemma keeps_bind {A B} (m : M tcl A) (f : A → M tcl B) : keeps m → (∀ a, keeps (f a)) → keeps (m ≫= f).
Proof.
  intros Hm Hf s b s'. unfold mbind, M_bind. destruct (m s) as [a s1|] eqn:Hs; [|done]. intros Hb.
  etrans; [by eapply Hm|by eapply Hf].
Qed.
Lemma keeps_lift {A} (m : M heap A) : keeps (lift m).
Proof. intros s a s'. unfold lift. destruct (m (t_heap s)); [|done]. by intros [= <- <-]. Qed.
Lemma keeps_modify (f : tcl → tcl) : (∀ s, same_scopes s (f s)) → keeps (modify f).
Proof. intros Hf s a s' [= <- <-]. apply Hf. Qed.
Lemma keeps_get : keeps get.
Proof. intros s a s' [= <- <-]. done. Qed.
Lemma keeps_deref {A} (o : option A) : keeps (deref o).
Proof. destruct o; [apply keeps_ret|apply keeps_fail]. Qed.

Create HintDb keeps discriminated.
#[export] Hint Resolve keeps_ret keeps_fail keeps_lift keeps_get keeps_deref : keeps.
#[export] Hint Extern 1 (keeps (modify _)) => apply keeps_modify; intros; reflexivity : keeps.
#[export] Hint Extern 2 (keeps (_ ≫= _)) => apply keeps_bind; [|intros ?] : keeps.
#[export] Hint Extern 2 (keeps (_ <$> _)) => apply keeps_bind; [|intros ?] : keeps.
#[export] Hint Extern 3 (keeps (match ?x with _ => _ end)) => destruct x : keeps.
Ltac keep := auto 60 with keeps nocore.
(** A function of the extension, by its body. *)
Ltac head_of t := lazymatch t with ?f _ => head_of f | _ => t end.
Ltac keep_body := intros; match goal with |- keeps ?m => let h := head_of m in unfold h; keep end.

Lemma keeps_ctx : keeps get_tcl_ctx.
Proof. keep_body. Qed.
Lemma keeps_lsctx x : keeps (upd_tcl_ctx (set_lsctx x)).
Proof. keep_body. Qed.
#[export] Hint Resolve keeps_ctx keeps_lsctx : keeps.
Lemma keeps_error err : keeps (tcl_error err).
Proof. unfold tcl_error. keep_body. Qed.
Lemma keeps_lib_error : keeps lib_error.
Proof. unfold lib_error. keep_body. Qed.
#[export] Hint Resolve keeps_error keeps_lib_error : keeps.
Lemma keeps_get_scope : keeps get_scope.
Proof. keep_body. Qed.
Lemma keeps_the_lsctx : keeps the_lsctx.
Proof. keep_body. Qed.
Lemma keeps_err_none {A} m : keeps m → keeps (err_none (A := A) m).
Proof. keep_body. Qed.
Lemma keeps_ok_or m : keeps m → keeps (ok_or m).
Proof. keep_body. Qed.
Lemma keeps_or_fail {A} (m : M tcl (option A)) k : keeps m → (∀ a, keeps (k a)) → keeps (or_fail m k).
Proof. keep_body. Qed.
#[export] Hint Resolve keeps_get_scope keeps_the_lsctx keeps_err_none keeps_ok_or keeps_or_fail : keeps.
Lemma keeps_check_scope allowed : keeps (check_scope allowed).
Proof. keep_body. Qed.
#[export] Hint Resolve keeps_check_scope : keeps.

Section commands.
Context {T : TclLib} {J : JsonC} (uninit_mac : lsdn_mac_t) (uninit_str : option string).

Lemma keeps_parse_args opts rem argv : keeps (parse_args opts rem argv).
Proof. keep_body. Qed.
Lemma keeps_resolve_net arg needed : keeps (resolve_net_arg arg needed).
Proof. keep_body. Qed.
Lemma keeps_resolve_phys arg needed : keeps (resolve_phys_arg arg needed).
Proof. keep_body. Qed.
Lemma keeps_direction dir : keeps (direction_index dir).
Proof. keep_body. Qed.
Lemma keeps_wrong_args : keeps Tcl_WrongNumArgs.
Proof. keep_body. Qed.
#[local] Hint Resolve keeps_parse_args keeps_resolve_net keeps_resolve_phys keeps_direction keeps_wrong_args : keeps.

Lemma keeps_settings_common st name : keeps (settings_common st name).
Proof. keep_body. Qed.
#[local] Hint Resolve keeps_settings_common : keeps.
Lemma keeps_settings_plain new argv : keeps (settings_plain new argv).
Proof. keep_body. Qed.
Lemma keeps_settings_port dflt new argv : keeps (settings_port dflt new argv).
Proof. keep_body. Qed.
Lemma keeps_settings_mcast argv : keeps (tcl_settings_vxlan_mcast uninit_str argv).
Proof. keep_body. Qed.
#[local] Hint Resolve keeps_settings_plain keeps_settings_port keeps_settings_mcast : keeps.
Lemma keeps_settings argv : keeps (tcl_settings uninit_str argv).
Proof.
  unfold tcl_settings, tcl_settings_direct, tcl_settings_vlan, tcl_settings_vxlan_static,
    tcl_settings_vxlan_e2e, tcl_settings_geneve, tcl_settings_geneve_e2e. keep.
Qed.

Lemma keeps_mac_match obj : keeps (parse_mac_match uninit_mac obj).
Proof. keep_body. Qed.
Lemma keeps_ip_mask ip obj : keeps (parse_ip_mask ip obj).
Proof. keep_body. Qed.
#[local] Hint Resolve keeps_mac_match keeps_ip_mask : keeps.
Lemma keeps_ip_match obj : keeps (parse_ip_match obj).
Proof. keep_body. Qed.
Lemma keeps_parse_opt {A} (f : tcl_obj → M tcl (option A)) o : (∀ x, keeps (f x)) → keeps (parse_opt f o).
Proof. keep_body. Qed.
Lemma keeps_add_opt {A} (x : option A) f : keeps (add_opt x f).
Proof. keep_body. Qed.
#[local] Hint Resolve keeps_ip_match keeps_parse_opt keeps_add_opt : keeps.
Lemma keeps_rule argv : keeps (tcl_rule uninit_mac argv).
Proof. keep_body. Qed.
Lemma keeps_flushVr argv : keeps (tcl_flushVr argv).
Proof. keep_body. Qed.
Lemma keeps_units value tab : keeps (parse_units value tab).
Proof. keep_body. Qed.
#[local] Hint Resolve keeps_units : keeps.
Lemma keeps_rate argv : keeps (tcl_rate argv).
Proof. keep_body. Qed.
Lemma keeps_commit argv : keeps (tcl_commit argv).
Proof. keep_body. Qed.
Lemma keeps_validate argv : keeps (tcl_validate argv).
Proof. keep_body. Qed.
Lemma keeps_for_names find f missing args : keeps (for_names find f missing args).
Proof. induction args as [|a args IH]; simpl; keep. Qed.
#[local] Hint Resolve keeps_for_names : keeps.
Lemma keeps_claimLocal argv : keeps (tcl_claimLocal argv).
Proof. keep_body. Qed.
Lemma keeps_new_context release argv : keeps (new_context release argv).
Proof. keep_body. Qed.
Lemma keeps_attach cb argv : keeps (attach_or_detach cb argv).
Proof. keep_body. Qed.
Lemma keeps_show argv : keeps (tcl_show argv).
Proof. keep_body. Qed.
#[local] Hint Resolve keeps_settings keeps_rule keeps_flushVr keeps_rate keeps_commit keeps_validate
  keeps_claimLocal keeps_new_context keeps_attach keeps_show : keeps.

(** ** The commands with scopes *)

(** The steps before a scope keep the scopes. So a relation of computations that such steps
    respect relates the commands for two ways to evaluate scripts, if it relates the scopes. *)
Record respects (P : M tcl Z → M tcl Z → Prop) : Prop := {
  rs_keeps m : keeps m → P m m;
  rs_bind A (m : M tcl A) f f' : keeps m → (∀ a, P (f a) (f' a)) → P (m ≫= f) (m ≫= f');
  rs_error A (f f' : A → M tcl Z) : P (or_fail (err_none lib_error) f) (or_fail (err_none lib_error) f') }.

Section related.
Context (P : M tcl Z → M tcl Z → Prop) (HP : respects P) (eval eval' : tcl_obj → M tcl Z).

Lemma rs_or_fail {A} (m : M tcl (option A)) f f' :
  keeps m → (∀ a, P (f a) (f' a)) → P (or_fail m f) (or_fail m f').
Proof. intros Hm Hf. apply (rs_bind P HP); [done|]. intros [a|]; [apply Hf|apply (rs_keeps P HP); keep]. Qed.
Lemma rs_parse opts rem argv f f' :
  (∀ r, Tcl_ParseArgsObjv opts rem argv = Some r → P (f r) (f' r)) →
  P (or_fail (parse_args opts rem argv) f) (or_fail (parse_args opts rem argv) f').
Proof.
  intros Hf. unfold parse_args. destruct (Tcl_ParseArgsObjv opts rem argv) as [r|]; [by apply Hf|].
  apply (rs_error P HP).
Qed.

(** Goes through the body of a command; [t] relates the scopes. *)
Ltac walk t :=
  lazymatch goal with
  | |- P (or_fail _ _) _ => apply rs_or_fail; [solve [keep]|intros ?; walk t]
  | |- P (mbind _ _) _ => apply (rs_bind P HP); [solve [keep]|intros ?; walk t]
  | |- P (match ?x with _ => _ end) _ => first [solve [t] | destruct x eqn:?; simplify_eq/=; walk t]
  | |- P (in_scope _ _ _ _) _ => t
  | |- _ => apply (rs_keeps P HP); solve [keep]
  end.

Lemma net_related argv :
  (∀ r o p, Tcl_ParseArgsObjv net_opts true argv = Some r → r.2 !! 2%nat = Some o →
    P (in_scope S_NET set_net p (eval o)) (in_scope S_NET set_net p (eval' o))) →
  P (tcl_net eval argv) (tcl_net eval' argv).
Proof.
  intros Hs. unfold tcl_net. apply rs_or_fail; [keep|intros _]. apply rs_parse. intros [b rest] Hr.
  specialize (λ o p, Hs _ o p Hr). cbn [fst snd] in *.
  walk ltac:(by apply Hs).
Qed.
Lemma virt_related argv :
  (∀ r o p, Tcl_ParseArgsObjv virt_opts true argv = Some r → r.2 !! 1%nat = Some o →
    P (in_scope S_VIRT set_virt p (eval o)) (in_scope S_VIRT set_virt p (eval' o))) →
  P (tcl_virt uninit_mac eval argv) (tcl_virt uninit_mac eval' argv).
Proof.
  intros Hs. unfold tcl_virt. apply rs_or_fail; [keep|intros _]. apply rs_parse. intros [b rest] Hr.
  specialize (λ o p, Hs _ o p Hr). cbn [fst snd] in *.
  walk ltac:(by apply Hs).
Qed.
Lemma phys_related argv :
  (∀ r m m' p, Tcl_ParseArgsObjv phys_opts true argv = Some r →
    (m = mret TCL_OK ∧ m' = m ∨ ∃ o, r.2 !! 1%nat = Some o ∧ m = eval o ∧ m' = eval' o) →
    P (in_scope S_PHYS set_phys p m) (in_scope S_PHYS set_phys p m')) →
  (∀ r p, Tcl_ParseArgsObjv phys_opts true argv = Some r → length r.2 ∉ [1; 2]%nat →
    let m := _ ← push_scope S_PHYS; _ ← upd_tcl_ctx (set_phys (Some p)); Tcl_WrongNumArgs in P m m) →
  P (tcl_phys eval argv) (tcl_phys eval' argv).
Proof.
  intros Hs Hw. unfold tcl_phys. apply rs_or_fail; [keep|intros _]. apply rs_parse. intros [b rest] Hr.
  specialize (λ m m' p, Hs _ m m' p Hr). specialize (λ p, Hw _ p Hr). cbn [fst snd] in *.
  assert (Htail : ∀ p,
    P (match rest with
       | [_] => in_scope S_PHYS set_phys p (mret TCL_OK)
       | [_; contents] => in_scope S_PHYS set_phys p (eval contents)
       | _ => _ ← push_scope S_PHYS; _ ← upd_tcl_ctx (set_phys (Some p)); Tcl_WrongNumArgs
       end)
      (match rest with
       | [_] => in_scope S_PHYS set_phys p (mret TCL_OK)
       | [_; contents] => in_scope S_PHYS set_phys p (eval' contents)
       | _ => _ ← push_scope S_PHYS; _ ← upd_tcl_ctx (set_phys (Some p)); Tcl_WrongNumArgs
       end)).
  { intros p. destruct rest as [|x [|y [|z rest]]].
    - apply Hw. set_solver.
    - apply Hs. by left.
    - apply Hs. right. by exists y.
    - apply Hw. simpl. set_solver. }
  walk ltac:(apply Htail).
Qed.

Lemma command_cases name argv :
  (Tcl_GetString name = "net" → P (tcl_net eval (name :: argv)) (tcl_net eval' (name :: argv))) →
  (Tcl_GetString name = "virt" → P (tcl_virt uninit_mac eval (name :: argv)) (tcl_virt uninit_mac eval' (name :: argv))) →
  (Tcl_GetString name = "phys" → P (tcl_phys eval (name :: argv)) (tcl_phys eval' (name :: argv))) →
  P (tcl_builtin (name :: argv)) (tcl_builtin (name :: argv)) →
  P (run_command uninit_mac uninit_str eval (name :: argv)) (run_command uninit_mac uninit_str eval' (name :: argv)).
Proof.
  intros Hn Hv Hp Hb. unfold run_command, commands. cbn [assoc].
  repeat case_bool_decide; first [by apply Hn | by apply Hv | by apply Hp | exact Hb | idtac];
    apply (rs_keeps P HP); unfold tcl_cleanup, tcl_free, tcl_attach, tcl_detach; solve [keep].
Qed.

(** The scopes of the commands. *)
Lemma command_related name argv :
  (∀ sc set p o, (sc, set) ∈ [(S_NET, set_net); (S_VIRT, set_virt); (S_PHYS, set_phys)] →
    P (in_scope sc set p (eval o)) (in_scope sc set p (eval' o))) →
  (∀ p, P (in_scope S_PHYS set_phys p (mret TCL_OK)) (in_scope S_PHYS set_phys p (mret TCL_OK))) →
  (∀ p, let m := _ ← push_scope S_PHYS; _ ← upd_tcl_ctx (set_phys (Some p)); Tcl_WrongNumArgs in P m m) →
  P (tcl_builtin (name :: argv)) (tcl_builtin (name :: argv)) →
  P (run_command uninit_mac uninit_str eval (name :: argv)) (run_command uninit_mac uninit_str eval' (name :: argv)).
Proof.
  intros Hs Hp Hw Hb. apply command_cases; [| | |done].
  - intros _. apply net_related. intros r o p _ _. apply Hs. left.
  - intros _. apply virt_related. intros r o p _ _. apply Hs. right. left.
  - intros _. apply phys_related; [|intros r p _ _; apply Hw].
    intros r m m' p _ [[-> ->]|(o & _ & -> & ->)]; [apply Hp|]. apply Hs. right. right. left.
Qed.
End related.

(** ** How deep scripts nest *)

(** A stack as [register_lsdn_tcl] makes it, with at least [k] scopes inside the root. *)
Definition depth (k : nat) (s : tcl) : Prop :=
  (k ≤ stack_pos (t_ctx s))%nat ∧ length (scope_stack (t_ctx s)) = MAX_SCOPE_NESTING.
Definition moves {A} (k k' : nat) (m : M tcl A) : Prop := ∀ s a s', depth k s → m s = Ok a s' → depth k' s'.
(** If [m] returns, it has not left a scope it was called in. *)
Definition deepens {A} (m : M tcl A) : Prop := ∀ k, moves k k m.

Lemma keeps_deepens {A} (m : M tcl A) : keeps m → deepens m.
Proof.
  intros Hm k s a s' [H1 H2] Hr. apply Hm, same_scopes_fields in Hr as (Hp & Hs & _).
  split; congruence.
Qed.
Lemma moves_bind {A B} i j k (m : M tcl A) (f : A → M tcl B) :
  moves i j m → (∀ a, moves j k (f a)) → moves i k (m ≫= f).
Proof.
  intros Hm Hf s b s' Hs. unfold mbind, M_bind. destruct (m s) as [a s1|] eqn:Hm1; [|done].
  intros Hb. eapply Hf; [|exact Hb]. by eapply Hm.
Qed.

(** The computations are equal where at least [k] scopes are open. *)
Definition agree {A} (k : nat) (m m' : M tcl A) : Prop := ∀ s, depth k s → m s = m' s.

Lemma agree_head {A B} k (m m' : M tcl A) (f : A → M tcl B) : agree k m m' → agree k (m ≫= f) (m' ≫= f).
Proof. intros Hm s Hs. unfold mbind, M_bind. by rewrite (Hm s Hs). Qed.
Lemma agree_tail {A B} k k' (m : M tcl A) (f f' : A → M tcl B) :
  moves k k' m → (∀ a, agree k' (f a) (f' a)) → agree k (m ≫= f) (m ≫= f').
Proof.
  intros Hm Hf s Hs. unfold mbind, M_bind. destruct (m s) as [a s1|] eqn:Hm1; [|done].
  apply Hf. by eapply Hm.
Qed.

Lemma agree_respects k : respects (agree k).
Proof.
  split; [by intros m _ s|intros A m f f' Hm Hf|by intros A f f' s Hs].
  eapply agree_tail; [by apply keeps_deepens|done].
Qed.
Lemma deepens_respects : respects (λ m _, deepens m).
Proof.
  split; [intros m; apply keeps_deepens|intros A m f f' Hm Hf k|intros A f f' k s a s' Hd [= <- <-]; done].
  eapply moves_bind; [by apply keeps_deepens|]. intros a. apply Hf.
Qed.

Lemma push_ok sc s a s' : push_scope sc s = Ok a s' →
  (S (stack_pos (t_ctx s)) < length (scope_stack (t_ctx s)))%nat ∧
  s' = Tcl (t_heap s) (set_stack (S (stack_pos (t_ctx s)))
    (<[S (stack_pos (t_ctx s)) := sc]> (scope_stack (t_ctx s))) (t_ctx s)) (t_result s) (t_out s).
Proof.
  destruct s as [h [lc n p v pos st] r o]. unfold push_scope, get_tcl_ctx, upd_tcl_ctx,
    fmap, M_fmap, mbind, M_bind, mret, M_ret, get, modify. cbv beta iota.
  case_bool_decide; [|done]. by intros [= <- <-].
Qed.
Lemma push_moves sc k : moves k (S k) (push_scope sc).
Proof.
  intros s a s' [Hk Hl] [Hp ->]%push_ok. split; cbn; [lia|by rewrite length_insert].
Qed.
Lemma pop_moves k : moves (S k) k pop_scope.
Proof. intros s a s' [Hk Hl] [= <- <-]. split; cbn; [lia|done]. Qed.

(** What a scope sets, its own member of the context, is not the stack. *)
Definition keeps_stack (set : option ptr → tcl_ctx → tcl_ctx) : Prop := ∀ x c,
  stack_pos (set x c) = stack_pos c ∧ scope_stack (set x c) = scope_stack c.
Lemma set_moves set x : keeps_stack set → deepens (upd_tcl_ctx (set x)).
Proof.
  intros Hset k s a s' [Hk Hl] [= <- <-]. destruct (Hset x (t_ctx s)) as [Hp Hs].
  split; cbn; [by rewrite Hp|by rewrite Hs].
Qed.

Lemma in_scope_agree k sc set p m m' : keeps_stack set → agree (S k) m m' →
  agree k (in_scope sc set p m) (in_scope sc set p m').
Proof.
  intros Hset Hm. eapply agree_tail; [apply push_moves|intros _].
  eapply agree_tail; [by apply set_moves|intros _]. by apply agree_head.
Qed.
Lemma in_scope_deepens sc set p m : keeps_stack set → deepens m → deepens (in_scope sc set p m).
Proof.
  intros Hset Hm k. eapply moves_bind; [apply push_moves|intros _].
  eapply moves_bind; [by apply set_moves|intros _]. eapply moves_bind; [apply Hm|intros r].
  eapply moves_bind; [by apply set_moves|intros _]. eapply moves_bind; [apply pop_moves|intros _].
  apply keeps_deepens. keep.
Qed.
(** In a full stack no scope can be entered. *)
Lemma in_scope_full k sc set p m m' : (pred MAX_SCOPE_NESTING ≤ k)%nat →
  agree k (in_scope sc set p m) (in_scope sc set p m').
Proof.
  intros Hmax s [Hk Hl]. unfold in_scope. unfold mbind, M_bind.
  destruct (push_scope sc s) as [a s'|] eqn:Hp; [|done]. apply push_ok in Hp as [Hp _].
  rewrite Hl in Hp. unfold MAX_SCOPE_NESTING in *. lia.
Qed.
Lemma scopes_keep_stack sc set : (sc, set) ∈ [(S_NET, set_net); (S_VIRT, set_virt); (S_PHYS, set_phys)] →
  keeps_stack set.
Proof. rewrite !elem_of_cons, elem_of_nil. intros [?|[?|[?|[]]]]; simplify_eq; by intros ? []. Qed.

Section nested.
(** The commands of Tcl itself do not leave the scope they are called in. *)
Context (builtin_deepens : ∀ argv, deepens (tcl_builtin argv)).

Lemma wrong_args_deepens p :
  deepens (_ ← push_scope S_PHYS; _ ← upd_tcl_ctx (set_phys (Some p)); Tcl_WrongNumArgs).
Proof.
  intros k. eapply moves_bind; [apply push_moves|intros _].
  eapply moves_bind; [by apply set_moves; intros ? []|intros _].
  intros s a s' [Hk Hl] [= <- <-]. split; cbn; [lia|done].
Qed.
Lemma command_deepens eval argv : (∀ o, deepens (eval o)) → deepens (run_command uninit_mac uninit_str eval argv).
Proof.
  intros He. destruct argv as [|name argv]; [apply (keeps_deepens (mret TCL_OK)); keep|].
  refine (command_related _ deepens_respects eval eval name argv _ _ _ _).
  - intros sc set p o Hset. eapply in_scope_deepens; [by eapply scopes_keep_stack|done].
  - intros p. apply in_scope_deepens; [by intros ? []|apply keeps_deepens; keep].
  - intros p. apply wrong_args_deepens.
  - done.
Qed.
Lemma script_deepens run cmds : (∀ c, deepens (run c)) → deepens (run_script run cmds).
Proof.
  intros Hr. induction cmds as [|c cmds IH]; simpl; [apply keeps_deepens; keep|]. intros k.
  eapply moves_bind; [apply Hr|]. intros r. destruct (r =? TCL_OK)%Z; [apply IH|apply keeps_deepens; keep].
Qed.
Lemma eval_deepens n o : deepens (eval_obj uninit_mac uninit_str n o).
Proof.
  revert o. induction n as [|n IH]; intros o; [apply keeps_deepens; cbn; keep|].
  apply script_deepens. intros c. by apply command_deepens.
Qed.

Lemma command_agree eval eval' k argv :
  (S k < MAX_SCOPE_NESTING → ∀ o, agree (S k) (eval o) (eval' o))%nat →
  agree k (run_command uninit_mac uninit_str eval argv) (run_command uninit_mac uninit_str eval' argv).
Proof.
  intros He. destruct argv as [|name argv]; [by intros s|].
  refine (command_related _ (agree_respects k) eval eval' name argv _ _ _ _); try by intros ? s.
  intros sc set p o Hset. destruct (decide (S k < MAX_SCOPE_NESTING)%nat).
  - apply in_scope_agree; [by eapply scopes_keep_stack|auto].
  - apply in_scope_full. lia.
Qed.
Lemma script_agree k run run' cmds : (∀ c, agree k (run c) (run' c)) → (∀ c, deepens (run' c)) →
  agree k (run_script run cmds) (run_script run' cmds).
Proof.
  intros Hr Hd. induction cmds as [|c cmds IH]; simpl; [by intros s|]. intros s Hs.
  unfold mbind, M_bind. rewrite (Hr c s Hs). destruct (run' c s) as [r s'|] eqn:Hc; [|done].
  destruct (r =? TCL_OK)%Z; [|done]. apply IH. by eapply Hd.
Qed.
Lemma eval_agree stop d n k o : (k + d = MAX_SCOPE_NESTING → 0 < d ≤ n →
  agree k (eval_from uninit_mac uninit_str stop n o) (eval_obj uninit_mac uninit_str d o))%nat.
Proof.
  revert n k o. induction d as [|d IH]; intros n k o Hk Hn; [lia|]. destruct n as [|n]; [lia|].
  apply script_agree; [intros c|intros c; apply command_deepens, eval_deepens].
  apply command_agree. intros Hlt o'. apply IH; lia.
Qed.
End nested.

(** ** Scopes that are left again *)

(** The scopes that are open, and the objects they set. *)
Definition open_scopes (c : tcl_ctx) : list scope := take (S (stack_pos c)) (scope_stack c).
Definition visible (s : tcl) : list scope * nat * option ptr * option ptr * option ptr :=
  let c := t_ctx s in (open_scopes c, length (scope_stack c), t_net c, t_phys c, t_virt c).

(** The outermost scope is the root, and an object is set if and only if its scope is open. *)
Record scopes_ok (s : tcl) : Prop := {
  so_pos : (stack_pos (t_ctx s) < length (scope_stack (t_ctx s)))%nat;
  so_length : length (scope_stack (t_ctx s)) = MAX_SCOPE_NESTING;
  so_root : head (open_scopes (t_ctx s)) = Some S_ROOT;
  so_net : is_Some (t_net (t_ctx s)) ↔ S_NET ∈ open_scopes (t_ctx s);
  so_phys : is_Some (t_phys (t_ctx s)) ↔ S_PHYS ∈ open_scopes (t_ctx s);
  so_virt : is_Some (t_virt (t_ctx s)) ↔ S_VIRT ∈ open_scopes (t_ctx s) }.

Definition current (s : tcl) : option scope := scope_stack (t_ctx s) !! stack_pos (t_ctx s).

(** If [m] returns where a scope in [allowed] is the innermost one, the scopes are as before. *)
Definition restores (allowed : list scope) (m : M tcl Z) : Prop := ∀ s sc r s',
  scopes_ok s → current s = Some sc → sc ∈ allowed → m s = Ok r s' → visible s' = visible s ∧ scopes_ok s'.

Lemma same_scopes_ok s s' : same_scopes s s' → scopes_ok s →
  visible s' = visible s ∧ scopes_ok s' ∧ current s' = current s.
Proof.
  intros Hs [H1 H2 H3 H4 H5 H6]. apply same_scopes_fields in Hs as (E1 & E2 & E3 & E4 & E5).
  unfold visible, current, open_scopes in *. rewrite E1, E2, E3, E4, E5 in *. by split_and!.
Qed.
Lemma same_scopes_restored s s' : scopes_ok s → same_scopes s s' → visible s' = visible s ∧ scopes_ok s'.
Proof. intros Hs Hr. apply same_scopes_ok in Hr; tauto. Qed.
Lemma keeps_restores allowed m : keeps m → restores allowed m.
Proof. intros Hm s sc r s' Hs _ _ Hr. eapply same_scopes_restored; [done|by eapply Hm]. Qed.
Lemma restores_respects allowed : respects (λ m _, restores allowed m).
Proof.
  split; [intros m; apply keeps_restores|intros A m f f' Hm Hf s sc r s' Hs Hc Ha|].
  - unfold mbind, M_bind. destruct (m s) as [x s1|] eqn:Hm1; [|done]. intros Hr.
    apply Hm in Hm1. apply same_scopes_ok in Hm1 as (<- & Hs1 & Hc1); [|done].
    eapply Hf; [done|by rewrite Hc1|done..].
  - intros A f f' s sc r s' Hs _ _ [= <- <-]. by apply same_scopes_restored.
Qed.

Definition all_scopes : list scope := [S_ROOT; S_NET; S_PHYS; S_VIRT].

(** The scope is checked first. *)
Lemma restores_checked allowed (k : () → M tcl Z) :
  restores allowed (or_fail (ok_or (check_scope allowed)) k) →
  restores all_scopes (or_fail (ok_or (check_scope allowed)) k).
Proof.
  intros Hk s sc r s' Hs Hc _ Hr. destruct (decide (sc ∈ allowed)) as [Ha|Ha]; [by eapply Hk|].
  revert Hr. unfold or_fail, ok_or, check_scope, get_scope, get_tcl_ctx, fmap, M_fmap, mbind, M_bind, get, mret, M_ret.
  unfold current in Hc. rewrite Hc. rewrite bool_decide_false by done. intros [= <- <-].
  by apply same_scopes_restored.
Qed.

Lemma open_length s : scopes_ok s → length (open_scopes (t_ctx s)) = S (stack_pos (t_ctx s)).
Proof. intros [H1 H2 _ _ _ _]. unfold open_scopes. rewrite length_take. lia. Qed.
Lemma visible_ok s s' : scopes_ok s → (stack_pos (t_ctx s') < length (scope_stack (t_ctx s')))%nat →
  visible s' = visible s → scopes_ok s'.
Proof. intros [H1 H2 H3 H4 H5 H6] Hp Hv. unfold visible in Hv. simplify_eq. split; congruence. Qed.

(** The scope of an object and the scopes it can be opened in. *)
Definition scope_rules : list (scope * (option ptr → tcl_ctx → tcl_ctx) * list scope) :=
  [(S_NET, set_net, [S_PHYS; S_ROOT]); (S_VIRT, set_virt, [S_PHYS; S_NET; S_ROOT]); (S_PHYS, set_phys, [S_NET; S_ROOT])].

(** A scope is never opened inside itself. *)
Lemma scope_absent sc set allowed s c :
  (sc, set, allowed) ∈ scope_rules → scopes_ok s → current s = Some c → c ∈ allowed →
  (S (stack_pos (t_ctx s)) < length (scope_stack (t_ctx s)))%nat → sc ∉ open_scopes (t_ctx s).
Proof.
  intros Hr [_ Hl Hroot _ _ _] Hc Ha Hp. unfold current, open_scopes in *. revert Hl Hroot Hc Hp.
  generalize (stack_pos (t_ctx s)) (scope_stack (t_ctx s)). unfold MAX_SCOPE_NESTING.
  intros pos [|x [|y [|z [|]]]] ? ? ? ?; simplify_eq/=.
  unfold scope_rules in Hr. rewrite !elem_of_cons, elem_of_nil in Hr.
  destruct pos as [|[|pos]]; simplify_eq/=; [| |lia];
    destruct Hr as [?|[?|[?|[]]]]; simplify_eq; set_solver.
Qed.

(** The state inside a scope. *)
Definition entered (sc : scope) (set : option ptr → tcl_ctx → tcl_ctx) (p : ptr) (s : tcl) : tcl :=
  let c := t_ctx s in
  Tcl (t_heap s) (set (Some p) (set_stack (S (stack_pos c)) (<[S (stack_pos c) := sc]> (scope_stack c)) c))
    (t_result s) (t_out s).

Lemma entered_open sc set allowed p s : (sc, set, allowed) ∈ scope_rules →
  (S (stack_pos (t_ctx s)) < length (scope_stack (t_ctx s)))%nat →
  open_scopes (t_ctx (entered sc set p s)) = open_scopes (t_ctx s) ++ [sc].
Proof.
  intros Hr Hp. unfold scope_rules in Hr. rewrite !elem_of_cons, elem_of_nil in Hr. unfold open_scopes.
  destruct Hr as [?|[?|[?|[]]]]; simplify_eq; cbn [entered t_ctx set_net set_virt set_phys set_stack stack_pos scope_stack];
    (erewrite take_S_r by (by apply list_lookup_insert_eq)); by rewrite take_insert_ge by lia.
Qed.
Lemma entered_ok sc set allowed p s : (sc, set, allowed) ∈ scope_rules → scopes_ok s →
  (S (stack_pos (t_ctx s)) < length (scope_stack (t_ctx s)))%nat →
  scopes_ok (entered sc set p s) ∧ current (entered sc set p s) = Some sc.
Proof.
  intros Hr [H1 H2 H3 H4 H5 H6] Hp. pose proof (entered_open sc set allowed p s Hr Hp) as Ho.
  unfold scope_rules in Hr. rewrite !elem_of_cons, elem_of_nil in Hr.
  split; [split|]; try rewrite Ho; clear Ho.
  - destruct Hr as [?|[?|[?|[]]]]; simplify_eq; simpl; by rewrite length_insert.
  - destruct Hr as [?|[?|[?|[]]]]; simplify_eq; simpl; by rewrite length_insert.
  - destruct (open_scopes (t_ctx s)); [done|]. by simplify_eq/=.
  - rewrite elem_of_app, list_elem_of_singleton.
    destruct Hr as [?|[?|[?|[]]]]; simplify_eq; cbn; rewrite <-?H4; naive_solver.
  - rewrite elem_of_app, list_elem_of_singleton.
    destruct Hr as [?|[?|[?|[]]]]; simplify_eq; cbn; rewrite <-?H5; naive_solver.
  - rewrite elem_of_app, list_elem_of_singleton.
    destruct Hr as [?|[?|[?|[]]]]; simplify_eq; cbn; rewrite <-?H6; naive_solver.
  - unfold current. destruct Hr as [?|[?|[?|[]]]]; simplify_eq; simpl; by apply list_lookup_insert_eq.
Qed.

Lemma in_scope_run sc set p m s r s' : in_scope sc set p m s = Ok r s' →
  (S (stack_pos (t_ctx s)) < length (scope_stack (t_ctx s)))%nat ∧
  ∃ s1, m (entered sc set p s) = Ok r s1 ∧
    let c := set None (t_ctx s1) in
    s' = Tcl (t_heap s1) (set_stack (pred (stack_pos c)) (scope_stack c) c) (t_result s1) (t_out s1).
Proof.
  unfold in_scope. unfold mbind, M_bind. destruct (push_scope sc s) as [[] s0|] eqn:Hp; [|done].
  apply push_ok in Hp as [Hp ->]. unfold upd_tcl_ctx, modify, entered. cbn [t_heap t_ctx t_result t_out].
  destruct (m _) as [r1 s1|] eqn:Hm; [|done]. intros [= <- <-]. split; [done|]. by exists s1.
Qed.
(** Leaving a scope undoes its opening. *)
Lemma left_visible sc set allowed p s s1 : (sc, set, allowed) ∈ scope_rules → scopes_ok s →
  (S (stack_pos (t_ctx s)) < length (scope_stack (t_ctx s)))%nat → sc ∉ open_scopes (t_ctx s) →
  scopes_ok s1 → visible s1 = visible (entered sc set p s) →
  let c := set None (t_ctx s1) in
  visible (Tcl (t_heap s1) (set_stack (pred (stack_pos c)) (scope_stack c) c) (t_result s1) (t_out s1)) = visible s.
Proof.
  intros Hr Hs Hp Habs Hs1 Hv. pose proof (entered_open sc set allowed p s Hr Hp) as Ho.
  pose proof (open_length _ Hs1) as Hl1. pose proof (open_length _ Hs) as Hl.
  assert (Hopen : open_scopes (t_ctx s1) = open_scopes (t_ctx (entered sc set p s)))
    by exact (f_equal (λ v, v.1.1.1.1) Hv).
  unfold visible in Hv. injection Hv as _ Hlen Hn Hph Hvi. rewrite Hopen, Ho, length_app, Hl in Hl1. cbn in Hl1.
  assert (Htake : take (S (stack_pos (t_ctx s))) (scope_stack (t_ctx s1)) = open_scopes (t_ctx s)).
  { assert (Ht : take (S (stack_pos (t_ctx s))) (open_scopes (t_ctx s1)) = open_scopes (t_ctx s)).
    { rewrite Hopen, Ho, take_app_le by lia. apply take_ge. lia. }
    unfold open_scopes in Ht at 1. rewrite take_take in Ht. by rewrite Nat.min_l in Ht by lia. }
  destruct Hs as [H1 H2 H3 H4 H5 H6]. unfold scope_rules in Hr. rewrite !elem_of_cons, elem_of_nil in Hr.
  assert (Hpos : stack_pos (t_ctx s1) = S (stack_pos (t_ctx s))) by lia.
  destruct Hr as [?|[?|[?|[]]]]; simplify_eq; unfold visible, open_scopes; cbn in *; rewrite Hpos; cbn;
    rewrite Htake, Hlen, length_insert, ?Hn, ?Hph, ?Hvi.
  - destruct (t_net (t_ctx s)) eqn:E; [|done]. exfalso. apply Habs, H4. by eexists.
  - destruct (t_virt (t_ctx s)) eqn:E; [|done]. exfalso. apply Habs, H6. by eexists.
  - destruct (t_phys (t_ctx s)) eqn:E; [|done]. exfalso. apply Habs, H5. by eexists.
Qed.

Lemma in_scope_restores sc set allowed p m : (sc, set, allowed) ∈ scope_rules →
  restores all_scopes m → restores allowed (in_scope sc set p m).
Proof.
  intros Hr Hm s c r s' Hs Hc Ha (Hp & s1 & Hrun & ->)%in_scope_run.
  destruct (entered_ok sc set allowed p s Hr Hs Hp) as [He Hce].
  assert (Habs : sc ∉ open_scopes (t_ctx s)) by (by eapply scope_absent).
  assert (Hall : sc ∈ all_scopes) by (destruct sc; set_solver).
  destruct (Hm _ _ _ _ He Hce Hall Hrun) as [Hv Hs1].
  pose proof (left_visible sc set allowed p s s1 Hr Hs Hp Habs Hs1 Hv) as Hleft. cbn zeta in Hleft.
  split; [exact Hleft|]. eapply visible_ok; [exact Hs| |exact Hleft]. destruct Hs1 as [Hpos _ _ _ _ _].
  unfold scope_rules in Hr. rewrite !elem_of_cons, elem_of_nil in Hr.
  destruct Hr as [?|[?|[?|[]]]]; simplify_eq; simpl; lia.
Qed.

(** ** Scripts without superfluous words *)

(** A word that a command evaluates. *)
Definition evaluated (rec : tcl_obj → bool) (opts : argv_info) (i : nat) (cmd : list tcl_obj) : bool :=
  match Tcl_ParseArgsObjv opts true cmd with
  | Some r => match r.2 !! i with Some o => rec o | None => true end
  | None => true
  end.
(** No [phys] command has more than one word after its options. *)
Definition tidy_command (rec : tcl_obj → bool) (cmd : list tcl_obj) : bool :=
  match cmd with
  | [] => true
  | name :: _ =>
      let n := Tcl_GetString name in
      if bool_decide (n = "net") then evaluated rec net_opts 2 cmd
      else if bool_decide (n = "virt") then evaluated rec virt_opts 1 cmd
      else if bool_decide (n = "phys") then
        match Tcl_ParseArgsObjv phys_opts true cmd with
        | Some r => bool_decide (length r.2 ∈ [1; 2]%nat)
        | None => true
        end && evaluated rec phys_opts 1 cmd
      else true
  end.
Fixpoint tidy (n : nat) (o : tcl_obj) : bool :=
  match n with
  | O => true
  | S n => forallb (tidy_command (tidy n)) (tcl_script o)
  end.

Section restored.
(** The commands of Tcl itself leave the scopes as they find them. *)
Context (builtin_restores : ∀ argv, restores all_scopes (tcl_builtin argv)).

Lemma evaluated_ok rec opts i cmd r o :
  evaluated rec opts i cmd = true → Tcl_ParseArgsObjv opts true cmd = Some r → r.2 !! i = Some o → rec o = true.
Proof. unfold evaluated. intros He Hr Ho. by rewrite Hr, Ho in He. Qed.

Lemma command_restores rec eval cmd : (∀ o, rec o = true → restores all_scopes (eval o)) →
  tidy_command rec cmd = true → restores all_scopes (run_command uninit_mac uninit_str eval cmd).
Proof.
  intros He Ht. destruct cmd as [|name argv]; [apply (keeps_restores _ (mret TCL_OK)); keep|].
  unfold tidy_command in Ht.
  refine (command_cases _ (restores_respects all_scopes) eval eval name argv _ _ _ _); [intros Hn..|done];
    rewrite Hn in Ht; repeat case_bool_decide; try done.
  - apply restores_checked. refine (net_related _ (restores_respects _) eval eval _ _).
    intros r o p Hr Ho. apply (in_scope_restores S_NET set_net); [left|]. eapply He, evaluated_ok; eassumption.
  - apply restores_checked. refine (virt_related _ (restores_respects _) eval eval _ _).
    intros r o p Hr Ho. apply (in_scope_restores S_VIRT set_virt); [right; left|]. eapply He, evaluated_ok; eassumption.
  - apply andb_true_iff in Ht as [Hw Ht]. apply restores_checked.
    refine (phys_related _ (restores_respects _) eval eval _ _ _).
    + intros r m m' p Hr Hm. apply (in_scope_restores S_PHYS set_phys); [right; right; left|].
      destruct Hm as [[-> _]|(o & Ho & -> & _)]; [apply keeps_restores; keep|]. eapply He, evaluated_ok; eassumption.
    + intros r p Hr Hl. rewrite Hr in Hw. by apply bool_decide_eq_true in Hw.
Qed.
Lemma script_restores run cmds : (∀ c, c ∈ cmds → restores all_scopes (run c)) →
  restores all_scopes (run_script run cmds).
Proof.
  induction cmds as [|c cmds IH]; intros Hr; simpl; [apply keeps_restores; keep|].
  intros s sc r s' Hs Hc Ha. unfold mbind, M_bind. destruct (run c s) as [r1 s1|] eqn:H1; [|done].
  eapply Hr in H1 as [<- Hs1]; [|by left|done..]. destruct (r1 =? TCL_OK)%Z; [|by intros [= <- <-]].
  intros Hrun. assert (∃ sc', current s1 = Some sc') as [sc' Hc'] by (apply lookup_lt_is_Some_2, Hs1).
  eapply IH; [|done|exact Hc'|by destruct sc'; set_solver|done]. intros c' Hc''. apply Hr. by right.
Qed.
Lemma eval_restores n o : tidy n o = true → restores all_scopes (eval_obj uninit_mac uninit_str n o).
Proof.
  revert o. induction n as [|n IH]; intros o Ht; [by intros s|].
  cbn [tidy] in Ht. apply script_restores. intros c Hc. rewrite forallb_forall in Ht.
  eapply command_restores; [exact IH|]. apply Ht. by apply list_elem_of_In.
Qed.
End restored.
End commands.
