(* ===== verification/LsctlWords.v ===== *)
(** * The words of lsctl commands

    What the Tcl library does with the words of a command, as laws, and what the parsers of
    lsext.c make of them: the conditions of rules that a dump prints, and numbers with units. *)

From Stdlib Require Import ZArith Lia.
From stdpp Require Import base list gmap strings pretty.
From S2P Require Import Prelude.
From S2P Require Import Float.
From S2P Require Import Status.
From S2P Require Import Nettypes.
From S2P Require Import Heap.
From S2P Require Import Base.
From S2P Require Import Model.
From S2P Require Import Dump.
From S2P Require Import DumpSpec.
From S2P Require Import DumpTcl.
From S2P Require Import Lsctl.

Local Open Scope string_scope.
Local Open Scope list_scope.
Local Open Scope Z_scope.

Notation chr_slash := (Ascii.ascii_of_nat 47).
Notation chr_dot := (Ascii.ascii_of_nat 46).
Notation chr_colon := (Ascii.ascii_of_nat 58).

(** What the documentation of Tcl says about words: an int in decimal is read as one, a text
    with a point or a colon is none, and [split] cuts at the separator. *)
Class TclLaws (T : TclLib) : Prop := {
  law_string s : Tcl_GetString (Word s) = s;
  law_int n : - 2 ^ 31 ≤ n < 2 ^ 31 → Tcl_GetIntFromObj (Word (pretty n)) = Some n;
  law_not_int s c : c ∈ chars s → c ∈ [chr_dot; chr_colon] → Tcl_GetIntFromObj (Word s) = None;
  law_split a b : chr_slash ∉ chars a → chr_slash ∉ chars b →
    tcl_split (Word (a +:+ "/" +:+ b)) = [Word a; Word b] }.

(** ** Characters of addresses *)

Definition addr_char (c : Ascii.ascii) : Prop := c ≠ chr_slash.
Lemma byte_addr b : byte b → Forall addr_char (hex2 b) ∧ Forall addr_char (dec b).
Proof.
  revert b. apply byte_ind. apply (bool_decide_unpack (Forall (λ b, _ ∧ _) _)). vm_compute. exact I.
Qed.
Lemma sep_addr s l : Forall addr_char s → Forall (Forall addr_char) l → Forall addr_char (sep s l).
Proof.
  intros Hs Hl. apply Forall_forall. intros c [Hc|(x & Hx & Hc)]%elem_of_sep.
  - by eapply Forall_forall in Hs.
  - rewrite Forall_forall in Hl. specialize (Hl x Hx). by eapply Forall_forall in Hl.
Qed.
Lemma ip_chars ip : ip_ok ip → Forall addr_char (lsdn_ip_to_string ip).
Proof.
  destruct ip as [[] l]; intros [_ Hb]; apply sep_addr; try (by repeat constructor); apply Forall_forall.
  - intros x (b & -> & Hin)%list_elem_of_fmap. rewrite Forall_forall in Hb. by apply byte_addr, Hb.
  - intros x (a & b & -> & Ha & Hb')%elem_of_groups. rewrite Forall_forall in Hb.
    apply Forall_app_2; by apply byte_addr, Hb.
Qed.
Lemma ip_point ip : ip_ok ip → ∃ c, c ∈ lsdn_ip_to_string ip ∧ c ∈ [chr_dot; chr_colon].
Proof.
  destruct ip as [[] l]; intros [Hl _]; unfold lsdn_ip_to_string; simpl in *.
  - exists chr_dot. split; [|by left]. destruct l as [|x [|y l]]; [done..|].
    unfold lsdn_ipv4_to_string. simpl. set_solver.
  - exists chr_colon. split; [|by right; left]. destruct l as [|x [|y [|z [|w l]]]]; [done..|].
    unfold lsdn_ipv6_to_string. simpl. set_solver.
Qed.
Lemma chars_text l : chars (String.string_of_list_ascii l) = l.
Proof. apply String.list_ascii_of_string_of_list_ascii. Qed.
Lemma pretty_no_slash (n : Z) : chr_slash ∉ chars (pretty n).
Proof.
  assert (Hc : ∀ k, addr_char (pretty_N_char k)) by (intros k; unfold pretty_N_char; by repeat case_match).
  assert (Hp : ∀ p, Forall addr_char (chars (pretty (N.pos p)))) by (intros p; by apply pretty_go_chars; [|constructor]).
  destruct n as [|p|p]; intros Hin; [by vm_compute in Hin; set_solver| |].
  - specialize (Hp p). rewrite Forall_forall in Hp. by apply (Hp _ Hin).
  - specialize (Hp p). rewrite Forall_forall in Hp. cbn in Hin. apply elem_of_cons in Hin as [|Hin]; [done|].
    by apply (Hp _ Hin).
Qed.

(** ** Conditions on addresses *)

Section words.
Context {T : TclLib} {TL : TclLaws T} {J : JsonC}.

Lemma ip_text_slash ip : ip_ok ip → chr_slash ∉ chars (ip_text ip).
Proof.
  intros Hip Hin. unfold ip_text in Hin. rewrite chars_text in Hin.
  pose proof (ip_chars ip Hip) as Hc. rewrite Forall_forall in Hc. by apply (Hc _ Hin).
Qed.
Lemma mask_text_slash ip : ip_ok ip → chr_slash ∉ chars (mask_text ip).
Proof.
  intros Hip. unfold mask_text. destruct (lsdn_ip_mask_is_prefix ip); [apply pretty_no_slash|by apply ip_text_slash].
Qed.

Lemma prefix_mask mask : ip_ok mask → lsdn_ip_mask_is_prefix mask = true →
  - 2 ^ 31 ≤ ones (ip_bytes mask) < 2 ^ 31 ∧
  lsdn_is_prefix_valid (v mask) (ones (ip_bytes mask)) = true ∧
  lsdn_ip_mask_from_prefix (v mask) (ones (ip_bytes mask)) tt = Ok mask tt.
Proof.
  destruct mask as [iv l]. intros [Hlen Hb] Hm. simpl in *.
  unfold lsdn_ip_mask_is_prefix in Hm. simpl in Hm. rewrite take_ge in Hm by lia.
  destruct (mask_bytes_gen l Hb Hm) as (p & Hp & Hsum & Hg). unfold ones. rewrite Hsum.
  assert (Hv : 0 ≤ p < 2 ^ 31 ∧ lsdn_is_prefix_valid iv p = true).
  { rewrite Hlen in Hp.
    destruct iv; unfold lsdn_is_prefix_valid, ip_len, LSDN_IPv4_LEN, LSDN_IPv6_LEN in *; lia. }
  destruct Hv as [Hr Hv]. split; [lia|]. split; [done|]. unfold lsdn_ip_mask_from_prefix, mbind, M_bind. rewrite Hv. simpl. by rewrite <-Hlen, Hg.
Qed.

Lemma parse_mask value mask s : ip_ok mask → v value = v mask →
  parse_ip_mask value (Word (mask_text mask)) s = Ok (Some mask) s.
Proof.
  intros Hip Hv. unfold parse_ip_mask, mask_text. destruct (lsdn_ip_mask_is_prefix mask) eqn:Hm.
  - destruct (prefix_mask mask Hip Hm) as (Hr & Hval & Hgen). by rewrite law_int, Hv, Hval, Hgen.
  - destruct (ip_point mask Hip) as (c & Hc & Hpt).
    rewrite (law_not_int _ c) by (unfold ip_text; by rewrite ?chars_text).
    rewrite law_string. unfold ip_text. by rewrite chars_text, parse_printed_ip.
Qed.

Lemma parse_ip_text value mask s : ip_ok value → ip_ok mask → v value = v mask →
  parse_ip_match (Word (ip_text value +:+ "/" +:+ mask_text mask)) s = Ok (Some (value, mask)) s.
Proof.
  intros Hval Hmask Hv. unfold parse_ip_match, split_slashes.
  rewrite law_split by (by first [apply ip_text_slash|apply mask_text_slash]).
  rewrite law_string. unfold ip_text. rewrite chars_text, parse_printed_ip by done.
  unfold mbind, M_bind. rewrite bool_decide_true by (simpl; lia).
  rewrite parse_mask by done. by rewrite bool_decide_false by naive_solver.
Qed.
End words.

(** ** Numbers with units *)

Definition all (p : Ascii.ascii → bool) (s : cstring) : Prop := Forall (λ c, p c = true) s.

(** [(\d+)(.\d+)?<unit>]: the texts that [parse_units] takes, with their values. *)
Definition reads (value : string) (tab : list (string * double)) (q : float) : Prop :=
  ∃ int frac unit scale,
    chars value = int ++ match frac with Some f => chr_dot :: f | None => [] end ++ unit ∧
    int ≠ [] ∧ all isdigit int ∧ (∀ f, frac = Some f → f ≠ [] ∧ all isdigit f) ∧ all isalpha unit ∧
    assoc (String.string_of_list_ascii unit) tab = Some scale ∧
    q = f32_of_f64 (f64_mul (f64_of_f32 (strtof int (default [] frac))) scale).

Definition stops (p : Ascii.ascii → bool) (s : cstring) : Prop :=
  match s with [] => True | c :: _ => p c = false end.
Lemma span_app p a b : all p a → stops p b → span p (a ++ b) = (a, b).
Proof.
  intros Ha Hb. induction Ha as [|c a Hc _ IH]; simpl.
  - destruct b as [|c b]; simpl in *; [done|]. by rewrite Hb.
  - by rewrite Hc, IH.
Qed.
Lemma span_all p a : all p a → span p a = (a, []).
Proof. intros Ha. rewrite <-(app_nil_r a) at 1. by apply span_app. Qed.
Lemma span_spec p s : s = (span p s).1 ++ (span p s).2 ∧ all p (span p s).1.
Proof.
  induction s as [|c s IH]; simpl; [by split; constructor|]. destruct (p c) eqn:Hc; [|by split; constructor].
  destruct (span p s) as [a b]. simpl in *. destruct IH as [Hs Ha].
  split; [by f_equal|by constructor].
Qed.

(** Digits, the point and letters are different characters. *)
Lemma alpha_char c : isalpha c = true → isdigit c = false ∧ bool_decide (c = chr_dot) = false.
Proof. by destruct c as [[] [] [] [] [] [] [] []]. Qed.
Lemma alpha_stops unit : all isalpha unit → stops isdigit unit ∧ stops (λ c, bool_decide (c = chr_dot)) unit.
Proof. intros [|c u Hc _]; [done|]. by apply alpha_char in Hc. Qed.

Lemma parse_units_complete value tab q s : reads value tab q → parse_units value tab s = Ok (Some q) s.
Proof.
  intros (int & frac & unit & scale & Hv & Hi & Hd & Hf & Hu & Ht & ->). unfold parse_units. rewrite Hv.
  destruct (alpha_stops unit Hu) as [Hs1 Hs2].
  rewrite span_app by (destruct frac; done). rewrite bool_decide_false by done.
  destruct frac as [f|]; cbn [app default].
  - destruct (Hf f eq_refl) as [Hne Hfd]. rewrite bool_decide_true by done. rewrite span_app by done.
    cbn [andb]. rewrite (bool_decide_false (f = [])) by done. rewrite span_all by done.
    rewrite bool_decide_true by done. cbn [negb]. by rewrite Ht.
  - destruct unit as [|c u]; [simpl in *; by rewrite Ht|]. simpl in Hs2. rewrite Hs2. cbn [andb].
    rewrite span_all by done. rewrite bool_decide_true by done. cbn [negb]. by rewrite Ht.
Qed.
Lemma parse_units_sound value tab s : (∃ q, reads value tab q) ∨
  ∃ msg, parse_units value tab s = Ok None (Tcl (t_heap s) (t_ctx s) (Some msg) (t_out s)).
Proof.
  unfold parse_units. pose proof (span_spec isdigit (chars value)) as H1.
  destruct (span isdigit (chars value)) as [int c]. destruct H1 as [Hv Hd]. simpl in Hv, Hd.
  case_bool_decide as Hi; [right; by eexists|].
  destruct c as [|p c].
  - (* no more than digits *)
    simpl. destruct (assoc _ tab) as [scale|] eqn:Ht; [|right; by eexists].
    left. eexists. exists int, None, [], scale. split_and!; try done; by constructor.
  - case_bool_decide as Hp.
    + pose proof (span_spec isdigit c) as H2. destruct (span isdigit c) as [f c2]. destruct H2 as [Hc Hf]. simpl in Hc, Hf.
      cbn [andb]. case_bool_decide as Hfe; [right; by eexists|].
      pose proof (span_spec isalpha c2) as H3. destruct (span isalpha c2) as [u c3]. destruct H3 as [Hc2 Hu]. simpl in Hc2, Hu.
      case_bool_decide as He; [|right; by eexists]. cbn [negb]. destruct (assoc _ tab) as [scale|] eqn:Ht; [|right; by eexists].
      left. eexists. exists int, (Some f), u, scale. subst. rewrite app_nil_r in *. split_and!; try done. naive_solver.
    + cbn [andb]. pose proof (span_spec isalpha (p :: c)) as H3. destruct (span isalpha (p :: c)) as [u c3].
      destruct H3 as [Hc2 Hu]. simpl in Hc2, Hu.
      case_bool_decide as He; [|right; by eexists]. cbn [negb]. destruct (assoc _ tab) as [scale|] eqn:Ht; [|right; by eexists].
      left. eexists. exists int, None, u, scale. subst c3. rewrite app_nil_r in Hc2. simplify_eq. split_and!; try done.
Qed.
