(* ===== verification/LsctlTheorems.v ===== *)
(** * The theorems about lsctl

    An implementation of the Tcl library that keeps its laws, and what the commands of lsctl do
    with conditions, numbers and scopes; examples of scripts that are run. *)

From Stdlib Require Import ZArith Lia.
From stdpp Require Import base list gmap strings pretty.
From S2P Require Import Prelude.
From S2P Require Import Float.
From S2P Require Import Status.
From S2P Require Import Nettypes.
From S2P Require Import Heap.
From S2P Require Import Base.
From S2P Require Import Model.
From S2P Require Import Kernel.
From S2P Require Import Dump.
From S2P Require Import Api.
From S2P Require Import Scenarios.
From S2P Require Import DumpSpec.
From S2P Require Import DumpTcl.
From S2P Require Import DumpTheorems.
From S2P Require Import Lsctl.
From S2P Require Import LsctlScopes.
From S2P Require Import LsctlWords.

Local Open Scope string_scope.
Local Open Scope list_scope.
Local Open Scope Z_scope.

(** ** An implementation of the Tcl library *)

Definition demo_digits (l : cstring) : option Z :=
  if negb (bool_decide (l = [])) && forallb isdigit l then Some (dec_digits l 0) else None.
Definition int_range (n : Z) : bool := (- 2 ^ 31 <=? n) && (n <? 2 ^ 31).
#[global] Arguments int_range : simpl never.
Definition demo_int (w : string) : option Z :=
  n ← match chars w with
      | c :: l => if bool_decide (c = Ascii.ascii_of_nat 45) then Z.opp <$> demo_digits l else demo_digits (c :: l)
      | [] => None
      end;
  if int_range n then Some n else None.

Definition demo_string (o : tcl_obj) : string := match o with Word s => s | Braces _ => "" end.

Fixpoint demo_split (cur l : cstring) : list tcl_obj :=
  match l with
  | [] => [Word (String.string_of_list_ascii (reverse cur))]
  | c :: l => if bool_decide (c = chr_slash) then Word (String.string_of_list_ascii (reverse cur)) :: demo_split [] l
              else demo_split (c :: cur) l
  end.

(** Options are given in full. *)
Fixpoint demo_args (opts : argv_info) (rem : bool) (argv : list tcl_obj)
    : option (list (string * argv_value) * list tcl_obj) :=
  match argv with
  | [] => Some ([], [])
  | o :: rest =>
      match assoc (demo_string o) opts, rest with
      | None, _ => if rem then r ← demo_args opts rem rest; Some (r.1, o :: r.2) else None
      | Some (TCL_ARGV_CONSTANT c), _ => r ← demo_args opts rem rest; Some ((demo_string o, ArgInt c) :: r.1, r.2)
      | Some TCL_ARGV_STRING, w :: rest =>
          r ← demo_args opts rem rest; Some ((demo_string o, ArgString (demo_string w)) :: r.1, r.2)
      | Some TCL_ARGV_INT, w :: rest =>
          n ← demo_int (demo_string w); r ← demo_args opts rem rest; Some ((demo_string o, ArgInt n) :: r.1, r.2)
      | Some TCL_ARGV_FUNC, w :: rest => r ← demo_args opts rem rest; Some ((demo_string o, ArgObj w) :: r.1, r.2)
      | Some _, [] => None
      end
  end.

Fixpoint index_of (w : string) (l : list string) : option nat :=
  match l with
  | [] => None
  | x :: l => if bool_decide (x = w) then Some O else S <$> index_of w l
  end.

#[global] Instance demo_tcl : TclLib := {
  Tcl_ParseArgsObjv opts rem argv := match argv with
    | [] => Some ([], [])
    | cmd :: argv => r ← demo_args opts rem argv; Some (r.1, cmd :: r.2)
    end;
  Tcl_GetIntFromObj o := demo_int (demo_string o);
  Tcl_GetIndexFromObj o names := index_of (demo_string o) names;
  Tcl_GetString := demo_string;
  tcl_split o := demo_split [] (chars (demo_string o));
  tcl_script o := match o with Braces s => s | Word _ => [] end;
  tcl_builtin _ := mret TCL_OK }.

Lemma digit_pretty k : (k < 10)%N → digit (pretty_N_char k) = Some (Z.of_N k).
Proof.
  intros Hk. assert (k = 0 ∨ k = 1 ∨ k = 2 ∨ k = 3 ∨ k = 4 ∨ k = 5 ∨ k = 6 ∨ k = 7 ∨ k = 8 ∨ k = 9)%N by lia.
  by repeat destruct_or?; subst.
Qed.
Lemma digits_pretty x s : dec_digits (chars (pretty_N_go x s)) 0 = dec_digits (chars s) (Z.of_N x).
Proof.
  revert s. induction (N.lt_wf_0 x) as [x _ IH]; intros s.
  destruct (decide (x = 0)%N) as [->|Hx]; [by rewrite pretty_N_go_0|].
  rewrite pretty_N_go_step by lia. rewrite IH by (apply N.div_lt; lia).
  cbn [chars dec_digits]. rewrite digit_pretty by (apply N.mod_lt; lia). f_equal.
  pose proof (N.div_mod x 10). lia.
Qed.
Lemma demo_digits_pretty x : demo_digits (chars (pretty x)) = Some (Z.of_N x).
Proof.
  unfold demo_digits. destruct (plain_N x) as [Hne _]. rewrite bool_decide_false; [cbn [negb andb]|by destruct (pretty x)].
  unfold pretty, pretty_N. case_decide as H0; [by subst|]. rewrite digits_pretty.
  assert (forallb isdigit (chars (pretty_N_go x "")) = true) as ->; [|done].
  apply forallb_forall. intros c Hc. apply list_elem_of_In in Hc.
  assert (Hall : Forall (λ c, isdigit c = true) (chars (pretty_N_go x ""))).
  { apply pretty_go_chars; [|constructor]. intros n. unfold pretty_N_char. by repeat case_match. }
  by eapply Forall_forall in Hall.
Qed.
Lemma demo_int_pretty n : - 2 ^ 31 ≤ n < 2 ^ 31 → demo_int (pretty n) = Some n.
Proof.
  intros Hn. assert (Hr : int_range n = true) by (unfold int_range; lia). unfold demo_int.
  destruct n as [|p|p]; [done| |].
  - change (pretty (Z.pos p)) with (pretty (N.pos p)). pose proof (demo_digits_pretty (N.pos p)) as Hd.
    destruct (chars (pretty (N.pos p))) as [|c l] eqn:Hc; [done|].
    rewrite bool_decide_false; [rewrite Hd; simpl; by rewrite Hr|].
    intros ->. unfold demo_digits in Hd. by rewrite andb_false_r in Hd.
  - change (chars (pretty (Z.neg p))) with (Ascii.ascii_of_nat 45 :: chars (pretty (N.pos p))).
    cbv beta iota. rewrite bool_decide_true by done. rewrite demo_digits_pretty. simpl.
    change (- Z.pos p) with (Z.neg p). by rewrite Hr.
Qed.

Lemma demo_not_int w c : c ∈ chars w → isdigit c = false → c ≠ Ascii.ascii_of_nat 45 → demo_int w = None.
Proof.
  intros Hc Hd Hm. assert (Hn : ∀ l, c ∈ l → demo_digits l = None).
  { intros l Hl. unfold demo_digits. destruct (forallb isdigit l) eqn:Hf.
    2: { by rewrite andb_false_r. }
    rewrite forallb_forall in Hf. specialize (Hf c (proj1 (list_elem_of_In _ _) Hl)). congruence. }
  unfold demo_int. destruct (chars w) as [|x l]; [done|]. case_bool_decide as Hx.
  - apply elem_of_cons in Hc as [?|Hl]; [by subst|]. by rewrite Hn.
  - by rewrite Hn.
Qed.

Lemma demo_split_go cur a b : chr_slash ∉ a →
  demo_split cur (a ++ chr_slash :: b) =
  Word (String.string_of_list_ascii (reverse cur ++ a)) :: demo_split [] b.
Proof.
  revert cur. induction a as [|c a IH]; intros cur Ha; cbn [app demo_split].
  - rewrite bool_decide_true by done. by rewrite app_nil_r.
  - rewrite bool_decide_false by set_solver. rewrite IH by set_solver. by rewrite reverse_cons, <-app_assoc.
Qed.
Lemma demo_split_end cur a : chr_slash ∉ a →
  demo_split cur a = [Word (String.string_of_list_ascii (reverse cur ++ a))].
Proof.
  revert cur. induction a as [|c a IH]; intros cur Ha; cbn [demo_split]; [by rewrite app_nil_r|].
  rewrite bool_decide_false by set_solver. rewrite IH by set_solver. by rewrite reverse_cons, <-app_assoc.
Qed.

#[global] Instance demo_tcl_laws : TclLaws demo_tcl.
Proof.
  split.
  - done.
  - exact demo_int_pretty.
  - intros s c Hc Hp. simpl. rewrite !elem_of_cons, elem_of_nil in Hp.
    eapply demo_not_int; [exact Hc|..]; by destruct Hp as [->|[->|[]]].
  - intros a b Ha Hb. cbn [tcl_split demo_tcl demo_string]. rewrite !chars_app.
    change (chars "/") with [chr_slash]. cbn [app].
    rewrite demo_split_go, demo_split_end by done. cbn [reverse rev_append app].
    by rewrite !String.string_of_list_ascii_of_string.
Qed.

(** ** The theorems *)

(** C31: The word that a dump prints for a condition on an IP address can be read by lsctl:
    [parse_ip_match], which the [rule] command applies to the words after its options for IP
    addresses, gives back from it the address and the mask of the condition, for both versions
    of IP and every mask, be it a prefix or not. Conditions on MAC addresses are outside the
    statement, since their masks are lost on both ways. *)
Theorem condition_replays (T : TclLib) (TL : TclLaws T) (t : lsdn_rule_target) (iv : lsdn_ipv)
    (value mask : matchdata) (s : tcl) :
  match_ipv t = Some iv → condition_ok (t, value, mask) →
  ∃ w, condition_words (t, value, mask) = [match_option t; w] ∧
    parse_ip_match (Word w) s =
    Ok (Some (Ip iv (take (ip_len iv) value), Ip iv (take (ip_len iv) mask))) s.
Proof.
  intros Ht (_ & [Hlv Hv] & [Hlm Hm] & _). cbn [condition_words]. rewrite Ht. eexists. split; [done|].
  assert (Hlen : (ip_len iv ≤ LSDN_MAX_MATCH_LEN)%nat) by (by destruct iv; apply (bool_decide_unpack (_ ≤ _)%nat)).
  apply parse_ip_text; [split|split|done]; simpl; rewrite ?length_take; try lia; by apply Forall_take.
Qed.

Definition no_state : tcl := Tcl (empty_heap good_env) default_ctx None [].
Lemma condition_replays_witness :
  ∃ w, condition_words (LSDN_MATCH_SRC_IPV4, [10; 1; 0; 0; 0; 0; 0; 0; 0; 0; 0; 0; 0; 0; 0; 0],
                        [255; 240; 0; 0; 0; 0; 0; 0; 0; 0; 0; 0; 0; 0; 0; 0]) = ["-srcIp"; w] ∧
    parse_ip_match (Word w) no_state =
    Ok (Some (Ip LSDN_IPv4 [10; 1; 0; 0], Ip LSDN_IPv4 [255; 240; 0; 0])) no_state.
Proof.
  apply (condition_replays demo_tcl demo_tcl_laws LSDN_MATCH_SRC_IPV4 LSDN_IPv4); [reflexivity|].
  apply (bool_decide_unpack (condition_ok _)). vm_compute. exact I.
Defined.

(** C33: [parse_units] takes exactly the texts of digits, of which some may follow a point, and
    a unit of the table, and answers the float nearest to the number of the digits, multiplied
    with the scale of the unit in double precision and rounded to a float again. For any other
    text it answers an error with a message, and nothing changes but the message. *)
Theorem parse_units_exact (value : string) (tab : list (string * double)) (s : tcl) :
  (∀ q, parse_units value tab s = Ok (Some q) s ↔ reads value tab q) ∧
  ((∀ q, ¬ reads value tab q) →
    ∃ msg, parse_units value tab s = Ok None (Tcl (t_heap s) (t_ctx s) (Some msg) (t_out s))).
Proof.
  split.
  - intros q. split; [|apply parse_units_complete]. intros Hq.
    destruct (parse_units_sound value tab s) as [[q' Hr]|[msg Hr]]; [|by rewrite Hr in Hq].
    pose proof (parse_units_complete _ _ _ s Hr) as Hc. rewrite Hq in Hc. by simplify_eq.
  - intros Hn. destruct (parse_units_sound value tab s) as [[q Hr]|?]; [by destruct (Hn q)|done].
Qed.

Section scopes.
Context (T : TclLib) (J : JsonC) (uninit_mac : lsdn_mac_t) (uninit_str : option string).

(** The fuel of the evaluator is enough. A script that opens a scope is evaluated with one more
    entry on the stack of scopes; the model ends with the fault [OutOfBounds] at the entry after
    the last, where lsctl, which has no check there, has undefined behaviour. So from a state
    with [pos] entries in use after the first, fuel for MAX_SCOPE_NESTING - [pos] nested scripts
    gives the answer of the model: with more fuel it is the same, and what would happen without
    fuel ([stop]) never matters. This says nothing about how deep scripts of lsctl can nest; the
    commands of Tcl itself are only expected not to leave the scope they are called in. *)
Theorem enough_fuel (stop : tcl_obj → M tcl Z) (n : nat) (o : tcl_obj) (s : tcl) :
  (∀ argv, deepens (tcl_builtin argv)) →
  length (scope_stack (t_ctx s)) = MAX_SCOPE_NESTING →
  (stack_pos (t_ctx s) < MAX_SCOPE_NESTING)%nat →
  (MAX_SCOPE_NESTING - stack_pos (t_ctx s) ≤ n)%nat →
  eval_from uninit_mac uninit_str stop n o s =
  eval_obj uninit_mac uninit_str (MAX_SCOPE_NESTING - stack_pos (t_ctx s)) o s.
Proof.
  intros Hb Hl Hpos Hn. apply (eval_agree uninit_mac uninit_str Hb stop _ _ (stack_pos (t_ctx s))); [lia..|].
  by split.
Qed.

(** C32: A script leaves the scopes as it found them, whether it succeeds or ends with an error:
    the scopes that are open are the same, and so are the network, the phys and the virt of
    the context. It is enough that no [phys] command, in the script or in the scripts it
    evaluates, has more than one word after its options ([tidy]), and that the commands of Tcl
    itself leave the scopes alone. *)
Theorem scripts_leave_scopes (n : nat) (o : tcl_obj) (s s' : tcl) (r : Z) :
  (∀ argv, restores all_scopes (tcl_builtin argv)) → scopes_ok s → tidy n o = true →
  eval_obj uninit_mac uninit_str n o s = Ok r s' → visible s' = visible s ∧ scopes_ok s'.
Proof.
  intros Hb Hs Ht Hr. assert (∃ sc, current s = Some sc) as [sc Hc] by (apply lookup_lt_is_Some_2, Hs).
  eapply eval_restores; [exact Hb|exact Ht|exact Hs|exact Hc|destruct sc; set_solver|exact Hr].
Qed.
End scopes.

(** ** Scripts that are run *)

Definition w (s : string) : tcl_obj := Word s.
Definition cmd (l : list string) : list tcl_obj := Word <$> l.
(** A command with a script as its last word. *)
Definition block (l : list string) (body : list (list tcl_obj)) : list tcl_obj := (Word <$> l) ++ [Braces body].

(** lsctl after it was started, in a kernel that acknowledges what it can. *)
Definition started : tcl := match register_lsdn_tcl no_state with Ok _ s => s | Fault _ => no_state end.
(** Evaluates a script; variables that are not assigned hold zeroes. *)
Definition tclsh (script : list (list tcl_obj)) (s : tcl) : res tcl Z :=
  eval_obj (T := demo_tcl) (J := demo_json) lsdn_all_zeroes_mac None MAX_SCOPE_NESTING (Braces script) s.

(** How a run ends: with a status and the message of the error, or with a fault. *)
Definition outcome (r : res tcl Z) : Z * option string + fault :=
  match r with Ok st s => inl (st, t_result s) | Fault f => inr f end.
Definition after (r : res tcl Z) (script : list (list tcl_obj)) : res tcl Z :=
  match r with Ok _ s => tclsh script s | Fault f => Fault f end.

Definition vlan_settings : list tcl_obj := cmd ["settings"; "vlan"].
Definition net_a : list (list tcl_obj) :=
  [vlan_settings;
   block ["net"; "-vid"; "7"; "a"] [block ["phys"; "-name"; "p"; "-if"; "eth0"] [cmd ["claimLocal"]];
                                    block ["virt"; "-name"; "v"; "-phys"; "p"; "-if"; "eth1"]
                                      [cmd ["rule"; "in"; "10"; "drop"; "-srcIp"; "10.0.0.0/8"]]]].

Lemma started_stack : length (scope_stack (t_ctx started)) = MAX_SCOPE_NESTING ∧ stack_pos (t_ctx started) = 0%nat.
Proof. split; vm_compute; reflexivity. Qed.
Lemma started_scopes : scopes_ok started.
Proof.
  split; try (vm_compute; reflexivity); try (by apply (bool_decide_unpack (_ < _)%nat); vm_compute);
    split; intros H; vm_compute in H; first [by destruct H | set_solver].
Qed.

Lemma enough_fuel_started :
  eval_from (T := demo_tcl) (J := demo_json) lsdn_all_zeroes_mac None (λ _, mret TCL_OK) 9 (Braces net_a) started =
  eval_obj (T := demo_tcl) (J := demo_json) lsdn_all_zeroes_mac None 3 (Braces net_a) started.
Proof.
  destruct started_stack as [Hl Hp].
  rewrite (enough_fuel demo_tcl demo_json lsdn_all_zeroes_mac None (λ _, mret TCL_OK) 9 (Braces net_a) started).
  - by rewrite Hp.
  - intros argv. apply keeps_deepens, keeps_ret.
  - exact Hl.
  - rewrite Hp. unfold MAX_SCOPE_NESTING. lia.
  - rewrite Hp. unfold MAX_SCOPE_NESTING. lia.
Qed.

Definition net_a_state : tcl := match tclsh net_a started with Ok _ s => s | Fault _ => started end.
Lemma net_a_run : tclsh net_a started = Ok TCL_OK net_a_state.
Proof.
  assert (Ho : outcome (tclsh net_a started) = inl (TCL_OK, None)) by (vm_compute; reflexivity).
  unfold net_a_state. destruct (tclsh net_a started) as [st s|]; [|done]. by injection Ho as ->.
Qed.
Lemma scripts_leave_scopes_witness : visible net_a_state = visible started ∧ scopes_ok net_a_state.
Proof.
  apply (scripts_leave_scopes demo_tcl demo_json lsdn_all_zeroes_mac None 3 (Braces net_a) started net_a_state TCL_OK).
  - intros argv. apply keeps_restores, keeps_ret.
  - exact started_scopes.
  - vm_compute. reflexivity.
  - exact net_a_run.
Defined.

(** What scripts can do to the scopes. A [phys] command with a word too many ends with an
    error inside its scope, so that every [commit] after it is refused. A [net] in a [phys] in
    a [net] is let through by the checks of the scopes and written beyond the stack. A network
    that is removed inside its own scope is used again when the script goes on. A virt with a
    phys but no interface dereferences NULL. *)
Example scope_hazards :
  outcome (after (tclsh [cmd ["phys"; "-name"; "p"; "x"; "y"]] started) [cmd ["commit"]]) =
    inl (TCL_ERROR, Some "command is not allowed inside 'phys' scope") ∧
  outcome (tclsh [vlan_settings; block ["net"; "a"] [block ["phys"; "-name"; "p"] [block ["net"; "b"] []]]] started) =
    inr OutOfBounds ∧
  outcome (tclsh [vlan_settings; block ["net"; "a"] [block ["phys"; "-name"; "p"] [cmd ["net"; "-remove"; "a"]];
                                                     cmd ["virt"; "-name"; "v"]]] started) = inr Dangling ∧
  outcome (tclsh (net_a ++ [cmd ["virt"; "-net"; "a"; "-name"; "x"; "-phys"; "p"]]) started) = inr NullDeref.
Proof. vm_compute. split_and!; reflexivity. Qed.

(** ** Dumps that are run *)

(** The commands of a text, from its lines: a line that ends with a brace opens a script. *)
Fixpoint nest (lines : list (list string)) (stack : list (list string * list (list tcl_obj)))
    (cur : list (list tcl_obj)) : list (list tcl_obj) :=
  match lines with
  | [] => cur
  | l :: lines =>
      if bool_decide (l = ["}"]) then
        match stack with
        | (head, outer) :: stack => nest lines stack (outer ++ [block head cur])
        | [] => cur
        end
      else if bool_decide (last l = Some "{") then nest lines ((take (pred (length l)) l, cur) :: stack) []
      else nest lines stack (cur ++ [cmd l])
  end.
Definition shown (r : res tcl Z) : list string := match r with Ok _ s => t_out s | Fault _ => [] end.
Definition show_after (script : list (list tcl_obj)) : list string := shown (tclsh (script ++ [cmd ["show"]]) started).
(** A text that [show] printed, run as a script. *)
Definition reread (out : list string) : list (list tcl_obj) := nest (concat (tcl_lines <$> out)) [] [].

Definition rich (type : list string) : list (list tcl_obj) :=
  [cmd (["settings"] ++ type ++ ["-name"; "s"]);
   cmd ["phys"; "-name"; "p"; "-if"; "eth0"; "-ip"; "10.0.0.1"]; cmd ["claimLocal"; "p"];
   cmd ["phys"; "-name"; "q"; "-ip"; "2001:0db8:0000:0000:0000:0000:0000:0001"];
   block ["net"; "-vid"; "7"; "-settings"; "s"; "a"]
     [cmd ["attach"; "p"; "q"];
      block ["virt"; "-name"; "v"; "-phys"; "p"; "-if"; "eth1"; "-mac"; "00:11:22:33:44:55"]
        [cmd ["rule"; "in"; "10"; "drop"; "-srcIp"; "10.0.0.0/8"; "-dstIp"; "10.1.2.3/255.0.255.0"];
         cmd ["rule"; "out"; "20"; "drop"; "-srcMac"; "00:11:22:33:44:66"]];
      cmd ["virt"; "-name"; "u"; "-phys"; "q"; "-if"; "eth2"]];
   block ["net"; "-vid"; "9"; "-settings"; "s"; "b"] []].
Definition types : list (list string) :=
  [["direct"]; ["vlan"]; ["vxlan/mcast"; "-mcastIp"; "239.0.0.1"]; ["vxlan/static"; "-port"; "99"]; ["vxlan/e2e"];
   ["geneve"]; ["geneve/e2e"]].

(** A model is printed with the newest objects first, so a dump that is run gives the model in
    the opposite order: after two rounds the text is the same. *)
Definition two_rounds (t : list string) : bool :=
  let out := show_after (rich t) in
  bool_decide (out ≠ []) && bool_decide (show_after (reread out) ≠ out) &&
  bool_decide (show_after (reread (show_after (reread out))) = out).
Example dump_of_dump : forallb two_rounds types = true.
Proof. vm_compute. reflexivity. Qed.

(** The condition that a rule gets for the destination MAC is the one of the source MAC. *)
Example dst_mac_from_source :
  let rule := cmd ["rule"; "in"; "10"; "drop"; "-srcMac"; "00:00:00:00:00:01"; "-dstMac"; "00:00:00:00:00:02"] in
  let same := cmd ["rule"; "in"; "10"; "drop"; "-srcMac"; "00:00:00:00:00:01"; "-dstMac"; "00:00:00:00:00:01"] in
  let script r := [vlan_settings; block ["net"; "-vid"; "7"; "a"] [block ["virt"; "-name"; "v"] [r]]] in
  show_after (script rule) = show_after (script same) ∧ show_after (script rule) ≠ [].
Proof. split; vm_compute; [reflexivity|discriminate]. Qed.
