(* ===== verification/Settled.v ===== *)
(** * Committing a model that has not changed

    A model is settled if everything in it is committed. Committing a settled model changes
    nothing and sends nothing to the kernel, whatever the network types do. *)

From Stdlib Require Import ZArith Lia.
From stdpp Require Import base list gmap strings.
From S2P Require Import Prelude.
From S2P Require Import Status.
From S2P Require Import Nettypes.
From S2P Require Import Heap.
From S2P Require Import Base.
From S2P Require Import Model.
From S2P Require Import Rules.
From S2P Require Import Validate.
From S2P Require Import Commit.
From S2P Require Import NetOps.
From S2P Require Import Kernel.
From S2P Require Import Api.
From S2P Require Import Scenarios.

Local Open Scope Z_scope.

(** ** Settled models *)

Definition is_OK (st : lsdn_state) : bool := bool_decide (st = LSDN_STATE_OK).
(** All entries of a list. *)
Definition all_in (s : heap) (h : addr) (f : ptr → bool) : bool :=
  match H.lists s !! h with Some l => forallb f (fst <$> l) | None => false end.

Section settled.
Context (s : heap).

Definition settings_settled (p : ptr) : bool :=
  match H.objs s !! p with Some (OSettings x) => is_OK (Settings.state x) | _ => false end.
Definition pa_settled (p : ptr) : bool :=
  match H.objs s !! p with Some (OPa x) => is_OK (Pa.state x) | _ => false end.
Definition virt_settled (p : ptr) : bool :=
  match H.objs s !! p with Some (OVirt x) => is_OK (Virt.state x) | _ => false end.
Definition vr_settled (p : ptr) : bool :=
  match H.objs s !! p with Some (OVr x) => is_OK (Vr.state x) | _ => false end.
Definition net_settled (p : ptr) : bool :=
  match H.objs s !! p with
  | Some (ONet x) => is_OK (Net.state x) && all_in s (p, F_virt_list) virt_settled &&
      all_in s (p, F_attached_list) pa_settled
  | _ => false
  end.

(** A virt on a local phys: its rules are committed too. *)
Definition rules_settled (prios : list (Z * ptr)) : bool :=
  forallb (λ prio, all_in s (prio, F_rules_list) vr_settled) (snd <$> prios).
Definition local_virt_settled (p : ptr) : bool :=
  match H.objs s !! p with
  | Some (OVirt x) => is_OK (Virt.state x) && rules_settled (Virt.ht_in_rules x) && rules_settled (Virt.ht_out_rules x)
  | _ => false
  end.
Definition rpa_settled (p : ptr) : bool :=
  match H.objs s !! p with
  | Some (ORpa x) => all_in s (Rpa.remote x, F_connected_virt_list) virt_settled
  | _ => false
  end.
(** An attachment of a local phys. *)
Definition local_pa_settled (p : ptr) : bool :=
  match H.objs s !! p with
  | Some (OPa x) => is_OK (Pa.state x) &&
      match H.objs s !! Pa.net x with
      | Some (ONet n) => match H.objs s !! Net.settings n with Some (OSettings _) => true | _ => false end
      | _ => false
      end &&
      all_in s (p, F_connected_virt_list) local_virt_settled &&
      all_in s (Pa.net x, F_attached_list) pa_settled && all_in s (p, F_remote_pa_list) rpa_settled
  | _ => false
  end.
Definition phys_settled (p : ptr) : bool :=
  match H.objs s !! p with
  | Some (OPhys x) => is_OK (Phys.state x) &&
      (negb (Phys.is_local x) || Phys.committed_as_local x && all_in s (p, F_attached_to_list) local_pa_settled)
  | _ => false
  end.
Definition model_settled (ctx : ptr) : bool :=
  all_in s (ctx, F_settings_list) settings_settled && all_in s (ctx, F_phys_list) phys_settled &&
  all_in s (ctx, F_networks_list) net_settled.
End settled.

(** ** Steps that change nothing *)

(** [m] returns [a] and changes nothing. *)
Definition still {A} (s : heap) (m : M heap A) (a : A) : Prop := m s = Ok a s.

Section steps.
Context (s : heap).

Lemma still_bind {A B} (m : M heap A) (f : A → M heap B) a b : still s m a → still s (f a) b → still s (m ≫= f) b.
Proof. unfold still, mbind, M_bind. by intros ->. Qed.
Lemma still_ret {A} (a : A) : still s (mret a) a.
Proof. done. Qed.
Lemma still_mforeach (body : ptr → M heap unit) l : Forall (λ p, still s (body p) tt) l → still s (mforeach body l) tt.
Proof. induction 1 as [|p l Hp _ IH]; [done|]. simpl. by eapply still_bind. Qed.
Lemma still_foreach h f (body : ptr → M heap unit) : all_in s h f = true → (∀ p, f p = true → still s (body p) tt) →
  still s (foreach h body) tt.
Proof.
  unfold all_in. destruct (H.lists s !! h) as [l|] eqn:Hl; [|done]. intros Hf Hb. unfold foreach.
  apply still_bind with (fst <$> l).
  { unfold still, list_get, mbind, M_bind, get. by rewrite Hl. }
  apply still_mforeach, Forall_forall. intros p Hp. apply Hb. rewrite forallb_forall in Hf.
  by apply Hf, list_elem_of_In.
Qed.

Lemma put_same p o : H.objs s !! p = Some o → still s (put_obj p o) tt.
Proof. intros Hp. unfold still, put_obj, modify. rewrite insert_id by done. by destruct s. Qed.

Lemma still_get_ctx p x : H.objs s !! p = Some (OCtx x) → still s (get_ctx p) x.
Proof. unfold still, get_ctx, get_obj, mbind, M_bind, get. by intros ->. Qed.
Lemma still_get_settings p x : H.objs s !! p = Some (OSettings x) → still s (get_settings p) x.
Proof. unfold still, get_settings, get_obj, mbind, M_bind, get. by intros ->. Qed.
Lemma still_get_phys p x : H.objs s !! p = Some (OPhys x) → still s (get_phys p) x.
Proof. unfold still, get_phys, get_obj, mbind, M_bind, get. by intros ->. Qed.
Lemma still_get_net p x : H.objs s !! p = Some (ONet x) → still s (get_net p) x.
Proof. unfold still, get_net, get_obj, mbind, M_bind, get. by intros ->. Qed.
Lemma still_get_pa p x : H.objs s !! p = Some (OPa x) → still s (get_pa p) x.
Proof. unfold still, get_pa, get_obj, mbind, M_bind, get. by intros ->. Qed.
Lemma still_get_virt p x : H.objs s !! p = Some (OVirt x) → still s (get_virt p) x.
Proof. unfold still, get_virt, get_obj, mbind, M_bind, get. by intros ->. Qed.
Lemma still_get_rpa p x : H.objs s !! p = Some (ORpa x) → still s (get_rpa p) x.
Proof. unfold still, get_rpa, get_obj, mbind, M_bind, get. by intros ->. Qed.
Lemma still_get_vr p x : H.objs s !! p = Some (OVr x) → still s (get_vr p) x.
Proof. unfold still, get_vr, get_obj, mbind, M_bind, get. by intros ->. Qed.
End steps.

Create HintDb still.
#[export] Hint Resolve still_ret still_get_ctx still_get_settings still_get_phys still_get_net still_get_pa
  still_get_virt still_get_rpa still_get_vr : still.
(** A step whose answer is known. *)
Ltac st := eapply still_bind; [solve [eauto with still]|].

(** ** The phases of a commit *)

Lemma is_OK_eq st : is_OK st = true → st = LSDN_STATE_OK.
Proof. apply bool_decide_eq_true. Qed.

Section phases.
Context `{NetOps} (s : heap).
Notation still := (still s).

(** Opens the test for an object: what is there, and in which state. *)
Ltac open_obj Hs x Hx :=
  match type of Hs with
  | _ = true => revert Hs; match goal with
    | |- match H.objs s !! ?p with _ => _ end = true → _ => destruct (H.objs s !! p) as [[]|] eqn:Hx; try done
    end
  end; intros Hs; rewrite ?andb_true_iff in Hs.

Lemma upd_settings_same p f : settings_settled s p = true →
  (∀ x, Settings.state x = LSDN_STATE_OK → f x = x) → still (upd_settings p f) tt.
Proof.
  unfold settings_settled. intros Hs Hf. open_obj Hs x Hx. apply is_OK_eq in Hs. unfold upd_settings. st.
  rewrite Hf by done. by apply put_same.
Qed.
Lemma upd_pa_same p f : pa_settled s p = true → (∀ x, Pa.state x = LSDN_STATE_OK → f x = x) → still (upd_pa p f) tt.
Proof.
  unfold pa_settled. intros Hs Hf. open_obj Hs x Hx. apply is_OK_eq in Hs. unfold upd_pa. st.
  rewrite Hf by done. by apply put_same.
Qed.
Lemma upd_virt_same p f : virt_settled s p = true →
  (∀ x, Virt.state x = LSDN_STATE_OK → f x = x) → still (upd_virt p f) tt.
Proof.
  unfold virt_settled. intros Hs Hf. open_obj Hs x Hx. apply is_OK_eq in Hs. unfold upd_virt. st.
  rewrite Hf by done. by apply put_same.
Qed.
Lemma upd_vr_same p f : vr_settled s p = true → (∀ x, Vr.state x = LSDN_STATE_OK → f x = x) → still (upd_vr p f) tt.
Proof.
  unfold vr_settled. intros Hs Hf. open_obj Hs x Hx. apply is_OK_eq in Hs. unfold upd_vr. st.
  rewrite Hf by done. by apply put_same.
Qed.

(** Writing the state OK again. *)
Ltac same := intros [] ?; simpl in *; by subst.

Lemma decommit_virt_still v : virt_settled s v = true → still (decommit_virt_of v) tt.
Proof.
  intros Hs. pose proof Hs as Ho. unfold virt_settled in Ho. open_obj Ho x Hx. apply is_OK_eq in Ho.
  unfold decommit_virt_of. st. rewrite Ho. eapply still_bind; [apply upd_virt_same; [done|same]|done].
Qed.
Lemma decommit_pa_still a : pa_settled s a = true → still (decommit_pa_of a) tt.
Proof.
  intros Hs. pose proof Hs as Ho. unfold pa_settled in Ho. open_obj Ho x Hx. apply is_OK_eq in Ho.
  unfold decommit_pa_of. st. rewrite Ho. eapply still_bind; [apply upd_pa_same; [done|same]|done].
Qed.
Lemma decommit_settings_still p : settings_settled s p = true → still (decommit_settings_of p) tt.
Proof.
  intros Hs. pose proof Hs as Ho. unfold settings_settled in Ho. open_obj Ho x Hx. apply is_OK_eq in Ho.
  unfold decommit_settings_of. st. rewrite Ho. eapply still_bind; [apply upd_settings_same; [done|same]|done].
Qed.
Lemma net_same p x : H.objs s !! p = Some (ONet x) → Net.state x = LSDN_STATE_OK →
  still (upd_net p (Net.set_state LSDN_STATE_OK)) tt.
Proof. intros Hp Ho. unfold upd_net. st. apply put_same. rewrite Hp. destruct x. simpl in *. by subst. Qed.
Lemma phys_same p x st : H.objs s !! p = Some (OPhys x) → Phys.state x = st →
  still (upd_phys p (Phys.set_state st)) tt.
Proof. intros Hp Ho. unfold upd_phys. st. apply put_same. rewrite Hp. destruct x. simpl in *. by subst. Qed.

Lemma decommit_net_still n : net_settled s n = true → still (decommit_net_of n) tt.
Proof.
  intros Hs. unfold net_settled in Hs. open_obj Hs x Hx. destruct Hs as [[Ho%is_OK_eq Hv] Hp].
  unfold decommit_net_of. eapply still_bind; [by apply (still_foreach s _ _ _ Hv), decommit_virt_still|].
  eapply still_bind; [by apply (still_foreach s _ _ _ Hp), decommit_pa_still|]. st. rewrite Ho.
  eapply still_bind; [by eapply net_same|done].
Qed.
Lemma decommit_phys_still p : phys_settled s p = true → still (decommit_phys_of p) tt.
Proof.
  intros Hs. unfold phys_settled in Hs. open_obj Hs x Hx. destruct Hs as [Ho%is_OK_eq _].
  unfold decommit_phys_of. st. rewrite Ho. eapply still_bind; [by eapply phys_same|done].
Qed.
Lemma decommit_phase_still ctx : model_settled s ctx = true → still (decommit_phase ctx) tt.
Proof.
  unfold model_settled. rewrite !andb_true_iff. intros [[H1 H2] H3]. unfold decommit_phase.
  eapply still_bind; [by apply (still_foreach s _ _ _ H3), decommit_net_still|].
  eapply still_bind; [by apply (still_foreach s _ _ _ H2), decommit_phys_still|].
  by apply (still_foreach s _ _ _ H1), decommit_settings_still.
Qed.

(** Nothing is new. *)
Lemma commit_rules_still v dir x : H.objs s !! v = Some (OVirt x) → rules_settled s (ht_get dir x) = true →
  still (commit_rules v dir) tt.
Proof.
  intros Hx Hr. unfold commit_rules, hash_iter. st. apply still_mforeach, Forall_forall. intros prio Hp.
  unfold rules_settled in Hr. rewrite forallb_forall in Hr. apply list_elem_of_In, Hr in Hp.
  apply (still_foreach s _ _ _ Hp). intros r Hs. pose proof Hs as Ho. unfold vr_settled in Ho. open_obj Ho y Hy.
  apply is_OK_eq in Ho. st. rewrite bool_decide_false by by rewrite Ho. eapply still_bind; [done|].
  apply upd_vr_same; [done|]. intros [] E. simpl in *. by subst.
Qed.
Lemma local_virt_weaken v : local_virt_settled s v = true → virt_settled s v = true.
Proof. unfold local_virt_settled, virt_settled. intros Hs. open_obj Hs x Hx. tauto. Qed.
Lemma commit_virt_still ops ctx pa v : local_virt_settled s v = true → still (commit_virt_of ops ctx pa v) tt.
Proof.
  intros Hs. unfold local_virt_settled in Hs. open_obj Hs x Hx. destruct Hs as [[Ho%is_OK_eq Hi] Hout].
  unfold commit_virt_of. st. rewrite bool_decide_false by by rewrite Ho. eapply still_bind; [done|]. cbn iota. st.
  rewrite Ho. cbn. eapply still_bind; [by apply (commit_rules_still v LSDN_IN x)|by apply (commit_rules_still v LSDN_OUT x)].
Qed.
Lemma commit_remote_pa_still ops ctx pa remote : pa_settled s pa = true → pa_settled s remote = true →
  still (commit_remote_pa ops ctx pa remote) tt.
Proof.
  intros H1 H2. unfold commit_remote_pa. case_bool_decide; [done|]. unfold pa_settled in *.
  open_obj H1 x Hx. open_obj H2 y Hy. apply is_OK_eq in H1, H2. st. st. by rewrite H1, H2.
Qed.
Lemma commit_remote_virt_still ops ctx pa remote v : pa_settled s pa = true → virt_settled s v = true →
  still (commit_remote_virt ops ctx pa remote v) tt.
Proof.
  intros H1 H2. unfold commit_remote_virt, pa_settled, virt_settled in *.
  open_obj H1 x Hx. open_obj H2 y Hy. apply is_OK_eq in H1, H2. st. st. by rewrite H1, H2.
Qed.
Lemma local_pa_weaken a : local_pa_settled s a = true → pa_settled s a = true.
Proof. unfold local_pa_settled, pa_settled. intros Hs. open_obj Hs x Hx. tauto. Qed.
Lemma commit_pa_still a : local_pa_settled s a = true → still (commit_pa a) tt.
Proof.
  intros Hs. pose proof (local_pa_weaken a Hs) as Hpa. unfold local_pa_settled in Hs. open_obj Hs x Hx.
  destruct Hs as [[[[Ho%is_OK_eq Hn] Hv] Hp] Hr].
  destruct (H.objs s !! Pa.net x) as [[]|] eqn:Hnet; try done.
  destruct (H.objs s !! Net.settings x0) as [[]|] eqn:Hst; try done.
  unfold commit_pa. st. eapply still_bind; [unfold ops_of_net, settings_of_net; do 2 st; done|]. cbn beta iota.
  rewrite bool_decide_false by by rewrite Ho. eapply still_bind; [done|]. st. rewrite Ho. cbn [negb state_ok].
  eapply still_bind; [apply (still_foreach s _ _ _ Hv); intros v Hvs; by apply commit_virt_still|].
  eapply still_bind; [apply (still_foreach s _ _ _ Hp); intros r Hrs; by apply commit_remote_pa_still|].
  apply (still_foreach s _ _ _ Hr). intros r Hrs. unfold rpa_settled in Hrs. open_obj Hrs y Hy. st.
  apply (still_foreach s _ _ _ Hrs). intros v Hvs. by apply commit_remote_virt_still.
Qed.
Lemma commit_phase_still ctx : model_settled s ctx = true → still (commit_phase ctx) tt.
Proof.
  unfold model_settled. rewrite !andb_true_iff. intros [[_ H2] _]. unfold commit_phase.
  apply (still_foreach s _ _ _ H2). intros p Hp. unfold phys_settled in Hp. open_obj Hp x Hx.
  destruct Hp as [Ho Hl]. st. destruct (Phys.is_local x) eqn:El; [|done]. simpl in Hl.
  apply andb_true_iff in Hl as [Hc Ha]. cbn [when].
  eapply still_bind; [|by apply (still_foreach s _ _ _ Ha), commit_pa_still].
  unfold upd_phys. st. apply put_same. rewrite Hx. destruct x. simpl in *. by subst.
Qed.
Lemma ack_phase_still ctx : model_settled s ctx = true → still (ack_phase ctx) tt.
Proof.
  unfold model_settled. rewrite !andb_true_iff. intros [[H1 H2] H3]. unfold ack_phase.
  eapply still_bind; [apply (still_foreach s _ _ _ H1); intros p Hp; apply upd_settings_same; [done|intros [] ?; simpl in *; by subst]|].
  eapply still_bind.
  { apply (still_foreach s _ _ _ H2). intros p Hp. unfold phys_settled in Hp. open_obj Hp x Hx.
    destruct Hp as [Ho%is_OK_eq _]. unfold upd_phys. st. apply put_same. rewrite Ho. rewrite Hx. destruct x. simpl in *. by subst. }
  apply (still_foreach s _ _ _ H3). intros n Hn. unfold net_settled in Hn. open_obj Hn x Hx.
  destruct Hn as [[Ho%is_OK_eq Hv] Hp]. eapply still_bind.
  { unfold upd_net. st. apply put_same. rewrite Ho, Hx. destruct x. simpl in *. by subst. }
  eapply still_bind; [apply (still_foreach s _ _ _ Hp); intros a Ha; apply upd_pa_same; [done|intros [] ?; simpl in *; by subst]|].
  apply (still_foreach s _ _ _ Hv). intros v Hvs. apply upd_virt_same; [done|intros [] ?; simpl in *; by subst].
Qed.
End phases.

(** ** Validation sends nothing *)

Definition quiet {A} (m : M heap A) : Prop := ∀ s a s', m s = Ok a s' → H.trace s' = H.trace s.

Lemma quiet_ret {A} (a : A) : quiet (mret a).
Proof. by intros s b s' [= <- <-]. Qed.
Lemma quiet_fail {A} e : quiet (fail e : M heap A).
Proof. by intros s b s' Hm. Qed.
Lemma quiet_bind {A B} (m : M heap A) (f : A → M heap B) : quiet m → (∀ a, quiet (f a)) → quiet (m ≫= f).
Proof.
  intros Hm Hf s b s'. unfold mbind, M_bind. destruct (m s) as [a s1|] eqn:Hs; [|done]. intros Hb.
  etrans; [by eapply Hf|by eapply Hm].
Qed.
Lemma quiet_modify (f : heap → heap) : (∀ s, H.trace (f s) = H.trace s) → quiet (modify f).
Proof. intros Hf s a s' [= <- <-]. apply Hf. Qed.
Lemma quiet_get : quiet get.
Proof. by intros s a s' [= <- <-]. Qed.
Lemma quiet_live {A} (o : option A) : quiet (live o).
Proof. destruct o; [apply quiet_ret|apply quiet_fail]. Qed.
Lemma quiet_deref {A} (o : option A) : quiet (deref o).
Proof. destruct o; [apply quiet_ret|apply quiet_fail]. Qed.
Lemma quiet_mforeach {A} (body : A → M heap unit) l : (∀ x, quiet (body x)) → quiet (mforeach body l).
Proof. intros Hb. induction l as [|x l IH]; simpl; [apply quiet_ret|]. apply quiet_bind; [done|by intros _]. Qed.

Create HintDb quiet discriminated.
#[export] Hint Resolve quiet_ret quiet_fail quiet_get quiet_live quiet_deref quiet_mforeach : quiet.
#[export] Hint Extern 1 (quiet (modify _)) => apply quiet_modify; intros; reflexivity : quiet.
#[export] Hint Extern 2 (quiet (_ ≫= _)) => apply quiet_bind; [|intros ?] : quiet.
#[export] Hint Extern 3 (quiet (match ?x with _ => _ end)) => destruct x : quiet.
Ltac quiet := auto 60 with quiet nocore.
Ltac head_of t := lazymatch t with ?f _ => head_of f | _ => t end.
Ltac quiet_body := intros; match goal with |- quiet ?m => let h := head_of m in unfold h; quiet end.

Lemma quiet_get_obj p : quiet (get_obj p).
Proof. quiet_body. Qed.
Lemma quiet_put_obj p o : quiet (put_obj p o).
Proof. quiet_body. Qed.
Lemma quiet_list_get h : quiet (list_get h).
Proof. quiet_body. Qed.
Lemma quiet_when b m : quiet m → quiet (when b m).
Proof. quiet_body. Qed.
#[export] Hint Resolve quiet_get_obj quiet_put_obj quiet_list_get quiet_when : quiet.
Lemma quiet_foreach h body : (∀ p, quiet (body p)) → quiet (foreach h body).
Proof. quiet_body. Qed.
#[export] Hint Resolve quiet_foreach : quiet.
#[export] Hint Extern 4 (quiet (get_ctx _)) => unfold get_ctx : quiet.
#[export] Hint Extern 4 (quiet (get_settings _)) => unfold get_settings : quiet.
#[export] Hint Extern 4 (quiet (get_phys _)) => unfold get_phys : quiet.
#[export] Hint Extern 4 (quiet (get_net _)) => unfold get_net : quiet.
#[export] Hint Extern 4 (quiet (get_pa _)) => unfold get_pa : quiet.
#[export] Hint Extern 4 (quiet (get_virt _)) => unfold get_virt : quiet.
#[export] Hint Extern 4 (quiet (get_vr _)) => unfold get_vr : quiet.
#[export] Hint Extern 4 (quiet (upd_ctx _ _)) => unfold upd_ctx : quiet.
#[export] Hint Extern 4 (quiet (upd_pa _ _)) => unfold upd_pa : quiet.
#[export] Hint Extern 4 (quiet (upd_virt _ _)) => unfold upd_virt : quiet.

Lemma quiet_get_rule p : quiet (get_rule p).
Proof. quiet_body. Qed.
Lemma quiet_apply_mask p ts ms : quiet (lsdn_rule_apply_mask p ts ms).
Proof. unfold lsdn_rule_apply_mask, upd_rule, get_rule, new_rule. quiet. Qed.
Lemma quiet_assert b : quiet (assert_ b).
Proof. quiet_body. Qed.
#[export] Hint Resolve quiet_assert : quiet.
Lemma quiet_report ctx code refs : quiet (lsdn_problem_report ctx code refs).
Proof. quiet_body. Qed.
Lemma quiet_if_resolve i : quiet (lsdn_if_resolve i).
Proof. unfold lsdn_if_resolve, upd_if, get_if, new_if. quiet. Qed.
#[export] Hint Resolve quiet_get_rule quiet_apply_mask quiet_report quiet_if_resolve : quiet.

Lemma quiet_find_incompatible first f l : quiet (find_incompatible first f l).
Proof. induction l as [|r l IH]; simpl; quiet. Qed.
Lemma quiet_find_duplicate seen l : quiet (find_duplicate seen l).
Proof. revert seen. induction l as [|r l IH]; intros seen; simpl; quiet. Qed.
#[export] Hint Resolve quiet_find_incompatible quiet_find_duplicate : quiet.
Lemma quiet_rules_loop virt prios : quiet (validate_rules_loop virt prios).
Proof. induction prios as [|r l IH]; simpl; quiet. Qed.
#[export] Hint Resolve quiet_rules_loop : quiet.
Lemma quiet_any_local l : quiet (any_local l).
Proof. induction l as [|r l IH]; simpl; quiet. Qed.
#[export] Hint Resolve quiet_any_local : quiet.
Lemma quiet_networks ctx : quiet (validate_networks ctx).
Proof.
  unfold validate_networks, validate_virts_net, validate_rules, validate_rate, cross_validate_networks, settings_of_net. quiet.
Qed.
(** The checks of the network types. *)
Lemma quiet_pa_op t b a :
  quiet (match validate_pa_op t with Some f => when b (f a) | None => mret tt end).
Proof. destruct t; simpl; unfold vxlan_e2e_validate_pa, vxlan_static_validate_pa, geneve_validate_pa, validate_pa_ip; quiet. Qed.
Lemma quiet_virt_op t v : quiet (match validate_virt_op t with Some f => f v | None => mret tt end).
Proof. destruct t; simpl; unfold vxlan_static_validate_virt, geneve_validate_virt, validate_virt_mac; quiet. Qed.
#[export] Hint Resolve quiet_pa_op quiet_virt_op : quiet.
Lemma quiet_physes ctx : quiet (validate_physes ctx).
Proof.
  unfold validate_physes, validate_pa_of, validate_virts_pa, report_virts, validate_phys_ips, net_of_pa, settings_of_net.
  quiet.
Qed.
Lemma quiet_ip_versions ctx : quiet (validate_ip_versions ctx).
Proof. quiet_body. Qed.
Lemma quiet_propagate ctx : quiet (propagate_states ctx).
Proof. quiet_body. Qed.
#[export] Hint Resolve quiet_networks quiet_physes quiet_ip_versions quiet_propagate : quiet.
Lemma quiet_validate ctx cb : quiet (lsdn_validate ctx cb).
Proof. quiet_body. Qed.
Lemma quiet_hooks ctx : quiet (trigger_startup_hooks ctx).
Proof. unfold trigger_startup_hooks, settings_of_net. quiet. Qed.

(** An answer OK means that no problem was counted. *)
Lemma validate_ok_count ctx cb s s1 : lsdn_validate ctx cb s = Ok LSDNE_OK s1 →
  ∃ c, H.objs s1 !! ctx = Some (OCtx c) ∧ Ctx.problem_count c = 0.
Proof.
  unfold lsdn_validate. do 5 (unfold mbind at 1, M_bind at 1; case_match; [|done]).
  unfold get_ctx, get_obj, mbind, M_bind, get. destruct (H.objs _ !! ctx) as [[]|] eqn:Hc; try done. simpl.
  destruct (Ctx.problem_count x =? 0) eqn:E; [|done]. intros [= <-]. apply Z.eqb_eq in E. eauto.
Qed.

(** ** The theorem *)

(** Committing a model that has not changed does nothing. If the startup hooks and the
    validation leave a settled model (every object is committed, local physes and the rules of
    their virts included), with an open socket and no inconsistency, then [lsdn_commit] answers
    OK in that state: no object changes, none of the operations of the network types is called,
    and no request is sent to the kernel by any phase, the validation included. *)
Theorem commit_settled `{NetOps} (ctx : ptr) (cb : option problem_cb_t) (c : Ctx.lsdn_context) (s s1 : heap) :
  (_ ← trigger_startup_hooks ctx; lsdn_validate ctx cb) s = Ok LSDNE_OK s1 →
  H.objs s1 !! ctx = Some (OCtx c) → Ctx.nlsock c = true → Ctx.inconsistent c = false →
  model_settled s1 ctx = true →
  lsdn_commit ctx cb s = Ok LSDNE_OK s1 ∧ H.trace s1 = H.trace s.
Proof.
  intros Hv Hc Hsock Hcons Hs. revert Hv. unfold lsdn_commit. unfold mbind at 1 2, M_bind at 1 2.
  destruct (trigger_startup_hooks ctx s) as [[] s0|] eqn:Hh; [|done]. intros Hv. unfold mbind at 1, M_bind at 1.
  rewrite Hv. apply quiet_hooks in Hh. split; [|rewrite <-Hh; by eapply quiet_validate].
  apply validate_ok_count in Hv as (c' & Hc' & Hn). simplify_eq.
  rewrite bool_decide_false by (by intros []).
  eapply (still_bind s1 (lsdn_context_ensure_socket ctx) _ LSDNE_OK).
  { unfold lsdn_context_ensure_socket. st. by rewrite Hsock. }
  rewrite bool_decide_false by (by intros []).
  eapply still_bind; [by apply decommit_phase_still|]. eapply still_bind; [by apply commit_phase_still|].
  eapply still_bind; [by apply ack_phase_still|]. st. by rewrite Hcons, Hn.
Qed.

(** ** An example *)

(** The model of [two_physes] with a rule, after it was committed. *)
Definition committed_state (ops : lsdn_net_ops_tag) (nt : lsdn_nettype) (sw : lsdn_switch) : heap :=
  match run (_ ← calls (two_physes ipv4 ops nt sw ++ [VrNew 8 10 LSDN_IN LSDN_VR_DROP]); commit) with
  | Ok _ s => s
  | Fault _ => empty_heap good_env
  end.
Definition vlan_committed : heap := committed_state lsdn_net_vlan_ops LSDN_NET_VLAN LSDN_LEARNING.

(** The hypotheses hold after a commit, for every tunnelled network type. *)
Definition settles (s : heap) : bool :=
  match (_ ← trigger_startup_hooks 1; lsdn_validate 1 on_problem) s with
  | Ok err s1 => bool_decide (err = LSDNE_OK) && model_settled s1 1 &&
      match H.objs s1 !! 1%positive with Some (OCtx c) => Ctx.nlsock c && negb (Ctx.inconsistent c) | _ => false end
  | Fault _ => false
  end.
Example committed_models_settle : Forall (λ '(ops, nt, sw), settles (committed_state ops nt sw) = true) tunnelled.
Proof. unfold tunnelled. repeat (apply Forall_cons_2; [vm_compute; reflexivity|]). apply Forall_nil_2. Qed.

Lemma settles_ok s : settles s = true → ∃ c s1,
  (_ ← trigger_startup_hooks 1; lsdn_validate 1 on_problem) s = Ok LSDNE_OK s1 ∧
  H.objs s1 !! 1%positive = Some (OCtx c) ∧ Ctx.nlsock c = true ∧ Ctx.inconsistent c = false ∧
  model_settled s1 1 = true.
Proof.
  unfold settles. destruct ((_ ← trigger_startup_hooks 1; lsdn_validate 1 on_problem) s) as [err s1|]; [|done]. rewrite !andb_true_iff.
  intros [[->%bool_decide_eq_true Hm] Hc]. destruct (H.objs s1 !! 1%positive) as [[]|] eqn:E; try done.
  apply andb_true_iff in Hc as [H1 H2%negb_true_iff]. eauto 10.
Qed.
Lemma commit_settled_witness : ∃ s1,
  lsdn_commit 1 on_problem vlan_committed = Ok LSDNE_OK s1 ∧ H.trace s1 = H.trace vlan_committed.
Proof.
  assert (Hs : settles vlan_committed = true) by (vm_compute; reflexivity).
  destruct (settles_ok _ Hs) as (c & s1 & Hv & Hc & Hsock & Hcons & Hm). exists s1.
  exact (commit_settled 1 on_problem c vlan_committed s1 Hv Hc Hsock Hcons Hm).
Defined.
