(* ===== verification/Frame.v ===== *)
(** * What the operations of the network types leave alone

    A frame logic for the commit. The operations of the network types build and tear down rules,
    broadcasts, bridges and views; none of them changes the state of an object of the model, its
    links to other objects, or a list of the model. [ok Ops] says so of a computation, in every
    run that returns. [ok Com] is what remains true of the phases of a commit as long as no
    problem is reported, and [ok Err] what remains true after one. *)

From Stdlib Require Import ZArith Lia.
From stdpp Require Import base list gmap strings.
From S2P Require Import Prelude.
From S2P Require Import LStore.
From S2P Require Import Status.
From S2P Require Import IdAlloc.
From S2P Require Import Nettypes.
From S2P Require Import Heap.
From S2P Require Import Base.
From S2P Require Import Model.
From S2P Require Import Nl.
From S2P Require Import Actions.
From S2P Require Import Rules.
From S2P Require Import Broadcast.
From S2P Require Import CList.
From S2P Require Import SBridge.
From S2P Require Import LBridge.
From S2P Require Import Validate.
From S2P Require Import Commit.
From S2P Require Import NetOps.
From S2P Require Import Inv.

Local Open Scope Z_scope.

(** ** The lists of the model *)

(** The member by which an object is linked into a list of the model. *)
Definition entry_of (f : field) : option field :=
  match f with
  | F_networks_list => Some F_networks_entry
  | F_settings_list => Some F_settings_entry
  | F_phys_list => Some F_phys_entry
  | F_attached_to_list => Some F_attached_to_entry
  | F_virt_list => Some F_virt_entry
  | F_attached_list => Some F_attached_entry
  | F_connected_virt_list => Some F_connected_virt_entry
  | F_rules_list => Some F_rules_entry
  | F_remote_pa_list => Some F_remote_pa_entry
  | _ => None
  end.

(** Heads and entries of these lists. *)
Definition model_field (f : field) : bool :=
  match f with
  | F_networks_list | F_settings_list | F_phys_list | F_attached_to_list | F_virt_list | F_attached_list
  | F_connected_virt_list | F_rules_list | F_remote_pa_list | F_networks_entry | F_settings_entry | F_phys_entry
  | F_attached_to_entry | F_virt_entry | F_attached_entry | F_connected_virt_entry | F_rules_entry
  | F_remote_pa_entry => true
  | _ => false
  end.

Lemma entry_of_head f g : entry_of f = Some g → model_field f = true.
Proof. by destruct f. Qed.
Lemma entry_of_entry f g : entry_of f = Some g → model_field g = true.
Proof. destruct f; intros [= <-]; done. Qed.

Section stores.
Local Notation store := (gmap addr (list addr)).
Implicit Types L : store.

Definition typed L : Prop := ∀ q f g l e, entry_of f = Some g → L !! (q, f) = Some l → e ∈ l → e.2 = g.
Definition same_lists L L' : Prop := ∀ q f, is_Some (entry_of f) → L' !! (q, f) = L !! (q, f).

(** An operation on other lists. *)
Definition calm {A} (m : M store A) : Prop := ∀ L a L',
  Store.wf L → typed L → m L = Ok a L' → Store.wf L' ∧ typed L' ∧ same_lists L L'.

Lemma typed_same L L' : typed L → same_lists L L' → typed L'.
Proof. intros Ht Hs q f g l e Hf. rewrite Hs by done. by apply Ht. Qed.

(** Changes at heads that are not the model's. *)
Lemma same_insert L k l : entry_of k.2 = None → same_lists L (<[k := l]> L).
Proof. intros Hk q f [g Hg]. rewrite lookup_insert_ne; [done|]. intros ->. simpl in Hk. congruence. Qed.
Lemma same_delete L k : entry_of k.2 = None → same_lists L (delete k L).
Proof. intros Hk q f [g Hg]. rewrite lookup_delete_ne; [done|]. intros ->. simpl in Hk. congruence. Qed.
Lemma same_trans L1 L2 L3 : same_lists L1 L2 → same_lists L2 L3 → same_lists L1 L3.
Proof. intros H1 H2 q f Hf. by rewrite H2, H1. Qed.
Lemma not_model f : model_field f = false → entry_of f = None.
Proof. destruct (entry_of f) eqn:E; [|done]. by rewrite (entry_of_head _ _ E). Qed.

(** The list an entry that is not the model's is in. *)
Lemma typed_owner L e k l : typed L → L !! k = Some l → e ∈ l → model_field e.2 = false → entry_of k.2 = None.
Proof.
  intros Ht Hk He Hf. destruct (entry_of k.2) as [g|] eqn:Hg; [|done]. exfalso.
  destruct k as [q f]. rewrite (Ht q f g l e Hg Hk He) in Hf. by rewrite (entry_of_entry _ _ Hg) in Hf.
Qed.

Lemma calm_is_empty e : calm (Store.is_empty e).
Proof. intros L b L' Hwf Ht Hm. by apply Store.is_empty_state in Hm as ->. Qed.

Lemma calm_init e : model_field e.2 = false → calm (Store.init e).
Proof.
  intros He L [] L' Hwf Ht. unfold Store.init, mbind, M_bind, get.
  destruct (Store.unlinked L e) eqn:Hu; [|done]. intros [= <-].
  apply Store.unlinked_true in Hu as [Hfree He']; [|done].
  assert (Hs : same_lists L (<[e := []]> L)) by by apply same_insert, not_model.
  split_and!; [by apply Store.wf_insert_empty|by eapply typed_same|done].
Qed.

(** Where an insertion takes place: at a head, or after an entry. *)
Lemma init_add_result p e L L' : Store.wf L → Store.init_add p e L = Ok tt L' →
  (∀ k l, L !! k = Some l → e ∉ l) ∧ (L !! e = None ∨ L !! e = Some []) ∧
  ∃ k l l', L !! k = Some l ∧ k ≠ e ∧ p ∈ k :: l ∧ l' ≡ₚ e :: l ∧ L' = <[k := l']> (delete e L).
Proof.
  intros Hwf. unfold Store.init_add, mbind, M_bind, get.
  destruct (Store.unlinked L e) eqn:Hu; [|done]. destruct (bool_decide (p = e)) eqn:Hpe; [done|].
  apply bool_decide_eq_false in Hpe. apply Store.unlinked_true in Hu as [Hfree He]; [|done]. simpl.
  destruct (L !! p) as [l|] eqn:Hp.
  - intros [= <-]. split_and!; [done..|]. exists p, l, (e :: l). split_and!; [done..|left|done|done].
  - destruct (Store.owner L p) as [k|] eqn:Ho; [|done]. simpl.
    apply Store.owner_Some in Ho as (l & Hk & Hin); [|done]. rewrite Hk. intros [= <-].
    split_and!; [done..|]. exists k, l. apply list_elem_of_split in Hin as (l1 & l2 & ->).
    pose proof (proj1 Hwf _ _ Hk) as [_ Hnd]%NoDup_cons. apply NoDup_app in Hnd as (_ & Hdis & _).
    rewrite Store.insert_after_split by (intros Hp1; apply (Hdis p); [done|left]).
    exists (l1 ++ p :: e :: l2). split_and!; [done| |set_solver| |done].
    + intros ->. destruct He as [He|He]; rewrite He in Hk; [done|]. by destruct l1.
    + by rewrite Permutation_swap, <-Permutation_middle.
Qed.

Lemma calm_init_add_at p e L L' : Store.wf L → typed L → Store.init_add p e L = Ok tt L' →
  (∀ k l, L !! k = Some l → p ∈ k :: l → entry_of k.2 = None) → model_field e.2 = false →
  Store.wf L' ∧ typed L' ∧ same_lists L L'.
Proof.
  intros Hwf Ht Hm Hp He. apply init_add_result in Hm as (Hfree & He' & k & l & l' & Hk & Hne & Hin & Hl' & ->); [|done].
  assert (Hs : same_lists L (<[k := l']> (delete e L))).
  { eapply same_trans; [by apply same_delete, not_model|]. apply same_insert. by eapply Hp. }
  split_and!; [by eapply Store.wf_insert_entry|by eapply typed_same|done].
Qed.

Lemma calm_init_add p e : model_field p.2 = false → model_field e.2 = false → calm (Store.init_add p e).
Proof.
  intros Hp He L [] L' Hwf Ht Hm. eapply calm_init_add_at; [done..| |done].
  intros k l Hk [->|Hin]%elem_of_cons; [by apply not_model|by eapply typed_owner].
Qed.

Lemma calm_bind {A B : Type} (m : M store A) (f : A → M store B) : calm m → (∀ a, calm (f a)) → calm (m ≫= f).
Proof.
  intros Hm Hf L b L' Hwf Ht. unfold mbind, M_bind. destruct (m L) as [a L1|] eqn:E; [|done].
  destruct (Hm _ _ _ Hwf Ht E) as (Hwf1 & Ht1 & Hs1). intros (Hwf2 & Ht2 & Hs2)%Hf; [|done..].
  split_and!; [done..|]. by eapply same_trans.
Qed.
Lemma calm_assert b : calm (assert_ b).
Proof. destruct b; [|done]. by intros L [] L' ?? [= <-]. Qed.
Lemma calm_add p e : model_field p.2 = false → model_field e.2 = false → calm (Store.add p e).
Proof.
  intros. apply calm_bind; [apply calm_is_empty|]. intros b.
  apply calm_bind; [apply calm_assert|]. intros _. by apply calm_init_add.
Qed.

(** What a removal does, to whichever list. *)
Lemma remove_result e L L' : Store.wf L → Store.remove e L = Ok tt L' →
  ∃ k l, L !! k = Some l ∧ e ∈ l ∧ L' = <[e := []]> (<[k := filter (.≠ e) l]> L).
Proof.
  intros Hwf. unfold Store.remove, mbind, M_bind. destruct (Store.is_empty e L) as [b L1|] eqn:E; [|done].
  apply Store.is_empty_state in E as ->. destruct b; [done|]. simpl. unfold get.
  destruct (Store.owner L e) as [k|] eqn:Ho; [|done]. apply Store.owner_Some in Ho as (l & Hk & Hin); [|done].
  rewrite Hk. intros [= <-]. eauto.
Qed.
Lemma remove_typed e L L' : Store.wf L → typed L → Store.remove e L = Ok tt L' → Store.wf L' ∧ typed L'.
Proof.
  intros Hwf Ht Hm. apply remove_result in Hm as (k & l & Hk & He & ->); [|done].
  split; [by apply Store.wf_remove_entry|].
  intros q f g m x Hg Hm Hx. apply lookup_insert_Some in Hm as [[_ <-]|[_ Hm]]; [set_solver|].
  apply lookup_insert_Some in Hm as [[-> <-]|[_ Hm]]; [|by eapply Ht].
  eapply Ht; [done..|]. apply list_elem_of_filter in Hx. tauto.
Qed.
Lemma calm_remove e : model_field e.2 = false → calm (Store.remove e).
Proof.
  intros He L [] L' Hwf Ht Hm. destruct (remove_typed e L L' Hwf Ht Hm) as [Hwf' Ht']. split_and!; [done..|].
  apply remove_result in Hm as (k & l & Hk & Hin & ->); [|done].
  eapply same_trans; [by apply same_insert, (typed_owner L e k l)|by apply same_insert, not_model].
Qed.
End stores.

(** ** The objects of the model *)

Definition model_obj (o : obj) : bool :=
  match o with
  | OCtx _ | OSettings _ | OPhys _ | ONet _ | OPa _ | OVirt _ | OVr _ | OVrPrio _ | ORpa _ => true
  | _ => false
  end.

(** An object without its state and without what the network types write to it. *)
Definition shape (o : obj) : obj :=
  match o with
  | OCtx _ => OCtx (Ctx.mk "" None true false None 0 false false 0 "")
  | OSettings x => OSettings (Settings.set_state LSDN_STATE_OK (Settings.set_refcount 0 x))
  | OPhys x => OPhys (Phys.set_state LSDN_STATE_OK (Phys.set_committed_as_local false x))
  | ONet x => ONet (Net.set_state LSDN_STATE_OK x)
  | OPa x => OPa (Pa.set_state LSDN_STATE_OK x)
  | OVirt x => OVirt (Virt.set_state LSDN_STATE_OK (Virt.set_committed_to None
                 (Virt.set_commited_policing_in None (Virt.set_commited_policing_out None x))))
  | OVr x => OVr (Vr.set_state LSDN_STATE_OK x)
  | OVrPrio _ => OVrPrio (VrPrio.mk 0 0 None)
  | o => o
  end.
Definition committed (o : obj) : bool := match o with OPhys x => Phys.committed_as_local x | _ => false end.
Definition inconsistent (o : obj) : bool := match o with OCtx x => Ctx.inconsistent x | _ => false end.

(** Changes that network types make. *)
Definition same_obj (o o' : obj) : Prop :=
  shape o' = shape o ∧ obj_state o' = obj_state o ∧ (committed o = true → committed o' = true) ∧
  (inconsistent o = false → inconsistent o' = false).
(** Changes that the commit makes. *)
Definition acked (o o' : obj) : Prop :=
  obj_state o' = obj_state o ∨ obj_state o = Some LSDN_STATE_NEW ∧ obj_state o' = Some LSDN_STATE_OK.
Definition step_obj (o o' : obj) : Prop :=
  shape o' = shape o ∧ acked o o' ∧ (committed o = true → committed o' = true).

Lemma same_obj_refl o : same_obj o o.
Proof. by split_and!. Qed.
Lemma same_obj_trans o1 o2 o3 : same_obj o1 o2 → same_obj o2 o3 → same_obj o1 o3.
Proof. intros (?&?&?&?) (?&?&?&?). split_and!; [congruence..|auto|auto]. Qed.
Lemma same_step o o' : same_obj o o' → step_obj o o'.
Proof. intros (?&?&?&?). split_and!; [done|by left|done]. Qed.
Lemma step_obj_trans o1 o2 o3 : step_obj o1 o2 → step_obj o2 o3 → step_obj o1 o3.
Proof.
  intros (?&H1&?) (?&H2&?). split_and!; [congruence| |auto].
  unfold acked in *. destruct H1 as [H1|[H1 H1']]; destruct H2 as [H2|[H2 H2']]; try congruence; intuition congruence.
Qed.
Lemma shape_model o o' : shape o' = shape o → model_obj o' = model_obj o.
Proof. by destruct o, o'. Qed.

(** ** Invariants and frames *)

(** [Ops]: an operation of a network type. [Com]: a step of a commit; if no problem was reported so
    far and none is reported. [Err]: anything; problems are not taken back. *)
Inductive level := Ops | Com | Err.

Section frame.
(** The one context. *)
Context (ctx : ptr).
Implicit Types (lv : level) (E : list ptr).

Definition count (s : heap) : Z := match H.objs s !! ctx with Some (OCtx x) => Ctx.problem_count x | _ => 0 end.

(** The user data of a cleanup callback is the object that holds it. *)
Definition own_cb (p : ptr) (o : obj) : Prop :=
  match o with
  | OBrAction x => BrAction.clist x = if_br_action_free p
  | OFwdRule x => FwdRule.clist x = br_forward_rule_free p
  | ONet x => Net.ctx x = ctx
  | _ => True
  end.

Record base (s : heap) : Prop := {
  base_wf : Store.wf (H.lists s);
  base_typed : typed (H.lists s);
  base_fresh p o : H.objs s !! p = Some o → (p < H.next_ptr s)%positive;
  base_cb p o : H.objs s !! p = Some o → own_cb p o;
  base_ctx : ∃ x, H.objs s !! ctx = Some (OCtx x) ∧ 0 ≤ Ctx.problem_count x }.

(** No object waits for a removal, and none has failed. *)
Definition untroubled (s : heap) : Prop :=
  ∀ p o st, H.objs s !! p = Some o → obj_state o = Some st → state_ok st = true.

Record pre (lv : level) (s : heap) : Prop := {
  pre_base : base s;
  pre_untroubled : lv = Com → count s = 0 → untroubled s }.

(** Objects that may be freed. *)
Definition known (lv : level) (E : list ptr) (s : heap) : Prop :=
  Forall (λ p, (p < H.next_ptr s)%positive ∧ p ≠ ctx ∧
               (lv = Ops → ∀ o, H.objs s !! p = Some o → model_obj o = false)) E.

Definition same_lists_of (P : field → bool) (s s' : heap) : Prop := ∀ q f o,
  H.objs s !! q = Some o → model_obj o = true → is_Some (entry_of f) → P f = true →
  H.lists s' !! (q, f) = H.lists s !! (q, f).

(** The remote views of an attachment are there, and lead to attachments. *)
Definition views_ok (s : heap) (l : list addr) : Prop :=
  Forall (λ e : addr, ∃ x y, H.objs s !! e.1 = Some (ORpa x) ∧ H.objs s !! Rpa.remote x = Some (OPa y)) l.

Record frame_err (s s' : heap) : Prop := {
  fe_next : (H.next_ptr s ≤ H.next_ptr s')%positive;
  fe_ctx x : H.objs s !! ctx = Some (OCtx x) → ∃ x', H.objs s' !! ctx = Some (OCtx x') ∧
    Ctx.problem_count x ≤ Ctx.problem_count x' ∧ (Ctx.nlsock x = true → Ctx.nlsock x' = true) }.

Record frame_ops (s s' : heap) : Prop := {
  fo_objs p o : H.objs s !! p = Some o → model_obj o = true → ∃ o', H.objs s' !! p = Some o' ∧ same_obj o o';
  fo_new p o' : H.objs s' !! p = Some o' → model_obj o' = true → ∃ o, H.objs s !! p = Some o ∧ model_obj o = true;
  fo_lists : same_lists_of (λ _, true) s s' }.

(** Views of remote attachments are made by a commit. *)
Definition is_view (o : obj) : bool := match o with ORpa _ => true | _ => false end.
Definition is_remote_list (f : field) : bool := match f with F_remote_pa_list => true | _ => false end.

Record frame_com (s s' : heap) : Prop := {
  fc_objs p o : H.objs s !! p = Some o → model_obj o = true → ∃ o', H.objs s' !! p = Some o' ∧ step_obj o o';
  fc_new p o' : H.objs s' !! p = Some o' → model_obj o' = true → is_view o' = false →
    ∃ o, H.objs s !! p = Some o ∧ model_obj o = true;
  fc_lists : same_lists_of (λ f, negb (is_remote_list f)) s s';
  fc_views p y l : H.objs s !! p = Some (OPa y) → H.lists s !! (p, F_remote_pa_list) = Some l → views_ok s l →
    ∃ l', H.lists s' !! (p, F_remote_pa_list) = Some l' ∧ views_ok s' l' }.

Definition frame (lv : level) (s s' : heap) : Prop :=
  frame_err s s' ∧
  match lv with
  | Ops => frame_ops s s'
  | Com => count s' = 0 → frame_com s s'
  | Err => True
  end.

(** [m] keeps to its level in every run that returns, and does not free an object of the model;
    [E] are objects it may free. *)
Definition ok (lv : level) (E : list ptr) {A} (m : M heap A) : Prop := ∀ s a s',
  pre lv s → known lv E s → m s = Ok a s' → pre lv s' ∧ frame lv s s'.

(** *** Frames are preorders *)

Lemma frame_err_refl s : frame_err s s.
Proof. split; [reflexivity|]. intros x Hx. exists x. split_and!; [done|lia|done]. Qed.
Lemma frame_err_trans s1 s2 s3 : frame_err s1 s2 → frame_err s2 s3 → frame_err s1 s3.
Proof.
  intros [? H1] [? H2]. split; [etrans; done|]. intros x Hx.
  destruct (H1 x Hx) as (y & Hy & ? & ?). destruct (H2 y Hy) as (z & Hz & ? & ?). exists z. split_and!; [done|lia|auto].
Qed.
Lemma frame_count s s' : base s → frame_err s s' → 0 ≤ count s ≤ count s'.
Proof.
  intros Hb [_ Hf]. destruct (base_ctx s Hb) as (x & Hx & ?). destruct (Hf x Hx) as (y & Hy & ? & _).
  unfold count. rewrite Hx, Hy. lia.
Qed.

Lemma same_lists_of_trans P s1 s2 s3 : (∀ p o, H.objs s1 !! p = Some o → model_obj o = true →
    ∃ o', H.objs s2 !! p = Some o' ∧ step_obj o o') →
  same_lists_of P s1 s2 → same_lists_of P s2 s3 → same_lists_of P s1 s3.
Proof.
  intros Ho H1 H2 q f o Hq Hm Hf HP. destruct (Ho q o Hq Hm) as (o' & Hq' & Hs & _).
  rewrite (H2 q f o'); [by eapply H1|done|by rewrite (shape_model o)|done|done].
Qed.
Lemma frame_ops_refl s : frame_ops s s.
Proof. split; [intros p o Hp _; exists o; split; [done|apply same_obj_refl]|eauto|done]. Qed.
Lemma frame_ops_trans s1 s2 s3 : frame_ops s1 s2 → frame_ops s2 s3 → frame_ops s1 s3.
Proof.
  intros H1 H2. split.
  - intros p o Hp Hm. destruct (fo_objs _ _ H1 p o Hp Hm) as (o2 & Hp2 & Hs).
    destruct (fo_objs _ _ H2 p o2 Hp2) as (o3 & Hp3 & Hs').
    { rewrite (shape_model o); [done|apply Hs]. }
    exists o3. split; [done|by eapply same_obj_trans].
  - intros p o' Hp Hm. destruct (fo_new _ _ H2 p o' Hp Hm) as (o2 & Hp2 & Hm2). by eapply fo_new.
  - eapply same_lists_of_trans; [|apply H1|apply H2]. intros p o Hp Hm.
    destruct (fo_objs _ _ H1 p o Hp Hm) as (o2 & ? & ?). eauto using same_step.
Qed.
Lemma frame_com_refl s : frame_com s s.
Proof. split; [intros p o Hp _; exists o; split; [done|apply same_step, same_obj_refl]|eauto|done|eauto]. Qed.
Lemma frame_com_trans s1 s2 s3 : frame_com s1 s2 → frame_com s2 s3 → frame_com s1 s3.
Proof.
  intros H1 H2. split.
  - intros p o Hp Hm. destruct (fc_objs _ _ H1 p o Hp Hm) as (o2 & Hp2 & Hs).
    destruct (fc_objs _ _ H2 p o2 Hp2) as (o3 & Hp3 & Hs').
    { rewrite (shape_model o); [done|apply Hs]. }
    exists o3. split; [done|by eapply step_obj_trans].
  - intros p o3 Hp Hm Hv. destruct (fc_new _ _ H2 p o3 Hp Hm Hv) as (o2 & Hp2 & Hm2).
    destruct (fc_objs _ _ H2 p o2 Hp2 Hm2) as (o & Hpo & Hs & _). simplify_eq. eapply (fc_new _ _ H1); [done..|].
    by destruct o3, o2.
  - eapply same_lists_of_trans; [|apply H1|apply H2]. intros p o Hp Hm.
    destruct (fc_objs _ _ H1 p o Hp Hm) as (o2 & ? & ?). eauto.
  - intros p y l Hp Hl Hv. destruct (fc_views _ _ H1 p y l Hp Hl Hv) as (l2 & Hl2 & Hv2).
    destruct (fc_objs _ _ H1 p _ Hp) as (o2 & Hp2 & Hs & _); [done|]. destruct o2; try done.
    by eapply (fc_views _ _ H2).
Qed.
Lemma lvl_refl lv s : frame lv s s.
Proof. split; [apply frame_err_refl|]. destruct lv; [apply frame_ops_refl|intros _; apply frame_com_refl|done]. Qed.
Lemma lvl_trans lv s1 s2 s3 : base s2 → frame lv s1 s2 → frame lv s2 s3 → frame lv s1 s3.
Proof.
  intros Hb [He1 H1] [He2 H2]. split; [by eapply frame_err_trans|]. destruct lv; [by eapply frame_ops_trans| |done].
  intros Hc. pose proof (frame_count s2 s3 Hb He2). eapply frame_com_trans; [apply H1; lia|by apply H2].
Qed.

Lemma known_frame lv E s s' : frame lv s s' → known lv E s → known lv E s'.
Proof.
  intros [He Hf] Hk. eapply Forall_impl; [exact Hk|]. intros p (Hp & Hc & Ho). split_and!.
  - eapply Pos.lt_le_trans; [done|apply He].
  - done.
  - intros -> o' Hp'. destruct (model_obj o') eqn:Hm; [|done].
    destruct (fo_new _ _ Hf p o' Hp' Hm) as (o & Hpo & Hmo). by rewrite Ho in Hmo.
Qed.
Lemma known_nil lv s : known lv [] s.
Proof. by apply Forall_nil. Qed.

(** *** Rules *)

Lemma ok_bind {A B : Type} lv E (m : M heap A) (f : A → M heap B) :
  ok lv E m → (∀ a, ok lv E (f a)) → ok lv E (m ≫= f).
Proof.
  intros Hm Hf s b s' Hp Hk. unfold mbind, M_bind. destruct (m s) as [a s1|] eqn:E1; [|done]. intros E2.
  destruct (Hm s a s1 Hp Hk E1) as [Hp1 Hf1].
  destruct (Hf a s1 b s' Hp1 (known_frame _ _ _ _ Hf1 Hk) E2) as [Hp2 Hf2].
  split; [done|]. eapply lvl_trans; [apply Hp1|done..].
Qed.

(** What only reads. *)
Definition reads {A} (m : M heap A) : Prop := ∀ s a s', m s = Ok a s' → s' = s.
Lemma ok_reads {A} lv E (m : M heap A) : reads m → ok lv E m.
Proof. intros Hm s a s' Hp _ ->%Hm. split; [done|apply lvl_refl]. Qed.
Lemma ok_ret {A} lv E (a : A) : ok lv E (mret a).
Proof. apply ok_reads. by intros s b s' [= _ <-]. Qed.
Lemma ok_fail {A} lv E e : ok lv E (fail e : M heap A).
Proof. by intros s a s' _ _ Hm. Qed.
Lemma ok_get lv E : ok lv E get.
Proof. apply ok_reads. by intros s b s' [= _ <-]. Qed.
Lemma ok_gets {A} lv E (f : heap → A) : ok lv E (gets f).
Proof. apply ok_reads. by intros s b s' [= _ <-]. Qed.
Lemma ok_live {A} lv E (o : option A) : ok lv E (live o).
Proof. destruct o; [apply ok_ret|apply ok_fail]. Qed.
Lemma ok_deref {A} lv E (o : option A) : ok lv E (deref o).
Proof. destruct o; [apply ok_ret|apply ok_fail]. Qed.
Lemma ok_assert lv E b : ok lv E (assert_ b).
Proof. destruct b; [apply ok_ret|apply ok_fail]. Qed.
Lemma ok_get_obj lv E p : ok lv E (get_obj p).
Proof. apply ok_bind; [apply ok_get|intros s; apply ok_live]. Qed.
Lemma ok_when lv E b m : ok lv E m → ok lv E (when b m).
Proof. destruct b; [done|intros _; apply ok_ret]. Qed.
Lemma ok_mforeach {A} lv E (body : A → M heap unit) l : (∀ x, ok lv E (body x)) → ok lv E (mforeach body l).
Proof. intros Hb. induction l as [|x l IH]; simpl; [apply ok_ret|]. apply ok_bind; [done|by intros _]. Qed.
Lemma ok_run_action lv E a order : ok lv E (run_action a order).
Proof. apply ok_reads. intros s acts s'. apply run_action_state. Qed.

(** A step that only writes lists, or nothing the frames speak of. *)
Lemma frame_lists lv s L : pre lv s → Store.wf L → typed L → same_lists (H.lists s) L →
  pre lv (H.set_lists L s) ∧ frame lv s (H.set_lists L s).
Proof.
  intros [Hb Ht] Hwf Hty Hs. split.
  - split; [|exact Ht]. destruct Hb. by split.
  - split; [by split; [reflexivity|]; intros x Hx; exists x; split_and!; [|lia|]|]. destruct lv; [|intros _|done].
    + split; [intros p o Hp _; exists o; split; [done|apply same_obj_refl]|eauto|].
      intros q f o _ _ Hf _. by apply Hs.
    + split; [intros p o Hp _; exists o; split; [done|apply same_step, same_obj_refl]|eauto|..].
      * intros q f o _ _ Hf _. by apply Hs.
      * intros p y l _ Hl Hv. exists l. split; [|done]. simpl. by rewrite Hs.
Qed.
Lemma frame_same lv s s' : pre lv s → (H.next_ptr s ≤ H.next_ptr s')%positive → H.lists s' = H.lists s →
  H.objs s' = H.objs s → pre lv s' ∧ frame lv s s'.
Proof.
  intros [[Hwf Hty Hfr Hcb Hx] Ht] Hn Hl Ho. split.
  - split; [split; rewrite ?Hl, ?Ho; try done|]; [|unfold count, untroubled; by rewrite Ho].
    intros p o Hp. eapply Pos.lt_le_trans; [by eapply Hfr|done].
  - split; [split; [done|]; rewrite Ho; intros x ?; exists x; split_and!; [done|lia|done]|].
    destruct lv; [|intros _|done].
    + split; unfold same_lists_of; rewrite ?Hl, ?Ho; [|eauto|done]. intros p o Hp _. exists o. split; [done|apply same_obj_refl].
    + split; unfold same_lists_of; rewrite ?Hl, ?Ho; [|eauto|done|].
      * intros p o Hp _. exists o. split; [done|apply same_step, same_obj_refl].
      * intros p y l _ Hlp Hv. exists l. split; [done|]. unfold views_ok. by rewrite Ho.
Qed.
Lemma ok_modify lv E (f : heap → heap) :
  (∀ s, H.next_ptr (f s) = H.next_ptr s ∧ H.lists (f s) = H.lists s ∧ H.objs (f s) = H.objs s) → ok lv E (modify f).
Proof.
  intros Hf s [] s' Hp _ [= <-]. destruct (Hf s) as (Hn & Hl & Ho). apply frame_same; [done|by rewrite Hn|done..].
Qed.
Lemma ok_on_lists {A} lv E (m : M (gmap addr (list addr)) A) : calm m → ok lv E (on_lists m).
Proof.
  intros Hm s a s' Hp _. unfold on_lists. destruct (m (H.lists s)) as [b L|] eqn:E1; [|done]. intros [= <- <-].
  destruct (Hm _ _ _ (base_wf _ (pre_base _ _ Hp)) (base_typed _ (pre_base _ _ Hp)) E1) as (Hwf & Ht & Hs).
  by apply frame_lists.
Qed.
Lemma ok_list_init lv E e : model_field e.2 = false → ok lv E (list_init e).
Proof.
  intros He. apply ok_bind; [|intros _; by apply ok_on_lists, calm_init]. intros s [] s' Hp _ [= <-].
  destruct (forallb _ _); [|split; [done|apply lvl_refl]]. pose proof (pre_base _ _ Hp) as Hb.
  assert (Hs : same_lists (H.lists s) (delete e (H.lists s))) by by apply same_delete, not_model.
  apply frame_lists; [done|by apply Store.wf_delete, Hb|by eapply typed_same; [apply Hb|]|done].
Qed.

(** *** Objects *)

(** An object is overwritten with what the network types may make of it. *)
Definition over (o o' : obj) : Prop :=
  model_obj o' = model_obj o ∧ (model_obj o = true → same_obj o o') ∧ obj_state o' = obj_state o ∧
  (∀ p, own_cb p o → own_cb p o') ∧
  match o, o' with
  | OCtx x, OCtx y => Ctx.problem_count x ≤ Ctx.problem_count y ∧ (Ctx.nlsock x = true → Ctx.nlsock y = true)
  | _, _ => True
  end.

Lemma put_frame lv s p o o' : pre lv s → H.objs s !! p = Some o → over o o' →
  pre lv (H.set_objs (<[p := o']> (H.objs s)) s) ∧ frame lv s (H.set_objs (<[p := o']> (H.objs s)) s).
Proof.
  intros [Hb Ht] Hp (Hmo & Hso & Hst & Hcb & Hctx).
  set (s' := H.set_objs (<[p := o']> (H.objs s)) s).
  assert (Hobjs : ∀ q, H.objs s' !! q = if decide (p = q) then Some o' else H.objs s !! q).
  { intros q. simpl. destruct (decide (p = q)) as [->|]; [apply lookup_insert_eq|by apply lookup_insert_ne]. }
  assert (Hfe : frame_err s s').
  { split; [reflexivity|]. intros x Hx. rewrite Hobjs. case_decide; [|exists x; split_and!; [done|lia|done]]. subst p.
    simplify_eq. destruct (Hso eq_refl) as [Hsh _]. destruct o'; try done. eexists. split; [done|apply Hctx]. }
  assert (Hkeep : ∀ q oq, H.objs s !! q = Some oq → model_obj oq = true → ∃ oq', H.objs s' !! q = Some oq' ∧ same_obj oq oq').
  { intros q oq Hq Hm. rewrite Hobjs. case_decide; [|exists oq; split; [done|apply same_obj_refl]]. subst q. simplify_eq.
    exists o'. split; [done|]. by apply Hso. }
  split.
  - split.
    + destruct Hb as [Hwf Hty Hfr Hcbs (x & Hx & Hc)]. split; [done|done| | |].
      * intros q oq. rewrite Hobjs. case_decide; [|by apply Hfr]. subst q. intros _. by eapply Hfr.
      * intros q oq. rewrite Hobjs. case_decide; [|by apply Hcbs]. subst q. intros [= <-]. by eapply Hcb, Hcbs.
      * destruct (fe_ctx _ _ Hfe x Hx) as (x' & Hx' & ? & _). exists x'. split; [done|lia].
    + intros -> Hc q oq st. rewrite Hobjs. pose proof (frame_count s s' Hb Hfe).
      assert (Hu : untroubled s) by exact (Ht eq_refl ltac:(lia)).
      case_decide; [|by apply Hu]. subst q. intros [= <-]. rewrite Hst. exact (Hu p o st Hp).
  - split; [done|]. destruct lv; [|intros _|done].
    + split; [done| |done]. intros q oq'. rewrite Hobjs. case_decide; [|eauto]. subst q. intros [= <-]. rewrite Hmo. eauto.
    + split; [| |done|].
      * intros q oq Hq Hm. destruct (Hkeep q oq Hq Hm) as (oq' & ? & ?). eauto using same_step.
      * intros q oq'. rewrite Hobjs. case_decide; [|eauto]. subst q. intros [= <-]. rewrite Hmo. eauto.
      * intros q y l Hq Hl Hv. exists l. split; [done|]. eapply Forall_impl; [exact Hv|].
        intros e (x & z & Hx & Hz). destruct (Hkeep _ _ Hx) as (ox & Hx' & Hsx & _); [done|].
        destruct (Hkeep _ _ Hz) as (oz & Hz' & Hsz & _); [done|]. destruct ox; try done. destruct oz; try done.
        simpl in Hsx. simplify_eq. eauto.
Qed.
Lemma ok_upd {X} (as_x : obj → option X) (mk : X → obj) (f : X → X) lv E p :
  (∀ o x, as_x o = Some x → o = mk x) → (∀ x, over (mk x) (mk (f x))) →
  ok lv E (x ← (o ← get_obj p; live (as_x o)); put_obj p (mk (f x))).
Proof.
  intros Has Hf s [] s' Hp _. unfold get_obj, mbind, M_bind, get. destruct (H.objs s !! p) as [o|] eqn:Ho; [|done]. simpl.
  destruct (as_x o) as [x|] eqn:Hx; [|done]. apply Has in Hx as ->. intros [= <-]. by eapply put_frame.
Qed.

(** A new object, not one of the model. *)
Lemma ok_put_known lv E p o : lv ≠ Com → p ∈ E → model_obj o = false → own_cb p o → ok lv E (put_obj p o).
Proof.
  intros Hlv Hin Hm Hcb s [] s' [Hb Ht] Hk [= <-].
  destruct (proj1 (Forall_forall _ _) Hk p Hin) as (Hlt & Hne & Hold).
  set (s' := H.set_objs (<[p := o]> (H.objs s)) s).
  assert (Hobjs : ∀ q, H.objs s' !! q = if decide (p = q) then Some o else H.objs s !! q).
  { intros q. simpl. destruct (decide (p = q)) as [->|]; [apply lookup_insert_eq|by apply lookup_insert_ne]. }
  assert (Hc : H.objs s' !! ctx = H.objs s !! ctx) by (rewrite Hobjs; by case_decide).
  split; [split; [|done]|split].
  - destruct Hb as [Hwf Hty Hfr Hcbs Hx]. split; [done|done| | |by rewrite Hc].
    + intros q oq. rewrite Hobjs. case_decide; [by subst|by apply Hfr].
    + intros q oq. rewrite Hobjs. case_decide; [|by apply Hcbs]. subst q. by intros [= <-].
  - split; [reflexivity|]. intros x. rewrite Hc. intros Hx. exists x. split_and!; [done|lia|done].
  - destruct lv; [|done..]. specialize (Hold eq_refl). split; [| |done].
    + intros q oq Hq Hmq. exists oq. rewrite Hobjs. case_decide; [|split; [done|apply same_obj_refl]].
      subst q. by rewrite Hold in Hmq.
    + intros q oq. rewrite Hobjs. case_decide; [|eauto]. intros [= <-]. by rewrite Hm.
Qed.
Lemma ok_free lv E p : lv ≠ Com → p ∈ E → ok lv E (free_obj p).
Proof.
  intros Hlv Hin s [] s' [Hb Ht] Hk. destruct (proj1 (Forall_forall _ _) Hk p Hin) as (Hlt & Hne & Hold).
  unfold free_obj, get_obj, mbind, M_bind, get. destruct (H.objs s !! p) as [o|] eqn:Hp; [|done]. simpl.
  intros [= <-]. match goal with |- pre _ ?t ∧ _ => set (s' := t) end.
  assert (Hc : H.objs s' !! ctx = H.objs s !! ctx) by by apply lookup_delete_ne.
  assert (Hl : ∀ k l, H.lists s' !! k = Some l → H.lists s !! k = Some l).
  { intros k l Hkl. by apply map_lookup_filter_Some in Hkl as [? _]. }
  assert (Hs' : ∀ q oq, H.objs s' !! q = Some oq → H.objs s !! q = Some oq).
  { intros q oq Hq. change (delete p (H.objs s) !! q = Some oq) in Hq. by apply lookup_delete_Some in Hq as [_ ?]. }
  split; [split; [|done]|split].
  - destruct Hb as [Hwf Hty Hfr Hcbs Hx]. split; [exact (Store.wf_filter (λ k : addr, k.1 ≠ p) _ Hwf)| | | |by rewrite Hc].
    + intros q f g l e Hf Hq%Hl. by eapply Hty.
    + intros q oq Hq%Hs'. by eapply Hfr.
    + intros q oq Hq%Hs'. by eapply Hcbs.
  - split; [reflexivity|]. intros x. rewrite Hc. intros Hx. exists x. split_and!; [done|lia|done].
  - destruct lv; [|done..]. specialize (Hold eq_refl o eq_refl). split.
    + intros q oq Hq Hm. exists oq. split; [|apply same_obj_refl]. simpl. rewrite lookup_delete_ne; [done|congruence].
    + intros q oq Hq%Hs'. eauto.
    + intros q f oq Hq Hm _ _. destruct (H.lists s !! (q, f)) as [l|] eqn:Hqf.
      * apply map_lookup_filter_Some. split; [done|]. simpl. congruence.
      * destruct (H.lists s' !! (q, f)) eqn:Hqf'; [|done]. apply Hl in Hqf'. congruence.
Qed.

Lemma known_cons lv E s p : known lv E s → (p < H.next_ptr s)%positive → p ≠ ctx →
  (lv = Ops → ∀ o, H.objs s !! p = Some o → model_obj o = false) → known lv (p :: E) s.
Proof. intros. by apply Forall_cons. Qed.
(** What is read as an object of another kind is none of the model. *)
Lemma ok_get_known {X A : Type} (as_x : obj → option X) lv E p (f : X → M heap A) :
  (∀ o x, as_x o = Some x → model_obj o = false) → (∀ x, ok lv (p :: E) (f x)) →
  ok lv E ((o ← get_obj p; live (as_x o)) ≫= f).
Proof.
  intros Has Hf s a s' Hp Hk. unfold get_obj, mbind, M_bind, get. destruct (H.objs s !! p) as [o|] eqn:Ho; [|done]. simpl.
  destruct (as_x o) as [x|] eqn:Hx; [|done]. apply Has in Hx. destruct (base_ctx _ (pre_base _ _ Hp)) as (c & Hc & _).
  apply Hf; [done|]. apply known_cons; [done|by eapply base_fresh; [apply Hp|]|intros ->; by simplify_eq|intros _ o' ?; congruence].
Qed.
(** On a path to an error an object that is not the context may be freed. *)
Lemma ok_get_err {X A : Type} (as_x : obj → option X) E p (f : X → M heap A) :
  (∀ x, as_x (OCtx x) = None) → (∀ x, ok Err (p :: E) (f x)) → ok Err E ((o ← get_obj p; live (as_x o)) ≫= f).
Proof.
  intros Has Hf s a s' Hp Hk. unfold get_obj, mbind, M_bind, get. destruct (H.objs s !! p) as [o|] eqn:Ho; [|done]. simpl.
  destruct (as_x o) as [x|] eqn:Hx; [|done]. destruct (base_ctx _ (pre_base _ _ Hp)) as (c & Hc & _).
  apply Hf; [done|]. apply known_cons; [done|by eapply base_fresh; [apply Hp|]| |done].
  intros ->. simplify_eq. by rewrite Has in Hx.
Qed.
Lemma ok_malloc {A : Type} lv E (f : option ptr → M heap A) :
  ok lv E (f None) → (∀ p, ok lv (p :: E) (f (Some p))) → ok lv E (malloc ≫= f).
Proof.
  intros Hn Hs s a s' Hp Hk. unfold malloc, try_alloc. unfold mbind, M_bind, get, modify, mret, M_ret.
  set (s1 := H.set_allocs (S (H.allocs s)) s).
  destruct (Env.malloc_ok _ _).
  - set (s2 := H.set_next_ptr (Pos.succ (H.next_ptr s1)) s1). intros Hm.
    assert (H2 : pre lv s2 ∧ frame lv s s2) by (apply frame_same; [done|simpl; lia|done..]).
    destruct H2 as [Hp2 Hf2]. destruct (Hs (H.next_ptr s) s2 a s' Hp2) as [Hp' Hf']; [|exact Hm|].
    + apply known_cons; [by eapply known_frame|simpl; lia| |].
      * destruct (base_ctx _ (pre_base _ _ Hp)) as (c & Hc & _). apply (base_fresh _ (pre_base _ _ Hp)) in Hc. lia.
      * intros -> o Ho. apply (base_fresh _ (pre_base _ _ Hp)) in Ho. lia.
    + split; [done|]. eapply lvl_trans; [apply Hp2|done..].
  - intros Hm. destruct (ok_modify lv E (λ s, H.set_allocs (S (H.allocs s)) s) (λ _, conj eq_refl (conj eq_refl eq_refl))
      s tt s1 Hp Hk eq_refl) as [Hp1 Hf1].
    destruct (Hn s1 a s' Hp1 (known_frame _ _ _ _ Hf1 Hk) Hm) as [Hp' Hf']. split; [done|].
    eapply lvl_trans; [apply Hp1|done..].
Qed.

(** An operation of a network type is a step of any kind. *)
Lemma frame_ops_com s s' : frame_ops s s' → frame_com s s'.
Proof.
  intros Hf. split.
  - intros p o Hp Hm. destruct (fo_objs _ _ Hf p o Hp Hm) as (o' & ? & ?). eauto using same_step.
  - intros p o' Hp Hm _. exact (fo_new _ _ Hf p o' Hp Hm).
  - intros q f o Hq Hm Hff _. by eapply fo_lists.
  - intros p y l Hp Hl Hv. exists l. split; [by rewrite (fo_lists _ _ Hf p _ _ Hp)|].
    eapply Forall_impl; [exact Hv|]. intros e (x & z & Hx & Hz).
    destruct (fo_objs _ _ Hf _ _ Hx) as (ox & Hx' & Hsx & _); [done|].
    destruct (fo_objs _ _ Hf _ _ Hz) as (oz & Hz' & Hsz & _); [done|]. destruct ox; try done. destruct oz; try done.
    simpl in Hsx. simplify_eq. eauto.
Qed.
Lemma ok_lift {A} lv E (m : M heap A) : ok Ops [] m → ok lv E m.
Proof.
  intros Hm s a s' [Hb Ht] _ Hr. destruct (Hm s a s' ltac:(by split) (known_nil _ _) Hr) as [[Hb' _] [Hfe Hfo]].
  pose proof (frame_count s s' Hb Hfe). split.
  - split; [done|]. intros -> Hc p o st Hp Hst. specialize (Ht eq_refl ltac:(lia)).
    destruct (fo_new _ _ Hfo p o Hp) as (o0 & Hp0 & Hm0); [by destruct o|].
    destruct (fo_objs _ _ Hfo p o0 Hp0 Hm0) as (o1 & Hp1 & _ & Hs1 & _). simplify_eq. eapply Ht; [done|]. congruence.
  - split; [done|]. destruct lv; [done|intros _; by apply frame_ops_com|done].
Qed.
End frame.

(** *** Automation *)

Create HintDb ok discriminated.
#[export] Hint Resolve ok_ret ok_fail ok_get ok_gets ok_live ok_deref ok_assert ok_get_obj ok_run_action : ok.
#[export] Hint Extern 1 (ok _ _ _ (modify _)) => apply ok_modify; intros; split_and!; reflexivity : ok.
#[export] Hint Extern 3 (ok _ _ _ (match ?x with _ => _ end)) => destruct x : ok.
#[export] Hint Extern 2 (ok _ _ _ (when _ _)) => apply ok_when : ok.
#[export] Hint Extern 2 (ok _ _ _ (mforeach _ _)) => apply ok_mforeach; intros ? : ok.
#[export] Hint Extern 4 (ok _ _ _ (_ ≫= _)) => apply ok_bind; [|intros ?] : ok.
#[export] Hint Extern 1 (_ ∈ _) => set_solver : ok.
#[export] Hint Extern 1 (_ ≠ Com) => discriminate : ok.
#[export] Hint Extern 1 (model_obj _ = false) => reflexivity : ok.
#[export] Hint Extern 1 (own_cb _ _ _) => first [exact I | reflexivity | assumption] : ok.
#[export] Hint Extern 1 (model_field _ = false) => reflexivity || assumption : ok.
#[export] Hint Resolve ok_put_known ok_free ok_list_init calm_is_empty calm_init_add calm_add calm_remove ok_on_lists : ok.
#[export] Hint Extern 2 (ok _ _ _ (malloc ≫= _)) => apply ok_malloc; [|intros ?] : ok.
#[export] Hint Extern 3 (ok _ _ _ (foreach _ _)) => unfold foreach, list_get : ok.
#[export] Hint Extern 3 (ok _ _ _ (list_init_add _ _)) => unfold list_init_add : ok.
#[export] Hint Extern 3 (ok _ _ _ (list_add _ _)) => unfold list_add : ok.
#[export] Hint Extern 3 (ok _ _ _ (list_remove _)) => unfold list_remove : ok.
#[export] Hint Extern 3 (ok _ _ _ (is_list_empty _)) => unfold is_list_empty : ok.
#[export] Hint Extern 3 (ok _ _ _ (list_get _)) => unfold list_get : ok.

(** Overwriting objects: the new value differs in what the network types write. *)
Ltac over := intros; split_and!; try done; intros; split_and!; try done; simpl; lia.
Section updates.
Context (ctx : ptr).
Implicit Types (lv : level) (E : list ptr).

Lemma over_ctx x y : Ctx.problem_count x ≤ Ctx.problem_count y → (Ctx.nlsock x = true → Ctx.nlsock y = true) →
  Ctx.inconsistent y = Ctx.inconsistent x → over ctx (OCtx x) (OCtx y).
Proof. intros Hc Hn Hi. split_and!; try done. intros _. split_and!; try done. simpl. by rewrite Hi. Qed.
Lemma over_settings x n : over ctx (OSettings x) (OSettings (Settings.set_refcount n x)).
Proof. over. Qed.
Lemma over_virt x y : shape (OVirt y) = shape (OVirt x) → Virt.state y = Virt.state x → over ctx (OVirt x) (OVirt y).
Proof. intros Hs Ht. unfold over, same_obj. simpl obj_state. rewrite Ht. by split_and!. Qed.
Lemma over_other x y : model_obj x = false → model_obj y = false → (∀ p, own_cb ctx p x → own_cb ctx p y) → over ctx x y.
Proof.
  intros Hx Hy Hc. unfold over. split; [congruence|]. split; [congruence|]. split; [by destruct x, y|].
  split; [done|]. by destruct x.
Qed.

Lemma ok_upd_ctx lv E p f : (∀ x, over ctx (OCtx x) (OCtx (f x))) → ok ctx lv E (upd_ctx p f).
Proof. apply ok_upd. by intros [] ? [= ->]. Qed.
Lemma ok_upd_settings lv E p f : (∀ x, over ctx (OSettings x) (OSettings (f x))) → ok ctx lv E (upd_settings p f).
Proof. apply ok_upd. by intros [] ? [= ->]. Qed.
Lemma ok_upd_virt lv E p f : (∀ x, over ctx (OVirt x) (OVirt (f x))) → ok ctx lv E (upd_virt p f).
Proof. apply ok_upd. by intros [] ? [= ->]. Qed.
Lemma ok_upd_vrprio lv E p f : ok ctx lv E (upd_vrprio p f).
Proof. apply ok_upd; [by intros [] ? [= ->]|]. intros x. split_and!; try done. Qed.
Lemma ok_upd_rsprio lv E p f : ok ctx lv E (upd_rsprio p f).
Proof. apply ok_upd; [by intros [] ? [= ->]|]. intros x. by apply over_other. Qed.
Lemma ok_upd_bfilter lv E p f : ok ctx lv E (upd_bfilter p f).
Proof. apply ok_upd; [by intros [] ? [= ->]|]. intros x. by apply over_other. Qed.
End updates.

#[export] Hint Resolve ok_upd_ctx ok_upd_settings ok_upd_virt ok_upd_vrprio ok_upd_rsprio ok_upd_bfilter over_settings : ok.
#[export] Hint Extern 1 (over _ (OVirt _) (OVirt _)) => apply over_virt; reflexivity : ok.
#[export] Hint Extern 1 (over _ (OCtx _) (OCtx _)) => apply over_ctx; simpl; (reflexivity || lia || tauto) : ok.
#[export] Hint Extern 2 (ok _ _ _ (get_flower _ ≫= _)) => apply ok_get_known; [by intros [] ?|intros ?] : ok.
#[export] Hint Extern 2 (ok _ _ _ (get_rsprio _ ≫= _)) => apply ok_get_known; [by intros [] ?|intros ?] : ok.
#[export] Hint Extern 2 (ok _ _ _ (get_bfilter _ ≫= _)) => apply ok_get_known; [by intros [] ?|intros ?] : ok.
#[export] Hint Extern 3 (ok _ _ _ (get_ctx _)) => unfold get_ctx : ok.
#[export] Hint Extern 3 (ok _ _ _ (get_settings _)) => unfold get_settings : ok.
#[export] Hint Extern 3 (ok _ _ _ (get_phys _)) => unfold get_phys : ok.
#[export] Hint Extern 3 (ok _ _ _ (get_net _)) => unfold get_net : ok.
#[export] Hint Extern 3 (ok _ _ _ (get_pa _)) => unfold get_pa : ok.
#[export] Hint Extern 3 (ok _ _ _ (get_virt _)) => unfold get_virt : ok.
#[export] Hint Extern 3 (ok _ _ _ (get_rpa _)) => unfold get_rpa : ok.
#[export] Hint Extern 3 (ok _ _ _ (get_rvirt _)) => unfold get_rvirt : ok.
#[export] Hint Extern 3 (ok _ _ _ (get_vr _)) => unfold get_vr : ok.
#[export] Hint Extern 3 (ok _ _ _ (get_vrprio _)) => unfold get_vrprio : ok.
#[export] Hint Extern 3 (ok _ _ _ (get_rsprio _)) => unfold get_rsprio : ok.
#[export] Hint Extern 3 (ok _ _ _ (get_flower _)) => unfold get_flower : ok.
#[export] Hint Extern 3 (ok _ _ _ (get_bfilter _)) => unfold get_bfilter : ok.
#[export] Hint Extern 3 (ok _ _ _ (get_if _)) => unfold get_if : ok.
#[export] Hint Extern 3 (ok _ _ _ (get_rule _)) => unfold get_rule : ok.
#[export] Hint Extern 3 (ok _ _ _ (get_ruleset _)) => unfold get_ruleset : ok.
#[export] Hint Extern 3 (ok _ _ _ (get_broadcast _)) => unfold get_broadcast : ok.
#[export] Hint Extern 3 (ok _ _ _ (get_baction _)) => unfold get_baction : ok.
#[export] Hint Extern 3 (ok _ _ _ (get_container _)) => unfold get_container : ok.
#[export] Hint Extern 3 (ok _ _ _ (get_struct _)) => unfold get_struct : ok.
#[export] Hint Extern 3 (ok _ _ _ (get_lbridge _)) => unfold get_lbridge : ok.
#[export] Hint Extern 3 (ok _ _ _ (get_lbridge_if _)) => unfold get_lbridge_if : ok.
#[export] Hint Extern 3 (ok _ _ _ (get_lbridge_route _)) => unfold get_lbridge_route : ok.
#[export] Hint Extern 3 (ok _ _ _ (get_sbridge _)) => unfold get_sbridge : ok.
#[export] Hint Extern 3 (ok _ _ _ (get_sbridge_if _)) => unfold get_sbridge_if : ok.
#[export] Hint Extern 3 (ok _ _ _ (get_phys_if _)) => unfold get_phys_if : ok.
#[export] Hint Extern 3 (ok _ _ _ (get_sbridge_route _)) => unfold get_sbridge_route : ok.
#[export] Hint Extern 3 (ok _ _ _ (get_sbridge_mac _)) => unfold get_sbridge_mac : ok.
#[export] Hint Extern 3 (ok _ _ _ (get_clist _)) => unfold get_clist : ok.
#[export] Hint Extern 3 (ok _ _ _ (get_br_action _)) => unfold get_br_action : ok.
#[export] Hint Extern 3 (ok _ _ _ (get_fwd_rule _)) => unfold get_fwd_rule : ok.
#[export] Hint Extern 3 (ok _ _ _ (new_if _ _ )) => unfold new_if : ok.
#[export] Hint Extern 3 (ok _ _ _ (upd_if _ _ )) => unfold upd_if : ok.
#[export] Hint Extern 3 (ok _ _ _ (del_if _ )) => unfold del_if : ok.
#[export] Hint Extern 3 (ok _ _ _ (new_rule _ _ )) => unfold new_rule : ok.
#[export] Hint Extern 3 (ok _ _ _ (upd_rule _ _ )) => unfold upd_rule : ok.
#[export] Hint Extern 3 (ok _ _ _ (del_rule _ )) => unfold del_rule : ok.
#[export] Hint Extern 3 (ok _ _ _ (new_ruleset _ _ )) => unfold new_ruleset : ok.
#[export] Hint Extern 3 (ok _ _ _ (upd_ruleset _ _ )) => unfold upd_ruleset : ok.
#[export] Hint Extern 3 (ok _ _ _ (del_ruleset _ )) => unfold del_ruleset : ok.
#[export] Hint Extern 3 (ok _ _ _ (new_broadcast _ _ )) => unfold new_broadcast : ok.
#[export] Hint Extern 3 (ok _ _ _ (upd_broadcast _ _ )) => unfold upd_broadcast : ok.
#[export] Hint Extern 3 (ok _ _ _ (del_broadcast _ )) => unfold del_broadcast : ok.
#[export] Hint Extern 3 (ok _ _ _ (new_baction _ _ )) => unfold new_baction : ok.
#[export] Hint Extern 3 (ok _ _ _ (upd_baction _ _ )) => unfold upd_baction : ok.
#[export] Hint Extern 3 (ok _ _ _ (del_baction _ )) => unfold del_baction : ok.
#[export] Hint Extern 3 (ok _ _ _ (upd_lbridge _ _)) => unfold upd_lbridge : ok.
#[export] Hint Extern 3 (ok _ _ _ (upd_lbridge_if _ _)) => unfold upd_lbridge_if : ok.
#[export] Hint Extern 3 (ok _ _ _ (upd_lbridge_route _ _)) => unfold upd_lbridge_route : ok.
#[export] Hint Extern 3 (ok _ _ _ (upd_sbridge _ _)) => unfold upd_sbridge : ok.
#[export] Hint Extern 3 (ok _ _ _ (upd_sbridge_if _ _)) => unfold upd_sbridge_if : ok.
#[export] Hint Extern 3 (ok _ _ _ (upd_phys_if _ _)) => unfold upd_phys_if : ok.
#[export] Hint Extern 3 (ok _ _ _ (upd_sbridge_route _ _)) => unfold upd_sbridge_route : ok.
#[export] Hint Extern 3 (ok _ _ _ (upd_sbridge_mac _ _)) => unfold upd_sbridge_mac : ok.
#[export] Hint Extern 3 (ok _ _ _ (upd_clist _ _)) => unfold upd_clist : ok.
#[export] Hint Extern 3 (ok _ _ _ (put_struct _ _)) => unfold put_struct : ok.
Ltac head_of t := lazymatch t with ?f _ => head_of f | _ => t end.
Ltac ok := auto 100 with ok nocore.
(** Unfolds the computation and goes through it. *)
Ltac ok_body := intros; match goal with |- ok _ _ _ ?m => let h := head_of m in unfold h; ok end.

(** *** Services *)

Section services.
Context (ctx : ptr).
Implicit Types (lv : level) (E : list ptr).

Lemma ok_try_alloc lv E : ok ctx lv E try_alloc.
Proof. apply ok_lift. ok_body. Qed.
Lemma ok_strdup lv E : ok ctx lv E strdup.
Proof. apply ok_try_alloc. Qed.
Lemma ok_mk_name lv E c type : ok ctx lv E (lsdn_mk_name c type).
Proof. apply ok_lift. ok_body. Qed.
Lemma ok_nomem lv E c : ok ctx lv E (nomem c).
Proof. apply ok_lift. ok_body. Qed.
Hint Resolve ok_try_alloc ok_strdup ok_mk_name ok_nomem : ok.
Lemma ok_if_init lv E i : ok ctx lv E (lsdn_if_init i).
Proof. apply ok_lift. ok_body. Qed.
Lemma ok_if_free lv E i : ok ctx lv E (lsdn_if_free i).
Proof. apply ok_lift. ok_body. Qed.
Hint Resolve ok_if_init ok_if_free : ok.
Lemma ok_if_reset lv E i : ok ctx lv E (lsdn_if_reset i).
Proof. apply ok_lift. ok_body. Qed.
Lemma ok_if_set_name lv E i n : ok ctx lv E (lsdn_if_set_name i n).
Proof. apply ok_lift. ok_body. Qed.
Lemma ok_if_resolve lv E i : ok ctx lv E (lsdn_if_resolve i).
Proof. apply ok_lift. ok_body. Qed.
Lemma ok_send lv E c r : ok ctx lv E (send_await_response c r).
Proof. apply ok_lift. ok_body. Qed.
End services.
#[export] Hint Resolve ok_try_alloc ok_strdup ok_mk_name ok_nomem ok_if_init ok_if_free ok_if_reset ok_if_set_name
  ok_if_resolve ok_send : ok.

(** *** Kernel requests *)

Section requests.
Context (ctx : ptr).
Implicit Types (lv : level) (E : list ptr).

Lemma ok_nametoindex lv E n : ok ctx lv E (if_nametoindex n).
Proof. apply ok_gets. Qed.
Hint Resolve ok_nametoindex : ok.
Lemma ok_cleanup_link lv E c n o : ok ctx lv E (cleanup_link c n o).
Proof. apply ok_lift. ok_body. Qed.
Lemma ok_link_send lv E c k n i : ok ctx lv E (link_create_send c k n i).
Proof. apply ok_lift. ok_body. Qed.
Hint Resolve ok_cleanup_link ok_link_send : ok.
Lemma ok_link_delete lv E c i : ok ctx lv E (lsdn_link_delete c i).
Proof. apply ok_lift. ok_body. Qed.
Lemma ok_link_dummy lv E c i n o : ok ctx lv E (lsdn_link_dummy_create c i n o).
Proof. apply ok_lift. ok_body. Qed.
Lemma ok_link_vlan lv E c i n n' v o : ok ctx lv E (lsdn_link_vlan_create c i n n' v o).
Proof. apply ok_lift. ok_body. Qed.
Lemma ok_link_vxlan lv E c i n n' g v p b b' ip o : ok ctx lv E (lsdn_link_vxlan_create c i n n' g v p b b' ip o).
Proof. apply ok_lift. ok_body. Qed.
Lemma ok_link_geneve lv E c i n p b o : ok ctx lv E (lsdn_link_geneve_create c i n p b o).
Proof. apply ok_lift. ok_body. Qed.
Lemma ok_link_bridge lv E c i n o : ok ctx lv E (lsdn_link_bridge_create c i n o).
Proof. apply ok_lift. ok_body. Qed.
Lemma ok_set_master lv E c m i : ok ctx lv E (lsdn_link_set_master c m i).
Proof. apply ok_send. Qed.
Lemma ok_link_set lv E c i b : ok ctx lv E (lsdn_link_set c i b).
Proof. apply ok_send. Qed.
Lemma ok_fdb_add lv E c i m ip : ok ctx lv E (lsdn_fdb_add_entry c i m ip).
Proof. apply ok_send. Qed.
Lemma ok_fdb_remove lv E c i m ip : ok ctx lv E (lsdn_fdb_remove_entry c i m ip).
Proof. apply ok_send. Qed.
Lemma ok_filter_init lv E k i h p c pr : ok ctx lv E (filter_init k i h p c pr).
Proof. apply ok_lift. ok_body. Qed.
Lemma ok_filter_create lv E c f : ok ctx lv E (lsdn_filter_create c f).
Proof. apply ok_send. Qed.
Lemma ok_filter_delete lv E c i h p ch pr : ok ctx lv E (lsdn_filter_delete c i h p ch pr).
Proof. apply ok_send. Qed.
Lemma ok_egress_delete lv E c i : ok ctx lv E (lsdn_qdisc_egress_delete c i).
Proof. apply ok_lift. ok_body. Qed.
Lemma ok_ingress_delete lv E c i : ok ctx lv E (lsdn_qdisc_ingress_delete c i).
Proof. apply ok_lift. ok_body. Qed.
Hint Resolve ok_egress_delete ok_ingress_delete : ok.
Lemma ok_egress_create lv E c i o : ok ctx lv E (lsdn_qdisc_egress_create c i o).
Proof. apply ok_lift. ok_body. Qed.
Lemma ok_ingress_create lv E c i o : ok ctx lv E (lsdn_qdisc_ingress_create c i o).
Proof. apply ok_lift. ok_body. Qed.
End requests.
#[export] Hint Resolve ok_nametoindex ok_link_delete ok_link_dummy ok_link_vlan ok_link_vxlan ok_link_geneve ok_link_bridge
  ok_set_master ok_link_set ok_fdb_add ok_fdb_remove ok_filter_init ok_filter_create ok_filter_delete
  ok_egress_delete ok_ingress_delete ok_egress_create ok_ingress_create : ok.

(** *** Rules, broadcasts and cleanup lists *)

Section engine.
Context (ctx : ptr).
Implicit Types (lv : level) (E : list ptr).

Lemma ok_action_init lv E r n f : ok ctx lv E (lsdn_action_init r n f).
Proof. apply ok_lift. ok_body. Qed.
Lemma ok_apply_mask lv E r ts ms : ok ctx lv E (lsdn_rule_apply_mask r ts ms).
Proof. apply ok_lift. ok_body. Qed.
Lemma ok_ruleset_init lv E rs c i p ch st : ok ctx lv E (lsdn_ruleset_init rs c i p ch st).
Proof. apply ok_lift. ok_body. Qed.
Lemma ok_define_prio lv E rs n : ok ctx lv E (lsdn_ruleset_define_prio rs n).
Proof. apply ok_lift. ok_body. Qed.
Lemma ok_ruleset_free lv E rs : ok ctx lv E (lsdn_ruleset_free rs).
Proof. apply ok_lift. ok_body. Qed.
Lemma ok_remove_prio lv E p : ok ctx lv E (lsdn_ruleset_remove_prio p).
Proof. apply ok_lift. ok_body. Qed.
Lemma ok_source_actions lv E o l : ok ctx lv E (source_actions o l).
Proof. apply ok_lift. revert o. induction l as [|r l IH]; intros o; simpl; ok. Qed.
Hint Resolve ok_source_actions : ok.
Lemma ok_list_entries lv E h : ok ctx lv E (list_entries h).
Proof. apply ok_lift. ok_body. Qed.
Hint Resolve ok_list_entries : ok.
Hint Extern 3 (ok _ _ _ (lsdn_filter_flower_init _ _ _ _ _)) => apply ok_filter_init : ok.
Hint Extern 3 (ok _ _ _ (lsdn_filter_fw_init _ _ _ _ _)) => apply ok_filter_init : ok.
Lemma ok_flush_fl lv E fl p u : ok ctx lv E (flush_fl_rule fl p u).
Proof. apply ok_lift. ok_body. Qed.
Lemma ok_free_fl lv E fl p : ok ctx lv E (free_fl_rule fl p).
Proof. apply ok_lift. ok_body. Qed.
Hint Resolve ok_flush_fl ok_free_fl : ok.
Lemma ok_ruleset_remove lv E r : model_field r.2 = false → ok ctx lv E (lsdn_ruleset_remove r).
Proof. intros Hr. apply ok_lift. ok_body. Qed.
Hint Resolve ok_action_init ok_apply_mask ok_ruleset_init ok_define_prio ok_ruleset_free ok_remove_prio
  ok_ruleset_remove : ok.

(** The place for a source is the head of the list or one of its entries. *)
Lemma find_nearest_lower_in n h l s place s' : find_nearest_lower n h l s = Ok place s' →
  s' = s ∧ ∀ q, place = inl q → q ∈ h :: l.
Proof.
  revert h. induction l as [|r l IH]; intros h; simpl.
  - intros [= <- <-]. split; [done|]. intros q [= ->]. left.
  - unfold get_rule, mbind, M_bind, get. destruct (H.rules s !! r) as [x|]; [|done]. simpl.
    destruct (Rule.subprio x =? n); [intros [= <- <-]; split; [done|by intros ? [=]]|].
    destruct (n <? Rule.subprio x); [intros [= <- <-]; split; [done|]; intros q [= ->]; left|].
    intros [-> Hq]%IH. split; [done|]. intros q Hpl. right. by apply Hq.
Qed.
Lemma list_entries_run h s l s' : list_entries h s = Ok l s' → s' = s ∧ H.lists s !! h = Some l.
Proof. unfold list_entries, mbind, M_bind, get. by destruct (H.lists s !! h) as [m|]; [intros [= <- <-]|]. Qed.
Lemma ok_add_source lv E h n rule {A : Type} (f : unit → M heap A) (e : M heap A) :
  entry_of h.2 = None → model_field rule.2 = false → (∀ u, ok ctx lv E (f u)) → ok ctx lv E e →
  ok ctx lv E (l ← list_entries h; place ← find_nearest_lower n h l;
               match place with inl q => list_init_add q rule ≫= f | inr _ => e end).
Proof.
  intros Hh Hr Hf He s a s' Hp Hk. unfold mbind at 1, M_bind at 1.
  destruct (list_entries h s) as [l s0|] eqn:Hl; [|done]. apply list_entries_run in Hl as [-> Hl].
  unfold mbind at 1, M_bind at 1. destruct (find_nearest_lower n h l s) as [place s1|] eqn:Hfind; [|done].
  destruct (find_nearest_lower_in _ _ _ _ _ _ Hfind) as [-> Hin]. destruct place as [q|]; [|by apply He].
  unfold list_init_add, on_lists, mbind, M_bind. destruct (Store.init_add q rule (H.lists s)) as [[] L|] eqn:Hadd; [|done].
  intros Hrun. pose proof (base_wf _ _ (pre_base _ _ _ Hp)) as Hwf.
  destruct (calm_init_add_at q rule (H.lists s) L Hwf (base_typed _ _ (pre_base _ _ _ Hp)) Hadd) as (Hwf' & Ht' & Hs'); [|done|].
  { intros k m Hkm Hq. assert (k = h) as ->; [|done].
    eapply (proj2 Hwf); [exact Hkm|exact Hl|exact Hq|by apply Hin]. }
  destruct (frame_lists ctx lv s L Hp Hwf' Ht' Hs') as [Hp1 Hf1].
  destruct (Hf tt _ a s' Hp1 (known_frame _ _ _ _ _ Hf1 Hk) Hrun) as [Hp2 Hf2]. split; [done|].
  eapply lvl_trans; [apply Hp1|done..].
Qed.
Lemma ok_insert_source lv E prio rule n fl u : model_field rule.2 = false → ok ctx lv E (insert_source prio rule n fl u).
Proof.
  intros Hr. apply ok_lift. apply ok_bind; [ok|]. intros _. apply ok_add_source; [done..|intros _; ok|ok].
Qed.
Hint Resolve ok_insert_source : ok.
Lemma ok_new_fl_rule lv E prio p ms : ok ctx lv E (new_fl_rule prio p ms).
Proof. apply ok_lift. ok_body. Qed.
Hint Resolve ok_new_fl_rule : ok.
Lemma ok_ruleset_add lv E p r : model_field r.2 = false → ok ctx lv E (lsdn_ruleset_add p r).
Proof. intros Hr. apply ok_lift. ok_body. Qed.
Hint Resolve ok_ruleset_add : ok.
Lemma ok_prepare lv E c i a b : ok ctx lv E (lsdn_prepare_rulesets c i a b).
Proof. apply ok_lift. ok_body. Qed.
Lemma ok_cleanup lv E c i a b : ok ctx lv E (lsdn_cleanup_rulesets c i a b).
Proof. apply ok_lift. ok_body. Qed.

Lemma ok_broadcast_init lv E br c i ch : model_field br.2 = false → ok ctx lv E (lsdn_broadcast_init br c i ch).
Proof. intros Hb. apply ok_lift. ok_body. Qed.
Lemma ok_find_filter lv E n l : ok ctx lv E (find_filter n l).
Proof. apply ok_lift. induction l as [|f l IH]; simpl; ok. Qed.
Hint Resolve ok_find_filter : ok.
Lemma ok_find_free lv E br n : model_field br.2 = false → ok ctx lv E (lsdn_find_free_action br n).
Proof. intros Hb. apply ok_lift. ok_body. Qed.
Lemma ok_slot_actions lv E o l : ok ctx lv E (slot_actions o l).
Proof. apply ok_lift. revert o. induction l as [|[a|] l IH]; intros o; simpl; ok. Qed.
Hint Resolve ok_find_free ok_slot_actions : ok.
Lemma ok_flush_actions lv E f : ok ctx lv E (lsdn_flush_action_list f).
Proof. apply ok_lift. ok_body. Qed.
Hint Resolve ok_flush_actions : ok.
Lemma ok_broadcast_add lv E br a d : model_field br.2 = false → ok ctx lv E (lsdn_broadcast_add br a d).
Proof. intros Hb. apply ok_lift. ok_body. Qed.
Lemma ok_broadcast_remove lv E a : ok ctx lv E (lsdn_broadcast_remove a).
Proof. apply ok_lift. ok_body. Qed.
Lemma ok_broadcast_free lv E br : ok ctx lv E (lsdn_broadcast_free br).
Proof.
  apply ok_lift. apply ok_bind; [ok|]. intros l. generalize LSDNE_OK. generalize (@nil ptr).
  induction l as [|f l IH]; intros E' e; simpl; ok.
Qed.
End engine.
#[export] Hint Resolve ok_action_init ok_apply_mask ok_ruleset_init ok_define_prio ok_ruleset_free ok_remove_prio
  ok_ruleset_remove ok_ruleset_add ok_prepare ok_cleanup ok_broadcast_init ok_broadcast_add ok_broadcast_remove
  ok_broadcast_free ok_list_entries : ok.
#[export] Hint Extern 3 (ok _ _ _ (lsdn_filter_flower_init _ _ _ _ _)) => apply ok_filter_init : ok.
#[export] Hint Extern 3 (ok _ _ _ (lsdn_filter_fw_init _ _ _ _ _)) => apply ok_filter_init : ok.

(** *** Bridges *)

Section bridges.
Context (ctx : ptr).
Implicit Types (lv : level) (E : list ptr).

Lemma cleanup_field p i : model_field (cleanup_entry p i).2 = false.
Proof. unfold cleanup_entry. by case_bool_decide. Qed.
Hint Resolve cleanup_field : ok.

(** The object of a cleanup entry, and whose callback it has. *)
Definition cb_user (cb : clist_cb) : ptr :=
  match cb with if_br_action_free p | br_forward_rule_free p => p end.
Lemma ok_get_cb lv E p {A : Type} (f : clist_cb → M heap A) :
  (∀ cb, cb_user cb = p → ok ctx lv (p :: E) (f cb)) → ok ctx lv E (get_cb p ≫= f).
Proof.
  intros Hf s a s' Hp Hk. unfold get_cb, get_obj, mbind, M_bind, get.
  destruct (H.objs s !! p) as [o|] eqn:Ho; [|done]. simpl. destruct (entry_cb o) as [cb|] eqn:Hcb; [|done].
  pose proof (base_cb _ _ (pre_base _ _ _ Hp) p o Ho) as Hown.
  assert (Hu : model_obj o = false ∧ cb_user cb = p) by (destruct o; simplify_eq/=; by rewrite Hown).
  destruct Hu as [Hm Hu]. apply Hf; [done..|].
  destruct (base_ctx _ _ (pre_base _ _ _ Hp)) as (c & Hc & _).
  apply known_cons; [done|by eapply base_fresh; [apply Hp|]|intros ->; by simplify_eq|intros _ o' ?; congruence].
Qed.

Lemma ok_clist_init lv E l i : model_field l.2 = false → ok ctx lv E (lsdn_clist_init l i).
Proof. intros Hl. apply ok_lift. ok_body. Qed.
Lemma ok_clist_entry lv E p : ok ctx lv E (lsdn_clist_init_entry p).
Proof. apply ok_lift. unfold lsdn_clist_init_entry, get_cb. ok. Qed.
Lemma ok_clist_add lv E l p : model_field l.2 = false → ok ctx lv E (lsdn_clist_add l p).
Proof. intros Hl. apply ok_lift. ok_body. Qed.
Lemma ok_drop_node lv E p i : ok ctx lv E (drop_node (cleanup_entry p i)).
Proof. apply ok_lift. ok_body. Qed.
Hint Resolve ok_drop_node : ok.
Lemma ok_run_cb lv E cb : lv ≠ Com → cb_user cb ∈ E → ok ctx lv E (run_cb cb).
Proof. intros Hlv Hin. destruct cb; simpl in *; ok. Qed.
Lemma ok_clist_flush lv E l : ok ctx lv E (clist_flush l).
Proof.
  apply ok_lift. unfold clist_flush, lsdn_clist_flush. apply ok_bind; [ok|]. intros _. apply ok_bind; [ok|].
  intros es. generalize LSDNE_OK. generalize (@nil ptr). induction es as [|p es IH]; intros E' e; simpl; [ok|].
  apply ok_get_cb. intros cb Hcb. do 2 (apply ok_bind; [ok|intros _]). apply ok_bind; [|ok].
  apply ok_run_cb; [done|set_solver].
Qed.
Hint Resolve ok_clist_init ok_clist_entry ok_clist_add ok_clist_flush : ok.

Lemma ok_set_target lv E p i t : ok ctx lv E (set_target p i t).
Proof. apply ok_lift. ok_body. Qed.
Lemma ok_set_mask lv E p i t : ok ctx lv E (set_mask p i t).
Proof. apply ok_lift. ok_body. Qed.
Lemma ok_set_match lv E p i t : ok ctx lv E (set_match p i t).
Proof. apply ok_lift. ok_body. Qed.
Lemma ok_target_is lv E p i t : ok ctx lv E (target_is p i t).
Proof. apply ok_lift. ok_body. Qed.
Hint Resolve ok_set_target ok_set_mask ok_set_match ok_target_is : ok.
Lemma ok_if_br_make lv E a b : ok ctx lv E (if_br_make a b).
Proof. apply ok_lift. ok_body. Qed.
Lemma ok_br_forward_make lv E m : ok ctx lv E (br_forward_make m).
Proof. apply ok_lift. ok_body. Qed.
Hint Resolve ok_if_br_make ok_br_forward_make : ok.
Lemma ok_sbridge_init lv E c br : ok ctx lv E (lsdn_sbridge_init c br).
Proof. apply ok_lift. ok_body. Qed.
Lemma ok_sbridge_free lv E br : ok ctx lv E (lsdn_sbridge_free br).
Proof. apply ok_lift. ok_body. Qed.
Lemma ok_pull_routes lv E i l : ok ctx lv E (pull_routes i l).
Proof. apply ok_lift. induction l as [|r l IH]; simpl; ok. Qed.
Hint Resolve ok_pull_routes : ok.
Lemma ok_pull_ifs lv E i l : ok ctx lv E (pull_ifs i l).
Proof. apply ok_lift. induction l as [|r l IH]; simpl; ok. Qed.
Lemma ok_push_route lv E i r l : ok ctx lv E (push_route i r l).
Proof. apply ok_lift. induction l as [|o l IH]; simpl; ok. Qed.
Hint Resolve ok_pull_ifs ok_push_route : ok.
Lemma ok_add_if lv E br i : ok ctx lv E (lsdn_sbridge_add_if br i).
Proof. apply ok_lift. ok_body. Qed.
Lemma ok_remove_if lv E i : ok ctx lv E (lsdn_sbridge_remove_if i).
Proof. apply ok_lift. ok_body. Qed.
Lemma ok_add_route lv E i r : ok ctx lv E (lsdn_sbridge_add_route i r).
Proof. apply ok_lift. ok_body. Qed.
Hint Resolve ok_add_if ok_remove_if ok_add_route : ok.
Lemma ok_add_route_default lv E i r : ok ctx lv E (lsdn_sbridge_add_route_default i r).
Proof. apply ok_lift. ok_body. Qed.
Lemma ok_remove_route lv E r : ok ctx lv E (lsdn_sbridge_remove_route r).
Proof. apply ok_lift. ok_body. Qed.
Lemma ok_add_mac lv E r m mac : ok ctx lv E (lsdn_sbridge_add_mac r m mac).
Proof. apply ok_lift. ok_body. Qed.
Lemma ok_remove_mac lv E m : ok ctx lv E (lsdn_sbridge_remove_mac m).
Proof. apply ok_lift. ok_body. Qed.
Lemma ok_phys_if_init lv E c a i b rs : ok ctx lv E (lsdn_sbridge_phys_if_init c a i b rs).
Proof. apply ok_lift. ok_body. Qed.
Lemma ok_phys_if_free lv E i : ok ctx lv E (lsdn_sbridge_phys_if_free i).
Proof. apply ok_lift. ok_body. Qed.
Hint Resolve ok_add_route_default ok_remove_route ok_add_mac ok_remove_mac ok_phys_if_init ok_phys_if_free : ok.
Lemma ok_virt_ctx lv E v : ok ctx lv E (virt_ctx v).
Proof. apply ok_lift. ok_body. Qed.
Hint Resolve ok_virt_ctx : ok.
Lemma ok_sbridge_add_virt lv E br v : ok ctx lv E (lsdn_sbridge_add_virt br v).
Proof. apply ok_lift. ok_body. Qed.
Lemma ok_sbridge_remove_virt lv E v : ok ctx lv E (lsdn_sbridge_remove_virt v).
Proof. apply ok_lift. ok_body. Qed.
Lemma ok_add_stunnel lv E br i p n : ok ctx lv E (lsdn_sbridge_add_stunnel br i p n).
Proof. apply ok_lift. ok_body. Qed.
Lemma ok_remove_stunnel lv E i : ok ctx lv E (lsdn_sbridge_remove_stunnel i).
Proof. apply ok_lift. ok_body. Qed.
End bridges.
#[export] Hint Resolve ok_set_target ok_set_mask ok_set_match ok_target_is ok_sbridge_init ok_sbridge_free ok_add_route
  ok_remove_route ok_add_mac ok_remove_mac ok_phys_if_init ok_phys_if_free ok_virt_ctx ok_sbridge_add_virt
  ok_sbridge_remove_virt ok_add_stunnel ok_remove_stunnel : ok.

(** *** Linux bridges and the network types *)

Section types.
Context (ctx : ptr).
Implicit Types (lv : level) (E : list ptr).

Lemma ok_pa_ctx lv E a : ok ctx lv E (pa_ctx a).
Proof. apply ok_lift. ok_body. Qed.
Lemma ok_lbridge_init lv E c br : ok ctx lv E (lsdn_lbridge_init c br).
Proof. apply ok_lift. ok_body. Qed.
Lemma ok_lbridge_free lv E br : ok ctx lv E (lsdn_lbridge_free br).
Proof. apply ok_lift. ok_body. Qed.
Lemma ok_lbridge_add lv E br b i : ok ctx lv E (lsdn_lbridge_add br b i).
Proof. apply ok_lift. ok_body. Qed.
Lemma ok_lbridge_remove lv E i : ok ctx lv E (lsdn_lbridge_remove i).
Proof. apply ok_lift. ok_body. Qed.
Lemma ok_ingress_filter lv E r : ok ctx lv E (ingress_filter r).
Proof. apply ok_lift. ok_body. Qed.
Hint Resolve ok_pa_ctx ok_lbridge_init ok_lbridge_free ok_lbridge_add ok_lbridge_remove ok_ingress_filter : ok.
Lemma ok_lbridge_create_pa lv E a : ok ctx lv E (lsdn_lbridge_create_pa a).
Proof. apply ok_lift. ok_body. Qed.
Lemma ok_lbridge_destroy_pa lv E a : ok ctx lv E (lsdn_lbridge_destroy_pa a).
Proof. apply ok_lift. ok_body. Qed.
Lemma ok_lbridge_add_virt lv E v : ok ctx lv E (lsdn_lbridge_add_virt v).
Proof. apply ok_lift. ok_body. Qed.
Lemma ok_lbridge_remove_virt lv E v : ok ctx lv E (lsdn_lbridge_remove_virt v).
Proof. apply ok_lift. ok_body. Qed.
Lemma ok_lbridge_add_route lv E br r vid : ok ctx lv E (lsdn_lbridge_add_route br r vid).
Proof. apply ok_lift. ok_body. Qed.
Lemma ok_lbridge_remove_route lv E r : ok ctx lv E (lsdn_lbridge_remove_route r).
Proof. apply ok_lift. ok_body. Qed.
Hint Resolve ok_lbridge_create_pa ok_lbridge_destroy_pa ok_lbridge_add_virt ok_lbridge_remove_virt
  ok_lbridge_add_route ok_lbridge_remove_route : ok.

Lemma ok_undo_tunnel lv E a e : ok ctx lv E (undo_tunnel a e).
Proof. apply ok_lift. ok_body. Qed.
Lemma ok_pa_settings lv E a : ok ctx lv E (pa_settings a).
Proof. apply ok_lift. ok_body. Qed.
Lemma ok_remote_ip lv E r : ok ctx lv E (remote_ip r).
Proof. apply ok_lift. ok_body. Qed.
Lemma ok_release lv E st : ok ctx lv E (release_stunnel st).
Proof. apply ok_lift. ok_body. Qed.
Lemma ok_use_counted lv E st e : ok ctx lv E (use_counted st e).
Proof. apply ok_lift. ok_body. Qed.
Hint Resolve ok_undo_tunnel ok_pa_settings ok_remote_ip ok_release ok_use_counted : ok.
Hint Extern 3 (ok _ _ _ (vxlan_release_stunnel _)) => apply ok_release : ok.
Hint Extern 3 (ok _ _ _ (geneve_release_stunnel _)) => apply ok_release : ok.
Lemma ok_vxlan_use lv E a : ok ctx lv E (vxlan_use_stunnel a).
Proof. apply ok_lift. ok_body. Qed.
Lemma ok_geneve_use lv E a : ok ctx lv E (geneve_use_stunnel a).
Proof. apply ok_lift. ok_body. Qed.
Hint Resolve ok_vxlan_use ok_geneve_use : ok.

Lemma ok_static_add_virt lv E v : ok ctx lv E (static_add_virt v).
Proof. apply ok_lift. ok_body. Qed.
Lemma ok_static_add_remote_pa lv E f r : ok ctx lv E (static_add_remote_pa f r).
Proof. apply ok_lift. ok_body. Qed.
Lemma ok_static_add_remote_virt lv E r : ok ctx lv E (static_add_remote_virt r).
Proof. apply ok_lift. ok_body. Qed.
Hint Resolve ok_static_add_virt ok_static_add_remote_pa ok_static_add_remote_virt : ok.

(** The frame law of the interface [NetOps]: what any network type does is an operation in the
    sense of [Ops]. *)
Class FramedOps `{NetOps} : Prop := {
  framed_create_pa t a : ok ctx Ops [] (create_pa t a);
  framed_add_virt t f v : add_virt t = Some f → ok ctx Ops [] (f v);
  framed_add_remote_pa t f r : add_remote_pa t = Some f → ok ctx Ops [] (f r);
  framed_add_remote_virt t f r : add_remote_virt t = Some f → ok ctx Ops [] (f r);
  framed_destroy_pa t f a : destroy_pa t = Some f → ok ctx Ops [] (f a);
  framed_remove_virt t f v : remove_virt t = Some f → ok ctx Ops [] (f v);
  framed_remove_remote_pa t f r : remove_remote_pa t = Some f → ok ctx Ops [] (f r);
  framed_remove_remote_virt t f r : remove_remote_virt t = Some f → ok ctx Ops [] (f r) }.

(** The seven tables satisfy it. *)
Global Instance lsdn_net_ops_framed : FramedOps.
Proof.
  split; intros []; simpl.
  all: try (intros a; match goal with |- ok _ _ _ ?m => let h := head_of m in unfold h; ok end).
  all: intros f p [= <-]; ok_body.
Qed.
End types.
