(* ===== verification/CommitFrame.v ===== *)
(** * The steps of a commit

    The frame logic of Frame for the functions of a commit: as long as no problem is reported the
    links and lists of the model stay as they are and no object becomes troubled, and every error
    on the way is reported. *)

From Stdlib Require Import ZArith Lia.
From stdpp Require Import base list gmap strings.
From S2P Require Import Prelude.
From S2P Require Import LStore.
From S2P Require Import Status.
From S2P Require Import Nettypes.
From S2P Require Import Heap.
From S2P Require Import Base.
From S2P Require Import Model.
From S2P Require Import Rules.
From S2P Require Import Validate.
From S2P Require Import Commit.
From S2P Require Import NetOps.
From S2P Require Import Inv.
From S2P Require Import Frame.

Local Open Scope Z_scope.

(** ** Steps of a commit *)

(** An object is overwritten with what a commit may make of it, untroubled as it is. *)
Definition over_com (ctx : ptr) (o o' : obj) : Prop :=
  model_obj o' = model_obj o ∧ (∀ p, own_cb ctx p o → own_cb ctx p o') ∧
  match o, o' with
  | OCtx x, OCtx y => Ctx.problem_count x ≤ Ctx.problem_count y ∧ (Ctx.nlsock x = true → Ctx.nlsock y = true)
  | OCtx _, _ => False
  | _, _ => True
  end ∧
  (model_obj o = true → (∀ st, obj_state o = Some st → state_ok st = true) → step_obj o o').

Section steps.
Context (ctx : ptr).
Implicit Types (E : list ptr) (s : heap).

Lemma put_base s p o o' : base ctx s → H.objs s !! p = Some o → (∀ p, own_cb ctx p o → own_cb ctx p o') →
  match o, o' with
  | OCtx x, OCtx y => Ctx.problem_count x ≤ Ctx.problem_count y ∧ (Ctx.nlsock x = true → Ctx.nlsock y = true)
  | OCtx _, _ => False
  | _, _ => True
  end →
  base ctx (H.set_objs (<[p := o']> (H.objs s)) s) ∧ frame_err ctx s (H.set_objs (<[p := o']> (H.objs s)) s).
Proof.
  intros [Hwf Hty Hfr Hcbs (x & Hx & Hc)] Hp Hcb Hctx. set (s' := H.set_objs (<[p := o']> (H.objs s)) s).
  assert (Hobjs : ∀ q, H.objs s' !! q = if decide (p = q) then Some o' else H.objs s !! q).
  { intros q. simpl. destruct (decide (p = q)) as [->|]; [apply lookup_insert_eq|by apply lookup_insert_ne]. }
  assert (Hfe : frame_err ctx s s').
  { split; [reflexivity|]. intros y Hy. rewrite Hobjs. case_decide; [|exists y; split_and!; [done|lia|done]]. subst p.
    simplify_eq. destruct o'; try done. eexists. split; [done|apply Hctx]. }
  split; [|done]. split; [done|done| | |].
  - intros q oq. rewrite Hobjs. case_decide; [|by apply Hfr]. subst q. intros _. by eapply Hfr.
  - intros q oq. rewrite Hobjs. case_decide; [|by apply Hcbs]. subst q. intros [= <-]. by eapply Hcb, Hcbs.
  - destruct (fe_ctx _ _ _ Hfe x Hx) as (x' & Hx' & ? & _). exists x'. split; [done|lia].
Qed.

Lemma put_com s p o o' : pre ctx Com s → H.objs s !! p = Some o → over_com ctx o o' →
  pre ctx Com (H.set_objs (<[p := o']> (H.objs s)) s) ∧ frame ctx Com s (H.set_objs (<[p := o']> (H.objs s)) s).
Proof.
  intros [Hb Ht] Hp (Hmo & Hcb & Hctx & Hstep). destruct (put_base s p o o' Hb Hp Hcb Hctx) as [Hb' Hfe].
  set (s' := H.set_objs (<[p := o']> (H.objs s)) s) in *. pose proof (frame_count ctx s s' Hb Hfe).
  assert (Hobjs : ∀ q, H.objs s' !! q = if decide (p = q) then Some o' else H.objs s !! q).
  { intros q. simpl. destruct (decide (p = q)) as [->|]; [apply lookup_insert_eq|by apply lookup_insert_ne]. }
  assert (Hkeep : count ctx s' = 0 → ∀ q oq, H.objs s !! q = Some oq → model_obj oq = true →
    ∃ oq', H.objs s' !! q = Some oq' ∧ step_obj oq oq').
  { intros Hc q oq Hq Hm. rewrite Hobjs. case_decide; [|exists oq; split; [done|apply same_step, same_obj_refl]].
    subst q. simplify_eq. exists o'. split; [done|]. apply Hstep; [done|]. intros st.
    exact (Ht eq_refl ltac:(lia) p _ st Hp). }
  split; [split; [done|]|split; [done|]].
  - intros _ Hc q oq st. rewrite Hobjs. case_decide; [|exact (Ht eq_refl ltac:(lia) q oq st)]. subst q. intros [= <-] Hst.
    assert (Hm : model_obj o = true) by (rewrite <-Hmo; by destruct o').
    destruct (Hstep Hm) as (_ & Hack & _); [intros st'; exact (Ht eq_refl ltac:(lia) p o st' Hp)|].
    destruct Hack as [Hs|[_ Hs]]; rewrite Hs in Hst; [|by simplify_eq]. exact (Ht eq_refl ltac:(lia) p o st Hp Hst).
  - intros Hc. specialize (Hkeep Hc). split; [done| |done|].
    { intros q oq'. rewrite Hobjs. case_decide; [|eauto]. subst q. intros [= <-]. rewrite Hmo. eauto. } intros q y l Hq Hl Hv. exists l. split; [done|].
    eapply Forall_impl; [exact Hv|]. intros e (x & z & Hx & Hz).
    destruct (Hkeep _ _ Hx) as (ox & Hx' & Hsx & _); [done|].
    destruct (Hkeep _ _ Hz) as (oz & Hz' & Hsz & _); [done|]. destruct ox; try done. destruct oz; try done.
    simpl in Hsx. simplify_eq. eauto.
Qed.
Lemma ok_upd_com {X} (as_x : obj → option X) (mk : X → obj) (f : X → X) E p :
  (∀ o x, as_x o = Some x → o = mk x) → (∀ x, over_com ctx (mk x) (mk (f x))) →
  ok ctx Com E (x ← (o ← get_obj p; live (as_x o)); put_obj p (mk (f x))).
Proof.
  intros Has Hf s [] s' Hp _. unfold get_obj, mbind, M_bind, get. destruct (H.objs s !! p) as [o|] eqn:Ho; [|done]. simpl.
  destruct (as_x o) as [x|] eqn:Hx; [|done]. apply Has in Hx as ->. intros [= <-]. by eapply put_com.
Qed.
(** On a path to an error an object may be changed at will. *)
Lemma ok_upd_err {X} (as_x : obj → option X) (mk : X → obj) (f : X → X) E p :
  (∀ o x, as_x o = Some x → o = mk x) → (∀ x q, own_cb ctx q (mk x) → own_cb ctx q (mk (f x))) →
  (∀ x, match mk x, mk (f x) with
        | OCtx x, OCtx y => Ctx.problem_count x ≤ Ctx.problem_count y ∧ (Ctx.nlsock x = true → Ctx.nlsock y = true)
        | OCtx _, _ => False
        | _, _ => True
        end) →
  ok ctx Err E (x ← (o ← get_obj p; live (as_x o)); put_obj p (mk (f x))).
Proof.
  intros Has Hcb Hctx s [] s' [Hb _] _. unfold get_obj, mbind, M_bind, get. destruct (H.objs s !! p) as [o|] eqn:Ho; [|done]. simpl.
  destruct (as_x o) as [x|] eqn:Hx; [|done]. apply Has in Hx as ->. intros [= <-].
  destruct (put_base s p (mk x) (mk (f x)) Hb Ho (Hcb x) (Hctx x)). split; [by split|by split].
Qed.

(** *** Answers that announce a report *)

(** [m] is a step of a commit, and unless its answer satisfies [Q] there was a report. *)
Definition okq {A} (Q : A → Prop) (m : M heap A) : Prop := ∀ s a s',
  pre ctx Com s → m s = Ok a s' → pre ctx Com s' ∧ frame ctx Com s s' ∧ (Q a ∨ 0 < count ctx s').
(** After [m] there was a report. *)
Definition spoils {A} (m : M heap A) : Prop := ∀ s a s',
  base ctx s → m s = Ok a s' → base ctx s' ∧ frame_err ctx s s' ∧ 0 < count ctx s'.

Lemma okq_ok {A} (m : M heap A) : okq (λ _, True) m → ok ctx Com [] m.
Proof. intros Hm s a s' Hp _ Hr. destruct (Hm s a s' Hp Hr) as (? & ? & _). done. Qed.
Lemma ok_okq {A} (m : M heap A) : ok ctx Com [] m → okq (λ _, True) m.
Proof. intros Hm s a s' Hp Hr. destruct (Hm s a s' Hp (known_nil _ _ _) Hr). split_and!; [done..|by left]. Qed.
Lemma okq_mono {A} (P Q : A → Prop) (m : M heap A) : okq P m → (∀ a, P a → Q a) → okq Q m.
Proof. intros Hm HPQ s a s' Hp Hr. destruct (Hm s a s' Hp Hr) as (? & ? & [?|?]); split_and!; auto. Qed.
Lemma okq_ret {A} (Q : A → Prop) a : Q a → okq Q (mret a).
Proof. intros HQ s b s' Hp [= <- <-]. split_and!; [done|apply lvl_refl|by left]. Qed.

Lemma spoiled s s' : base ctx s' → frame_err ctx s s' → 0 < count ctx s' → pre ctx Com s' ∧ frame ctx Com s s'.
Proof. intros Hb Hf Hc. split; [split; [done|lia]|split; [done|lia]]. Qed.
Lemma spoils_okq {A} (Q : A → Prop) (m : M heap A) : spoils m → okq Q m.
Proof.
  intros Hm s a s' [Hb _] Hr. destruct (Hm s a s' Hb Hr) as (Hb' & Hf & Hc).
  destruct (spoiled s s' Hb' Hf Hc). auto.
Qed.
Lemma ok_err_run {A} (m : M heap A) s a s' : ok ctx Err [] m → base ctx s → m s = Ok a s' → base ctx s' ∧ frame_err ctx s s'.
Proof. intros Hm Hb Hr. destruct (Hm s a s' ltac:(by split) (known_nil _ _ _) Hr) as [[? _] [? _]]. done. Qed.
Lemma okq_bind {A B : Type} (P : A → Prop) (Q : B → Prop) (m : M heap A) (f : A → M heap B) :
  okq P m → (∀ a, P a → okq Q (f a)) → (∀ a, ok ctx Err [] (f a)) → okq Q (m ≫= f).
Proof.
  intros Hm Hf He s b s' Hp. unfold mbind, M_bind. destruct (m s) as [a s1|] eqn:E1; [|done]. intros E2.
  destruct (Hm s a s1 Hp E1) as (Hp1 & Hf1 & [HP|Hc]).
  - destruct (Hf a HP s1 b s' Hp1 E2) as (Hp2 & Hf2 & HQ). split_and!; [done| |done].
    eapply lvl_trans; [apply Hp1|done..].
  - destruct (ok_err_run _ _ _ _ (He a) (pre_base _ _ _ Hp1) E2) as [Hb2 Hf2].
    pose proof (frame_count _ _ _ (pre_base _ _ _ Hp1) Hf2).
    destruct (spoiled s s') as [? ?]; [done|by eapply frame_err_trans; [apply Hf1|]|lia|]. split_and!; [done..|right; lia].
Qed.
Lemma spoils_l {A B : Type} (m : M heap A) (f : A → M heap B) :
  spoils m → (∀ a, ok ctx Err [] (f a)) → spoils (m ≫= f).
Proof.
  intros Hm Hf s b s' Hb. unfold mbind, M_bind. destruct (m s) as [a s1|] eqn:E1; [|done]. intros E2.
  destruct (Hm s a s1 Hb E1) as (Hb1 & Hf1 & Hc). destruct (ok_err_run _ _ _ _ (Hf a) Hb1 E2) as [Hb2 Hf2].
  pose proof (frame_count _ _ _ Hb1 Hf2). split_and!; [done|by eapply frame_err_trans|lia].
Qed.
Lemma spoils_r {A B : Type} (m : M heap A) (f : A → M heap B) :
  ok ctx Err [] m → (∀ a, spoils (f a)) → spoils (m ≫= f).
Proof.
  intros Hm Hf s b s' Hb. unfold mbind, M_bind. destruct (m s) as [a s1|] eqn:E1; [|done]. intros E2.
  destruct (ok_err_run _ _ _ _ Hm Hb E1) as [Hb1 Hf1]. destruct (Hf a s1 b s' Hb1 E2) as (Hb2 & Hf2 & Hc).
  split_and!; [done|by eapply frame_err_trans|done].
Qed.
End steps.

(** ** Marks and reports *)

Lemma mark_commit_cases st fatal err st' pb b : mark_commit st fatal err = Some (st', pb, b) →
  (b = false ∧ st' = st ∧ pb = None) ∨ (b = true ∧ ∃ c, pb = Some c) ∨ (b = true ∧ st = LSDN_STATE_FAIL ∧ st' = st ∧ pb = None).
Proof.
  unfold mark_commit. case_bool_decide; [intros [= <- <- <-]; auto 10|].
  case_match eqn:Hc; [intros [= <- <- <-]; right; left; eauto|clear Hc].
  do 2 (case_bool_decide; [intros [= <- <- <-]; right; left; eauto|]).
  case_bool_decide; [intros [= <- <- <-]; auto|done].
Qed.

Section marks.
Context (ctx : ptr).
Implicit Types (E : list ptr) (s : heap).

Lemma ok_report lv E c code rs : ok ctx lv E (lsdn_problem_report c code rs).
Proof. apply ok_lift. ok_body. Qed.
Lemma spoils_report code rs : spoils ctx (lsdn_problem_report ctx code rs).
Proof.
  intros s [] s' Hb Hr. destruct (ok_err_run _ _ _ _ _ (ok_report Err [] ctx code rs) Hb Hr) as [Hb' Hf].
  split_and!; [done..|]. destruct (base_ctx _ _ Hb) as (x & Hx & Hc). revert Hr.
  unfold lsdn_problem_report, upd_ctx, get_ctx, get_obj, put_obj, modify, mbind, M_bind, get.
  rewrite !Hx. simpl. case_bool_decide; [|done]. simpl. rewrite Hx. simpl.
  destruct (Ctx.problem_cb x) as [[|u]|]; [done| |]; simpl; rewrite Hx; intros [= <-];
    unfold count; simpl; rewrite lookup_insert_eq; simpl; lia.
Qed.

Lemma ok_upd_virt_err E v f : ok ctx Err E (upd_virt v f).
Proof. apply ok_upd_err; [by intros [] ? [= ->]|done..]. Qed.
Lemma ok_upd_pa_err E v f : ok ctx Err E (upd_pa v f).
Proof. apply ok_upd_err; [by intros [] ? [= ->]|done..]. Qed.
Lemma ok_upd_vr_err E v f : ok ctx Err E (upd_vr v f).
Proof. apply ok_upd_err; [by intros [] ? [= ->]|done..]. Qed.
Lemma ok_set_inconsistent E c b : ok ctx Err E (upd_ctx c (Ctx.set_inconsistent b)).
Proof. apply ok_upd_err; [by intros [] ? [= ->]|done|intros x; simpl; split; [lia|done]]. Qed.
Lemma ok_set_inconsistent_com E c b : ok ctx Com E (upd_ctx c (Ctx.set_inconsistent b)).
Proof.
  apply ok_upd_com; [by intros [] ? [= ->]|]. intros x. split_and!; try done.
  intros _ _. split_and!; [done|by left|done].
Qed.
Lemma ok_list_remove_err E e : ok ctx Err E (list_remove e).
Proof.
  intros s [] s' Hp _. unfold list_remove, on_lists. destruct (Store.remove e (H.lists s)) as [[] L|] eqn:E1; [|done].
  intros [= <-]. pose proof (pre_base _ _ _ Hp) as Hb.
  destruct (remove_typed _ _ _ (base_wf _ _ Hb) (base_typed _ _ Hb) E1) as [Hwf Ht].
  split; [split; [|done]|split; [|done]].
  - destruct Hb. by split.
  - split; [reflexivity|]. intros x Hx. exists x. split_and!; [done|lia|done].
Qed.
End marks.
#[export] Hint Resolve ok_report ok_upd_virt_err ok_upd_pa_err ok_upd_vr_err ok_set_inconsistent ok_set_inconsistent_com : ok.
#[export] Hint Extern 2 (ok _ Err _ (list_remove _)) => apply ok_list_remove_err : ok.
#[export] Hint Extern 2 (ok _ Err _ (get_rpa _ ≫= _)) => apply ok_get_err; [done|intros ?] : ok.
#[export] Hint Extern 2 (ok _ Err _ (get_rvirt _ ≫= _)) => apply ok_get_err; [done|intros ?] : ok.

Section errors.
Context `{NetOps} (ctx : ptr) {HF : FramedOps ctx}.
Implicit Types (lv : level) (E : list ptr) (s : heap).

Lemma ok_mark_virt_err E c v fatal err : ok ctx Err E (mark_commit_err_virt c v fatal err).
Proof. ok_body. Qed.
Lemma ok_mark_pa_err E c v fatal err : ok ctx Err E (mark_commit_err_pa c v fatal err).
Proof. ok_body. Qed.
Hint Resolve ok_mark_virt_err ok_mark_pa_err : ok.

(** [mark_commit_err] on an object with a state. *)
Lemma okq_mark {X} (as_x : obj → option X) (mk : X → obj) (st : X → lsdn_state) (set_st : lsdn_state → X → X) p refs fatal err :
  (∀ o x, as_x o = Some x → o = mk x) → (∀ x, as_x (mk x) = Some x) → (∀ x, obj_state (mk x) = Some (st x)) →
  (∀ x, set_st (st x) x = x) → (∀ t, ok ctx Err [] (y ← (o ← get_obj p; live (as_x o)); put_obj p (mk (set_st t y)))) →
  okq ctx (λ b, b = false) (
    x ← (o ← get_obj p; live (as_x o));
    match mark_commit (st x) fatal err with
    | None => fail Aborted
    | Some (t, problem, answer) =>
        _ ← (y ← (o ← get_obj p; live (as_x o)); put_obj p (mk (set_st t y)));
        _ ← match problem with Some c => lsdn_problem_report ctx c refs | None => mret tt end;
        mret answer
    end).
Proof.
  intros Has Hmk Hst Hset Hupd s b s' Hp. unfold mbind at 1, M_bind at 1. unfold mbind at 1, M_bind at 1.
  unfold get_obj at 1, mbind at 1, M_bind at 1, get.
  destruct (H.objs s !! p) as [o|] eqn:Ho; [|done]. simpl. destruct (as_x o) as [x|] eqn:Hx; [|done]. simpl.
  apply Has in Hx as ->. destruct (mark_commit (st x) fatal err) as [[[t pb] ans]|] eqn:Hm; [|done].
  intros Hr. assert (Hkeep : t = st x → pb = None → s' = s ∧ b = ans).
  { intros -> ->. revert Hr. unfold get_obj, put_obj, modify, mbind, M_bind, get. rewrite Ho. simpl. rewrite Hmk. simpl.
    rewrite Hset, insert_id by done. intros [= <- <-]. by destruct s. }
  destruct (mark_commit_cases _ _ _ _ _ _ Hm) as [(-> & -> & ->)|[(-> & c & ->)|(-> & Hf & -> & ->)]].
  - destruct Hkeep as [-> ->]; [done..|]. split_and!; [done|apply lvl_refl|by left].
  - eapply (spoils_okq ctx (λ b, b = false)); [|exact Hp|exact Hr]. apply spoils_r; [done|]. intros _.
    apply spoils_l; [apply spoils_report|intros ?; apply ok_ret].
  - destruct Hkeep as [-> ->]; [done..|]. split_and!; [done|apply lvl_refl|right].
    pose proof (frame_count ctx s s (pre_base _ _ _ Hp) (frame_err_refl _ _)).
    destruct (decide (count ctx s = 0)) as [Hc|]; [|lia].
    pose proof (pre_untroubled _ _ _ Hp eq_refl Hc p _ _ Ho (Hst x)) as Hok. by rewrite Hf in Hok.
Qed.
Lemma okq_mark_virt v fatal err : okq ctx (λ b, b = false) (mark_commit_err_virt ctx v fatal err).
Proof.
  apply (okq_mark as_virt OVirt Virt.state Virt.set_state); try done; [by intros [] ? [= ->]|by intros []|].
  intros t. apply ok_upd_virt_err.
Qed.
Lemma okq_mark_pa a fatal err : okq ctx (λ b, b = false) (mark_commit_err_pa ctx a fatal err).
Proof.
  apply (okq_mark as_pa OPa Pa.state Pa.set_state); try done; [by intros [] ? [= ->]|by intros []|].
  intros t. apply ok_upd_pa_err.
Qed.

(** *** Decommits on a path to an error *)

Lemma ok_call_op_err E op p k : (∀ f, op = Some f → ok ctx Ops [] (f p)) → (∀ err, ok ctx Err E (k err)) →
  ok ctx Err E (call_op op p k).
Proof.
  intros Hop Hk. unfold call_op. destruct op as [f|]; [|ok]. apply ok_bind; [apply ok_lift; by apply Hop|done].
Qed.
Lemma ok_ops_of_net lv E n : ok ctx lv E (ops_of_net n).
Proof. apply ok_lift. unfold ops_of_net, settings_of_net. ok. Qed.
Lemma ok_decommit_vr_err E v p r dir : ok ctx Err E (decommit_vr v p r dir).
Proof. ok_body. Qed.
Hint Resolve ok_ops_of_net ok_decommit_vr_err : ok.
Lemma ok_decommit_rules_err E v dir : ok ctx Err E (decommit_rules v dir).
Proof. unfold decommit_rules, hash_iter. ok. Qed.
Lemma ok_decommit_rates_dir_err E v dir : ok ctx Err E (decommit_rates_dir v dir).
Proof. destruct dir; ok_body. Qed.
Hint Resolve ok_decommit_rules_err ok_decommit_rates_dir_err : ok.
Lemma ok_decommit_rates_err E v : ok ctx Err E (decommit_rates v).
Proof. ok_body. Qed.
Hint Resolve ok_decommit_rates_err : ok.
Hint Extern 2 (ok _ Err _ (call_op _ _ _)) => apply ok_call_op_err; [intros ? Hf; by eapply HF in Hf|intros ?] : ok.
Lemma ok_decommit_remote_virt_err E rv : ok ctx Err E (decommit_remote_virt rv).
Proof. ok_body. Qed.
Hint Resolve ok_decommit_remote_virt_err : ok.
Lemma ok_decommit_virt_err E v : ok ctx Err E (decommit_virt v).
Proof. ok_body. Qed.
Lemma ok_decommit_remote_pa_err E r : ok ctx Err E (decommit_remote_pa r).
Proof. ok_body. Qed.
Hint Resolve ok_decommit_virt_err ok_decommit_remote_pa_err : ok.
Lemma ok_decommit_pa_err E a : ok ctx Err E (decommit_pa a).
Proof. ok_body. Qed.
Lemma ok_roll_back_err E v i old : ok ctx Err E (roll_back v i old).
Proof. ok_body. Qed.
End errors.
#[export] Hint Resolve ok_ops_of_net ok_mark_virt_err ok_mark_pa_err ok_decommit_rates_err ok_decommit_virt_err ok_decommit_pa_err
  ok_roll_back_err : ok.

(** ** The commit of virts *)

Section commits.
Context `{NetOps} (ctx : ptr) {HF : FramedOps ctx}.
Implicit Types (lv : level) (E : list ptr) (s : heap).

(** A step that announces its reports, and a step that does not. *)
Lemma okq_then {A B : Type} (Q : B → Prop) (m : M heap A) (f : A → M heap B) :
  ok ctx Com [] m → (∀ a, okq ctx Q (f a)) → (∀ a, ok ctx Err [] (f a)) → okq ctx Q (m ≫= f).
Proof. intros Hm Hf He. eapply (okq_bind ctx (λ _, True)); [by apply ok_okq|auto|done]. Qed.
Lemma ok_mark_then {B : Type} P (m : M heap bool) (f : bool → M heap B) :
  okq ctx P m → (∀ b, ok ctx Com [] (f b)) → (∀ b, ok ctx Err [] (f b)) → ok ctx Com [] (m ≫= f).
Proof.
  intros Hm Hf He. apply okq_ok. eapply okq_bind; [exact Hm| |done]. intros b _. by apply ok_okq.
Qed.
Lemma ok_call_op_com op p k : (∀ f, op = Some f → ok ctx Ops [] (f p)) → (∀ err, ok ctx Com [] (k err)) →
  ok ctx Com [] (call_op op p k).
Proof.
  intros Hop Hk. unfold call_op. destruct op as [f|]; [|ok]. apply ok_bind; [apply ok_lift; by apply Hop|done].
Qed.

Lemma over_com_state {X} (mk : X → obj) (st : X → lsdn_state) (set_st : lsdn_state → X → X) x t : (∀ x, obj_state (mk x) = Some (st x)) → (∀ p, own_cb ctx p (mk x) → own_cb ctx p (mk (set_st t x))) →
  shape (mk (set_st t x)) = shape (mk x) → committed (mk (set_st t x)) = committed (mk x) →
  (∀ x, st (set_st t x) = t) → (∀ c, mk x ≠ OCtx c) →
  (state_ok (st x) = true → t = st x ∨ st x = LSDN_STATE_NEW ∧ t = LSDN_STATE_OK) →
  over_com ctx (mk x) (mk (set_st t x)).
Proof.
  intros Hst Hcb Hsh Hco Hset Hctx Ht. split_and!.
  - by apply shape_model.
  - done.
  - destruct (mk x) eqn:E; try done. by destruct (Hctx x0).
  - intros _ Hok. split_and!; [done| |by rewrite Hco]. unfold acked. rewrite !Hst, Hset.
    destruct Ht as [->|[-> ->]]; [by apply Hok|by left|by right].
Qed.
Lemma ack_step st : state_ok st = true → ack_state st = st ∨ st = LSDN_STATE_NEW ∧ ack_state st = LSDN_STATE_OK.
Proof. destruct st; try done; auto. Qed.
(** The acknowledgement of an object. *)
Lemma over_ack {X} (mk : X → obj) (st : X → lsdn_state) (set_st : lsdn_state → X → X) x :
  (∀ x, obj_state (mk x) = Some (st x)) → (∀ t p, own_cb ctx p (mk x) → own_cb ctx p (mk (set_st t x))) →
  (∀ t, shape (mk (set_st t x)) = shape (mk x)) → (∀ t, committed (mk (set_st t x)) = committed (mk x)) →
  (∀ t x, st (set_st t x) = t) → (∀ c, mk x ≠ OCtx c) → over_com ctx (mk x) (mk (set_st (ack_state (st x)) x)).
Proof. intros. apply (over_com_state mk st set_st); auto using ack_step. Qed.

Lemma ok_ack_vr E r : ok ctx Com E (upd_vr r (λ x, Vr.set_state (ack_state (Vr.state x)) x)).
Proof. apply ok_upd_com; [by intros [] ? [= ->]|]. intros x. by apply (over_ack OVr Vr.state Vr.set_state). Qed.
Lemma ok_ack_settings E r : ok ctx Com E (upd_settings r (λ x, Settings.set_state (ack_state (Settings.state x)) x)).
Proof. apply ok_upd_com; [by intros [] ? [= ->]|]. intros x. by apply (over_ack OSettings Settings.state Settings.set_state). Qed.
Lemma ok_ack_phys E r : ok ctx Com E (upd_phys r (λ x, Phys.set_state (ack_state (Phys.state x)) x)).
Proof. apply ok_upd_com; [by intros [] ? [= ->]|]. intros x. by apply (over_ack OPhys Phys.state Phys.set_state). Qed.
Lemma ok_ack_net E r : ok ctx Com E (upd_net r (λ x, Net.set_state (ack_state (Net.state x)) x)).
Proof. apply ok_upd_com; [by intros [] ? [= ->]|]. intros x. by apply (over_ack ONet Net.state Net.set_state). Qed.
Lemma ok_ack_pa E r : ok ctx Com E (upd_pa r (λ x, Pa.set_state (ack_state (Pa.state x)) x)).
Proof. apply ok_upd_com; [by intros [] ? [= ->]|]. intros x. by apply (over_ack OPa Pa.state Pa.set_state). Qed.
Lemma ok_ack_virt E r : ok ctx Com E (upd_virt r (λ x, Virt.set_state (ack_state (Virt.state x)) x)).
Proof. apply ok_upd_com; [by intros [] ? [= ->]|]. intros x. by apply (over_ack OVirt Virt.state Virt.set_state). Qed.
Lemma ok_phys_committed E p b : b = true → ok ctx Com E (upd_phys p (Phys.set_committed_as_local b)).
Proof.
  intros ->. apply ok_upd_com; [by intros [] ? [= ->]|]. intros x. split_and!; try done. intros _ _. split_and!; [done|by left|done].
Qed.
Hint Resolve ok_ack_vr : ok.

Lemma ok_commit_vr lv E v p r dir : ok ctx lv E (commit_vr v p r dir).
Proof. apply ok_lift. ok_body. Qed.
Hint Resolve ok_commit_vr : ok.
Lemma ok_commit_rules E v dir : ok ctx Com E (commit_rules v dir).
Proof. unfold commit_rules, hash_iter. ok. Qed.
Lemma ok_rates_inout E v dir : model_field (policing_rule v dir).2 = false → ok ctx Com E (commit_rates_inout v dir).
Proof. intros Hm. unfold commit_rates_inout. destruct dir; ok. Qed.
Lemma ok_rates_inout_err E v dir : ok ctx Err E (commit_rates_inout v dir).
Proof. destruct dir; ok_body. Qed.

(** There is one context. *)
Lemma get_net_run p s n s' : base ctx s → get_net p s = Ok n s' → s' = s ∧ Net.ctx n = ctx.
Proof.
  intros Hb. unfold get_net, get_obj, mbind, M_bind, get. destruct (H.objs s !! p) as [o|] eqn:Ho; [|done]. simpl.
  destruct o; try done. intros [= -> <-]. split; [done|]. exact (base_cb _ _ Hb p _ Ho).
Qed.
Lemma virt_ctx_run x s c s' : base ctx s → virt_ctx x s = Ok c s' → s' = s ∧ c = ctx.
Proof.
  intros Hb. unfold virt_ctx, mbind, M_bind. destruct (get_net (Virt.network x) s) as [n s1|] eqn:E1; [|done].
  destruct (get_net_run _ _ _ _ Hb E1) as [-> Hn]. intros [= <- <-]. done.
Qed.
Lemma ops_of_net_run p s r s' : base ctx s → ops_of_net p s = Ok r s' → s' = s ∧ r.2 = ctx.
Proof.
  intros Hb. unfold ops_of_net, mbind at 1, M_bind at 1. destruct (get_net p s) as [n s1|] eqn:E1; [|done].
  destruct (get_net_run _ _ _ _ Hb E1) as [-> Hn]. unfold settings_of_net, get_settings, get_obj, mbind, M_bind, get.
  destruct (H.objs s !! Net.settings n) as [o|]; [|done]. simpl. destruct o; try done. intros [= <- <-]. done.
Qed.
Lemma okq_virt_ctx {B : Type} (Q : B → Prop) x (f : ptr → M heap B) : okq ctx Q (f ctx) → okq ctx Q (virt_ctx x ≫= f).
Proof.
  intros Hf s a s' Hp. unfold mbind, M_bind. destruct (virt_ctx x s) as [c s1|] eqn:E1; [|done].
  destruct (virt_ctx_run _ _ _ _ (pre_base _ _ _ Hp) E1) as [-> ->]. by apply Hf.
Qed.
Lemma okq_ops_of_net {B : Type} (Q : B → Prop) p (f : lsdn_net_ops_tag * ptr → M heap B) :
  (∀ t, okq ctx Q (f (t, ctx))) → okq ctx Q (ops_of_net p ≫= f).
Proof.
  intros Hf s a s' Hp. unfold mbind, M_bind. destruct (ops_of_net p s) as [[t c] s1|] eqn:E1; [|done].
  destruct (ops_of_net_run _ _ _ _ (pre_base _ _ _ Hp) E1) as [-> Hc]. simpl in Hc. subst c. by apply Hf.
Qed.

(** *** Rates *)

Definition always {A} (a : A) : Prop := True.
Lemma okq_decommit_rates v : okq ctx always (decommit_rates v).
Proof.
  assert (Hdir : ∀ dir, okq ctx always (decommit_rates_dir v dir)).
  { intros dir. unfold decommit_rates_dir. destruct dir; simpl.
    all: apply okq_then; [ok| |intros ?; ok]; intros x; apply okq_virt_ctx.
    all: case_match; [|by apply okq_ret].
    all: apply okq_then; [ok| |intros ?; ok]; intros err.
    all: eapply okq_bind; [apply okq_mark_virt| |intros ?; ok]; intros b _.
    all: apply okq_then; [ok| |intros ?; ok]; intros err'.
    all: eapply okq_bind; [apply okq_mark_virt| |intros ?; ok]; intros b' _; apply ok_okq; ok. }
  eapply okq_bind; [apply Hdir|intros _ _; apply Hdir|intros ?; apply ok_decommit_rates_dir_err].
Qed.
Lemma okq_commit_rates v : okq ctx always (commit_rates v).
Proof.
  unfold commit_rates. apply okq_then; [ok| |]; intros x.
  - apply okq_then; [destruct (Virt.attr_rate_in x); [by apply ok_rates_inout|ok]| |].
    + intros err. case_bool_decide; [by apply okq_ret|]. destruct (Virt.attr_rate_out x); [|by apply okq_ret].
      apply okq_then; [by apply ok_rates_inout| |intros ?; ok]. intros err'.
      apply (okq_bind ctx always); [|by intros ? _; apply okq_ret|intros ?; ok].
      unfold when. case_bool_decide; [apply okq_decommit_rates|by apply okq_ret].
    + intros err. case_bool_decide; [ok|]. destruct (Virt.attr_rate_out x); [|ok].
      apply ok_bind; [apply ok_rates_inout_err|intros ?; ok].
  - apply ok_bind; [destruct (Virt.attr_rate_in x); [apply ok_rates_inout_err|ok]|].
    intros err. case_bool_decide; [ok|]. destruct (Virt.attr_rate_out x); [|ok].
    apply ok_bind; [apply ok_rates_inout_err|intros ?; ok].
Qed.

(** *** Virts *)

Lemma ok_commit_rates_err v : ok ctx Err [] (commit_rates v).
Proof.
  unfold commit_rates. apply ok_bind; [ok|intros x].
  apply ok_bind; [destruct (Virt.attr_rate_in x); [apply ok_rates_inout_err|ok]|]. intros err.
  case_bool_decide; [ok|]. destruct (Virt.attr_rate_out x); [|ok]. apply ok_bind; [apply ok_rates_inout_err|intros ?; ok].
Qed.
Hint Resolve ok_commit_rates_err : ok.
Lemma ok_deref_then {A B : Type} lv E (o : option A) (f : A → M heap B) :
  (∀ a, o = Some a → ok ctx lv E (f a)) → ok ctx lv E (deref o ≫= f).
Proof. intros Hf. destruct o as [a|]; [by apply Hf|by intros s b s' _ _]. Qed.
(** A member of the operation table. *)
Ltac framed_op := match goal with Hop : _ = Some ?f |- ok _ _ _ (?f _) => apply ok_lift; eapply HF in Hop; exact Hop end.
Hint Extern 1 (ok _ _ _ (_ _)) => framed_op : ok.
Hint Extern 2 (ok _ _ _ (match ?x with _ => _ end)) => destruct x eqn:? : ok.
Hint Extern 2 (ok _ _ _ (deref _ ≫= _)) => apply ok_deref_then; intros ? ? : ok.

(** A call of [add_virt] with its mark. *)
Lemma okq_op_mark op v : (∀ f, op = Some f → ok ctx Ops [] (f v)) →
  okq ctx (λ b, b = false) (match op with None => mret false | Some f => err ← f v; mark_commit_err_virt ctx v false err end).
Proof.
  intros Hop. destruct op as [f|]; [|by apply okq_ret]. apply okq_then; [apply ok_lift; by apply Hop| |intros ?; ok].
  intros err. apply okq_mark_virt.
Qed.
Lemma ok_commit_new_virt_err ops a v : ok ctx Err [] (commit_new_virt ops ctx a v).
Proof. unfold commit_new_virt. ok. Qed.
Lemma okq_commit_new_virt ops a v : okq ctx (λ b, b = true) (commit_new_virt ops ctx a v).
Proof.
  unfold commit_new_virt. do 3 (apply okq_then; [ok| |intros ?; ok]; intros ?).
  case_match.
  { apply spoils_okq, spoils_r; [ok|]. intros _. apply spoils_l; [apply spoils_report|intros ?; ok]. }
  do 3 (apply okq_then; [ok| |intros ?; ok]; intros ?).
  eapply okq_bind; [apply okq_op_mark; intros f Hf; by eapply framed_add_virt| |intros ?; ok]. intros ? ->.
  eapply (okq_bind ctx always); [apply okq_commit_rates| |intros ?; ok]. intros err _.
  eapply okq_bind; [apply okq_mark_virt| |intros ?; ok]. intros ? ->. by apply okq_ret.
Qed.
End commits.

(** ** The commit of views *)

Section views.
Context `{NetOps} (ctx : ptr) {HF : FramedOps ctx}.
Implicit Types (lv : level) (E : list ptr) (s : heap).

(** *** Attachments *)

Lemma not_entry f g : entry_of f = Some g → entry_of g = None.
Proof. by destruct f; intros [= <-]. Qed.
Lemma frame_com_lists s L : pre ctx Com s → Store.wf L → typed L →
  (∀ q f, is_Some (entry_of f) → f ≠ F_remote_pa_list → L !! (q, f) = H.lists s !! (q, f)) →
  (∀ q l, H.lists s !! (q, F_remote_pa_list) = Some l → views_ok s l →
     ∃ l', L !! (q, F_remote_pa_list) = Some l' ∧ views_ok s l') →
  pre ctx Com (H.set_lists L s) ∧ frame ctx Com s (H.set_lists L s).
Proof.
  intros [Hb Ht] Hwf Hty Hs Hv. split; [split; [|exact Ht]; destruct Hb; by split|].
  split; [split; [reflexivity|]; intros x Hx; exists x; split_and!; [done|lia|done]|]. intros _. split.
  - intros p o Hp _. exists o. split; [done|apply same_step, same_obj_refl].
  - eauto.
  - intros q f o _ _ Hf Hr. simpl. apply Hs; [done|]. by intros ->.
  - intros p y l _ Hl Hok. by apply (Hv p l).
Qed.
(** Links a new view into those of an attachment. *)
Lemma link_view s pa rpa x y s' : pre ctx Com s → H.objs s !! rpa = Some (ORpa x) → H.objs s !! Rpa.remote x = Some (OPa y) →
  list_init_add (pa, F_remote_pa_list) (rpa, F_remote_pa_entry) s = Ok tt s' → pre ctx Com s' ∧ frame ctx Com s s'.
Proof.
  intros Hp Hx Hy. unfold list_init_add, on_lists. destruct (Store.init_add _ _ _) as [[] L|] eqn:E; [|done]. intros [= <-].
  pose proof (pre_base _ _ _ Hp) as Hb. pose proof (base_typed _ _ Hb) as Hty.
  apply init_add_result in E as (Hfree & He & k & l & l' & Hk & Hne & Hin & Hperm & ->); [|apply Hb].
  assert (Hcase : k = (pa, F_remote_pa_list) ∨ entry_of k.2 = None).
  { apply elem_of_cons in Hin as [|Hin]; [by left|right]. destruct (entry_of k.2) as [g|] eqn:Hg; [|done]. exfalso.
    destruct k as [q f]. pose proof (Hty q f g l _ Hg Hk Hin) as Hf. simpl in Hf. subst g. by apply not_entry in Hg. }
  assert (Hother : ∀ q f, is_Some (entry_of f) → (q, f) ≠ k →
    <[k:=l']> (delete (rpa, F_remote_pa_entry) (H.lists s)) !! (q, f) = H.lists s !! (q, f)).
  { intros q f [g Hg] Hq. rewrite lookup_insert_ne by congruence. apply lookup_delete_ne. by intros [= -> <-]. }
  apply frame_com_lists; [done|by eapply Store.wf_insert_entry; [apply Hb|..]| | |].
  - intros q f g m e Hg. destruct (decide ((q, f) = k)) as [Hq|Hq].
    + rewrite Hq, lookup_insert_eq. intros [= <-]. rewrite Hperm. destruct Hcase as [->|Hn].
      * injection Hq as -> ->. injection Hg as <-. intros [->|Hin']%elem_of_cons; [done|exact (Hty _ F_remote_pa_list _ l e eq_refl Hk Hin')].
      * subst k. simpl in Hn. congruence.
    + rewrite Hother by done. by apply Hty.
  - intros q f Hg Hf. apply Hother; [done|]. intros <-. destruct Hcase as [Hc|Hc]; [by injection Hc|]. simpl in Hc. by destruct Hg as [? ?]; congruence.
  - intros q m Hm Hv. destruct (decide ((q, F_remote_pa_list) = k)) as [Hq|Hq].
    + subst k. simplify_eq. exists l'. rewrite lookup_insert_eq. split; [done|]. unfold views_ok. rewrite Hperm. constructor; eauto.
    + rewrite Hother by done. eauto.
Qed.
End views.

Section new_objects.
Context `{NetOps} (ctx : ptr) {HF : FramedOps ctx}.
Implicit Types (lv : level) (E : list ptr) (s : heap).

(** Composition of steps. *)
Definition stepped s s' : Prop := pre ctx Com s' ∧ frame ctx Com s s'.
Lemma stepped_trans s1 s2 s3 : stepped s1 s2 → stepped s2 s3 → stepped s1 s3.
Proof. intros [Hp1 Hf1] [Hp2 Hf2]. split; [done|]. eapply lvl_trans; [apply Hp1|done..]. Qed.
Lemma stepped_refl s : pre ctx Com s → stepped s s.
Proof. split; [done|apply lvl_refl]. Qed.
Lemma ok_stepped {A} (m : M heap A) s a s' : ok ctx Com [] m → pre ctx Com s → m s = Ok a s' → stepped s s'.
Proof. intros Hm Hp Hr. exact (Hm s a s' Hp (known_nil _ _ _) Hr). Qed.

Lemma bind_inv {A B : Type} (m : M heap A) (f : A → M heap B) s b s' :
  (m ≫= f) s = Ok b s' → ∃ a s1, m s = Ok a s1 ∧ f a s1 = Ok b s'.
Proof. unfold mbind, M_bind. destruct (m s) as [a s1|]; [eauto|done]. Qed.

Lemma malloc_step s m s' : pre ctx Com s → malloc s = Ok m s' → stepped s s' ∧ H.objs s' = H.objs s ∧
  ∀ p, m = Some p → H.objs s !! p = None ∧ (p < H.next_ptr s')%positive.
Proof.
  intros Hp. unfold malloc, try_alloc, mbind, M_bind, get, modify, mret, M_ret. simpl.
  destruct (Env.malloc_ok _ _); intros [= <- <-]; (split; [apply frame_same; [done|simpl; lia|done..]|]).
  - split; [done|]. intros p [= <-]. split; [|simpl; lia]. destruct (H.objs s !! H.next_ptr s) eqn:E; [|done].
    apply (base_fresh _ _ (pre_base _ _ _ Hp)) in E. lia.
  - done.
Qed.
(** An object that is not of the model before a commit: a view, or one of the network types. *)
Lemma put_new s p o : pre ctx Com s → H.objs s !! p = None → (p < H.next_ptr s)%positive → own_cb ctx p o →
  is_view o || negb (model_obj o) = true → stepped s (H.set_objs (<[p := o]> (H.objs s)) s).
Proof.
  intros [[Hwf Hty Hfr Hcb (c & Hc & Hcount)] Ht] Hp Hlt Hown Hv. set (s' := H.set_objs _ s).
  assert (Hobjs : ∀ q oq, H.objs s !! q = Some oq → H.objs s' !! q = Some oq).
  { intros q oq Hq. simpl. rewrite lookup_insert_ne; congruence. }
  assert (Hinv : ∀ q oq, H.objs s' !! q = Some oq → H.objs s !! q = Some oq ∨ q = p ∧ oq = o).
  { intros q oq Hq. change (<[p:=o]> (H.objs s) !! q = Some oq) in Hq. apply lookup_insert_Some in Hq as [[-> ->]|[_ ?]]; auto. }
  split; [split; [split|]|split].
  - done.
  - done.
  - intros q oq [Hq|[-> _]]%Hinv; [by apply Hfr in Hq|done].
  - intros q oq [Hq|[-> ->]]%Hinv; auto.
  - exists c. auto.
  - intros _ Hc0 q oq st [Hq|[-> ->]]%Hinv Hst; [|by destruct o].
    eapply (Ht eq_refl); [|done..]. revert Hc0. unfold count. by rewrite (Hobjs _ _ Hc), Hc.
  - split; [reflexivity|]. intros x Hx. exists x. split_and!; [by apply Hobjs|lia|done].
  - intros _. split.
    + intros q oq Hq _. exists oq. split; [by apply Hobjs|apply same_step, same_obj_refl].
    + intros q oq [Hq|[-> ->]]%Hinv Hm Hvw; [eauto|]. by rewrite Hm, Hvw in Hv.
    + done.
    + intros q y l Hq Hl Hvs. exists l. split; [done|]. eapply Forall_impl; [exact Hvs|].
      intros e (x & z & Hx & Hz). exists x, z. auto.
Qed.
Lemma list_init_add_objs p e s s' : list_init_add p e s = Ok tt s' → H.objs s' = H.objs s.
Proof. unfold list_init_add, on_lists. destruct (Store.init_add _ _ _) as [[] L|]; [|done]. by intros [= <-]. Qed.
Lemma get_pa_inv p s o s' : get_pa p s = Ok o s' → s' = s ∧ H.objs s !! p = Some (OPa o).
Proof. unfold get_pa, get_obj, mbind, M_bind, get. destruct (H.objs s !! p) as [[]|]; try done. by intros [= -> ->]. Qed.

(** What is done after a failed acknowledgement may free the new object. *)
Lemma okq_run {A B : Type} (P : A → Prop) (m : M heap A) (f : A → M heap B) E s b s' :
  okq ctx P m → (∀ a, P a → ok ctx Com [] (f a)) → (∀ a, ok ctx Err E (f a)) →
  pre ctx Com s → known ctx Err E s → (m ≫= f) s = Ok b s' → stepped s s'.
Proof.
  intros Hm Hf He Hp Hk (a & s1 & Hr & Hr')%bind_inv. destruct (Hm s a s1 Hp Hr) as (Hp1 & Hf1 & [HP|Hc]).
  - eapply stepped_trans; [by split|]. by eapply ok_stepped; [apply Hf|..].
  - destruct (He a s1 b s') as [[Hb2 _] [Hf2 _]]; [by split; [apply Hp1|]| |done|].
    { apply (known_frame ctx Err E s s1); [split; [apply Hf1|done]|done]. }
    apply spoiled; [done|by eapply frame_err_trans; [apply Hf1|]|]. pose proof (frame_count _ _ _ (pre_base _ _ _ Hp1) Hf2). lia.
Qed.
Lemma spoils_run {A} (m : M heap A) s a s' : spoils ctx m → pre ctx Com s → m s = Ok a s' → stepped s s'.
Proof. intros Hm [Hb _] Hr. destruct (Hm s a s' Hb Hr) as (? & ? & ?). by apply spoiled. Qed.

Lemma stepped_pre s s' : stepped s s' → pre ctx Com s'.
Proof. by intros []. Qed.
(** One more step. *)
Lemma stepped_ok {A} (m : M heap A) s0 s a s' : stepped s0 s → ok ctx Com [] m → m s = Ok a s' → stepped s0 s'.
Proof. intros Hs Hm Hr. eapply stepped_trans; [done|]. eapply ok_stepped; [done|by eapply stepped_pre|done]. Qed.
(** A new object is known on the paths to an error. *)
Lemma new_known s s' p : stepped s s' → H.objs s !! p = None → (p < H.next_ptr s)%positive → pre ctx Com s → known ctx Err [p] s'.
Proof.
  intros [Hp' [Hf _]] Hn Hlt Hp. apply Forall_cons. split; [|by apply Forall_nil]. split_and!; [|intros ->|done].
  - eapply Pos.lt_le_trans; [exact Hlt|apply Hf].
  - destruct (base_ctx _ _ (pre_base _ _ _ Hp)) as (c & Hc & _). congruence.
Qed.

Lemma ok_commit_remote_pa ops pa remote : ok ctx Com [] (commit_remote_pa ops ctx pa remote).
Proof.
  intros s [] s' Hp _. unfold commit_remote_pa. case_bool_decide; [by intros [= <-]; apply stepped_refl|].
  intros (o & s0 & [-> Ho]%get_pa_inv & Hr)%bind_inv. apply bind_inv in Hr as (r & s0 & [-> Hrem]%get_pa_inv & Hr).
  destruct (_ && _); [injection Hr as <-; by apply stepped_refl|].
  apply bind_inv in Hr as (m & s1 & (Hs1 & Ho1 & Hm)%malloc_step & Hr); [|done].
  eapply stepped_trans; [exact Hs1|]. destruct Hs1 as [Hp1 _]. clear Hp. destruct m as [rpa|].
  2:{ eapply spoils_run; [|exact Hp1|exact Hr]. apply spoils_l; [apply spoils_report|intros _; ok]. }
  destruct (Hm rpa eq_refl) as [Hfr Hlt]. rewrite <-Ho1 in Hfr, Hrem.
  apply bind_inv in Hr as ([] & s2 & [= <-] & Hr). set (s2 := H.set_objs _ s1) in *.
  assert (Hs : stepped s1 s2) by by apply put_new.
  apply bind_inv in Hr as ([] & s3 & Hl3 & Hr). pose proof (list_init_add_objs _ _ _ _ Hl3) as Ho3.
  eapply stepped_ok in Hs; [|..|exact Hl3]; [|ok]. apply bind_inv in Hr as ([] & s4 & Hl4 & Hr).
  assert (Hs4 : stepped s3 s4).
  { eapply link_view; [by eapply stepped_pre|..|exact Hl4]; rewrite Ho3; simpl; [apply lookup_insert_eq|].
    simpl. rewrite lookup_insert_ne by congruence. exact Hrem. }
  apply (stepped_trans _ _ _ Hs) in Hs4. clear Hs. rename Hs4 into Hs.
  apply bind_inv in Hr as ([] & s5 & Hl5 & Hr). eapply stepped_ok in Hs; [|..|exact Hl5]; [|ok].
  unfold call_op in Hr. destruct (add_remote_pa ops) as [f|] eqn:Hf; [|by injection Hr as <-].
  apply bind_inv in Hr as (err & s6 & Hr6 & Hr).
  eapply stepped_ok in Hs; [|..|exact Hr6]; [|apply ok_lift; by eapply framed_add_remote_pa].
  eapply stepped_trans; [exact Hs|].
  eapply (okq_run _ _ _ [rpa]); [apply okq_mark_pa| | |by eapply stepped_pre|by eapply new_known|exact Hr].
  - intros ? ->. ok.
  - intros [|]; ok.
Qed.
End new_objects.

Section attachments.
Context `{NetOps} (ctx : ptr) {HF : FramedOps ctx}.
Implicit Types (lv : level) (E : list ptr) (s : heap).
Notation stepped := (stepped ctx).

Lemma get_virt_inv p s o s' : get_virt p s = Ok o s' → s' = s ∧ H.objs s !! p = Some (OVirt o).
Proof. unfold get_virt, get_obj, mbind, M_bind, get. destruct (H.objs s !! p) as [[]|]; try done. by intros [= -> ->]. Qed.

Lemma ok_commit_remote_virt ops pa remote v : ok ctx Com [] (commit_remote_virt ops ctx pa remote v).
Proof.
  intros s [] s' Hp _. unfold commit_remote_virt.
  intros (o & s0 & [-> Ho]%get_pa_inv & Hr)%bind_inv. apply bind_inv in Hr as (x & s0 & [-> Hx]%get_virt_inv & Hr).
  destruct (_ && _); [injection Hr as <-; by apply stepped_refl|].
  apply bind_inv in Hr as (m & s1 & (Hs1 & Ho1 & Hm)%(malloc_step ctx) & Hr); [|done].
  eapply stepped_trans; [exact Hs1|]. destruct Hs1 as [Hp1 _]. clear Hp. destruct m as [rvirt|].
  2:{ eapply spoils_run; [|exact Hp1|exact Hr]. apply spoils_l; [apply spoils_report|intros _; ok]. }
  destruct (Hm rvirt eq_refl) as [Hfr Hlt]. rewrite <-Ho1 in Hfr.
  apply bind_inv in Hr as ([] & s2 & [= <-] & Hr). set (s2 := H.set_objs _ s1) in *.
  assert (Hs : stepped s1 s2) by by apply put_new.
  do 2 (apply bind_inv in Hr as ([] & ? & Hl & Hr); eapply stepped_ok in Hs; [|..|exact Hl]; [|ok]; clear Hl).
  unfold call_op in Hr. destruct (add_remote_virt ops) as [f|] eqn:Hf; [|by injection Hr as <-].
  apply bind_inv in Hr as (err & s6 & Hr6 & Hr).
  eapply stepped_ok in Hs; [|..|exact Hr6]; [|apply ok_lift; by eapply framed_add_remote_virt].
  eapply stepped_trans; [exact Hs|].
  eapply (okq_run ctx _ _ _ []); [apply okq_mark_virt| | |by eapply stepped_pre|by apply known_nil|exact Hr].
  - intros ? ->. apply ok_ret.
  - intros [|]; ok.
Qed.

(** The answer does not matter. *)
Lemma okq_drop {A} (P : A → Prop) (m : M heap A) : okq ctx P m → ok ctx Com [] m.
Proof. intros Hm. apply okq_ok. by eapply okq_mono. Qed.

Lemma ok_commit_virt_of ops pa v : ok ctx Com [] (commit_virt_of ops ctx pa v).
Proof.
  unfold commit_virt_of. apply ok_bind; [ok|intros x]. apply ok_bind.
  - case_bool_decide; [by eapply okq_drop, okq_commit_new_virt|ok].
  - intros [|]; [|ok]. apply ok_bind; [ok|intros y]. destruct (state_ok _); [|ok].
    apply ok_bind; [by apply ok_commit_rules|intros _; by apply ok_commit_rules].
Qed.
Hint Resolve ok_commit_virt_of ok_commit_remote_pa ok_commit_remote_virt : ok.

Lemma ok_create ops pa st : ok ctx Com [] (
  when (bool_decide (st = LSDN_STATE_NEW)) (err ← create_pa ops pa; _ ← mark_commit_err_pa ctx pa false err; mret tt)).
Proof.
  apply ok_when, ok_bind; [apply ok_lift; by apply framed_create_pa|]. intros err.
  apply ok_bind; [by eapply okq_drop, okq_mark_pa|intros ?; ok].
Qed.
Lemma ok_commit_pa pa : ok ctx Com [] (commit_pa pa).
Proof.
  unfold commit_pa. apply ok_bind; [ok|intros o]. apply okq_ok, okq_ops_of_net. intros t. simpl. apply ok_okq.
  apply ok_bind; [apply ok_create|intros _]. ok.
Qed.
Hint Resolve ok_commit_pa ok_phys_committed : ok.
Definition commit_phys (p : ptr) : M heap unit :=
  x ← get_phys p;
  when (Phys.is_local x) (
    _ ← upd_phys p (Phys.set_committed_as_local (Phys.is_local x));
    foreach (p, F_attached_to_list) commit_pa).
Lemma ok_commit_phys p : ok ctx Com [] (commit_phys p).
Proof.
  unfold commit_phys. apply ok_bind; [ok|intros x]. destruct (Phys.is_local x); [simpl|apply ok_ret].
  apply ok_bind; [by apply ok_phys_committed|intros _; ok].
Qed.
Hint Resolve ok_commit_phys : ok.
Lemma ok_commit_phase : ok ctx Com [] (commit_phase ctx).
Proof. unfold commit_phase. change (ok ctx Com [] (foreach (ctx, F_phys_list) commit_phys)). ok. Qed.
Hint Resolve ok_ack_settings ok_ack_phys ok_ack_net ok_ack_pa ok_ack_virt : ok.
Lemma ok_ack_phase : ok ctx Com [] (ack_phase ctx).
Proof. unfold ack_phase. ok. Qed.
End attachments.
#[export] Hint Resolve ok_commit_virt_of ok_commit_remote_pa ok_commit_remote_virt ok_commit_pa ok_commit_phys ok_phys_committed
  ok_ack_vr ok_ack_settings ok_ack_phys ok_ack_net ok_ack_pa ok_ack_virt ok_commit_vr ok_commit_rules : ok.
