(* ===== verification/Progress.v ===== *)
(** * What a commit achieves

    The phases of a commit followed from the state in which it began: as long as no problem is
    reported, each loop reaches every member of its list, the rules and objects it passes are
    acknowledged, and at the end every object of the model is committed. The frame logic of Frame
    and CommitFrame says what the phases leave alone. *)

From Stdlib Require Import ZArith Lia.
From stdpp Require Import base list gmap strings.
From S2P Require Import Prelude.
From S2P Require Import LStore.
From S2P Require Import Status.
From S2P Require Import Nettypes.
From S2P Require Import Heap.
From S2P Require Import Base.
From S2P Require Import Wp.
From S2P Require Import Model.
From S2P Require Import Rules.
From S2P Require Import Validate.
From S2P Require Import Commit.
From S2P Require Import NetOps.
From S2P Require Import Inv.
From S2P Require Import Change.
From S2P Require Import Api.
From S2P Require Import Scenarios.
From S2P Require Import Settled.
From S2P Require Import Frame.
From S2P Require Import CommitFrame.

Local Open Scope Z_scope.

(** ** Progress *)

Section progress.
Context `{NetOps} (ctx : ptr) {HF : FramedOps ctx} (s0 : heap) (Hinv : inv s0).
Notation stepped := (stepped ctx).

(** A point of a commit that began with [s0], with no problem so far. *)
Record since (s : heap) : Prop := {
  since_pre : pre ctx Com s;
  since_clean : count ctx s = 0;
  since_frame : frame_com s0 s }.

(** The object is in the state OK. *)
Definition acked_at (s : heap) (p : ptr) : Prop := ∃ o, H.objs s !! p = Some o ∧ obj_state o = Some LSDN_STATE_OK.

Lemma acked_frame s s' p : frame_com s s' → acked_at s p → acked_at s' p.
Proof.
  intros Hf (o & Ho & Hst). destruct (fc_objs _ _ Hf p o Ho) as (o' & Ho' & _ & Ha & _); [by destruct o|].
  exists o'. split; [done|]. destruct Ha as [Ha|[Ha _]]; congruence.
Qed.
Lemma since_step s s' : since s → stepped s s' → count ctx s' = 0 → since s' ∧ frame_com s s'.
Proof.
  intros [Hp Hc Hf] [Hp' [_ Hf']] Hc'. specialize (Hf' Hc'). split; [|done]. split; [done..|by eapply frame_com_trans].
Qed.
(** Nothing is reported before nothing was reported. *)
Lemma clean_before s s' : pre ctx Com s → stepped s s' → count ctx s' = 0 → count ctx s = 0.
Proof. intros Hp [_ [Hf _]] Hc. pose proof (frame_count _ _ _ (pre_base _ _ _ Hp) Hf). lia. Qed.

(** What the objects and lists of [s0] have become. *)
Lemma since_obj s p o : since s → H.objs s0 !! p = Some o → model_obj o = true →
  ∃ o', H.objs s !! p = Some o' ∧ shape o' = shape o.
Proof. intros Hs Ho Hm. destruct (fc_objs _ _ (since_frame _ Hs) p o Ho Hm) as (o' & ? & ? & _). eauto. Qed.
Lemma since_list s q f o : since s → H.objs s0 !! q = Some o → model_obj o = true → is_Some (entry_of f) →
  f ≠ F_remote_pa_list → H.lists s !! (q, f) = H.lists s0 !! (q, f).
Proof. intros Hs Ho Hm Hf Hr. eapply (fc_lists _ _ (since_frame _ Hs)); [done..|]. by destruct f. Qed.

(** *** Loops *)

(** Each round of a loop. *)
Lemma mforeach_each {A} (body : A → M heap unit) l s s' : (∀ x, ok ctx Com [] (body x)) → since s →
  mforeach body l s = Ok tt s' → count ctx s' = 0 →
  since s' ∧ frame_com s s' ∧
  ∀ x, x ∈ l → ∃ s1 s2, since s1 ∧ frame_com s s1 ∧ body x s1 = Ok tt s2 ∧ since s2 ∧ frame_com s2 s'.
Proof.
  intros Hb. revert s. induction l as [|x l IH]; intros s Hs; simpl.
  { intros [= <-] _. split_and!; [done|apply frame_com_refl|]. by intros x ?%not_elem_of_nil. }
  intros ([] & s1 & Hr & Hr')%bind_inv Hc.
  assert (H1 : stepped s s1) by (eapply ok_stepped; [apply Hb|apply Hs|done]).
  assert (H2 : stepped s1 s') by (eapply ok_stepped; [by apply ok_mforeach|by eapply stepped_pre|done]).
  destruct (since_step s s1) as [Hs1 Hf1]; [done..|exact (clean_before _ _ (stepped_pre _ _ _ H1) H2 Hc)|].
  destruct (IH s1 Hs1 Hr' Hc) as (Hs' & Hf' & Hall). split_and!; [done|by eapply frame_com_trans|].
  intros y [->|Hy]%elem_of_cons; [exists s, s1; split_and!; try done; apply frame_com_refl|].
  destruct (Hall y Hy) as (sa & sb & ? & ? & ? & ? & ?). exists sa, sb. split_and!; try done. by eapply frame_com_trans.
Qed.
Lemma foreach_each (body : ptr → M heap unit) h s s' : (∀ p, ok ctx Com [] (body p)) → since s →
  foreach h body s = Ok tt s' → count ctx s' = 0 →
  since s' ∧ frame_com s s' ∧ ∃ l, H.lists s !! h = Some l ∧
  ∀ e, e ∈ l → ∃ s1 s2, since s1 ∧ frame_com s s1 ∧ body e.1 s1 = Ok tt s2 ∧ since s2 ∧ frame_com s2 s'.
Proof.
  intros Hb Hs. unfold foreach. intros (l & s1 & Hl & Hr)%bind_inv Hc.
  assert (∃ l', H.lists s !! h = Some l' ∧ s1 = s ∧ l = fst <$> l') as (l' & Hl' & -> & ->).
  { revert Hl. unfold list_get, mbind, M_bind, get. destruct (H.lists s !! h) as [l'|]; [|done]. intros [= <- <-]. eauto. }
  destruct (mforeach_each body _ s s' Hb Hs Hr Hc) as (? & ? & Hall). split_and!; [done..|]. exists l'. split; [done|].
  intros e He. apply Hall, list_elem_of_fmap. eauto.
Qed.
(** A loop over a list that the commit does not change. *)
Lemma foreach_settled (P : heap → ptr → Prop) (body : ptr → M heap unit) q f o l s s' :
  (∀ p, ok ctx Com [] (body p)) → since s → foreach (q, f) body s = Ok tt s' → count ctx s' = 0 →
  H.objs s0 !! q = Some o → model_obj o = true → is_Some (entry_of f) → f ≠ F_remote_pa_list →
  H.lists s0 !! (q, f) = Some l → (∀ s1 s2 p, frame_com s1 s2 → P s1 p → P s2 p) →
  (∀ e s1 s2, e ∈ l → since s1 → body e.1 s1 = Ok tt s2 → since s2 → P s2 e.1) →
  ∀ e, e ∈ l → P s' e.1.
Proof.
  intros Hb Hs Hr Hc Ho Hm Hf Hnr Hl Hst HP e He.
  destruct (foreach_each body (q, f) s s' Hb Hs Hr Hc) as (_ & _ & l' & Hl' & Hall).
  rewrite (since_list s q f o), Hl in Hl' by done. injection Hl' as <-.
  destruct (Hall e He) as (s1 & s2 & H1 & _ & H2 & H3 & H4). exact (Hst _ _ _ H4 (HP e s1 s2 He H1 H2 H3)).
Qed.

(** The members of a list of [s0]. *)
Lemma member e q f l : H.lists s0 !! (q, f) = Some l → e ∈ l → own s0 e = Some (q, f).
Proof. intros Hl He. apply Store.owner_Some; [apply Hinv|eauto]. Qed.

(** *** Acknowledgements *)

Lemma clean_untroubled s : since s → untroubled s.
Proof. intros [Hp Hc _]. by apply (pre_untroubled _ _ _ Hp). Qed.
Lemma ack_acked {X} (as_x : obj → option X) (mk : X → obj) (st : X → lsdn_state) (set_st : lsdn_state → X → X) p s s' :
  (∀ o x, as_x o = Some x → o = mk x) → (∀ x, obj_state (mk x) = Some (st x)) → (∀ t x, st (set_st t x) = t) → since s →
  (x ← (o ← get_obj p; live (as_x o)); put_obj p (mk (set_st (ack_state (st x)) x))) s = Ok tt s' → acked_at s' p.
Proof.
  intros Has Hst Hset Hs. unfold get_obj, mbind, M_bind, get. destruct (H.objs s !! p) as [o|] eqn:Ho; [|done]. simpl.
  destruct (as_x o) as [x|] eqn:Hx; [|done]. apply Has in Hx as ->. intros [= <-].
  pose proof (clean_untroubled s Hs p _ _ Ho (Hst x)) as Hok. exists (mk (set_st (ack_state (st x)) x)).
  split; [apply lookup_insert_eq|]. rewrite Hst, Hset. by destruct (st x).
Qed.
Lemma ack_vr_acked p s s' : since s → upd_vr p (λ x, Vr.set_state (ack_state (Vr.state x)) x) s = Ok tt s' → acked_at s' p.
Proof. apply (ack_acked as_vr OVr Vr.state Vr.set_state); try done. by intros [] ? [= ->]. Qed.
Lemma ack_settings_acked p s s' : since s →
  upd_settings p (λ x, Settings.set_state (ack_state (Settings.state x)) x) s = Ok tt s' → acked_at s' p.
Proof. apply (ack_acked as_settings OSettings Settings.state Settings.set_state); try done. by intros [] ? [= ->]. Qed.
Lemma ack_phys_acked p s s' : since s → upd_phys p (λ x, Phys.set_state (ack_state (Phys.state x)) x) s = Ok tt s' → acked_at s' p.
Proof. apply (ack_acked as_phys OPhys Phys.state Phys.set_state); try done. by intros [] ? [= ->]. Qed.
Lemma ack_net_acked p s s' : since s → upd_net p (λ x, Net.set_state (ack_state (Net.state x)) x) s = Ok tt s' → acked_at s' p.
Proof. apply (ack_acked as_net ONet Net.state Net.set_state); try done. by intros [] ? [= ->]. Qed.
Lemma ack_pa_acked p s s' : since s → upd_pa p (λ x, Pa.set_state (ack_state (Pa.state x)) x) s = Ok tt s' → acked_at s' p.
Proof. apply (ack_acked as_pa OPa Pa.state Pa.set_state); try done. by intros [] ? [= ->]. Qed.
Lemma ack_virt_acked p s s' : since s → upd_virt p (λ x, Virt.set_state (ack_state (Virt.state x)) x) s = Ok tt s' → acked_at s' p.
Proof. apply (ack_acked as_virt OVirt Virt.state Virt.set_state); try done. by intros [] ? [= ->]. Qed.

(** *** Rules and virts *)

(** A step, and the steps after it. *)
Lemma since_bind {A B : Type} (m : M heap A) (f : A → M heap B) s b s' :
  ok ctx Com [] m → (∀ a, ok ctx Com [] (f a)) → since s → (m ≫= f) s = Ok b s' → count ctx s' = 0 →
  ∃ a s1, m s = Ok a s1 ∧ f a s1 = Ok b s' ∧ since s1 ∧ frame_com s s1 ∧ since s' ∧ frame_com s1 s'.
Proof.
  intros Hm Hf Hs (a & s1 & Hr & Hr')%bind_inv Hc.
  assert (H1 : stepped s s1) by (eapply ok_stepped; [done|apply Hs|done]).
  assert (H2 : stepped s1 s') by (eapply ok_stepped; [apply Hf|by eapply stepped_pre|done]).
  destruct (since_step s s1 Hs H1 (clean_before _ _ (stepped_pre _ _ _ H1) H2 Hc)) as [Hs1 Hf1].
  destruct (since_step s1 s' Hs1 H2 Hc). exists a, s1. auto 10.
Qed.

(** All rules of a virt of [s0]. *)
Definition rules_done (s : heap) (v : ptr) : Prop := ∀ x prio l e,
  H.objs s0 !! v = Some (OVirt x) → prio ∈ tables (OVirt x) → H.lists s0 !! (prio, F_rules_list) = Some l → e ∈ l → acked_at s e.1.
Lemma rules_done_frame s s' v : frame_com s s' → rules_done s v → rules_done s' v.
Proof. intros Hf Hd x prio l e ????. eapply acked_frame; [done|by eapply Hd]. Qed.

Lemma commit_rules_done v dir s s' : since s → commit_rules v dir s = Ok tt s' → count ctx s' = 0 → since s' ∧ frame_com s s' ∧
  ∀ x prio l e, H.objs s0 !! v = Some (OVirt x) → prio ∈ snd <$> ht_get dir x →
  H.lists s0 !! (prio, F_rules_list) = Some l → e ∈ l → acked_at s' e.1.
Proof.
  intros Hs. unfold commit_rules, hash_iter. intros (x' & ? & [-> Hx']%get_virt_inv & Hr)%bind_inv Hc.
  apply mforeach_each in Hr as (Hs' & Hf & Hall); [|intros ?; ok|done..]. split_and!; [done..|].
  intros x prio l e Hx Hprio Hl He. destruct (since_obj s v _ Hs Hx) as (o' & Ho' & Hsh); [done|]. simplify_eq.
  assert (ht_get dir x' = ht_get dir x) as Ht.
  { by destruct dir. }
  rewrite Ht in Hall.
  destruct (Hall prio Hprio) as (s1 & s2 & Hs1 & _ & Hr1 & Hs2 & Hf2). eapply acked_frame; [exact Hf2|].
  destruct (inv_refs s0 Hinv _ _ Hx) as (_ & _ & Htab & _).
  destruct (Htab prio) as (op & Hop & Hvp); [simpl; rewrite fmap_app; destruct dir; set_solver|].
  eapply (foreach_settled acked_at _ prio F_rules_list op l s1 s2); try done.
  - intros r. cbv beta. ok.
  - apply Hs2.
  - by destruct op.
  - by eapply acked_frame.
  - intros e' sa sb He' Hsa Hr' Hsb. apply bind_inv in Hr' as (y & sc & Hy & Hr').
    assert (sc = sa) as ->.
    { revert Hy. unfold get_vr, get_obj, mbind, M_bind, get. destruct (H.objs sa !! _) as [[]|]; try done. by intros [= _ ->]. }
    apply since_bind in Hr' as ([] & sc & _ & Hr' & Hsc & _); [|ok|intros _; ok|done|apply Hsb].
    exact (ack_vr_acked _ _ _ Hsc Hr').
Qed.

Lemma get_state_ok {A : Type} (st : lsdn_state) (m n : M heap A) : state_ok st = true → (if state_ok st then m else n) = m.
Proof. by intros ->. Qed.
Lemma okq_since {A} (P : A → Prop) (m : M heap A) s a s1 : okq ctx P m → since s → m s = Ok a s1 → count ctx s1 = 0 → P a.
Proof. intros Hm Hs Hr Hc. destruct (Hm s a s1 (since_pre _ Hs) Hr) as (_ & _ & [?|?]); [done|lia]. Qed.

Lemma commit_virt_done ops pa v s s' : since s → commit_virt_of ops ctx pa v s = Ok tt s' → count ctx s' = 0 → rules_done s' v.
Proof.
  intros Hs. unfold commit_virt_of. intros (x & ? & [-> Hx]%get_virt_inv & Hr)%bind_inv Hc.
  set (new := if bool_decide (Virt.state x = LSDN_STATE_NEW) then commit_new_virt ops ctx pa v else mret true) in Hr.
  assert (Hnew : okq ctx (λ b, b = true) new).
  { unfold new. case_bool_decide; [by apply okq_commit_new_virt|by apply okq_ret]. }
  apply since_bind in Hr as (go & s1 & Hg & Hr & Hs1 & _); [|by eapply okq_drop|intros [|]; [cbv beta iota|ok]|done..].
  2:{ apply ok_bind; [ok|intros y]. destruct (state_ok _); [|ok]. apply ok_bind; [by apply ok_commit_rules|intros _; by apply ok_commit_rules]. }
  apply (okq_since (λ b, b = true)) in Hg as ->; [|done..|apply Hs1].
  apply bind_inv in Hr as (y & ? & [-> Hy]%get_virt_inv & Hr).
  rewrite get_state_ok in Hr by exact (clean_untroubled _ Hs1 v _ _ Hy eq_refl).
  apply since_bind in Hr as ([] & s2 & Hin & Hout & Hs2 & _ & Hs' & Hf2); [|by apply ok_commit_rules|intros _; by apply ok_commit_rules|done..].
  apply commit_rules_done in Hin as (_ & _ & Hin); [|done|apply Hs2].
  apply commit_rules_done in Hout as (_ & _ & Hout); [|done|apply Hc].
  intros x0 prio l e Hx0 Hp Hl He. simpl in Hp. rewrite fmap_app in Hp. apply elem_of_app in Hp as [Hp|Hp].
  - eapply acked_frame; [exact Hf2|]. by eapply Hin.
  - by eapply Hout.
Qed.

(** All connected virts of an attachment of [s0]. *)
Definition pa_done (s : heap) (a : ptr) : Prop := ∀ l e,
  H.lists s0 !! (a, F_connected_virt_list) = Some l → e ∈ l → rules_done s e.1.
Lemma pa_done_frame s s' a : frame_com s s' → pa_done s a → pa_done s' a.
Proof. intros Hf Hd l e ??. eapply rules_done_frame; [done|by eapply Hd]. Qed.

Lemma commit_pa_done a o s s' : H.objs s0 !! a = Some (OPa o) → since s → commit_pa a s = Ok tt s' → count ctx s' = 0 → pa_done s' a.
Proof.
  intros Ho Hs. unfold commit_pa. intros (o1 & ? & [-> Ho1]%get_pa_inv & Hr)%bind_inv Hc.
  apply bind_inv in Hr as ([ops c] & ? & [-> Hcx]%(ops_of_net_run ctx) & Hr); [|apply Hs]. simpl in Hcx. subst c.
  apply since_bind in Hr as ([] & s1 & _ & Hr & Hs1 & _); [|by apply ok_create|intros _; ok|done..].
  apply bind_inv in Hr as (o2 & ? & [-> Ho2]%get_pa_inv & Hr).
  assert (state_ok (Pa.state o2) = true) as Hok by exact (clean_untroubled _ Hs1 a _ _ Ho2 eq_refl). rewrite Hok in Hr. simpl in Hr.
  apply since_bind in Hr as ([] & s2 & Hv & _ & Hs2 & _ & _ & Hf); [|ok|intros _; ok|done..].
  intros l e Hl He. eapply rules_done_frame; [exact Hf|].
  eapply (foreach_settled rules_done (commit_virt_of ops ctx a) a F_connected_virt_list _ l s1 s2); try done.
  - intros v. ok.
  - apply Hs2.
  - intros. by eapply rules_done_frame.
  - intros e' sa sb _ Hsa Hr' Hsb. exact (commit_virt_done _ _ _ _ _ Hsa Hr' (since_clean _ Hsb)).
Qed.

(** What a commit does with a local phys of [s0]. *)
Definition phys_done (s : heap) (p : ptr) : Prop := ∀ x, H.objs s0 !! p = Some (OPhys x) → Phys.is_local x = true →
  (∃ y, H.objs s !! p = Some (OPhys y) ∧ Phys.committed_as_local y = true) ∧
  ∀ l e, H.lists s0 !! (p, F_attached_to_list) = Some l → e ∈ l → pa_done s e.1.
Lemma phys_done_frame s s' p : frame_com s s' → phys_done s p → phys_done s' p.
Proof.
  intros Hf Hd x Hx Hloc. destruct (Hd x Hx Hloc) as ((y & Hy & Hcy) & Hall). split.
  - destruct (fc_objs _ _ Hf p _ Hy) as (o & Ho & Hsh & _ & Hco); [done|]. destruct o; try done.
    eexists. split; [exact Ho|]. by apply Hco.
  - intros l e ??. eapply pa_done_frame; [done|by eapply Hall].
Qed.
Lemma commit_phys_done p s s' : since s → commit_phys p s = Ok tt s' → count ctx s' = 0 → phys_done s' p.
Proof.
  intros Hs Hr Hc x Hx Hloc. unfold commit_phys in Hr. apply bind_inv in Hr as (y & sy & Hy & Hr).
  assert (sy = s ∧ H.objs s !! p = Some (OPhys y)) as [-> Hp].
  { revert Hy. unfold get_phys, get_obj, mbind, M_bind, get. destruct (H.objs s !! p) as [[]|]; try done. by intros [= -> ->]. }
  destruct (since_obj s p _ Hs Hx) as (o' & Ho' & Hsh); [done|]. rewrite Hp in Ho'. injection Ho' as <-.
  assert (Phys.is_local y = true) as Hly by (simpl in Hsh; by injection Hsh; intros; congruence).
  rewrite Hly in Hr. simpl in Hr.
  apply since_bind in Hr as ([] & s1 & Hu & Hr & Hs1 & _ & _ & Hf); [|by apply ok_phys_committed|intros _; ok|done..]. split.
  - assert (Hy1 : H.objs s1 !! p = Some (OPhys (Phys.set_committed_as_local true y))).
    { revert Hu. unfold upd_phys, get_phys, get_obj, put_obj, modify, mbind, M_bind, get. rewrite Hp. simpl. intros [= <-].
      apply lookup_insert_eq. }
    destruct (fc_objs _ _ Hf p _ Hy1) as (o & Ho & Hsh' & _ & Hco); [done|]. destruct o; try done.
    eexists. split; [exact Ho|]. by apply Hco.
  - intros l e Hl He. eapply (foreach_settled pa_done commit_pa p F_attached_to_list _ l s1 s'); try done.
    + intros a. ok.
    + intros. by eapply pa_done_frame.
    + intros e' sa sb He' Hsa Hr' Hsb. destruct e' as [a g]. pose proof (member (a, g) p F_attached_to_list l Hl He') as Hown.
      apply (own_inv s0) in Hown as (_ & oa & Hoa & _); [|done]. exact (commit_pa_done _ _ _ _ Hoa Hsa Hr' (since_clean _ Hsb)).
Qed.

(** *** Everything is acknowledged *)

Context (c0 : Ctx.lsdn_context) (Hctx : H.objs s0 !! ctx = Some (OCtx c0)).

Definition list_acked (s : heap) (q : ptr) (f : field) : Prop := ∀ l e, H.lists s0 !! (q, f) = Some l → e ∈ l → acked_at s e.1.
Definition net_done (s : heap) (n : ptr) : Prop := acked_at s n ∧ list_acked s n F_attached_list ∧ list_acked s n F_virt_list.
Lemma list_acked_frame s s' q f : frame_com s s' → list_acked s q f → list_acked s' q f.
Proof. intros Hf Hd l e ??. eapply acked_frame; [done|by eapply Hd]. Qed.
Lemma net_done_frame s s' n : frame_com s s' → net_done s n → net_done s' n.
Proof. intros Hf (? & ? & ?). split_and!; [by eapply acked_frame|by eapply list_acked_frame..]. Qed.

(** A loop that acknowledges the members of a list. *)
Lemma acked_loop (body : ptr → M heap unit) q f o s s' : (∀ p, ok ctx Com [] (body p)) →
  (∀ p s1 s2, since s1 → body p s1 = Ok tt s2 → acked_at s2 p) → since s → foreach (q, f) body s = Ok tt s' →
  count ctx s' = 0 → H.objs s0 !! q = Some o → model_obj o = true → is_Some (entry_of f) → f ≠ F_remote_pa_list →
  list_acked s' q f.
Proof.
  intros Hb Ha Hs Hr Hc Ho Hm Hf Hnr l e Hl He.
  eapply (foreach_settled acked_at body q f o l s s'); try done; [intros; by eapply acked_frame|].
  intros e' s1 s2 _ Hs1 Hr1 _. by eapply Ha.
Qed.

Lemma ack_net_done n x s s' : H.objs s0 !! n = Some (ONet x) → since s → (
    _ ← upd_net n (λ x, Net.set_state (ack_state (Net.state x)) x);
    _ ← foreach (n, F_attached_list) (λ pa, upd_pa pa (λ x, Pa.set_state (ack_state (Pa.state x)) x));
    foreach (n, F_virt_list) (λ v, upd_virt v (λ x, Virt.set_state (ack_state (Virt.state x)) x))) s = Ok tt s' →
  count ctx s' = 0 → net_done s' n.
Proof.
  intros Hn Hs Hr Hc. apply since_bind in Hr as ([] & s1 & Hu & Hr & Hs1 & _ & Hs' & Hf1); [|ok|intros _; ok|done..].
  apply since_bind in Hr as ([] & s2 & Hp & Hv & Hs2 & _ & _ & Hf2); [|ok|intros _; ok|done..]. split_and!.
  - eapply acked_frame; [exact Hf1|]. exact (ack_net_acked _ _ _ Hs Hu).
  - eapply list_acked_frame; [exact Hf2|]. eapply acked_loop; [| |exact Hs1|exact Hp|apply Hs2|exact Hn|done..].
    + intros a. cbv beta. ok.
    + intros a sa sb Hsa. by apply ack_pa_acked.
  - eapply acked_loop; [| |exact Hs2|exact Hv|done|exact Hn|done..].
    + intros a. cbv beta. ok.
    + intros a sa sb Hsa. by apply ack_virt_acked.
Qed.

Lemma ack_phase_done s s' : since s → ack_phase ctx s = Ok tt s' → count ctx s' = 0 →
  list_acked s' ctx F_settings_list ∧ list_acked s' ctx F_phys_list ∧
  ∀ l e, H.lists s0 !! (ctx, F_networks_list) = Some l → e ∈ l → net_done s' e.1.
Proof.
  intros Hs Hr Hc. unfold ack_phase in Hr.
  apply since_bind in Hr as ([] & s1 & Hset & Hr & Hs1 & _ & Hs' & Hf1); [|ok|intros _; ok|done..].
  apply since_bind in Hr as ([] & s2 & Hp & Hn & Hs2 & _ & _ & Hf2); [|ok|intros _; ok|done..]. split_and!.
  - eapply list_acked_frame; [exact Hf1|]. eapply acked_loop; [| |exact Hs|exact Hset|apply Hs1|exact Hctx|done..].
    + intros a. cbv beta. ok.
    + intros a sa sb Hsa. by apply ack_settings_acked.
  - eapply list_acked_frame; [exact Hf2|]. eapply acked_loop; [| |exact Hs1|exact Hp|apply Hs2|exact Hctx|done..].
    + intros a. cbv beta. ok.
    + intros a sa sb Hsa. by apply ack_phys_acked.
  - intros l e Hl He. eapply (foreach_settled net_done _ ctx F_networks_list _ l s2 s'); try done.
    + intros n. cbv beta. ok.
    + intros. by eapply net_done_frame.
    + intros [n g] sa sb He' Hsa Hr Hsb. pose proof (member (n, g) ctx F_networks_list l Hl He') as Hown.
      apply (own_inv s0) in Hown as (_ & x & Hx & _); [|done]. exact (ack_net_done n x sa sb Hx Hsa Hr (since_clean _ Hsb)).
Qed.

(** *** The model is settled *)

Section final.
Context (Hone : ∀ p x, H.objs s0 !! p = Some (ONet x) → Net.ctx x = ctx) (s : heap) (Hs : since s).
Context (Hsettings : list_acked s ctx F_settings_list) (Hphys : list_acked s ctx F_phys_list).
Context (Hnets : ∀ l e, H.lists s0 !! (ctx, F_networks_list) = Some l → e ∈ l → net_done s e.1).
Context (Hlocal : ∀ l e, H.lists s0 !! (ctx, F_phys_list) = Some l → e ∈ l → phys_done s e.1).

(** What an object of [s0] is now. *)
Lemma acked_obj p o : H.objs s0 !! p = Some o → acked_at s p →
  ∃ o', H.objs s !! p = Some o' ∧ shape o' = shape o ∧ obj_state o' = Some LSDN_STATE_OK.
Proof.
  intros Ho (o' & Ho' & Hst). destruct (fc_new _ _ (since_frame _ Hs) p o' Ho') as (o1 & Ho1 & Hm); [by destruct o'|by destruct o'|].
  simplify_eq. destruct (since_obj s p o Hs Ho Hm) as (o2 & Ho2 & Hsh). simplify_eq. eauto.
Qed.
Lemma owner_list p f q g o : H.objs s0 !! p = Some o → obj_owner o f = Some (q, g) → struct_field f = true →
  ∃ l, H.lists s0 !! (q, g) = Some l ∧ (p, f) ∈ l.
Proof. intros Ho How Hf. apply Store.owner_Some; [apply Hinv|]. by rewrite (inv_own s0 Hinv p o f Ho Hf). Qed.
Lemma net_acked p x : H.objs s0 !! p = Some (ONet x) → net_done s p.
Proof.
  intros Hp. destruct (owner_list p F_networks_entry (Net.ctx x) F_networks_list _ Hp) as (l & Hl & He); [done..|].
  rewrite (Hone p x Hp) in Hl. exact (Hnets l _ Hl He).
Qed.
Lemma pa_acked p x : H.objs s0 !! p = Some (OPa x) → acked_at s p.
Proof.
  intros Hp. destruct (owner_list p F_attached_entry (Pa.net x) F_attached_list _ Hp) as (l & Hl & He); [done..|].
  destruct (inv_refs s0 Hinv _ _ Hp) as ((o & Ho & Hn & _) & _). destruct o as [| | |n| | | | | | | | | | |]; try done.
  destruct (net_acked _ _ Ho) as (_ & Ha & _). exact (Ha l _ Hl He).
Qed.
Lemma virt_acked p x : H.objs s0 !! p = Some (OVirt x) → acked_at s p.
Proof.
  intros Hp. destruct (owner_list p F_virt_entry (Virt.network x) F_virt_list _ Hp) as (l & Hl & He); [done..|].
  destruct (inv_refs s0 Hinv _ _ Hp) as ((o & Ho & Hn & _) & _). destruct o as [| | |n| | | | | | | | | | |]; try done.
  destruct (net_acked _ _ Ho) as (_ & _ & Ha). exact (Ha l _ Hl He).
Qed.

(** A test on all members of a list of [s0]. *)
Lemma all_in_since q f o (t : ptr → bool) : H.objs s0 !! q = Some o → f ∈ obj_heads o → model_obj o = true → is_Some (entry_of f) →
  f ≠ F_remote_pa_list → (∀ p g, own s0 (p, g) = Some (q, f) → t p = true) → all_in s (q, f) t = true.
Proof.
  intros Ho Hh Hm Hf Hr Ht. destruct (inv_heads s0 Hinv q o f Ho Hh) as [l Hl].
  unfold all_in. rewrite (since_list s q f o), Hl by done. apply forallb_forall. intros p Hp%list_elem_of_In.
  apply list_elem_of_fmap in Hp as ([p' g] & -> & He). eapply Ht. by eapply member.
Qed.

Lemma settings_now p x : H.objs s0 !! p = Some (OSettings x) → acked_at s p → settings_settled s p = true.
Proof.
  intros Ho Ha. destruct (acked_obj p _ Ho Ha) as (o & Hp & Hsh & Hst). unfold settings_settled. rewrite Hp.
  destruct o; try done. apply bool_decide_eq_true. by injection Hst.
Qed.
Lemma pa_now p x : H.objs s0 !! p = Some (OPa x) → pa_settled s p = true.
Proof.
  intros Ho. destruct (acked_obj p _ Ho (pa_acked p x Ho)) as (o & Hp & Hsh & Hst). unfold pa_settled. rewrite Hp.
  destruct o; try done. apply bool_decide_eq_true. by injection Hst.
Qed.
Lemma virt_now p x : H.objs s0 !! p = Some (OVirt x) → virt_settled s p = true.
Proof.
  intros Ho. destruct (acked_obj p _ Ho (virt_acked p x Ho)) as (o & Hp & Hsh & Hst). unfold virt_settled. rewrite Hp.
  destruct o; try done. apply bool_decide_eq_true. by injection Hst.
Qed.
Lemma vr_now p x : H.objs s0 !! p = Some (OVr x) → acked_at s p → vr_settled s p = true.
Proof.
  intros Ho Ha. destruct (acked_obj p _ Ho Ha) as (o & Hp & Hsh & Hst). unfold vr_settled. rewrite Hp.
  destruct o; try done. apply bool_decide_eq_true. by injection Hst.
Qed.

Lemma attached_now n x : H.objs s0 !! n = Some (ONet x) → all_in s (n, F_attached_list) (pa_settled s) = true.
Proof.
  intros Hn. eapply all_in_since; [exact Hn|simpl; set_solver|done..|]. intros p g Hown.
  apply (own_inv s0) in Hown as (_ & y & Hy & _); [|done]. by eapply pa_now.
Qed.
Lemma connected_now a x : H.objs s0 !! a = Some (OPa x) → all_in s (a, F_connected_virt_list) (virt_settled s) = true.
Proof.
  intros Hn. eapply all_in_since; [exact Hn|simpl; set_solver|done..|]. intros p g Hown.
  apply (own_inv s0) in Hown as (_ & y & Hy & _); [|done]. by eapply virt_now.
Qed.
Lemma net_now n x : H.objs s0 !! n = Some (ONet x) → net_settled s n = true.
Proof.
  intros Hn. destruct (acked_obj n _ Hn) as (o & Hp & Hsh & Hst); [by eapply net_acked|]. unfold net_settled. rewrite Hp.
  destruct o; try done. injection Hst as Hst. rewrite !andb_true_iff. split_and!.
  - by apply bool_decide_eq_true.
  - eapply all_in_since; [exact Hn|simpl; set_solver|done..|]. intros p g Hown.
    apply (own_inv s0) in Hown as (_ & y & Hy & _); [|done]. by eapply virt_now.
  - by eapply attached_now.
Qed.

Lemma rules_now v x t : H.objs s0 !! v = Some (OVirt x) → rules_done s v → (∀ prio, prio ∈ snd <$> t → prio ∈ tables (OVirt x)) →
  rules_settled s t = true.
Proof.
  intros Hv Hd Ht. apply forallb_forall. intros prio Hp%list_elem_of_In. specialize (Ht prio Hp).
  destruct (inv_refs s0 Hinv _ _ Hv) as (_ & _ & Htab & _). destruct (Htab prio Ht) as (o & Ho & Hpr). destruct o; try done.
  eapply all_in_since; [exact Ho|simpl; set_solver|done..|]. intros r g Hown.
  pose proof Hown as (l & Hl & He)%Store.owner_Some; [|apply Hinv].
  apply (own_inv s0) in Hown as (_ & y & Hy); [|done]. eapply vr_now; [done|]. exact (Hd x prio l (r, g) Hv Ht Hl He).
Qed.
Lemma local_virt_now v x : H.objs s0 !! v = Some (OVirt x) → rules_done s v → local_virt_settled s v = true.
Proof.
  intros Hv Hd. destruct (acked_obj v _ Hv (virt_acked v x Hv)) as (o & Hp & Hsh & Hst). unfold local_virt_settled. rewrite Hp.
  destruct o as [| | | | |y| | | | | | | | |]; try done. injection Hst as Hst. simpl in Hsh.
  assert (Virt.ht_in_rules y = Virt.ht_in_rules x ∧ Virt.ht_out_rules y = Virt.ht_out_rules x) as [-> ->].
  { by injection Hsh. }
  rewrite !andb_true_iff. split_and!; [by apply bool_decide_eq_true|..]; eapply rules_now; try done;
    intros prio ?; simpl; rewrite fmap_app; set_solver.
Qed.

(** Views of remote attachments, those of [s0] and those that were made since. *)
Lemma views_now a x : H.objs s0 !! a = Some (OPa x) → all_in s (a, F_remote_pa_list) (rpa_settled s) = true.
Proof.
  intros Ha. destruct (inv_heads s0 Hinv a _ F_remote_pa_list Ha) as [l Hl]; [simpl; set_solver|].
  destruct (fc_views _ _ (since_frame _ Hs) a x l Ha Hl) as (l' & Hl' & Hv).
  { apply Forall_forall. intros [p g] He. pose proof (member (p, g) a F_remote_pa_list l Hl He) as Hown.
    apply (own_inv s0) in Hown as (_ & y & Hy & _); [|done].
    destruct (inv_refs s0 Hinv _ _ Hy) as (_ & o & Ho & Hpa & _). destruct o; try done. eauto. }
  unfold all_in. rewrite Hl'. apply forallb_forall. intros p Hp%list_elem_of_In.
  apply list_elem_of_fmap in Hp as (e & -> & He). destruct (proj1 (Forall_forall _ _) Hv e He) as (y & z & Hy & Hz).
  unfold rpa_settled. rewrite Hy. destruct (fc_new _ _ (since_frame _ Hs) _ _ Hz) as (o & Ho & Hm); [done..|].
  destruct (since_obj s _ o Hs Ho Hm) as (o' & Ho' & Hsh). simplify_eq. destruct o; try done. by eapply connected_now.
Qed.
Lemma local_pa_now a x : H.objs s0 !! a = Some (OPa x) → pa_done s a → local_pa_settled s a = true.
Proof.
  intros Ha Hd. destruct (acked_obj a _ Ha (pa_acked a x Ha)) as (o & Hp & Hsh & Hst). unfold local_pa_settled. rewrite Hp.
  destruct o as [| | | |y| | | | | | | | | |]; try done. injection Hst as Hst.
  assert (Pa.net y = Pa.net x) as -> by by injection Hsh.
  destruct (inv_refs s0 Hinv _ _ Ha) as ((n & Hn & Hnet & _) & _). destruct n as [| | |n| | | | | | | | | | |]; try done.
  destruct (since_obj s _ _ Hs Hn) as (n' & -> & Hshn); [done|]. destruct n' as [| | |n'| | | | | | | | | | |]; try done.
  assert (Net.settings n' = Net.settings n) as -> by by injection Hshn.
  destruct (inv_refs s0 Hinv _ _ Hn) as (_ & st & Hset & Hstt & _). destruct st; try done.
  destruct (since_obj s _ _ Hs Hset) as (st' & -> & Hshs); [done|]. destruct st'; try done.
  rewrite !andb_true_iff. split_and!; [by apply bool_decide_eq_true|done| |by eapply attached_now|by eapply views_now].
  eapply all_in_since; [exact Ha|simpl; set_solver|done..|]. intros v g Hown.
  pose proof Hown as (l & Hl & He)%Store.owner_Some; [|apply Hinv].
  apply (own_inv s0) in Hown as (_ & z & Hz & _); [|done]. eapply local_virt_now; [done|]. exact (Hd l (v, g) Hl He).
Qed.
Lemma phys_now p x : H.objs s0 !! p = Some (OPhys x) → acked_at s p → phys_done s p → phys_settled s p = true.
Proof.
  intros Hp Ha Hd. destruct (acked_obj p _ Hp Ha) as (o & Ho & Hsh & Hst). unfold phys_settled. rewrite Ho.
  destruct o as [| |y| | | | | | | | | | | |]; try done. injection Hst as Hst.
  assert (Phys.is_local y = Phys.is_local x) as Hl by by injection Hsh.
  rewrite andb_true_iff. split; [by apply bool_decide_eq_true|]. destruct (Phys.is_local y) eqn:E; [|done]. simpl.
  destruct (Hd x Hp) as [(z & Hz & Hc) Hall]; [congruence|]. simplify_eq. rewrite Hc. simpl.
  eapply all_in_since; [exact Hp|simpl; set_solver|done..|]. intros a g Hown.
  pose proof Hown as (l & Hll & He)%Store.owner_Some; [|apply Hinv].
  apply (own_inv s0) in Hown as (_ & z' & Hz' & _); [|done]. eapply local_pa_now; [done|]. exact (Hall l (a, g) Hll He).
Qed.
Lemma model_now : model_settled s ctx = true.
Proof.
  unfold model_settled. rewrite !andb_true_iff. split_and!; (eapply all_in_since; [exact Hctx|simpl; set_solver|done..|]);
    intros p g Hown; pose proof Hown as (l & Hl & He)%Store.owner_Some; try apply Hinv;
    apply (own_inv s0) in Hown as (_ & x & Hx & _); try done.
  - eapply settings_now; [done|]. exact (Hsettings l (p, g) Hl He).
  - eapply phys_now; [done|exact (Hphys l (p, g) Hl He)|exact (Hlocal l (p, g) Hl He)].
  - by eapply net_now.
Qed.
End final.
End progress.
