(* ===== verification/Settles.v ===== *)
(** * A successful commit settles the model

    The startup hooks and the validation before a commit change nothing of the model; with them,
    and with Progress, a commit that answers OK has committed everything, and the next commit
    sends nothing to the kernel. *)

From Stdlib Require Import ZArith Lia.
From stdpp Require Import base list gmap strings.
From S2P Require Import Prelude.
From S2P Require Import LStore.
From S2P Require Import Status.
From S2P Require Import Nettypes.
From S2P Require Import Heap.
From S2P Require Import Base.
From S2P Require Import Wp.
From S2P Require Import Model.
From S2P Require Import Rules.
From S2P Require Import Validate.
From S2P Require Import Commit.
From S2P Require Import NetOps.
From S2P Require Import Inv.
From S2P Require Import Change.
From S2P Require Import Api.
From S2P Require Import Scenarios.
From S2P Require Import Settled.
From S2P Require Import Frame.
From S2P Require Import CommitFrame.
From S2P Require Import Progress.

Local Open Scope Z_scope.

(** ** Hooks and validation *)

Section validation.
Context (ctx : ptr).
Implicit Types (lv : level) (E : list ptr) (s : heap).

Lemma ok_list_get lv E h : ok ctx lv E (list_get h).
Proof. ok_body. Qed.
Lemma ok_find_incompatible lv E first f l : ok ctx lv E (find_incompatible first f l).
Proof. induction l as [|r l IH]; simpl; ok. Qed.
Lemma ok_find_duplicate lv E seen l : ok ctx lv E (find_duplicate seen l).
Proof. revert seen. induction l as [|r l IH]; intros seen; simpl; ok. Qed.
Hint Resolve ok_list_get ok_find_incompatible ok_find_duplicate : ok.
Lemma ok_rules_loop lv E virt prios : ok ctx lv E (validate_rules_loop virt prios).
Proof. induction prios as [|r l IH]; simpl; ok. Qed.
Lemma ok_any_local lv E l : ok ctx lv E (any_local l).
Proof. induction l as [|r l IH]; simpl; ok. Qed.
Hint Resolve ok_rules_loop ok_any_local : ok.
Lemma ok_networks lv E c : ok ctx lv E (validate_networks c).
Proof.
  unfold validate_networks, validate_virts_net, validate_rules, validate_rate, cross_validate_networks, settings_of_net. ok.
Qed.
Lemma ok_pa_op lv E t b a : ok ctx lv E (match validate_pa_op t with Some f => when b (f a) | None => mret tt end).
Proof. destruct t; simpl; unfold vxlan_e2e_validate_pa, vxlan_static_validate_pa, geneve_validate_pa, validate_pa_ip; ok. Qed.
Lemma ok_virt_op lv E t v : ok ctx lv E (match validate_virt_op t with Some f => f v | None => mret tt end).
Proof. destruct t; simpl; unfold vxlan_static_validate_virt, geneve_validate_virt, validate_virt_mac; ok. Qed.
Hint Resolve ok_pa_op ok_virt_op : ok.
Lemma ok_physes lv E c : ok ctx lv E (validate_physes c).
Proof.
  unfold validate_physes, validate_pa_of, validate_virts_pa, report_virts, validate_phys_ips, net_of_pa, settings_of_net. ok.
Qed.
Lemma ok_ip_versions lv E c : ok ctx lv E (validate_ip_versions c).
Proof. ok_body. Qed.
End validation.

(** *** Steps that leave the model as it is *)

(** [m] does not touch the model. *)
Definition idle {A} (m : M heap A) : Prop := ∀ s a s', untroubled s → m s = Ok a s' →
  H.objs s' = H.objs s ∧ H.lists s' = H.lists s ∧ H.next_ptr s' = H.next_ptr s.

Lemma idle_bind {A B : Type} (m : M heap A) (f : A → M heap B) : idle m → (∀ a, idle (f a)) → idle (m ≫= f).
Proof.
  intros Hm Hf s b s' Hu (a & s1 & H1 & H2)%bind_inv. destruct (Hm _ _ _ Hu H1) as (Ho & Hl & Hn).
  destruct (Hf _ _ _ _ ltac:(by unfold untroubled; rewrite Ho) H2) as (Ho' & Hl' & Hn'). by rewrite Ho', Hl', Hn'.
Qed.
Lemma idle_reads {A} (m : M heap A) : reads m → idle m.
Proof. by intros Hm s a s' _ ->%Hm. Qed.
Lemma idle_modify (f : heap → heap) : (∀ s, H.objs (f s) = H.objs s ∧ H.lists (f s) = H.lists s ∧ H.next_ptr (f s) = H.next_ptr s) →
  idle (modify f).
Proof. by intros Hf s a s' _ [= _ <-]. Qed.
Lemma idle_when b m : idle m → idle (when b m).
Proof. destruct b; [done|]. intros _. by apply idle_reads; intros s ? s' [= _ <-]. Qed.
Lemma idle_mforeach {A} (body : A → M heap unit) l : (∀ x, idle (body x)) → idle (mforeach body l).
Proof.
  intros Hb. induction l as [|x l IH]; simpl; [by apply idle_reads; intros s ? s' [= _ <-]|]. apply idle_bind; [done|by intros _].
Qed.
Lemma reads_get_obj p : reads (get_obj p).
Proof. intros s o s'. unfold get_obj, mbind, M_bind, get. destruct (H.objs s !! p); [|done]. by intros [= _ <-]. Qed.
Lemma reads_live {A} (o : option A) : reads (live o).
Proof. destruct o; [|done]. by intros s ? s' [= _ <-]. Qed.
Lemma idle_foreach h body : (∀ p, idle (body p)) → idle (foreach h body).
Proof.
  intros Hb. unfold foreach. apply idle_bind; [|intros l; by apply idle_mforeach]. apply idle_reads. intros s l s'.
  unfold list_get, mbind, M_bind, get. destruct (H.lists s !! h); [|done]. by intros [= _ <-].
Qed.

(** The state of the object that was read is known. *)
Lemma idle_get {X B : Type} (as_x : obj → option X) (st : X → lsdn_state) p (f : X → M heap B) :
  (∀ o x, as_x o = Some x → obj_state o = Some (st x)) → (∀ x, state_ok (st x) = true → idle (f x)) →
  idle ((o ← get_obj p; live (as_x o)) ≫= f).
Proof.
  intros Hst Hf s b s' Hu. unfold get_obj, mbind, M_bind, get. destruct (H.objs s !! p) as [o|] eqn:Ho; [|done]. simpl.
  destruct (as_x o) as [x|] eqn:Hx; [|done]. apply Hf; [|done]. eapply Hu; [done|by apply Hst].
Qed.
(** An update that changes nothing. *)
Lemma idle_upd {X} (as_x : obj → option X) (mk : X → obj) (st : X → lsdn_state) (f : X → X) p :
  (∀ o x, as_x o = Some x → o = mk x) → (∀ x, obj_state (mk x) = Some (st x)) → (∀ x, f x = x) →
  idle (x ← (o ← get_obj p; live (as_x o)); put_obj p (mk (f x))).
Proof.
  intros Has Hst Hf s [] s' Hu. unfold get_obj, put_obj, modify, mbind, M_bind, get. destruct (H.objs s !! p) as [o|] eqn:Ho; [|done].
  simpl. destruct (as_x o) as [x|] eqn:Hx; [|done]. apply Has in Hx as ->. intros [= <-]. simpl. by rewrite Hf, insert_id.
Qed.
(** Nothing waits for a removal. *)
Lemma idle_decommit {X} (as_x : obj → option X) (mk : X → obj) (st : X → lsdn_state) (set_st : lsdn_state → X → X) p
    (k : X → M heap unit) :
  (∀ o x, as_x o = Some x → o = mk x) → (∀ x, as_x (mk x) = Some x) → (∀ x, obj_state (mk x) = Some (st x)) →
  (∀ x, set_st (st x) x = x) →
  idle (x ← (o ← get_obj p; live (as_x o));
        let '(t, b) := ack_decommit (st x) in
        _ ← (y ← (o ← get_obj p; live (as_x o)); put_obj p (mk (set_st t y)));
        when b (k x)).
Proof.
  intros Has Hmk Hst Hset s [] s' Hu. unfold get_obj, put_obj, modify, mbind, M_bind, get.
  destruct (H.objs s !! p) as [o|] eqn:Ho; [|done]. simpl. destruct (as_x o) as [x|] eqn:Hx; [|done].
  pose proof (Has _ _ Hx) as ->. pose proof (Hu p _ _ Ho (Hst x)) as Hok. simpl.
  assert (ack_decommit (st x) = (st x, false)) as -> by by destruct (st x). rewrite Ho. simpl. rewrite Hx. simpl.
  intros [= <-]. simpl. by rewrite Hset, insert_id.
Qed.

Lemma idle_propagate ctx : idle (propagate_states ctx).
Proof.
  assert (Hpr : ∀ from to, state_ok from = true → propagate from to = to).
  { intros [] []; try done. }
  assert (Hpa : ∀ a from, state_ok from = true → idle (upd_pa a (λ o, Pa.set_state (propagate from (Pa.state o)) o))).
  { intros a from Hf. apply (idle_upd as_pa OPa Pa.state); [by intros [] ? [= ->]|done|]. intros []. simpl. by rewrite Hpr. }
  unfold propagate_states. apply idle_bind; [|intros _; apply idle_bind; [|intros _]].
  - apply idle_foreach. intros p. apply idle_foreach. intros a.
    apply (idle_get as_phys Phys.state); [by intros [] ? [= ->]|]. intros x Hx. by apply Hpa.
  - apply idle_foreach. intros p. apply idle_foreach. intros a.
    apply (idle_get as_net Net.state); [by intros [] ? [= ->]|]. intros x Hx. by apply Hpa.
  - apply idle_foreach. intros p. apply idle_foreach. intros v.
    apply (idle_get as_virt Virt.state); [by intros [] ? [= ->]|]. intros x Hx.
    destruct (Virt.connected_through x); [|by apply idle_reads; intros s ? s' [= _ <-]].
    apply (idle_get as_pa Pa.state); [by intros [] ? [= ->]|]. intros o Ho.
    apply (idle_upd as_virt OVirt Virt.state); [by intros [] ? [= ->]|done|]. intros []. simpl. by rewrite Hpr.
Qed.
Lemma idle_decommit_phase `{NetOps} ctx : idle (decommit_phase ctx).
Proof.
  unfold decommit_phase. apply idle_bind; [|intros _; apply idle_bind; [|intros _]]; apply idle_foreach; intros p.
  - apply idle_bind; [|intros _; apply idle_bind; [|intros _]].
    + apply idle_foreach. intros v. apply (idle_decommit as_virt OVirt Virt.state Virt.set_state); try done; [by intros [] ? [= ->]|by intros []].
    + apply idle_foreach. intros v. apply (idle_decommit as_pa OPa Pa.state Pa.set_state); try done; [by intros [] ? [= ->]|by intros []].
    + apply (idle_decommit as_net ONet Net.state Net.set_state); try done; [by intros [] ? [= ->]|by intros []].
  - apply (idle_decommit as_phys OPhys Phys.state Phys.set_state); try done; [by intros [] ? [= ->]|by intros []].
  - apply (idle_decommit as_settings OSettings Settings.state Settings.set_state); try done; [by intros [] ? [= ->]|by intros []].
Qed.
Lemma reads_bind {A B : Type} (m : M heap A) (f : A → M heap B) : reads m → (∀ a, reads (f a)) → reads (m ≫= f).
Proof. intros Hm Hf s b s' (a & s1 & ->%Hm & ->%Hf)%bind_inv. done. Qed.
Lemma idle_hooks ctx : idle (trigger_startup_hooks ctx).
Proof.
  assert (Hget : ∀ {X : Type} (as_x : obj → option X) p, reads (o ← get_obj p; live (as_x o))).
  { intros X as_x p. apply reads_bind; [apply reads_get_obj|intros o; apply reads_live]. }
  unfold trigger_startup_hooks. apply idle_foreach. intros p. apply idle_bind; [apply idle_reads, Hget|intros x].
  apply idle_when, idle_foreach. intros a. apply idle_bind; [apply idle_reads, Hget|intros o].
  apply idle_bind; [apply idle_reads, Hget|intros n]. apply idle_bind; [apply idle_reads, Hget|intros st].
  destruct (Settings.user_hooks st) as [[[u|]]|]; try by apply idle_reads; intros s ? s' [= _ <-].
  by apply idle_modify.
Qed.

(** ** A successful validation begins a commit *)

Section started.
Context (ctx : ptr) (s0 : heap).

(** A state of the program between commits. *)
Record started (s : heap) : Prop := {
  started_wf : Store.wf (H.lists s);
  started_typed : typed (H.lists s);
  started_fresh p o : H.objs s !! p = Some o → (p < H.next_ptr s)%positive;
  started_cb p o : H.objs s !! p = Some o → own_cb ctx p o;
  started_ctx : ∃ c, H.objs s !! ctx = Some (OCtx c);
  started_untroubled : untroubled s;
  started_frame : frame_com s0 s }.

Lemma frame_com_same s s' : H.objs s' = H.objs s → H.lists s' = H.lists s → frame_com s s'.
Proof.
  intros Ho Hl. split; unfold same_lists_of; rewrite ?Ho, ?Hl; try done.
  - intros p o Hp _. exists o. split; [done|apply same_step, same_obj_refl].
  - eauto.
  - intros p y l _ Hlp Hv. exists l. split; [done|]. unfold views_ok. by rewrite Ho.
Qed.
Lemma started_same s s' : started s → H.objs s' = H.objs s → H.lists s' = H.lists s → H.next_ptr s' = H.next_ptr s → started s'.
Proof.
  intros [] Ho Hl Hn. split; unfold untroubled; rewrite ?Ho, ?Hl, ?Hn; try done.
  eapply frame_com_trans; [done|by apply frame_com_same].
Qed.
Lemma started_idle {A} (m : M heap A) s a s' : started s → idle m → m s = Ok a s' →
  started s' ∧ frame_com s s' ∧ H.objs s' = H.objs s.
Proof.
  intros Hs Hm Hr. destruct (Hm s a s' (started_untroubled _ Hs) Hr) as (Ho & Hl & Hn).
  split_and!; [by eapply started_same|by apply frame_com_same|done].
Qed.
Lemma since_started s : since ctx s0 s → started s.
Proof.
  intros [Hp Hc Hf]. destruct (pre_base _ _ _ Hp) as [??? ? (c & ? & ?)]. split; eauto. by apply (pre_untroubled _ _ _ Hp).
Qed.

(** The context is reset. *)
Lemma reset_since cb c s : started s → H.objs s !! ctx = Some (OCtx c) →
  let s' := H.set_objs (<[ctx := OCtx (Ctx.set_inconsistent false (Ctx.set_problem_count 0 (Ctx.set_problem_cb cb c)))]> (H.objs s)) s in
  since ctx s0 s' ∧ frame_com s s'.
Proof.
  intros Hs Hc s'. set (c' := Ctx.set_inconsistent _ _) in *.
  assert (Hobjs : ∀ q, H.objs s' !! q = if decide (ctx = q) then Some (OCtx c') else H.objs s !! q).
  { intros q. simpl. destruct (decide (ctx = q)) as [->|]; [apply lookup_insert_eq|by apply lookup_insert_ne]. }
  assert (Hkeep : ∀ q o, H.objs s !! q = Some o → ∃ o', H.objs s' !! q = Some o' ∧ step_obj o o').
  { intros q o Hq. rewrite Hobjs. case_decide; [|exists o; split; [done|apply same_step, same_obj_refl]]. subst q. simplify_eq.
    eexists. split; [done|]. split_and!; [done|by left|done]. }
  assert (Hf : frame_com s s').
  { split; [auto| |done|].
    - intros q o'. rewrite Hobjs. case_decide; [|eauto]. intros _ _ _. exists (OCtx c). by subst q.
    - intros q y l Hq Hl Hv. exists l. split; [done|]. eapply Forall_impl; [exact Hv|].
      intros e (x & z & Hx & Hz). assert (ctx ≠ e.1 ∧ ctx ≠ Rpa.remote x) as [? ?] by (split; congruence).
      exists x, z. by rewrite !Hobjs, !decide_False. }
  split; [|done]. destruct Hs as [Hwf Hty Hfr Hcb _ Hun Hf0]. split; [|unfold count; by rewrite Hobjs, decide_True|by eapply frame_com_trans].
  split; [|intros _ _ q o st; rewrite Hobjs; case_decide; [by intros [= <-]|by apply Hun]]. split; [done|done| | |].
  - intros q o. rewrite Hobjs. case_decide; [subst q; intros _; by eapply Hfr|by apply Hfr].
  - intros q o. rewrite Hobjs. case_decide; [subst q; by intros [= <-]|by apply Hcb].
  - exists c'. rewrite Hobjs, decide_True by done. done.
Qed.

Lemma since_idle {A} (m : M heap A) s a s' : since ctx s0 s → idle m → m s = Ok a s' →
  since ctx s0 s' ∧ frame_com s s' ∧ H.objs s' = H.objs s.
Proof.
  intros Hs Hm Hr. destruct (Hm s a s' (clean_untroubled _ _ _ Hs) Hr) as (Ho & Hl & Hn). destruct Hs as [Hp Hc Hf].
  destruct (frame_same ctx Com s s' Hp) as [Hp' _]; [by rewrite Hn|done..|].
  split_and!; [|by apply frame_com_same|done]. split; [done|unfold count; by rewrite Ho|].
  eapply frame_com_trans; [exact Hf|by apply frame_com_same].
Qed.

(** What a validation leaves behind. *)
Lemma checks_since {A : Type} (m : M heap A) c s b s' : since ctx s0 s → H.objs s !! ctx = Some (OCtx c) → Ctx.inconsistent c = false → ok ctx Ops [] m →
  m s = Ok b s' → count ctx s' = 0 → since ctx s0 s' ∧ frame_com s s' ∧
  ∃ c', H.objs s' !! ctx = Some (OCtx c') ∧ Ctx.inconsistent c' = false ∧ (Ctx.nlsock c = true → Ctx.nlsock c' = true).
Proof.
  intros Hs Hc Hi Hm Hr Hc'.
  assert (H1 : stepped ctx s s') by (eapply ok_stepped; [by apply ok_lift|apply Hs|done]).
  destruct (since_step ctx s0 s s' Hs H1 Hc') as [Hs' Hf]. split_and!; [done..|].
  destruct (Hm s b s') as [_ [[_ Hfe] Hops]]; [split; [apply Hs|done]|apply known_nil|done|].
  destruct (Hfe c Hc) as (c' & Hc2 & _ & Hn). exists c'. split_and!; [done| |done].
  destruct (fo_objs _ _ Hops ctx _ Hc) as (o & Ho & _ & _ & _ & Hin); [done|]. simplify_eq. by apply Hin.
Qed.

Lemma validated cb s s' : started s → (_ ← trigger_startup_hooks ctx; lsdn_validate ctx cb) s = Ok LSDNE_OK s' →
  since ctx s0 s' ∧ frame_com s s' ∧ ∃ c', H.objs s' !! ctx = Some (OCtx c') ∧ Ctx.inconsistent c' = false ∧
  ∀ c, H.objs s !! ctx = Some (OCtx c) → Ctx.nlsock c = true → Ctx.nlsock c' = true.
Proof.
  intros Hs (u & s1 & H1 & Hv)%bind_inv. destruct (started_idle _ _ _ _ Hs (idle_hooks ctx) H1) as (Hs1 & Hf1 & Ho1).
  pose proof (validate_ok_count _ _ _ _ Hv) as (cv & Hcv & Hcount). unfold lsdn_validate in Hv.
  destruct (started_ctx _ Hs1) as [c Hc]. apply bind_inv in Hv as ([] & s2 & Hr & Hv).
  unfold upd_ctx, get_ctx, get_obj, mbind, M_bind, get in Hr. rewrite Hc in Hr. injection Hr as <-.
  destruct (reset_since cb c s1 Hs1 Hc) as [Hs2 Hf2]. set (s2 := H.set_objs _ s1) in *.
  apply bind_inv in Hv as ([] & s3 & Hp & Hv).
  destruct (since_idle _ _ _ _ Hs2 (idle_propagate ctx) Hp) as (Hs3 & Hf3 & Ho3).
  apply bind_inv in Hv as ([] & s4 & Hn & Hv). apply bind_inv in Hv as ([] & s5 & Hph & Hv).
  apply bind_inv in Hv as ([] & s6 & Hip & Hv).
  assert (s' = s6) as ->.
  { revert Hv. unfold get_ctx, get_obj, mbind, M_bind, get. destruct (H.objs s6 !! ctx) as [[]|]; try done. simpl.
    case_match; by intros [= <-]. }
  edestruct (checks_since (_ ← validate_networks ctx; _ ← validate_physes ctx; validate_ip_versions ctx)) as (Hs6 & Hf6 & c' & Hc' & Hi & Hk);
    [exact Hs3|rewrite Ho3; apply lookup_insert_eq|done| | | |].
  - apply ok_bind; [apply ok_networks|intros _; apply ok_bind; [apply ok_physes|intros _; apply ok_ip_versions]].
  - unfold mbind, M_bind. rewrite Hn, Hph. exact Hip.
  - unfold count. by rewrite Hcv.
  - split_and!; [done| |].
    + eapply frame_com_trans; [exact Hf1|]. eapply frame_com_trans; [exact Hf2|]. by eapply frame_com_trans.
    + exists c'. split_and!; [done..|]. intros c1. rewrite <-Ho1, Hc. intros [= <-]. exact Hk.
Qed.
End started.

(** ** The theorem *)

(** There is one context: the networks are its own. The cleanup callbacks of the network types
    free the object that holds them. *)
Definition one_context (ctx : ptr) (s : heap) : Prop :=
  (∃ c, H.objs s !! ctx = Some (OCtx c)) ∧ ∀ p o, H.objs s !! p = Some o → own_cb ctx p o.

Lemma inv_typed s : inv s → typed (H.lists s).
Proof.
  intros Hinv q f g l [p h] Hf Hl He.
  assert (Hown : own s (p, h) = Some (q, f)) by (apply Store.owner_Some; [apply Hinv|eauto]).
  apply (own_inv s) in Hown; [|done]. destruct f; try done; simpl in Hf; injection Hf as <-; apply Hown.
Qed.
Lemma inv_started ctx s : inv s → untroubled s → one_context ctx s → started ctx s s.
Proof.
  intros Hinv Hu [Hc Hcb]. split; [apply Hinv|by apply inv_typed|apply Hinv|done..|apply frame_com_refl].
Qed.

Section theorem.
Context `{NetOps} (ctx : ptr) {HF : FramedOps ctx} (s0 : heap) (Hinv : inv s0) (Hone : one_context ctx s0).

(** Everything was committed since [s0]. *)
Record all_done (s : heap) : Prop := {
  done_since : since ctx s0 s;
  done_settings : list_acked s0 s ctx F_settings_list;
  done_phys : list_acked s0 s ctx F_phys_list;
  done_nets l e : H.lists s0 !! (ctx, F_networks_list) = Some l → e ∈ l → net_done s0 s e.1;
  done_local l e : H.lists s0 !! (ctx, F_phys_list) = Some l → e ∈ l → phys_done s0 s e.1 }.
Lemma all_done_settled s : all_done s → model_settled s ctx = true.
Proof.
  intros [Hs ????]. destruct Hone as [[c Hc] Hcb]. eapply (model_now ctx s0 Hinv c Hc); try done.
  intros p x Hp. exact (Hcb p _ Hp).
Qed.
Lemma all_done_frame s s' : all_done s → since ctx s0 s' → frame_com s s' → all_done s'.
Proof.
  intros [Hs ????] Hs' Hf. split; [done|by eapply list_acked_frame..| |].
  - intros l e ??. eapply net_done_frame; eauto.
  - intros l e ??. eapply phys_done_frame; eauto.
Qed.

Lemma ensure_socket_run s err s' c : since ctx s0 s → H.objs s !! ctx = Some (OCtx c) → lsdn_context_ensure_socket ctx s = Ok err s' →
  err = LSDNE_OK → since ctx s0 s' ∧ ∃ c', H.objs s' !! ctx = Some (OCtx c') ∧ Ctx.nlsock c' = true.
Proof.
  intros Hs Hc Hr ->. unfold lsdn_context_ensure_socket in Hr. apply bind_inv in Hr as (c1 & s1 & H1 & Hr).
  assert (s1 = s ∧ c1 = c) as [-> ->].
  { revert H1. unfold get_ctx, get_obj, mbind, M_bind, get. rewrite Hc. by intros [= <- <-]. }
  destruct (Ctx.nlsock c) eqn:Hn; [injection Hr as <-; eauto|].
  unfold get at 1, mbind at 1, M_bind at 1 in Hr. apply bind_inv in Hr as ([] & s2 & Hu & Hr).
  destruct (Env.socket_ok (H.env s)); [|done]. injection Hr as <-.
  assert (Hok : ok ctx Com [] (upd_ctx ctx (Ctx.set_nlsock true))).
  { apply ok_upd_com; [by intros [] ? [= ->]|]. intros x. split_and!; try done. intros _ _. by split_and!; [|left|]. }
  assert (H2 : stepped ctx s s2) by (eapply ok_stepped; [exact Hok|apply Hs|exact Hu]).
  revert Hu. unfold upd_ctx, get_ctx, get_obj, put_obj, modify, mbind, M_bind, get. rewrite Hc. simpl. intros [= <-].
  split; [|eexists; split; [apply lookup_insert_eq|done]]. eapply since_step; [done..|].
  pose proof (since_clean _ _ _ Hs). revert H0. unfold count. simpl. by rewrite Hc, lookup_insert_eq.
Qed.

Lemma commit_done cb s s' : started ctx s0 s → lsdn_commit ctx cb s = Ok LSDNE_OK s' →
  all_done s' ∧ ∃ c, H.objs s' !! ctx = Some (OCtx c) ∧ Ctx.nlsock c = true.
Proof.
  intros Hst Hr. unfold lsdn_commit in Hr. apply bind_inv in Hr as ([] & s1 & H1 & Hr). apply bind_inv in Hr as (err & s2 & H2 & Hr).
  case_bool_decide as Herr; [by injection Hr as -> _|]. subst err.
  destruct (validated ctx s0 cb s s2 Hst) as (Hs2 & _ & c2 & Hc2 & _); [unfold mbind, M_bind; by rewrite H1|].
  apply bind_inv in Hr as (err & s3 & H3 & Hr). case_bool_decide as Herr.
  { apply bind_inv in Hr as (? & ? & _ & [= -> _]). done. }
  destruct (ensure_socket_run _ _ _ _ Hs2 Hc2 H3 Herr) as [Hs3 (c3 & Hc3 & Hn3)].
  apply bind_inv in Hr as ([] & s4 & H4 & Hr). destruct (since_idle _ _ _ _ _ _ Hs3 (idle_decommit_phase ctx) H4) as (Hs4 & _ & Ho4).
  apply bind_inv in Hr as ([] & s5 & H5 & Hr). apply bind_inv in Hr as ([] & s6 & H6 & Hr).
  assert (Hst5 : stepped ctx s4 s5) by (eapply ok_stepped; [by apply ok_commit_phase|apply Hs4|exact H5]).
  assert (Hst6 : stepped ctx s5 s6) by (eapply ok_stepped; [apply ok_ack_phase|by eapply stepped_pre|exact H6]).
  destruct (base_ctx _ _ (pre_base _ _ _ (stepped_pre _ _ _ Hst6))) as (c & Hc & Hpos).
  unfold get_ctx, get_obj, mbind, M_bind, get in Hr. rewrite Hc in Hr. simpl in Hr.
  destruct (Ctx.inconsistent c); [done|]. destruct (0 <? Ctx.problem_count c) eqn:Hcount; [done|]. injection Hr as <-.
  assert (Hc6 : count ctx s6 = 0) by (unfold count; rewrite Hc; lia).
  assert (Hc5 : count ctx s5 = 0) by exact (clean_before _ _ _ (stepped_pre _ _ _ Hst5) Hst6 Hc6).
  destruct (since_step ctx s0 s4 s5 Hs4 Hst5 Hc5) as [Hs5 _].
  destruct (since_step ctx s0 s5 s6 Hs5 Hst6 Hc6) as [Hs6 Hf6]. destruct Hone as [[c0 Hc0] _].
  destruct (ack_phase_done ctx s0 Hinv c0 Hc0 s5 s6 Hs5 H6 Hc6) as (? & ? & ?). split.
  - split; [done..|]. intros l e Hl He. eapply phys_done_frame; [exact Hf6|].
    eapply (foreach_settled ctx s0 (phys_done s0) (commit_phys) ctx F_phys_list _ l s4 s5); try done.
    + intros p. ok.
    + intros. by eapply phys_done_frame.
    + intros e' sa sb _ Hsa Hr' Hsb. exact (commit_phys_done ctx s0 Hinv _ _ _ Hsa Hr' (since_clean _ _ _ Hsb)).
  - exists c. split; [done|]. destruct (fe_ctx _ _ _ (proj1 (proj2 Hst5)) c3) as (c5 & Hc5' & _ & Hn5); [by rewrite Ho4|].
    destruct (fe_ctx _ _ _ (proj1 (proj2 Hst6)) c5 Hc5') as (c6 & Hc6' & _ & Hn6). simplify_eq. auto.
Qed.
End theorem.

(** C5: A commit that only has to add or finish something, and answers OK, has committed
    everything, whatever memory, the kernel and the socket did on the way. It starts in a state
    that satisfies the invariant, with one context and every object NEW or OK: nothing waits for
    a removal or a renewal and nothing failed before, so that the decommit phase is idle. Then
    the links between the objects of the model are as they were, every
    object is in the state OK (the rules of the virts on local physes too, and the physes know
    that they are committed), and the next commit sends nothing to the kernel: it answers OK, or
    VALIDATE if a new problem shows, for instance an interface that is gone. *)
Theorem commit_settles (ctx : ptr) (cb : option problem_cb_t) (s s1 : heap) :
  inv s → untroubled s → one_context ctx s → lsdn_commit ctx cb s = Ok LSDNE_OK s1 →
  (∀ p o, H.objs s !! p = Some o → model_obj o = true → ∃ o', H.objs s1 !! p = Some o' ∧ shape o' = shape o) ∧
  model_settled s1 ctx = true ∧
  ∀ cb' err s2, lsdn_commit ctx cb' s1 = Ok err s2 →
    (err = LSDNE_OK ∨ err = LSDNE_VALIDATE) ∧ H.trace s2 = H.trace s1.
Proof.
  intros Hinv Hu Hone Hr. destruct (commit_done ctx s Hinv Hone cb s s1 (inv_started _ _ Hinv Hu Hone) Hr) as (Hd & c & Hc & Hn).
  split_and!; [intros p o Hp Hm; exact (since_obj _ _ _ _ _ (done_since _ _ _ Hd) Hp Hm)|exact (all_done_settled ctx s Hinv Hone s1 Hd)|]. intros cb' err s2 Hr2.
  pose proof Hr2 as Hrun. unfold lsdn_commit in Hrun. apply bind_inv in Hrun as ([] & s3 & H3 & Hrun).
  apply bind_inv in Hrun as (e & s4 & H4 & Hrun). case_bool_decide as He.
  { injection Hrun as -> <-. split; [|by rewrite (quiet_validate _ _ _ _ _ H4), (quiet_hooks _ _ _ _ H3)].
    unfold lsdn_validate in H4. do 5 (apply bind_inv in H4 as (? & ? & _ & H4)). apply bind_inv in H4 as (c4 & s5 & _ & H4).
    injection H4 as <- _. destruct (_ =? _); auto. }
  subst e. assert (Hv : (_ ← trigger_startup_hooks ctx; lsdn_validate ctx cb') s1 = Ok LSDNE_OK s4).
  { unfold mbind, M_bind. by rewrite H3. }
  destruct (validated ctx s cb' s1 s4) as (Hs4 & Hf4 & c4 & Hc4 & Hi4 & Hn4); [apply since_started, Hd|done|].
  destruct (commit_settled ctx cb' c4 s1 s4 Hv Hc4 (Hn4 c Hc Hn) Hi4) as [Hcommit Htrace].
  { exact (all_done_settled ctx s Hinv Hone s4 (all_done_frame ctx s _ _ Hd Hs4 Hf4)). }
  rewrite Hr2 in Hcommit. injection Hcommit as -> ->. auto.
Qed.

(** ** An example *)

Definition vlan_calls : list api_call :=
  two_physes ipv4 lsdn_net_vlan_ops LSDN_NET_VLAN LSDN_LEARNING ++ [VrNew 8 10 LSDN_IN LSDN_VR_DROP].
Definition vlan_model : heap := default (empty_heap good_env) (run_checked vlan_calls (empty_heap good_env)).
Lemma vlan_model_run : run_checked vlan_calls (empty_heap good_env) = Some vlan_model.
Proof.
  assert (Hok : bool_decide (is_Some (run_checked vlan_calls (empty_heap good_env))) = true) by (vm_compute; reflexivity).
  apply bool_decide_eq_true_1 in Hok as [s Hs]. unfold vlan_model. by rewrite Hs.
Qed.
Lemma vlan_model_inv : inv vlan_model.
Proof.
  apply (sound_inv (empty_heap good_env)), (reachable_sound good_env).
  exact (run_checked_reachable _ _ _ _ (reach_start _) vlan_model_run).
Qed.
(** A test on all objects of a heap. *)
Definition all_objs (t : ptr → obj → bool) (s : heap) : bool := forallb (λ po, t po.1 po.2) (map_to_list (H.objs s)).
Lemma all_objs_ok (t : ptr → obj → bool) s p o : all_objs t s = true → H.objs s !! p = Some o → t p o = true.
Proof.
  unfold all_objs. rewrite forallb_forall. intros Ht Hp. apply (Ht (p, o)), list_elem_of_In. by apply elem_of_map_to_list.
Qed.
Definition quiet_obj (p : ptr) (o : obj) : bool :=
  match obj_state o with Some st => state_ok st | None => true end &&
  match o with ONet x => bool_decide (Net.ctx x = 1%positive) | OBrAction _ | OFwdRule _ => false | _ => true end.
Lemma vlan_model_quiet : untroubled vlan_model ∧ one_context 1 vlan_model.
Proof.
  assert (Hq : all_objs quiet_obj vlan_model = true) by (vm_compute; reflexivity). split; [|split].
  - intros p o st Hp Hst. apply (all_objs_ok _ _ _ _ Hq), andb_true_iff in Hp as [Hp _]. by rewrite Hst in Hp.
  - assert (Hc : match H.objs vlan_model !! 1%positive with Some (OCtx _) => true | _ => false end = true) by (vm_compute; reflexivity).
    revert Hc. generalize (H.objs vlan_model !! 1%positive). intros [[c| | | | | | | | | | | | | |]|] Hc; try discriminate Hc.
    by exists c.
  - intros p o Hp. apply (all_objs_ok _ _ _ _ Hq), andb_true_iff in Hp as [_ Hp]. clear Hq. destruct o; try exact I; try discriminate Hp.
    by apply bool_decide_eq_true in Hp.
Qed.
Definition vlan_done : heap := match commit vlan_model with Ok _ s => s | Fault _ => empty_heap good_env end.

Lemma commit_settles_witness : model_settled vlan_done 1 = true.
Proof.
  assert (Hr : match commit vlan_model with Ok err _ => bool_decide (err = LSDNE_OK) | Fault _ => false end = true)
    by (vm_compute; reflexivity).
  destruct (commit vlan_model) as [err s1|] eqn:E; [|discriminate]. apply bool_decide_eq_true in Hr. subst err.
  destruct (commit_settles 1 on_problem vlan_model s1) as (_ & Hs & _);
    [apply vlan_model_inv|apply vlan_model_quiet|apply vlan_model_quiet|exact E|].
  unfold vlan_done. rewrite E. exact Hs.
Defined.
