(* ===== verification/Netlink.v ===== *)
(** * Netlink messages ([netmodel/nl.c])

    How the requests of [Nl] are put into netlink messages, and how the answers are read. The
    library libmnl is the interface [Mnl]: a message is composed with its calls, and its laws
    say that the receiver finds the attributes that were put, in their order and nesting. *)

From Stdlib Require Import ZArith Lia.
From stdpp Require Import base list gmap strings.
From S2P Require Import Prelude.
From S2P Require Import Float.
From S2P Require Import Status.
From S2P Require Import Nettypes.
From S2P Require Import Heap.
From S2P Require Import Nl.

Local Open Scope string_scope.
Local Open Scope list_scope.
Local Open Scope Z_scope.

(** ** Attributes *)

(** The types of attributes, by their names in the kernel headers; actions have their order. *)
Inductive attr_type :=
| IFLA_IFNAME | IFLA_LINKINFO | IFLA_INFO_KIND | IFLA_INFO_DATA | IFLA_LINK | IFLA_MASTER | IFLA_MTU
| IFLA_VLAN_ID
| IFLA_VXLAN_LINK | IFLA_VXLAN_ID | IFLA_VXLAN_PORT | IFLA_VXLAN_LEARNING | IFLA_VXLAN_COLLECT_METADATA
| IFLA_VXLAN_GROUP | IFLA_VXLAN_GROUP6
| IFLA_GENEVE_PORT | IFLA_GENEVE_COLLECT_METADATA
| VETH_INFO_PEER
| NDA_LLADDR | NDA_DST | IFA_LOCAL
| TCA_KIND | TCA_CHAIN | TCA_OPTIONS | TCA_FLOWER_ACT | TCA_FW_ACT
| TCA_ACT_KIND | TCA_ACT_OPTIONS | TCA_ORDER (n : Z)
| TCA_MIRRED_PARMS | TCA_GACT_PARMS
| TCA_TUNNEL_KEY_ENC_KEY_ID | TCA_TUNNEL_KEY_ENC_IPV4_SRC | TCA_TUNNEL_KEY_ENC_IPV4_DST
| TCA_TUNNEL_KEY_ENC_IPV6_SRC | TCA_TUNNEL_KEY_ENC_IPV6_DST | TCA_TUNNEL_KEY_PARMS
| TCA_POLICE_TBF | TCA_POLICE_RESULT | TCA_POLICE_RATE | TCA_POLICE_PEAKRATE
| TCA_SKBEDIT_PARMS | TCA_SKBEDIT_MARK
| TCA_FLOWER_KEY_ETH_TYPE | TCA_FLOWER_KEY_ENC_KEY_ID
| TCA_FLOWER_KEY_ETH_SRC | TCA_FLOWER_KEY_ETH_SRC_MASK | TCA_FLOWER_KEY_ETH_DST | TCA_FLOWER_KEY_ETH_DST_MASK
| TCA_FLOWER_KEY_IPV4_SRC | TCA_FLOWER_KEY_IPV4_SRC_MASK | TCA_FLOWER_KEY_IPV4_DST | TCA_FLOWER_KEY_IPV4_DST_MASK
| TCA_FLOWER_KEY_IPV6_SRC | TCA_FLOWER_KEY_IPV6_SRC_MASK | TCA_FLOWER_KEY_IPV6_DST | TCA_FLOWER_KEY_IPV6_DST_MASK
| TCA_FLOWER_KEY_ENC_IPV4_SRC | TCA_FLOWER_KEY_ENC_IPV4_SRC_MASK
| TCA_FLOWER_KEY_ENC_IPV4_DST | TCA_FLOWER_KEY_ENC_IPV4_DST_MASK
| TCA_FLOWER_KEY_ENC_IPV6_SRC | TCA_FLOWER_KEY_ENC_IPV6_SRC_MASK
| TCA_FLOWER_KEY_ENC_IPV6_DST | TCA_FLOWER_KEY_ENC_IPV6_DST_MASK.
#[global] Instance attr_type_eq_dec : EqDecision attr_type.
Proof. solve_decision. Defined.

(** The verdicts of actions; a jump to a chain carries its number. *)
Inductive tc_verdict := V_PIPE | V_STOLEN | V_SHOT | V_UNSPEC | V_GOTO (chain : Z).
#[global] Instance tc_verdict_eq_dec : EqDecision tc_verdict.
Proof. solve_decision. Defined.

(** [struct tc_ratespec] and [struct tc_police], without the members that are zero. *)
Record tc_ratespec := RateSpec { r_rate : Z; cell_log : Z; cell_align : Z }.
Record tc_police := Police {
  p_rate : tc_ratespec; p_burst : Z; p_peakrate : tc_ratespec; p_mtu : Z; p_action : Z; p_index : Z }.

(** [struct ifinfomsg] *)
Record ifinfomsg := IfInfo { ifi_index : Z; ifi_flags : Z; ifi_change : Z }.

(** What is in an attribute. *)
Inductive payload :=
| U8 (n : Z) | U16 (n : Z) | U32 (n : Z)
| Str (s : string) (** without a NUL *)
| Strz (s : string)
| Bytes (l : list Z)
| P_mirred (action : tc_verdict) (eaction : tc_eaction) (ifindex : Z)
| P_gact (action : tc_verdict)
| P_tunnel_key (action : tc_verdict)
| P_police (p : tc_police)
| P_skbedit (index : Z) (action : tc_verdict)
| P_prio (bands : Z).

(** The peer of a veth pair has a header of its own inside its nest. *)
Inductive nlattr :=
| Attr (t : attr_type) (p : payload)
| NestAttr (t : attr_type) (header : option ifinfomsg) (l : list nlattr).

(** ** The library *)

Class Mnl := {
  nlbuf : Type;
  nlnest : Type;
  mnl_nlmsg_put_header : nlbuf;
  mnl_attr_put : attr_type → payload → nlbuf → nlbuf;
  mnl_attr_nest_start : attr_type → nlbuf → nlbuf * nlnest;
  mnl_attr_nest_end : nlnest → nlbuf → nlbuf;
  (** Writes a struct behind the message and adds its size to [nlmsg_len]. *)
  nlmsg_append : ifinfomsg → nlbuf → nlbuf;
  (** The bytes of a buffer that are left for attributes. *)
  nl_room : Z;
  (** The attributes the receiver finds. *)
  nl_attrs : nlbuf → list nlattr }.

Section mnl.
Context `{Mnl}.

(** A nest: whatever [f] puts is inside. *)
Definition nested (t : attr_type) (f : nlbuf → nlbuf) (m : nlbuf) : nlbuf :=
  let '(m, p) := mnl_attr_nest_start t m in mnl_attr_nest_end p (f m).

(** Puts a list of attributes. *)
Fixpoint put_attr (a : nlattr) (m : nlbuf) : nlbuf :=
  match a with
  | Attr t p => mnl_attr_put t p m
  | NestAttr t h l =>
      nested t (λ m, foldl (λ m a, put_attr a m) (match h with Some h => nlmsg_append h m | None => m end) l) m
  end.
Definition put_attrs (l : list nlattr) (m : nlbuf) : nlbuf := foldl (λ m a, put_attr a m) m l.
End mnl.

(** What an attribute takes: a header of four bytes, and the payload in whole words. *)
Definition payload_size (p : payload) : Z :=
  match p with
  | U8 _ => 1 | U16 _ => 2 | U32 _ => 4
  | Str s => Z.of_nat (String.length s)
  | Strz s => Z.of_nat (String.length s) + 1
  | Bytes l => Z.of_nat (length l)
  | P_mirred _ _ _ => 28 | P_gact _ => 20 | P_tunnel_key _ => 24
  | P_police _ => 56 | P_skbedit _ _ => 20 | P_prio _ => 20
  end.
Fixpoint attr_size (a : nlattr) : Z :=
  match a with
  | Attr _ p => 4 + (payload_size p + 3) / 4 * 4
  | NestAttr _ h l => 4 + (if h then 16 else 0) + foldr (λ a n, attr_size a + n) 0 l
  end.
Definition attrs_size (l : list nlattr) : Z := foldr (λ a n, attr_size a + n) 0 l.

(** The calls do not know how long the buffer is: what they put is found only if it fits. *)
Class MnlLaws (L : Mnl) : Prop := {
  nl_attrs_put l : attrs_size l ≤ nl_room → nl_attrs (put_attrs l mnl_nlmsg_put_header) = l;
  (** Closing a nest sets its length, to the end of the message: twice is as good as once. *)
  nest_end_twice p m : mnl_attr_nest_end p (mnl_attr_nest_end p m) = mnl_attr_nest_end p m }.

(** ** Messages *)

Inductive nlmsg_type_t :=
| RTM_NEWLINK | RTM_DELLINK | RTM_GETLINK | RTM_NEWNEIGH | RTM_DELNEIGH | RTM_NEWADDR
| RTM_NEWQDISC | RTM_DELQDISC | RTM_NEWTFILTER | RTM_DELTFILTER.
Definition NLM_F_REQUEST : Z := 0x1.
Definition NLM_F_ACK : Z := 0x4.
Definition NLM_F_REPLACE : Z := 0x100.
Definition NLM_F_EXCL : Z := 0x200.
Definition NLM_F_CREATE : Z := 0x400.
Definition NLM_F_APPEND : Z := 0x800.
Definition IFF_UP : Z := 1.
Definition TC_H_INGRESS : Z := 0xFFFFFFF1.
Definition TC_H_ROOT : Z := 0xFFFFFFFF.

(** The header after the netlink header; members that are always the same are left out. *)
Inductive extra_header :=
| H_ifinfo (h : ifinfomsg)
| H_nd (ndm_ifindex : Z)
| H_ifaddr (family : lsdn_ipv) (ifa_prefixlen ifa_index : Z)
| H_tc (tcm_ifindex tcm_handle tcm_parent tcm_info : Z).

Record nlmsghdr `{Mnl} := NlMsg {
  nlmsg_type : nlmsg_type_t; nlmsg_flags : Z; nlmsg_extra : extra_header; nlmsg_body : nlbuf }.

Arguments NlMsg {_}.

(** Host order is little endian. *)
Definition htons (x : Z) : Z := Z.lor (Z.shiftl (Z.land x 0xff) 8) (Z.land (Z.shiftr x 8) 0xff).
Definition htonl (x : Z) : Z :=
  Z.lor (Z.shiftl (htons (Z.land x 0xffff)) 16) (htons (Z.land (Z.shiftr x 16) 0xffff)).
Definition TC_H_MAKE (maj min : Z) : Z := Z.lor (Z.land maj 0xFFFF0000) (Z.land min 0x0000FFFF).
Definition filter_info (prio : Z) : Z := TC_H_MAKE (Z.shiftl prio 16) (Z.shiftl ETH_P_ALL 8).

Section messages.
Context `{Mnl}.

Definition put_u8 (t : attr_type) (n : Z) : nlbuf → nlbuf := mnl_attr_put t (U8 (u8 n)).
Definition put_u16 (t : attr_type) (n : Z) : nlbuf → nlbuf := mnl_attr_put t (U16 (u16 n)).
Definition put_u32 (t : attr_type) (n : Z) : nlbuf → nlbuf := mnl_attr_put t (U32 (u32 n)).
Definition put_strz (t : attr_type) (s : string) : nlbuf → nlbuf := mnl_attr_put t (Strz s).
Definition put_bytes (t : attr_type) (n : nat) (l : list Z) : nlbuf → nlbuf := mnl_attr_put t (Bytes (take n l)).

(** *** Links *)

(** [link_create_header]: the message with the nest of the link information still open. *)
Definition link_create_header (if_name if_type : string) : nlbuf * nlnest :=
  let m := put_strz IFLA_IFNAME if_name mnl_nlmsg_put_header in
  let '(m, linkinfo) := mnl_attr_nest_start IFLA_LINKINFO m in
  (put_strz IFLA_INFO_KIND if_type m, linkinfo).
Definition create_flags : Z := Z.lor (Z.lor (Z.lor NLM_F_CREATE NLM_F_REQUEST) NLM_F_ACK) NLM_F_EXCL.
(** The message that [link_create_send] sends: it closes the nest (again). *)
Definition link_message (m : nlbuf) (linkinfo : nlnest) : nlmsghdr :=
  NlMsg RTM_NEWLINK create_flags (H_ifinfo (IfInfo 0 0 0)) (mnl_attr_nest_end linkinfo m).

Definition link_dummy_message (if_name : string) : nlmsghdr :=
  let '(m, linkinfo) := link_create_header if_name "dummy" in link_message m linkinfo.
Definition link_bridge_message (if_name : string) : nlmsghdr :=
  let '(m, linkinfo) := link_create_header if_name "bridge" in link_message m linkinfo.

Definition link_vlan_message (vlan_name : string) (ifindex vlanid : Z) : nlmsghdr :=
  let m := put_strz IFLA_IFNAME vlan_name (put_u32 IFLA_LINK ifindex mnl_nlmsg_put_header) in
  let '(m, linkinfo) := mnl_attr_nest_start IFLA_LINKINFO m in
  let m := put_strz IFLA_INFO_KIND "vlan" m in
  let m := nested IFLA_INFO_DATA (put_u16 IFLA_VLAN_ID vlanid) m in
  let m := mnl_attr_nest_end linkinfo m in
  link_message m linkinfo.

(** The group of a vxlan link: IPv4 addresses as numbers in network order. *)
Definition put_group (group : option lsdn_ip_t) : nlbuf → nlbuf :=
  match group with
  | Some (Ip LSDN_IPv4 b) => put_u32 IFLA_VXLAN_GROUP (htonl (lsdn_ip4_u32 b))
  | Some (Ip LSDN_IPv6 b) => put_bytes IFLA_VXLAN_GROUP6 LSDN_IPv6_LEN b
  | None => λ m, m
  end.
Definition link_vxlan_message (vxlan_name : string) (link : option Z) (ifindex vxlanid port : Z)
    (learning collect_metadata : bool) (group : option lsdn_ip_t) : nlmsghdr :=
  let m := match link with Some i => put_u32 IFLA_LINK i mnl_nlmsg_put_header | None => mnl_nlmsg_put_header end in
  let m := put_strz IFLA_IFNAME vxlan_name m in
  let '(m, linkinfo) := mnl_attr_nest_start IFLA_LINKINFO m in
  let m := put_strz IFLA_INFO_KIND "vxlan" m in
  let m := nested IFLA_INFO_DATA (λ m,
             let m := put_u32 IFLA_VXLAN_LINK ifindex m in
             let m := put_u32 IFLA_VXLAN_ID vxlanid m in
             let m := put_u16 IFLA_VXLAN_PORT (htons port) m in
             let m := put_u8 IFLA_VXLAN_LEARNING (Z.b2z learning) m in
             let m := put_u8 IFLA_VXLAN_COLLECT_METADATA (Z.b2z collect_metadata) m in
             put_group group m) m in
  let m := mnl_attr_nest_end linkinfo m in
  link_message m linkinfo.

Definition link_geneve_message (new_if : string) (port : option Z) (collect_metadata : bool) : nlmsghdr :=
  let m := put_strz IFLA_IFNAME new_if mnl_nlmsg_put_header in
  let '(m, linkinfo) := mnl_attr_nest_start IFLA_LINKINFO m in
  let m := put_strz IFLA_INFO_KIND "geneve" m in
  let m := nested IFLA_INFO_DATA (λ m,
             let m := match port with Some p => put_u16 IFLA_GENEVE_PORT (htons p) m | None => m end in
             if collect_metadata then put_bytes IFLA_GENEVE_COLLECT_METADATA 0 [] m else m) m in
  let m := mnl_attr_nest_end linkinfo m in
  link_message m linkinfo.

Definition link_veth_message (if_name1 if_name2 : string) : nlmsghdr :=
  let '(m, linkinfo) := link_create_header if_name1 "veth" in
  let m := nested IFLA_INFO_DATA (nested VETH_INFO_PEER (λ m,
             let m := nlmsg_append (IfInfo 0 0 0) m in
             let m := put_strz IFLA_IFNAME if_name2 m in
             nested IFLA_LINKINFO (put_strz IFLA_INFO_KIND "veth") m)) m in
  link_message m linkinfo.

Definition ack_flags : Z := Z.lor NLM_F_REQUEST NLM_F_ACK.
Definition link_set_master_message (master slave : Z) : nlmsghdr :=
  NlMsg RTM_NEWLINK ack_flags (H_ifinfo (IfInfo slave 0 0)) (put_u32 IFLA_MASTER master mnl_nlmsg_put_header).
Definition link_set_message (ifindex : Z) (up : bool) : nlmsghdr :=
  NlMsg RTM_NEWLINK ack_flags (H_ifinfo (IfInfo ifindex (if up then IFF_UP else 0) IFF_UP)) mnl_nlmsg_put_header.
Definition link_delete_message (ifindex : Z) : nlmsghdr :=
  NlMsg RTM_DELLINK ack_flags (H_ifinfo (IfInfo ifindex 0 0)) mnl_nlmsg_put_header.

Definition fdb_set_keys (mac : lsdn_mac_t) (ip : lsdn_ip_t) (m : nlbuf) : nlbuf :=
  put_bytes NDA_DST (ip_len (v ip)) (ip_bytes ip) (put_bytes NDA_LLADDR LSDN_MAC_LEN mac m).
Definition fdb_add_message (ifindex : Z) (mac : lsdn_mac_t) (ip : lsdn_ip_t) : nlmsghdr :=
  NlMsg RTM_NEWNEIGH (Z.lor (Z.lor (Z.lor NLM_F_REQUEST NLM_F_CREATE) NLM_F_APPEND) NLM_F_ACK) (H_nd ifindex)
    (fdb_set_keys mac ip mnl_nlmsg_put_header).
Definition fdb_remove_message (ifindex : Z) (mac : lsdn_mac_t) (ip : lsdn_ip_t) : nlmsghdr :=
  NlMsg RTM_DELNEIGH ack_flags (H_nd ifindex) (fdb_set_keys mac ip mnl_nlmsg_put_header).

Definition link_set_ip_message (ifindex : Z) (ip : lsdn_ip_t) : nlmsghdr :=
  NlMsg RTM_NEWADDR (Z.lor (Z.lor NLM_F_REPLACE NLM_F_REQUEST) NLM_F_ACK) (H_ifaddr (v ip) 24 ifindex)
    (put_bytes IFA_LOCAL (ip_len (v ip)) (ip_bytes ip) mnl_nlmsg_put_header).

(** *** Qdiscs *)

Definition qdisc_flags : Z := Z.lor (Z.lor NLM_F_CREATE NLM_F_REQUEST) NLM_F_ACK.
Definition qdisc_ingress_message (ifindex : Z) : nlmsghdr :=
  NlMsg RTM_NEWQDISC qdisc_flags (H_tc ifindex LSDN_INGRESS_HANDLE TC_H_INGRESS 0)
    (put_strz TCA_KIND "ingress" mnl_nlmsg_put_header).
Definition qdisc_egress_message (ifindex : Z) : nlmsghdr :=
  NlMsg RTM_NEWQDISC qdisc_flags (H_tc ifindex LSDN_ROOT_HANDLE TC_H_ROOT 0)
    (mnl_attr_put TCA_OPTIONS (P_prio 2) (put_strz TCA_KIND "prio" mnl_nlmsg_put_header)).
Definition qdisc_egress_delete_message (ifindex : Z) : nlmsghdr :=
  NlMsg RTM_DELQDISC ack_flags (H_tc ifindex LSDN_ROOT_HANDLE TC_H_ROOT 0) mnl_nlmsg_put_header.
Definition qdisc_ingress_delete_message (ifindex : Z) : nlmsghdr :=
  NlMsg RTM_DELQDISC ack_flags (H_tc ifindex LSDN_INGRESS_HANDLE TC_H_INGRESS 0) mnl_nlmsg_put_header.

(** *** Actions *)

Definition verdict_of (a : tc_act) : tc_verdict := match a with TC_ACT_STOLEN => V_STOLEN | TC_ACT_PIPE => V_PIPE end.

(** An action: its kind and its options in a nest of its order. *)
Definition action_of (put_kind options : nlbuf → nlbuf) (order : Z) (m : nlbuf) : nlbuf :=
  nested (TCA_ORDER (u16 order)) (λ m, nested TCA_ACT_OPTIONS options (put_kind m)) m.

Definition action_mirred_add (order : Z) (action : tc_act) (eaction : tc_eaction) (ifindex : Z) : nlbuf → nlbuf :=
  action_of (mnl_attr_put TCA_ACT_KIND (Str "mirred"))
    (mnl_attr_put TCA_MIRRED_PARMS (P_mirred (verdict_of action) eaction (u32 ifindex))) order.

Definition put_tunnel_ips (ipv6 : bool) (src dst : lsdn_ip_t) (m : nlbuf) : nlbuf :=
  if ipv6 then
    put_bytes TCA_TUNNEL_KEY_ENC_IPV6_DST LSDN_IPv6_LEN (ip_bytes dst)
      (put_bytes TCA_TUNNEL_KEY_ENC_IPV6_SRC LSDN_IPv6_LEN (ip_bytes src) m)
  else
    put_u32 TCA_TUNNEL_KEY_ENC_IPV4_DST (htonl (lsdn_ip4_u32 (ip_bytes dst)))
      (put_u32 TCA_TUNNEL_KEY_ENC_IPV4_SRC (htonl (lsdn_ip4_u32 (ip_bytes src))) m).
Definition action_tunnel_key_add (order vni : Z) (ipv6 : bool) (src dst : lsdn_ip_t) : nlbuf → nlbuf :=
  action_of (put_strz TCA_ACT_KIND "tunnel_key") (λ m,
    let m := put_u32 TCA_TUNNEL_KEY_ENC_KEY_ID (htonl vni) m in
    let m := put_tunnel_ips ipv6 src dst m in
    mnl_attr_put TCA_TUNNEL_KEY_PARMS (P_tunnel_key V_PIPE) m) order.

Definition action_gact_add (order : Z) (verdict : tc_verdict) : nlbuf → nlbuf :=
  action_of (put_strz TCA_ACT_KIND "gact") (mnl_attr_put TCA_GACT_PARMS (P_gact verdict)) order.
Definition action_skbmark_add (order index mark : Z) : nlbuf → nlbuf :=
  action_of (put_strz TCA_ACT_KIND "skbedit") (λ m,
    put_u32 TCA_SKBEDIT_MARK mark (mnl_attr_put TCA_SKBEDIT_PARMS (P_skbedit (u32 index) V_PIPE) m)) order.

(** [finish_rate]: [fuel] bounds the rounds of the loop. *)
Fixpoint finish_cell_log (fuel : nat) (mtu cell_log : Z) : Z :=
  match fuel with
  | O => cell_log
  | S fuel => if 255 <? Z.shiftr mtu cell_log then finish_cell_log fuel mtu (cell_log + 1) else cell_log
  end.
Definition finish_rate (rate mtu : Z) : tc_ratespec := RateSpec rate (finish_cell_log 32 mtu 0) (-1).

(** [xmittime] in ticks, in double precision; the infinity or NaN of a rate of zero, and a time
    beyond 32 bits, have no defined value as an integer. *)
Definition xmittime (tick_per_sec : double) (rate size : Z) : option Z :=
  let time := f64_div (f64_of_Z size) (f64_of_Z rate) in
  to_u32 (f64_mul tick_per_sec time).

(** The rate table has no meaning any more. *)
Definition vestigial_rtab : list Z := replicate 1024 0.
(** The values of [TC_ACT_PIPE] and [TC_ACT_SHOT], which [rates_action] passes. *)
Definition GACT_PIPE : Z := 3.
Definition GACT_SHOT : Z := 2.
Definition action_police_add (tick_per_sec : double) (order avg_rate burst peakrate mtu gact_conforming gact_overlimit : Z)
    : option (nlbuf → nlbuf) :=
  match xmittime tick_per_sec avg_rate burst with
  | None => None
  | Some t =>
      let p := Police (finish_rate avg_rate mtu) t (finish_rate peakrate mtu) mtu gact_overlimit 0 in
      Some (action_of (put_strz TCA_ACT_KIND "police") (λ m,
        let m := mnl_attr_put TCA_POLICE_TBF (P_police p) m in
        let m := put_u32 TCA_POLICE_RESULT gact_conforming m in
        let m := mnl_attr_put TCA_POLICE_RATE (Bytes vestigial_rtab) m in
        if peakrate =? 0 then m else mnl_attr_put TCA_POLICE_PEAKRATE (Bytes vestigial_rtab) m) order)
  end.

(** One of the actions of a filter; without a defined value there is no message. *)
Definition put_action (tick_per_sec : double) (a : Z * tc_action) : option (nlbuf → nlbuf) :=
  let order := a.1 in
  match a.2 with
  | TcDrop => Some (action_gact_add order V_SHOT)
  | TcContinue => Some (action_gact_add order V_UNSPEC)
  | TcGotoChain chain => Some (action_gact_add order (V_GOTO chain))
  | TcPolice avg burst peak mtu => action_police_add tick_per_sec order avg burst peak mtu GACT_PIPE GACT_SHOT
  | TcTunnelKey vni ipv6 src dst => Some (action_tunnel_key_add order vni ipv6 src dst)
  | TcMirred action eaction ifindex => Some (action_mirred_add order action eaction ifindex)
  | TcSkbMark index mark => Some (action_skbmark_add order index mark)
  end.
Fixpoint put_actions (tick_per_sec : double) (l : list (Z * tc_action)) (m : nlbuf) : option nlbuf :=
  match l with
  | [] => Some m
  | a :: l => match put_action tick_per_sec a with Some f => put_actions tick_per_sec l (f m) | None => None end
  end.

(** *** Filters *)

(** The attributes of a match and its mask, and how long they are. *)
Definition key_attrs (t : lsdn_rule_target) : option (attr_type * attr_type * nat) :=
  match t with
  | LSDN_MATCH_SRC_MAC => Some (TCA_FLOWER_KEY_ETH_SRC, TCA_FLOWER_KEY_ETH_SRC_MASK, 6%nat)
  | LSDN_MATCH_DST_MAC => Some (TCA_FLOWER_KEY_ETH_DST, TCA_FLOWER_KEY_ETH_DST_MASK, 6%nat)
  | LSDN_MATCH_SRC_IPV4 => Some (TCA_FLOWER_KEY_IPV4_SRC, TCA_FLOWER_KEY_IPV4_SRC_MASK, 4%nat)
  | LSDN_MATCH_DST_IPV4 => Some (TCA_FLOWER_KEY_IPV4_DST, TCA_FLOWER_KEY_IPV4_DST_MASK, 4%nat)
  | LSDN_MATCH_SRC_IPV6 => Some (TCA_FLOWER_KEY_IPV6_SRC, TCA_FLOWER_KEY_IPV6_SRC_MASK, 16%nat)
  | LSDN_MATCH_DST_IPV6 => Some (TCA_FLOWER_KEY_IPV6_DST, TCA_FLOWER_KEY_IPV6_DST_MASK, 16%nat)
  | LSDN_MATCH_ENC_KEY_SRC_IPV4 => Some (TCA_FLOWER_KEY_ENC_IPV4_SRC, TCA_FLOWER_KEY_ENC_IPV4_SRC_MASK, 4%nat)
  | LSDN_MATCH_ENC_KEY_DST_IPV4 => Some (TCA_FLOWER_KEY_ENC_IPV4_DST, TCA_FLOWER_KEY_ENC_IPV4_DST_MASK, 4%nat)
  | LSDN_MATCH_ENC_KEY_SRC_IPV6 => Some (TCA_FLOWER_KEY_ENC_IPV6_SRC, TCA_FLOWER_KEY_ENC_IPV6_SRC_MASK, 16%nat)
  | LSDN_MATCH_ENC_KEY_DST_IPV6 => Some (TCA_FLOWER_KEY_ENC_IPV6_DST, TCA_FLOWER_KEY_ENC_IPV6_DST_MASK, 16%nat)
  | LSDN_MATCH_NONE | LSDN_MATCH_ENC_KEY_ID => None
  end.
(** A number of 32 bits from its bytes in memory. *)
Definition le32 (b : list Z) : Z :=
  match b with
  | [b0; b1; b2; b3] => Z.lor (Z.lor (Z.lor b0 (Z.shiftl b1 8)) (Z.shiftl b2 16)) (Z.shiftl b3 24)
  | _ => 0
  end.
(** The [lsdn_flower_set_] functions; rules.c swaps the type, and the key is swapped here. *)
Definition put_opt (o : flower_opt) (m : nlbuf) : nlbuf :=
  match o with
  | FlEthType t => put_u16 TCA_FLOWER_KEY_ETH_TYPE (htons t) m
  | FlEncKeyId key_id => put_u32 TCA_FLOWER_KEY_ENC_KEY_ID (htonl (le32 key_id)) m
  | FlKey t value mask =>
      match key_attrs t with
      | Some (key, key_mask, n) => put_bytes key_mask n mask (put_bytes key n value m)
      | None => m
      end
  end.

Definition kind_name (k : filter_kind) : string := match k with FilterFlower => "flower" | FilterFw => "fw" end.
Definition acts_attr (k : filter_kind) : attr_type := match k with FilterFlower => TCA_FLOWER_ACT | FilterFw => TCA_FW_ACT end.

(** [filter_init]: the options are open. *)
Definition filter_start (kind : filter_kind) (chain : Z) : nlbuf * nlnest :=
  mnl_attr_nest_start TCA_OPTIONS (put_u32 TCA_CHAIN chain (put_strz TCA_KIND (kind_name kind) mnl_nlmsg_put_header)).
Definition filter_create_flags (update : bool) : Z :=
  let flags := Z.lor (Z.lor NLM_F_REQUEST NLM_F_CREATE) NLM_F_ACK in
  if update then flags else Z.lor flags NLM_F_EXCL.
(** The options, the actions between [actions_start] and [actions_end], and [lsdn_filter_create]. *)
Definition filter_message (tick_per_sec : double) (f : lsdn_filter) : option nlmsghdr :=
  let '(m, nested_opts) := filter_start (f_kind f) (f_chain f) in
  let m := foldl (λ m o, put_opt o m) m (f_opts f) in
  let '(m, nested_acts) := mnl_attr_nest_start (acts_attr (f_kind f)) m in
  match put_actions tick_per_sec (f_acts f) m with
  | None => None
  | Some m =>
      let m := mnl_attr_nest_end nested_acts m in
      Some (NlMsg RTM_NEWTFILTER (filter_create_flags (f_update f))
              (H_tc (f_ifindex f) (f_handle f) (f_parent f) (filter_info (f_prio f))) (mnl_attr_nest_end nested_opts m))
  end.
Definition filter_delete_message (ifindex handle parent chain prio : Z) : nlmsghdr :=
  NlMsg RTM_DELTFILTER ack_flags (H_tc ifindex handle parent (filter_info prio))
    (put_u32 TCA_CHAIN chain mnl_nlmsg_put_header).

(** ** The message of a request *)

Definition link_create_message (name : string) (kind : link_kind) : nlmsghdr :=
  match kind with
  | LinkDummy => link_dummy_message name
  | LinkBridge => link_bridge_message name
  | LinkVlan link vlanid => link_vlan_message name link vlanid
  | LinkVxlan link vxlan_link vxlanid port learning collect group =>
      link_vxlan_message name link vxlan_link vxlanid port learning collect group
  | LinkGeneve port collect => link_geneve_message name port collect
  | LinkVeth peer => link_veth_message name peer
  end.
Definition message (tick_per_sec : double) (r : request) : option nlmsghdr :=
  match r with
  | ReqFilterCreate f => filter_message tick_per_sec f
  | ReqFilterDelete ifindex handle parent chain prio => Some (filter_delete_message ifindex handle parent chain prio)
  | ReqQdiscCreate ingress ifindex =>
      Some (if ingress then qdisc_ingress_message ifindex else qdisc_egress_message ifindex)
  | ReqQdiscDelete ingress ifindex =>
      Some (if ingress then qdisc_ingress_delete_message ifindex else qdisc_egress_delete_message ifindex)
  | ReqLinkCreate name kind => Some (link_create_message name kind)
  | ReqLinkDelete ifindex => Some (link_delete_message ifindex)
  | ReqLinkMaster master slave => Some (link_set_master_message master slave)
  | ReqLinkSet ifindex up => Some (link_set_message ifindex up)
  | ReqFdbAdd ifindex mac ip => Some (fdb_add_message ifindex mac ip)
  | ReqFdbRemove ifindex mac ip => Some (fdb_remove_message ifindex mac ip)
  | ReqAddrSet ifindex ip => Some (link_set_ip_message ifindex ip)
  end.
End messages.

(** ** Answers *)

(** A message that was received: its type, the error it carries, and whether it has extended
    attributes, with those that are the text of the kernel (None for one that is no string). *)
Inductive nl_answer :=
| NLMSG_ERROR (error : Z) (has_extack : bool) (msgs : list (option string))
| NLMSG_OTHER.

(** The text of an error: the last one before a malformed attribute. *)
Fixpoint extack_msg (msgs : list (option string)) (msg : option string) : option string :=
  match msgs with
  | [] => msg
  | None :: _ => msg
  | Some m :: msgs => extack_msg msgs (Some m)
  end.
(** What is written to the log by [report_nl_error]. *)
Definition process_response (a : nl_answer) (ignore_err : bool) : lsdn_err_t * list (Z * option string) :=
  match a with
  | NLMSG_ERROR error has_extack msgs =>
      if negb (error =? 0) then
        let msg := if has_extack then extack_msg msgs None else None in
        (LSDNE_NETLINK, if ignore_err then [] else [(error, msg)])
      else (LSDNE_OK, [])
  | NLMSG_OTHER => (LSDNE_NETLINK, [])
  end.
(** [send_await_response]; [sent] and the answer are what the socket gives. *)
Definition await_response (sent : bool) (answer : option nl_answer) (ignore_err : bool)
    : lsdn_err_t * list (Z * option string) :=
  if sent then match answer with Some a => process_response a ignore_err | None => (LSDNE_NETLINK, []) end
  else (LSDNE_NETLINK, []).

(** [lsdn_socket_init]: the options of the socket are not essential. *)
Definition lsdn_socket_init (opened bound ext_ack cap_ack : bool) : bool * list string :=
  if negb opened then (false, []) else
  if negb bound then (false, []) else
  (true, (if ext_ack then [] else ["Extended messages not available"]) ++
         (if cap_ack then [] else ["CAP_ACK not available"])).

(** [lsdn_link_get_mtu]: the answer has the index of a link and its attributes. *)
Fixpoint find_mtu (l : list nlattr) : lsdn_err_t * option Z :=
  match l with
  | [] => (LSDNE_NOIF, None)
  | Attr IFLA_MTU (U32 mtu) :: _ => (LSDNE_OK, Some mtu)
  | Attr IFLA_MTU _ :: _ | NestAttr IFLA_MTU _ _ :: _ => (LSDNE_NETLINK, None)
  | _ :: l => find_mtu l
  end.
Definition lsdn_link_get_mtu (sent : bool) (answer : option (Z * list nlattr)) (ifindex : Z)
    : M unit (lsdn_err_t * option Z) :=
  if negb sent then mret (LSDNE_NETLINK, None) else
  match answer with
  | None => mret (LSDNE_NETLINK, None)
  | Some (index, l) => _ ← assert_ (index =? ifindex); mret (find_mtu l)
  end.

(** [tc_core_init]: the three numbers of /proc/net/psched, if they can be read. *)
Definition tc_core_init (psched : option (Z * Z * Z)) : M unit double :=
  match psched with
  | None => fail Aborted
  | Some (t2us, us2t, clock_res) =>
      let t2us := if clock_res =? 1000000000 then us2t else t2us in
      let clock_factor := f64_of_Z clock_res in
      mret (f64_mul (f64_div (f64_of_Z t2us) (f64_of_Z us2t)) clock_factor)
  end.
