(* ===== verification/NetlinkSpec.v ===== *)
(** * What a netlink message means

    The messages of [Netlink] as a receiver reads them: [decode] finds the request in a
    message, and the theorem says that nothing of a request is lost or changed on the way,
    except that the burst of a policer is counted in ticks. An instance of the interface
    [Mnl] shows that its laws can hold. *)

From Stdlib Require Import ZArith Lia.
From stdpp Require Import base list gmap strings.
From S2P Require Import Prelude.
From S2P Require Import Float.
From S2P Require Import Status.
From S2P Require Import Nettypes.
From S2P Require Import Heap.
From S2P Require Import Nl.
From S2P Require Import Netlink.

Local Open Scope string_scope.
Local Open Scope list_scope.
Local Open Scope Z_scope.

(** ** The attributes of a request *)

Definition opt_attrs (o : flower_opt) : list nlattr :=
  match o with
  | FlEthType t => [Attr TCA_FLOWER_KEY_ETH_TYPE (U16 (u16 (htons t)))]
  | FlEncKeyId key_id => [Attr TCA_FLOWER_KEY_ENC_KEY_ID (U32 (u32 (htonl (le32 key_id))))]
  | FlKey t value mask =>
      match key_attrs t with
      | Some (key, key_mask, n) => [Attr key (Bytes (take n value)); Attr key_mask (Bytes (take n mask))]
      | None => []
      end
  end.

Definition action_attr (order : Z) (kind : payload) (options : list nlattr) : nlattr :=
  NestAttr (TCA_ORDER (u16 order)) None [Attr TCA_ACT_KIND kind; NestAttr TCA_ACT_OPTIONS None options].
Definition verdict_attr (order : Z) (v : tc_verdict) : nlattr :=
  action_attr order (Strz "gact") [Attr TCA_GACT_PARMS (P_gact v)].
Definition tunnel_ip_attrs (ipv6 : bool) (src dst : lsdn_ip_t) : list nlattr :=
  if ipv6 then [Attr TCA_TUNNEL_KEY_ENC_IPV6_SRC (Bytes (take 16 (ip_bytes src)));
                Attr TCA_TUNNEL_KEY_ENC_IPV6_DST (Bytes (take 16 (ip_bytes dst)))]
  else [Attr TCA_TUNNEL_KEY_ENC_IPV4_SRC (U32 (u32 (htonl (lsdn_ip4_u32 (ip_bytes src)))));
        Attr TCA_TUNNEL_KEY_ENC_IPV4_DST (U32 (u32 (htonl (lsdn_ip4_u32 (ip_bytes dst)))))].
Definition police_attrs (avg ticks peak mtu : Z) : list nlattr :=
  [Attr TCA_POLICE_TBF (P_police (Police (finish_rate avg mtu) ticks (finish_rate peak mtu) mtu GACT_SHOT 0));
   Attr TCA_POLICE_RESULT (U32 GACT_PIPE);
   Attr TCA_POLICE_RATE (Bytes vestigial_rtab)] ++
  (if peak =? 0 then [] else [Attr TCA_POLICE_PEAKRATE (Bytes vestigial_rtab)]).
Definition act_attr (tick_per_sec : double) (a : Z * tc_action) : option nlattr :=
  let order := a.1 in
  match a.2 with
  | TcDrop => Some (verdict_attr order V_SHOT)
  | TcContinue => Some (verdict_attr order V_UNSPEC)
  | TcGotoChain chain => Some (verdict_attr order (V_GOTO chain))
  | TcPolice avg burst peak mtu =>
      (λ t, action_attr order (Strz "police") (police_attrs avg t peak mtu)) <$> xmittime tick_per_sec avg burst
  | TcTunnelKey vni ipv6 src dst =>
      Some (action_attr order (Strz "tunnel_key")
        (Attr TCA_TUNNEL_KEY_ENC_KEY_ID (U32 (u32 (htonl vni))) :: tunnel_ip_attrs ipv6 src dst ++
         [Attr TCA_TUNNEL_KEY_PARMS (P_tunnel_key V_PIPE)]))
  | TcMirred action eaction ifindex =>
      Some (action_attr order (Str "mirred")
        [Attr TCA_MIRRED_PARMS (P_mirred (verdict_of action) eaction (u32 ifindex))])
  | TcSkbMark index mark =>
      Some (action_attr order (Strz "skbedit")
        [Attr TCA_SKBEDIT_PARMS (P_skbedit (u32 index) V_PIPE); Attr TCA_SKBEDIT_MARK (U32 (u32 mark))])
  end.

Definition link_attrs (name kind : string) (data : list nlattr) : list nlattr :=
  [Attr IFLA_IFNAME (Strz name); NestAttr IFLA_LINKINFO None (Attr IFLA_INFO_KIND (Strz kind) :: data)].
Definition group_attrs (group : option lsdn_ip_t) : list nlattr :=
  match group with
  | Some (Ip LSDN_IPv4 b) => [Attr IFLA_VXLAN_GROUP (U32 (u32 (htonl (lsdn_ip4_u32 b))))]
  | Some (Ip LSDN_IPv6 b) => [Attr IFLA_VXLAN_GROUP6 (Bytes (take 16 b))]
  | None => []
  end.
Definition vxlan_attrs (vxlan_link vxlanid port : Z) (learning collect : bool) (group : option lsdn_ip_t) : list nlattr :=
  [Attr IFLA_VXLAN_LINK (U32 (u32 vxlan_link)); Attr IFLA_VXLAN_ID (U32 (u32 vxlanid));
   Attr IFLA_VXLAN_PORT (U16 (u16 (htons port))); Attr IFLA_VXLAN_LEARNING (U8 (u8 (Z.b2z learning)));
   Attr IFLA_VXLAN_COLLECT_METADATA (U8 (u8 (Z.b2z collect)))] ++ group_attrs group.
Definition geneve_attrs (port : option Z) (collect : bool) : list nlattr :=
  from_option (λ p, [Attr IFLA_GENEVE_PORT (U16 (u16 (htons p)))]) [] port ++
  (if collect then [Attr IFLA_GENEVE_COLLECT_METADATA (Bytes [])] else []).
Definition peer_attrs (peer : string) : list nlattr :=
  [NestAttr VETH_INFO_PEER (Some (IfInfo 0 0 0)) (link_attrs peer "veth" [])].
Definition link_create_attrs (name : string) (kind : link_kind) : list nlattr :=
  match kind with
  | LinkDummy => link_attrs name "dummy" []
  | LinkBridge => link_attrs name "bridge" []
  | LinkVlan link vlanid =>
      Attr IFLA_LINK (U32 (u32 link)) ::
      link_attrs name "vlan" [NestAttr IFLA_INFO_DATA None [Attr IFLA_VLAN_ID (U16 (u16 vlanid))]]
  | LinkVxlan link vxlan_link vxlanid port learning collect group =>
      from_option (λ i, [Attr IFLA_LINK (U32 (u32 i))]) [] link ++
      link_attrs name "vxlan"
        [NestAttr IFLA_INFO_DATA None (vxlan_attrs vxlan_link vxlanid port learning collect group)]
  | LinkGeneve port collect => link_attrs name "geneve" [NestAttr IFLA_INFO_DATA None (geneve_attrs port collect)]
  | LinkVeth peer =>
      link_attrs name "veth" [NestAttr IFLA_INFO_DATA None (peer_attrs peer)]
  end.

Definition filter_attrs (tick_per_sec : double) (f : lsdn_filter) : option (list nlattr) :=
  (λ acts, [Attr TCA_KIND (Strz (kind_name (f_kind f))); Attr TCA_CHAIN (U32 (u32 (f_chain f)));
            NestAttr TCA_OPTIONS None
              ((f_opts f ≫= opt_attrs) ++ [NestAttr (acts_attr (f_kind f)) None acts])]) <$>
  mapM (act_attr tick_per_sec) (f_acts f).
Definition fdb_attrs (mac : lsdn_mac_t) (ip : lsdn_ip_t) : list nlattr :=
  [Attr NDA_LLADDR (Bytes (take LSDN_MAC_LEN mac)); Attr NDA_DST (Bytes (take (ip_len (v ip)) (ip_bytes ip)))].
Definition request_attrs (tick_per_sec : double) (r : request) : option (list nlattr) :=
  match r with
  | ReqFilterCreate f => filter_attrs tick_per_sec f
  | ReqFilterDelete _ _ _ chain _ => Some [Attr TCA_CHAIN (U32 (u32 chain))]
  | ReqQdiscCreate true _ => Some [Attr TCA_KIND (Strz "ingress")]
  | ReqQdiscCreate false _ => Some [Attr TCA_KIND (Strz "prio"); Attr TCA_OPTIONS (P_prio 2)]
  | ReqLinkCreate name kind => Some (link_create_attrs name kind)
  | ReqLinkMaster master _ => Some [Attr IFLA_MASTER (U32 (u32 master))]
  | ReqFdbAdd _ mac ip | ReqFdbRemove _ mac ip => Some (fdb_attrs mac ip)
  | ReqAddrSet _ ip => Some [Attr IFA_LOCAL (Bytes (take (ip_len (v ip)) (ip_bytes ip)))]
  | ReqQdiscDelete _ _ | ReqLinkDelete _ | ReqLinkSet _ _ => Some []
  end.

(** ** The code puts these attributes *)

Section emits.
Context `{L : Mnl} {Laws : MnlLaws L}.
Implicit Types f g : nlbuf → nlbuf.

Definition emits f (l : list nlattr) : Prop := ∀ m, f m = put_attrs l m.

Lemma put_attrs_app l k m : put_attrs (l ++ k) m = put_attrs k (put_attrs l m).
Proof. apply foldl_app. Qed.
Lemma emits_put t p : emits (mnl_attr_put t p) [Attr t p].
Proof. done. Qed.
Lemma emits_nil : emits (λ m, m) [].
Proof. done. Qed.
Lemma emits_then f g l k : emits f l → emits g k → emits (λ m, g (f m)) (l ++ k).
Proof. intros Hf Hg m. by rewrite put_attrs_app, Hg, Hf. Qed.
Lemma emits_cons t p g k : emits g k → emits (λ m, g (mnl_attr_put t p m)) (Attr t p :: k).
Proof. intros Hg m. by rewrite Hg. Qed.
Lemma emits_nested t f l : emits f l → emits (nested t f) [NestAttr t None l].
Proof. intros Hf m. cbn. unfold nested. destruct (mnl_attr_nest_start t m). by rewrite Hf. Qed.
Lemma emits_action kind p options l order :
  emits kind [Attr TCA_ACT_KIND p] → emits options l → emits (action_of kind options order) [action_attr order p l].
Proof.
  intros Hk Ho. apply emits_nested, (emits_then _ _ [_] [_]); [done|]. by apply emits_nested.
Qed.

Lemma put_opt_emits o : emits (put_opt o) (opt_attrs o).
Proof.
  destruct o as [t|t value mask|k]; [done| |done]. intros m. cbn. by destruct (key_attrs t) as [[[]]|].
Qed.
Lemma put_opts_emits l : emits (λ m, foldl (λ m o, put_opt o m) m l) (l ≫= opt_attrs).
Proof.
  induction l as [|o l IH]; [done|]. intros m. rewrite bind_cons, put_attrs_app, <-put_opt_emits. apply IH.
Qed.
Lemma put_group_emits group : emits (put_group group) (group_attrs group).
Proof. by destruct group as [[[] b]|]. Qed.
Lemma tunnel_ips_emits ipv6 src dst : emits (put_tunnel_ips ipv6 src dst) (tunnel_ip_attrs ipv6 src dst).
Proof. by destruct ipv6. Qed.

Lemma put_action_emits tick a :
  match put_action tick a, act_attr tick a with
  | Some f, Some l => emits f [l] | None, None => True | _, _ => False end.
Proof.
  destruct a as [order [| |chain|avg burst peak mtu|vni ipv6 src dst|act eact i|i mark]]; cbn;
    try by apply emits_action.
  - unfold action_police_add. destruct (xmittime tick avg burst) as [t|]; [|done]. cbn.
    apply emits_action; [done|]. unfold police_attrs. by destruct (peak =? 0).
  - apply emits_action; [done|]. intros m. cbn zeta beta.
    rewrite tunnel_ips_emits. symmetry.
    exact (put_attrs_app (_ :: tunnel_ip_attrs ipv6 src dst) [Attr TCA_TUNNEL_KEY_PARMS (P_tunnel_key V_PIPE)] m).
Qed.
Lemma put_actions_emits tick l m :
  put_actions tick l m = (λ acts, put_attrs acts m) <$> mapM (act_attr tick) l.
Proof.
  revert m. induction l as [|a l IH]; intros m; [done|]. cbn [put_actions mapM]. pose proof (put_action_emits tick a) as Ha.
  destruct (put_action tick a) as [f|], (act_attr tick a) as [x|]; try done. cbn.
  rewrite IH, Ha. by destruct (mapM _ l).
Qed.
Lemma filter_message_emits tick (f : lsdn_filter) :
  nlmsg_body <$> filter_message tick f = (λ l, put_attrs l mnl_nlmsg_put_header) <$> filter_attrs tick f.
Proof.
  unfold filter_message, filter_attrs, filter_start, put_attrs. destruct (mapM _ _) as [acts|] eqn:Ea; cbn.
  - unfold nested. destruct (mnl_attr_nest_start TCA_OPTIONS _) as [m p]. rewrite foldl_app.
    change (foldl _ m (f_opts f ≫= opt_attrs)) with (put_attrs (f_opts f ≫= opt_attrs) m).
    rewrite <-put_opts_emits. cbn. unfold nested. destruct (mnl_attr_nest_start (acts_attr _) _) as [m' p'].
    by rewrite put_actions_emits, Ea.
  - destruct (mnl_attr_nest_start TCA_OPTIONS _) as [m p].
    destruct (mnl_attr_nest_start (acts_attr _) _) as [m' p']. by rewrite put_actions_emits, Ea.
Qed.

Lemma linkinfo_emits data kind name l k m :
  emits data k →
  (let '(m, p) := mnl_attr_nest_start IFLA_LINKINFO (put_strz IFLA_IFNAME name (put_attrs l m)) in
   mnl_attr_nest_end p (data (put_strz IFLA_INFO_KIND kind m))) = put_attrs (l ++ link_attrs name kind k) m.
Proof.
  intros Hd. rewrite put_attrs_app. generalize (put_attrs l m). clear m. intros m.
  exact (emits_nested _ _ _ (emits_cons IFLA_INFO_KIND (Strz kind) _ _ Hd) (put_strz IFLA_IFNAME name m)).
Qed.
(** With [link_create_header], and without it, where the nest is closed twice. *)
Lemma link_emits data kind name k :
  emits data k →
  nlmsg_body (let '(m, p) := link_create_header name kind in link_message (data m) p) =
  put_attrs (link_attrs name kind k) mnl_nlmsg_put_header.
Proof.
  intros Hd. rewrite <-(linkinfo_emits data kind name [] k) by done. unfold link_create_header. cbn.
  by destruct (mnl_attr_nest_start IFLA_LINKINFO _).
Qed.
Lemma link_closed_emits data kind name l k :
  emits data k →
  nlmsg_body (let '(m, p) := mnl_attr_nest_start IFLA_LINKINFO
                               (put_strz IFLA_IFNAME name (put_attrs l mnl_nlmsg_put_header)) in
              link_message (mnl_attr_nest_end p (data (put_strz IFLA_INFO_KIND kind m))) p) =
  put_attrs (l ++ link_attrs name kind k) mnl_nlmsg_put_header.
Proof.
  intros Hd. rewrite <-(linkinfo_emits data kind name l k) by done.
  destruct (mnl_attr_nest_start IFLA_LINKINFO _). apply nest_end_twice.
Qed.
Lemma link_message_emits name kind :
  nlmsg_body (link_create_message name kind) = put_attrs (link_create_attrs name kind) mnl_nlmsg_put_header.
Proof.
  destruct kind as [| |link id|link vl id port ln co group|port co|peer].
  - exact (link_emits _ "dummy" name _ emits_nil).
  - exact (link_emits _ "bridge" name _ emits_nil).
  - exact (link_closed_emits (nested IFLA_INFO_DATA (put_u16 IFLA_VLAN_ID id)) "vlan" name
             [Attr IFLA_LINK (U32 (u32 link))] _ (emits_nested _ _ _ (emits_put _ _))).
  - set (data := nested IFLA_INFO_DATA (λ m, put_group group
           (put_u8 IFLA_VXLAN_COLLECT_METADATA (Z.b2z co) (put_u8 IFLA_VXLAN_LEARNING (Z.b2z ln)
              (put_u16 IFLA_VXLAN_PORT (htons port) (put_u32 IFLA_VXLAN_ID id (put_u32 IFLA_VXLAN_LINK vl m))))))).
    assert (emits data [NestAttr IFLA_INFO_DATA None (vxlan_attrs vl id port ln co group)]) as Hd.
    { apply emits_nested. intros m. unfold vxlan_attrs. by rewrite put_attrs_app, put_group_emits. }
    destruct link as [i|];
      [exact (link_closed_emits data "vxlan" name [Attr IFLA_LINK (U32 (u32 i))] _ Hd)
      |exact (link_closed_emits data "vxlan" name [] _ Hd)].
  - transitivity (put_attrs ([] ++ link_attrs name "geneve" [NestAttr IFLA_INFO_DATA None (geneve_attrs port co)])
      mnl_nlmsg_put_header); [|done].
    rewrite <-(link_closed_emits _ _ _ _ _ (emits_nested IFLA_INFO_DATA (put_attrs (geneve_attrs port co)) _ (λ _, eq_refl))).
    by destruct port, co.
  - exact (link_emits (nested IFLA_INFO_DATA (put_attrs (peer_attrs peer))) "veth" name _
             (emits_nested _ _ _ (λ m, eq_refl))).
Qed.

(** The attributes of a message are those of its request. *)
Lemma message_emits tick r :
  nlmsg_body <$> message tick r = (λ l, put_attrs l mnl_nlmsg_put_header) <$> request_attrs tick r.
Proof.
  destruct r as [f| |[]|[]|name kind| | | | | |]; try done; cbn -[put_attrs filter_message filter_attrs].
  - apply filter_message_emits.
  - by rewrite link_message_emits.
Qed.
End emits.

(** ** Byte order *)

Lemma lor_shiftl a b n : 0 ≤ n → 0 ≤ a < 2 ^ n → Z.lor a (Z.shiftl b n) = a + b * 2 ^ n.
Proof.
  intros Hn Ha. rewrite <-Z.shiftl_mul_pow2, <-Z.add_lor_land by done.
  enough (Z.land a (Z.shiftl b n) = 0) by lia. apply Z.bits_inj'. intros i Hi.
  rewrite Z.land_spec, Z.bits_0. destruct (Z.lt_ge_cases i n).
  - by rewrite Z.shiftl_spec_low, andb_false_r.
  - rewrite <-(Z.mod_small a (2 ^ n)) by done. by rewrite Z.mod_pow2_bits_high.
Qed.
Lemma lor_shiftl_r a b n : 0 ≤ n → 0 ≤ a < 2 ^ n → Z.lor (Z.shiftl b n) a = b * 2 ^ n + a.
Proof. intros. rewrite Z.lor_comm, lor_shiftl by done. lia. Qed.
Lemma land_byte a : Z.land a 0xff = a mod 256.
Proof. apply (Z.land_ones a 8). done. Qed.
Lemma land_half a : Z.land a 0xffff = a mod 65536.
Proof. apply (Z.land_ones a 16). done. Qed.
Ltac div_lia := Z.div_mod_to_equations; lia.

Definition le_bytes (n : Z) : list Z := [n mod 256; n / 256 mod 256; n / 65536 mod 256; n / 16777216 mod 256].

Lemma le32_eq b0 b1 b2 b3 :
  byte b0 → byte b1 → byte b2 → byte b3 → le32 [b0; b1; b2; b3] = b0 + b1 * 256 + b2 * 65536 + b3 * 16777216.
Proof. 
  unfold byte, le32. intros. rewrite (lor_shiftl b0 b1 8) by lia. rewrite (lor_shiftl _ b2 16) by lia.
  rewrite (lor_shiftl _ b3 24) by lia. lia.
Qed.
Lemma bytes4 b :
  bytes_ok 4 b → ∃ b0 b1 b2 b3, b = [b0; b1; b2; b3] ∧ byte b0 ∧ byte b1 ∧ byte b2 ∧ byte b3.
Proof.
  intros [Hl Hb]. destruct b as [|b0 [|b1 [|b2 [|b3 []]]]]; try done.
  rewrite !list.Forall_cons in Hb. naive_solver.
Qed.
Lemma le_bytes_le32 b : bytes_ok 4 b → le_bytes (le32 b) = b.
Proof.
  intros (b0 & b1 & b2 & b3 & -> & ? & ? & ? & ?)%bytes4. rewrite le32_eq by done. unfold byte, le_bytes in *.
  repeat f_equal; div_lia.
Qed.
Lemma htons_eq x : 0 ≤ x < 65536 → htons x = x mod 256 * 256 + x / 256.
Proof.
  intros. unfold htons. rewrite !land_byte, Z.shiftr_div_pow2 by done. rewrite lor_shiftl_r; [|done|div_lia].
  change (2 ^ 8) with 256. div_lia.
Qed.
Lemma htons_range x : 0 ≤ x < 65536 → 0 ≤ htons x < 65536.
Proof. intros. rewrite htons_eq by done. div_lia. Qed.
Lemma htons_htons x : 0 ≤ x < 65536 → htons (htons x) = x.
Proof. intros. rewrite !htons_eq; [div_lia|done|rewrite htons_eq by done; div_lia]. Qed.

Lemma htonl_eq x : 0 ≤ x < 2 ^ 32 → htonl x = htons (x mod 65536) * 65536 + htons (x / 65536).
Proof.
  intros. unfold htonl. rewrite !land_half, Z.shiftr_div_pow2 by done. change (2 ^ 16) with 65536.
  rewrite (Z.mod_small (x / 65536)) by div_lia. apply lor_shiftl_r; [done|]. apply htons_range. div_lia.
Qed.
(** The number whose bytes in memory are those of [x] in the opposite order. *)
Lemma htonl_le32 b : bytes_ok 4 b → htonl (le32 b) = le32 (rev b).
Proof.
  intros (b0 & b1 & b2 & b3 & -> & ? & ? & ? & ?)%bytes4. cbn [rev app]. rewrite !le32_eq by done. unfold byte in *.
  rewrite htonl_eq, !htons_eq; div_lia.
Qed.
Lemma ip4_u32_le32 b : bytes_ok 4 b → lsdn_ip4_u32 b = le32 (rev b).
Proof.
  intros (b0 & b1 & b2 & b3 & -> & ? & ? & ? & ?)%bytes4. 
  apply Z.bits_inj'. intros i _. unfold lsdn_ip4_u32. cbn [rev app le32]. rewrite !Z.lor_spec.
  by repeat destruct (Z.testbit _ _).
Qed.
Lemma bytes_rev b : bytes_ok 4 b → bytes_ok 4 (rev b).
Proof. intros [? Hb]. split; [by rewrite length_rev|]. by apply Forall_rev. Qed.
(** An address is put with its bytes in their order. *)
Lemma ip4_bytes b : bytes_ok 4 b → le_bytes (htonl (lsdn_ip4_u32 b)) = b.
Proof.
  intros Hb. rewrite ip4_u32_le32, htonl_le32, rev_involutive by eauto using bytes_rev. by apply le_bytes_le32.
Qed.
Lemma le32_range b : bytes_ok 4 b → 0 ≤ le32 b < 2 ^ 32.
Proof. intros (b0 & b1 & b2 & b3 & -> & ? & ? & ? & ?)%bytes4. rewrite le32_eq by done. unfold byte in *. lia. Qed.
Lemma le_bytes_ok n : bytes_ok 4 (le_bytes n).
Proof. split; [done|]. unfold le_bytes. repeat constructor; div_lia. Qed.
Lemma le32_le_bytes n : 0 ≤ n < 2 ^ 32 → le32 (le_bytes n) = n.
Proof. intros. unfold le_bytes. rewrite le32_eq; unfold byte; div_lia. Qed.
Lemma htonl_htonl n : 0 ≤ n < 2 ^ 32 → htonl (htonl n) = n.
Proof.
  intros. rewrite <-(le32_le_bytes n) by done.
  rewrite !htonl_le32, rev_involutive by eauto using bytes_rev, le_bytes_ok. done.
Qed.
Lemma htonl_range n : 0 ≤ n < 2 ^ 32 → 0 ≤ htonl n < 2 ^ 32.
Proof.
  intros. rewrite <-(le32_le_bytes n), htonl_le32 by eauto using le_bytes_ok.
  eauto using le32_range, bytes_rev, le_bytes_ok.
Qed.

(** ** Reading a message *)

Definition decode_group (l : list nlattr) : option (option lsdn_ip_t) :=
  match l with
  | [] => Some None
  | [Attr IFLA_VXLAN_GROUP (U32 n)] => Some (Some (Ip LSDN_IPv4 (le_bytes n)))
  | [Attr IFLA_VXLAN_GROUP6 (Bytes b)] => Some (Some (Ip LSDN_IPv6 b))
  | _ => None
  end.
Definition decode_geneve (l : list nlattr) : option link_kind :=
  match l with
  | [] => Some (LinkGeneve None false)
  | [Attr IFLA_GENEVE_COLLECT_METADATA _] => Some (LinkGeneve None true)
  | [Attr IFLA_GENEVE_PORT (U16 p)] => Some (LinkGeneve (Some (htons p)) false)
  | [Attr IFLA_GENEVE_PORT (U16 p); Attr IFLA_GENEVE_COLLECT_METADATA _] => Some (LinkGeneve (Some (htons p)) true)
  | _ => None
  end.
(** What is inside the link information, with the underlying link. *)
Definition decode_kind (link : option Z) (l : list nlattr) : option link_kind :=
  match link, l with
  | None, [Attr IFLA_INFO_KIND (Strz "dummy")] => Some LinkDummy
  | None, [Attr IFLA_INFO_KIND (Strz "bridge")] => Some LinkBridge
  | Some link, [Attr IFLA_INFO_KIND (Strz "vlan"); NestAttr IFLA_INFO_DATA None [Attr IFLA_VLAN_ID (U16 vlanid)]] =>
      Some (LinkVlan link vlanid)
  | link, [Attr IFLA_INFO_KIND (Strz "vxlan");
           NestAttr IFLA_INFO_DATA None
             (Attr IFLA_VXLAN_LINK (U32 vl) :: Attr IFLA_VXLAN_ID (U32 id) :: Attr IFLA_VXLAN_PORT (U16 port) ::
              Attr IFLA_VXLAN_LEARNING (U8 ln) :: Attr IFLA_VXLAN_COLLECT_METADATA (U8 co) :: l)] =>
      LinkVxlan link vl id (htons port) (negb (ln =? 0)) (negb (co =? 0)) <$> decode_group l
  | None, [Attr IFLA_INFO_KIND (Strz "geneve"); NestAttr IFLA_INFO_DATA None l] => decode_geneve l
  | None, [Attr IFLA_INFO_KIND (Strz "veth");
           NestAttr IFLA_INFO_DATA None [NestAttr VETH_INFO_PEER (Some (IfInfo 0 0 0))
             [Attr IFLA_IFNAME (Strz peer); NestAttr IFLA_LINKINFO None [Attr IFLA_INFO_KIND (Strz "veth")]]]] =>
      Some (LinkVeth peer)
  | _, _ => None
  end.
Definition decode_link (l : list nlattr) : option request :=
  match l with
  | [Attr IFLA_LINK (U32 link); Attr IFLA_IFNAME (Strz name); NestAttr IFLA_LINKINFO None l] =>
      ReqLinkCreate name <$> decode_kind (Some link) l
  | [Attr IFLA_IFNAME (Strz name); NestAttr IFLA_LINKINFO None l] => ReqLinkCreate name <$> decode_kind None l
  | _ => None
  end.

(** The key of an attribute and of its mask. *)
Definition key_targets : list lsdn_rule_target :=
  [LSDN_MATCH_SRC_MAC; LSDN_MATCH_DST_MAC; LSDN_MATCH_SRC_IPV4; LSDN_MATCH_DST_IPV4; LSDN_MATCH_SRC_IPV6;
   LSDN_MATCH_DST_IPV6; LSDN_MATCH_ENC_KEY_SRC_IPV4; LSDN_MATCH_ENC_KEY_DST_IPV4; LSDN_MATCH_ENC_KEY_SRC_IPV6;
   LSDN_MATCH_ENC_KEY_DST_IPV6].
Definition key_target (key key_mask : attr_type) : option lsdn_rule_target :=
  snd <$> list_find (λ t, fst <$> key_attrs t = Some (key, key_mask)) key_targets.
Fixpoint decode_opts (l : list nlattr) : option (list flower_opt * list nlattr) :=
  match l with
  | Attr TCA_FLOWER_KEY_ETH_TYPE (U16 n) :: l => '(os, l) ← decode_opts l; Some (FlEthType (htons n) :: os, l)
  | Attr TCA_FLOWER_KEY_ENC_KEY_ID (U32 n) :: l =>
      '(os, l) ← decode_opts l; Some (FlEncKeyId (le_bytes (htonl n)) :: os, l)
  | Attr key (Bytes value) :: Attr key_mask (Bytes mask) :: l =>
      t ← key_target key key_mask; '(os, l) ← decode_opts l; Some (FlKey t value mask :: os, l)
  | _ => Some ([], l)
  end.

Definition decode_tunnel_ips (l : list nlattr) : option (bool * lsdn_ip_t * lsdn_ip_t) :=
  match l with
  | Attr TCA_TUNNEL_KEY_ENC_IPV4_SRC (U32 s) :: Attr TCA_TUNNEL_KEY_ENC_IPV4_DST (U32 d) :: _ =>
      Some (false, Ip LSDN_IPv4 (le_bytes s), Ip LSDN_IPv4 (le_bytes d))
  | Attr TCA_TUNNEL_KEY_ENC_IPV6_SRC (Bytes s) :: Attr TCA_TUNNEL_KEY_ENC_IPV6_DST (Bytes d) :: _ =>
      Some (true, Ip LSDN_IPv6 s, Ip LSDN_IPv6 d)
  | _ => None
  end.
(** An action, by the kind of its options; a peak rate has a table. *)
Definition decode_action (kind : payload) (l : list nlattr) : option tc_action :=
  match kind, l with
  | Strz "gact", [Attr TCA_GACT_PARMS (P_gact V_SHOT)] => Some TcDrop
  | Strz "gact", [Attr TCA_GACT_PARMS (P_gact V_UNSPEC)] => Some TcContinue
  | Strz "gact", [Attr TCA_GACT_PARMS (P_gact (V_GOTO chain))] => Some (TcGotoChain chain)
  | Strz "police", Attr TCA_POLICE_TBF (P_police p) :: Attr TCA_POLICE_RESULT (U32 result) ::
                   Attr TCA_POLICE_RATE _ :: l =>
      let peak := r_rate (p_peakrate p) in
      if (result =? GACT_PIPE) && (p_action p =? GACT_SHOT) &&
         Bool.eqb (peak =? 0) (match l with [Attr TCA_POLICE_PEAKRATE _] => false | _ => true end)
      then Some (TcPolice (r_rate (p_rate p)) (p_burst p) peak (p_mtu p)) else None
  | Strz "tunnel_key", Attr TCA_TUNNEL_KEY_ENC_KEY_ID (U32 n) :: l =>
      '(ipv6, src, dst) ← decode_tunnel_ips l;
      match drop 2 l with
      | [Attr TCA_TUNNEL_KEY_PARMS (P_tunnel_key V_PIPE)] => Some (TcTunnelKey (htonl n) ipv6 src dst)
      | _ => None
      end
  | Str "mirred", [Attr TCA_MIRRED_PARMS (P_mirred V_STOLEN e i)] => Some (TcMirred TC_ACT_STOLEN e i)
  | Str "mirred", [Attr TCA_MIRRED_PARMS (P_mirred V_PIPE e i)] => Some (TcMirred TC_ACT_PIPE e i)
  | Strz "skbedit", [Attr TCA_SKBEDIT_PARMS (P_skbedit i V_PIPE); Attr TCA_SKBEDIT_MARK (U32 mark)] =>
      Some (TcSkbMark i mark)
  | _, _ => None
  end.
Definition decode_act (a : nlattr) : option (Z * tc_action) :=
  match a with
  | NestAttr (TCA_ORDER order) None [Attr TCA_ACT_KIND kind; NestAttr TCA_ACT_OPTIONS None l] =>
      pair order <$> decode_action kind l
  | _ => None
  end.
Definition decode_filter_kind (s : string) : option filter_kind :=
  if bool_decide (s = "flower") then Some FilterFlower else if bool_decide (s = "fw") then Some FilterFw else None.
(** The priority is in the upper half of [tcm_info], with the protocol below. *)
Definition decode_prio (info : Z) : option Z :=
  let prio := info / 65536 in if info =? filter_info prio then Some prio else None.
Definition decode_filter (ifindex handle parent info : Z) (update : bool) (l : list nlattr) : option request :=
  match l with
  | [Attr TCA_KIND (Strz kind); Attr TCA_CHAIN (U32 chain); NestAttr TCA_OPTIONS None l] =>
      kind ← decode_filter_kind kind; prio ← decode_prio info;
      '(opts, l) ← decode_opts l;
      match l with
      | [NestAttr t None acts] =>
          if decide (t = acts_attr kind) then
            acts ← mapM decode_act acts;
            Some (ReqFilterCreate (Filter kind ifindex handle parent chain prio update opts acts))
          else None
      | _ => None
      end
  | _ => None
  end.

Definition decode_ip (b : list Z) : lsdn_ip_t := if (length b =? 4)%nat then Ip LSDN_IPv4 b else Ip LSDN_IPv6 b.
(** Every request asks for an answer. *)
Definition decode `{Mnl} (m : nlmsghdr) : option request :=
  let flags := nlmsg_flags m in
  if negb (Z.land flags ack_flags =? ack_flags) then None else
  match nlmsg_type m, nlmsg_extra m, nl_attrs (nlmsg_body m) with
  | RTM_NEWLINK, H_ifinfo (IfInfo i up change), l =>
      if flags =? create_flags then decode_link l
      else match l with
           | [Attr IFLA_MASTER (U32 master)] => Some (ReqLinkMaster master i)
           | [] => if change =? IFF_UP then Some (ReqLinkSet i (up =? IFF_UP)) else None
           | _ => None
           end
  | RTM_DELLINK, H_ifinfo (IfInfo i _ _), _ => Some (ReqLinkDelete i)
  | RTM_NEWNEIGH, H_nd i, [Attr NDA_LLADDR (Bytes mac); Attr NDA_DST (Bytes b)] => Some (ReqFdbAdd i mac (decode_ip b))
  | RTM_DELNEIGH, H_nd i, [Attr NDA_LLADDR (Bytes mac); Attr NDA_DST (Bytes b)] =>
      Some (ReqFdbRemove i mac (decode_ip b))
  | RTM_NEWADDR, H_ifaddr family _ i, [Attr IFA_LOCAL (Bytes b)] => Some (ReqAddrSet i (Ip family b))
  | RTM_NEWQDISC, H_tc i _ parent _, Attr TCA_KIND (Strz kind) :: _ =>
      if bool_decide (kind = "ingress") && (parent =? TC_H_INGRESS) then Some (ReqQdiscCreate true i)
      else if bool_decide (kind = "prio") && (parent =? TC_H_ROOT) then Some (ReqQdiscCreate false i) else None
  | RTM_DELQDISC, H_tc i _ parent _, _ => Some (ReqQdiscDelete (parent =? TC_H_INGRESS) i)
  | RTM_NEWTFILTER, H_tc i handle parent info, l =>
      decode_filter i handle parent info (Z.land flags NLM_F_EXCL =? 0) l
  | RTM_DELTFILTER, H_tc i handle parent info, [Attr TCA_CHAIN (U32 chain)] =>
      ReqFilterDelete i handle parent chain <$> decode_prio info
  | _, _, _ => None
  end.

(** ** Requests that have a message *)

Definition w16 (n : Z) : Prop := 0 ≤ n < 65536.
Definition w32 (n : Z) : Prop := 0 ≤ n < 2 ^ 32.

Definition kind_ok (k : link_kind) : Prop :=
  match k with
  | LinkVlan link vlanid => w32 link ∧ w16 vlanid
  | LinkVxlan link vxlan_link vxlanid port _ _ group =>
      from_option w32 True link ∧ w32 vxlan_link ∧ w32 vxlanid ∧ w16 port ∧ from_option ip_ok True group
  | LinkGeneve port _ => from_option w16 True port
  | LinkDummy | LinkBridge | LinkVeth _ => True
  end.
Definition opt_ok (o : flower_opt) : Prop :=
  match o with
  | FlEthType t => w16 t
  | FlEncKeyId key_id => bytes_ok 4 key_id
  | FlKey t value mask => ∃ k n, key_attrs t = Some (k, n) ∧ length value = n ∧ length mask = n
  end.
(** A policed rate must have a time for its burst. *)
Definition act_ok (tick_per_sec : double) (a : Z * tc_action) : Prop :=
  w16 a.1 ∧
  match a.2 with
  | TcDrop | TcContinue | TcGotoChain _ => True
  | TcPolice avg burst _ _ => is_Some (xmittime tick_per_sec avg burst)
  | TcTunnelKey vni ipv6 src dst =>
      w32 vni ∧ ip_ok src ∧ ip_ok dst ∧ v src = (if ipv6 then LSDN_IPv6 else LSDN_IPv4) ∧ v dst = v src
  | TcMirred _ _ ifindex => w32 ifindex
  | TcSkbMark index mark => w32 index ∧ w32 mark
  end.
Definition request_ok (tick_per_sec : double) (r : request) : Prop :=
  match r with
  | ReqFilterCreate f =>
      w32 (f_chain f) ∧ w16 (f_prio f) ∧ Forall opt_ok (f_opts f) ∧ Forall (act_ok tick_per_sec) (f_acts f)
  | ReqFilterDelete _ _ _ chain prio => w32 chain ∧ w16 prio
  | ReqLinkCreate _ kind => kind_ok kind
  | ReqLinkMaster master _ => w32 master
  | ReqFdbAdd _ mac ip | ReqFdbRemove _ mac ip => mac_ok mac ∧ ip_ok ip
  | ReqAddrSet _ ip => ip_ok ip
  | ReqQdiscCreate _ _ | ReqQdiscDelete _ _ | ReqLinkDelete _ | ReqLinkSet _ _ => True
  end.

(** The request as it is in the message: with the burst of a policer in ticks. *)
Definition wire_act (tick_per_sec : double) (a : Z * tc_action) : Z * tc_action :=
  match a with
  | (order, TcPolice avg burst peak mtu) =>
      (order, TcPolice avg (default 0 (xmittime tick_per_sec avg burst)) peak mtu)
  | a => a
  end.
Definition wire (tick_per_sec : double) (r : request) : request :=
  match r with
  | ReqFilterCreate f =>
      ReqFilterCreate (Filter (f_kind f) (f_ifindex f) (f_handle f) (f_parent f) (f_chain f) (f_prio f) (f_update f)
                         (f_opts f) (map (wire_act tick_per_sec) (f_acts f)))
  | r => r
  end.

(** ** What is read is what was put *)

Lemma u16_w n : w16 n → u16 n = n.
Proof. intros. by apply u16_small. Qed.
Lemma u32_w n : w32 n → u32 n = n.
Proof. intros. by apply u32_small. Qed.
Lemma htons_put n : w16 n → htons (u16 (htons n)) = n.
Proof. intros. by rewrite u16_w, htons_htons by (done || by apply htons_range). Qed.
Lemma htonl_put n : w32 n → htonl (u32 (htonl n)) = n.
Proof. intros. by rewrite u32_w, htonl_htonl by (done || by apply htonl_range). Qed.
Lemma ip4_put b : bytes_ok 4 b → le_bytes (u32 (htonl (lsdn_ip4_u32 b))) = b.
Proof.
  intros Hb. rewrite u32_w; [by apply ip4_bytes|]. rewrite ip4_u32_le32 by done.
  by apply htonl_range, le32_range, bytes_rev.
Qed.
Lemma key_id_put b : bytes_ok 4 b → le_bytes (htonl (u32 (htonl (le32 b)))) = b.
Proof. intros. by rewrite htonl_put, le_bytes_le32 by (done || by apply le32_range). Qed.
Lemma take_bytes n b : bytes_ok n b → take n b = b.
Proof. intros [<- _]. by apply firstn_all. Qed.
Lemma decode_ip_put ip : ip_ok ip → decode_ip (take (ip_len (v ip)) (ip_bytes ip)) = ip.
Proof. destruct ip as [[] b]; intros Hb; rewrite take_bytes by done; destruct Hb as [Hl _]; unfold decode_ip; by rewrite Hl. Qed.
Lemma prio_put prio : w16 prio → decode_prio (filter_info prio) = Some prio.
Proof.
  intros Hp. unfold decode_prio. replace (filter_info prio / 65536) with prio; [by rewrite Z.eqb_refl|].
  unfold filter_info, TC_H_MAKE, w16 in *. change (Z.land (Z.shiftl ETH_P_ALL 8) 0x0000FFFF) with 768.
  change 0xFFFF0000 with (Z.shiftl (Z.ones 16) 16). rewrite <-Z.shiftl_land, Z.land_ones by done.
  rewrite Z.mod_small, lor_shiftl_r by (done || lia). div_lia.
Qed.

Lemma decode_opts_put l t acts :
  Forall opt_ok l →
  decode_opts ((l ≫= opt_attrs) ++ [NestAttr t None acts]) = Some (l, [NestAttr t None acts]).
Proof.
  induction 1 as [|o l Ho _ IH]; [done|]. rewrite bind_cons, <-app_assoc.
  destruct o as [e|k value mask|id]; cbn -[key_target].
  - rewrite IH. cbn. by rewrite htons_put.
  - destruct Ho as (key & n & Hk & Hv & Hm).
    destruct k; try done; injection Hk as <- <-; cbn -[key_target firstn]; rewrite !firstn_all2, IH by lia; done.
  - rewrite IH. cbn. by rewrite key_id_put.
Qed.

Lemma decode_tunnel_ips_put (ipv6 : bool) src dst l :
  ip_ok src → ip_ok dst → v src = (if ipv6 then LSDN_IPv6 else LSDN_IPv4) → v dst = v src →
  decode_tunnel_ips (tunnel_ip_attrs ipv6 src dst ++ l) = Some (ipv6, src, dst) ∧
  drop 2 (tunnel_ip_attrs ipv6 src dst ++ l) = l.
Proof.
  destruct src as [vs s], dst as [vd d]. cbn. intros Hs Hd -> ->.
  destruct ipv6; cbn; [|by rewrite !ip4_put]. by rewrite !take_bytes.
Qed.
Lemma decode_act_put tick a :
  act_ok tick a → ∃ x, act_attr tick a = Some x ∧ decode_act x = Some (wire_act tick a).
Proof.
  destruct a as [order a]. intros [Ho Ha]. cbn in Ho, Ha.
  destruct a as [| |chain|avg burst peak mtu|vni ipv6 src dst|[] e i|i mark]; cbn -[decode_act];
    try (eexists; split; [done|]; cbn; by rewrite ?u16_w, ?u32_w by naive_solver).
  - destruct Ha as [t ->]. eexists. split; [done|]. cbn. rewrite u16_w by done.
    by destruct (peak =? 0).
  - destruct Ha as (Hv & Hs & Hd & Hvs & Hvd). eexists. split; [done|].
    cbn -[drop tunnel_ip_attrs decode_tunnel_ips].
    destruct (decode_tunnel_ips_put ipv6 src dst [Attr TCA_TUNNEL_KEY_PARMS (P_tunnel_key V_PIPE)]) as [-> ->]; try done.
    cbn. by rewrite u16_w, htonl_put.
Qed.
Lemma decode_acts_put tick l :
  Forall (act_ok tick) l →
  ∃ k, mapM (act_attr tick) l = Some k ∧ mapM decode_act k = Some (map (wire_act tick) l).
Proof.
  induction 1 as [|a l Ha _ (k & Hk & Hd)]; [by exists []|].
  destruct (decode_act_put tick a Ha) as (x & Hx & Hdx). exists (x :: k). cbn.
  by rewrite Hx, Hk, Hdx, Hd.
Qed.
Lemma decode_filter_put tick f :
  request_ok tick (ReqFilterCreate f) →
  ∃ l, filter_attrs tick f = Some l ∧
       decode_filter (f_ifindex f) (f_handle f) (f_parent f) (filter_info (f_prio f)) (f_update f) l =
       Some (wire tick (ReqFilterCreate f)).
Proof.
  intros (Hc & Hp & Ho & Ha). destruct (decode_acts_put tick _ Ha) as (acts & Hacts & Hd).
  unfold filter_attrs. rewrite Hacts. eexists. split; [done|].
  cbn -[decode_prio acts_attr mapM decode_opts]. rewrite prio_put by done.
  rewrite decode_opts_put by done.
  destruct (f_kind f) eqn:Ek; cbn -[mapM]; rewrite Hd, u32_w; done.
Qed.

Lemma decode_group_put group : from_option ip_ok True group → decode_group (group_attrs group) = Some group.
Proof. destruct group as [[[] b]|]; intros Hb; cbn; rewrite ?ip4_put, ?take_bytes by done; done. Qed.
Lemma decode_link_put name kind :
  kind_ok kind → decode_link (link_create_attrs name kind) = Some (ReqLinkCreate name kind).
Proof.
  destruct kind as [| |link id|link vl id port ln co group|port co|peer]; cbn -[group_attrs]; try done.
  - intros [? ?]. by rewrite u32_w, u16_w.
  - intros (Hl & ? & ? & ? & Hg).
    destruct link; cbn -[group_attrs]; rewrite decode_group_put, htons_put, !u32_w by done; by destruct ln, co.
  - intros Hp. destruct port, co; cbn; by rewrite ?htons_put.
Qed.

Section carries.
Context `{L : Mnl} {Laws : MnlLaws L}.

Lemma message_attrs tick r l :
  request_attrs tick r = Some l → attrs_size l ≤ nl_room →
  ∃ m, message tick r = Some m ∧ nl_attrs (nlmsg_body m) = l.
Proof.
  intros Hl Hs. pose proof (message_emits tick r) as Hm. rewrite Hl in Hm.
  destruct (message tick r) as [m|]; [|done]. injection Hm as Hm. exists m. split; [done|].
  rewrite Hm. by apply nl_attrs_put.
Qed.
Lemma filter_message_header tick f m :
  filter_message tick f = Some m →
  nlmsg_type m = RTM_NEWTFILTER ∧ nlmsg_flags m = filter_create_flags (f_update f) ∧
  nlmsg_extra m = H_tc (f_ifindex f) (f_handle f) (f_parent f) (filter_info (f_prio f)).
Proof.
  unfold filter_message, filter_start. destruct (mnl_attr_nest_start TCA_OPTIONS _).
  destruct (mnl_attr_nest_start (acts_attr _) _). destruct (put_actions tick _ _); [|done]. by intros [= <-].
Qed.
Lemma request_attrs_ok tick r : request_ok tick r → is_Some (request_attrs tick r).
Proof.
  destruct r as [f| |[]| | | | | | | |]; try done.
  intros (l & Hl & _)%decode_filter_put. by exists l.
Qed.
Lemma link_message_header name kind :
  let m := link_create_message name kind in
  nlmsg_type m = RTM_NEWLINK ∧ nlmsg_flags m = create_flags ∧ nlmsg_extra m = H_ifinfo (IfInfo 0 0 0).
Proof.
  destruct kind; cbn;
    unfold link_dummy_message, link_bridge_message, link_vlan_message, link_vxlan_message, link_geneve_message,
      link_veth_message, link_create_header, link_message;
    by destruct (mnl_attr_nest_start IFLA_LINKINFO _).
Qed.

(** C4: Every request in range has a message, and whoever reads the attributes of the message
    finds the request again, for all links, forwarding entries, qdiscs, and filters with all
    their keys and actions: every number and address in its byte order, every nest where it
    belongs, and the flag that asks for an answer. Only the burst of a policer is not what was
    asked for: the message has it in the ticks that [xmittime] computes from burst and rate in
    double precision, as [wire] says. *)
Theorem message_carries_request tick r :
  request_ok tick r → from_option attrs_size 0 (request_attrs tick r) ≤ nl_room →
  ∃ m, message tick r = Some m ∧ decode m = Some (wire tick r).
Proof.
  intros Hr Hs. destruct (request_attrs_ok tick r Hr) as [l Hl]. rewrite Hl in Hs.
  destruct (message_attrs tick r l Hl Hs) as (m & Hm & Hb). exists m. split; [done|]. unfold decode. rewrite Hb.
  destruct r as [f|i h p chain prio|[] i|[] i|name kind|i|ma i|i up|i mac ip|i mac ip|i ip];
    cbn [message] in Hm.
  1: { destruct (filter_message_header tick f m Hm) as (-> & -> & ->).
    destruct (decode_filter_put tick f Hr) as (l' & Hl' & Hd).
    assert (l' = l) as -> by (cbn in Hl; congruence). rewrite <-Hd. by destruct (f_update f). }
  all: injection Hm as <-; injection Hl as <-.
  - destruct Hr. cbn -[decode_prio filter_info]. by rewrite prio_put, u32_w.
  - done.
  - done.
  - done.
  - done.
  - destruct (link_message_header name kind) as (-> & -> & ->). by apply decode_link_put.
  - done.
  - cbn. by rewrite u32_w.
  - by destruct up.
  - destruct Hr. cbn -[take decode_ip]. by rewrite decode_ip_put, take_bytes.
  - destruct Hr. cbn -[take decode_ip]. by rewrite decode_ip_put, take_bytes.
  - cbn -[take]. rewrite take_bytes by done. by destruct ip.
Qed.
End carries.

(** ** A message in memory *)

(** The nests that are open, the innermost first, each with its header and its attributes in
    their order; the message itself is the last. *)
Record frame := Frame { fr_type : attr_type; fr_header : option ifinfomsg; fr_attrs : list nlattr }.
Definition frames : Type := list frame * list nlattr.
Definition put_frame (a : nlattr) (m : frames) : frames :=
  match m with
  | (Frame t h l :: fs, base) => (Frame t h (l ++ [a]) :: fs, base)
  | ([], base) => ([], base ++ [a])
  end.
(** A nest is known by its depth; one that is closed already is left alone. *)
Definition end_frame (depth : nat) (m : frames) : frames :=
  match m with
  | (Frame t h l :: fs, base) => if (length fs =? depth)%nat then put_frame (NestAttr t h l) (fs, base) else m
  | ([], _) => m
  end.
#[global] Instance mnl_frames : Mnl := {
  nlbuf := frames;
  nlnest := nat;
  mnl_nlmsg_put_header := ([], []);
  mnl_attr_put t p := put_frame (Attr t p);
  mnl_attr_nest_start t m := ((Frame t None [] :: m.1, m.2), length m.1);
  mnl_attr_nest_end := end_frame;
  nlmsg_append h m :=
    match m with (Frame t _ l :: fs, base) => (Frame t (Some h) l :: fs, base) | ([], _) => m end;
  nl_room := 8192 - 16 - 20;
  nl_attrs m := m.2 }.

Lemma put_frames l t h k fs base :
  Forall (λ a, ∀ m, put_attr a m = put_frame a m) l →
  put_attrs l (Frame t h k :: fs, base) = (Frame t h (k ++ l) :: fs, base).
Proof.
  intros Hl. revert k. induction Hl as [|a l Ha _ IH]; intros k; [by rewrite app_nil_r|].
  change (put_attrs (a :: l) ?m) with (put_attrs l (put_attr a m)).
  rewrite Ha. etransitivity; [apply IH|]. by rewrite <-app_assoc.
Qed.
Lemma put_attr_frames a m : put_attr a m = put_frame a m.
Proof.
  revert a m. fix IH 1. intros [t p|t h l] [fs base]; [done|].
  assert (Forall (λ a, ∀ m, put_attr a m = put_frame a m) l) as Hl.
  { induction l as [|a l IHl]; constructor; [apply IH|apply IHl]. }
  transitivity (end_frame (length fs) (put_attrs l (Frame t h [] :: fs, base))); [by destruct h|].
  rewrite (put_frames l t h [] fs base Hl). cbn. by rewrite Nat.eqb_refl.
Qed.
#[global] Instance mnl_frames_laws : MnlLaws mnl_frames.
Proof.
  split.
  - intros l _. enough (∀ k, put_attrs l ([], k) = ([], k ++ l)) as H by exact (f_equal snd (H [])).
    induction l as [|a l IH]; intros k; [by rewrite app_nil_r|].
    change (put_attrs (a :: l) ?m) with (put_attrs l (put_attr a m)). rewrite put_attr_frames. etransitivity; [apply IH|]. by rewrite <-app_assoc.
  - intros p [[|[t h l] fs] base]; [done|]. cbn. destruct (length fs =? p)%nat eqn:E; cbn; [|by rewrite E].
    apply Nat.eqb_eq in E as <-. destruct fs as [|[t' h' l'] fs]; [done|]. cbn.
    destruct (length fs =? S (length fs))%nat eqn:E; [|done]. apply Nat.eqb_eq in E. lia.
Qed.

(** A filter with a key of each sort, and actions that police, tunnel and mirror. *)
Definition demo_tick : double := f64_of_Z 15625000.
Definition demo_request : request :=
  ReqFilterCreate (Filter FilterFlower 7 0x17 LSDN_INGRESS_HANDLE LSDN_DEFAULT_CHAIN 0xFFFE true
    [FlEthType 0x800; FlKey LSDN_MATCH_DST_MAC [2; 0; 0; 0; 0; 9] (replicate 6 255);
     FlKey LSDN_MATCH_SRC_IPV4 [192; 168; 1; 0] [255; 255; 255; 0]; FlEncKeyId [42; 1; 0; 0]]
    [(1, TcPolice 125000 10000 0 0xFFFF); (2, TcContinue); (3, TcTunnelKey 42 false (Ip LSDN_IPv4 [10; 0; 0; 1]) (Ip LSDN_IPv4 [10; 0; 0; 2]));
     (4, TcMirred TC_ACT_PIPE TCA_EGRESS_REDIR 300); (5, TcGotoChain 0x20)]).
Ltac bytes := cbn; rewrite !list.Forall_cons; by unfold byte.
Lemma demo_request_ok : request_ok demo_tick demo_request.
Proof.
  split; [done|split; [done|split]]; cbn [f_opts f_acts]; rewrite !list.Forall_cons, list.Forall_nil.
  - split_and!; [done|by eexists _, _|by eexists _, _|split; [done|bytes]|done].
  - unfold act_ok. split_and!; try done; [by eexists|]. cbn. split_and!; try done; split; (done || bytes).
Qed.
Lemma message_carries_request_witness :
  ∃ m, message demo_tick demo_request = Some m ∧ decode m = Some (wire demo_tick demo_request).
Proof. apply (message_carries_request demo_tick demo_request); [apply demo_request_ok|by vm_compute]. Defined.
(** The burst of 10000 bytes at 125000 bytes a second is 80 milliseconds. *)
Example demo_request_wire :
  wire demo_tick demo_request ≠ demo_request ∧ xmittime demo_tick 125000 10000 = Some 1250000.
Proof. by vm_compute. Qed.

(** ** The loop of [finish_rate], and the answers *)

Lemma finish_cell_log_spec fuel mtu c :
  0 ≤ c → 0 ≤ mtu < 2 ^ (c + 8 + Z.of_nat fuel) →
  let r := finish_cell_log fuel mtu c in
  c ≤ r ≤ c + Z.of_nat fuel ∧ Z.shiftr mtu r ≤ 255 ∧ ∀ j, c ≤ j < r → 255 < Z.shiftr mtu j.
Proof.
  revert c. induction fuel as [|fuel IH]; intros c Hc Hm; cbn.
  - split_and!; [lia|lia| |lia]. rewrite Z.shiftr_div_pow2 by done.
    enough (mtu / 2 ^ c < 256) by lia. apply Z.div_lt_upper_bound; [lia|].
    rewrite Z.mul_comm. change 256 with (2 ^ 8). rewrite <-Z.pow_add_r by lia.
    replace (8 + c) with (c + 8 + Z.of_nat 0) by lia. apply Hm.
  - destruct (Z.ltb_spec 255 (Z.shiftr mtu c)) as [E|E]; [|by split_and!; [lia|lia| |lia]].
    destruct (IH (c + 1)) as (Hr & Hs & Hj); [lia| |].
    { by replace (c + 1 + 8 + Z.of_nat fuel) with (c + 8 + Z.of_nat (S fuel)) by lia. }
    split_and!; [lia|lia|done|]. intros j Hj'. destruct (Z.eq_dec j c) as [->|]; [lia|apply Hj; lia].
Qed.
(** C35: The loop that looks for the cell logarithm of a rate ends for every MTU of 32 bits, with
    the least logarithm that makes the MTU a byte, and never shifts by more than 24, which is in
    the width of the number. *)
Theorem finish_rate_exact rate mtu :
  w32 mtu →
  let c := cell_log (finish_rate rate mtu) in
  0 ≤ c ≤ 24 ∧ Z.shiftr mtu c ≤ 255 ∧ ∀ j, 0 ≤ j < c → 255 < Z.shiftr mtu j.
Proof.
  unfold w32. intros Hm. destruct (finish_cell_log_spec 32 mtu 0) as (Hr & Hs & Hj); [done|cbn; lia|].
  split_and!; [apply Hr| |exact Hs|exact Hj]. apply Z.nlt_ge. intros H.
  assert (255 < Z.shiftr mtu 24) as H' by (apply Hj; by split).
  rewrite Z.shiftr_div_pow2 in H' by done. div_lia.
Qed.
Lemma finish_rate_exact_witness :
  let c := cell_log (finish_rate 1000 65535) in
  0 ≤ c ≤ 24 ∧ Z.shiftr 65535 c ≤ 255 ∧ ∀ j, 0 ≤ j < c → 255 < Z.shiftr 65535 j.
Proof. apply finish_rate_exact. unfold w32. lia. Defined.

(** A request has succeeded exactly when it was sent and answered without an error; only a
    refusal that counts is reported, with the text of the kernel if there is one. *)
Lemma await_response_exact sent answer ignore_err :
  let '(err, log) := await_response sent answer ignore_err in
  (err = LSDNE_OK ↔ sent = true ∧ ∃ ext msgs, answer = Some (NLMSG_ERROR 0 ext msgs)) ∧
  (err = LSDNE_OK ∨ err = LSDNE_NETLINK) ∧
  (∀ e, e ∈ log.*1 → e ≠ 0 ∧ ignore_err = false ∧ err = LSDNE_NETLINK).
Proof.
  destruct sent, answer as [[error ext msgs|]|]; cbn; try (split_and!; [naive_solver|naive_solver|set_solver]).
  destruct (Z.eqb_spec error 0) as [->|]; cbn.
  - split_and!; [naive_solver|naive_solver|set_solver].
  - destruct ignore_err; cbn; (split_and!; [naive_solver|naive_solver|set_solver]).
Qed.
