(* ===== verification/Log.v ===== *)
(** * Logging ([netmodel/log.c])

    Which categories of messages are logged is read once from the environment variable
    LSDN_DEBUG: a list of names, separated by commas. *)

From Stdlib Require Import ZArith Lia Ascii.
From stdpp Require Import base list sets strings.
From S2P Require Import Prelude.

Local Open Scope string_scope.
Local Open Scope list_scope.
Local Open Scope Z_scope.

Inductive lsdn_log_category := LSDNL_NETOPS | LSDNL_RULES | LSDN_NLERR.
#[global] Instance log_category_eq_dec : EqDecision lsdn_log_category.
Proof. solve_decision. Defined.
Definition log_categories : list lsdn_log_category := [LSDNL_NETOPS; LSDNL_RULES; LSDN_NLERR].
Definition LSDNL_COUNT : Z := 3.
(** The value of a category. *)
Definition category_index (c : lsdn_log_category) : Z :=
  match c with LSDNL_NETOPS => 0 | LSDNL_RULES => 1 | LSDN_NLERR => 2 end.
Definition lsdn_log_category_name (c : lsdn_log_category) : string :=
  match c with LSDNL_NETOPS => "netops" | LSDNL_RULES => "rules" | LSDN_NLERR => "nlerr" end.

(** [once_log_mask_from_env] and [mask], and what was written to stderr. *)
Record log_state := LogState { once : bool; mask : Z; stderr : list string }.

(** [strtok_r] with the delimiter [,]: the next token, which is not empty, and the rest. *)
Fixpoint skip_commas (s : string) : string :=
  match s with
  | String "," s => skip_commas s
  | s => s
  end.
Fixpoint until_comma (s : string) : string * string :=
  match s with
  | EmptyString => (EmptyString, EmptyString)
  | String "," s => (EmptyString, s)
  | String a s => let '(tok, rest) := until_comma s in (String a tok, rest)
  end.
Definition strtok_r (s : string) : option (string * string) :=
  match skip_commas s with
  | EmptyString => None
  | s => Some (until_comma s)
  end.

(** The bits that a token adds to the mask; None for an unknown one. *)
Fixpoint category_bits (tok : string) (cats : list lsdn_log_category) : option Z :=
  match cats with
  | [] => None
  | c :: cats =>
      if bool_decide (lsdn_log_category_name c = tok) then Some (Z.shiftl 1 (category_index c))
      else category_bits tok cats
  end.
Definition token_bits (tok : string) : option Z :=
  if bool_decide (tok = "all") then Some (Z.shiftl 1 LSDNL_COUNT - 1) else category_bits tok log_categories.

(** The loop over the tokens: [fuel] bounds their number. *)
Fixpoint mask_loop (fuel : nat) (env : string) : M log_state unit :=
  match strtok_r env with
  | None => mret tt
  | Some (tok, rest) =>
      match fuel with
      | O => fail OutOfFuel
      | S fuel =>
          match token_bits tok with
          | Some bits =>
              _ ← modify (λ s, LogState (once s) (Z.lor (mask s) bits) (stderr s));
              mask_loop fuel rest
          | None =>
              _ ← modify (λ s, LogState (once s) (mask s) (stderr s ++ ["Unknown LSDN_DEBUG value: " +:+ tok +:+ "
"]));
              fail Aborted
          end
      end
  end.
(** [env] is the value of LSDN_DEBUG; its copy may not be made for lack of memory. *)
Definition log_mask_from_env (env : option string) (strdup_ok : bool) : M log_state unit :=
  match env with
  | None => mret tt
  | Some env => if strdup_ok then mask_loop (S (String.length env)) env else mret tt
  end.

Section log.
Context (env : option string) (strdup_ok : bool).

Definition lsdn_log_init : M log_state unit :=
  s ← get;
  if once s then mret tt else
  _ ← modify (λ s, LogState true (mask s) (stderr s));
  log_mask_from_env env strdup_ok.
Definition lsdn_log_enabled (c : lsdn_log_category) : M log_state bool :=
  gets (λ s, negb (Z.land (Z.shiftl 1 (category_index c)) (mask s) =? 0)).
(** [lsdn_vlog] with the text that the format makes. *)
Definition lsdn_vlog (c : lsdn_log_category) (text : string) : M log_state unit :=
  _ ← lsdn_log_init;
  on ← lsdn_log_enabled c;
  if negb on then mret tt else
  modify (λ s, LogState (once s) (mask s) (stderr s ++ ["LS-"; lsdn_log_category_name c; ": "; text])).
End log.

(** ** What is logged *)

(** The tokens of a string. *)
Fixpoint split_commas (s : string) : list string :=
  match s with
  | EmptyString => [EmptyString]
  | String "," s => EmptyString :: split_commas s
  | String a s => match split_commas s with t :: ts => String a t :: ts | [] => [] end
  end.
Definition tokens (s : string) : list string := filter (.≠ EmptyString) (split_commas s).
Definition known (tok : string) : Prop := tok = "all" ∨ ∃ c, tok = lsdn_log_category_name c.

Lemma split_ne s : split_commas s ≠ [].
Proof. 
  induction s as [|a s IH]; [done|]. cbn. destruct (split_commas s); [done|].
  by destruct a as [[] [] [] [] [] [] [] []].
Qed.
Definition is_comma (a : ascii) : bool := bool_decide (a = ","%char).
Lemma comma_cases (a : ascii) {A} (x y : A) :
  match a with "," => x | _ => y end%char = if is_comma a then x else y.
Proof. by destruct a as [[] [] [] [] [] [] [] []]. Qed.
Lemma split_cons a s :
  split_commas (String a s) =
  if is_comma a then EmptyString :: split_commas s
  else match split_commas s with t :: ts => String a t :: ts | [] => [] end.
Proof. by destruct a as [[] [] [] [] [] [] [] []]. Qed.
Lemma until_cons a s :
  until_comma (String a s) =
  if is_comma a then (EmptyString, s) else let '(tok, rest) := until_comma s in (String a tok, rest).
Proof. by destruct a as [[] [] [] [] [] [] [] []]. Qed.
Lemma skip_cons a s : skip_commas (String a s) = if is_comma a then skip_commas s else String a s.
Proof. by destruct a as [[] [] [] [] [] [] [] []]. Qed.

Lemma tokens_skip s : tokens (skip_commas s) = tokens s.
Proof.
  induction s as [|a s IH]; [done|]. rewrite skip_cons. destruct (is_comma a) eqn:E; [|done].
  rewrite IH. unfold tokens. by rewrite split_cons, E.
Qed.
Lemma until_split s tok rest :
  until_comma s = (tok, rest) → split_commas s = tok :: split_commas rest ∨ split_commas s = [tok] ∧ rest = EmptyString.
Proof.
  revert tok. induction s as [|a s IH]; intros tok; [by intros [= <- <-]; right|].
  rewrite until_cons, split_cons. destruct (is_comma a); [by intros [= <- <-]; left|].
  destruct (until_comma s) as [t r]. intros [= <- <-]. destruct (IH t eq_refl) as [->|[-> ->]]; [by left|by right].
Qed.
Lemma until_length s tok rest : until_comma s = (tok, rest) → (String.length rest ≤ String.length s)%nat.
Proof.
  revert tok. induction s as [|a s IH]; intros tok; [by intros [= <- <-]|].
  rewrite until_cons. destruct (is_comma a); [intros [= <- <-]; cbn; lia|].
  destruct (until_comma s) as [t r]. intros [= <- <-]. specialize (IH t eq_refl). cbn. lia.
Qed.
Lemma skip_length s : (String.length (skip_commas s) ≤ String.length s)%nat.
Proof. induction s as [|a s IH]; [done|]. rewrite skip_cons. destruct (is_comma a); cbn; lia. Qed.
Lemma skip_first s a t : skip_commas s = String a t → is_comma a = false.
Proof.
  induction s as [|b s IH]; [done|]. rewrite skip_cons. destruct (is_comma b) eqn:E; [done|]. by intros [= -> ->].
Qed.
(** A token is taken from the front, and the rest is shorter. *)
Lemma strtok_spec s :
  match strtok_r s with
  | None => tokens s = []
  | Some (tok, rest) => tokens s = tok :: tokens rest ∧ (String.length rest < String.length s)%nat
  end.
Proof.
  unfold strtok_r. rewrite <-tokens_skip. pose proof (skip_length s) as Hl.
  destruct (skip_commas s) as [|a t] eqn:E; [done|]. apply skip_first in E. rewrite until_cons, E.
  destruct (until_comma t) as [tok rest] eqn:Eu. split.
  - unfold tokens. rewrite split_cons, E. destruct (until_split t tok rest Eu) as [->|[-> ->]]; by rewrite filter_cons_True.
  - apply until_length in Eu. cbn in Hl. lia.
Qed.

Lemma token_bits_known tok : is_Some (token_bits tok) ↔ known tok.
Proof.
  unfold token_bits, known, category_bits, log_categories. split.
  - repeat case_bool_decide; subst; intros [? [=]]; eauto.
  - intros [->|[c ->]]; [by eexists|]. destruct c; by eexists.
Qed.
Lemma token_bits_bit tok bits c :
  token_bits tok = Some bits →
  Z.testbit bits (category_index c) = bool_decide (tok = "all" ∨ tok = lsdn_log_category_name c).
Proof.
  intros H. assert (known tok) as [->|[c' ->]] by (apply token_bits_known; by eexists).
  - injection H as <-. by destruct c.
  - destruct c'; injection H as <-; by destruct c.
Qed.

Lemma mask_loop_spec fuel env s :
  (String.length env < fuel)%nat →
  match mask_loop fuel env s with
  | Ok _ s' =>
      Forall known (tokens env) ∧ once s' = once s ∧ stderr s' = stderr s ∧
      ∀ c, Z.testbit (mask s') (category_index c) =
           Z.testbit (mask s) (category_index c) || bool_decide ("all" ∈ tokens env ∨ lsdn_log_category_name c ∈ tokens env)
  | Fault f => f = Aborted ∧ ¬ Forall known (tokens env)
  end.
Proof.
  revert env s. induction fuel as [|fuel IH]; intros env s Hf; [lia|]. cbn [mask_loop].
  pose proof (strtok_spec env) as Ht. destruct (strtok_r env) as [[tok rest]|].
  - destruct Ht as [-> Hl]. destruct (token_bits tok) as [bits|] eqn:Eb.
    + unfold mbind, M_bind. cbn. specialize (IH rest (LogState (once s) (Z.lor (mask s) bits) (stderr s)) ltac:(lia)).
      assert (known tok) as Hk by (apply token_bits_known; by eexists).
      destruct (mask_loop fuel rest _) as [[] s'|f]; cbn in *.
      * destruct IH as (HF & Ho & He & Hb). split_and!; [by constructor|done|done|]. intros c.
        rewrite Hb, Z.lor_spec, (token_bits_bit _ _ c Eb), <-orb_assoc. f_equal.
        apply eq_true_iff_eq. rewrite orb_true_iff, !bool_decide_eq_true. set_solver.
      * destruct IH as [-> HF]. split; [done|]. by intros [_ ?]%list.Forall_cons.
    + unfold mbind, M_bind. cbn. split; [done|]. intros [Hk _]%list.Forall_cons.
      apply token_bits_known in Hk as [? ?]. congruence.
  - rewrite Ht. cbn. split_and!; [constructor|done|done|]. intros c. rewrite bool_decide_false, orb_false_r by set_solver. done.
Qed.

(** Before anything is logged. *)
Definition log_start : log_state := LogState false 0 [].
Lemma enabled_bit c s : lsdn_log_enabled c s = Ok (Z.testbit (mask s) (category_index c)) s.
Proof.
  unfold lsdn_log_enabled, gets. f_equal. destruct (Z.testbit (mask s) (category_index c)) eqn:E.
  - apply negb_true_iff, Z.eqb_neq. intros H.
    assert (Z.testbit (Z.land (Z.shiftl 1 (category_index c)) (mask s)) (category_index c) = false) as H' by by rewrite H, Z.bits_0.
    rewrite Z.land_spec, E, andb_true_r in H'. by destruct c.
  - apply negb_false_iff, Z.eqb_eq, Z.bits_inj'. intros i Hi. rewrite Z.land_spec, Z.bits_0.
    destruct (Z.eq_dec i (category_index c)) as [->|Hne]; [by rewrite E, andb_false_r|].
    by rewrite Z.shiftl_1_l, Z.pow2_bits_false by congruence.
Qed.
(** C34: What is logged is what LSDN_DEBUG asks for: the first message reads it, ends the program if
    there is a name it does not know, and else is logged exactly if its category is named, or
    all; later messages do not read it again, whatever it is then. The loop over the names ends. *)
Theorem log_exact (env : string) (c : lsdn_log_category) (text : string) :
  let on c := bool_decide ("all" ∈ tokens env ∨ lsdn_log_category_name c ∈ tokens env) in
  let written c text := if on c then ["LS-"; lsdn_log_category_name c; ": "; text] else [] in
  match lsdn_vlog (Some env) true c text log_start with
  | Ok _ s =>
      Forall known (tokens env) ∧ stderr s = written c text ∧
      ∀ env' ok' c' text', ∃ s', lsdn_vlog env' ok' c' text' s = Ok tt s' ∧ mask s' = mask s ∧
        stderr s' = stderr s ++ written c' text'
  | Fault f => f = Aborted ∧ ¬ Forall known (tokens env)
  end.
Proof.
  intros on written. unfold lsdn_vlog, lsdn_log_init. unfold mbind, M_bind, get, modify, log_mask_from_env. cbn -[mask_loop lsdn_log_enabled].
  pose proof (mask_loop_spec (S (String.length env)) env (LogState true 0 []) ltac:(lia)) as H.
  destruct (mask_loop _ env _) as [[] s|f]; [|done]. destruct H as (HF & Ho & He & Hb). cbn in Ho, He.
  assert (∀ c, Z.testbit (mask s) (category_index c) = on c) as Hon by (intros c'; rewrite Hb; cbn; by rewrite Z.bits_0).
  rewrite enabled_bit, Hon.
  assert (∀ env' ok' c' text' s', once s' = true → mask s' = mask s →
    ∃ s'', lsdn_vlog env' ok' c' text' s' = Ok tt s'' ∧ mask s'' = mask s ∧ stderr s'' = stderr s' ++ written c' text') as Hlater.
  { intros env' ok' c' text' s' Ho' Hm'. unfold lsdn_vlog, lsdn_log_init. unfold mbind, M_bind, get, modify.
    cbn -[lsdn_log_enabled]. rewrite Ho'. cbn -[lsdn_log_enabled]. rewrite enabled_bit, Hm', Hon. unfold written.
    destruct (on c'); cbn; [by eexists|]. exists s'. by rewrite app_nil_r. }
  unfold written at 1. destruct (on c); cbn -[lsdn_log_enabled]; (split; [done|split; [by rewrite He|]]); intros.
  - by apply (Hlater env' ok' c' text' (LogState (once s) (mask s) _)).
  - by apply Hlater.
Qed.
Example log_some :
  (lsdn_vlog (Some "rules,,nlerr,") true LSDN_NLERR "no route" log_start,
   lsdn_vlog (Some "rules,,nlerr,") true LSDNL_NETOPS "no route" log_start,
   lsdn_vlog (Some "rules,all ") true LSDNL_RULES "no route" log_start) =
  (Ok tt (LogState true 6 ["LS-"; "nlerr"; ": "; "no route"]), Ok tt (LogState true 6 []), Fault Aborted).
Proof. reflexivity. Qed.
