(* ===== verification/Client.v ===== *)
(** * The client of the daemon ([lsctlc/main.c])

    lsctlc copies its input (the words of its command line, or its standard input) to a socket
    and what comes from the socket to its standard output, with a buffer for each direction.
    The model is the main loop with its [select]: a [wake] is what [select] and the calls after
    it answer. The theorem is about its progress: whatever the sizes of the reads and writes,
    everything is delivered in both directions, and then the loop ends. *)

From Stdlib Require Import ZArith Lia.
From stdpp Require Import base list strings.
From Stdlib Require Import Ascii.
From S2P Require Import Prelude.

Local Open Scope list_scope.

(** ** Buffers *)

(** What [read] and [write] answer. *)
Inductive rres := RErr | ROk (l : list ascii).
Inductive wres := WErr | WOk (n : nat).

Record buf := Buf { size : nat; used : nat; pos : nat; data : list ascii }.

Definition buf_reset (b : buf) : buf := Buf (size b) 0 0 (data b).
(** The bytes the buffer still has to write. *)
Definition pending (b : buf) : list ascii := drop (pos b) (take (used b) (data b)).

(** The new buffer, the answer of [write], and the bytes written. *)
Definition buf_write (b : buf) (w : wres) : buf * wres * list ascii :=
  let '(b, out) := match w with
                   | WErr => (b, [])
                   | WOk n => (Buf (size b) (used b) (pos b + n) (data b), take n (pending b))
                   end in
  (if (used b <=? pos b)%nat then buf_reset b else b, w, out).
Definition buf_read (b : buf) (r : rres) : buf :=
  match r with
  | RErr => b
  | ROk l => Buf (size b) (length l) (pos b) (l ++ drop (length l) (data b))
  end.

(** ** The loop *)

(** The variables of [main], and what the calls have moved: [taken] from standard input,
    [sent] to the socket, which [shut] closes for writing, [received] from the socket,
    [printed] to standard output. *)
Record client := Client {
  sendbuf : buf; rcvbuf : buf; input_closed : bool; socket_closed : bool;
  taken : list ascii; sent : list ascii; shut : bool; received : list ascii; printed : list ascii }.

(** A turn of the loop: whether [select] fails, and for each descriptor that is ready the
    answer of the call on it. *)
Record wake := Wake {
  select_ok : bool;
  stdout_write : option wres; sock_read : option rres;
  sock_write : option wres; stdin_read : option rres }.

(** Standard output, or the socket; [inr] is a [break] with the value of [ret]. *)
Definition receive_side (w : wake) (s : client) : client + Z :=
  let '(Client sb rb ic sc tk st sh rv pr) := s in
  if negb (used rb =? 0)%nat then
    match stdout_write w with
    | None => inl s
    | Some r =>
        let '(rb, r, out) := buf_write rb r in
        match r with WErr => inr 1%Z | WOk _ => inl (Client sb rb ic sc tk st sh rv (pr ++ out)) end
    end
  else if negb sc then
    match sock_read w with
    | None => inl s
    | Some RErr => inr 1%Z
    | Some (ROk l) =>
        inl (Client sb (buf_read rb (ROk l)) ic (match l with [] => true | _ => sc end) tk st sh (rv ++ l) pr)
    end
  else inl s.

(** The socket, or standard input. *)
Definition send_side (cmd_on_cmdline : bool) (w : wake) (s : client) : client + Z :=
  let '(Client sb rb ic sc tk st sh rv pr) := s in
  if negb (used sb =? 0)%nat then
    match sock_write w with
    | None => inl s
    | Some r =>
        let '(sb, r, out) := buf_write sb r in
        match r with
        | WErr => inr 1%Z
        | WOk _ => inl (Client sb rb ic sc tk (st ++ out) (sh || (cmd_on_cmdline && (used sb =? 0)%nat)) rv pr)
        end
    end
  else if negb ic then
    match stdin_read w with
    | None => inl s
    | Some RErr => inr 1%Z
    | Some (ROk l) =>
        let eof := match l with [] => true | _ => false end in
        inl (Client (buf_read sb (ROk l)) rb (ic || eof) sc (tk ++ l) st (sh || eof) rv pr)
    end
  else inl s.

Definition client_turn (cmd_on_cmdline : bool) (w : wake) (s : client) : client + Z :=
  if negb (select_ok w) then inr 1%Z else
  match receive_side w s with inr r => inr r | inl s => send_side cmd_on_cmdline w s end.

Definition finished (s : client) : bool := socket_closed s && (used (rcvbuf s) =? 0)%nat.

(** [inl] is the state when the turns are used up, [inr] the value that [main] returns, with
    the last state. *)
Fixpoint client_loop (cmd_on_cmdline : bool) (turns : list wake) (s : client) : client * option Z :=
  if finished s then (s, Some 0%Z) else
  match turns with
  | [] => (s, None)
  | w :: turns =>
      match client_turn cmd_on_cmdline w s with
      | inr ret => (s, Some ret)
      | inl s => client_loop cmd_on_cmdline turns s
      end
  end.

Definition BUFSIZE : nat := 4096.
(** The words of the command line, merged by [Tcl_Merge], or standard input. *)
Definition client_start (uninit : list ascii) (cmdline : option (list ascii)) : client :=
  Client
    match cmdline with
    | Some text => Buf (length text + 1) (length text) 0 (text ++ [Ascii.zero])
    | None => Buf BUFSIZE 0 0 (take BUFSIZE uninit)
    end
    (Buf BUFSIZE 0 0 (take BUFSIZE uninit)) (match cmdline with Some _ => true | None => false end) false
    (match cmdline with Some text => text | None => [] end) [] false [] [].

(** ** The environment *)

Section world.
Context (cmd_on_cmdline : bool) (input reply : list ascii).

(** A descriptor answers only what was asked for. What is read comes from the input, and from
    the reply of the daemon, which closes the connection after it has read all; the end of a
    stream is an empty read. *)
Definition read_ok (room : nat) (before all : list ascii) (r : option rres) : Prop :=
  match r with
  | None => True
  | Some RErr => False
  | Some (ROk l) => (length l ≤ room)%nat ∧ before ++ l `prefix_of` all ∧ (l = [] → before = all)
  end.
Definition write_ok (b : buf) (w : option wres) : Prop :=
  match w with None => True | Some WErr => False | Some (WOk n) => (1 ≤ n ≤ length (pending b))%nat end.
Definition receive_ready (w : wake) (s : client) : bool :=
  if negb (used (rcvbuf s) =? 0)%nat then bool_decide (is_Some (stdout_write w))
  else negb (socket_closed s) && bool_decide (is_Some (sock_read w)).
Definition send_ready (w : wake) (s : client) : bool :=
  if negb (used (sendbuf s) =? 0)%nat then bool_decide (is_Some (sock_write w))
  else negb (input_closed s) && bool_decide (is_Some (stdin_read w)).
(** A turn without errors: [select] answers when one of the descriptors is ready. *)
Definition wake_ok (w : wake) (s : client) : Prop :=
  select_ok w = true ∧ (receive_ready w s || send_ready w s) = true ∧
  (used (rcvbuf s) ≠ 0%nat → write_ok (rcvbuf s) (stdout_write w)) ∧
  (used (rcvbuf s) = 0%nat → socket_closed s = false →
     read_ok (size (rcvbuf s)) (received s) reply (sock_read w) ∧ (sock_read w = Some (ROk []) → shut s = true)) ∧
  (used (sendbuf s) ≠ 0%nat → write_ok (sendbuf s) (sock_write w)) ∧
  (used (sendbuf s) = 0%nat → input_closed s = false → read_ok (size (sendbuf s)) (taken s) input (stdin_read w)).

(** Every turn of a run is one of these, as long as the loop runs. *)
Fixpoint turns_ok (turns : list wake) (s : client) : Prop :=
  match turns with
  | [] => True
  | w :: turns =>
      finished s = false →
      wake_ok w s ∧ match client_turn cmd_on_cmdline w s with inl s => turns_ok turns s | inr _ => True end
  end.

#[global] Instance read_ok_dec room before all r : Decision (read_ok room before all r).
Proof. destruct r as [[|l]|]; apply _. Defined.
#[global] Instance write_ok_dec b w : Decision (write_ok b w).
Proof. destruct w as [[|n]|]; apply _. Defined.
#[global] Instance rres_eq_dec : EqDecision rres.
Proof. solve_decision. Defined.
#[global] Instance wake_ok_dec w s : Decision (wake_ok w s).
Proof. unfold wake_ok. apply _. Defined.
#[global] Instance turns_ok_dec turns s : Decision (turns_ok turns s).
Proof.
  revert s. induction turns as [|w turns IH]; intros s; [apply _|].
  cbn. destruct (client_turn cmd_on_cmdline w s); apply _.
Defined.

(** ** Buffers move bytes in order *)

Definition buf_ok (b : buf) : Prop :=
  (used b ≤ size b)%nat ∧ length (data b) = size b ∧ (pos b ≤ used b)%nat ∧ (pos b = used b → used b = 0%nat).
(** What came out of a buffer and what is in it is what went in. *)
Definition moves (b : buf) (inp out : list ascii) : Prop := buf_ok b ∧ out ++ pending b = inp.

Lemma length_pending b : buf_ok b → length (pending b) = (used b - pos b)%nat.
Proof. intros (? & Hl & _). unfold pending. rewrite length_drop, length_take. lia. Qed.
Lemma pending_empty b : buf_ok b → used b = 0%nat ↔ pending b = [].
Proof.
  intros Hb. rewrite <-length_zero_iff_nil, length_pending by done. destruct Hb as (_ & _ & ? & H). lia.
Qed.
Lemma moves_write b inp out n :
  moves b inp out → (1 ≤ n ≤ length (pending b))%nat →
  let '(b', r, l) := buf_write b (WOk n) in
  moves b' inp (out ++ l) ∧ length (pending b') = (length (pending b) - n)%nat ∧ size b' = size b.
Proof.
  intros [Hb Hm] Hn. assert (Hl := length_pending b Hb). destruct b as [sz us ps d]. cbn in *.
  destruct Hb as (Hu & Hd & Hp & Hz). cbn in *. unfold pending in *. cbn in *.
  destruct (us <=? ps + n)%nat eqn:E; cbn -[take drop]; [apply Nat.leb_le in E|apply Nat.leb_gt in E].
  - rewrite (take_ge _ n) by lia. split_and!; [|rewrite take_0; cbn; lia|done].
    split; [split_and!; cbn; lia|]. unfold pending. cbn -[take drop]. by rewrite app_nil_r.
  - split_and!; [|rewrite !length_drop, !length_take; lia|done].
    split; [split_and!; cbn; lia|]. unfold pending. cbn -[take drop].
    rewrite <-drop_drop, <-app_assoc, take_drop. done.
Qed.
Lemma moves_read b inp out l :
  moves b inp out → used b = 0%nat → (length l ≤ size b)%nat →
  moves (buf_read b (ROk l)) (inp ++ l) out ∧ pending (buf_read b (ROk l)) = l.
Proof.
  intros [Hb Hm] Hu Hl. assert (He := proj1 (pending_empty b Hb) Hu). rewrite He, app_nil_r in Hm. subst out.
  destruct b as [sz us ps d]. destruct Hb as (? & Hd & Hp & _). cbn in *. subst us.
  assert (ps = 0%nat) as -> by lia.
  assert (pending (Buf sz (length l) 0 (l ++ drop (length l) d)) = l) as Hpd
    by (unfold pending; cbn -[take]; by rewrite take_app_length).
  split; [split|done]; [|by rewrite Hpd]. split_and!; cbn; rewrite ?length_app, ?length_drop; lia.
Qed.

#[local] Arguments buf_read : simpl never.
#[local] Arguments buf_write : simpl never.
#[local] Arguments pending : simpl never.

(** ** Every turn makes progress *)

Record client_inv (s : client) : Prop := {
  inv_send : moves (sendbuf s) (taken s) (sent s);
  inv_receive : moves (rcvbuf s) (received s) (printed s);
  inv_room : (1 ≤ size (rcvbuf s))%nat ∧ (input_closed s = false → 1 ≤ size (sendbuf s))%nat;
  inv_input : taken s `prefix_of` input;
  inv_reply : received s `prefix_of` reply;
  inv_shut : shut s = true ↔ input_closed s = true ∧ used (sendbuf s) = 0%nat;
  inv_mode : if cmd_on_cmdline then input_closed s = true else input_closed s = true → used (sendbuf s) = 0%nat;
  inv_closed : input_closed s = true → taken s = input;
  inv_done : socket_closed s = true → received s = reply ∧ shut s = true }.

(** What is still to be done: every byte is read and then written. *)
Definition work (s : client) : nat :=
  (2 * (length input - length (taken s)) + length (pending (sendbuf s)) + Nat.b2n (negb (input_closed s)) +
   2 * (length reply - length (received s)) + length (pending (rcvbuf s)) + Nat.b2n (negb (socket_closed s)))%nat.

Lemma read_work (l inp all : list ascii) :
  inp ++ l `prefix_of` all → (l = [] → inp = all) →
  l = [] ∧ inp = all ∨
  l ≠ [] ∧ (2 * (length all - length (inp ++ l)) + length l < 2 * (length all - length inp))%nat.
Proof.
  intros Hp%prefix_length He. rewrite length_app in *. destruct l; [by left; auto|right]. cbn in *. split; [done|lia].
Qed.
Ltac unchanged := eexists; split; [done|]; split; [by constructor|]; split; [done|]; by split_and?.
Lemma receive_turn w s :
  client_inv s → wake_ok w s →
  ∃ s', receive_side w s = inl s' ∧ client_inv s' ∧ (work s' ≤ work s)%nat ∧
        (receive_ready w s = true → (work s' < work s)%nat) ∧
        sendbuf s' = sendbuf s ∧ input_closed s' = input_closed s ∧ taken s' = taken s.
Proof.
  intros [Hs Hr Hrm Hi Hp Hsh Hm Hc Hd] (_ & _ & Hw & Hrd & _).
  destruct s as [sb rb ic sc tk st sh rv pr]. cbn in *. unfold receive_ready. cbn.
  destruct (Nat.eqb_spec (used rb) 0) as [Hu|Hu]; cbn.
  - destruct sc; cbn; [unchanged|]. destruct (Hrd Hu eq_refl) as [Hok Heof].
    destruct (sock_read w) as [[|l]|]; [done| |unchanged].
    destruct Hok as (Hl & Hpre & He). destruct (moves_read rb rv pr l Hr Hu Hl) as [Hm' Hpd].
    assert (Hwk := read_work l rv reply Hpre He).
    assert (length (pending rb) = 0%nat) by (apply length_zero_iff_nil, pending_empty; [apply Hr|done]).
    eexists. split; [done|]. split.
    + split; cbn; try done. destruct l; [|done]. intros _. rewrite app_nil_r.
      split; [by apply He|by apply Heof].
    + unfold work. cbn -[Nat.mul]. rewrite Hpd.
      destruct Hwk as [[-> ->]|[? ?]]; [|destruct l; [done|]]; cbn in *; rewrite ?app_nil_r; split_and!; try done; lia.
  - destruct (stdout_write w) as [[|n]|]; [by destruct (Hw Hu)| |unchanged].
    assert (Hmw := moves_write rb rv pr n Hr (Hw Hu)). destruct (buf_write rb (WOk n)) as [[rb' r] l] eqn:Eb.
    assert (r = WOk n) as -> by (unfold buf_write in Eb; by destruct (_ <=? _)%nat; simplify_eq).
    destruct Hmw as (Hm' & Hpd & Hsz). specialize (Hw Hu). cbn in Hw.
    eexists. split; [done|]. split; [by split; cbn; rewrite ?Hsz|].
    unfold work. cbn -[Nat.mul]. rewrite Hpd. split_and!; try done; try lia.
Qed.
Lemma send_turn w s :
  client_inv s →
  (used (sendbuf s) ≠ 0%nat → write_ok (sendbuf s) (sock_write w)) →
  (used (sendbuf s) = 0%nat → input_closed s = false → read_ok (size (sendbuf s)) (taken s) input (stdin_read w)) →
  ∃ s', send_side cmd_on_cmdline w s = inl s' ∧ client_inv s' ∧ (work s' ≤ work s)%nat ∧
        (send_ready w s = true → (work s' < work s)%nat).
Proof.
  intros [Hs Hr Hrm Hi Hp Hsh Hm Hc Hd] Hw Hrd.
  destruct s as [sb rb ic sc tk st sh rv pr]. cbn in *. unfold send_ready. cbn.
  destruct (Nat.eqb_spec (used sb) 0) as [Hu|Hu]; cbn.
  - destruct ic; cbn; [unchanged|]. assert (Hok := Hrd Hu eq_refl).
    destruct (stdin_read w) as [[|l]|]; [done| |unchanged].
    destruct Hok as (Hl & Hpre & He). destruct (moves_read sb tk st l Hs Hu Hl) as [Hm' Hpd].
    assert (Hwk := read_work l tk input Hpre He).
    assert (length (pending sb) = 0%nat) by (apply length_zero_iff_nil, pending_empty; [apply Hs|done]).
    eexists. split; [done|]. split.
    + destruct cmd_on_cmdline eqn:Hcmd; [done|]. assert (sh = false) as -> by (destruct sh; [by destruct (proj1 Hsh eq_refl)|done]).
      assert (sc = false) as -> by (destruct sc; [by destruct (Hd eq_refl)|done]).
      destruct l as [|a l]; split; cbn; rewrite ?Hcmd; try done; [by destruct Hrm|by rewrite app_nil_r, He|by split; [|intros []]].
    + unfold work. cbn -[Nat.mul]. rewrite Hpd.
      destruct Hwk as [[-> ->]|[? ?]]; [|destruct l; [done|]]; cbn in *; rewrite ?app_nil_r; split_and!; try done; lia.
  - destruct (sock_write w) as [[|n]|]; [by destruct (Hw Hu)| |unchanged].
    assert (Hmw := moves_write sb tk st n Hs (Hw Hu)). destruct (buf_write sb (WOk n)) as [[sb' r] l] eqn:Eb.
    assert (r = WOk n) as -> by (unfold buf_write in Eb; by destruct (_ <=? _)%nat; simplify_eq).
    destruct Hmw as (Hm' & Hpd & Hsz). specialize (Hw Hu). cbn in Hw.
    eexists. split; [done|]. split.
    + assert (sh = false) as -> by (destruct sh; [by destruct (proj1 Hsh eq_refl)|done]).
      assert (sc = false) as -> by (destruct sc; [by destruct (Hd eq_refl)|done]).
      split; cbn; rewrite ?Hsz; try done; destruct cmd_on_cmdline; cbn; try done.
      * rewrite Hm, Nat.eqb_eq. tauto.
      * split; [done|]. intros [Hic _]. by destruct Hu, (Hm Hic).
      * intros Hic. by destruct Hu, (Hm Hic).
    + unfold work. cbn -[Nat.mul]. rewrite Hpd. split_and!; try done; try lia.
Qed.
Lemma client_turn_ok w s :
  client_inv s → wake_ok w s →
  ∃ s', client_turn cmd_on_cmdline w s = inl s' ∧ client_inv s' ∧ (work s' < work s)%nat.
Proof.
  intros Hi Hw. destruct (receive_turn w s Hi Hw) as (s1 & E1 & Hi1 & Hle1 & Hlt1 & Esb & Eic & Etk).
  destruct Hw as (Hsel & Hrdy & _ & _ & Hws & Hrs). rewrite <-Esb in Hws. rewrite <-Esb, <-Eic, <-Etk in Hrs.
  destruct (send_turn w s1 Hi1 Hws Hrs) as (s2 & E2 & Hi2 & Hle2 & Hlt2).
  exists s2. unfold client_turn. rewrite Hsel, E1. split_and!; [done..|].
  assert (send_ready w s1 = send_ready w s) as Hr by (unfold send_ready; by rewrite Esb, Eic).
  apply orb_prop in Hrdy as [H|H]; [specialize (Hlt1 H)|rewrite <-Hr in H; specialize (Hlt2 H)]; lia.
Qed.
Lemma finished_delivered s :
  client_inv s → finished s = true → sent s = input ∧ shut s = true ∧ printed s = reply.
Proof.
  intros [[Hb Hs] [Hb' Hr] _ _ _ Hsh _ Hc Hd] [Hsc Hu%Nat.eqb_eq]%andb_prop.
  destruct (Hd Hsc) as [Erv Esh]. destruct (proj1 Hsh Esh) as [Hic Hu'].
  rewrite (proj1 (pending_empty _ Hb) Hu'), app_nil_r, Hc in Hs by done.
  rewrite (proj1 (pending_empty _ Hb') Hu), app_nil_r, Erv in Hr. done.
Qed.
Lemma client_loop_delivers turns s :
  client_inv s → turns_ok turns s → (work s ≤ length turns)%nat →
  ∃ s', client_loop cmd_on_cmdline turns s = (s', Some 0%Z) ∧ sent s' = input ∧ shut s' = true ∧ printed s' = reply.
Proof.
  revert s. induction turns as [|w turns IH]; intros s Hi Ht Hn; cbn [length] in Hn; cbn [client_loop].
  - destruct (finished s) eqn:F; [exists s; by eauto using finished_delivered|]. exfalso.
    unfold finished in F. unfold work in Hn. destruct (socket_closed s); cbn in *; [|lia].
    apply Nat.eqb_neq in F. destruct Hi as [_ [Hb _] _ _ _ _ _ _ _]. rewrite (length_pending _ Hb) in Hn.
    destruct Hb as (_ & _ & ? & ?). lia.
  - destruct (finished s) eqn:F; [exists s; by eauto using finished_delivered|].
    destruct (Ht F) as [Hw Ht']. destruct (client_turn_ok w s Hi Hw) as (s' & E & Hi' & Hlt).
    rewrite E in Ht'. rewrite E. apply IH; [done..|lia].
Qed.
Lemma client_start_inv uninit cmdline :
  (BUFSIZE ≤ length uninit)%nat →
  cmd_on_cmdline = bool_decide (is_Some cmdline) → (∀ text, cmdline = Some text → text = input ∧ text ≠ []) →
  client_inv (client_start uninit cmdline) ∧
  (work (client_start uninit cmdline) ≤ 2 * (length input + length reply) + 2)%nat.
Proof.
  intros Hu Hcmd Hc. assert (buf_ok (Buf BUFSIZE 0 0 (take BUFSIZE uninit))) as Hb.
  { split_and!; cbn -[BUFSIZE take]; [apply Nat.le_0_l| |done|done]. rewrite length_take. lia. }
  assert (moves (Buf BUFSIZE 0 0 (take BUFSIZE uninit)) [] []) as Hm by (split; [done|]; by rewrite (proj1 (pending_empty _ Hb))).
  assert (pending (Buf BUFSIZE 0 0 (take BUFSIZE uninit)) = []) as Hp by by apply pending_empty.
  assert (1 ≤ BUFSIZE)%nat as H1 by (apply Nat.leb_le; by vm_compute).
  destruct cmdline as [text|]; cbn in Hcmd.
  - destruct (Hc text eq_refl) as [-> Ht]. assert (length input ≠ 0)%nat by by rewrite length_zero_iff_nil.
    set (sb := Buf (length input + 1) (length input) 0 (input ++ [Ascii.zero])).
    assert (buf_ok sb) as Hsb by (split_and!; cbn; rewrite ?length_app; cbn; lia).
    assert (pending sb = input) as Hps by (unfold pending; cbn; by rewrite take_app_length).
    split; [split; cbn -[BUFSIZE take]; rewrite ?Hcmd; try done; [apply prefix_nil|by split; [|intros []]]|].
    unfold work. cbn -[BUFSIZE take Nat.mul]. change (Buf (length input + 1) _ _ _) with sb. rewrite Hps, Hp. cbn. lia.
  - split; [split; cbn -[BUFSIZE take]; rewrite ?Hcmd; try done; [apply prefix_nil..|by split; [|intros []]]|].
    unfold work. cbn -[BUFSIZE take Nat.mul]. rewrite Hp. cbn. lia.
Qed.
End world.

(** C27: The client delivers: in every run without errors, whatever the sizes of its reads and
    writes and the order in which the descriptors become ready, the loop ends after at most two
    turns for each byte of input and reply and two more, answering 0; by then the whole input has
    been sent and the socket closed for writing, and the whole reply has been printed. Input
    comes from the command line or from standard input; the daemon may answer at any time, but
    closes the connection only after the client has. *)
Theorem client_delivers (cmdline : option (list ascii)) (uninit input reply : list ascii) (turns : list wake) :
  (BUFSIZE ≤ length uninit)%nat → (∀ text, cmdline = Some text → text = input ∧ text ≠ []) →
  turns_ok (bool_decide (is_Some cmdline)) input reply turns (client_start uninit cmdline) →
  (2 * (length input + length reply) + 2 ≤ length turns)%nat →
  ∃ s, client_loop (bool_decide (is_Some cmdline)) turns (client_start uninit cmdline) = (s, Some 0%Z) ∧
       sent s = input ∧ shut s = true ∧ printed s = reply.
Proof.
  intros Hu Hc Ht Hn.
  destruct (client_start_inv (bool_decide (is_Some cmdline)) input reply uninit cmdline Hu eq_refl Hc) as [Hi Hw].
  apply (client_loop_delivers _ input reply); [done..|lia].
Qed.

(** Three bytes from standard input, sent in two writes while the reply comes in. *)
Definition demo_turns : list wake :=
  let idle := Wake true None None None None in
  [Wake true None None None (Some (ROk ["n"; "e"; "t"]%char));
   Wake true None (Some (ROk ["o"]%char)) (Some (WOk 1)) None;
   Wake true (Some (WOk 1)) None None None;
   Wake true None None (Some (WOk 2)) None;
   Wake true None None None (Some (ROk []));
   Wake true None (Some (ROk ["k"]%char)) None None;
   Wake true (Some (WOk 1)) None None None;
   Wake true None (Some (ROk [])) None None] ++ replicate 4 idle.
Lemma client_delivers_witness :
  ∃ s, client_loop false demo_turns (client_start (replicate BUFSIZE Ascii.zero) None) = (s, Some 0%Z) ∧
       sent s = ["n"; "e"; "t"]%char ∧ shut s = true ∧ printed s = ["o"; "k"]%char.
Proof.
  apply (client_delivers None (replicate BUFSIZE Ascii.zero) _ ["o"; "k"]%char demo_turns).
  - by rewrite length_replicate.
  - done.
  - apply (bool_decide_unpack _). by vm_compute.
  - by vm_compute.
Defined.
