(* ===== verification/Daemon.v ===== *)
(** * The daemon ([daemon/lsctld.c])

    lsctld becomes a daemon and then evaluates the scripts that clients send over a socket: each
    connection carries one script, and the descriptors 1 and 2 of the process are the connection
    while the script runs. The interpreter is a parameter; its commands are those of [Lsctl].
    The output of scripts goes through the stdio buffer of [stdout], which nothing flushes: how
    much of it is transmitted at which time is a parameter too. The theorems: if reads, [accept]
    and [realloc] succeed, a script arrives as it was sent, up to its first NUL, in a buffer
    that is not overrun; the descriptors are given back; whoever started the daemon is told how
    that went. *)

From Stdlib Require Import ZArith Lia Ascii.
From Stdlib Require String.
From stdpp Require Import base list sets gmap strings.
From S2P Require Import Prelude.
From S2P Require Import Client.

Local Open Scope list_scope.
Local Open Scope Z_scope.

(** ** The state *)

(** What a descriptor refers to. *)
Inductive fd_kind := FdListen | FdSignal | FdConn (conn : nat) | FdOther.
#[global] Instance fd_kind_eq_dec : EqDecision fd_kind.
Proof. solve_decision. Defined.

Section daemon.
(** The interpreter: the status of a script (TCL_OK is 0) and what it writes to the standard
    output, unless a command ends the process; and the trace of an error ([-errorinfo]). *)
Context {interp : Type}.
Context (Tcl_Eval : list ascii → M interp (Z * list ascii)).
Context (errorinfo : interp → list ascii).
(** What fresh memory holds. *)
Context (uninit : nat → list ascii).
(** The buffering of [stdout]: of so many bytes in its buffer after a call, how many are
    transmitted. Without a buffer these are all. *)
Context (transmitted : nat → nat).

(** The static variables, the local ones of [main], the descriptors of the process, and what
    was written to each connection. *)
Record daemon := Daemon {
  cmd_size : Z; cmd : list ascii; iobuf : list ascii;
  ip : interp; exitcode : Z; fds : gmap Z fd_kind; replies : gmap nat (list ascii);
  syslog : list Z (** the exit codes that were logged *);
  stdout : list ascii (** the buffer of [stdout] *) }.

Definition set_cmd (size : Z) (c : list ascii) (d : daemon) : daemon :=
  Daemon size c (iobuf d) (ip d) (exitcode d) (fds d) (replies d) (syslog d) (stdout d).
Definition set_iobuf (b : list ascii) (d : daemon) : daemon :=
  Daemon (cmd_size d) (cmd d) b (ip d) (exitcode d) (fds d) (replies d) (syslog d) (stdout d).
Definition set_ip (i : interp) (d : daemon) : daemon :=
  Daemon (cmd_size d) (cmd d) (iobuf d) i (exitcode d) (fds d) (replies d) (syslog d) (stdout d).
Definition set_exitcode (e : Z) (d : daemon) : daemon :=
  Daemon (cmd_size d) (cmd d) (iobuf d) (ip d) e (fds d) (replies d) (syslog d) (stdout d).
Definition set_fds (f : gmap Z fd_kind) (d : daemon) : daemon :=
  Daemon (cmd_size d) (cmd d) (iobuf d) (ip d) (exitcode d) f (replies d) (syslog d) (stdout d).

(** A step of the interpreter. *)
Definition in_interp {A} (m : M interp A) : M daemon A := λ d,
  match m (ip d) with Ok a i => Ok a (set_ip i d) | Fault f => Fault f end.

(** ** Memory *)

Definition NUL : ascii := Ascii.zero.
(** A string up to its NUL. *)
Fixpoint c_string (l : list ascii) : list ascii :=
  match l with
  | [] => []
  | a :: l => if bool_decide (a = NUL) then [] else a :: c_string l
  end.
(** [strncpy]: the bytes of [src] up to its NUL, then zeros, [n] in all; [src] is read up to its
    NUL or [n] bytes, and nothing may lie outside. *)
Definition strncpy (dst : list ascii) (at_ : Z) (src : list ascii) (n : Z) : option (list ascii) :=
  if (at_ + n <=? Z.of_nat (length dst)) && ((n <=? Z.of_nat (length src)) || (length (c_string src) <? length src)%nat)
  then
    let l := c_string (take (Z.to_nat n) src) in
    Some (take (Z.to_nat at_) dst ++ l ++ replicate (Z.to_nat n - length l) NUL ++
          drop (Z.to_nat (at_ + n)) dst)
  else None.
Definition store (dst : list ascii) (at_ : Z) (a : ascii) : option (list ascii) :=
  if at_ <? Z.of_nat (length dst) then Some (<[Z.to_nat at_ := a]> dst) else None.
Definition in_bounds (r : option (list ascii)) : M daemon (list ascii) :=
  match r with Some l => mret l | None => fail OutOfBounds end.

(** ** Descriptors *)

Definition lookup_fd (fd : Z) : M daemon (option fd_kind) := gets (λ d, fds d !! fd).
(** A descriptor that is not open is refused, without an effect. *)
Definition dup2 (fd fd2 : Z) : M daemon unit :=
  k ← lookup_fd fd;
  match k with None => mret tt | Some k => modify (λ d, set_fds (<[fd2 := k]> (fds d)) d) end.
Definition close (fd : Z) : M daemon unit := modify (λ d, set_fds (delete fd (fds d)) d).
(** To a descriptor that is a connection. *)
Definition write_fd (fd : Z) (l : list ascii) : M daemon unit :=
  k ← lookup_fd fd;
  match k with
  | Some (FdConn c) =>
      modify (λ d, Daemon (cmd_size d) (cmd d) (iobuf d) (ip d) (exitcode d) (fds d)
                     (<[c := default [] (replies d !! c) ++ l]> (replies d)) (syslog d) (stdout d))
  | _ => mret tt
  end.

(** The output of [puts], and of a command that uses it. *)
Definition put_stdout (l : list ascii) : M daemon unit :=
  d ← get;
  let buffer := stdout d ++ l in
  let n := transmitted (length buffer) in
  _ ← write_fd 1 (take n buffer);
  modify (λ d, Daemon (cmd_size d) (cmd d) (iobuf d) (ip d) (exitcode d) (fds d) (replies d) (syslog d) (drop n buffer)).

(** ** A connection *)

Definition BUF_SIZE : Z := 1024.

(** The answer of [accept], what the reads of the connection answer, and whether the buffer can
    grow each time. A descriptor of -1 can not be read. *)
Record connection := Connection { accepted : Z; reads : list rres; realloc_ok : list bool }.
Inductive served := Served | OutOfMemory | Waiting.

Section reading.
(** The loop over the reads: Waiting is a client that does not go on. *)
Fixpoint daemon_read_loop (reads : list rres) (reallocs : list bool) (pos : Z) : M daemon served :=
  match reads with
  | [] => mret Waiting
  | r :: reads =>
      (* size_t n = read(fdc, buf, BUF_SIZE) *)
      n ← match r with
          | RErr => mret (u64 (-1))
          | ROk l => _ ← modify (λ d, set_iobuf (l ++ drop (length l) (iobuf d)) d); mret (Z.of_nat (length l))
          end;
      if n =? 0 then mret Served else
      d ← get;
      let full := cmd_size d <=? u64 (pos + n) in
      if full && negb (default true (head reallocs)) then
        _ ← modify (set_cmd (u64 (cmd_size d * 2)) []); mret OutOfMemory
      else
      _ ← (if full then
             let size := u64 (cmd_size d * 2) in
             modify (set_cmd size (take (Z.to_nat size) (cmd d ++ uninit (Z.to_nat size - length (cmd d)))))
           else mret tt);
      d ← get;
      c ← in_bounds (strncpy (cmd d) pos (iobuf d) n);
      let pos := u64 (pos + n) in
      c ← in_bounds (store c pos NUL);
      _ ← modify (set_cmd (cmd_size d) c);
      daemon_read_loop reads (if full then tail reallocs else reallocs) pos
  end.
End reading.

(** The text of an error. *)
Definition error_text (trace : list ascii) : list ascii :=
  String.list_ascii_of_string "error: " ++ trace ++ [ascii_of_nat 10].

Definition serve (n : nat) (c : connection) : M daemon served :=
  let fdc := accepted c in
  _ ← (if fdc <? 0 then mret tt else modify (λ d, set_fds (<[fdc := FdConn n]> (fds d)) d));
  d ← get;
  c0 ← in_bounds (store (cmd d) 0 NUL);
  _ ← modify (set_cmd (cmd_size d) c0);
  _ ← dup2 fdc 1;
  _ ← dup2 fdc 2;
  r ← daemon_read_loop (if fdc <? 0 then [RErr] else reads c) (realloc_ok c) 0;
  match r with
  | Served =>
      d ← get;
      a ← in_interp (Tcl_Eval (c_string (cmd d)));
      let '(ret, out) := a in
      _ ← put_stdout out;
      _ ← (if negb (ret =? 0) then
             d ← get;
             _ ← write_fd 2 (error_text (errorinfo (ip d)));
             modify (set_exitcode 1)
           else mret tt);
      _ ← modify (λ d, Daemon (cmd_size d) (cmd d) (iobuf d) (ip d) (exitcode d) (fds d) (replies d)
                         (syslog d ++ [exitcode d]) (stdout d));
      _ ← close fdc;
      _ ← close 1;
      _ ← close 2;
      mret Served
  | r => mret r
  end.

(** ** The main loop *)

Definition SIGHUP : Z := 1.
Definition SIGINT : Z := 2.
Definition SIGQUIT : Z := 3.
Definition SIGTERM : Z := 15.
(** What [select] answers: an error (EINTR apart), a signal (a number below 1 is an error of
    [daemon_signal_next]), or a client. *)
Inductive event := EvInterrupted | EvSelectError | EvSignal (sig : Z) | EvConnection (c : connection).

(** The exit code, if the loop ends; [n] counts the connections. *)
Fixpoint main_loop (events : list event) (n : nat) : M daemon (option Z) :=
  match events with
  | [] => mret None
  | EvInterrupted :: events => main_loop events n
  | EvSelectError :: _ => mret (Some 0)
  | EvSignal sig :: events =>
      if sig <=? 0 then mret (Some 0) else
      if bool_decide (sig ∈ [SIGINT; SIGQUIT; SIGTERM]) then mret (Some 0)
      else main_loop events n
  | EvConnection c :: events =>
      r ← serve n c;
      match r with
      | Served => main_loop events (S n)
      | OutOfMemory => mret (Some 6)
      | Waiting => mret None
      end
  end.
End daemon.

Arguments daemon : clear implicits.

(** ** Becoming a daemon *)

(** The options, as [getopt_long] finds them. *)
Inductive option_found := OptSocket (path : string) | OptPidfile (path : string) | OptForeground | OptUnknown.
Record options := Options { opt_socket : option string; opt_pidfile : option string; opt_foreground : bool }.
(** The message on stderr is left out; [None] is [return 1]. *)
Fixpoint parse_options (l : list option_found) (o : options) : option options :=
  match l with
  | [] => Some o
  | OptSocket p :: l => parse_options l (Options (Some p) (opt_pidfile o) (opt_foreground o))
  | OptPidfile p :: l => parse_options l (Options (opt_socket o) (Some p) (opt_foreground o))
  | OptForeground :: l => parse_options l (Options (opt_socket o) (opt_pidfile o) true)
  | OptUnknown :: _ => None
  end.
Definition get_pidfile_name (o : options) : string :=
  match opt_pidfile o with
  | Some p => p
  | None => default EmptyString (opt_socket o) +:+ ".pid"
  end.

(** What the system and libdaemon answer. *)
Inductive fork_answer := ForkFailed | ForkParent (retval : option Z) | ForkChild.
Record answers := Answers {
  socket_ok : bool; bind_ok : bool; listen_ok : bool;
  reset_sigs_ok : bool; unblock_sigs_ok : bool; already_running : bool; retval_init_ok : bool;
  fork : fork_answer; chdir_ok : bool; close_all_ok : bool; pid_file_ok : bool;
  signal_init_ok : bool; signal_fd_ok : bool; tcl_init_ok : bool; register_ok : bool; malloc_ok : bool }.

(** What is done on the way that others see. *)
Inductive effect := Unlink (path : string) | RetvalSend (code : Z) | RetvalDone | SignalDone | PidFileRemove.
#[global] Instance effect_eq_dec : EqDecision effect.
Proof. solve_decision. Defined.
(** The process ends with a code, or runs the main loop. *)
Inductive started := Exited (code : Z) | Running.

Definition get_unix_socket (path : string) (a : answers) : list effect * bool :=
  ([Unlink path], socket_ok a && bind_ok a && listen_ok a).
Definition exit_wrapper (o : options) (code : Z) : list effect :=
  (if negb (opt_foreground o) then
     (if negb (code =? 0) then [RetvalSend code] else []) ++ [SignalDone; PidFileRemove]
   else []) ++ [Unlink (default EmptyString (opt_socket o))].

(** From the signals on. *)
Definition start_loop (o : options) (a : answers) : list effect * started :=
  let leave code := (exit_wrapper o code, Exited code) in
  if negb (signal_init_ok a) then leave 3 else
  if negb (signal_fd_ok a) then leave 4 else
  if negb (tcl_init_ok a) then leave 5 else
  if negb (register_ok a) then leave 5 else
  if negb (malloc_ok a) then leave 6 else
  (if negb (opt_foreground o) then [RetvalSend 0] else [], Running).
(** The daemon process, after the fork. *)
Definition start_child (o : options) (a : answers) : list effect * started :=
  if negb (chdir_ok a) then ([RetvalSend 1], Exited 1) else
  if negb (close_all_ok a) then (exit_wrapper o 2, Exited 2) else
  if negb (pid_file_ok a) then (exit_wrapper o 2, Exited 2) else
  start_loop o a.
Definition lsctld_main (args : list option_found) (a : answers) : list effect * started :=
  match parse_options args (Options None None false) with
  | None => ([], Exited 1)
  | Some o =>
      match opt_socket o with
      | None => ([], Exited 1)
      | Some path =>
          if bool_decide (is_Some (opt_pidfile o)) && opt_foreground o then ([], Exited 1) else
          if negb (reset_sigs_ok a) then ([], Exited 1) else
          if negb (unblock_sigs_ok a) then ([], Exited 1) else
          if negb (opt_foreground o) && already_running a then ([], Exited 1) else
          if negb (opt_foreground o) && negb (retval_init_ok a) then ([], Exited 1) else
          let '(e, ok) := get_unix_socket path a in
          if negb ok then (e, Exited 1) else
          if opt_foreground o then let '(e', r) := start_loop o a in (e ++ e', r) else
          match fork a with
          | ForkFailed => (e ++ [RetvalDone], Exited 1)
          | ForkParent None => (e, Exited 255)
          | ForkParent (Some ret) => (e, Exited ret)
          | ForkChild => let '(e', r) := start_child o a in (e ++ e', r)
          end
      end
  end.

(** ** Starting *)

Definition sent_to_parent (l : list effect) : list Z :=
  omap (λ e, match e with RetvalSend n => Some n | _ => None end) l.
(** Whoever starts the daemon is told exactly once how it went: a daemon process that ends
    before its main loop has sent its exit code, which is not 0, and one that runs has sent 0;
    in the foreground nothing is sent. *)
Lemma start_reports_once o a :
  (opt_foreground o = false →
   let '(e, r) := start_child o a in
   match r with Exited code => sent_to_parent e = [code] ∧ code ≠ 0 | Running => sent_to_parent e = [0] end) ∧
  (opt_foreground o = true → sent_to_parent (start_loop o a).1 = []).
Proof.
  split; intros Hf; unfold start_child, start_loop, exit_wrapper; rewrite Hf.
  - destruct (chdir_ok a), (close_all_ok a), (pid_file_ok a), (signal_init_ok a), (signal_fd_ok a), (tcl_init_ok a),
      (register_ok a), (malloc_ok a); by vm_compute.
  - destruct (signal_init_ok a), (signal_fd_ok a), (tcl_init_ok a), (register_ok a), (malloc_ok a); by vm_compute.
Qed.

(** ** Strings in memory *)

Lemma c_string_app l k : c_string (l ++ k) = if bool_decide (NUL ∈ l) then c_string l else l ++ c_string k.
Proof.
  induction l as [|a l IH]; [by rewrite bool_decide_false by set_solver|]. cbn. rewrite IH.
  repeat case_bool_decide; try done; set_solver.
Qed.
Lemma c_string_clean l : NUL ∉ l → c_string l = l.
Proof. intros H. rewrite <-(app_nil_r l) at 1. by rewrite c_string_app, bool_decide_false, app_nil_r. Qed.
Lemma c_string_length l : (length (c_string l) ≤ length l)%nat.
Proof. induction l as [|a l IH]; [done|]. cbn. case_bool_decide; cbn; lia. Qed.
Lemma c_string_no_nul l : NUL ∉ c_string l.
Proof. induction l as [|a l IH]; [set_solver|]. cbn. case_bool_decide; set_solver. Qed.
Lemma c_string_short l : NUL ∈ l ↔ (length (c_string l) < length l)%nat.
Proof.
  induction l as [|a l IH]; cbn; [split; [set_solver|lia]|]. case_bool_decide; cbn.
  - split; [lia|set_solver].
  - rewrite list.elem_of_cons, IH. split; [intros [?|?]; [congruence|lia]|intros; right; lia].
Qed.
(** Two texts that end alike go on alike. *)
Lemma c_string_same l l' k k' :
  c_string l = c_string l' → length l = length l' → c_string k = c_string k' → c_string (l ++ k) = c_string (l' ++ k').
Proof.
  intros E El Ek. rewrite !c_string_app.
  assert (NUL ∈ l ↔ NUL ∈ l') as HN by (rewrite !c_string_short; by rewrite E, El).
  repeat case_bool_decide; try done; [tauto..|].
  by rewrite Ek, <-(c_string_clean l), <-(c_string_clean l'), E.
Qed.
Lemma strncpy_spec dst at_ src n :
  0 ≤ at_ → 0 ≤ n ≤ Z.of_nat (length src) → at_ + n ≤ Z.of_nat (length dst) →
  ∃ l, strncpy dst at_ src n = Some (take (Z.to_nat at_) dst ++ l ++ drop (Z.to_nat (at_ + n)) dst) ∧
       length l = Z.to_nat n ∧ c_string l = c_string (take (Z.to_nat n) src).
Proof.
  intros Ha Hn Hd. unfold strncpy. rewrite (proj2 (Z.leb_le _ _)) by done. rewrite (proj2 (Z.leb_le n _)) by lia. cbn.
  set (t := take (Z.to_nat n) src). exists (c_string t ++ replicate (Z.to_nat n - length (c_string t)) NUL).
  assert (length t = Z.to_nat n) as Ht by (unfold t; rewrite length_take; lia).
  pose proof (c_string_length t). split; [by rewrite <-!app_assoc|]. split.
  - rewrite length_app, length_replicate. lia.
  - rewrite c_string_app, bool_decide_false by apply c_string_no_nul.
    destruct (Z.to_nat n - length (c_string t))%nat; cbn; by rewrite ?app_nil_r.
Qed.

(** ** Reading a script *)

Section reading_spec.
Context {interp : Type} (uninit : nat → list ascii).
Context (uninit_length : ∀ n, length (uninit n) = n).
Notation daemon := (daemon interp).
Notation read_script := (daemon_read_loop uninit).
Implicit Types d : daemon.

(** The command buffer and the input buffer. *)
Definition buffers_ok d : Prop :=
  length (cmd d) = Z.to_nat (cmd_size d) ∧ length (iobuf d) = Z.to_nat BUF_SIZE ∧ BUF_SIZE ≤ cmd_size d < 2 ^ 63.
(** The command buffer has the text that was read, and ends after it. *)
Definition holds d (text : list ascii) : Prop :=
  buffers_ok d ∧ Z.of_nat (length text) < cmd_size d ∧
  c_string (take (length text) (cmd d)) = c_string text ∧ cmd d !! length text = Some NUL.
Definition same_rest d d' : Prop :=
  ip d' = ip d ∧ exitcode d' = exitcode d ∧ fds d' = fds d ∧ replies d' = replies d ∧ syslog d' = syslog d ∧ stdout d' = stdout d.

Lemma holds_text d text : holds d text → c_string (cmd d) = c_string text.
Proof.
  intros (_ & Hl & E & HN). rewrite <-(take_drop_middle _ _ _ HN).
  assert (length (take (length text) (cmd d)) = length text) as Hlen
    by (apply lookup_lt_Some in HN; rewrite length_take; lia).
  etransitivity; [apply (c_string_same _ text _ [NUL]); [done|done|by cbn]|].
  rewrite c_string_app. case_bool_decide as H; [done|]. change (c_string [NUL]) with (@nil ascii). by rewrite app_nil_r, c_string_clean.
Qed.

(** A chunk is put behind the text, in a buffer that has the room. *)
Lemma holds_chunk d text l :
  l ≠ [] → Z.of_nat (length l) ≤ BUF_SIZE → holds d text → take (length l) (iobuf d) = l →
  Z.of_nat (length text + length l) < cmd_size d →
  ∃ c c', strncpy (cmd d) (Z.of_nat (length text)) (iobuf d) (Z.of_nat (length l)) = Some c ∧
          store c (Z.of_nat (length text + length l)) NUL = Some c' ∧ holds (set_cmd (cmd_size d) c' d) (text ++ l).
Proof.
  intros Hl Hn ((Hc & Hb & Hs) & Hp & E & HN) Hio Hroom. assert (Hsz := lookup_lt_Some _ _ _ HN).
  unfold BUF_SIZE in *.
  destruct (strncpy_spec (cmd d) (Z.of_nat (length text)) (iobuf d) (Z.of_nat (length l)))
    as (k & Ek & Hk & Ec); [lia..|].
  rewrite Nat2Z.id in *. rewrite Hio in Ec.
  set (c := take _ _ ++ _) in Ek.
  assert (length c = length (cmd d)) as Hlc.
  { unfold c. rewrite !length_app, length_take, length_drop. lia. }
  exists c. eexists. split; [done|]. unfold store. rewrite Hlc, (proj2 (Z.ltb_lt _ _)) by lia. rewrite Nat2Z.id.
  split; [done|]. unfold holds, buffers_ok, BUF_SIZE. cbn -[Z.to_nat]. rewrite length_insert, length_app.
  split_and!; try done; try lia.
  - rewrite take_insert_ge by lia. unfold c. rewrite app_assoc, take_app_le by (rewrite length_app, length_take; lia).
    rewrite take_ge by (rewrite length_app, length_take; lia).
    apply c_string_same; [done|rewrite length_take; lia|by rewrite Ec].
  - apply list_lookup_insert_eq. lia.
Qed.
(** The buffer grows, and keeps what it has. *)
Lemma holds_grow d text size :
  holds d text → cmd_size d ≤ size < 2 ^ 63 →
  holds (set_cmd size (take (Z.to_nat size) (cmd d ++ uninit (Z.to_nat size - length (cmd d)))) d) text.
Proof.
  intros ((Hc & Hb & Hs) & Hp & E & HN) Hsz. assert (Hlt := lookup_lt_Some _ _ _ HN).
  rewrite take_ge by (rewrite length_app, uninit_length; lia).
  split; [|split; [cbn; lia|]].
  - split_and!; cbn -[BUF_SIZE Z.to_nat]; [rewrite length_app, uninit_length; lia|done|lia|lia].
  - cbn. rewrite take_app_le, lookup_app_l by lia. done.
Qed.

Definition chunk_ok (l : list ascii) : Prop := l ≠ [] ∧ Z.of_nat (length l) ≤ BUF_SIZE.
Definition script_reads (chunks : list (list ascii)) : list rres := map ROk chunks ++ [ROk []].

Lemma read_step d text l rs reallocs :
  holds d text → chunk_ok l → Z.of_nat (length text + length l) < 2 ^ 62 → Forall (.= true) reallocs →
  ∃ d' reallocs', read_script (ROk l :: rs) reallocs (Z.of_nat (length text)) d =
                  read_script rs reallocs' (Z.of_nat (length (text ++ l))) d' ∧
                  holds d' (text ++ l) ∧ same_rest d d' ∧ Forall (.= true) reallocs'.
Proof.
  intros Hh [Hl Hn] Hsize Hre. unfold BUF_SIZE in Hn.
  assert (length l ≠ 0%nat) as Hl0 by by rewrite length_zero_iff_nil.
  set (d0 := set_iobuf (l ++ drop (length l) (iobuf d)) d).
  assert (holds d0 text) as Hh0.
  { destruct Hh as ((Hc & Hb & Hs) & Hh). split; [|exact Hh]. split_and!; [done| |apply Hs..].
    unfold d0, set_iobuf, BUF_SIZE in *. cbn [iobuf]. rewrite length_app, length_drop. lia. }
  assert (take (length l) (iobuf d0) = l) as Hio by (unfold d0; cbn; by rewrite take_app_length).
  assert (default true (head reallocs) = true) as Hhd by (destruct Hre; done).
  assert (u64 (Z.of_nat (length text) + Z.of_nat (length l)) = Z.of_nat (length text + length l)) as Hpos
    by (rewrite u64_small by lia; lia).
  assert (same_rest d d0) as Hr by done.
  cbn [daemon_read_loop]. unfold mbind, M_bind, mret, M_ret, modify, get.
  rewrite (proj2 (Z.eqb_neq _ _)) by lia. fold d0. rewrite Hpos, Hhd, andb_false_r. clearbody d0.
  pose proof Hh0 as ((_ & _ & Hs) & _).
  assert (∀ d1, holds d1 text → iobuf d1 = iobuf d0 → Z.of_nat (length text + length l) < cmd_size d1 →
    ∃ c c', in_bounds (strncpy (cmd d1) (Z.of_nat (length text)) (iobuf d1) (Z.of_nat (length l))) d1 = Ok c d1 ∧
            in_bounds (store c (Z.of_nat (length text + length l)) NUL) d1 = Ok c' d1 ∧
            holds (set_cmd (cmd_size d1) c' d1) (text ++ l)) as Hcopy.
  { intros d1 H1 Ei Hroom. rewrite <-Ei in Hio.
    destruct (holds_chunk d1 text l Hl Hn H1 Hio Hroom) as (c & c' & E1 & E2 & H2).
    exists c, c'. by rewrite E1, E2. }
  destruct (Z.leb_spec (cmd_size d0) (Z.of_nat (length text + length l))) as [Hfull|Hroom].
  - rewrite u64_small by (unfold BUF_SIZE in *; lia). set (d1 := set_cmd _ _ d0).
    assert (holds d1 text) as H1 by (apply holds_grow; [done|unfold BUF_SIZE in *; lia]).
    destruct (Hcopy d1 H1 eq_refl) as (c & c' & E1 & E2 & H2).
    { pose proof Hh0 as (_ & ? & _). unfold BUF_SIZE in *. cbn. lia. }
    cbn beta iota. rewrite E1. cbn beta iota. rewrite E2. rewrite length_app.
    eexists _, (tail reallocs). split; [done|]. split; [done|]. split; [exact Hr|by destruct Hre].
  - destruct (Hcopy d0 Hh0 eq_refl Hroom) as (c & c' & E1 & E2 & H2). rewrite E1. cbn beta iota. rewrite E2. rewrite length_app.
    eexists _, reallocs. split; [done|]. split; [done|]. split; [exact Hr|done].
Qed.
Lemma read_script_spec chunks d text reallocs :
  holds d text → Forall chunk_ok chunks → Z.of_nat (length (text ++ concat chunks)) < 2 ^ 62 → Forall (.= true) reallocs →
  ∃ d', read_script (script_reads chunks) reallocs (Z.of_nat (length text)) d = Ok Served d' ∧
        holds d' (text ++ concat chunks) ∧ same_rest d d'.
Proof.
  intros Hh Hc. revert d text reallocs Hh. induction Hc as [|l chunks Hl _ IH]; intros d text reallocs Hh Hsize Hre.
  - cbn in *. exists (set_iobuf (iobuf d) d). rewrite app_nil_r. split; [done|]. by destruct d.
  - cbn [concat] in Hsize. rewrite length_app in Hsize. rewrite length_app in Hsize.
    destruct (read_step d text l (script_reads chunks) reallocs) as (d1 & re1 & E & H1 & Hr1 & Hre1); [done..|lia|done|].
    unfold script_reads in *. cbn [map app]. rewrite E.
    destruct (IH d1 (text ++ l) re1) as (d2 & E2 & H2 & Hr2); [done| |done|].
    { rewrite !length_app. lia. }
    exists d2. rewrite <-app_assoc in H2. split; [done|]. split; [done|]. unfold same_rest in *. intuition congruence.
Qed.
End reading_spec.

(** ** Scripts of clients *)

Section scripts.
Context {interp : Type} (Tcl_Eval : list ascii → M interp (Z * list ascii)) (errorinfo : interp → list ascii).
Context (uninit : nat → list ascii) (uninit_length : ∀ n, length (uninit n) = n) (transmitted : nat → nat).
Notation daemon := (daemon interp).
Notation serve := (serve Tcl_Eval errorinfo uninit transmitted).
Notation main_loop := (main_loop Tcl_Eval errorinfo uninit transmitted).
Implicit Types d : daemon.

(** The text that a connection carries, and the evaluation of a script: its status, what it
    writes to [stdout], and the trace of its error. *)
Definition text_of (l : list rres) : list ascii := l ≫= λ r, match r with ROk l => l | RErr => [] end.
Definition evaluate (text : list ascii) : M interp (Z * list ascii * list ascii) :=
  a ← Tcl_Eval (c_string text);
  let '(ret, out) := a in
  i ← get;
  mret (ret, out, if ret =? 0 then [] else error_text (errorinfo i)).
(** With [pending] in the buffer of [stdout]: what of it and of the output goes out, and what
    stays there. *)
Definition gone (pending out : list ascii) : list ascii :=
  take (transmitted (length (pending ++ out))) (pending ++ out).
Definition kept (pending out : list ascii) : list ascii :=
  drop (transmitted (length (pending ++ out))) (pending ++ out).

(** A connection that sends a script in chunks of whatever size, and closes; [accept] gave it
    a descriptor that was not in use. *)
Definition connection_ok (f : gmap Z fd_kind) (c : connection) : Prop :=
  0 ≤ accepted c ∧ f !! accepted c = None ∧ Forall (.= true) (realloc_ok c) ∧
  ∃ chunks, reads c = script_reads chunks ∧ Forall chunk_ok chunks ∧ Z.of_nat (length (concat chunks)) < 2 ^ 62.

Lemma text_of_script chunks : text_of (script_reads chunks) = concat chunks.
Proof.
  unfold script_reads, text_of. rewrite bind_app. cbn. rewrite app_nil_r.
  induction chunks as [|l chunks IH]; [done|]. cbn [map concat]. by rewrite bind_cons, IH.
Qed.
Lemma run_write_fd d fd l n :
  fds d !! fd = Some (FdConn n) →
  write_fd fd l d = Ok tt (Daemon (cmd_size d) (cmd d) (iobuf d) (ip d) (exitcode d) (fds d)
                             (<[n := default [] (replies d !! n) ++ l]> (replies d)) (syslog d) (stdout d)).
Proof. intros H. unfold write_fd, lookup_fd, mbind, M_bind, gets. by rewrite H. Qed.
Lemma run_dup2 d fd fd2 k :
  fds d !! fd = Some k → dup2 fd fd2 d = Ok tt (set_fds (<[fd2 := k]> (fds d)) d).
Proof. intros H. unfold dup2, lookup_fd, mbind, M_bind, gets. by rewrite H. Qed.
Lemma holds_start d : buffers_ok d → ∃ c, store (cmd d) 0 NUL = Some c ∧ holds (set_cmd (cmd_size d) c d) [].
Proof.
  intros (Hc & Hb & Hs). unfold store, BUF_SIZE in *. rewrite (proj2 (Z.ltb_lt _ _)) by lia. eexists. split; [done|].
  split; [unfold buffers_ok, BUF_SIZE; cbn -[Z.to_nat]; by rewrite length_insert|].
  split; [cbn; lia|]. split; [done|]. cbn. apply list_lookup_insert_eq. lia.
Qed.

Lemma run_put_stdout d l n :
  fds d !! 1 = Some (FdConn n) →
  put_stdout transmitted l d = Ok tt (Daemon (cmd_size d) (cmd d) (iobuf d) (ip d) (exitcode d) (fds d)
    (<[n := default [] (replies d !! n) ++ gone (stdout d) l]> (replies d)) (syslog d) (kept (stdout d) l)).
Proof. intros H. unfold put_stdout, mbind, M_bind, get, modify. by rewrite (run_write_fd d 1 _ n H). Qed.

(** One connection: the script is evaluated, what [stdout] transmits meanwhile and the error go to
    the client, and only the descriptors 1 and 2 are different afterwards. *)
Lemma serve_spec n c d :
  buffers_ok d → replies d !! n = None → connection_ok (fds d) c →
  match evaluate (text_of (reads c)) (ip d) with
  | Ok (ret, out, error) i =>
      ∃ d', serve n c d = Ok Served d' ∧ buffers_ok d' ∧ ip d' = i ∧
            replies d' = <[n := gone (stdout d) out ++ error]> (replies d) ∧ stdout d' = kept (stdout d) out ∧
            fds d' = delete 1 (delete 2 (fds d)) ∧
            exitcode d' = (if ret =? 0 then exitcode d else 1) ∧ syslog d' = syslog d ++ [exitcode d']
  | Fault f => serve n c d = Fault f
  end.
Proof.
  intros Hb Hn (Ha & Hf & Hre & chunks & Hrd & Hch & Hsz). rewrite Hrd, text_of_script. unfold evaluate.
  destruct c as [fdc rds res]. cbn [accepted reads realloc_ok] in *. subst rds.
  unfold serve. cbn [accepted reads realloc_ok]. rewrite (proj2 (Z.ltb_ge fdc 0)) by done.
  unfold mbind, M_bind, mret, M_ret, modify, get.
  set (d1 := set_fds (<[fdc := FdConn n]> (fds d)) d).
  assert (buffers_ok d1) as Hb1 by exact Hb. destruct (holds_start d1 Hb1) as (c0 & -> & Hh). cbn [in_bounds].
  unfold mret, M_ret. cbn beta iota.
  set (d2 := set_cmd (cmd_size d1) c0 d1) in *.
  rewrite (run_dup2 d2 fdc 1 (FdConn n)) by apply lookup_insert_eq. cbn beta iota.
  set (d3 := set_fds _ d2).
  assert (fds d3 !! fdc = Some (FdConn n)) as H3.
  { unfold d3. cbn. rewrite lookup_insert. case_decide; [done|]. by rewrite lookup_insert_eq. }
  rewrite (run_dup2 d3 fdc 2 (FdConn n)) by exact H3. cbn beta iota.
  set (d4 := set_fds _ d3).
  destruct (read_script_spec uninit uninit_length chunks d4 [] res) as (d5 & E & H5 & Hr5); [done|done|done|done|].
  cbn [length] in E. change (Z.of_nat 0) with 0 in E. rewrite E. cbn beta iota.
  rewrite (holds_text d5 _ H5). cbn [app]. destruct Hr5 as (Eip & Eex & Efd & Erp & Elg & Eout). unfold in_interp. rewrite Eip.
  change (ip d4) with (ip d).
  destruct (Tcl_Eval (c_string (concat chunks)) (ip d)) as [[ret out] i|]; [|done]. cbn beta iota.
  assert (fds d5 !! 1 = Some (FdConn n)) as F1.
  { rewrite Efd. cbn. by rewrite lookup_insert_ne, lookup_insert_eq by done. }
  assert (fds d5 !! 2 = Some (FdConn n)) as F2 by (rewrite Efd; apply lookup_insert_eq).
  assert (replies d5 !! n = None) as Hn5 by (by rewrite Erp).
  rewrite (run_put_stdout (set_ip i d5) out n) by exact F1. cbn beta iota. cbn [stdout set_ip]. rewrite Eout. change (stdout d4) with (stdout d).
  assert (delete 2 (delete 1 (delete fdc (fds d5))) = delete 1 (delete 2 (fds d))) as Hfds.
  { rewrite Efd. apply map_eq. intros j. cbn. rewrite !lookup_delete, !lookup_insert. repeat case_decide; by subst. }
  destruct (Z.eqb_spec ret 0) as [Hret|Hret]; cbn beta iota delta [negb].
  - unfold close, modify, set_fds. cbn. rewrite Hfds. eexists. split; [done|]. cbn.
    rewrite Hn5, Erp, Eex, Elg, app_nil_r. split_and!; try done. exact (proj1 H5).
  - rewrite (run_write_fd _ 2 _ n) by exact F2. unfold close, modify, set_fds. cbn. rewrite Hfds. eexists. split; [done|]. cbn.
    rewrite Hn5, Erp, Elg, lookup_insert_eq, insert_insert_eq. split_and!; try done. exact (proj1 H5).
Qed.

(** ** The main loop *)

(** What the daemon does with what comes in, without its buffers for scripts and its descriptors:
    [r] is what the clients got, [pending] the buffer of [stdout]. *)
Fixpoint evaluated (events : list event) (n : nat) (r : gmap nat (list ascii)) (pending : list ascii)
    : M interp (gmap nat (list ascii) * list ascii) :=
  match events with
  | EvConnection c :: events =>
      a ← evaluate (text_of (reads c));
      let '(_, out, error) := a in
      evaluated events (S n) (<[n := gone pending out ++ error]> r) (kept pending out)
  | _ :: events => evaluated events n r pending
  | [] => mret (r, pending)
  end.
Definition event_ok (f : gmap Z fd_kind) (e : event) : Prop :=
  match e with
  | EvInterrupted => True
  | EvSelectError => False
  | EvSignal sig => 0 < sig ∧ sig ∉ [SIGINT; SIGQUIT; SIGTERM]
  | EvConnection c => connection_ok f c
  end.

Lemma event_ok_sub f f' e : f' ⊆ f → event_ok f e → event_ok f' e.
Proof.
  destruct e as [| |sig|c]; try done. intros Hf (Ha & Hn & H). split; [done|]. split; [|done].
  by eapply lookup_weaken_None.
Qed.


(** A client that sends its input, and the daemon that evaluates it. *)


(** ** What goes wrong *)

(** A read that fails answers -1, which is a huge [size_t]: [strncpy] then writes beyond the
    buffer, whatever was read before. So a connection that is reset, or that [accept] could not
    open, ends the daemon. *)
Lemma failed_read_overruns rs pos d :
  buffers_ok d → 0 ≤ pos < cmd_size d → daemon_read_loop uninit (RErr :: rs) [] pos d = Fault OutOfBounds.
Proof.
  intros (Hc & Hb & Hs) Hpos. unfold BUF_SIZE in *. cbn [daemon_read_loop]. unfold mbind, M_bind, mret, M_ret, modify, get.
  change (u64 (-1)) with (2 ^ 64 - 1). change (2 ^ 64 - 1 =? 0) with false. cbn beta iota. cbn [head default negb].
  rewrite andb_false_r. assert (∀ d1, Z.of_nat (length (cmd d1)) < 2 ^ 64 - 1 →
    in_bounds (strncpy (cmd d1) pos (iobuf d1) (2 ^ 64 - 1)) d1 = Fault OutOfBounds) as Hout.
  { intros d1 Hl. unfold strncpy. by rewrite (proj2 (Z.leb_gt _ _)) by lia. }
  destruct (cmd_size d <=? u64 (pos + (2 ^ 64 - 1))); cbn beta iota; rewrite Hout; try done.
  - cbn -[u64 Z.to_nat]. rewrite length_take, length_app, uninit_length, u64_small by lia. lia.
  - rewrite Hc. lia.
Qed.
Lemma failed_accept_overruns n rs d :
  buffers_ok d → serve n (Connection (-1) rs []) d = Fault OutOfBounds.
Proof.
  intros Hb. unfold serve. cbn [accepted reads realloc_ok]. unfold mbind, M_bind, mret, M_ret, modify, get.
  change (-1 <? 0) with true. cbn beta iota. destruct (holds_start d Hb) as (c0 & -> & Hh). cbn [in_bounds].
  unfold mret, M_ret. cbn beta iota.
  assert (∀ d1 fd2, buffers_ok d1 → ∃ d2, dup2 (-1) fd2 d1 = Ok tt d2 ∧ buffers_ok d2) as Hdup.
  { intros d1 fd2 H1. unfold dup2, lookup_fd, mbind, M_bind, gets. destruct (fds d1 !! -1); by eexists. }
  destruct (Hdup (set_cmd (cmd_size d) c0 d) 1) as (d1 & -> & H1); [apply Hh|]. cbn beta iota.
  destruct (Hdup d1 2) as (d2 & -> & H2); [done|]. cbn beta iota.
  rewrite failed_read_overruns; [done|done|]. destruct H2 as (_ & _ & ?). unfold BUF_SIZE in *. lia.
Qed.
End scripts.

(** An interpreter that counts its scripts: it writes a script back, and refuses an empty one. *)
Definition demo_eval (text : list ascii) : M nat (Z * list ascii) := λ i, Ok (if text then 1 else 0, text) (S i).
Definition demo_errorinfo (i : nat) : list ascii := ["?"%char].
Definition demo_fresh (n : nat) : list ascii := replicate n "z"%char.
Lemma demo_fresh_length n : length (demo_fresh n) = n.
Proof. apply length_replicate. Qed.
(** Full buffering, as for a socket: nothing is transmitted before there is more than a block. *)
Definition buffered (n : nat) : nat := if (n <=? 4096)%nat then 0 else n - n mod 4096.
(** The daemon before its first connection: [malloc] has given 4096 bytes. *)
Definition daemon_start {interp} (uninit : nat → list ascii) (i : interp) (f : gmap Z fd_kind) : daemon interp :=
  Daemon 4096 (uninit 4096%nat) (replicate 1024 NUL) i 0 f ∅ [] [].
Definition demo_daemon : daemon nat :=
  daemon_start demo_fresh 0%nat {[ 0 := FdOther; 1 := FdOther; 2 := FdOther; 3 := FdListen; 4 := FdSignal ]}.
Lemma demo_daemon_ok : buffers_ok demo_daemon.
Proof. split_and!; [by vm_compute|by vm_compute|done|done]. Qed.
Definition demo_connection (fd : Z) (chunks : list (list ascii)) : connection := Connection fd (script_reads chunks) [].
Lemma demo_connection_ok fd chunks :
  bool_decide (0 ≤ fd ∧ fds demo_daemon !! fd = None ∧ Forall (λ l, l ≠ [] ∧ Z.of_nat (length l) ≤ BUF_SIZE) chunks ∧
               Z.of_nat (length (concat chunks)) < 2 ^ 62) = true →
  connection_ok (fds demo_daemon) (demo_connection fd chunks).
Proof. intros (? & ? & ? & ?)%bool_decide_eq_true. split_and!; [done|done|constructor|]. by exists chunks. Qed.
Definition demo_events : list event :=
  [EvConnection (demo_connection 5 [["n"; "e"]; ["t"]]%char); EvInterrupted; EvSignal SIGHUP;
   EvConnection (demo_connection 5 [])].
Definition echo_turns : list wake :=
  [Wake true None None None (Some (ROk ["n"; "e"; "t"]%char)); Wake true None None (Some (WOk 3)) None;
   Wake true None None None (Some (ROk []));
   Wake true None (Some (ROk ["n"; "e"]%char)) None None; Wake true (Some (WOk 2)) None None None;
   Wake true None (Some (ROk ["t"]%char)) None None; Wake true (Some (WOk 1)) None None None;
   Wake true None (Some (ROk [])) None None] ++ replicate 6 (Wake true None None None None).
(** After one script has failed, the exit code that is logged for every later one is 1. *)
Example exit_code_sticks :
  match main_loop demo_eval demo_errorinfo demo_fresh buffered
          [EvConnection (demo_connection 5 []); EvConnection (demo_connection 5 [["n"]]%char)] 0 demo_daemon with
  | Ok _ d => syslog d = [1; 1]
  | Fault _ => False
  end.
Proof. by vm_compute. Qed.

(** With full buffering the client that asks gets nothing, and the next one that causes a block
    to be transmitted gets its answer. *)
Example output_is_late :
  match main_loop demo_eval demo_errorinfo demo_fresh buffered
          [EvConnection (demo_connection 5 [["n"; "e"; "t"]]%char);
           EvConnection (demo_connection 5 (replicate 4 (replicate 1024 "x"%char)))] 0 demo_daemon with
  | Ok _ d => replies d !! 0%nat = Some [] ∧ replies d !! 1%nat = Some (["n"; "e"; "t"]%char ++ replicate 4093 "x"%char)
  | Fault _ => False
  end.
Proof. vm_compute. split; reflexivity. Qed.
