(* ===== verification/Domain.v ===== *)
(** * Virtual machines ([hooks/domain.c])

    Starting and stopping a virtual machine through libvirt, for the hooks of a program: the
    description of the machine is generated by another program into a file, read into a buffer
    on the stack, and given to libvirt. The process, the files and libvirt are an interface; the
    theorems say what arrives at libvirt, and when the buffer is overrun. *)

From Stdlib Require Import ZArith Lia Ascii.
From Stdlib Require String.
From stdpp Require Import base list strings.
From S2P Require Import Prelude.
From S2P Require Import Daemon.

Local Open Scope Z_scope.

Definition DOMAIN_DESTINATION : string := "/tmp/DOMAIN.xml".
Definition MAX_SIZE : Z := 16384.

(** What the functions use of the system and of libvirt; NULL is [None]. [spawn] is the whole of
    the call of [fork] with the child and the [wait] for it: whether there was a child, whatever
    it did. [ftell] is called at the end of the file, and [fread] from its start. *)
Class Host (world : Type) := {
  file : Type; conn : Type; domain : Type;
  spawn : list string → M world bool;
  fopen : string → M world (option file);
  ftell : file → M world Z;
  fread : file → Z → M world (list ascii);
  fclose : file → M world unit;
  virConnectOpen : string → M world (option conn);
  virDomainDefineXML : conn → list ascii → M world (option domain);
  virDomainCreate : domain → M world Z;
  virDomainLookupByName : conn → string → M world (option domain);
  virDomainDestroy : domain → M world Z;
  virDomainFree : domain → M world unit;
  virConnectClose : conn → M world unit }.

Section domain.
Context {world : Type} `{!Host world}.

(** [if (!p) abort();] *)
Definition not_null {A} (p : option A) : M world A :=
  match p with Some a => mret a | None => fail Aborted end.

(** The end of [create_domain]: the machine that [xml] describes. *)
Definition start_machine (xml : list ascii) : M world unit :=
  m ← virConnectOpen "qemu:///system";
  conn ← not_null m;
  m ← virDomainDefineXML conn xml;
  domain ← not_null m;
  res ← virDomainCreate domain;
  if negb (res =? 0) then fail Aborted else virConnectClose conn.

(** [create_domain]; [xml_desc] is the buffer on the stack, with what was there before. The
    comparison of [cnt] with [size] is one of unsigned 64-bit numbers. *)
Definition create_domain (xml_desc : list ascii) (name kernel rootfs tap mac init_script : string) : M world unit :=
  forked ← spawn ["../hooks/vm_gen"; "vm_gen"; name; kernel; rootfs; tap; mac; DOMAIN_DESTINATION; init_script];
  if negb forked then fail Aborted else
  m ← fopen DOMAIN_DESTINATION;
  fp ← not_null m;
  size ← ftell fp;
  if MAX_SIZE <=? size then fail Aborted else
  bytes ← fread fp (size mod 2 ^ 64);
  if MAX_SIZE <? Z.of_nat (length bytes) then fail OutOfBounds else
  let xml_desc := bytes ++ drop (length bytes) xml_desc in
  let cnt := Z.of_nat (length bytes) in
  _ ← fclose fp;
  if negb (cnt =? size mod 2 ^ 64) then fail Aborted else
  if MAX_SIZE <=? cnt then fail OutOfBounds else
  let xml_desc := <[Z.to_nat cnt := NUL]> xml_desc in
  start_machine (c_string xml_desc).

Definition destroy_domain (name : string) : M world unit :=
  m ← virConnectOpen "qemu:///system";
  conn ← not_null m;
  m ← virDomainLookupByName conn name;
  domain ← not_null m;
  _ ← virDomainDestroy domain;
  _ ← virDomainFree domain;
  virConnectClose conn.

(** ** What arrives at libvirt *)

(** [fread] gives no more bytes than it is asked for. *)
Context (fread_length : ∀ fp n w bytes w', 0 ≤ n → fread fp n w = Ok bytes w' → Z.of_nat (length bytes) ≤ n).

Section create.
Context (xml_desc : list ascii) (xml_desc_size : Z.of_nat (length xml_desc) = MAX_SIZE).
Context (name kernel rootfs tap mac init_script : string).
Notation create := (create_domain xml_desc name kernel rootfs tap mac init_script).
Notation generate := (spawn ["../hooks/vm_gen"; "vm_gen"; name; kernel; rootfs; tap; mac; DOMAIN_DESTINATION; init_script]).

Lemma text_in_buffer bytes : Z.of_nat (length bytes) < MAX_SIZE →
  c_string (<[length bytes := NUL]> (bytes ++ drop (length bytes) xml_desc)) = c_string bytes.
Proof.
  intros Hb. destruct (drop (length bytes) xml_desc) as [|b rest] eqn:E.
  - apply (f_equal length) in E. rewrite length_drop in E. simpl in E. lia.
  - replace (length bytes) with (length bytes + 0)%nat at 1 by lia. rewrite insert_app_r. simpl. rewrite c_string_app.
    case_bool_decide as Hn; [done|]. by rewrite app_nil_r, c_string_clean.
Qed.

(** A file of known size: if the size fits and the file still has it, the machine that is
    started is the one the text of the file describes, up to its first NUL; the buffer is never
    overrun, and everything else makes the program stop. *)
Theorem create_domain_spec w w1 w2 w3 w4 w5 fp size bytes :
  generate w = Ok true w1 → fopen DOMAIN_DESTINATION w1 = Ok (Some fp) w2 → ftell fp w2 = Ok size w3 → 0 ≤ size →
  fread fp size w3 = Ok bytes w4 → fclose fp w4 = Ok () w5 →
  create w = if (size <? MAX_SIZE) && (Z.of_nat (length bytes) =? size) then start_machine (c_string bytes) w5
             else Fault Aborted.
Proof.
  intros Hg Hopen Htell Hs Hread Hclose. pose proof (fread_length _ _ _ _ _ Hs Hread) as Hl.
  unfold create_domain, mbind, M_bind. rewrite Hg. cbn [negb]. rewrite Hopen. cbn [not_null mret M_ret]. rewrite Htell.
  destruct (Z.leb_spec MAX_SIZE size) as [?|Hm]; [by rewrite (proj2 (Z.ltb_ge size _))|].
  rewrite (proj2 (Z.ltb_lt size _)) by done. unfold MAX_SIZE in Hm. rewrite Z.mod_small by lia. rewrite Hread.
  rewrite (proj2 (Z.ltb_ge _ _)) by (unfold MAX_SIZE; lia). rewrite Hclose. cbn [andb].
  destruct (Z.eqb_spec (Z.of_nat (length bytes)) size) as [He|?]; [|done]. cbn [negb].
  rewrite (proj2 (Z.leb_gt _ _)) by (unfold MAX_SIZE; lia). rewrite Nat2Z.id, text_in_buffer by (unfold MAX_SIZE; lia).
  reflexivity.
Qed.

(** If the size is not known, [ftell] answers -1, the test for the size passes, and [fread] is
    asked for everything: a file longer than the buffer overruns it. *)
Theorem create_domain_overrun w w1 w2 w3 w4 fp bytes :
  generate w = Ok true w1 → fopen DOMAIN_DESTINATION w1 = Ok (Some fp) w2 → ftell fp w2 = Ok (-1) w3 →
  fread fp (2 ^ 64 - 1) w3 = Ok bytes w4 → MAX_SIZE < Z.of_nat (length bytes) → create w = Fault OutOfBounds.
Proof.
  intros Hg Hopen Htell Hread Hl. unfold create_domain, mbind, M_bind. rewrite Hg. cbn [negb]. rewrite Hopen.
  cbn [not_null mret M_ret]. rewrite Htell. change (MAX_SIZE <=? -1) with false. change ((-1) mod 2 ^ 64) with (2 ^ 64 - 1).
  cbv beta iota. rewrite Hread. by rewrite (proj2 (Z.ltb_lt _ _)).
Qed.
End create.
End domain.

(** ** A host *)

(** A host whose file has [text], and what was asked of libvirt. *)
Definition demo_fread (text : list ascii) (fp : unit) (n : Z) : M (list string) (list ascii) := mret (take (Z.to_nat n) text).
Definition logged {A} (call : string) (a : A) : M (list string) A := λ w, Ok a (w ++ [call]).
Definition demo_host (text : list ascii) (size : Z) : Host (list string) := {|
  file := unit; conn := unit; domain := unit;
  spawn args := mret true; fopen path := mret (Some ()); ftell fp := mret size; fread := demo_fread text; fclose fp := mret ();
  virConnectOpen uri := logged "open" (Some ());
  virDomainDefineXML _ xml := logged (String.append "define " (String.string_of_list_ascii xml)) (Some ());
  virDomainCreate _ := logged "create" 0; virDomainLookupByName _ name := logged "lookup" (Some ());
  virDomainDestroy _ := logged "destroy" 0; virDomainFree _ := logged "free" (); virConnectClose _ := logged "close" () |}.

#[local] Notation create text size := (create_domain (world := list string) (Host0 := demo_host text size)
  (replicate (Z.to_nat MAX_SIZE) NUL) "vm" "bzImage" "rootfs" "tap0" "00:00:00:00:00:01" "init" []).

Lemma create_domain_spec_witness :
  create (String.list_ascii_of_string "<domain/>") 9 = Ok () ["open"; "define <domain/>"; "create"; "close"].
Proof.
  set (text := String.list_ascii_of_string "<domain/>").
  transitivity (if (9 <? MAX_SIZE) && (Z.of_nat (length text) =? 9)
                then start_machine (Host0 := demo_host text 9) (c_string text) [] else Fault Aborted); [|reflexivity].
  apply (create_domain_spec (world := list string) (Host0 := demo_host text 9)) with (w1 := []) (w2 := []) (w3 := []) (w4 := []) (fp := ()); try done.
  intros fp n w bytes w' Hn [= <- _]. rewrite length_take. lia.
Defined.
Lemma create_domain_overrun_witness : create (replicate 16385 NUL) (-1) = Fault OutOfBounds.
Proof.
  apply (create_domain_overrun (world := list string) (Host0 := demo_host (replicate 16385 NUL) (-1)))
    with (w1 := []) (w2 := []) (w3 := []) (w4 := []) (fp := ()) (bytes := replicate 16385 NUL);
    [reflexivity..| |reflexivity].
  change (@Ok (list string) (list ascii) (take (Z.to_nat (2 ^ 64 - 1)) (replicate 16385 NUL)) [] = Ok (replicate 16385 NUL) []).
  rewrite take_ge; [reflexivity|]. rewrite length_replicate. apply Nat2Z.inj_le. rewrite Z2Nat.id by done. by vm_compute.
Defined.

Lemma destroy_domain_run : destroy_domain (world := list string) (Host0 := demo_host [] 0) "vm" [] =
  Ok () ["open"; "lookup"; "destroy"; "free"; "close"].
Proof. reflexivity. Qed.
