(* ===== verification/Remote.v ===== *)
(** * lsctl behind the daemon

    The interpreter of the daemon is that of lsctl: scripts of different clients share its
    context and its stack of scopes. *)

From Stdlib Require Import ZArith Lia Ascii.
From Stdlib Require String.
From stdpp Require Import base list sets gmap strings.
From S2P Require Import Prelude.
From S2P Require Import Status.
From S2P Require Import Nettypes.
From S2P Require Import Heap.
From S2P Require Import Dump.
From S2P Require Import Scenarios.
From S2P Require Import DumpSpec.
From S2P Require Import DumpTcl.
From S2P Require Import DumpTheorems.
From S2P Require Import Lsctl.
From S2P Require Import LsctlScopes.
From S2P Require Import LsctlTheorems.
From S2P Require Import Client.
From S2P Require Import Daemon.

Local Open Scope string_scope.
Local Open Scope list_scope.
Local Open Scope Z_scope.

Section remote.
Context {T : TclLib} {J : JsonC} (uninit_mac : lsdn_mac_t) (uninit_str : option string).
Notation chars_of := String.list_ascii_of_string.

(** A script that comes as a text. *)
Definition script_of (text : list ascii) : tcl_obj := Word (String.string_of_list_ascii text).
(** [Tcl_Eval] with the commands of lsctl; the output is what was given to [puts] meanwhile. *)
Definition lsctl_eval (text : list ascii) : M tcl (Z * list ascii) :=
  s ← get;
  ret ← eval_obj uninit_mac uninit_str MAX_SCOPE_NESTING (script_of text);
  s' ← get;
  mret (ret, concat (chars_of <$> drop (length (t_out s)) (t_out s'))).
Definition lsctl_errorinfo (s : tcl) : list ascii := chars_of (default EmptyString (t_result s)).

Definition lsctld_loop (uninit : nat → list ascii) (transmitted : nat → nat) : list event → nat → M (daemon tcl) (option Z) :=
  main_loop lsctl_eval lsctl_errorinfo uninit transmitted.

(** The scripts that come with events. *)
Definition scripts (events : list event) : list (list ascii) :=
  events ≫= λ e, match e with EvConnection c => [c_string (text_of (reads c))] | _ => [] end.

Section kept.
Context (builtin_restores : ∀ argv, restores all_scopes (tcl_builtin argv)).
Context (uninit : nat → list ascii) (uninit_length : ∀ n, length (uninit n) = n) (transmitted : nat → nat).

Lemma session_restores text s a s' :
  scopes_ok s → tidy MAX_SCOPE_NESTING (script_of text) = true → lsctl_eval text s = Ok a s' →
  visible s' = visible s ∧ scopes_ok s'.
Proof.
  intros Hs Ht. unfold lsctl_eval, mbind, M_bind, get.
  destruct (eval_obj _ _ _ _ s) as [ret s1|] eqn:E; [|done]. intros [= <- <-].
  assert (∃ sc, current s = Some sc) as [sc Hc] by (apply lookup_lt_is_Some_2, Hs).
  eapply eval_restores; [exact builtin_restores|exact Ht|exact Hs|exact Hc|destruct sc; set_solver|exact E].
Qed.

(** C30: Clients of the daemon do not disturb each other, as far as scopes go: if none of the
    scripts has a [phys] command with superfluous words, then after any number of connections
    the scopes and the objects of the context are those the daemon started with, so that every
    client begins in the root scope, also after scripts that ended with an error. *)
Theorem clients_begin_at_root (events : list event) (n : nat) (d d' : daemon tcl) :
  buffers_ok d → (∀ m, (n ≤ m)%nat → replies d !! m = None) → Forall (event_ok (fds d)) events →
  scopes_ok (ip d) → Forall (λ text, tidy MAX_SCOPE_NESTING (script_of text) = true) (scripts events) →
  lsctld_loop uninit transmitted events n d = Ok None d' → visible (ip d') = visible (ip d) ∧ scopes_ok (ip d').
Proof.
  intros Hb Hr He Hs Ht. revert n d Hb Hr He Hs.
  induction events as [|[| |sig|c] events IH]; intros n d Hb Hr He Hs; [by intros [= <-]| | | |];
    apply list.Forall_cons in He as [He Hes]; unfold lsctld_loop; cbn [Daemon.main_loop]; try done.
  - by apply IH.
  - destruct He as [Hpos Hsig]. rewrite (proj2 (Z.leb_gt _ _)), bool_decide_false by done. by apply IH.
  - unfold scripts in Ht. rewrite bind_cons in Ht. apply list.Forall_cons in Ht as [Hc Ht].
    pose proof (serve_spec lsctl_eval lsctl_errorinfo uninit uninit_length transmitted n c d Hb (Hr n ltac:(done)) He) as Hv.
    unfold mbind, M_bind. unfold evaluate, mbind, M_bind in Hv.
    destruct (lsctl_eval (c_string (text_of (reads c))) (ip d)) as [[ret out] i|] eqn:E; [|by rewrite Hv].
    destruct (session_restores _ _ _ _ Hs Hc E) as [Hvis Hok]. cbn in Hv.
    destruct Hv as (d1 & E1 & Hb1 & Ei & Er & _ & Ef & _). rewrite E1. intros Hrun. rewrite <-Hvis, <-Ei.
    apply (IH Ht (S n) d1); [done| | |by rewrite Ei|exact Hrun].
    + intros m Hm. rewrite Er, lookup_insert_ne by lia. apply Hr. lia.
    + eapply list.Forall_impl; [done|]. intros e. apply event_ok_sub.
      rewrite Ef. etransitivity; apply delete_subseteq.
Qed.
End kept.
End remote.

(** ** Clients of a daemon *)

(** A script as text: a line is a command, and a line that ends with a brace opens a script. *)
#[local] Instance remote_tcl : TclLib := {
  Tcl_ParseArgsObjv := @Tcl_ParseArgsObjv demo_tcl;
  Tcl_GetIntFromObj := @Tcl_GetIntFromObj demo_tcl;
  Tcl_GetIndexFromObj := @Tcl_GetIndexFromObj demo_tcl;
  Tcl_GetString := @Tcl_GetString demo_tcl;
  tcl_split := @tcl_split demo_tcl;
  tcl_script o := match o with Braces s => s | Word text => nest (tcl_lines text) [] [] end;
  tcl_builtin := @tcl_builtin demo_tcl }.
Definition lines (l : list string) : list ascii := concat ((λ s, String.list_ascii_of_string s ++ [ascii_of_nat 10]) <$> l).
(** The daemon with lsctl, and a connection with a script. *)
Definition lsctld : daemon tcl :=
  daemon_start demo_fresh LsctlTheorems.started {[ 0 := FdOther; 1 := FdOther; 2 := FdOther; 3 := FdListen; 4 := FdSignal ]}.
Definition client_of (script : list string) : event := EvConnection (demo_connection 5 [lines script]).
Definition lsctld_run (events : list event) : res (daemon tcl) (option Z) :=
  lsctld_loop (T := remote_tcl) (J := demo_json) lsdn_all_zeroes_mac None demo_fresh buffered events 0 lsctld.
Definition replied (r : res (daemon tcl) (option Z)) (n : nat) : option string :=
  match r with Ok _ d => String.string_of_list_ascii <$> replies d !! n | Fault _ => None end.

(** A client leaves its scope open, and the command of another one is refused. *)
Example scopes_leak_between_clients :
  replied (lsctld_run [client_of ["phys -name p x y"]; client_of ["commit"]]) 1 =
    Some ("error: command is not allowed inside 'phys' scope" +:+ String.String (ascii_of_nat 10) "").
Proof. vm_compute. reflexivity. Qed.

(** A network with a virt in two scripts, with a script that fails in between. *)
Definition session : list event :=
  [client_of ["settings vlan"; "net -vid 7 a {"; "virt -name v"; "}"]; client_of ["virt -name u"; "commit"];
   EvInterrupted; client_of ["virt -net a -name w"]].
Definition session_end : daemon tcl := match lsctld_run session with Ok _ d => d | Fault _ => lsctld end.
Lemma session_run : lsctld_run session = Ok None session_end.
Proof.
  assert (Ho : match lsctld_run session with Ok None _ => true | _ => false end = true) by (vm_compute; reflexivity).
  unfold session_end. by destruct (lsctld_run session) as [[]|].
Qed.
Example session_replies :
  (replied (lsctld_run session) 0, replied (lsctld_run session) 1, replied (lsctld_run session) 2) =
  (Some "", Some ("error: " +:+ default "" (t_result (ip session_end)) +:+ String.String (ascii_of_nat 10) ""), Some "").
Proof. vm_compute. reflexivity. Qed.
Lemma lsctld_ok : buffers_ok lsctld.
Proof. split_and!; [by vm_compute|by vm_compute|done|done]. Qed.
Lemma client_of_ok script :
  bool_decide (lines script ≠ [] ∧ Z.of_nat (length (lines script)) ≤ BUF_SIZE) = true →
  event_ok (fds lsctld) (client_of script).
Proof.
  intros [Hne Hle]%bool_decide_eq_true. split_and!; [done|done|constructor|]. exists [lines script].
  split; [done|]. split; [by repeat constructor|]. cbn [concat]. rewrite app_nil_r. unfold BUF_SIZE in Hle. lia.
Qed.
Lemma session_tidy :
  Forall (λ text, tidy (T := remote_tcl) MAX_SCOPE_NESTING (script_of text) = true) (scripts session).
Proof.
  assert (Hf : forallb (λ text, tidy (T := remote_tcl) MAX_SCOPE_NESTING (script_of text)) (scripts session) = true)
    by (vm_compute; reflexivity).
  apply list.Forall_forall. intros text Ht. rewrite forallb_forall in Hf. by apply Hf, list_elem_of_In.
Qed.
Lemma clients_begin_at_root_witness :
  visible (ip session_end) = visible LsctlTheorems.started ∧ scopes_ok (ip session_end).
Proof.
  apply (clients_begin_at_root (T := remote_tcl) (J := demo_json) lsdn_all_zeroes_mac None
           (λ argv, keeps_restores _ _ (keeps_ret TCL_OK)) demo_fresh demo_fresh_length buffered session 0 lsctld session_end).
  - apply lsctld_ok.
  - done.
  - repeat constructor; by apply client_of_ok; vm_compute.
  - apply started_scopes.
  - exact session_tidy.
  - exact session_run.
Defined.
