(* ===== verification/Shortcuts.v ===== *)
(** * Shortcuts for virt rules

    The inline functions that [lsdn_vr_shortcuts] of [netmodel/include/rules.h] defines for each
    kind of address: a condition on the whole address, and the creation of a rule with one
    condition. A rule made with a mask matches exactly the packets it should; the shortcuts
    without a mask swap the priority and the direction. *)

From Stdlib Require Import ZArith Lia.
From stdpp Require Import base list gmap.
From S2P Require Import Prelude.
From S2P Require Import LStore.
From S2P Require Import Status.
From S2P Require Import Nettypes.
From S2P Require Import Heap.
From S2P Require Import Base.
From S2P Require Import Wp.
From S2P Require Import Model.
From S2P Require Import Rules.
From S2P Require Import Masks.
From S2P Require Import Inv.
From S2P Require Import VirtRules.
From S2P Require Import Destroy.
From S2P Require Import Api.

Local Open Scope Z_scope.

(** Numbers and directions convert into each other silently; [lsdn_vr_new] takes everything
    that is not [LSDN_IN] as outgoing. *)
Definition direction_value (dir : lsdn_direction) : Z := match dir with LSDN_IN => 0 | LSDN_OUT => 1 end.
Definition value_direction (n : Z) : lsdn_direction := if n =? 0 then LSDN_IN else LSDN_OUT.

(** The macro [lsdn_vr_shortcuts(doc, name, type, fullmask)]. *)
Section lsdn_vr_shortcuts.
Context {type : Type} (lsdn_vr_add_masked : ptr → type → type → M heap unit) (fullmask : type → type).

Definition lsdn_vr_add (rule : ptr) (value : type) : M heap unit :=
  lsdn_vr_add_masked rule value (fullmask value).

Definition lsdn_vr_new_masked (virt : ptr) (dir : lsdn_direction) (prio : Z) (value mask : type)
    (action : lsdn_action_desc) : M heap ptr :=
  m ← lsdn_vr_new virt prio dir action;
  vr ← deref m;
  _ ← lsdn_vr_add_masked vr value mask;
  mret vr.

Definition lsdn_vr_new_full (virt : ptr) (dir : lsdn_direction) (prio : Z) (value : type)
    (action : lsdn_action_desc) : M heap ptr :=
  lsdn_vr_new_masked virt (value_direction prio) (direction_value dir) value (fullmask value) action.
End lsdn_vr_shortcuts.

Definition mac_fullmask (value : lsdn_mac_t) : lsdn_mac_t := lsdn_single_mac_mask.
Definition ip_fullmask (value : lsdn_ip_t) : lsdn_ip_t :=
  match v value with LSDN_IPv4 => lsdn_single_ipv4_mask | LSDN_IPv6 => lsdn_single_ipv6_mask end.

Definition lsdn_vr_add_src_mac := lsdn_vr_add lsdn_vr_add_masked_src_mac mac_fullmask.
Definition lsdn_vr_new_masked_src_mac := lsdn_vr_new_masked lsdn_vr_add_masked_src_mac.
Definition lsdn_vr_new_src_mac := lsdn_vr_new_full lsdn_vr_add_masked_src_mac mac_fullmask.
Definition lsdn_vr_add_dst_mac := lsdn_vr_add lsdn_vr_add_masked_dst_mac mac_fullmask.
Definition lsdn_vr_new_masked_dst_mac := lsdn_vr_new_masked lsdn_vr_add_masked_dst_mac.
Definition lsdn_vr_new_dst_mac := lsdn_vr_new_full lsdn_vr_add_masked_dst_mac mac_fullmask.
Definition lsdn_vr_add_src_ip := lsdn_vr_add lsdn_vr_add_masked_src_ip ip_fullmask.
Definition lsdn_vr_new_masked_src_ip := lsdn_vr_new_masked lsdn_vr_add_masked_src_ip.
Definition lsdn_vr_new_src_ip := lsdn_vr_new_full lsdn_vr_add_masked_src_ip ip_fullmask.
Definition lsdn_vr_add_dst_ip := lsdn_vr_add lsdn_vr_add_masked_dst_ip ip_fullmask.
Definition lsdn_vr_new_masked_dst_ip := lsdn_vr_new_masked lsdn_vr_add_masked_dst_ip.
Definition lsdn_vr_new_dst_ip := lsdn_vr_new_full lsdn_vr_add_masked_dst_ip ip_fullmask.

(** [lsdn_vr_new_masked_*] and [lsdn_vr_new_*], by the condition. *)
Definition run_new_masked (c : match_call) (virt : ptr) (dir : lsdn_direction) (prio : Z) : lsdn_action_desc → M heap ptr :=
  match c with
  | SrcMac value mask => lsdn_vr_new_masked_src_mac virt dir prio value mask
  | DstMac value mask => lsdn_vr_new_masked_dst_mac virt dir prio value mask
  | SrcIp value mask => lsdn_vr_new_masked_src_ip virt dir prio value mask
  | DstIp value mask => lsdn_vr_new_masked_dst_ip virt dir prio value mask
  end.
(** The address without the mask. *)
Definition run_new (c : match_call) (virt : ptr) (dir : lsdn_direction) (prio : Z) : lsdn_action_desc → M heap ptr :=
  match c with
  | SrcMac value _ => lsdn_vr_new_src_mac virt dir prio value
  | DstMac value _ => lsdn_vr_new_dst_mac virt dir prio value
  | SrcIp value _ => lsdn_vr_new_src_ip virt dir prio value
  | DstIp value _ => lsdn_vr_new_dst_ip virt dir prio value
  end.
Definition full_call (c : match_call) : match_call :=
  match c with
  | SrcMac value _ => SrcMac value (mac_fullmask value)
  | DstMac value _ => DstMac value (mac_fullmask value)
  | SrcIp value _ => SrcIp value (ip_fullmask value)
  | DstIp value _ => DstIp value (ip_fullmask value)
  end.

(** ** The new rule *)

(** Memory that was only allocated has the size of what is stored there. *)
Definition garbage_ok (e : Env.env) : Prop := ∀ p,
  length (Env.garbage e p) = LSDN_MAX_MATCHES ∧ Forall (λ u, length u = LSDN_MAX_MATCH_LEN) (Env.garbage e p).

Lemma shaped_uniform n ms vs : length ms = n → length vs = n → Forall (λ m, length m = LSDN_MAX_MATCH_LEN) ms →
  Forall (λ u, length u = LSDN_MAX_MATCH_LEN) vs → shaped (replicate n LSDN_MATCH_NONE) ms vs.
Proof.
  revert ms vs. induction n as [|n IH]; intros [|m ms] [|u vs] ?? Hm Hv; simplify_eq/=; constructor.
  all: inversion Hm; inversion Hv; subst; try done. by apply IH.
Qed.

Lemma malloc_run s m s' : malloc s = Ok m s' → (m = None ∨ m = Some (H.next_ptr s)) ∧ H.objs s' = H.objs s ∧
  H.lists s' = H.lists s ∧ H.env s' = H.env s ∧ (H.next_ptr s ≤ H.next_ptr s')%positive ∧ (m = Some (H.next_ptr s) → (H.next_ptr s < H.next_ptr s')%positive).
Proof.
  unfold malloc, try_alloc, mbind, M_bind, get, modify, mret, M_ret. simpl.
  destruct (Env.malloc_ok _ _); intros [= <- <-]; simpl; split_and!; auto; intros; try done; lia.
Qed.

(** The rule that [virt] has at a priority, in a direction. *)
Definition in_rules (s : heap) (virt : ptr) (dir : lsdn_direction) (prio : Z) (vr : ptr) : Prop :=
  ∃ x p l, H.objs s !! virt = Some (OVirt x) ∧ hash_find prio (ht_get dir x) = Some p ∧
    H.lists s !! (p, F_rules_list) = Some l ∧ (vr, F_rules_entry) ∈ l.

Section new_rule.
Context (s : heap).

Lemma bind_run {A B : Type} (m : M heap A) (f : A → M heap B) b s' :
  (m ≫= f) s = Ok b s' → ∃ a s1, m s = Ok a s1 ∧ f a s1 = Ok b s'.
Proof. unfold mbind, M_bind. destruct (m s) as [a s1|]; [eauto|done]. Qed.

Lemma list_init_run e s' : list_init e s = Ok tt s' →
  H.objs s' = H.objs s ∧ H.env s' = H.env s ∧ H.rules s' = H.rules s ∧ H.lists s' !! e = Some [].
Proof.
  unfold list_init, forget_freed, on_lists, Store.init, mbind, M_bind, get, modify.
  destruct (forallb _ _); simpl; destruct (Store.unlinked _ _); try done; intros [= <-]; simpl; by rewrite lookup_insert_eq.
Qed.
Lemma list_init_add_run p e l s' : H.lists s !! p = Some l → list_init_add p e s = Ok tt s' →
  H.objs s' = H.objs s ∧ H.rules s' = H.rules s ∧ H.lists s' !! p = Some (e :: l).
Proof.
  intros Hp. unfold list_init_add, on_lists, Store.init_add, mbind, M_bind, get, modify. rewrite Hp.
  destruct (_ || _); [done|]. intros [= <-]. simpl. by rewrite lookup_insert_eq.
Qed.
Lemma upd_virt_run p f x s' : H.objs s !! p = Some (OVirt x) → upd_virt p f s = Ok tt s' →
  s' = H.set_objs (<[p := OVirt (f x)]> (H.objs s)) s.
Proof. intros Hp. unfold upd_virt, get_virt, get_obj, mbind, M_bind, get. rewrite Hp. by intros [= <-]. Qed.
End new_rule.

(** The last steps of [lsdn_vr_new]. *)
Lemma link_vr_run s virt x dir prio_num prio vr a l s' : H.objs s !! virt = Some (OVirt x) → vr ≠ virt →
  hash_find prio_num (ht_get dir x) = Some prio → H.lists s !! (prio, F_rules_list) = Some l → garbage_ok (H.env s) →
  (s0 ← get;
   _ ← new_rule (vr, F_rule) (Rule.set_action a (uninit_rule s0 vr));
   _ ← put_obj vr (OVr (Vr.mk 0 LSDN_STATE_NEW false (replicate LSDN_MAX_MATCHES LSDN_MATCH_NONE)
                         (replicate LSDN_MAX_MATCHES (replicate LSDN_MAX_MATCH_LEN 0))));
   _ ← list_init_add (prio, F_rules_list) (vr, F_rules_entry); mret (Some vr)) s = Ok (Some vr) s' →
  ∃ y r, vr_ok s' vr y r ∧ Vr.pos y = 0 ∧ Forall (λ t, t = LSDN_MATCH_NONE) (Vr.targets y) ∧ in_rules s' virt dir prio_num vr.
Proof.
  intros Hv Hne Hfind Hl Hg. unfold get at 1, mbind at 1, M_bind at 1.
  intros ([] & s1 & [= <-] & Hr)%bind_run. apply bind_run in Hr as ([] & s2 & [= <-] & Hr).
  apply bind_run in Hr as ([] & s3 & Hi & [= <-]). eapply list_init_add_run in Hi as (Ho & Hrs & Hls); [|exact Hl].
  simpl in Ho, Hrs. destruct (Hg vr) as [Hlen Hall].
  eexists _, _. split_and!.
  - split; [rewrite Ho; apply lookup_insert_eq|]. split; [rewrite Hrs; apply lookup_insert_eq|].
    split_and!; try done.
    + apply (shaped_uniform LSDN_MAX_MATCHES); [done|done|by repeat constructor|done].
    + repeat constructor; done.
    + intros i t Ht _. by apply (lookup_replicate_1 LSDN_MAX_MATCHES) in Ht as [-> _].
  - done.
  - by repeat constructor.
  - exists x, prio, ((vr, F_rules_entry) :: l). split_and!; [by rewrite Ho, lookup_insert_ne|done|done|left].
Qed.

Lemma ret_ptr_None c s m s' : ret_ptr c None s = Ok m s' → m = None.
Proof. unfold ret_ptr. intros ([] & s1 & _ & [= <- _])%bind_run. done. Qed.
Lemma get_virt_run p s x s' : get_virt p s = Ok x s' → s' = s ∧ H.objs s !! p = Some (OVirt x).
Proof. unfold get_virt, get_obj, mbind, M_bind, get. destruct (H.objs s !! p) as [[]|]; try done. by intros [= -> ->]. Qed.
Lemma get_net_state p s x s' : get_net p s = Ok x s' → s' = s.
Proof. unfold get_net, get_obj, mbind, M_bind, get. destruct (H.objs s !! p) as [[]|]; try done. by intros [= _ ->]. Qed.
Lemma assert_run b (s : heap) u s' : assert_ b s = Ok u s' → s' = s.
Proof. destruct b; by intros [= _ <-]. Qed.
Lemma hash_find_snoc (k : Z) p t : hash_find k t = None → hash_find k (t ++ [(k, p)]) = Some p.
Proof.
  unfold hash_find. intros Hn%fmap_None. induction t as [|[k' q] t IH]; simpl in *.
  - by rewrite bool_decide_true.
  - case_bool_decide; [done|auto].
Qed.
Lemma tables_rules s virt x dir prio_num prio : inv s → H.objs s !! virt = Some (OVirt x) →
  hash_find prio_num (ht_get dir x) = Some prio → ∃ l, H.lists s !! (prio, F_rules_list) = Some l.
Proof.
  intros Hinv Hv Hf. apply hash_find_in in Hf. destruct (inv_refs s Hinv _ _ Hv) as (_ & _ & Ht & _).
  destruct (Ht prio) as (o & Ho & Hp); [by eapply tables_dir|]. destruct o; try done.
  apply (inv_heads s Hinv _ _ _ Ho). simpl. set_solver.
Qed.

Lemma vr_new_run s virt prio_num dir a vr s' : inv s → garbage_ok (H.env s) →
  lsdn_vr_new virt prio_num dir a s = Ok (Some vr) s' →
  ∃ y r, vr_ok s' vr y r ∧ Vr.pos y = 0 ∧ Forall (λ t, t = LSDN_MATCH_NONE) (Vr.targets y) ∧ in_rules s' virt dir prio_num vr.
Proof.
  intros Hinv Hg. unfold lsdn_vr_new. intros (u & s0 & ->%assert_run & Hr)%bind_run.
  apply bind_run in Hr as (x & s0 & [-> Hvirt]%get_virt_run & Hr). apply bind_run in Hr as (n & s0 & ->%get_net_state & Hr).
  apply bind_run in Hr as (m & s1 & (Hm & Ho1 & Hl1 & He1 & Hn1 & Hlt)%malloc_run & Hr).
  destruct m as [p|]; [|by apply ret_ptr_None in Hr].
  destruct Hm as [Hm|[= ->]]; [done|]. specialize (Hlt eq_refl). set (vr0 := H.next_ptr s) in *.
  pose proof (inv_fresh s Hinv _ _ Hvirt) as Hvne. fold vr0 in Hvne.
  apply bind_run in Hr as (found & s2 & Hf & Hr). destruct found as [prio|]; [|by apply ret_ptr_None in Hr].
  assert (vr = vr0) as ->.
  { clear Hf. do 4 (apply bind_run in Hr as (? & ? & _ & Hr)).
    by injection Hr. }
  destruct (hash_find prio_num (ht_get dir x)) as [q|] eqn:Hfind.
  - injection Hf as -> <-. destruct (tables_rules s virt x dir prio_num prio) as [l Hl]; [done..|].
    eapply (link_vr_run s1); [by rewrite Ho1|lia|done|by rewrite Hl1|by rewrite He1|exact Hr].
  - apply bind_run in Hf as (m & s3 & (Hm3 & Ho3 & Hl3 & He3 & _)%malloc_run & Hf). destruct m as [q|]; [|done].
    destruct Hm3 as [?|[= ->]]; [done|]. apply bind_run in Hf as ([] & s4 & [= <-] & Hf).
    apply bind_run in Hf as ([] & s5 & (Ho5 & He5 & _ & Hl5)%list_init_run & Hf). simpl in Ho5, He5.
    assert (Hv5 : H.objs s5 !! virt = Some (OVirt x)) by (rewrite Ho5, lookup_insert_ne, Ho3, Ho1 by lia; done).
    apply bind_run in Hf as ([] & s6 & ->%(upd_virt_run _ _ _ x) & [= <- <-]); [|done].
    eapply (link_vr_run _ virt) in Hr; [exact Hr|apply lookup_insert_eq|lia| |exact Hl5|simpl; by rewrite He5, He3, He1].
    destruct dir; by apply hash_find_snoc.
Qed.

(** ** One condition *)

(** Lists and virts stay as they are. *)
Definition keeps {A} (m : M heap A) : Prop := ∀ s a s', m s = Ok a s' →
  H.lists s' = H.lists s ∧ ∀ p x, H.objs s !! p = Some (OVirt x) → H.objs s' !! p = Some (OVirt x).
Lemma keeps_then {A B : Type} (m : M heap A) (f : A → M heap B) : keeps m → (∀ a, keeps (f a)) → keeps (m ≫= f).
Proof.
  intros Hm Hf s b s' (a & s1 & [Hl1 Ho1]%Hm & [Hl2 Ho2]%Hf)%bind_run. split; [by rewrite Hl2|auto].
Qed.
Lemma keeps_state {A} (m : M heap A) : (∀ s a s', m s = Ok a s' → s' = s) → keeps m.
Proof. by intros Hm s a s' ->%Hm. Qed.
Lemma keeps_array_set {A} i (a : A) l : keeps (array_set i a l).
Proof. apply keeps_state. intros s b s'. unfold array_set. case_match; by intros [= _ <-]. Qed.
Lemma keeps_get_vr p : keeps (get_vr p).
Proof.
  apply keeps_state. intros s x s'. unfold get_vr, get_obj, mbind, M_bind, get.
  destruct (H.objs s !! p) as [[]|]; try done. by intros [= _ ->].
Qed.
Lemma keeps_upd_vr p f : keeps (upd_vr p f).
Proof.
  intros s [] s'. unfold upd_vr, get_vr, get_obj, put_obj, modify, mbind, M_bind, get.
  destruct (H.objs s !! p) as [[]|] eqn:Hp; try done. intros [= <-]. split; [done|]. intros q y Hq. simpl.
  by rewrite lookup_insert_ne by congruence.
Qed.
Lemma keeps_get_rule p : keeps (get_rule p).
Proof.
  apply keeps_state. intros s x s'. unfold get_rule, mbind, M_bind, get. destruct (H.rules s !! p); [|done]. by intros [= _ ->].
Qed.
Lemma keeps_upd_rule p f : keeps (upd_rule p f).
Proof.
  unfold upd_rule. apply keeps_then; [apply keeps_get_rule|]. intros r s [] s'. by intros [= <-].
Qed.
Lemma vr_add_masked_keeps t rule value mask : keeps (vr_add_masked t rule value mask).
Proof.
  unfold vr_add_masked.
  repeat (first [apply keeps_upd_rule|apply keeps_then; [first [apply keeps_get_vr|apply keeps_upd_vr|apply keeps_array_set|apply keeps_get_rule|
    apply keeps_state; intros ???; apply assert_run]|intros ?]]).
Qed.

Lemma run_match_body c vr s : call_ok c →
  run_match c vr s = vr_add_masked (call_target c) vr (call_value c) (call_mask c) s ∧
  lsdn_target_supports_masking (call_target c) = true ∧ length (call_value c) = target_len (call_target c) ∧
  length (call_mask c) = target_len (call_target c).
Proof.
  destruct c as [value mask|value mask|value mask|value mask]; simpl; unfold mac_ok, ip_ok, bytes_ok.
  1,2: naive_solver.
  all: intros ((Hv & _) & (Hm & _) & Hver); rewrite Hver in Hm.
  all: unfold lsdn_vr_add_masked_src_ip, lsdn_vr_add_masked_dst_ip; rewrite bool_decide_true by done; by destruct (v value).
Qed.

(** The rule [vr] matches exactly the packets that satisfy the condition. *)
Definition matches_call (s : heap) (vr : ptr) (c : match_call) : Prop := ∃ x r, vr_ok s vr x r ∧ Vr.pos x = 1 ∧
  ∀ pkt, packet_ok pkt →
    vr_matches x r pkt ↔ mask_with (call_mask c) (pkt (call_target c)) = mask_with (call_mask c) (call_value c).

Lemma matches_all ts ms vs pkt : Forall (λ t, t = LSDN_MATCH_NONE) ts → shaped ts ms vs → packet_ok pkt →
  rule_matches pkt ts ms vs.
Proof.
  intros Hn Hs Hp. induction Hs; [by constructor|]. inversion Hn; subst. constructor; [|by apply IHHs].
  unfold target_matches. simpl. apply nil_length_inv, (Hp LSDN_MATCH_NONE).
Qed.

Lemma add_first_match s vr y r c virt dir prio : vr_ok s vr y r → Vr.pos y = 0 →
  Forall (λ t, t = LSDN_MATCH_NONE) (Vr.targets y) → in_rules s virt dir prio vr → call_ok c →
  ∃ s', run_match c vr s = Ok tt s' ∧ matches_call s' vr c ∧ in_rules s' virt dir prio vr.
Proof.
  intros Hok Hpos Hnone (x & p & l & Hx & Hf & Hl & Hin) Hc. destruct (run_match_body c vr s Hc) as (-> & Ht & Hv & Hm).
  pose proof (vr_add_masked_spec s vr y r _ _ _ Hok ltac:(by rewrite Hpos) Ht Hv Hm) as Hwp. unfold wp in Hwp.
  destruct (vr_add_masked _ _ _ _ s) as [[] s'|] eqn:E; [|done]. destruct Hwp as (y' & r' & Hok' & Hpos' & Hpkt).
  apply vr_add_masked_keeps in E as [Hls Hobj]. exists s'. split_and!; [done| |].
  - exists y', r'. split_and!; [done|by rewrite Hpos', Hpos|]. intros pkt Hp. rewrite (Hpkt pkt Hp).
    assert (vr_matches y r pkt) by (apply matches_all; [done|apply Hok|done]). tauto.
  - exists x, p, l. rewrite Hls. eauto.
Qed.

(** Every branch of [lsdn_vr_new_masked_*]. *)
Definition new_rule_result (c : match_call) (virt : ptr) (dir : lsdn_direction) (prio : Z) (a : lsdn_action_desc) (s : heap)
    (res : res heap ptr) : Prop :=
  (∃ vr s', res = Ok vr s' ∧ matches_call s' vr c ∧ in_rules s' virt dir prio vr) ∨
  (out_of_memory s ∧ res = Fault NullDeref ∧ ∃ s', lsdn_vr_new virt prio dir a s = Ok None s').

Lemma run_new_masked_body c virt dir prio a : run_new_masked c virt dir prio a =
  (m ← lsdn_vr_new virt prio dir a; vr ← deref m; _ ← run_match c vr; mret vr).
Proof. by destruct c. Qed.

(** [lsdn_vr_new] answers NULL for lack of memory only. *)
Lemma malloc_none s s' : malloc s = Ok None s' → out_of_memory s.
Proof.
  unfold malloc, try_alloc, mbind, M_bind, get, modify, mret, M_ret. simpl.
  destruct (Env.malloc_ok (H.env s) (H.allocs s)) eqn:E; [done|]. intros _. by exists (H.allocs s).
Qed.
Lemma vr_new_none s virt prio_num dir a s' : lsdn_vr_new virt prio_num dir a s = Ok None s' → out_of_memory s.
Proof.
  unfold lsdn_vr_new. intros (u & s0 & ->%assert_run & Hr)%bind_run.
  apply bind_run in Hr as (x & s0 & [-> _]%get_virt_run & Hr). apply bind_run in Hr as (n & s0 & ->%get_net_state & Hr).
  apply bind_run in Hr as (m & s1 & Hm & Hr). destruct m as [vr|]; [|by eapply malloc_none].
  apply malloc_run in Hm as (_ & _ & _ & He & _). apply bind_run in Hr as (found & s2 & Hf & Hr).
  destruct found as [prio|].
  - do 4 (apply bind_run in Hr as (? & ? & _ & Hr)). done.
  - destruct (hash_find prio_num (ht_get dir x)); [done|]. apply bind_run in Hf as (m & s3 & Hm & Hf).
    destruct m as [q|]; [by do 3 (apply bind_run in Hf as (? & ? & _ & Hf))|]. apply malloc_none in Hm.
    unfold out_of_memory in *. by rewrite <-He.
Qed.

Lemma new_masked_result s virt x dir prio a c : inv s → no_abort s → garbage_ok (H.env s) →
  H.objs s !! virt = Some (OVirt x) → vr_prio_ok prio = true → call_ok c →
  new_rule_result c virt dir prio a s (run_new_masked c virt dir prio a s).
Proof.
  intros Hinv Hna Hg Hv Hp Hc. rewrite run_new_masked_body. pose proof (vr_new_spec s virt x prio dir a Hinv Hna Hv Hp) as Hwp.
  unfold wp in Hwp. unfold mbind at 1, M_bind at 1. destruct (lsdn_vr_new virt prio dir a s) as [[vr|] s1|] eqn:E; [| |done].
  - left. destruct (vr_new_run s virt prio dir a vr s1 Hinv Hg E) as (y & r & Hok & Hpos & Hnone & Hin).
    destruct (add_first_match s1 vr y r c virt dir prio) as (s' & Hr & ? & ?); [done..|]. exists vr, s'.
    split; [|done]. simpl. unfold mbind, M_bind, mret, M_ret. simpl. by rewrite Hr.
  - right. split; [by eapply vr_new_none|]. split; [done|]. by exists s1.
Qed.

(** *** The whole address *)

Lemma full_call_ok c : call_ok c → call_ok (full_call c).
Proof.
  destruct c as [value mask|value mask|value mask|value mask]; simpl; unfold mac_ok, ip_ok, bytes_ok, ip_fullmask.
  1,2: intros [? _]; split; [done|]; split; [done|]; repeat constructor; lia.
  all: intros (? & _); destruct (v value); split_and!; try tauto; repeat constructor; lia.
Qed.
Lemma run_new_body c virt dir prio a :
  run_new c virt dir prio a = run_new_masked (full_call c) virt (value_direction prio) (direction_value dir) a.
Proof. by destruct c. Qed.
Lemma mask_full n l : length l = n → Forall byte l → mask_with (replicate n 255) l = l.
Proof.
  intros <-. unfold mask_with. induction 1 as [|b l Hb _ IH]; [done|]. simpl. f_equal; [|done].
  change 255 with (Z.ones 8). rewrite Z.land_ones by done. apply Z.mod_small. unfold byte in Hb. lia.
Qed.
Lemma call_mask_full c : call_ok c → call_mask (full_call c) = replicate (length (call_value c)) 255.
Proof.
  destruct c as [value mask|value mask|value mask|value mask]; simpl; unfold mac_ok, ip_ok, bytes_ok, ip_fullmask.
  1,2: intros [[-> _] _]; done.
  all: intros ((-> & _) & _); by destruct (v value).
Qed.
(** The shortcuts without a mask ask for the whole address, but give [lsdn_vr_new_masked_*] the
    priority and the direction in the wrong order: the rule has the number of the direction as its
    priority, and is incoming exactly if the priority was 0. *)
Theorem new_full_rule_swapped s virt x dir prio a c : inv s → no_abort s → garbage_ok (H.env s) →
  H.objs s !! virt = Some (OVirt x) → call_ok c → ¬ out_of_memory s →
  ∃ vr s' y r, run_new c virt dir prio a s = Ok vr s' ∧ vr_ok s' vr y r ∧
    in_rules s' virt (value_direction prio) (direction_value dir) vr ∧
    ∀ pkt, packet_ok pkt → Forall byte (pkt (call_target c)) → vr_matches y r pkt ↔ pkt (call_target c) = call_value c.
Proof.
  intros Hinv Hna Hg Hv Hc Hm. rewrite run_new_body.
  destruct (new_masked_result s virt x (value_direction prio) (direction_value dir) a (full_call c))
    as [(vr & s' & Hr & (y & r & Hok & _ & Hpkt) & Hin)|[? _]]; try done; [by destruct dir|by apply full_call_ok|].
  exists vr, s', y, r. split_and!; [done..|]. intros pkt Hp Hb. rewrite (Hpkt pkt Hp), call_mask_full by done.
  destruct (run_match_body c vr s Hc) as (_ & _ & Hl & _).
  assert (call_target (full_call c) = call_target c ∧ call_value (full_call c) = call_value c) as [-> ->] by by destruct c.
  assert (Hbv : Forall byte (call_value c)) by (destruct c; simpl in Hc; apply Hc).
  rewrite !mask_full; try done. by rewrite (Hp _), Hl.
Qed.

(** C21: [lsdn_vr_new_masked_*] makes a rule in the given direction, at the given priority, that
    matches exactly the packets whose field agrees with the value under the mask, from every state
    that satisfies the invariant; if memory runs out it dereferences the NULL that [lsdn_vr_new]
    answers. [lsdn_vr_new_*] does the same with the full mask, but with priority and direction
    swapped: the priority is the number of the direction, and the rule is incoming exactly if
    the priority was 0. *)
Theorem new_masked_rule s virt x dir prio a c : inv s → no_abort s → garbage_ok (H.env s) →
  H.objs s !! virt = Some (OVirt x) → vr_prio_ok prio = true → call_ok c →
  new_rule_result c virt dir prio a s (run_new_masked c virt dir prio a s) ∧
  new_rule_result (full_call c) virt (value_direction prio) (direction_value dir) a s (run_new c virt dir prio a s).
Proof.
  intros. split; [by eapply new_masked_result|]. rewrite run_new_body. eapply new_masked_result; try done.
  - by destruct dir.
  - by apply full_call_ok.
Qed.

(** ** Witness *)

Lemma api_garbage_ok : garbage_ok (H.env api_state).
Proof.
  assert (He : H.env api_state = api_env) by (vm_compute; reflexivity). rewrite He. intros p. split; [done|].
  by repeat constructor.
Qed.
Lemma new_masked_rule_witness :
  new_rule_result demo_call 6 LSDN_OUT 20 LSDN_VR_DROP api_state (run_new_masked demo_call 6 LSDN_OUT 20 LSDN_VR_DROP api_state) ∧
  new_rule_result (full_call demo_call) 6 LSDN_OUT 1 LSDN_VR_DROP api_state (run_new demo_call 6 LSDN_OUT 20 LSDN_VR_DROP api_state).
Proof.
  eapply (new_masked_rule api_state 6).
  - apply api_state_sound.
  - apply api_state_sound.
  - apply api_garbage_ok.
  - vm_compute. reflexivity.
  - reflexivity.
  - apply demo_call_ok.
Defined.
