(* ===== verification/TestPrograms.v ===== *)
(** * The test programs ([test/*.c])

    The programs that the repository runs against the library, against the kernel model of
    [Kernel] with the links that the test scripts prepare: the answer of every program, what it
    leaves in memory and in the kernel. *)

From Stdlib Require Import ZArith Lia.
From stdpp Require Import base list gmap strings.
From S2P Require Import Prelude.
From S2P Require Import Status.
From S2P Require Import Nettypes.
From S2P Require Import Heap.
From S2P Require Import Base.
From S2P Require Import Model.
From S2P Require Import Nl.
From S2P Require Import Rules.
From S2P Require Import Validate.
From S2P Require Import Commit.
From S2P Require Import NetOps.
From S2P Require Import Kernel.
From S2P Require Import Api.
From S2P Require Import Shortcuts.

Local Open Scope Z_scope.

(** The constructors of [netmodel/include/nettypes.h]. *)
Definition LSDN_MK_IPV4 (a b c d : Z) : lsdn_ip_t := Ip LSDN_IPv4 [a; b; c; d].
Definition LSDN_MK_IPV6 (a b c d e f g h i j k l m n o p : Z) : lsdn_ip_t :=
  Ip LSDN_IPv6 [a; b; c; d; e; f; g; h; i; j; k; l; m; n; o; p].
Definition LSDN_MK_MAC (a b c d e f : Z) : lsdn_mac_t := [a; b; c; d; e; f].

(** [lsdn_problem_stderr_handler] only prints. *)
Definition lsdn_problem_stderr_handler : option problem_cb_t := Some (user_problem_cb 0).

(** ** test/common.c *)

Definition vxlan_port : Z := 4789.
Definition geneve_port : Z := 6081.

(** [nettype] is the environment variable LSCTL_NETTYPE. *)
Definition settings_from_env (nettype : option string) (ctx : ptr) : M heap (option ptr) :=
  match nettype with
  | None => fail Aborted
  | Some nettype =>
      if bool_decide (nettype = "vlan") then lsdn_settings_new_vlan ctx
      else if bool_decide (nettype = "vxlan/e2e") then lsdn_settings_new_vxlan_e2e ctx vxlan_port
      else if bool_decide (nettype = "vxlan/static") then lsdn_settings_new_vxlan_static ctx vxlan_port
      else if bool_decide (nettype = "vxlan/mcast") then
        lsdn_settings_new_vxlan_mcast ctx (LSDN_MK_IPV4 239 239 239 239) vxlan_port
      else if bool_decide (nettype = "direct") then lsdn_settings_new_direct ctx
      else if bool_decide (nettype = "geneve") then lsdn_settings_new_geneve ctx geneve_port
      else if bool_decide (nettype = "geneve/e2e") then lsdn_settings_new_geneve_e2e ctx geneve_port
      else fail Aborted
  end.

(** ** test/test_basic.c *)

(** The lines that make a phys, and those that make a virt. *)
Definition basic_phys (ctx : ptr) (ip : lsdn_ip_t) (name : string) : M heap ptr :=
  m ← lsdn_phys_new ctx;
  phys ← deref m;
  _ ← lsdn_phys_set_ip phys ip;
  _ ← lsdn_phys_set_iface phys "out";
  _ ← lsdn_phys_set_name phys (Some name);
  mret phys.
Definition basic_virt (net phys : ptr) (iface : string) (mac : lsdn_mac_t) : M heap ptr :=
  m ← lsdn_virt_new net;
  virt ← deref m;
  _ ← lsdn_virt_connect virt phys iface;
  _ ← lsdn_virt_set_mac virt mac;
  mret virt.

Definition test_basic (nettype : option string) (argv : list string) : M heap Z :=
  _ ← assert_ (bool_decide (length argv = 2%nat));
  m ← lsdn_context_new "ls";
  _ ← lsdn_context_abort_on_nomem m;
  ctx ← deref m;
  settings ← settings_from_env nettype ctx;
  phys_a ← basic_phys ctx (LSDN_MK_IPV4 172 16 0 1) "a";
  phys_b ← basic_phys ctx (LSDN_MK_IPV4 172 16 0 2) "b";
  phys_c ← basic_phys ctx (LSDN_MK_IPV4 172 16 0 3) "c";
  settings ← deref settings;
  m ← lsdn_net_new settings 1;
  vlan1 ← deref m;
  _ ← lsdn_phys_attach phys_a vlan1;
  _ ← lsdn_phys_attach phys_b vlan1;
  _ ← lsdn_phys_attach phys_c vlan1;
  virt_a1 ← basic_virt vlan1 phys_a "1" (LSDN_MK_MAC 0 0 0 0 0 0xa1);
  virt_a2 ← basic_virt vlan1 phys_a "2" (LSDN_MK_MAC 0 0 0 0 0 0xa2);
  virt_b1 ← basic_virt vlan1 phys_b "1" (LSDN_MK_MAC 0 0 0 0 0 0xb1);
  virt_c1 ← basic_virt vlan1 phys_c "1" (LSDN_MK_MAC 0 0 0 0 0 0xc1);
  m ← lsdn_net_new settings 2;
  vlan2 ← deref m;
  _ ← lsdn_phys_attach phys_a vlan2;
  _ ← lsdn_phys_attach phys_b vlan2;
  virt_a3 ← basic_virt vlan2 phys_a "3" (LSDN_MK_MAC 0 0 0 0 0 0xa3);
  virt_b2 ← basic_virt vlan2 phys_b "2" (LSDN_MK_MAC 0 0 0 0 0 0xb2);
  local ← lsdn_phys_by_name ctx (argv !! 1%nat);
  _ ← assert_ (bool_decide (local ≠ None));
  local ← deref local;
  _ ← lsdn_phys_claim_local local;
  _ ← lsdn_commit ctx lsdn_problem_stderr_handler;
  _ ← lsdn_context_free ctx;
  mret 0.

(** ** test/test_fw.c *)

(** The arguments of the shortcuts stand in the order of the program: the priority where
    [lsdn_vr_new_src_ip] takes the direction, and the direction where it takes the priority. *)
Definition test_fw (nettype : option string) (argv : list string) : M heap Z :=
  _ ← assert_ (bool_decide (length argv = 1%nat));
  m ← lsdn_context_new "ls";
  _ ← lsdn_context_abort_on_nomem m;
  ctx ← deref m;
  settings ← settings_from_env nettype ctx;
  settings ← deref settings;
  m ← lsdn_net_new settings 1;
  net ← deref m;
  m ← lsdn_phys_new ctx;
  phys ← deref m;
  _ ← lsdn_phys_attach phys net;
  _ ← lsdn_phys_set_iface phys "out";
  _ ← lsdn_phys_set_ip phys (LSDN_MK_IPV4 172 16 0 1);
  _ ← lsdn_phys_claim_local phys;
  m ← lsdn_virt_new net;
  v1 ← deref m;
  _ ← lsdn_virt_set_mac v1 (LSDN_MK_MAC 0 0 0 0 0 0xa1);
  _ ← lsdn_virt_connect v1 phys "1";
  _ ← lsdn_vr_new_src_ip v1 (value_direction 0) (direction_value LSDN_IN) (LSDN_MK_IPV4 192 168 99 2) LSDN_VR_DROP;
  _ ← lsdn_vr_new_dst_ip v1 (value_direction 0) (direction_value LSDN_OUT) (LSDN_MK_IPV4 192 168 99 3) LSDN_VR_DROP;
  m ← lsdn_virt_new net;
  v2 ← deref m;
  _ ← lsdn_virt_set_mac v2 (LSDN_MK_MAC 0 0 0 0 0 0xa2);
  _ ← lsdn_virt_connect v2 phys "2";
  _ ← lsdn_commit ctx lsdn_problem_stderr_handler;
  _ ← lsdn_context_free ctx;
  mret 0.

(** ** test/test_mtu.c *)

(** The lines that build the network; [get_mtu] is what the kernel answers for the MTU of an
    interface. *)
Definition mtu_network (argv : list string) : M heap (ptr * ptr) :=
  _ ← assert_ (bool_decide (length argv = 1%nat));
  m ← lsdn_context_new "ls";
  _ ← lsdn_context_abort_on_nomem m;
  ctx ← deref m;
  m ← lsdn_settings_new_vxlan_mcast ctx (LSDN_MK_IPV4 239 239 239 239) 0;
  settings ← deref m;
  m ← lsdn_net_new settings 1;
  net ← deref m;
  m ← lsdn_phys_new ctx;
  phys ← deref m;
  _ ← lsdn_phys_attach phys net;
  _ ← lsdn_phys_set_iface phys "lo";
  _ ← lsdn_phys_claim_local phys;
  m ← lsdn_virt_new net;
  v1 ← deref m;
  _ ← lsdn_virt_set_mac v1 (LSDN_MK_MAC 0 0 0 0 0 0xa1);
  _ ← lsdn_virt_connect v1 phys "1";
  mret (ctx, v1).
Definition test_mtu (get_mtu : Z → lsdn_err_t * Z) (argv : list string) : M heap Z :=
  '(ctx, v1) ← mtu_network argv;
  answer ← lsdn_virt_get_recommended_mtu get_mtu v1;
  _ ← assert_ (bool_decide (answer.1 = LSDNE_OK));
  mtu ← deref answer.2;
  _ ← assert_ (mtu =? 65536 - 36 - 14);
  _ ← lsdn_context_free ctx;
  mret 0.

(** ** test/test_nettypes.c *)

Definition check_ip (ip : lsdn_ip_t) (str : string) : M unit unit :=
  let '(err, actual) := lsdn_parse_ip (String.list_ascii_of_string str) in
  if bool_decide (err ≠ LSDNE_OK) then fail Aborted else
  actual ← deref actual;
  if negb (lsdn_ip_eq ip actual) then fail Aborted else mret tt.

Definition test_nettypes : M unit Z :=
  _ ← check_ip (LSDN_MK_IPV4 1 1 1 1) "1.1.1.1";
  _ ← check_ip (LSDN_MK_IPV4 128 1 1 1) "128.1.1.1";
  _ ← check_ip (LSDN_MK_IPV4 12 1 1 1) "12.1.1.1";
  _ ← check_ip (LSDN_MK_IPV6 1 1 1 1 1 1 1 1 1 1 1 1 1 1 1 1) "0101:0101:0101:0101:0101:0101:0101:0101";
  mask ← lsdn_ip_mask_from_prefix LSDN_IPv4 28;
  if negb (lsdn_ip_eq mask (LSDN_MK_IPV4 0xFF 0xFF 0xFF 0xF0)) then fail Aborted else
  mask ← lsdn_ip_mask_from_prefix LSDN_IPv6 127;
  if negb (lsdn_ip_eq mask (LSDN_MK_IPV6 0xFF 0xFF 0xFF 0xFF 0xFF 0xFF 0xFF 0xFF
                                         0xFF 0xFF 0xFF 0xFF 0xFF 0xFF 0xFF 0xFE)) then fail Aborted else
  mret 0.

(** ** What the programs do *)

(** The network namespace of a phys, as [parts/basic_common.sh] prepares it: the interface [out]
    and one for every virtual machine. *)
Definition namespace (ifaces : list string) : kstate :=
  KState (list_to_map (imap (λ i n, (Z.of_nat i + 1, Link n LinkDummy 0 true)) ifaces)) (Z.of_nat (length ifaces) + 1).
Definition run_in {A} (ifaces : list string) (m : M heap A) : res heap A :=
  m (empty_heap (kernel_env_of (namespace ifaces) (λ _, true) (λ _, true))).

(** A program that exits with 0, without a message of the library, a fault, or an object of the
    library left in memory, and whose requests to the kernel satisfy [P]. *)
Definition passes (P : list (request * bool) → bool) (r : res heap Z) : bool :=
  match r with
  | Ok status s =>
      (status =? 0) && bool_decide (length (H.events s) = 0%nat) && bool_decide (length (map_to_list (H.objs s)) = 0%nat) &&
      P (H.trace s)
  | Fault _ => false
  end.

(** Two interfaces are ports of one bridge. *)
Definition bridge_of (k : kstate) (iface : string) : Z :=
  match links k !! index_of iface k with Some l => l_master l | None => 0 end.
Definition bridged (k : kstate) (i j : string) : bool :=
  negb (bridge_of k i =? 0) && (bridge_of k i =? bridge_of k j).

(** The machines of every phys: those in the first network and those in the second. *)
Definition machines : list (string * (list string * list string)) :=
  [("a", (["1"; "2"], ["3"])); ("b", (["1"], ["2"])); ("c", (["1"], []))].
Definition same_net (nets : list string * list string) (i j : string) : bool :=
  bool_decide (i ∈ nets.1 ∧ j ∈ nets.1) || bool_decide (i ∈ nets.2 ∧ j ∈ nets.2).

Definition learning_types : list string := ["vlan"; "vxlan/e2e"; "vxlan/mcast"; "geneve/e2e"].
Definition static_types : list string := ["vxlan/static"; "geneve"].

(** [test_basic] on the phys [phys] in the namespace of [nets]. *)
Definition basic_on (nettype phys : string) (nets : list string * list string) : res heap Z :=
  run_in ("out" :: nets.1 ++ nets.2) (test_basic (Some nettype) ["test_basic"; phys]).
(** The bridges join the machines of a network, and no others. *)
Definition joined (nets : list string * list string) (tr : list (request * bool)) : bool :=
  let k := kernel (namespace ("out" :: nets.1 ++ nets.2)) tr in
  forallb (λ i, forallb (λ j, bool_decide (bridged k i j = same_net nets i j)) (nets.1 ++ nets.2)) (nets.1 ++ nets.2).

Lemma forallb_elem {A} (f : A → bool) l x : forallb f l = true → x ∈ l → f x = true.
Proof. intros H Hx. eapply forallb_forall; [exact H|by apply list_elem_of_In]. Qed.
Lemma on_all (f : string → string * (list string * list string) → bool) types :
  forallb (λ t, forallb (f t) machines) types = true → ∀ t m, t ∈ types → m ∈ machines → f t m = true.
Proof. intros H t m Ht Hm. eapply forallb_elem; [|exact Hm]. by eapply (forallb_elem _ _ t) in H. Qed.

(** [test_basic] passes on every phys, for the network types that are tested; with a
    learning bridge, two machines of the phys share a bridge exactly if they are in the same
    network. *)
Theorem test_basic_passes :
  (∀ nettype phys, nettype ∈ learning_types → phys ∈ machines →
     passes (joined phys.2) (basic_on nettype phys.1 phys.2) = true) ∧
  (∀ nettype phys, nettype ∈ static_types → phys ∈ machines →
     passes (λ _, true) (basic_on nettype phys.1 phys.2) = true).
Proof. split; apply on_all; vm_compute; reflexivity. Qed.

(** Two networks without tunnels are accepted, although the interface of the phys can be a port of
    one bridge only: the machines of the second network have no way out, and are separated from
    those of the first. *)
Theorem direct_networks_separated :
  passes (λ tr, let k := kernel (namespace ["out"; "1"; "2"; "3"]) tr in
    bridged k "out" "1" && negb (bridged k "out" "3") && negb (bridged k "1" "3"))
    (basic_on "direct" "a" (["1"; "2"], ["3"])) = true.
Proof. vm_compute. reflexivity. Qed.

(** The filters with which the kernel drops packets: the interface, the parent, and the match. *)
Definition drops (tr : list (request * bool)) : list (Z * Z * list flower_opt) :=
  omap (λ m : request * bool, match m with
        | (ReqFilterCreate f, true) =>
            match (f_acts f).*2 with [TcDrop] => Some (f_ifindex f, f_parent f, f_opts f) | _ => None end
        | _ => None
        end) tr.

#[local] Instance flower_opt_eq_dec : EqDecision flower_opt.
Proof. solve_decision. Defined.

(** What [test_fw] is to leave in the kernel: packets from 192.168.99.2 do not leave the
    interface [1] for the machine, and packets to 192.168.99.3 do not come in from it. *)
Definition fw_filters : list (Z * Z * list flower_opt) :=
  [(2, LSDN_ROOT_HANDLE, [FlEthType ETH_P_IP; FlKey LSDN_MATCH_SRC_IPV4 [192; 168; 99; 2] [255; 255; 255; 255]]);
   (2, LSDN_INGRESS_HANDLE, [FlEthType ETH_P_IP; FlKey LSDN_MATCH_DST_IPV4 [192; 168; 99; 3] [255; 255; 255; 255]])].
Definition fw_on (nettype : string) : res heap Z :=
  run_in ["out"; "1"; "2"] (test_fw (Some nettype) ["test_fw"]).

(** [test_fw] passes for the network types that are tested, with exactly the two filters it is
    to make: its arguments are in the wrong order for [lsdn_vr_new_src_ip] and
    [lsdn_vr_new_dst_ip], and these put them into the wrong order once more. *)
Theorem test_fw_passes nettype : nettype ∈ ["vlan"; "vxlan/static"] →
  passes (λ tr, bool_decide (drops tr = fw_filters)) (fw_on nettype) = true.
Proof. apply (forallb_elem (λ t, passes _ (fw_on t))). vm_compute. reflexivity. Qed.

(** [test_mtu] with an interface [lo] of a given MTU. *)
Definition mtu_on (mtu : Z) : res heap Z := run_in ["lo"; "1"] (test_mtu (λ _, (LSDNE_OK, mtu)) ["test_mtu"]).
Definition at_end (r : res heap Z) : bool := passes (λ tr, bool_decide (length tr = 0%nat)) r.

(** The answer depends on the MTU of the interface only by an offset. *)
Lemma recommended_mtu_shift virt s x s' mtu :
  lsdn_virt_get_recommended_mtu (λ _, (LSDNE_OK, 0)) virt s = Ok (LSDNE_OK, Some x) s' →
  lsdn_virt_get_recommended_mtu (λ _, (LSDNE_OK, mtu)) virt s = Ok (LSDNE_OK, Some (u32 (mtu + x))) s'.
Proof.
  unfold lsdn_virt_get_recommended_mtu, mbind, M_bind. cbn [fst snd].
  repeat (match goal with |- match ?t with Ok _ _ => _ | Fault _ => _ end = _ → _ => destruct t as [? ?|] eqn:?
          | |- (match ?t with Some _ => _ | None => _ end _ = _ → _) => destruct t
          | |- ((if ?t then _ else _) _ = _ → _) => destruct t end; try discriminate; cbn [negb]).
  intros [= -> <- <-]. unfold mret, M_ret. do 3 f_equal. unfold u32. change (2 ^ 32) with 4294967296.
  Z.div_mod_to_equations. lia.
Qed.
Lemma mtu_asked mtu : ∃ s s', run_in ["lo"; "1"] (mtu_network ["test_mtu"]) = Ok (1, 6)%positive s ∧
  lsdn_virt_get_recommended_mtu (λ _, (LSDNE_OK, mtu)) 6 s = Ok (LSDNE_OK, Some (u32 (mtu - 50))) s' ∧
  at_end ((_ ← lsdn_context_free 1; mret 0) s') = true.
Proof.
  assert (match run_in ["lo"; "1"] (mtu_network ["test_mtu"]) with
          | Ok a s => a = (1, 6)%positive ∧
              match lsdn_virt_get_recommended_mtu (λ _, (LSDNE_OK, 0)) 6 s with
              | Ok a s' => a = (LSDNE_OK, Some (2 ^ 32 - 50)) ∧ at_end ((_ ← lsdn_context_free 1; mret 0) s') = true
              | Fault _ => False
              end
          | Fault _ => False
          end) as H by (vm_compute; split_and!; reflexivity).
  destruct (run_in _ _) as [a s|]; [|done]. destruct H as [-> H]. exists s.
  destruct (lsdn_virt_get_recommended_mtu _ _ _) as [a s'|] eqn:E; [|done]. destruct H as [-> H]. exists s'. split_and!; [done| |done].
  replace (u32 (mtu - 50)) with (u32 (mtu + (2 ^ 32 - 50))); [by apply recommended_mtu_shift|].
  unfold u32. change (2 ^ 32) with 4294967296. Z.div_mod_to_equations. lia.
Qed.
(** [test_mtu] passes exactly if the interface [lo] has the MTU it expects, 65536, up to a
    multiple of 2^32, and fails its assertion otherwise. *)
Theorem test_mtu_passes mtu :
  if mtu mod 2 ^ 32 =? 65536 then at_end (mtu_on mtu) = true
  else mtu_on mtu = Fault AssertFailed.
Proof.
  destruct (mtu_asked mtu) as (s & s' & Hn & Ha & Hp).
  assert (Hm : (u32 (mtu - 50) =? 65536 - 36 - 14) = (mtu mod 2 ^ 32 =? 65536)).
  { apply eq_true_iff_eq. rewrite !Z.eqb_eq. unfold u32. change (2 ^ 32) with 4294967296. Z.div_mod_to_equations. lia. }
  assert (Hr : mtu_on mtu = (_ ← assert_ (u32 (mtu - 50) =? 65536 - 36 - 14); _ ← lsdn_context_free 1; mret 0) s').
  { unfold run_in in Hn. unfold mtu_on, run_in, test_mtu. unfold mbind at 1, M_bind at 1. rewrite Hn.
    unfold mbind at 1, M_bind at 1. by rewrite Ha. }
  rewrite Hr, Hm. by destruct (mtu mod 2 ^ 32 =? 65536).
Qed.

(** The addresses and masks of [test_nettypes] are what it expects. *)
Theorem test_nettypes_passes : test_nettypes () = Ok 0 ().
Proof. vm_compute. reflexivity. Qed.
